(* ===== verification/_CoqProject ===== *)
-Q . S2P
Prelude.v
Text.v
Markup.v
Extern.v
Policy.v
Manifest.v
InstallLock.v
Dlc.v
DlcTheorems.v
DlcEnvironment.v
PluginWitnesses.v
DlcWitnesses.v
Content.v
Ai2Ai.v
Renderer.v
Comments.v
SocialEmbeds.v
Seo.v
StoreBase.v
StoreTaxonomy.v
CustomCss.v
Accounts.v
AccountsSpec.v
AccountsRefine.v
AccountsTheorems.v
AccountsWitnesses.v
StoreContent.v
StoreFeed.v
OfflineImport.v
StoreSpec.v
Samples.v
StoreRefine.v
FeedRefine.v
ImportRefine.v
Store.v
StoreTheorems.v
ImportTheorems.v
StoreSeries.v
FeedTheorems.v
StoreWitnesses.v
FeedWitnesses.v
CoreWitnesses.v
Monetization.v
Replace.v
Admission.v
Cache.v
CacheTheorems.v
Signing.v
CacheHttp.v
Auth.v
AuthTheorems.v
AuthWitnesses.v
Features.v
AdminTree.v
AdminTreeTheorems.v
AdminTreeWitnesses.v
Startup.v
StartupWitnesses.v
SiteRevisions.v
Blog.v
Studio.v
StudioTheorems.v
BlogTheorems.v
BlogWitnesses.v
ContentApi.v
ContentApiTheorems.v
ContentApiWitnesses.v
Release.v
ReleaseTheorems.v
ReleaseWitnesses.v
Findings.v
