(* ===== verification/Prelude.v ===== *)
(** * OpenSoverignBlog: a verification development

    OpenSoverignBlog is a self-hosted blog: a Rust kernel with the content
    model and the policies, an SQLite store, an HTTP server with an optional
    Redis response cache, and a command line that installs optional modules
    ("DLCs").  This library models the logic of the kernel, the store, the
    module lifecycle and the parts of the server that decide who may do what
    and what is served; every definition is a translation of the Rust code.

    ** How the parts interact

    A visitor's request passes the cache middleware (CacheHttp over the
    protocol of Cache) and reaches a public handler (Blog, ContentApi), which
    reads published documents from the store (StoreContent, StoreFeed) and
    renders them (Renderer, with Seo's URLs and the embeds of SocialEmbeds).  A
    signed-in member's or administrator's request passes a guard (Auth) that
    resolves a cookie with the sessions of Accounts, is limited by Admission,
    and runs a write of the store (Studio); an agent's request carries the
    configured token and passes the administrator guard (ContentApi), or is an
    envelope (Ai2Ai) whose proposal is content (Content), and ends in the same
    writes.  Writes drive the cache's coherence protocol.  At start-up
    (Startup, Features) the server checks the store against its configuration
    and mounts the modules of the installation, whose intent and lock
    (InstallLock, made of Manifest's manifests) the command line edits (Dlc)
    through a three-file transaction (Replace).

    ** Files and the code they model (paths under src/)

    - Prelude, Text, Markup, Extern: results, options, lists and tactics; Rust text as
      Unicode scalar values with its UTF-8 bytes; HTML escaping with a
      reference reader of markup; one class per third-party
      crate, with toy instances at which everything evaluates.
    - Policy: crates/kernel/src/policy.rs, features/rbac, features/external-auth.
      [AccessPolicy] is the trait; both policies are instances of the class.
    - Content, Ai2Ai: crates/kernel/src/content.rs and ai2ai.rs.
    - StoreBase, StoreTaxonomy, StoreContent, StoreFeed, OfflineImport,
      CustomCss, Accounts: crates/storage-sqlite/src/lib.rs.  A table is a
      finite map from primary keys to rows; a transaction is a function from
      the database to an error or an answer and a new database; one definition
      per public operation and per helper it calls.  Store collects the writes
      in [op] with [run] and [runs]; Accounts does so with [account_op] and
      [account_runs].
    - StoreSpec, AccountsSpec: the abstract stores, guarded row steps with
      their invariants [wf] and [account_wf].  StoreRefine, FeedRefine,
      ImportRefine, AccountsRefine: every operation is a sequence of steps.
      StoreTheorems, StoreSeries, FeedTheorems, ImportTheorems,
      AccountsTheorems: the properties of every history of operations.
    - Manifest, InstallLock: crates/plugin-api/src/lib.rs, with the derived
      serde code written out.  Dlc, DlcTheorems, DlcEnvironment, Replace:
      apps/cli/src/bootstrap/dlc_lifecycle.rs and the functions of
      apps/cli/src/bootstrap.rs it uses.
    - Renderer, SocialEmbeds, Comments, Seo: crates/renderer,
      apps/server/src/social_embeds.rs, features/comments and features/seo.
      The Markdown parser and the HTML sanitizer are parameters; what the
      renderer does with their events and with embeds, formulas and summaries
      is defined.
    - Monetization: features/monetization-policy.
    - Admission, Cache, Signing, CacheHttp, Auth, Features, AdminTree, Startup:
      apps/server/src: admission.rs; cache.rs and the middleware of main.rs;
      the HMAC of main.rs; admin_auth.rs with the account handlers of
      community.rs and the guard of main.rs; feature_registry.rs and the
      composition in main.rs; admin_tree.rs; the start-up checks of main.rs.
    - Blog, Studio: apps/server/src/community.rs.  The handlers are state
      transformers on the server's state, the content and account tables and
      the count of cache guards; Blog holds the views and public answers,
      Studio the private requests behind the guards of the routes.
      StudioTheorems relates a request to one operation of the store, and
      BlogTheorems follows histories of them; SiteRevisions shows that the
      theme revision of a site moves with every change of it.
    - ContentApi, ContentApiTheorems: the listing of posts and the guarded
      content routes of apps/server/src/main.rs.
    - Release, ReleaseTheorems: apps/server/src/version.rs, with UTF-8 decoding
      as the standard library does it.
    - The files ending in Witnesses instantiate the theorems at concrete inputs
      (Samples holds the shared ones); Findings evaluates runs that show
      behaviour the code does not announce.

    ** What the theorems show

    - The store refines its abstract specification, an operation that fails
      changes nothing, unauthorised operations are refused; optimistic
      concurrency, idempotency keys, linear and append-only histories, one
      canonical URL per published document, and a public view that only
      publication changes; reordering a series yields the submitted
      permutation; the home feed and comments; retried imports.
    - Every site keeps one owner; an accepted owner session was issued under
      the stored administrator binding and a retired credential is never
      accepted again; at the HTTP boundary an owner's authority comes from a
      verified credential; a server that starts is bound to its configuration.
    - Every change a studio request makes is one operation its user was
      allowed; drafting leaves the answer for every post as it was; a post's
      validator stands for its whole answer but the author's name, which an
      import may change.  Calls of the content API stay on the configured site
      and carry the caller's name, or the submitting AI's, and the listing of
      posts leads to the posts it lists.  These hold after any history of the
      store's operations, imports included.
    - The page of a revision's Markdown is the sanitized output of the writer
      on events in which raw HTML is text, and markup only a facade or a
      formula of a fixed form; an intent's page is sanitized HTML with such
      facades put in, sanitized again; an excerpt is a bounded prefix.
    - Content, cache entries and installation locks are identified by their
      digests or SHA-256 has a collision; an accepted envelope, manifest,
      stylesheet or advertisement is contained in the sense of a reference
      grammar or scanner.
    - The lifecycle commands keep a deployment verified, never lose a migration
      ledger, never panic, and write an environment that reads back; the file
      transaction is all or nothing whatever operation fails.
    - The release status shows the last channel that passed every check and
      announces an update exactly when that channel lists a newer release.
    - The limiter agrees with an unbounded sliding window; a cached response is
      never older than the request, and a repair that Redis answers restores
      caching; the program tree shows what is stored, page by page.

    ** Parameters, bounds and fuel

    Third-party code is an argument with its documented behaviour as named
    hypotheses: URL parsing, semver, SHA-256, UUID and base64 text, TOML and
    JSON text, Markdown events, the HTML sanitizer, argon2, the OIDC client, dates,
    header values, the extraction of path segments.  The clock, fresh
    identifiers and random bytes are arguments of each operation, in the order
    the code takes them.  The iteration order of a hash map is part of the call
    that meets it; file-system faults come from an oracle; Redis may refuse,
    lose or evict at every step.  Integers keep their width where they can
    leave it: SQLite's signed 64-bit columns, the u64 generations and epochs
    and the page offsets are compared with their bounds or wrapped.

    Loops are structural where the code's are.  Two have fuel: the category
    scan of Startup takes 100 pages of 500 rows, which is the code's limit of
    50000 rows ([scan_ends]: the fuel never runs out); following the cursors of
    the program tree takes length / page size + 1 requests, which the
    termination theorem proves to be enough.

    ** Not modelled

    The SQL engine, migrations, durability profiles, backup and restore (the
    tables are those the migrations end with): their effects are SQLite's and
    the file system's.  HTML pages, discovery documents and static files, which
    format what the modelled handlers answer.  HTTP transport and routing, which are axum's, and
    the Redis client's connection handling.  The file-system asset store, the
    code runner's client and the AI summary provider's client: their work is
    file and network access, and what the server accepts from them is
    validated by the modelled content rules.  The settings parser of the
    server and the installation check, which read environment variables and
    files.  The process and
    container orchestration of the command line.  The MCP server, a protocol
    adapter over the content API.  The web studio and the SDK, which are
    TypeScript. *)

From Stdlib Require Import Bool NArith ZArith Lia.
From stdpp Require Export base tactics option list gmap strings numbers sorting relations.

#[export] Set Default Goal Selector "!".
#[export] Set Warnings "-notation-overridden,-ambiguous-paths,-clear-no-such-hyp,-register-all".

(** ** Fallible computations: Rust's [Result<A, E>] *)

Inductive result (E A : Type) : Type :=
| Ok (a : A)
| Err (e : E).
Arguments Ok {E A} _.
Arguments Err {E A} _.

#[export] Instance result_eq_dec {E A} `{EqDecision E, EqDecision A} :
  EqDecision (result E A).
Proof. solve_decision. Defined.

#[export] Instance result_ret {E} : MRet (result E) := fun A a => Ok a.
#[export] Instance result_bind {E} : MBind (result E) := fun A B f m =>
  match m with Ok a => f a | Err e => Err e end.
#[export] Instance result_fmap {E} : FMap (result E) := fun A B f m =>
  match m with Ok a => Ok (f a) | Err e => Err e end.

Section result.
Context {E A : Type}.
Implicit Types (m : result E A) (b : bool) (e : E).

(** [if b { return Err(e) }] *)
Definition fail_if (b : bool) (e : E) : result E unit :=
  if b then Err e else Ok tt.

(** [ensure!(b, e)] *)
Definition ensure (b : bool) (e : E) : result E unit :=
  if b then Ok tt else Err e.

(** [Option::ok_or] *)
Definition ok_or (o : option A) (e : E) : result E A :=
  match o with Some a => Ok a | None => Err e end.

(** [Result::is_ok], [Result::is_err] and [Result::ok] *)
Definition is_ok m : bool := match m with Ok _ => true | Err _ => false end.
Definition is_err m : bool := negb (is_ok m).
Definition to_option m : option A := match m with Ok a => Some a | Err _ => None end.

Lemma fail_if_Ok b e u : fail_if b e = Ok u <-> b = false.
Proof. destruct b, u; naive_solver. Qed.
Lemma ensure_Ok b e u : ensure b e = Ok u <-> b = true.
Proof. destruct b, u; naive_solver. Qed.
Lemma ok_or_Ok (o : option A) e a : ok_or o e = Ok a <-> o = Some a.
Proof. destruct o; naive_solver. Qed.
Lemma is_ok_true m : is_ok m = true <-> exists a, m = Ok a.
Proof. destruct m; naive_solver. Qed.
Lemma is_err_true m : is_err m = true <-> exists e, m = Err e.
Proof. destruct m; naive_solver. Qed.
Lemma fail_if_Err b e e' : fail_if b e = Err e' <-> b = true /\ e = e'.
Proof. destruct b; naive_solver. Qed.
Lemma ensure_Err b e e' : ensure b e = Err e' <-> b = false /\ e = e'.
Proof. destruct b; naive_solver. Qed.
Lemma ok_or_Err (o : option A) e e' : ok_or o e = Err e' <-> o = None /\ e = e'.
Proof. destruct o; naive_solver. Qed.
End result.

(** [Result::map_err] *)
Definition map_err {E F A} (f : E -> F) (m : result E A) : result F A :=
  match m with Ok a => Ok a | Err e => Err (f e) end.

(** [Option::map(f).transpose()?] *)
Definition transpose_map {E A B} (f : A -> result E B) (o : option A) : result E (option B) :=
  match o with None => Ok None | Some a => Some <$> f a end.

Lemma bind_Ok {E A B} (m : result E A) (k : A -> result E B) b :
  m ≫= k = Ok b <-> exists a, m = Ok a /\ k a = Ok b.
Proof. destruct m; cbn; naive_solver. Qed.
Lemma bind_Err {E A B} (m : result E A) (k : A -> result E B) e :
  m ≫= k = Err e <-> m = Err e \/ exists a, m = Ok a /\ k a = Err e.
Proof. destruct m; cbn; naive_solver. Qed.
Lemma fmap_Ok {E A B} (m : result E A) (f : A -> B) b :
  f <$> m = Ok b <-> exists a, m = Ok a /\ f a = b.
Proof. destruct m; cbn; naive_solver. Qed.
Lemma map_err_Ok {E F A} (f : E -> F) (m : result E A) a :
  map_err f m = Ok a <-> m = Ok a.
Proof. destruct m; cbn; naive_solver. Qed.
Lemma map_err_Err {E F A} (f : E -> F) (m : result E A) e :
  map_err f m = Err e <-> exists e0, m = Err e0 /\ f e0 = e.
Proof. destruct m; cbn; naive_solver. Qed.
Lemma transpose_map_Ok {E A B} (f : A -> result E B) o ob :
  transpose_map f o = Ok ob <->
  match o with None => ob = None | Some a => exists b, f a = Ok b /\ ob = Some b end.
Proof. destruct o as [a|]; cbn; [destruct (f a)|]; cbn; naive_solver. Qed.

(** The monad laws, used to reassociate long handlers. *)
Lemma result_bind_ret_l {E A B} (a : A) (k : A -> result E B) : mret a ≫= k = k a.
Proof. reflexivity. Qed.
Lemma result_bind_assoc {E A B C} (m : result E A) (f : A -> result E B) (g : B -> result E C) :
  (m ≫= f) ≫= g = m ≫= (fun a => f a ≫= g).
Proof. by destruct m. Qed.

(** A [for] loop whose body returns early with [?]. *)
Section loops.
Context {E A S : Type}.

Fixpoint for_each (f : A -> result E unit) (l : list A) : result E unit :=
  match l with
  | [] => Ok tt
  | a :: l => f a ;; for_each f l
  end.

(** The same with a loop-carried variable. *)
Fixpoint for_fold (f : S -> A -> result E S) (s : S) (l : list A) : result E S :=
  match l with
  | [] => Ok s
  | a :: l => s' ← f s a; for_fold f s' l
  end.

(** [Iterator::map(f).collect::<Result<Vec<_>, _>>()] *)
Fixpoint traverse {B} (f : A -> result E B) (l : list A) : result E (list B) :=
  match l with
  | [] => Ok []
  | a :: l => b ← f a; bs ← traverse f l; Ok (b :: bs)
  end.

Lemma for_each_Ok f l u : for_each f l = Ok u <-> Forall (fun a => f a = Ok tt) l.
Proof.
  destruct u. induction l as [|a l IH]; cbn; [naive_solver|].
  rewrite Forall_cons, <-IH. destruct (f a) as [[]|]; cbn; naive_solver.
Qed.

Lemma traverse_Ok {B} (f : A -> result E B) l bs :
  traverse f l = Ok bs <-> Forall2 (fun a b => f a = Ok b) l bs.
Proof.
  revert bs. induction l as [|a l IH]; intros bs; cbn.
  - split; [intros [= <-]; constructor | by inversion 1].
  - rewrite bind_Ok. setoid_rewrite bind_Ok. setoid_rewrite IH.
    split.
    + intros (b & ? & bs' & ? & [= <-]). by constructor.
    + inversion 1; subst; eauto 10.
Qed.
End loops.

(** ** Automation *)

Create HintDb osb.
#[export] Hint Resolve -> bind_Ok fmap_Ok fail_if_Ok ensure_Ok ok_or_Ok map_err_Ok : osb.

(** [bool_simpl]: turn boolean guards that are known to hold into propositions. *)
Ltac bool_simpl :=
  repeat match goal with
  | H : (_ && _)%bool = true |- _ => apply andb_true_iff in H as [? ?]
  | H : (_ || _)%bool = false |- _ => apply orb_false_iff in H as [? ?]
  | H : negb _ = true |- _ => apply negb_true_iff in H
  | H : negb _ = false |- _ => apply negb_false_iff in H
  | H : bool_decide _ = true |- _ => apply bool_decide_eq_true in H
  | H : bool_decide _ = false |- _ => apply bool_decide_eq_false in H
  | H : (_ <=? _)%N = true |- _ => apply N.leb_le in H
  | H : (_ <? _)%N = true |- _ => apply N.ltb_lt in H
  | H : (_ <=? _)%N = false |- _ => apply N.leb_gt in H
  | H : (_ <? _)%N = false |- _ => apply N.ltb_ge in H
  | H : (_ =? _)%N = true |- _ => apply N.eqb_eq in H
  | H : (_ =? _)%N = false |- _ => apply N.eqb_neq in H
  | H : (_ <=? _)%Z = true |- _ => apply Z.leb_le in H
  | H : (_ <? _)%Z = true |- _ => apply Z.ltb_lt in H
  | H : (_ <=? _)%Z = false |- _ => apply Z.leb_gt in H
  | H : (_ <? _)%Z = false |- _ => apply Z.ltb_ge in H
  | H : (_ =? _)%Z = true |- _ => apply Z.eqb_eq in H
  end.

(** [inv_ok]: run a successful monadic computation backwards, producing one
    hypothesis per step. *)
Ltac inv_ok :=
  repeat match goal with
  | H : _ ≫= _ = Ok _ |- _ => apply bind_Ok in H as (? & ? & ?)
  | H : _ <$> _ = Ok _ |- _ => apply fmap_Ok in H as (? & ? & ?)
  | H : fail_if _ _ = Ok _ |- _ => apply fail_if_Ok in H
  | H : ensure _ _ = Ok _ |- _ => apply ensure_Ok in H
  | H : ok_or _ _ = Ok _ |- _ => apply ok_or_Ok in H
  | H : map_err _ _ = Ok _ |- _ => apply map_err_Ok in H
  | H : Ok _ = Ok _ |- _ => injection H as H
  | H : mret _ = Ok _ |- _ => injection H as H
  | H : Err _ = Ok _ |- _ => discriminate H
  | x : unit |- _ => destruct x
  end; simplify_eq.

(** ** Lists *)

(** [values.windows(2).all(|pair| R pair[0] pair[1])] *)
Fixpoint adjacent {A} (R : A -> A -> bool) (l : list A) : bool :=
  match l with
  | [] => true
  | a :: l' => match l' with [] => true | b :: _ => R a b && adjacent R l' end
  end.

Lemma adjacent_StronglySorted {A} (R : A -> A -> bool)
    (Htrans : forall a b c, R a b = true -> R b c = true -> R a c = true) l :
  adjacent R l = true -> StronglySorted (fun a b => R a b = true) l.
Proof.
  intros H. apply Sorted_StronglySorted; [exact Htrans|].
  induction l as [|a l IH]; [constructor|].
  destruct l as [|b l]; cbn in H; [repeat constructor|].
  bool_simpl. constructor; [by apply IH|by constructor].
Qed.

(** Rust's [.len()] and counts, as binary naturals so that bounds such as
    [10 * 1024 * 1024] stay executable. *)
Definition size_of {A} (l : list A) : N := N.of_nat (length l).

(** A loop that inserts keys into a set and stops at the first repetition
    ([if !seen.insert(key) { return Err(..) }]) accepts only distinct keys. *)
Lemma seen_step {A K} `{Countable K} (key : A -> K) (seen : gset K) (v : A) (values : list A) :
  Forall (fun w => key w ∉ {[ key v ]} ∪ seen) values ->
  (key v ∉ (key <$> values)) /\ Forall (fun w => key w ∉ seen) values.
Proof.
  rewrite !Forall_forall. intros Hf. split.
  - intros (w & E & Hw)%list_elem_of_fmap. apply (Hf w Hw). rewrite E.
    by apply elem_of_union_l, elem_of_singleton_2.
  - intros w Hw Hs. apply (Hf w Hw). by apply elem_of_union_r.
Qed.

Lemma nodup_key {A K} (key : A -> K) l a b :
  NoDup (key <$> l) -> a ∈ l -> b ∈ l -> key a = key b -> a = b.
Proof.
  induction l as [|c l IH]; [by intros _ ?%not_elem_of_nil|]. cbn [fmap list_fmap].
  rewrite NoDup_cons, !elem_of_cons. intros [Hc Hnd] [->|Ha] [->|Hb] E; [done| | |by apply IH];
    exfalso; apply Hc, list_elem_of_fmap; eauto.
Qed.
