(* ===== verification/Text.v ===== *)
(** * Rust text

    [&str]/[String] values as sequences of Unicode scalar values, with the
    standard-library operations the program uses.  [.len()] and [.bytes()] go
    through the UTF-8 encoding, [.chars()] through the scalar values, [trim]
    through the Unicode [White_Space] property and [char::is_control] through
    the general category [Cc]. *)

From Stdlib Require Import Bool NArith ZArith Lia Ascii.
From Stdlib Require String.
From stdpp Require Import pretty.
From S2P Require Import Prelude.

Declare Scope rust_scope.
Delimit Scope rust_scope with R.

Abbreviation rstr := (list N).

(** ASCII literals of the source. *)
Definition lit (x : string) : rstr := Ascii.N_of_ascii <$> String.list_ascii_of_string x.
Arguments lit _%_string_scope : simpl never.

Section chars.
Local Open Scope N_scope.
Implicit Types c b : N.

Definition in_range (lo hi c : N) : bool := (lo <=? c) && (c <=? hi).

Definition is_control c : bool := in_range 0 31 c || in_range 127 159 c.
Definition is_whitespace c : bool :=
  in_range 9 13 c || (c =? 32) || (c =? 133) || (c =? 160) || (c =? 5760)
  || in_range 8192 8202 c || (c =? 8232) || (c =? 8233) || (c =? 8239)
  || (c =? 8287) || (c =? 12288).

Definition is_ascii_lowercase c : bool := in_range 97 122 c.
Definition is_ascii_uppercase c : bool := in_range 65 90 c.
Definition is_ascii_digit c : bool := in_range 48 57 c.
Definition is_ascii_alphanumeric c : bool :=
  is_ascii_lowercase c || is_ascii_uppercase c || is_ascii_digit c.
Definition is_ascii_hexdigit c : bool :=
  is_ascii_digit c || in_range 97 102 c || in_range 65 70 c.

Definition ascii_lower c : N := if is_ascii_uppercase c then c + 32 else c.

(** [matches!(c, 'x' | 'y' | ...)] over ASCII literals. *)
Definition one_of (x : string) c : bool := existsb (N.eqb c) (lit x).

Definition utf8_encode c : list N :=
  if c <? 128 then [c]
  else if c <? 2048 then [192 + c / 64; 128 + c mod 64]
  else if c <? 65536 then [224 + c / 4096; 128 + c / 64 mod 64; 128 + c mod 64]
  else [240 + c / 262144; 128 + c / 4096 mod 64; 128 + c / 64 mod 64; 128 + c mod 64].
End chars.

(** [str::bytes], [str::len], [chars().count()] *)
Definition bytes (s : rstr) : list N := mjoin (utf8_encode <$> s).
Arguments bytes : simpl never.
Definition str_len (s : rstr) : N := size_of (bytes s).
Definition char_count (s : rstr) : N := size_of s.
Definition is_empty (s : rstr) : bool := match s with [] => true | _ => false end.
Definition is_empty_list {A} (l : list A) : bool := match l with [] => true | _ => false end.
Definition str_eqb (a b : rstr) : bool := bool_decide (a = b).

Fixpoint trim_start (s : rstr) : rstr :=
  match s with
  | [] => []
  | c :: s' => if is_whitespace c then trim_start s' else s
  end.
Definition trim_end (s : rstr) : rstr := rev (trim_start (rev s)).
Definition trim (s : rstr) : rstr := trim_end (trim_start s).

Definition contains_char (c : N) (s : rstr) : bool := existsb (N.eqb c) s.
Definition contains_nul : rstr -> bool := contains_char 0.
Definition contains_any (x : string) (s : rstr) : bool := existsb (one_of x) s.

Fixpoint strip_prefix (p s : rstr) : option rstr :=
  match p, s with
  | [], _ => Some s
  | _, [] => None
  | a :: p, b :: s => if (a =? b)%N then strip_prefix p s else None
  end.
(** [strip_suffix] *)
Definition strip_suffix (q s : rstr) : option rstr := @rev N <$> strip_prefix (rev q) (rev s).
Definition starts_with (p s : rstr) : bool := bool_decide (is_Some (strip_prefix p s)).
Definition ends_with (p s : rstr) : bool := starts_with (rev p) (rev s).

(** [str::contains(&str)] *)
Fixpoint contains (p s : rstr) : bool :=
  starts_with p s || match s with [] => false | _ :: s => contains p s end.

(** [str::split(char)]: always at least one piece. *)
Fixpoint split (d : N) (s : rstr) : list rstr :=
  match s with
  | [] => [[]]
  | c :: s =>
      if (c =? d)%N then [] :: split d s
      else match split d s with
           | [] => [[c]]
           | p :: ps => (c :: p) :: ps
           end
  end.

(** [str::split_once(char)]: at the first occurrence. *)
Fixpoint split_once (d : N) (s : rstr) : option (rstr * rstr) :=
  match s with
  | [] => None
  | c :: s =>
      if (c =? d)%N then Some ([], s)
      else '(a, b) ← split_once d s; Some (c :: a, b)
  end.

(** [str::rsplit_once(&str)]: at the last occurrence. *)
Fixpoint rsplit_once (p s : rstr) : option (rstr * rstr) :=
  match s with
  | [] => match p with [] => Some ([], []) | _ => None end
  | c :: s' =>
      match rsplit_once p s' with
      | Some (a, b) => Some (c :: a, b)
      | None => (fun rest => ([], rest)) <$> strip_prefix p s
      end
  end.

(** [split_whitespace] and [join(" ")] *)
Fixpoint words_aux (acc : rstr) (s : rstr) : list rstr :=
  match s with
  | [] => if is_empty acc then [] else [rev acc]
  | c :: s =>
      if is_whitespace c
      then if is_empty acc then words_aux [] s else rev acc :: words_aux [] s
      else words_aux (c :: acc) s
  end.
Definition split_whitespace (s : rstr) : list rstr := words_aux [] s.
Fixpoint join (sep : rstr) (l : list rstr) : rstr :=
  match l with
  | [] => []
  | a :: l' => match l' with [] => a | _ => a ++ sep ++ join sep l' end
  end.

(** [trim_matches(char)] *)
Fixpoint drop_char (d : N) (s : rstr) : rstr :=
  match s with [] => [] | c :: s' => if (c =? d)%N then drop_char d s' else s end.
Definition trim_matches (d : N) (s : rstr) : rstr := rev (drop_char d (rev (drop_char d s))).

Definition to_ascii_lowercase (s : rstr) : rstr := ascii_lower <$> s.
Definition is_ascii (s : rstr) : bool := forallb (fun c => c <? 128)%N s.

(** [bytes().enumerate().all(|(index, byte)| ...)] *)
Fixpoint all_indexed (f : N -> N -> bool) (i : N) (l : list N) : bool :=
  match l with [] => true | b :: l => f i b && all_indexed f (i + 1) l end.

(** The lexicographic order of [str], which is the one of its scalar values. *)
Fixpoint str_ltb (a b : rstr) : bool :=
  match a, b with
  | _, [] => false
  | [], _ => true
  | x :: a, y :: b => (x <? y)%N || ((x =? y)%N && str_ltb a b)
  end.
Definition str_leb (a b : rstr) : bool := negb (str_ltb b a).

(** [u64::to_string] and friends. *)
Definition show_N (n : N) : rstr := lit (pretty n).

(** [(lo..=hi).contains(&n)] *)
Definition within (lo hi n : N) : bool := (lo <=? n)%N && (n <=? hi)%N.

(** Option helpers: [is_some_and], [is_none_or]. *)
Definition is_some_and {A} (p : A -> bool) (o : option A) : bool :=
  match o with Some a => p a | None => false end.
Definition is_none_or {A} (p : A -> bool) (o : option A) : bool :=
  match o with Some a => p a | None => true end.
Definition is_some {A} (o : option A) : bool := match o with Some _ => true | None => false end.
Definition is_none {A} (o : option A) : bool := negb (is_some o).

(** ** Lemmas *)

#[export] Instance rstr_eq_dec : EqDecision rstr := _.

Lemma str_eqb_eq a b : str_eqb a b = true <-> a = b.
Proof. apply bool_decide_eq_true. Qed.

Lemma existsb_false {A} (p : A -> bool) l :
  existsb p l = false <-> Forall (fun a => p a = false) l.
Proof.
  induction l as [|a l IH]; cbn; [by split|].
  rewrite orb_false_iff, Forall_cons, IH. done.
Qed.
Lemma forallb_Forall {A} (p : A -> bool) l :
  forallb p l = true <-> Forall (fun a => p a = true) l.
Proof.
  induction l as [|a l IH]; cbn; [by split|].
  rewrite andb_true_iff, Forall_cons, IH. done.
Qed.

Lemma contains_char_false c s : contains_char c s = false <-> c ∉ s.
Proof.
  unfold contains_char. rewrite existsb_false, Forall_forall.
  split.
  - intros H Hc. specialize (H c Hc). by rewrite N.eqb_refl in H.
  - intros H x Hx. apply N.eqb_neq. naive_solver.
Qed.
Lemma contains_char_app c s t : contains_char c (s ++ t) = contains_char c s || contains_char c t.
Proof. apply existsb_app. Qed.

Lemma strip_prefix_Some p s r : strip_prefix p s = Some r <-> s = p ++ r.
Proof.
  revert s. induction p as [|a p IH]; intros [|b s]; cbn; try naive_solver.
  destruct (N.eqb_spec a b); [subst; rewrite IH|]; naive_solver.
Qed.
Lemma strip_suffix_Some q s r : strip_suffix q s = Some r <-> s = r ++ q.
Proof.
  unfold strip_suffix. rewrite fmap_Some. split.
  - intros (t & E%strip_prefix_Some & ->). by rewrite <-(rev_involutive s), E, rev_app_distr, rev_involutive.
  - intros ->. exists (rev r). by rewrite strip_prefix_Some, rev_app_distr, rev_involutive.
Qed.
Lemma starts_with_true p s : starts_with p s = true <-> exists r, s = p ++ r.
Proof.
  unfold starts_with. rewrite bool_decide_eq_true. unfold is_Some.
  by setoid_rewrite strip_prefix_Some.
Qed.

Lemma contains_true p s : contains p s = true <-> exists a b, s = a ++ p ++ b.
Proof.
  induction s as [|c s IH]; cbn; rewrite orb_true_iff, starts_with_true, ?IH.
  - split; [|intros (a & b & H); left; symmetry in H].
    + intros [[r H]|]; [exists [], r|]; done.
    + apply app_nil in H as [-> ?]. by exists b.
  - split.
    + intros [[r H]|(a & b & ->)]; [by exists [], r|by exists (c :: a), b].
    + intros ([|c' a] & b & H); cbn in H; [left; by exists b|right].
      simplify_eq. by exists a, b.
Qed.

Lemma split_join d s : join [d] (split d s) = s.
Proof.
  induction s as [|c s IH]; cbn; [done|].
  assert (split d s <> []) as Hne.
  { destruct s; cbn; [done|]. repeat case_match; done. }
  destruct (N.eqb_spec c d) as [->|].
  - cbn. destruct (split d s) eqn:E; [done|]. by rewrite <-IH.
  - destruct (split d s) as [|p [|q ps]] eqn:E; [done| |]; cbn in *; by rewrite <-IH.
Qed.
Lemma split_join_inv d l : l <> [] -> Forall (fun p => d ∉ p) l -> split d (join [d] l) = l.
Proof.
  intros Hne Hl. induction Hl as [|p l Hp Hl IH]; [done|].
  assert (forall rest, split d (p ++ rest) = match split d rest with
                                             | [] => [p] | q :: qs => (p ++ q) :: qs end) as Happ.
  { clear -Hp. intros rest. induction p as [|c p IH]; cbn; [|apply not_elem_of_cons in Hp as [? ?]].
    - destruct rest as [|c rest]; cbn; [done|]. repeat case_match; done.
    - rewrite (proj2 (N.eqb_neq c d)), IH by done. by destruct (split d rest). }
  destruct l as [|q l].
  - cbn [join]. rewrite <-(app_nil_r p) at 1. rewrite Happ. cbn. by rewrite app_nil_r.
  - change (join [d] (p :: q :: l)) with (p ++ d :: join [d] (q :: l)).
    rewrite Happ. cbn [split]. rewrite N.eqb_refl, IH by done. by rewrite app_nil_r.
Qed.
Lemma split_pieces d s : Forall (fun p => d ∉ p) (split d s).
Proof.
  induction s as [|c s IH]; cbn; [repeat constructor; apply not_elem_of_nil|].
  destruct (N.eqb_spec c d).
  - constructor; [apply not_elem_of_nil|done].
  - destruct (split d s) as [|p ps]; [repeat constructor|].
    + rewrite list_elem_of_singleton. naive_solver.
    + apply Forall_cons in IH as [? ?]. constructor; [|done].
      rewrite elem_of_cons. naive_solver.
Qed.

Lemma str_ltb_irrefl a : str_ltb a a = false.
Proof. induction a; cbn; [done|]. by rewrite N.ltb_irrefl, N.eqb_refl, IHa. Qed.
Lemma str_ltb_trans a b c : str_ltb a b = true -> str_ltb b c = true -> str_ltb a c = true.
Proof.
  revert b c. induction a as [|x a IH]; intros [|y b] [|z c]; cbn; try done.
  rewrite !orb_true_iff, !andb_true_iff, !N.ltb_lt, !N.eqb_eq.
  intros [?|[-> ?]] [?|[-> ?]]; [left; lia|auto|auto|right; eauto].
Qed.
Lemma str_ltb_total a b : str_ltb a b = true \/ a = b \/ str_ltb b a = true.
Proof.
  revert b. induction a as [|x a IH]; intros [|y b]; cbn; auto.
  rewrite !orb_true_iff, !andb_true_iff, !N.ltb_lt, !N.eqb_eq.
  destruct (N.lt_total x y) as [|[->|]]; [auto| |auto].
  destruct (IH b) as [|[->|]]; auto.
Qed.

Lemma bytes_app s t : bytes (s ++ t) = bytes s ++ bytes t.
Proof. unfold bytes. by rewrite fmap_app, join_app. Qed.
Lemma str_len_app s t : str_len (s ++ t) = (str_len s + str_len t)%N.
Proof. unfold str_len, size_of. rewrite bytes_app, length_app. lia. Qed.

Lemma is_some_and_true {A} (f : A -> bool) (o : option A) :
  is_some_and f o = true <-> exists a, o = Some a /\ f a = true.
Proof. destruct o; cbn; naive_solver. Qed.
Lemma utf8_encode_length c : 1 <= length (utf8_encode c) <= 4.
Proof. unfold utf8_encode. repeat case_match; cbn; lia. Qed.
Lemma char_count_str_len s : (char_count s <= str_len s)%N.
Proof.
  unfold char_count, str_len, size_of. induction s as [|c s IH]; [done|].
  change (bytes (c :: s)) with (utf8_encode c ++ bytes s).
  rewrite length_app. pose proof (utf8_encode_length c). cbn. lia.
Qed.

(** A byte predicate that only accepts ASCII sees scalar values and bytes alike. *)
Definition ascii_only (p : N -> bool) : Prop := forall c, p c = true -> (c < 128)%N.

Lemma bytes_ascii_all (p : N -> bool) s :
  ascii_only p -> forallb p (bytes s) = true <-> Forall (fun c => p c = true) s.
Proof.
  intros Hp. rewrite forallb_Forall. induction s as [|c s IH]; [done|].
  change (bytes (c :: s)) with (utf8_encode c ++ bytes s).
  rewrite Forall_app, Forall_cons, IH. f_equiv.
  unfold utf8_encode. destruct (N.ltb_spec c 128); [by rewrite Forall_singleton|].
  split; intros H'.
  - exfalso.
    assert (exists b, p b = true /\ (128 <= b)%N) as (b & Hb & ?).
    { destruct (c <? 2048)%N; [|destruct (c <? 65536)%N];
        apply Forall_cons in H' as [Hb _]; (eexists; split; [exact Hb|]);
        generalize (c / 64)%N (c / 4096)%N (c / 262144)%N; lia. }
    specialize (Hp b Hb). lia.
  - specialize (Hp c H'). lia.
Qed.

Lemma bytes_of_ascii s : Forall (fun c => c < 128)%N s -> bytes s = s.
Proof.
  induction 1 as [|c s Hc Hs IH]; [done|].
  change (bytes (c :: s)) with (utf8_encode c ++ bytes s).
  unfold utf8_encode. apply N.ltb_lt in Hc as ->. by rewrite IH.
Qed.

Lemma trim_start_empty s : trim_start s = [] <-> Forall (fun c => is_whitespace c = true) s.
Proof.
  induction s as [|c s IH]; cbn; [done|]. rewrite Forall_cons, <-IH.
  destruct (is_whitespace c); naive_solver.
Qed.
Lemma trim_start_suffix s : exists p, s = p ++ trim_start s /\ Forall (fun c => is_whitespace c = true) p.
Proof.
  induction s as [|c s (p & E & Hp)]; cbn; [by exists []|].
  destruct (is_whitespace c) eqn:W.
  - exists (c :: p). cbn. rewrite <-E. by split; [|constructor].
  - by exists [].
Qed.
Lemma trim_start_idemp s : trim_start (trim_start s) = trim_start s.
Proof. induction s as [|c s IH]; cbn; [done|]. case_match eqn:W; cbn; [done|by rewrite W]. Qed.
Lemma trim_end_start s : trim_start s = s -> trim_start (trim_end s) = trim_end s.
Proof.
  destruct s as [|c s]; [done|]; cbn. destruct (is_whitespace c) eqn:W; intros Hs.
  - exfalso. destruct (trim_start_suffix s) as (p & E & _).
    apply (f_equal length) in Hs, E. rewrite length_app in E. cbn in Hs. lia.
  - unfold trim_end. destruct (trim_start_suffix (rev (c :: s))) as (p & E & Hp).
    cbn [rev] in *. destruct (rev (trim_start (rev s ++ [c]))) as [|c' t] eqn:T; [done|].
    apply (f_equal (@rev N)) in E. rewrite rev_app_distr, rev_app_distr, T in E.
    cbn in E. simplify_eq. cbn. by rewrite W.
Qed.
Lemma trim_idemp s : trim (trim s) = trim s.
Proof.
  unfold trim. rewrite (trim_end_start (trim_start s)) by apply trim_start_idemp.
  unfold trim_end. by rewrite rev_involutive, trim_start_idemp.
Qed.

(** ** UTF-8 is uniquely decodable *)

Definition is_text (s : rstr) : Prop := Forall (fun c => c < 1114112)%N s.

Definition utf8_decode_head (l : list N) : option (N * list N) :=
  (match l with
  | a :: l1 =>
      if a <? 128 then Some (a, l1)
      else match l1 with
      | b :: l2 =>
          if a <? 224 then Some ((a - 192) * 64 + (b - 128), l2)
          else match l2 with
          | c :: l3 =>
              if a <? 240 then Some ((a - 224) * 4096 + (b - 128) * 64 + (c - 128), l3)
              else match l3 with
              | d :: l4 => Some ((a - 240) * 262144 + (b - 128) * 4096 + (c - 128) * 64 + (d - 128), l4)
              | [] => None
              end
          | [] => None
          end
      | [] => None
      end
  | [] => None
  end)%N.

Lemma utf8_decode_encode c rest :
  (c < 1114112)%N -> utf8_decode_head (utf8_encode c ++ rest) = Some (c, rest).
Proof.
  intros Hc. unfold utf8_encode.
  pose proof (N.div_mod' c 64) as D1. pose proof (N.mod_lt c 64 ltac:(lia)).
  pose proof (N.div_mod' (c / 64) 64) as D2. pose proof (N.mod_lt (c / 64) 64 ltac:(lia)).
  pose proof (N.div_mod' (c / 4096) 64) as D3. pose proof (N.mod_lt (c / 4096) 64 ltac:(lia)).
  assert (c / 64 / 64 = c / 4096)%N as E1 by by rewrite N.Div0.div_div.
  assert (c / 4096 / 64 = c / 262144)%N as E2 by by rewrite N.Div0.div_div.
  rewrite E1 in D2. rewrite E2 in D3.
  generalize dependent (c / 262144)%N. generalize dependent (c / 4096 mod 64)%N.
  generalize dependent (c / 4096)%N. generalize dependent (c / 64 mod 64)%N.
  generalize dependent (c / 64)%N. generalize dependent (c mod 64)%N.
  intros m0 ? q1 ? m1 ? q2 ? ? m2 ? q3 ? ?.
  repeat match goal with |- context [(?a <? ?b)%N] => destruct (N.ltb_spec a b) end;
    cbn -[N.mul N.add N.sub N.ltb];
    repeat match goal with |- context [(?a <? ?b)%N] => destruct (N.ltb_spec a b) end;
    try lia; do 2 f_equal; lia.
Qed.

Lemma bytes_inj s t : is_text s -> is_text t -> bytes s = bytes t -> s = t.
Proof.
  intros Hs. revert t. induction Hs as [|c s Hc Hs IH]; intros [|d t] Ht H; [done| | |].
  - exfalso. apply (f_equal length) in H.
    change (bytes (d :: t)) with (utf8_encode d ++ bytes t) in H.
    rewrite length_app in H. pose proof (utf8_encode_length d). change (bytes []) with (@nil N) in H. cbn in H. lia.
  - exfalso. apply (f_equal length) in H.
    change (bytes (c :: s)) with (utf8_encode c ++ bytes s) in H.
    rewrite length_app in H. pose proof (utf8_encode_length c). change (bytes []) with (@nil N) in H. cbn in H. lia.
  - apply Forall_cons in Ht as [Hd Ht].
    apply (f_equal utf8_decode_head) in H.
    change (bytes (c :: s)) with (utf8_encode c ++ bytes s) in H.
    change (bytes (d :: t)) with (utf8_encode d ++ bytes t) in H.
    rewrite !utf8_decode_encode in H by done. simplify_eq. f_equal. by apply IH.
Qed.

Lemma bytes_nul_free s : 0%N ∉ s -> 0%N ∉ bytes s.
Proof.
  induction s as [|c s IH]; [done|]. rewrite not_elem_of_cons. intros [Hc Hs].
  change (bytes (c :: s)) with (utf8_encode c ++ bytes s).
  rewrite not_elem_of_app. split; [|by apply IH].
  unfold utf8_encode. rewrite list_elem_of_In.
  generalize (c / 64)%N (c / 4096)%N (c / 262144)%N. intros q1 q2 q3.
  generalize (c mod 64)%N (q1 mod 64)%N (q2 mod 64)%N. intros m0 m1 m2.
  repeat case_match; cbn -[N.add]; lia.
Qed.

(** Splitting at the first separator is unambiguous. *)
Lemma app_sep_inj {A} (d : A) (a1 a2 b1 b2 : list A) :
  d ∉ a1 -> d ∉ a2 -> a1 ++ d :: b1 = a2 ++ d :: b2 -> a1 = a2 /\ b1 = b2.
Proof.
  revert a2. induction a1 as [|x a1 IH]; intros [|y a2]; cbn; rewrite ?not_elem_of_cons;
    [naive_solver..|].
  intros [? ?] [? ?] [= -> E]. apply IH in E as [-> ->]; done.
Qed.

(** ** Decimal numbers *)

(** The number a string of digits denotes. *)
Definition decimal (s : rstr) : N := fold_left (fun n d => n * 10 + (d - 48))%N s 0%N.

Lemma digit_char r : (r < 10)%N ->
  Ascii.N_of_ascii (pretty_N_char r) = (48 + r)%N /\ is_ascii_digit (Ascii.N_of_ascii (pretty_N_char r)) = true.
Proof.
  intros Hr.
  assert (r = 0 \/ r = 1 \/ r = 2 \/ r = 3 \/ r = 4 \/ r = 5 \/ r = 6 \/ r = 7 \/ r = 8 \/ r = 9)%N by lia.
  destruct_or?; by subst.
Qed.
Lemma lit_cons c s : lit (String c s) = Ascii.N_of_ascii c :: lit s.
Proof. reflexivity. Qed.

Lemma pretty_go x : forall s, forallb is_ascii_digit (lit s) = true ->
  forallb is_ascii_digit (lit (pretty_N_go x s)) = true /\
  (lit (pretty_N_go x s) = [] -> x = 0%N /\ lit s = []) /\
  decimal (lit (pretty_N_go x s)) = fold_left (fun n d => n * 10 + (d - 48))%N (lit s) x.
Proof.
  induction (N.lt_wf_0 x) as [x _ IH]. intros s Hs.
  destruct (decide (x = 0%N)) as [->|Hne]; [by rewrite pretty_N_go_0|].
  destruct (digit_char (x mod 10)) as [Hv Hd]; [by apply N.mod_lt|].
  rewrite pretty_N_go_step by lia.
  destruct (IH (x / 10)%N ltac:(apply N.div_lt; lia) (String (pretty_N_char (x mod 10)) s)) as (H1 & H2 & H3).
  { by rewrite lit_cons; cbn [forallb]; rewrite Hd, Hs. }
  split; [done|]. split; [by intros [_ ?]%H2|].
  rewrite H3, lit_cons. cbn [fold_left]. f_equal. rewrite Hv.
  rewrite (N.add_comm 48), N.add_sub, N.mul_comm. by rewrite <-N.div_mod.
Qed.

Lemma show_N_decimal n :
  is_empty (show_N n) = false /\ forallb is_ascii_digit (show_N n) = true /\ decimal (show_N n) = n.
Proof.
  unfold show_N, pretty, pretty_N. destruct (decide (n = 0%N)) as [->|Hne]; [done|].
  destruct (pretty_go n EmptyString eq_refl) as (H1 & H2 & H3). split; [|done].
  destruct (lit (pretty_N_go n EmptyString)); [|done]. by destruct (H2 eq_refl).
Qed.
Lemma show_N_inj n m : show_N n = show_N m -> n = m.
Proof.
  intros E. destruct (show_N_decimal n) as (_ & _ & <-). destruct (show_N_decimal m) as (_ & _ & <-). by rewrite E.
Qed.
Lemma show_N_no_char c n : is_ascii_digit c = false -> c ∉ show_N n.
Proof.
  intros Hc Hin. destruct (show_N_decimal n) as (_ & Hd & _).
  rewrite forallb_Forall, Forall_forall in Hd. apply Hd in Hin. congruence.
Qed.

(** A string is cut by its length in bytes in one way only. *)
Lemma str_len_zero s : str_len s = 0%N -> s = [].
Proof.
  destruct s as [|c s]; [done|]. change (c :: s) with ([c] ++ s). rewrite str_len_app.
  pose proof (char_count_str_len [c]). unfold char_count, size_of in *. cbn in *. lia.
Qed.
Lemma app_str_len_inj a1 a2 b1 b2 : str_len a1 = str_len a2 -> a1 ++ b1 = a2 ++ b2 -> a1 = a2 /\ b1 = b2.
Proof.
  revert a2. induction a1 as [|c a1 IH]; intros [|d a2] Hl E; [done|by apply eq_sym, str_len_zero in Hl|
    by apply str_len_zero in Hl|].
  injection E as <- E. change (c :: a1) with ([c] ++ a1) in Hl. change (c :: a2) with ([c] ++ a2) in Hl.
  rewrite !str_len_app in Hl. destruct (IH a2) as [-> ->]; [lia|done|done].
Qed.

(** ** Splitting at a separator, and solid text *)

Lemma split_once_app d a b : d ∉ a -> split_once d (a ++ d :: b) = Some (a, b).
Proof.
  induction a as [|c a IH]; cbn [app split_once]; [by rewrite N.eqb_refl|].
  intros [Hc Ha]%not_elem_of_cons. rewrite (proj2 (N.eqb_neq c d)) by done. by rewrite IH.
Qed.
Lemma split_once_Some d s a b : split_once d s = Some (a, b) -> s = a ++ d :: b /\ (d ∉ a).
Proof.
  revert a b. induction s as [|c s IH]; intros a b; cbn [split_once]; [done|].
  destruct (N.eqb_spec c d) as [->|Hne]; [intros [= <- <-]; split; [done|apply not_elem_of_nil]|].
  destruct (split_once d s) as [[a' b']|] eqn:E; cbn; [|done]. intros [= <- <-].
  destruct (IH a' b' eq_refl) as [-> Hd]. split; [done|]. rewrite elem_of_cons. naive_solver.
Qed.

Definition solid (s : rstr) : Prop := Forall (fun c => is_whitespace c = false) s.
Lemma trim_start_solid s : solid s -> trim_start s = s.
Proof. destruct 1 as [|c s Hc]; cbn; [done|by rewrite Hc]. Qed.
Lemma trim_end_solid s : solid s -> trim_end s = s.
Proof.
  intros Hs. unfold trim_end. rewrite trim_start_solid; [apply rev_involutive|].
  unfold solid in *. rewrite Forall_forall in *. intros c Hc. apply Hs.
  by apply list_elem_of_In, in_rev, list_elem_of_In.
Qed.
Lemma trim_solid s : solid s -> trim s = s.
Proof. intros Hs. unfold trim. by rewrite trim_start_solid, trim_end_solid. Qed.
Lemma trim_space_solid s : solid s -> trim (32%N :: s) = s.
Proof.
  intros Hs. unfold trim. change (trim_start (32%N :: s)) with (trim_start s).
  by rewrite trim_start_solid, trim_end_solid.
Qed.

Lemma contains_any_false x s : contains_any x s = false <-> forall c, c ∈ s -> c ∉ lit x.
Proof.
  unfold contains_any. rewrite existsb_false, Forall_forall.
  split; intros Hf c Hc; specialize (Hf c Hc); revert Hf; unfold one_of;
    change (existsb (N.eqb c) (lit x)) with (contains_char c (lit x)); apply contains_char_false.
Qed.
