(* ===== verification/Markup.v ===== *)
(** * Markup: escaped text, and reading markup back

    The HTML escaping that the advertisement's and the renderer's code share in
    all but name, and a reference reader of markup with double-quoted
    attribute values, by which the theorems say what a browser sees. *)

From Stdlib Require Import Bool NArith Lia.
From S2P Require Import Prelude Text.

(** [push_escaped_html] onto an empty buffer. *)
Definition escape_char (c : N) : rstr :=
  if (c =? 38)%N then lit "&amp;" else if (c =? 60)%N then lit "&lt;" else if (c =? 62)%N then lit "&gt;"
  else if (c =? 34)%N then lit "&quot;" else if (c =? 39)%N then lit "&#39;" else [c].
Definition push_escaped_html (output value : rstr) : rstr := output ++ mjoin (escape_char <$> value).

(** A literal of the source, its quotation marks written as backquotes. *)
Definition html (s : string) : rstr := (fun c => if (c =? 96)%N then 34%N else c) <$> lit s.

(** ** Reading markup back

    What a browser sees in markup whose attribute values are double-quoted:
    the tags with their attribute values left out, and in order every text
    between tags that is not empty and every attribute value, with its
    character references decoded. *)

Inductive Mode := InText | InTag | InValue.
Definition decode_table : list (rstr * N) :=
  [(lit "&amp;", 38%N); (lit "&lt;", 60%N); (lit "&gt;", 62%N); (lit "&quot;", 34%N); (lit "&#39;", 39%N)].
Fixpoint reference (table : list (rstr * N)) (s : rstr) : option (N * rstr) :=
  match table with
  | [] => None
  | (name, char) :: table => match strip_prefix name s with
                             | Some rest => Some (char, rest)
                             | None => reference table s
                             end
  end.
Fixpoint decode_aux (fuel : nat) (s : rstr) : rstr :=
  match fuel, s with
  | S fuel, c :: s' =>
      match reference decode_table s with
      | Some (char, rest) => char :: decode_aux fuel rest
      | None => c :: decode_aux fuel s'
      end
  | _, _ => []
  end.
Definition decode (s : rstr) : rstr := decode_aux (length s) s.

Definition text_run (run : rstr) : list rstr := if is_empty run then [] else [decode run].
Fixpoint scan (mode : Mode) (run : rstr) (s : rstr) : rstr * list rstr :=
  match s with
  | [] => ([], match mode with InText => text_run run | _ => [] end)
  | c :: s =>
      match mode with
      | InText =>
          if (c =? 60)%N then let '(tags, data) := scan InTag [] s in (c :: tags, text_run run ++ data)
          else scan InText (run ++ [c]) s
      | InTag =>
          let '(tags, data) :=
            scan (if (c =? 62)%N then InText else if (c =? 34)%N then InValue else InTag) [] s in
          (c :: tags, data)
      | InValue =>
          if (c =? 34)%N then let '(tags, data) := scan InTag [] s in (c :: tags, decode run :: data)
          else scan InValue (run ++ [c]) s
      end
  end.
Definition markup (s : rstr) : rstr := (scan InText [] s).1.
Definition data (s : rstr) : list rstr := (scan InText [] s).2.

Definition escape (s : rstr) : rstr := mjoin (escape_char <$> s).
Lemma push_escaped output value : push_escaped_html output value = output ++ escape value.
Proof. done. Qed.

Lemma escape_cons c v : escape (c :: v) = escape_char c ++ escape v.
Proof. done. Qed.
Lemma decode_escape_char fuel c rest : decode_aux (S fuel) (escape_char c ++ rest) = c :: decode_aux fuel rest.
Proof.
  unfold escape_char.
  destruct (N.eqb_spec c 38) as [->|H38]; [reflexivity|]. destruct (N.eqb_spec c 60) as [->|_]; [reflexivity|].
  destruct (N.eqb_spec c 62) as [->|_]; [reflexivity|]. destruct (N.eqb_spec c 34) as [->|_]; [reflexivity|].
  destruct (N.eqb_spec c 39) as [->|_]; [reflexivity|]. cbn [app decode_aux].
  assert (reference decode_table (c :: rest) = None) as ->; [|done].
  assert (forall s, strip_prefix (38%N :: s) (c :: rest) = None) as Hn.
  { intros s. cbn [strip_prefix]. by rewrite (proj2 (N.eqb_neq 38 c)) by congruence. }
  unfold decode_table, reference.
  repeat match goal with |- context [strip_prefix ?p _] =>
    let q := eval vm_compute in p in change p with q; rewrite Hn end. done.
Qed.
Lemma escape_char_length c : 1 <= length (escape_char c).
Proof. unfold escape_char. repeat (destruct (_ =? _)%N; [vm_compute; lia|]); cbn; lia. Qed.
Lemma decode_aux_escape v : forall fuel, length (escape v) <= fuel -> decode_aux fuel (escape v) = v.
Proof.
  induction v as [|c v IH]; intros fuel; [by destruct fuel|]. rewrite escape_cons, length_app. intros Hf.
  pose proof (escape_char_length c). destruct fuel as [|fuel]; [lia|]. rewrite decode_escape_char, IH by lia. done.
Qed.
Lemma decode_escape v : decode (escape v) = v.
Proof. by apply decode_aux_escape. Qed.

(** Escaped text is text, and stays inside its quotes. *)
Lemma escape_char_safe c : Forall (fun d => d <> 60%N /\ d <> 34%N) (escape_char c).
Proof.
  unfold escape_char. destruct (N.eqb_spec c 38); [by repeat constructor|]. destruct (N.eqb_spec c 60); [by repeat constructor|].
  destruct (N.eqb_spec c 62); [by repeat constructor|]. destruct (N.eqb_spec c 34); [by repeat constructor|].
  destruct (N.eqb_spec c 39); by repeat constructor.
Qed.
Lemma escape_safe v : Forall (fun d => d <> 60%N /\ d <> 34%N) (escape v).
Proof. induction v as [|c v IH]; [constructor|]. rewrite escape_cons. apply Forall_app. by split; [apply escape_char_safe|]. Qed.
Lemma scan_safe mode v : mode <> InTag -> Forall (fun d => d <> 60%N /\ d <> 34%N) v ->
  forall run rest, scan mode run (v ++ rest) = scan mode (run ++ v) rest.
Proof.
  intros Hm. induction 1 as [|c v [H60 H34] _ IH]; intros run rest; [by rewrite app_nil_r|].
  cbn [app scan]. destruct mode; [|done|].
  - rewrite (proj2 (N.eqb_neq c 60)) by done. rewrite IH. by rewrite <-app_assoc.
  - rewrite (proj2 (N.eqb_neq c 34)) by done. rewrite IH. by rewrite <-app_assoc.
Qed.
Lemma scan_escape mode run v rest : mode <> InTag -> scan mode run (escape v ++ rest) = scan mode (run ++ escape v) rest.
Proof. intros Hm. apply scan_safe; [done|apply escape_safe]. Qed.

(** A piece of markup, whatever follows it. *)
Definition reads (mode : Mode) (s : rstr) (tags : rstr) (data : list rstr) (mode' : Mode) : Prop :=
  forall rest, scan mode [] (s ++ rest) = (tags ++ (scan mode' [] rest).1, data ++ (scan mode' [] rest).2).
Lemma reads_app m1 m2 m3 s1 s2 t1 t2 d1 d2 : reads m1 s1 t1 d1 m2 -> reads m2 s2 t2 d2 m3 ->
  reads m1 (s1 ++ s2) (t1 ++ t2) (d1 ++ d2) m3.
Proof. intros H1 H2 rest. by rewrite <-app_assoc, H1, H2, <-!app_assoc. Qed.
Lemma reads_value v : reads InValue (escape v ++ [34%N]) [34%N] [v] InTag.
Proof.
  intros rest. rewrite <-app_assoc, scan_escape by done. cbn [app scan]. rewrite N.eqb_refl, decode_escape.
  by destruct (scan InTag [] rest).
Qed.
Lemma reads_text v : v <> [] -> reads InText (escape v ++ [60%N]) [60%N] [v] InTag.
Proof.
  intros Hv rest. rewrite <-app_assoc, scan_escape by done. cbn [app scan]. rewrite N.eqb_refl. unfold text_run.
  assert (is_empty (escape v) = false) as ->.
  { destruct v as [|c v]; [done|]. rewrite escape_cons. pose proof (escape_char_length c). by destruct (escape_char c); [cbn in *; lia|]. }
  rewrite decode_escape. by destruct (scan InTag [] rest).
Qed.
(** Literal markup reads as what scanning it alone yields, when it ends outside
    of a run. *)
Fixpoint stop (mode : Mode) (run : rstr) (s : rstr) : Mode * rstr :=
  match s with
  | [] => (mode, run)
  | c :: s =>
      match mode with
      | InText => if (c =? 60)%N then stop InTag [] s else stop InText (run ++ [c]) s
      | InTag => stop (if (c =? 62)%N then InText else if (c =? 34)%N then InValue else InTag) [] s
      | InValue => if (c =? 34)%N then stop InTag [] s else stop InValue (run ++ [c]) s
      end
  end.
Lemma scan_stop s rest mode' : forall mode run, stop mode run s = (mode', []) ->
  scan mode run (s ++ rest) =
    ((scan mode run s).1 ++ (scan mode' [] rest).1, (scan mode run s).2 ++ (scan mode' [] rest).2).
Proof.
  induction s as [|c s IH]; intros mode run; cbn [stop app scan].
  { intros [= -> ->]. destruct mode'; cbn; by destruct (scan _ _ rest). }
  destruct mode; [destruct (c =? 60)%N| |destruct (c =? 34)%N]; intros Hs; try (by apply IH);
    rewrite (IH _ _ Hs); destruct (scan _ [] s); cbn [fst snd app]; rewrite <-?app_assoc; done.
Qed.
Lemma reads_literal mode s mode' : stop mode [] s = (mode', []) ->
  reads mode s (scan mode [] s).1 (scan mode [] s).2 mode'.
Proof. intros Hs rest. by apply scan_stop. Qed.
Ltac literal := eapply reads_literal; reflexivity.
Lemma reads_eq mode s tags data mode' tags' data' : reads mode s tags data mode' ->
  tags = tags' -> data = data' -> reads mode s tags' data' mode'.
Proof. by intros Hr <- <-. Qed.

Lemma reads_optional {A} (f : A -> rstr) tags (g : A -> list rstr) o :
  (forall a, reads InText (f a) tags (g a) InText) ->
  reads InText (from_option f [] o) (if is_some o then tags else []) (from_option g [] o) InText.
Proof. intros Hf. destruct o; cbn; [apply Hf|]. intros rest. cbn [app]. by destruct (scan InText [] rest). Qed.
