(* ===== verification/Extern.v ===== *)
(** * Interfaces to the code the repository calls but does not contain

    One type class per third-party crate, with exactly the operations the
    program uses: [url], [semver], [sha2], [uuid], [serde_json].  The classes
    carry no laws; a property that relies on documented behaviour of a crate
    takes it as an explicit hypothesis.  [Toy] instantiates them with small
    concrete functions, so that the definitions evaluate and the hypotheses
    can be shown to hold together. *)

From Stdlib Require Import Bool NArith ZArith Lia.
From stdpp Require Import countable.
From S2P Require Import Prelude Text.

(** [uuid::Uuid] is a 128-bit number; its hyphenated text form has a fixed
    width, so text equality and text order are those of the number. *)
Abbreviation Uuid := N.
Definition uuid_is_nil (u : Uuid) : bool := (u =? 0)%N.

(** [chrono::DateTime<Utc>]: nanoseconds since the epoch. *)
Abbreviation DateTime := Z.
Definition minutes (n : Z) : Z := (n * 60 * 1000000000)%Z.

(** [Uuid::simple]: 32 lower-case hexadecimal digits; [Display] adds hyphens. *)
Definition hex_digit (n : N) : N := if (n <? 10)%N then (48 + n)%N else (87 + n)%N.
Definition uuid_simple (u : Uuid) : rstr :=
  (fun i => hex_digit (N.shiftr u (4 * N.of_nat (31 - i)) mod 16)%N) <$> seq 0 32.
Definition uuid_hyphenated (u : Uuid) : rstr :=
  let s := uuid_simple u in
  take 8 s ++ lit "-" ++ take 4 (drop 8 s) ++ lit "-" ++ take 4 (drop 12 s) ++ lit "-"
  ++ take 4 (drop 16 s) ++ lit "-" ++ drop 20 s.

Class UrlLib := {
  Url : Type;
  Url_eq_dec :: EqDecision Url;
  url_parse : rstr -> option Url;
  url_as_str : Url -> rstr;
  url_scheme : Url -> rstr;
  url_host_str : Url -> option rstr;
  url_username : Url -> rstr;
  url_password : Url -> option rstr;
  url_path : Url -> rstr;
  url_query : Url -> option rstr;
  url_fragment : Url -> option rstr;
  url_cannot_be_a_base : Url -> bool;
  url_port_or_known_default : Url -> option N;
  url_join : Url -> rstr -> option Url;
  (** [path_segments_mut]: [None] for a URL that cannot be a base, otherwise
      the URL whose path gets the segments pushed after [pop_if_empty]. *)
  url_push_segments : Url -> list rstr -> option Url;
}.

Class SemverLib := {
  Version : Type;
  VersionReq : Type;
  version_parse : rstr -> option Version;
  version_ltb : Version -> Version -> bool;
  version_pre_is_empty : Version -> bool;
  version_build_is_empty : Version -> bool;
  req_parse : rstr -> option VersionReq;
  req_matches : VersionReq -> Version -> bool;
}.

(** [Sha256::digest] printed with [{:x}]. *)
Class Sha256Lib := sha256_hex : list N -> rstr.

(** [Uuid::parse_str]. *)
Class UuidLib := uuid_parse : rstr -> option Uuid.

(** ** Concrete instances *)

Module Toy.

Record toy_url := {
  tu_text : rstr;
  tu_scheme : rstr;
  tu_host : rstr;
  tu_path : rstr;
}.
#[export] Instance toy_url_eq_dec : EqDecision toy_url.
Proof. solve_decision. Defined.

(** [scheme://host/path], no credentials, query or fragment. *)
Definition toy_parse (s : rstr) : option toy_url :=
  '(scheme, rest) ← split_once 58 s;
  rest ← strip_prefix (lit "//") rest;
  let '(host, path) :=
    match split_once 47 rest with Some (h, p) => (h, 47%N :: p) | None => (rest, [47%N]) end in
  if is_empty scheme || is_empty host || contains_any "@?#" rest then None
  else Some {| tu_text := s; tu_scheme := scheme; tu_host := host; tu_path := path |}.

Definition toy_push (u : toy_url) (segments : list rstr) : option toy_url :=
  let base := if str_eqb (tu_path u) [47%N] then [] else tu_path u in
  let path := base ++ mjoin ((fun p => 47%N :: p) <$> segments) in
  Some {| tu_text := tu_scheme u ++ lit "://" ++ tu_host u ++ path;
          tu_scheme := tu_scheme u; tu_host := tu_host u; tu_path := path |}.

#[export] Instance toy_url_lib : UrlLib := {
  Url := toy_url;
  url_parse := toy_parse;
  url_as_str := tu_text;
  url_scheme := tu_scheme;
  url_host_str u := Some (tu_host u);
  url_username _ := [];
  url_password _ := None;
  url_path := tu_path;
  url_query _ := None;
  url_fragment _ := None;
  url_cannot_be_a_base _ := false;
  url_port_or_known_default _ := None;
  url_join u s := match toy_parse s with Some v => Some v | None => toy_push u [s] end;
  url_push_segments := toy_push;
}.

(** [major.minor.patch] with one-digit components; requirements are exact. *)
Definition toy_version (s : rstr) : option (N * N * N) :=
  match s with
  | [a; 46; b; 46; c]%N =>
      if forallb is_ascii_digit [a; b; c] then Some (a, b, c) else None
  | _ => None
  end.
Definition triple_ltb (x y : N * N * N) : bool :=
  let '(a, b, c) := x in let '(a', b', c') := y in str_ltb [a; b; c] [a'; b'; c'].

#[export] Instance toy_semver_lib : SemverLib := {
  Version := N * N * N;
  VersionReq := N * N * N;
  version_parse := toy_version;
  version_ltb := triple_ltb;
  version_pre_is_empty _ := true;
  version_build_is_empty _ := true;
  req_parse := toy_version;
  req_matches r v := negb (triple_ltb v r);
}.

(** A 64-digit checksum standing in for SHA-256. *)
Definition toy_checksum (data : list N) : N := fold_left (fun h b => (h * 31 + b + 7) mod 65521)%N data 1%N.
Definition toy_hex (data : list N) : rstr :=
  let h := toy_checksum data in
  (fun i => hex_digit (h / 16 ^ (N.of_nat i mod 4) mod 16)%N) <$> seq 0 64.
#[export] Instance toy_sha256_lib : Sha256Lib := toy_hex.

(** A decimal number. *)
Definition toy_uuid (s : rstr) : option Uuid :=
  if negb (is_empty s) && forallb is_ascii_digit s
  then Some (fold_left (fun n d => n * 10 + (d - 48))%N s 0%N) else None.
#[export] Instance toy_uuid_lib : UuidLib := toy_uuid.

End Toy.

(** ** serde_json::Value

    [Object] lists its entries in iteration order; without the
    [preserve_order] feature the crate keeps them sorted by key. *)
Inductive Value :=
| JNull
| JBool (b : bool)
| JNumber (text : rstr)
| JString (s : rstr)
| JArray (l : list Value)
| JObject (l : list (rstr * Value)).

(** [PartialEq] on JSON values, through their tree encoding. *)
Fixpoint value_tree (v : Value) : gen_tree (rstr + bool) :=
  match v with
  | JNull => GenNode 0 []
  | JBool b => GenLeaf (inr b)
  | JNumber t => GenNode 1 [GenLeaf (inl t)]
  | JString s => GenNode 2 [GenLeaf (inl s)]
  | JArray l => GenNode 3 (map value_tree l)
  | JObject l => GenNode 4 (map (fun kv => GenNode 5 [GenLeaf (inl kv.1); value_tree kv.2]) l)
  end.
Fixpoint tree_value (t : gen_tree (rstr + bool)) : Value :=
  match t with
  | GenNode 0 _ => JNull
  | GenLeaf (inr b) => JBool b
  | GenNode 1 [GenLeaf (inl t)] => JNumber t
  | GenNode 2 [GenLeaf (inl s)] => JString s
  | GenNode 3 l => JArray (map tree_value l)
  | GenNode 4 l => JObject (map (fun t => match t with
                                         | GenNode 5 [GenLeaf (inl k); v] => (k, tree_value v)
                                         | _ => ([], JNull)
                                         end) l)
  | _ => JNull
  end.
Fixpoint tree_value_tree (v : Value) : tree_value (value_tree v) = v.
Proof.
  destruct v as [| | | |l|l]; cbn; try done; f_equal.
  - induction l as [|v l IH]; cbn; f_equal; [apply tree_value_tree|done].
  - induction l as [|[k v] l IH]; cbn; f_equal; [f_equal; apply tree_value_tree|done].
Qed.
#[export] Instance value_eq_dec : EqDecision Value.
Proof.
  intros v w. destruct (decide (value_tree v = value_tree w)) as [E|E].
  - left. by rewrite <-(tree_value_tree v), E, tree_value_tree.
  - right. congruence.
Defined.
#[export] Instance value_countable : Countable Value := inj_countable' _ _ tree_value_tree.

(** ** Printed identifiers *)

Lemma hex_digit_inj a b : (a < 16)%N -> (b < 16)%N -> hex_digit a = hex_digit b -> a = b.
Proof. unfold hex_digit. destruct (N.ltb_spec a 10), (N.ltb_spec b 10); lia. Qed.
Lemma uuid_simple_inj u v : (u < 2 ^ 128)%N -> (v < 2 ^ 128)%N -> uuid_simple u = uuid_simple v -> u = v.
Proof.
  intros Hu Hv E.
  assert (forall k, (k < 32)%nat -> (N.shiftr u (4 * N.of_nat k) mod 16 = N.shiftr v (4 * N.of_nat k) mod 16)%N) as Hn.
  { intros k Hk. apply (f_equal (fun l => l !! (31 - k)%nat)) in E. unfold uuid_simple in E.
    rewrite !list_lookup_fmap, lookup_seq_lt in E by lia. cbn [fmap option_fmap option_map plus] in E.
    injection E as E. replace (31 - (31 - k))%nat with k in E by lia.
    apply hex_digit_inj in E; [done|by apply N.mod_lt..]. }
  assert (forall w i, (w < 2 ^ 128)%N -> (128 <= i)%N -> N.testbit w i = false) as Hhigh.
  { intros w i Hw Hi. destruct (decide (w = 0%N)) as [->|]; [apply N.bits_0|]. apply N.bits_above_log2.
    apply N.log2_lt_pow2; [lia|]. eapply N.lt_le_trans; [exact Hw|]. apply N.pow_le_mono_r; lia. }
  apply N.bits_inj. intros i. destruct (N.lt_ge_cases i 128) as [Hi|Hi]; [|by rewrite !Hhigh].
  specialize (Hn (N.to_nat (i / 4))). rewrite N2Nat.id in Hn.
  pose proof (N.div_mod i 4 ltac:(lia)) as Ei. pose proof (N.mod_lt i 4 ltac:(lia)) as Hm.
  assert (i / 4 < 32)%N by (apply N.Div0.div_lt_upper_bound; lia).
  specialize (Hn ltac:(lia)). apply (f_equal (fun n => N.testbit n (i mod 4))) in Hn.
  change 16%N with (2 ^ 4)%N in Hn. rewrite !N.mod_pow2_bits_low, !N.shiftr_spec' in Hn by lia.
  by replace (i mod 4 + 4 * (i / 4))%N with i in Hn by lia.
Qed.

Lemma uuid_simple_length u : length (uuid_simple u) = 32.
Proof. unfold uuid_simple. by rewrite length_fmap, length_seq. Qed.
Lemma uuid_hyphenated_length u : length (uuid_hyphenated u) = 36.
Proof.
  unfold uuid_hyphenated. repeat rewrite ?length_app, ?length_take, ?length_drop, ?uuid_simple_length. reflexivity.
Qed.
Lemma uuid_hyphenated_inj u v : (u < 2 ^ 128)%N -> (v < 2 ^ 128)%N ->
  uuid_hyphenated u = uuid_hyphenated v -> u = v.
Proof.
  intros Hu Hv E. apply uuid_simple_inj; [done..|]. revert E. unfold uuid_hyphenated.
  pose proof (uuid_simple_length u). pose proof (uuid_simple_length v).
  generalize dependent (uuid_simple u). generalize dependent (uuid_simple v). intros t Ht s Hs E.
  do 32 (destruct s as [|? s]; [done|]). do 32 (destruct t as [|? t]; [done|]).
  destruct s, t; try done. change (lit "-") with [45%N] in E. cbn in E. congruence.
Qed.
