(* ===== verification/Policy.v ===== *)
(** * Access decisions

    [crates/kernel/src/policy.rs] (the single-owner fallback),
    [features/rbac/src/lib.rs] (role grants on top of it) and
    [features/external-auth/src/lib.rs] (mapping a verified external identity
    to a principal).  [AccessPolicy] is the trait of the same name: what the
    content handlers rely on is stated against the class, and both policies
    are instances. *)

From Stdlib Require Import Bool NArith.
From S2P Require Import Prelude Text Extern.

(** ** crates/kernel/src/policy.rs *)

Record Principal := {
  principal_id : rstr;
  roles : list rstr;
  capabilities : list rstr;
}.

Inductive ContentAction :=
| ReadPublished | ReadDraft | Create | Revise | Publish | Archive | Purge.

#[export] Instance ContentAction_eq_dec : EqDecision ContentAction.
Proof. solve_decision. Defined.

Record ResourceScope := {
  scope_site_id : Uuid;
  scope_document_id : option Uuid;
}.

Record AccessDecision := {
  allowed : bool;
  reason : rstr;
}.

Class AccessPolicy (P : Type) :=
  authorize : P -> option Principal -> ContentAction -> ResourceScope -> AccessDecision.

Record SingleOwnerPolicy := { owner_id : rstr }.

Definition single_owner_authorize (self : SingleOwnerPolicy) (principal : option Principal)
    (action : ContentAction) (_ : ResourceScope) : AccessDecision :=
  if bool_decide (action = ReadPublished)
  then {| allowed := true; reason := lit "published content is public" |}
  else
    let allowed := is_some_and (fun v => str_eqb (principal_id v) (owner_id self)) principal in
    {| allowed := allowed;
       reason := if allowed then lit "single owner policy"
                 else lit "mutation denied by default" |}.
#[export] Instance SingleOwnerPolicy_policy : AccessPolicy SingleOwnerPolicy :=
  single_owner_authorize.

(** ** features/rbac/src/lib.rs *)

Record RoleGrant := {
  role : rstr;
  action : ContentAction;
  site_id : option Uuid;
  document_id : option Uuid;
}.

Record RbacPolicy := {
  fallback : SingleOwnerPolicy;
  grants : list RoleGrant;
}.

Definition rbac_new (owner : rstr) (grants : list RoleGrant) : RbacPolicy :=
  {| fallback := {| owner_id := owner |}; grants := grants |}.

Definition grant_matches (p : Principal) (act : ContentAction) (res : ResourceScope)
    (g : RoleGrant) : bool :=
  bool_decide (action g = act)
  && existsb (fun r => str_eqb r (role g)) (roles p)
  && is_none_or (fun s => (s =? scope_site_id res)%N) (site_id g)
  && is_none_or (fun d => bool_decide (Some d = scope_document_id res)) (document_id g).

Definition rbac_authorize (self : RbacPolicy) (principal : option Principal)
    (act : ContentAction) (res : ResourceScope) : AccessDecision :=
  let fb := single_owner_authorize (fallback self) principal act res in
  if allowed fb then fb
  else match principal with
  | None => fb
  | Some p =>
      let granted := existsb (grant_matches p act res) (grants self) in
      {| allowed := granted;
         reason := if granted then lit "role grant matched the exact resource scope"
                   else lit "no role grant matched; deny by default" |}
  end.
#[export] Instance RbacPolicy_policy : AccessPolicy RbacPolicy := rbac_authorize.

(** ** features/external-auth/src/lib.rs *)

Record VerifiedExternalIdentity := {
  issuer : rstr;
  subject : rstr;
  claims : gmap rstr rstr;
}.

Record IdentityMappingPolicy := {
  allowed_issuers : list rstr;
  role_claim : option rstr;
  role_allowlist : list rstr;
}.

Inductive ExternalAuthError := UntrustedIssuer | InvalidSubject.

Definition map_verified (self : IdentityMappingPolicy) (identity : VerifiedExternalIdentity)
    : result ExternalAuthError Principal :=
  fail_if (negb (existsb (fun v => str_eqb v (issuer identity)) (allowed_issuers self)))
    UntrustedIssuer;;
  fail_if (is_empty (trim (subject identity)) || (500 <? str_len (subject identity))%N)
    InvalidSubject;;
  let claim := claim ← role_claim self; claims identity !! claim in
  let pieces := match claim with Some value => split 44 value | None => [] end in
  let roles := List.filter (fun r => existsb (fun a => str_eqb a r) (role_allowlist self))
    (trim <$> pieces) in
  Ok {| principal_id := issuer identity ++ lit "#" ++ subject identity;
        roles := roles; capabilities := [] |}.

(** ** Theorems *)

Lemma existsb_true {A} (p : A -> bool) l : existsb p l = true <-> exists a, a ∈ l /\ p a = true.
Proof. rewrite existsb_exists. by setoid_rewrite list_elem_of_In. Qed.

(** What every policy of the program promises its clients: published content
    is readable by anyone, an anonymous caller gets nothing else, and the
    owner is never refused. *)
Class SafePolicy (P : Type) `{AccessPolicy P} (owner : P -> rstr) := {
  public_reads pol pr res : allowed (authorize pol pr ReadPublished res) = true;
  anonymous_denied pol act res :
    act <> ReadPublished -> allowed (authorize pol None act res) = false;
  owner_allowed pol pr act res :
    principal_id pr = owner pol -> allowed (authorize pol (Some pr) act res) = true;
}.

#[export] Instance SingleOwnerPolicy_safe : SafePolicy SingleOwnerPolicy owner_id.
Proof.
  constructor; intros; unfold authorize, SingleOwnerPolicy_policy, single_owner_authorize.
  - done.
  - by rewrite bool_decide_eq_false_2.
  - case_bool_decide; cbn; [done|]. by apply bool_decide_eq_true.
Qed.

#[export] Instance RbacPolicy_safe : SafePolicy RbacPolicy (fun p => owner_id (fallback p)).
Proof.
  constructor; intros; unfold authorize, RbacPolicy_policy, rbac_authorize.
  - done.
  - pose proof (anonymous_denied (fallback pol) act res ltac:(done)) as E.
    unfold authorize, SingleOwnerPolicy_policy in E. cbn zeta. by rewrite E.
  - pose proof (owner_allowed (fallback pol) pr act res ltac:(done)) as E.
    unfold authorize, SingleOwnerPolicy_policy in E. by rewrite E.
Qed.

Lemma grant_matches_true p act res g :
  grant_matches p act res g = true <->
  action g = act /\ role g ∈ roles p
  /\ (site_id g = None \/ site_id g = Some (scope_site_id res))
  /\ (document_id g = None \/ (is_Some (document_id g) /\ document_id g = scope_document_id res)).
Proof.
  unfold grant_matches, is_none_or.
  rewrite !andb_true_iff, bool_decide_eq_true, existsb_true.
  setoid_rewrite str_eqb_eq.
  assert (forall b, (exists a, a ∈ roles p /\ a = b) <-> b ∈ roles p) as -> by naive_solver.
  destruct (site_id g), (document_id g); rewrite ?bool_decide_eq_true, ?N.eqb_eq;
    unfold is_Some; naive_solver.
Qed.

(** The complete characterisation of the RBAC decision: reading published
    content is always allowed; anything else needs a principal that is the owner
    or holds a role whose grant names exactly this action and scope. *)
Theorem rbac_authorize_iff self principal act res :
  allowed (rbac_authorize self principal act res) = true <->
  act = ReadPublished \/
  exists p, principal = Some p /\
    (principal_id p = owner_id (fallback self) \/
     exists g, g ∈ grants self /\ grant_matches p act res g = true).
Proof.
  unfold rbac_authorize, single_owner_authorize.
  case_bool_decide as Hact; cbn; [naive_solver|].
  destruct principal as [p|]; cbn; [|naive_solver].
  destruct (str_eqb _ _) eqn:E; cbn.
  - apply str_eqb_eq in E. naive_solver.
  - rewrite existsb_true. assert (principal_id p <> owner_id (fallback self)).
    { by intros ?%str_eqb_eq; congruence. }
    naive_solver.
Qed.

(** A mapped principal carries only allow-listed roles, comes from an allowed
    issuer and has an identifier that names issuer and subject. *)
Theorem map_verified_sound self identity p :
  map_verified self identity = Ok p ->
  issuer identity ∈ allowed_issuers self /\
  (forall r, r ∈ roles p -> r ∈ role_allowlist self) /\
  capabilities p = [] /\
  (str_len (subject identity) <= 500)%N /\
  principal_id p = issuer identity ++ lit "#" ++ subject identity.
Proof.
  unfold map_verified. intros H. inv_ok. bool_simpl. cbn.
  repeat match goal with H : existsb _ _ = true |- _ =>
    apply existsb_true in H as (? & ? & ->%str_eqb_eq) end.
  repeat split; try done.
  intros r [_ Hr]%list_elem_of_In%filter_In.
  apply existsb_true in Hr as (? & ? & ->%str_eqb_eq). done.
Qed.
