(* ===== verification/Manifest.v ===== *)
(** * Plugin manifests: [crates/plugin-api/src/lib.rs], first half

    The manifest a plugin ships, with the validators the host runs before it
    installs anything.  A manifest requests capabilities and names files inside
    its package; it must not be able to name anything else. *)

From Stdlib Require Import Bool NArith ZArith Lia.
From S2P Require Import Prelude Text Extern.

Definition PLUGIN_MANIFEST_VERSION : N := 1.
Definition PLUGIN_API_VERSION : rstr := lit "1".

Inductive ManifestError :=
| ManifestParse (message : rstr)
| UnsupportedVersion
| InvalidPluginId
| InvalidVersion
| InvalidField (field : rstr)
| DuplicateOrExcessValue (field : rstr)
| MissingCapabilityResource
| UnsafeCapabilityResource
| InvalidRuntime
| UnsafePath
| InvalidLimits.

(** ** Lexical validators *)

Definition char_len (value : rstr) : N := char_count value.

(** [values.iter().enumerate().all(|(index, value)| !values[..index].contains(value))] *)
Fixpoint all_unique_from {T} `{EqDecision T} (before values : list T) : bool :=
  match values with
  | [] => true
  | v :: vs => negb (existsb (fun w => bool_decide (w = v)) before) && all_unique_from (before ++ [v]) vs
  end.
Definition all_unique {T} `{EqDecision T} (values : list T) : bool := all_unique_from [] values.

Definition valid_label (label : rstr) : bool :=
  negb (is_empty label) && (str_len label <=? 63)%N
  && negb (starts_with (lit "-") label) && negb (ends_with (lit "-") label)
  && forallb (fun b => is_ascii_lowercase b || is_ascii_digit b || (b =? 45)%N) (bytes label).
Definition valid_plugin_id (value : rstr) : bool :=
  (char_len value <=? 190)%N && (3 <=? size_of (split 46 value))%N && forallb valid_label (split 46 value).

Definition name_byte (extra : string) (index b : N) : bool :=
  if (index =? 0)%N then is_ascii_lowercase b
  else is_ascii_lowercase b || is_ascii_digit b || one_of extra b.

Definition valid_crate_name (value : rstr) : bool :=
  negb (is_empty value) && (str_len value <=? 128)%N && all_indexed (name_byte "_-") 0 (bytes value).
Definition qualified_name (value : rstr) : bool :=
  negb (is_empty value) && (str_len value <=? 128)%N && all_indexed (name_byte "_.-") 0 (bytes value).
Definition valid_metadata_key (value : rstr) : bool :=
  negb (is_empty value) && (str_len value <=? 64)%N && all_indexed (name_byte "_.-") 0 (bytes value).

Definition safe_segment_bytes (segment : rstr) : bool :=
  forallb (fun b => is_ascii_alphanumeric b || one_of "._@+-" b) (bytes segment).
Definition safe_relative_path (value : rstr) : bool :=
  negb (is_empty value) && (str_len value <=? 512)%N && negb (starts_with (lit "/") value)
  && negb (existsb (fun c => (c =? 92)%N || (c =? 0)%N) value)
  && forallb (fun segment => negb (is_empty segment) && negb (str_eqb segment (lit ".."))
                             && safe_segment_bytes segment) (split 47 value).

Definition safe_route_path (value : rstr) : bool :=
  negb (is_empty value) && (char_len value <=? 256)%N && starts_with (lit "/") value
  && negb (contains (lit "//") value)
  && forallb (fun segment => negb (str_eqb segment (lit ".."))) (split 47 value)
  && forallb (fun b => is_ascii_alphanumeric b || one_of "/_.{}:-" b) (bytes value).

Definition valid_hook_event (value : rstr) : bool :=
  if negb (within 4 160 (str_len value)) then false
  else match rsplit_once (lit ".v") value with
       | None => false
       | Some (prefix, version) =>
           all_indexed (name_byte "_.-") 0 (bytes prefix) && negb (is_empty version)
           && negb (starts_with (lit "0") version) && forallb is_ascii_digit (bytes version)
       end.

Definition valid_sha256 (value : rstr) : bool :=
  (str_len value =? 64)%N
  && forallb (fun b => is_ascii_hexdigit b && negb (is_ascii_uppercase b)) (bytes value).

Definition valid_email_shape (value : rstr) : bool :=
  match split_once 64 value with
  | None => false
  | Some (local, domain) =>
      negb (is_empty local) && negb (is_empty domain) && negb (starts_with (lit ".") domain)
      && negb (ends_with (lit ".") domain) && negb (existsb is_whitespace value)
  end.

Definition bounded_plain_text (value : rstr) (minimum maximum : N) : bool :=
  within minimum maximum (char_len value) && negb (contains_nul value).
Definition bounded_text (value : rstr) (minimum maximum : N) (field : rstr) : result ManifestError unit :=
  if bounded_plain_text value minimum maximum then Ok tt else Err (InvalidField field).
Definition optional_bounded_text (value : option rstr) (minimum maximum : N) (field : rstr)
    : result ManifestError unit :=
  match value with None => Ok tt | Some v => bounded_text v minimum maximum field end.

(** ** The manifest *)

Inductive ProvenanceOrigin := Original | CleanRoom | ThirdParty.
Inductive PluginKind :=
| AuthProvider | AuthorizationPolicy | KindComments | KindSeo | AdProvider | RenderExtension
| AiProvider | AiAgent | KindAiTool | CodeRunnerClient | KindImporter | KindExporter
| SearchProvider | StorageProvider | Automation.
#[export] Instance PluginKind_eq_dec : EqDecision PluginKind.
Proof. solve_decision. Defined.

Record PluginProvenance := {
  pp_origin : ProvenanceOrigin;
  pp_generated : bool;
  pp_generator : option rstr;
  pp_source_materials : list rstr;
  pp_notice_files : list rstr;
  pp_attestation : option rstr;
}.

Inductive PluginRuntime :=
| BuiltIn (crate_name extension : rstr)
| WasiComponent (abi component world sha256 : rstr)
| JsonRpcStdio (abi executable : rstr) (arguments : list rstr) (sha256 : rstr).

Inductive Capability :=
| ContentRead | ContentWrite | ContentPublish | AssetsRead | AssetsWrite
| OntologyRead | OntologyWrite | CommentsRead | CommentsWrite | CommentsModerate
| AiInvoke | AiTool | CapRenderSlot | RoutePublic | RouteAdmin | JobsSchedule
| NetworkConnect | SecretUse | StateRead | StateWrite | CodeExecute.
#[export] Instance Capability_eq_dec : EqDecision Capability.
Proof. solve_decision. Defined.

Inductive PermissionScope := ScopePublic | ScopePublished | ScopeDrafts | ScopeOwn | ScopeSite | ScopeAll.
#[export] Instance PermissionScope_eq_dec : EqDecision PermissionScope.
Proof. solve_decision. Defined.

Record PermissionRequest := {
  pq_capability : Capability;
  pq_scope : option PermissionScope;
  pq_resources : option (list rstr);
  pq_reason : option rstr;
}.
#[export] Instance PermissionRequest_eq_dec : EqDecision PermissionRequest.
Proof. solve_decision. Defined.

Record Author := { au_name : rstr; au_email : option rstr; au_url : option rstr }.
#[export] Instance Author_eq_dec : EqDecision Author.
Proof. solve_decision. Defined.

Inductive SchemaReference :=
| PackagePath (path : rstr)
| Inline (schema : gmap rstr Value).
#[export] Instance SchemaReference_eq_dec : EqDecision SchemaReference.
Proof. solve_decision. Defined.

Record PluginConfig := {
  pc_schema : SchemaReference;
  pc_defaults : gmap rstr Value;
  pc_secret_bindings : list rstr;
}.

Inductive HookDelivery := HookSync | HookAsync.
Inductive HookFailurePolicy := HookContinue | HookRetry | HookBlock.
#[export] Instance HookDelivery_eq_dec : EqDecision HookDelivery.
Proof. solve_decision. Defined.
#[export] Instance HookFailurePolicy_eq_dec : EqDecision HookFailurePolicy.
Proof. solve_decision. Defined.

(** [priority] is an [i16]. *)
Record Hook := {
  hk_event : rstr;
  hk_handler : rstr;
  hk_delivery : HookDelivery;
  hk_failure_policy : HookFailurePolicy;
  hk_priority : Z;
}.
#[export] Instance Hook_eq_dec : EqDecision Hook.
Proof. solve_decision. Defined.

Inductive HttpMethod := GET | POST | PUT | PATCH | DELETE.
Inductive RouteAudience := AudiencePublic | AudienceAuthenticated | AudienceAdmin.
#[export] Instance HttpMethod_eq_dec : EqDecision HttpMethod.
Proof. solve_decision. Defined.
#[export] Instance RouteAudience_eq_dec : EqDecision RouteAudience.
Proof. solve_decision. Defined.

Record PluginRoute := {
  pt_path : rstr;
  pt_methods : list HttpMethod;
  pt_audience : RouteAudience;
  pt_handler : rstr;
  pt_request_schema : option SchemaReference;
  pt_response_schema : option SchemaReference;
}.
#[export] Instance PluginRoute_eq_dec : EqDecision PluginRoute.
Proof. solve_decision. Defined.

Inductive RenderOutput := OutputModel | SanitizedHtml | SandboxedFrame.
Inductive RenderCache := CacheNone | CacheRevision | CacheSite.
#[export] Instance RenderOutput_eq_dec : EqDecision RenderOutput.
Proof. solve_decision. Defined.
#[export] Instance RenderCache_eq_dec : EqDecision RenderCache.
Proof. solve_decision. Defined.

Record RenderSlot := {
  sl_slot : rstr;
  sl_handler : rstr;
  sl_output : RenderOutput;
  sl_cache : RenderCache;
}.
#[export] Instance RenderSlot_eq_dec : EqDecision RenderSlot.
Proof. solve_decision. Defined.

Inductive UiPanelLocation := PanelSettings | EditorSidebar | EditorBlock | Dashboard.
#[export] Instance UiPanelLocation_eq_dec : EqDecision UiPanelLocation.
Proof. solve_decision. Defined.
Record UiPanel := { up_id : rstr; up_location : UiPanelLocation }.
#[export] Instance UiPanel_eq_dec : EqDecision UiPanel.
Proof. solve_decision. Defined.
Inductive UiSandbox := Iframe.

Record PluginUi := {
  ui_sandbox : UiSandbox;
  ui_entrypoint : rstr;
  ui_sha256 : rstr;
  ui_panels : list UiPanel;
}.

Record StateCollection := {
  sc_name : rstr;
  sc_schema : SchemaReference;
  sc_indexes : list (list rstr);
}.
#[export] Instance StateCollection_eq_dec : EqDecision StateCollection.
Proof. solve_decision. Defined.

Record PluginState := { ps_version : N; ps_collections : list StateCollection }.

Record StateMigration := { mg_id : rstr; mg_from : N; mg_to : N; mg_handler : rstr }.
#[export] Instance StateMigration_eq_dec : EqDecision StateMigration.
Proof. solve_decision. Defined.

Record PluginDependency := { pd_id : rstr; pd_version : rstr; pd_optional : bool }.
#[export] Instance PluginDependency_eq_dec : EqDecision PluginDependency.
Proof. solve_decision. Defined.

Record RuntimeLimits := {
  rl_timeout_ms : option N;
  rl_cpu_millis : option N;
  rl_memory_mib : option N;
  rl_pids : option N;
  rl_output_kib : option N;
  rl_concurrency : option N;
}.

Inductive MetadataValue :=
| MetaString (s : rstr) | MetaNumber (text : rstr) | MetaBoolean (b : bool) | MetaNull.

Record PluginManifest := {
  pm_schema_uri : option rstr;
  pm_manifest_version : N;
  pm_id : rstr;
  pm_name : rstr;
  pm_version : rstr;
  pm_license : rstr;
  pm_provenance : PluginProvenance;
  pm_plugin_api : rstr;
  pm_kinds : list PluginKind;
  pm_runtime : PluginRuntime;
  pm_permissions : list PermissionRequest;
  pm_description : option rstr;
  pm_core_compatibility : option rstr;
  pm_authors : list Author;
  pm_homepage : option rstr;
  pm_repository : option rstr;
  pm_config : option PluginConfig;
  pm_hooks : list Hook;
  pm_routes : list PluginRoute;
  pm_render_slots : list RenderSlot;
  pm_ui : option PluginUi;
  pm_state : option PluginState;
  pm_migrations : list StateMigration;
  pm_dependencies : list PluginDependency;
  pm_limits : option RuntimeLimits;
  pm_metadata : gmap rstr MetadataValue;
}.

(** ** Validation *)

Definition validate_collection {T} `{EqDecision T} (values : list T) (maximum : N)
    (validate : T -> result ManifestError unit) (field : rstr) : result ManifestError unit :=
  fail_if ((maximum <? size_of values)%N || negb (all_unique values)) (DuplicateOrExcessValue field);;
  for_each validate values.

(** [if let Some(v) = &self.field { v.validate()?; }] *)
Definition validate_some {T} (validate : T -> result ManifestError unit) (o : option T)
    : result ManifestError unit :=
  match o with Some v => validate v | None => Ok tt end.

Definition SchemaReference_validate (s : SchemaReference) : result ManifestError unit :=
  match s with
  | PackagePath path => if safe_relative_path path then Ok tt else Err UnsafePath
  | Inline _ => Ok tt
  end.

Definition PluginRuntime_validate (r : PluginRuntime) : result ManifestError unit :=
  match r with
  | BuiltIn crate_name extension =>
      fail_if (negb (valid_crate_name crate_name) || negb (qualified_name extension)) InvalidRuntime
  | WasiComponent abi component world sha256 =>
      fail_if (negb (str_eqb abi (lit "wasi-component@1")) || negb (safe_relative_path component)
               || negb (qualified_name world) || negb (valid_sha256 sha256)) InvalidRuntime
  | JsonRpcStdio abi executable arguments sha256 =>
      fail_if (negb (str_eqb abi (lit "jsonrpc-stdio@1")) || negb (safe_relative_path executable)
               || negb (valid_sha256 sha256) || (64 <? size_of arguments)%N
               || existsb (fun v => (1024 <? char_len v)%N || contains_nul v) arguments) InvalidRuntime
  end.

Definition requires_resources (c : Capability) : bool :=
  match c with
  | CapRenderSlot | RoutePublic | RouteAdmin | NetworkConnect | SecretUse | CodeExecute => true
  | _ => false
  end.
Definition unsafe_resource (v : rstr) : bool :=
  (512 <? char_len v)%N || is_empty v || existsb (fun c => (c =? 0)%N || (c =? 42)%N) v
  || existsb is_whitespace v.
Definition PermissionRequest_validate (p : PermissionRequest) : result ManifestError unit :=
  fail_if (requires_resources (pq_capability p) && is_none_or is_empty_list (pq_resources p))
    MissingCapabilityResource;;
  fail_if (is_some_and (fun r => is_empty_list r || (128 <? size_of r)%N || negb (all_unique r)
                                 || existsb unsafe_resource r) (pq_resources p))
    UnsafeCapabilityResource;;
  optional_bounded_text (pq_reason p) 0 1000 (lit "permission.reason").

Definition PluginConfig_validate (c : PluginConfig) : result ManifestError unit :=
  SchemaReference_validate (pc_schema c);;
  fail_if ((64 <? size_of (pc_secret_bindings c))%N || negb (all_unique (pc_secret_bindings c))
           || existsb (fun b => negb (qualified_name b)) (pc_secret_bindings c))
    (InvalidField (lit "config.secretBindings")).

Definition Hook_validate (h : Hook) : result ManifestError unit :=
  fail_if (negb (valid_hook_event (hk_event h)) || negb (qualified_name (hk_handler h))
           || negb ((-1000 <=? hk_priority h)%Z && (hk_priority h <=? 1000)%Z))
    (InvalidField (lit "hooks")).

Definition PluginRoute_validate (r : PluginRoute) : result ManifestError unit :=
  fail_if (negb (safe_route_path (pt_path r)) || is_empty_list (pt_methods r)
           || negb (all_unique (pt_methods r)) || negb (qualified_name (pt_handler r)))
    (InvalidField (lit "routes"));;
  validate_some SchemaReference_validate (pt_request_schema r);;
  validate_some SchemaReference_validate (pt_response_schema r).

Definition RenderSlot_validate (s : RenderSlot) : result ManifestError unit :=
  fail_if (negb (qualified_name (sl_slot s)) || negb (qualified_name (sl_handler s)))
    (InvalidField (lit "renderSlots")).

Definition PluginUi_validate (u : PluginUi) : result ManifestError unit :=
  fail_if (negb (safe_relative_path (ui_entrypoint u)) || negb (valid_sha256 (ui_sha256 u))
           || (32 <? size_of (ui_panels u))%N || negb (all_unique (ui_panels u))
           || existsb (fun p => negb (qualified_name (up_id p))) (ui_panels u))
    (InvalidField (lit "ui")).

Definition invalid_index (index : list rstr) : bool :=
  is_empty_list index || (8 <? size_of index)%N || negb (all_unique index)
  || existsb (fun field => is_empty field || (128 <? char_len field)%N) index.
Definition StateCollection_validate (c : StateCollection) : result ManifestError unit :=
  fail_if (negb (qualified_name (sc_name c)) || (16 <? size_of (sc_indexes c))%N
           || negb (all_unique (sc_indexes c)) || existsb invalid_index (sc_indexes c))
    (InvalidField (lit "state.collections"));;
  SchemaReference_validate (sc_schema c).

Definition PluginState_validate (s : PluginState) : result ManifestError unit :=
  fail_if ((ps_version s =? 0)%N || (64 <? size_of (ps_collections s))%N
           || negb (all_unique (ps_collections s))) (InvalidField (lit "state"));;
  for_each StateCollection_validate (ps_collections s).

Definition StateMigration_validate (m : StateMigration) : result ManifestError unit :=
  fail_if (negb (qualified_name (mg_id m)) || (mg_to m =? 0)%N || negb (qualified_name (mg_handler m)))
    (InvalidField (lit "migrations")).

Definition out_of (maximum : N) (o : option N) : bool := is_some_and (fun v => negb (within 1 maximum v)) o.
Definition RuntimeLimits_validate (l : RuntimeLimits) : result ManifestError unit :=
  fail_if (out_of 3600000 (rl_timeout_ms l) || out_of 3600000 (rl_cpu_millis l)
           || out_of 65536 (rl_memory_mib l) || out_of 4096 (rl_pids l)
           || out_of 1048576 (rl_output_kib l) || out_of 1024 (rl_concurrency l)) InvalidLimits.

Section manifest.
Context `{UrlLib, SemverLib}.

Definition valid_uri_reference (value : rstr) : bool :=
  negb (is_empty value) && (char_len value <=? 2048)%N && negb (existsb is_whitespace value)
  && is_some (base ← url_parse (lit "https://manifest.invalid/base/"); url_join base value).

Definition optional_absolute_uri (value : option rstr) (maximum : N) (field : rstr)
    : result ManifestError unit :=
  fail_if (is_some_and (fun uri => (maximum <? char_len uri)%N || is_none (url_parse uri)) value)
    (InvalidField field).

Definition PluginProvenance_validate (p : PluginProvenance) : result ManifestError unit :=
  optional_bounded_text (pp_generator p) 0 500 (lit "provenance.generator");;
  optional_bounded_text (pp_attestation p) 0 2000 (lit "provenance.attestation");;
  fail_if ((64 <? size_of (pp_source_materials p))%N || negb (all_unique (pp_source_materials p))
           || existsb (fun uri => (2048 <? char_len uri)%N || is_none (url_parse uri)) (pp_source_materials p)
           || (64 <? size_of (pp_notice_files p))%N || negb (all_unique (pp_notice_files p))
           || existsb (fun path => negb (safe_relative_path path)) (pp_notice_files p))
    (InvalidField (lit "provenance")).

Definition Author_validate (a : Author) : result ManifestError unit :=
  bounded_text (au_name a) 1 200 (lit "author.name");;
  fail_if (is_some_and (fun email => (320 <? char_len email)%N || negb (valid_email_shape email)) (au_email a))
    (InvalidField (lit "author.email"));;
  optional_absolute_uri (au_url a) 2048 (lit "author.url").

Definition PluginDependency_validate (d : PluginDependency) : result ManifestError unit :=
  fail_if (negb (valid_plugin_id (pd_id d)) || negb (bounded_plain_text (pd_version d) 1 128)
           || is_none (req_parse (pd_version d))) (InvalidField (lit "dependencies")).

Definition PluginManifest_validate (m : PluginManifest) : result ManifestError unit :=
  fail_if (negb (pm_manifest_version m =? PLUGIN_MANIFEST_VERSION)%N
           || negb (str_eqb (pm_plugin_api m) PLUGIN_API_VERSION)) UnsupportedVersion;;
  fail_if (negb (valid_plugin_id (pm_id m))) InvalidPluginId;;
  bounded_text (pm_name m) 1 100 (lit "name");;
  bounded_text (pm_license m) 1 200 (lit "license");;
  fail_if (is_none (version_parse (pm_version m))) InvalidVersion;;
  fail_if (is_some_and (fun v => negb (valid_uri_reference v)) (pm_schema_uri m)) (InvalidField (lit "$schema"));;
  optional_bounded_text (pm_description m) 0 2000 (lit "description");;
  optional_bounded_text (pm_core_compatibility m) 1 128 (lit "coreCompatibility");;
  fail_if (is_some_and (fun r => is_none (req_parse r)) (pm_core_compatibility m))
    (InvalidField (lit "coreCompatibility"));;
  optional_absolute_uri (pm_homepage m) 2048 (lit "homepage");;
  optional_absolute_uri (pm_repository m) 2048 (lit "repository");;
  fail_if (is_empty_list (pm_kinds m) || (16 <? size_of (pm_kinds m))%N || negb (all_unique (pm_kinds m)))
    (DuplicateOrExcessValue (lit "kinds"));;
  fail_if ((128 <? size_of (pm_permissions m))%N || negb (all_unique (pm_permissions m)))
    (DuplicateOrExcessValue (lit "permissions"));;
  PluginProvenance_validate (pm_provenance m);;
  PluginRuntime_validate (pm_runtime m);;
  for_each PermissionRequest_validate (pm_permissions m);;
  validate_collection (pm_authors m) 32 Author_validate (lit "authors");;
  validate_some PluginConfig_validate (pm_config m);;
  validate_collection (pm_hooks m) 128 Hook_validate (lit "hooks");;
  validate_collection (pm_routes m) 64 PluginRoute_validate (lit "routes");;
  validate_collection (pm_render_slots m) 64 RenderSlot_validate (lit "renderSlots");;
  validate_some PluginUi_validate (pm_ui m);;
  validate_some PluginState_validate (pm_state m);;
  validate_collection (pm_migrations m) 256 StateMigration_validate (lit "migrations");;
  validate_collection (pm_dependencies m) 64 PluginDependency_validate (lit "dependencies");;
  validate_some RuntimeLimits_validate (pm_limits m);;
  let metadata := map_to_list (pm_metadata m) in
  fail_if ((64 <? size_of metadata)%N || existsb (fun kv => negb (valid_metadata_key kv.1)) metadata)
    (InvalidField (lit "metadata")).

(** [toml::from_str] into the manifest struct, or its error text. *)
Class ManifestToml := toml_manifest : rstr -> result rstr PluginManifest.
Definition PluginManifest_from_toml `{ManifestToml} (source : rstr) : result ManifestError PluginManifest :=
  value ← map_err ManifestParse (toml_manifest source);
  PluginManifest_validate value;;
  Ok value.

Definition supports_core (m : PluginManifest) (core_version : rstr) : result ManifestError bool :=
  core ← ok_or (version_parse core_version) InvalidVersion;
  match pm_core_compatibility m with
  | None => Ok true
  | Some r => requirement ← ok_or (req_parse r) (InvalidField (lit "coreCompatibility"));
              Ok (req_matches requirement core)
  end.
End manifest.

(** ** What the validators guarantee *)

Lemma all_unique_from_spec {T} `{EqDecision T} (before values : list T) :
  all_unique_from before values = true <->
  NoDup values /\ (forall v, v ∈ values -> v ∉ before).
Proof.
  revert before. induction values as [|v vs IH]; intros before; cbn.
  { split; [intros _; split; [constructor|by intros v ?%not_elem_of_nil]|done]. }
  rewrite andb_true_iff, negb_true_iff, existsb_false, IH, Forall_forall, NoDup_cons.
  setoid_rewrite bool_decide_eq_false. setoid_rewrite elem_of_app. setoid_rewrite list_elem_of_singleton.
  setoid_rewrite elem_of_cons.
  split; [|naive_solver].
  intros (Hb & Hnd & Hv). split; [split; [intros Hin; by apply (Hv v Hin); right|done]|].
  intros w [->|Hw] Hin; [by apply (Hb v Hin)|by apply (Hv w Hw); left].
Qed.
Lemma all_unique_NoDup {T} `{EqDecision T} (values : list T) :
  all_unique values = true <-> NoDup values.
Proof.
  unfold all_unique. rewrite all_unique_from_spec.
  split; [naive_solver|]. intros H. split; [done|]. by intros v _ ?%not_elem_of_nil.
Qed.

Lemma validate_collection_Ok {T} `{EqDecision T} (values : list T) maximum validate field u :
  validate_collection values maximum validate field = Ok u ->
  (size_of values <= maximum)%N /\ NoDup values /\ Forall (fun v => validate v = Ok tt) values.
Proof.
  unfold validate_collection. intros H. inv_ok. bool_simpl.
  split; [done|]. split; [by apply all_unique_NoDup|by apply for_each_Ok in H0].
Qed.

(** Lexical resolution of a path against a directory, as an operating system
    resolves it: [..] leaves a directory, [.] and empty segments stay. *)
Fixpoint resolve (directory : list rstr) (segments : list rstr) : list rstr :=
  match segments with
  | [] => directory
  | s :: segments =>
      if str_eqb s (lit "..") then resolve (removelast directory) segments
      else if is_empty s || str_eqb s (lit ".") then resolve directory segments
      else resolve (directory ++ [s]) segments
  end.

(** A path stays in its package: it is relative, and from any directory it
    leads to that directory or below, never above or beside it. *)
Definition stays_inside (path : rstr) : Prop :=
  starts_with (lit "/") path = false /\ (0%N ∉ path) /\ (92%N ∉ path) /\
  forall root, exists below, resolve root (split 47 path) = root ++ below.

Lemma resolve_below segments : Forall (fun s => str_eqb s (lit "..") = false) segments ->
  forall root, exists below, resolve root segments = root ++ below.
Proof.
  induction 1 as [|s segments Hs _ IH]; intros root; cbn [resolve].
  { exists []. by rewrite app_nil_r. }
  rewrite Hs. destruct (_ || _); [apply IH|].
  destruct (IH (root ++ [s])) as (below & ->). exists (s :: below). by rewrite <-app_assoc.
Qed.

Lemma safe_relative_path_sound path : safe_relative_path path = true -> stays_inside path.
Proof.
  unfold safe_relative_path. intros H. bool_simpl.
  rewrite existsb_false, Forall_forall in *. rewrite forallb_Forall in *.
  match goal with H : forall c, c ∈ path -> _ |- _ => rename H into Hc end.
  repeat split; [done|intros Hin|intros Hin|].
  - specialize (Hc _ Hin). done.
  - specialize (Hc _ Hin). done.
  - apply resolve_below. eapply Forall_impl; [eassumption|]. cbn. intros s Hs. by bool_simpl.
Qed.

(** Every path of a manifest that names a file of the package. *)
Definition schema_paths (s : SchemaReference) : list rstr :=
  match s with PackagePath p => [p] | Inline _ => [] end.
Definition option_paths {T} (f : T -> list rstr) (o : option T) : list rstr :=
  match o with Some v => f v | None => [] end.
Definition route_paths (r : PluginRoute) : list rstr :=
  option_paths schema_paths (pt_request_schema r) ++ option_paths schema_paths (pt_response_schema r).
Definition runtime_paths (r : PluginRuntime) : list rstr :=
  match r with BuiltIn _ _ => [] | WasiComponent _ c _ _ => [c] | JsonRpcStdio _ e _ _ => [e] end.
Definition package_paths (m : PluginManifest) : list rstr :=
  pp_notice_files (pm_provenance m)
  ++ runtime_paths (pm_runtime m)
  ++ option_paths (fun c => schema_paths (pc_schema c)) (pm_config m)
  ++ mjoin (route_paths <$> pm_routes m)
  ++ option_paths (fun u => [ui_entrypoint u]) (pm_ui m)
  ++ option_paths (fun s => mjoin ((fun c => schema_paths (sc_schema c)) <$> ps_collections s)) (pm_state m).

Lemma schema_paths_safe s u : SchemaReference_validate s = Ok u -> Forall stays_inside (schema_paths s).
Proof.
  destruct s as [p|sc]; cbn; [|constructor].
  destruct (safe_relative_path p) eqn:E; [|discriminate]. intros _.
  constructor; [by apply safe_relative_path_sound|constructor].
Qed.
Lemma option_paths_safe {T} (validate : T -> result ManifestError unit) f o u :
  (forall v u', validate v = Ok u' -> Forall stays_inside (f v)) ->
  validate_some validate o = Ok u -> Forall stays_inside (option_paths f o).
Proof. destruct o as [v|]; cbn; [eauto|constructor]. Qed.
Lemma joined_paths_safe {T} (validate : T -> result ManifestError unit) f l :
  (forall v u, validate v = Ok u -> Forall stays_inside (f v)) ->
  Forall (fun v => validate v = Ok tt) l -> Forall stays_inside (mjoin (f <$> l)).
Proof.
  intros Hf Hl. induction Hl as [|v l Hv Hl IH]; cbn; [constructor|].
  apply Forall_app. split; [by eapply Hf|done].
Qed.
Lemma runtime_paths_safe r u : PluginRuntime_validate r = Ok u -> Forall stays_inside (runtime_paths r).
Proof.
  intros H. destruct r; cbn in *; [constructor| |]; inv_ok; bool_simpl;
    (constructor; [by apply safe_relative_path_sound|constructor]).
Qed.
Lemma route_paths_safe r u : PluginRoute_validate r = Ok u -> Forall stays_inside (route_paths r).
Proof.
  unfold PluginRoute_validate. intros H. inv_ok. apply Forall_app.
  split; (eapply option_paths_safe; [exact schema_paths_safe|eassumption]).
Qed.
Lemma config_paths_safe c u : PluginConfig_validate c = Ok u -> Forall stays_inside (schema_paths (pc_schema c)).
Proof. unfold PluginConfig_validate. intros H. inv_ok. by eapply schema_paths_safe. Qed.
Lemma ui_paths_safe i u : PluginUi_validate i = Ok u -> Forall stays_inside [ui_entrypoint i].
Proof.
  unfold PluginUi_validate. intros H. inv_ok. bool_simpl.
  constructor; [by apply safe_relative_path_sound|constructor].
Qed.
Lemma collection_paths_safe c u :
  StateCollection_validate c = Ok u -> Forall stays_inside (schema_paths (sc_schema c)).
Proof. unfold StateCollection_validate. intros H. inv_ok. by eapply schema_paths_safe. Qed.
Lemma state_paths_safe s u : PluginState_validate s = Ok u ->
  Forall stays_inside (mjoin ((fun c => schema_paths (sc_schema c)) <$> ps_collections s)).
Proof.
  unfold PluginState_validate. intros H. inv_ok.
  eapply joined_paths_safe; [exact collection_paths_safe|by eapply for_each_Ok].
Qed.
Lemma provenance_paths_safe `{UrlLib} p u :
  PluginProvenance_validate p = Ok u -> Forall stays_inside (pp_notice_files p).
Proof.
  unfold PluginProvenance_validate. intros Hp. inv_ok. bool_simpl.
  match goal with E : existsb (fun path => negb (safe_relative_path path)) _ = false |- _ =>
    apply existsb_false in E; eapply Forall_impl; [exact E|] end.
  cbn. intros x Hx. by apply safe_relative_path_sound, negb_false_iff.
Qed.

(** A plugin can only name files of its own package: when a manifest is
    accepted, every path in it that the host opens (notices, the WASI component
    or the executable, the configuration, route and state schemas, the UI entry
    point) is relative, free of NUL and backslash, and resolves from any
    directory to that directory or below. *)
Theorem accepted_manifest_stays_in_its_package `{UrlLib, SemverLib} (m : PluginManifest)
    (Hm : PluginManifest_validate m = Ok tt) : Forall stays_inside (package_paths m).
Proof.
  unfold PluginManifest_validate in Hm. inv_ok.
  repeat match goal with
  | V : validate_collection _ _ _ _ = Ok _ |- _ => apply validate_collection_Ok in V as (? & ? & ?)
  end.
  unfold package_paths. rewrite !Forall_app.
  repeat split; eauto using provenance_paths_safe, runtime_paths_safe, option_paths_safe,
    joined_paths_safe, route_paths_safe, config_paths_safe, ui_paths_safe, state_paths_safe.
Qed.

(** What a resource name of a permission may be: short, printable, and never a
    wildcard. *)
Definition exact_resource (r : rstr) : Prop :=
  r <> [] /\ (char_len r <= 512)%N /\ (42%N ∉ r) /\ (0%N ∉ r) /\ Forall (fun c => is_whitespace c = false) r.

Lemma unsafe_resource_false r : unsafe_resource r = false -> exact_resource r.
Proof.
  unfold unsafe_resource, exact_resource. intros H. bool_simpl.
  rewrite existsb_false, Forall_forall in *.
  repeat split; [by intros ->|done| | |done]; intros Hin; by specialize (H1 _ Hin).
Qed.

Lemma PermissionRequest_validate_sound p u : PermissionRequest_validate p = Ok u ->
  (requires_resources (pq_capability p) = true -> pq_resources p <> None) /\
  forall rs, pq_resources p = Some rs -> rs <> [] /\ NoDup rs /\ Forall exact_resource rs.
Proof.
  unfold PermissionRequest_validate. intros H. inv_ok. split.
  - intros Hreq Hnone. by rewrite Hreq, Hnone in *.
  - intros rs Hrs. rewrite Hrs in *. cbn in *. bool_simpl.
    match goal with E : existsb unsafe_resource rs = false |- _ => apply existsb_false in E end.
    split; [by destruct rs|]. split; [by apply all_unique_NoDup|].
    eapply Forall_impl; [eassumption|]. apply unsafe_resource_false.
Qed.

(** An accepted manifest asks for exact things: no permission twice; a
    capability that reaches outside the plugin (a render slot, a public or
    admin route, the network, a secret, code execution) names at least one
    resource; and every resource list is non-empty, without repetition, and
    free of wildcards. *)
Theorem accepted_permissions_are_exact `{UrlLib, SemverLib} (m : PluginManifest)
    (Hm : PluginManifest_validate m = Ok tt) :
  NoDup (pm_permissions m) /\
  forall p, p ∈ pm_permissions m ->
    (requires_resources (pq_capability p) = true -> pq_resources p <> None) /\
    forall rs, pq_resources p = Some rs -> rs <> [] /\ NoDup rs /\ Forall exact_resource rs.
Proof.
  unfold PluginManifest_validate in Hm. inv_ok. bool_simpl.
  split; [by apply all_unique_NoDup|]. intros p Hp.
  match goal with E : for_each PermissionRequest_validate _ = _ |- _ =>
    rewrite for_each_Ok, Forall_forall in E; by eapply PermissionRequest_validate_sound, E end.
Qed.

(** ** Plugin identifiers *)

Definition label_char (c : N) : bool := is_ascii_lowercase c || is_ascii_digit c || (c =? 45)%N.
Definition dns_label (l : rstr) : Prop :=
  1 <= length l <= 63 /\ Forall (fun c => label_char c = true) l /\
  head l <> Some 45%N /\ last l <> Some 45%N.

Lemma label_char_ascii : ascii_only label_char.
Proof.
  intros c. unfold label_char, is_ascii_lowercase, is_ascii_digit, in_range. intros H.
  repeat (apply orb_true_iff in H as [H|H]); bool_simpl; lia.
Qed.
Lemma starts_with_char_false c l : starts_with [c] l = false <-> head l <> Some c.
Proof.
  rewrite <-not_true_iff_false, starts_with_true.
  destruct l as [|a l]; cbn; split; naive_solver.
Qed.
Lemma ends_with_char_false c l : ends_with [c] l = false <-> last l <> Some c.
Proof.
  unfold ends_with. change (rev [c]) with [c]. rewrite starts_with_char_false.
  rewrite rev_alt. change (rev_append l []) with (reverse l). by rewrite head_reverse.
Qed.
Lemma valid_label_iff l : valid_label l = true <-> dns_label l.
Proof.
  unfold valid_label, dns_label. rewrite !andb_true_iff, !negb_true_iff, N.leb_le.
  change (lit "-") with [45%N]. rewrite starts_with_char_false, ends_with_char_false.
  change (fun b => _ || _ || (b =? 45)%N) with label_char.
  rewrite (bytes_ascii_all _ _ label_char_ascii).
  assert (Forall (fun c => label_char c = true) l -> str_len l = N.of_nat (length l)) as Hlen.
  { intros Hf. unfold str_len, size_of. rewrite bytes_of_ascii; [done|].
    eapply Forall_impl; [exact Hf|]. apply label_char_ascii. }
  split.
  - intros ((((He & Hl) & ?) & ?) & Hf). rewrite Hlen in Hl by done.
    repeat split; [by destruct l; cbn; [|lia]|lia|done..].
  - intros ((? & ?) & Hf & ? & ?). rewrite Hlen by done.
    repeat split; [destruct l; cbn in *; [lia|done]|lia|done..].
Qed.

(** [valid_plugin_id] accepts exactly the reverse-DNS names: at least
    three labels joined by dots, each of 1 to 63 lower-case letters, digits and
    inner hyphens, at most 190 characters in all. *)
Theorem valid_plugin_id_iff value :
  valid_plugin_id value = true <->
  length value <= 190 /\
  exists labels, value = join [46%N] labels /\ 3 <= length labels /\ Forall dns_label labels.
Proof.
  unfold valid_plugin_id, char_len, char_count, size_of. rewrite !andb_true_iff, !N.leb_le, forallb_Forall.
  split.
  - intros ((? & ?) & Hl). split; [lia|]. exists (split 46 value).
    split; [by rewrite split_join|]. split; [lia|].
    eapply Forall_impl; [exact Hl|]. apply valid_label_iff.
  - intros (? & labels & -> & ? & Hl). rewrite split_join_inv.
    + repeat split; [lia|lia|]. eapply Forall_impl; [exact Hl|]. apply valid_label_iff.
    + by destruct labels; cbn in *; [lia|].
    + eapply Forall_impl; [exact Hl|]. intros l (_ & Hc & _) Hin.
      rewrite Forall_forall in Hc. by specialize (Hc _ Hin).
Qed.
