(* ===== verification/InstallLock.v ===== *)
(** * Installation intent and lock: [crates/plugin-api/src/lib.rs], second half

    The intent a human keeps, the lock the installer writes, the digest that
    seals it, and the engine upgrade.  The derived serde code is written out:
    [X_serialize] is the [Serialize] instance, [X_of_value] the [Deserialize] one. *)

From Stdlib Require Import Bool NArith ZArith Lia.
From stdpp Require Import pretty.
From S2P Require Import Prelude Text Extern Manifest.

Definition INSTALL_INTENT_SCHEMA_VERSION : rstr := lit "open-soverign-blog-install/1".
Definition INSTALL_LOCK_SCHEMA_VERSION : rstr := lit "open-soverign-blog-lock/1".

Inductive InstallContractError :=
| ContractParse (message : rstr)
| UnsupportedSchema (schema : rstr)
| ContractInvalid (message : rstr)
| DigestMismatch
| ContractSerialize (message : rstr).

Definition invalid_install {A} (message : string) : result InstallContractError A :=
  Err (ContractInvalid (lit message)).
Definition invalid_if (b : bool) (message : string) : result InstallContractError unit :=
  fail_if b (ContractInvalid (lit message)).

(** ** Data *)

Inductive InstallationAdminAuth := AccessKey | External | Disabled.
Inductive InstallationCache := CacheOff | RedisStandalone | RedisManaged.
Inductive InstallationStyleKind := StyleNone | StyleBuiltin | StyleCustom.
#[export] Instance InstallationAdminAuth_eq_dec : EqDecision InstallationAdminAuth.
Proof. solve_decision. Defined.
#[export] Instance InstallationCache_eq_dec : EqDecision InstallationCache.
Proof. solve_decision. Defined.
#[export] Instance InstallationStyleKind_eq_dec : EqDecision InstallationStyleKind.
Proof. solve_decision. Defined.

Record InstallationStyle := {
  st_kind : InstallationStyleKind;
  st_id : option rstr;
  st_file : option rstr;
  st_sha256 : option rstr;
}.
#[export] Instance InstallationStyle_eq_dec : EqDecision InstallationStyle.
Proof. solve_decision. Defined.
Record InstallationSelection := {
  se_admin_auth : InstallationAdminAuth;
  se_style : InstallationStyle;
  se_cache : InstallationCache;
}.
#[export] Instance InstallationSelection_eq_dec : EqDecision InstallationSelection.
Proof. solve_decision. Defined.
Record RequestedDlc := { rd_id : rstr; rd_version : rstr; rd_enabled : bool }.
Record InstallationIntent := {
  in_schema_version : rstr;
  in_installation_id : rstr;
  in_site_id : rstr;
  in_created_with : rstr;
  in_selection : InstallationSelection;
  in_dlcs : list RequestedDlc;
}.

Record LockedEngine := {
  le_version : rstr;
  le_config_schema_version : rstr;
  le_database_schema_version : N;
  le_plugin_api : rstr;
  le_source : rstr;
  le_artifact_sha256 : option rstr;
}.
Inductive InstalledDlcSourceKind := Bundled | SourceFile | SourceHttps.
#[export] Instance InstalledDlcSourceKind_eq_dec : EqDecision InstalledDlcSourceKind.
Proof. solve_decision. Defined.
Record InstalledDlc := {
  id_id : rstr;
  id_requested_version : rstr;
  id_version : rstr;
  id_core_compatibility : rstr;
  id_manifest_version : N;
  id_plugin_api : rstr;
  id_source_kind : InstalledDlcSourceKind;
  id_source : rstr;
  id_manifest_sha256 : rstr;
  id_artifact_sha256 : option rstr;
  id_enabled : bool;
  id_approved_capabilities : list rstr;
  id_config_sha256 : option rstr;
  id_state_version : option N;
  id_applied_migrations : list rstr;
}.
#[export] Instance InstalledDlc_eq_dec : EqDecision InstalledDlc.
Proof. solve_decision. Defined.
Record RetainedDlcState := {
  re_id : rstr;
  re_removed_version : rstr;
  re_state_version : option N;
  re_applied_migrations : list rstr;
}.
Inductive DlcHistoryAction := Installed | Enabled | HistoryDisabled | Upgraded | Removed.
Record DlcHistoryRecord := {
  hi_sequence : N;
  hi_action : DlcHistoryAction;
  hi_dlc_id : rstr;
  hi_from_version : option rstr;
  hi_to_version : option rstr;
  hi_engine_version : rstr;
}.
Record InstallationLock := {
  il_schema_version : rstr;
  il_installation_id : rstr;
  il_engine : LockedEngine;
  il_selection : InstallationSelection;
  il_dlcs : list InstalledDlc;
  il_retained_dlcs : list RetainedDlcState;
  il_history : list DlcHistoryRecord;
  il_lock_digest : rstr;
}.

Definition set_lock_digest (d : rstr) (l : InstallationLock) : InstallationLock := {|
  il_schema_version := il_schema_version l; il_installation_id := il_installation_id l;
  il_engine := il_engine l; il_selection := il_selection l; il_dlcs := il_dlcs l;
  il_retained_dlcs := il_retained_dlcs l; il_history := il_history l; il_lock_digest := d |}.
Definition set_engine (version source : rstr) (artifact_sha256 : option rstr) (l : InstallationLock)
    : InstallationLock := {|
  il_schema_version := il_schema_version l; il_installation_id := il_installation_id l;
  il_engine := {|
    le_version := version;
    le_config_schema_version := le_config_schema_version (il_engine l);
    le_database_schema_version := le_database_schema_version (il_engine l);
    le_plugin_api := le_plugin_api (il_engine l);
    le_source := source;
    le_artifact_sha256 := artifact_sha256 |};
  il_selection := il_selection l; il_dlcs := il_dlcs l;
  il_retained_dlcs := il_retained_dlcs l; il_history := il_history l;
  il_lock_digest := il_lock_digest l |}.

Definition InstallationAdminAuth_as_str (a : InstallationAdminAuth) : rstr :=
  match a with AccessKey => lit "access_key" | External => lit "external" | Disabled => lit "disabled" end.
Definition InstallationCache_as_str (c : InstallationCache) : rstr :=
  match c with
  | CacheOff => lit "none" | RedisStandalone => lit "redis_standalone" | RedisManaged => lit "redis_managed"
  end.
Definition redis_enabled (c : InstallationCache) : bool := match c with CacheOff => false | _ => true end.

(** ** Lexical validators *)

Definition bounded_install_text (value : rstr) (minimum maximum : N) : bool :=
  within minimum maximum (str_len value) && str_eqb (trim value) value && negb (existsb is_control value).
Definition valid_style_id (value : rstr) : bool :=
  within 1 64 (str_len value) && all_indexed (name_byte "-_") 0 (bytes value).
Definition valid_capability_name (value : rstr) : bool :=
  within 3 128 (str_len value) && contains_char 46 value
  && forallb (fun b => is_ascii_lowercase b || is_ascii_digit b || one_of "._-" b) (bytes value).
Definition strictly_sorted_unique (values : list rstr) : bool := adjacent str_ltb values.

Definition InstallationStyle_validate (s : InstallationStyle) : result InstallContractError unit :=
  match st_kind s with
  | StyleNone =>
      invalid_if (is_some (st_id s) || is_some (st_file s) || is_some (st_sha256 s))
        "style kind none cannot include id, file, or sha256"
  | StyleBuiltin =>
      invalid_if (negb (is_some_and valid_style_id (st_id s)) || is_some (st_file s) || is_some (st_sha256 s))
        "builtin style requires only a lowercase stable id"
  | StyleCustom =>
      invalid_if (is_some (st_id s) || negb (is_some_and safe_relative_path (st_file s))
                  || negb (is_some_and valid_sha256 (st_sha256 s)))
        "custom style requires only a safe installed file and sha256"
  end.
Definition InstallationSelection_validate (s : InstallationSelection) : result InstallContractError unit :=
  InstallationStyle_validate (se_style s).

(** ** JSON: the derived [Serialize]

    A tree lists its fields in declaration order.  A [serde_json] map is a
    [BTreeMap], so [to_value] and [canonical_json] both leave every object
    sorted by key. *)

Fixpoint insert_entry (k : rstr) (v : Value) (l : list (rstr * Value)) : list (rstr * Value) :=
  match l with
  | [] => [(k, v)]
  | (k', v') :: l' =>
      if str_ltb k k' then (k, v) :: l
      else if str_eqb k k' then (k', v) :: l'
      else (k', v') :: insert_entry k v l'
  end.
Definition sort_entries (l : list (rstr * Value)) : list (rstr * Value) :=
  fold_left (fun m kv => insert_entry kv.1 kv.2 m) l [].
Definition object (l : list (rstr * Value)) : Value := JObject (sort_entries l).

Fixpoint canonical_json (v : Value) : Value :=
  match v with
  | JObject o => object (map (fun kv => (kv.1, canonical_json kv.2)) o)
  | JArray l => JArray (map canonical_json l)
  | v => v
  end.

(** [serde_json::to_value] of a serialized tree. *)
Definition to_value (tree : Value) : Value := canonical_json tree.

Definition jnum (n : N) : Value := JNumber (show_N n).
(** [#[serde(skip_serializing_if = "Option::is_none")]] *)
Definition skip_none {A} (k : string) (f : A -> Value) (o : option A) : list (rstr * Value) :=
  match o with Some a => [(lit k, f a)] | None => [] end.

Definition style_kind_str (k : InstallationStyleKind) : rstr :=
  match k with StyleNone => lit "none" | StyleBuiltin => lit "builtin" | StyleCustom => lit "custom" end.
Definition source_kind_str (k : InstalledDlcSourceKind) : rstr :=
  match k with Bundled => lit "bundled" | SourceFile => lit "file" | SourceHttps => lit "https" end.
Definition action_str (a : DlcHistoryAction) : rstr :=
  match a with
  | Installed => lit "installed" | Enabled => lit "enabled" | HistoryDisabled => lit "disabled"
  | Upgraded => lit "upgraded" | Removed => lit "removed"
  end.

Definition style_serialize (s : InstallationStyle) : Value :=
  JObject ([(lit "kind", JString (style_kind_str (st_kind s)))]
          ++ skip_none "id" JString (st_id s) ++ skip_none "file" JString (st_file s)
          ++ skip_none "sha256" JString (st_sha256 s)).
Definition selection_serialize (s : InstallationSelection) : Value :=
  JObject [(lit "admin_auth", JString (InstallationAdminAuth_as_str (se_admin_auth s)));
          (lit "style", style_serialize (se_style s));
          (lit "cache", JString (InstallationCache_as_str (se_cache s)))].
Definition engine_serialize (e : LockedEngine) : Value :=
  JObject ([(lit "version", JString (le_version e));
           (lit "configSchemaVersion", JString (le_config_schema_version e));
           (lit "databaseSchemaVersion", jnum (le_database_schema_version e));
           (lit "pluginApi", JString (le_plugin_api e));
           (lit "source", JString (le_source e))]
          ++ skip_none "artifactSha256" JString (le_artifact_sha256 e)).
Definition dlc_serialize (d : InstalledDlc) : Value :=
  JObject ([(lit "id", JString (id_id d));
           (lit "requestedVersion", JString (id_requested_version d));
           (lit "version", JString (id_version d));
           (lit "coreCompatibility", JString (id_core_compatibility d));
           (lit "manifestVersion", jnum (id_manifest_version d));
           (lit "pluginApi", JString (id_plugin_api d));
           (lit "sourceKind", JString (source_kind_str (id_source_kind d)));
           (lit "source", JString (id_source d));
           (lit "manifestSha256", JString (id_manifest_sha256 d))]
          ++ skip_none "artifactSha256" JString (id_artifact_sha256 d)
          ++ [(lit "enabled", JBool (id_enabled d));
              (lit "approvedCapabilities", JArray (map JString (id_approved_capabilities d)))]
          ++ skip_none "configSha256" JString (id_config_sha256 d)
          ++ skip_none "stateVersion" jnum (id_state_version d)
          ++ [(lit "appliedMigrations", JArray (map JString (id_applied_migrations d)))]).
Definition retained_serialize (r : RetainedDlcState) : Value :=
  JObject ([(lit "id", JString (re_id r)); (lit "removedVersion", JString (re_removed_version r))]
          ++ skip_none "stateVersion" jnum (re_state_version r)
          ++ [(lit "appliedMigrations", JArray (map JString (re_applied_migrations r)))]).
Definition history_serialize (h : DlcHistoryRecord) : Value :=
  JObject ([(lit "sequence", jnum (hi_sequence h)); (lit "action", JString (action_str (hi_action h)));
           (lit "dlcId", JString (hi_dlc_id h))]
          ++ skip_none "fromVersion" JString (hi_from_version h)
          ++ skip_none "toVersion" JString (hi_to_version h)
          ++ [(lit "engineVersion", JString (hi_engine_version h))]).
(** [retained_dlcs] is skipped when empty. *)
Definition lock_serialize (l : InstallationLock) : Value :=
  JObject ([(lit "schemaVersion", JString (il_schema_version l));
           (lit "installationId", JString (il_installation_id l));
           (lit "engine", engine_serialize (il_engine l));
           (lit "selection", selection_serialize (il_selection l));
           (lit "dlcs", JArray (map dlc_serialize (il_dlcs l)))]
          ++ match il_retained_dlcs l with
             | [] => []
             | r => [(lit "retainedDlcs", JArray (map retained_serialize r))]
             end
          ++ [(lit "history", JArray (map history_serialize (il_history l)));
              (lit "lockDigest", JString (il_lock_digest l))]).

(** ** JSON: the derived [Deserialize]

    A struct is an object with known, distinct keys
    ([deny_unknown_fields]), or an array of its fields in order. *)

Definition assoc (k : string) (l : list (rstr * Value)) : option Value :=
  snd <$> find (fun kv => str_eqb kv.1 (lit k)) l.
Definition struct_fields (names : list string) (v : Value) : option (list (rstr * Value)) :=
  match v with
  | JObject l =>
      if all_unique (map fst l) && forallb (fun kv => existsb (fun n => str_eqb kv.1 (lit n)) names) l
      then Some l else None
  | JArray l => if length l <=? length names then Some (combine (map lit names) l) else None
  | _ => None
  end.

Definition required {A} (f : Value -> option A) (k : string) (l : list (rstr * Value)) : option A :=
  v ← assoc k l; f v.
(** [#[serde(default)]] *)
Definition or_default {A} (d : A) (f : Value -> option A) (k : string) (l : list (rstr * Value)) : option A :=
  match assoc k l with Some v => f v | None => Some d end.
Definition nullable {A} (f : Value -> option A) (v : Value) : option (option A) :=
  match v with JNull => Some None | v => Some <$> f v end.
Definition or_none {A} (f : Value -> option A) : string -> list (rstr * Value) -> option (option A) :=
  or_default None (nullable f).

Definition as_string (v : Value) : option rstr := match v with JString s => Some s | _ => None end.
Definition as_bool (v : Value) : option bool := match v with JBool b => Some b | _ => None end.
Definition as_list {A} (f : Value -> option A) (v : Value) : option (list A) :=
  match v with JArray l => mapM f l | _ => None end.
(** An unsigned integer of at most [maximum]: digits, no sign, no fraction. *)
Definition as_unsigned (maximum : N) (v : Value) : option N :=
  match v with
  | JNumber t => if negb (is_empty t) && forallb is_ascii_digit t && (decimal t <=? maximum)%N
                 then Some (decimal t) else None
  | _ => None
  end.
Definition u8_max : N := 255.
Definition u64_max : N := 18446744073709551615.
(** A unit variant: its name, or an object from its name to null. *)
Definition as_variant {A} (name : A -> rstr) (variants : list A) (v : Value) : option A :=
  s ← match v with
      | JString s => Some s
      | JObject l => match l with [(k, w)] => match w with JNull => Some k | _ => None end | _ => None end
      | _ => None
      end;
  find (fun a => str_eqb (name a) s) variants.

Definition style_of_value (v : Value) : option InstallationStyle :=
  l ← struct_fields ["kind"; "id"; "file"; "sha256"] v;
  kind ← required (as_variant style_kind_str [StyleNone; StyleBuiltin; StyleCustom]) "kind" l;
  id ← or_none as_string "id" l;
  file ← or_none as_string "file" l;
  sha256 ← or_none as_string "sha256" l;
  Some {| st_kind := kind; st_id := id; st_file := file; st_sha256 := sha256 |}.
Definition selection_of_value (v : Value) : option InstallationSelection :=
  l ← struct_fields ["admin_auth"; "style"; "cache"] v;
  admin_auth ← required (as_variant InstallationAdminAuth_as_str [AccessKey; External; Disabled]) "admin_auth" l;
  style ← required style_of_value "style" l;
  cache ← required (as_variant InstallationCache_as_str [CacheOff; RedisStandalone; RedisManaged]) "cache" l;
  Some {| se_admin_auth := admin_auth; se_style := style; se_cache := cache |}.
Definition engine_of_value (v : Value) : option LockedEngine :=
  l ← struct_fields ["version"; "configSchemaVersion"; "databaseSchemaVersion"; "pluginApi"; "source";
                     "artifactSha256"] v;
  version ← required as_string "version" l;
  config ← required as_string "configSchemaVersion" l;
  database ← required (as_unsigned u64_max) "databaseSchemaVersion" l;
  api ← required as_string "pluginApi" l;
  source ← required as_string "source" l;
  artifact ← or_none as_string "artifactSha256" l;
  Some {| le_version := version; le_config_schema_version := config; le_database_schema_version := database;
          le_plugin_api := api; le_source := source; le_artifact_sha256 := artifact |}.
Definition dlc_of_value (v : Value) : option InstalledDlc :=
  l ← struct_fields ["id"; "requestedVersion"; "version"; "coreCompatibility"; "manifestVersion"; "pluginApi";
                     "sourceKind"; "source"; "manifestSha256"; "artifactSha256"; "enabled";
                     "approvedCapabilities"; "configSha256"; "stateVersion"; "appliedMigrations"] v;
  id ← required as_string "id" l;
  requested ← required as_string "requestedVersion" l;
  version ← required as_string "version" l;
  core ← required as_string "coreCompatibility" l;
  manifest_version ← required (as_unsigned u8_max) "manifestVersion" l;
  api ← required as_string "pluginApi" l;
  kind ← required (as_variant source_kind_str [Bundled; SourceFile; SourceHttps]) "sourceKind" l;
  source ← required as_string "source" l;
  manifest_sha256 ← required as_string "manifestSha256" l;
  artifact ← or_none as_string "artifactSha256" l;
  enabled ← required as_bool "enabled" l;
  capabilities ← or_default [] (as_list as_string) "approvedCapabilities" l;
  config ← or_none as_string "configSha256" l;
  state ← or_none (as_unsigned u64_max) "stateVersion" l;
  migrations ← or_default [] (as_list as_string) "appliedMigrations" l;
  Some {| id_id := id; id_requested_version := requested; id_version := version; id_core_compatibility := core;
          id_manifest_version := manifest_version; id_plugin_api := api; id_source_kind := kind;
          id_source := source; id_manifest_sha256 := manifest_sha256; id_artifact_sha256 := artifact;
          id_enabled := enabled; id_approved_capabilities := capabilities; id_config_sha256 := config;
          id_state_version := state; id_applied_migrations := migrations |}.
Definition retained_of_value (v : Value) : option RetainedDlcState :=
  l ← struct_fields ["id"; "removedVersion"; "stateVersion"; "appliedMigrations"] v;
  id ← required as_string "id" l;
  removed ← required as_string "removedVersion" l;
  state ← or_none (as_unsigned u64_max) "stateVersion" l;
  migrations ← or_default [] (as_list as_string) "appliedMigrations" l;
  Some {| re_id := id; re_removed_version := removed; re_state_version := state;
          re_applied_migrations := migrations |}.
Definition history_of_value (v : Value) : option DlcHistoryRecord :=
  l ← struct_fields ["sequence"; "action"; "dlcId"; "fromVersion"; "toVersion"; "engineVersion"] v;
  sequence ← required (as_unsigned u64_max) "sequence" l;
  action ← required (as_variant action_str [Installed; Enabled; HistoryDisabled; Upgraded; Removed]) "action" l;
  dlc_id ← required as_string "dlcId" l;
  from ← or_none as_string "fromVersion" l;
  to ← or_none as_string "toVersion" l;
  engine_version ← required as_string "engineVersion" l;
  Some {| hi_sequence := sequence; hi_action := action; hi_dlc_id := dlc_id; hi_from_version := from;
          hi_to_version := to; hi_engine_version := engine_version |}.
Definition lock_of_value (v : Value) : option InstallationLock :=
  l ← struct_fields ["schemaVersion"; "installationId"; "engine"; "selection"; "dlcs"; "retainedDlcs";
                     "history"; "lockDigest"] v;
  schema_version ← required as_string "schemaVersion" l;
  installation_id ← required as_string "installationId" l;
  engine ← required engine_of_value "engine" l;
  selection ← required selection_of_value "selection" l;
  dlcs ← required (as_list dlc_of_value) "dlcs" l;
  retained ← or_default [] (as_list retained_of_value) "retainedDlcs" l;
  history ← or_default [] (as_list history_of_value) "history" l;
  digest ← required as_string "lockDigest" l;
  Some {| il_schema_version := schema_version; il_installation_id := installation_id; il_engine := engine;
          il_selection := selection; il_dlcs := dlcs; il_retained_dlcs := retained; il_history := history;
          il_lock_digest := digest |}.

(** ** Validation and the operations *)

(** The [serde_json] and [toml] texts: parsing is given as the value it
    reads, in document order, or the message of the error it reports. *)
Class ContractText := {
  json_to_vec : Value -> list N;
  json_to_string_pretty : Value -> rstr;
  json_parse : rstr -> result rstr Value;
  json_mismatch : Value -> rstr;
  toml_intent : rstr -> result rstr InstallationIntent;
  toml_to_string_pretty : InstallationIntent -> result rstr rstr;
}.

Section contract.
Context `{UrlLib, SemverLib, Sha256Lib, UuidLib, ContractText}.

Definition validate_uuid (name : string) (value : rstr) : result InstallContractError unit :=
  fail_if (is_none (uuid_parse value)) (ContractInvalid (lit name)).
Definition parse_version (name : string) (value : rstr) : result InstallContractError Version :=
  ok_or (version_parse value) (ContractInvalid (lit name)).
Definition parse_requirement (name : string) (value : rstr) : result InstallContractError VersionReq :=
  ok_or (req_parse value) (ContractInvalid (lit name)).

Definition RequestedDlc_validate (d : RequestedDlc) : result InstallContractError unit :=
  invalid_if (negb (valid_plugin_id (rd_id d))) "requested DLC id is invalid";;
  _ ← parse_requirement "requested DLC version" (rd_version d);
  Ok tt.

Definition insert_requested (ids : gset rstr) (d : RequestedDlc) : result InstallContractError (gset rstr) :=
  RequestedDlc_validate d;;
  invalid_if (bool_decide (rd_id d ∈ ids)) "dlcs contains a duplicate id";;
  Ok ({[ rd_id d ]} ∪ ids).
Definition InstallationIntent_validate (i : InstallationIntent) : result InstallContractError unit :=
  fail_if (negb (str_eqb (in_schema_version i) INSTALL_INTENT_SCHEMA_VERSION))
    (UnsupportedSchema (in_schema_version i));;
  validate_uuid "installation_id" (in_installation_id i);;
  validate_uuid "site_id" (in_site_id i);;
  _ ← parse_version "created_with" (in_created_with i);
  InstallationSelection_validate (in_selection i);;
  invalid_if (256 <? size_of (in_dlcs i))%N "dlcs exceeds 256 records";;
  _ ← for_fold insert_requested ∅ (in_dlcs i);
  Ok tt.
Definition InstallationIntent_from_toml (source : rstr) : result InstallContractError InstallationIntent :=
  value ← map_err ContractParse (toml_intent source);
  InstallationIntent_validate value;;
  Ok value.
Definition InstallationIntent_to_toml_pretty (i : InstallationIntent) : result InstallContractError rstr :=
  InstallationIntent_validate i;;
  rendered ← map_err ContractSerialize (toml_to_string_pretty i);
  Ok (if ends_with [10%N] rendered then rendered else rendered ++ [10%N]).

Definition LockedEngine_validate (e : LockedEngine) : result InstallContractError unit :=
  _ ← parse_version "engine.version" (le_version e);
  invalid_if (negb (str_eqb (le_plugin_api e) PLUGIN_API_VERSION)) "engine plugin API is unsupported";;
  invalid_if ((le_database_schema_version e =? 0)%N
              || negb (bounded_install_text (le_config_schema_version e) 1 128)
              || negb (bounded_install_text (le_source e) 1 2048)
              || is_some_and (fun d => negb (valid_sha256 d)) (le_artifact_sha256 e))
    "engine lock record is invalid".

Definition safe_https_source (source : rstr) : bool :=
  is_some_and (fun u => str_eqb (url_scheme u) (lit "https") && is_some (url_host_str u)
                        && is_empty (url_username u) && is_none (url_password u)
                        && is_none (url_fragment u)) (url_parse source).
Definition invalid_migrations (migrations : list rstr) : bool :=
  negb (all_unique migrations) || existsb (fun v => negb (qualified_name v)) migrations.
Definition InstalledDlc_validate (engine_version : Version) (d : InstalledDlc) : result InstallContractError unit :=
  invalid_if (negb (valid_plugin_id (id_id d))) "installed DLC id is invalid";;
  requested ← parse_requirement "installed DLC requested_version" (id_requested_version d);
  version ← parse_version "installed DLC version" (id_version d);
  core ← parse_requirement "installed DLC core_compatibility" (id_core_compatibility d);
  invalid_if (negb (req_matches requested version) || negb (req_matches core engine_version))
    "installed DLC does not satisfy its requested or core version range";;
  invalid_if (negb (id_manifest_version d =? PLUGIN_MANIFEST_VERSION)%N
              || negb (str_eqb (id_plugin_api d) PLUGIN_API_VERSION)
              || negb (valid_sha256 (id_manifest_sha256 d))
              || is_some_and (fun v => negb (valid_sha256 v)) (id_artifact_sha256 d)
              || is_some_and (fun v => negb (valid_sha256 v)) (id_config_sha256 d)
              || is_some_and (fun v => v =? 0)%N (id_state_version d))
    "installed DLC lock material is invalid";;
  match id_source_kind d with
  | Bundled => invalid_if (negb (bounded_install_text (id_source d) 1 512)) "bundled DLC source is invalid"
  | SourceFile => invalid_if (negb (safe_relative_path (id_source d)) || is_none (id_artifact_sha256 d))
                    "file DLC requires a safe relative source and artifact digest"
  | SourceHttps => invalid_if (negb (safe_https_source (id_source d)) || is_none (id_artifact_sha256 d))
                     "HTTPS DLC requires a safe URL and artifact digest"
  end;;
  invalid_if (negb (strictly_sorted_unique (id_approved_capabilities d))
              || existsb (fun v => negb (valid_capability_name v)) (id_approved_capabilities d)
              || invalid_migrations (id_applied_migrations d))
    "DLC capabilities or applied migrations are invalid".

Definition RetainedDlcState_validate (r : RetainedDlcState) : result InstallContractError unit :=
  invalid_if (negb (valid_plugin_id (re_id r)) || is_none (version_parse (re_removed_version r))
              || is_some_and (fun v => v =? 0)%N (re_state_version r)
              || invalid_migrations (re_applied_migrations r)) "retained DLC state is invalid".

Definition parse_optional_version (name : string) (o : option rstr) : result InstallContractError unit :=
  match o with Some v => _ ← parse_version name v; Ok tt | None => Ok tt end.
(** The two [expect]s of an upgrade follow a successful parse; the fallback of
    the second match is never taken ([upgrade_versions_parse]). *)
Definition versions_are_valid (h : DlcHistoryRecord) : bool :=
  match hi_action h with
  | Installed => is_none (hi_from_version h) && is_some (hi_to_version h)
  | Upgraded =>
      match hi_from_version h, hi_to_version h with
      | Some from, Some to =>
          match version_parse from, version_parse to with
          | Some from, Some to => version_ltb from to
          | _, _ => false
          end
      | _, _ => false
      end
  | Removed => is_some (hi_from_version h) && is_none (hi_to_version h)
  | Enabled | HistoryDisabled =>
      is_some (hi_from_version h) && bool_decide (hi_from_version h = hi_to_version h)
  end.
Definition DlcHistoryRecord_validate (h : DlcHistoryRecord) : result InstallContractError unit :=
  invalid_if (negb (valid_plugin_id (hi_dlc_id h))) "DLC history id is invalid";;
  _ ← parse_version "DLC history engine_version" (hi_engine_version h);
  parse_optional_version "DLC history from_version" (hi_from_version h);;
  parse_optional_version "DLC history to_version" (hi_to_version h);;
  invalid_if (negb (versions_are_valid h)) "DLC history version transition is invalid".

Definition expected_digest (l : InstallationLock) : rstr :=
  sha256_hex (json_to_vec (canonical_json (to_value (lock_serialize (set_lock_digest [] l))))).

(** The three loops of [InstallationLock::validate], with their loop-carried
    previous identifier and index. *)
Definition dlc_step (engine_version : Version) (previous : option rstr) (d : InstalledDlc)
    : result InstallContractError (option rstr) :=
  invalid_if (is_some_and (fun p => str_leb (id_id d) p) previous)
    "DLC lock records must be uniquely sorted by id";;
  InstalledDlc_validate engine_version d;;
  Ok (Some (id_id d)).
Definition retained_step (active : gset rstr) (previous : option rstr) (r : RetainedDlcState)
    : result InstallContractError (option rstr) :=
  invalid_if (is_some_and (fun p => str_leb (re_id r) p) previous)
    "retained DLC state must be uniquely sorted by id";;
  invalid_if (bool_decide (re_id r ∈ active)) "active and retained DLC records cannot share an id";;
  RetainedDlcState_validate r;;
  Ok (Some (re_id r)).
Definition saturating_succ (n : N) : N := N.min (n + 1) u64_max.
Definition history_step (index : N) (h : DlcHistoryRecord) : result InstallContractError N :=
  invalid_if (negb (hi_sequence h =? saturating_succ index)%N)
    "DLC history sequence must be contiguous and start at one";;
  DlcHistoryRecord_validate h;;
  Ok (index + 1)%N.

Definition InstallationLock_validate (l : InstallationLock) : result InstallContractError unit :=
  fail_if (negb (str_eqb (il_schema_version l) INSTALL_LOCK_SCHEMA_VERSION))
    (UnsupportedSchema (il_schema_version l));;
  validate_uuid "installation_id" (il_installation_id l);;
  LockedEngine_validate (il_engine l);;
  InstallationSelection_validate (il_selection l);;
  invalid_if (256 <? size_of (il_dlcs l))%N "DLC lock exceeds 256 records";;
  invalid_if (256 <? size_of (il_retained_dlcs l))%N "retained DLC state exceeds 256 records";;
  engine_version ← parse_version "engine.version" (le_version (il_engine l));
  _ ← for_fold (dlc_step engine_version) None (il_dlcs l);
  _ ← for_fold (retained_step (list_to_set (id_id <$> il_dlcs l))) None (il_retained_dlcs l);
  _ ← for_fold history_step 0%N (il_history l);
  fail_if (negb (valid_sha256 (il_lock_digest l)) || negb (str_eqb (il_lock_digest l) (expected_digest l)))
    DigestMismatch.

Definition InstallationLock_from_json (source : rstr) : result InstallContractError InstallationLock :=
  json ← map_err ContractParse (json_parse source);
  value ← ok_or (lock_of_value json) (ContractParse (json_mismatch json));
  InstallationLock_validate value;;
  Ok value.
Definition to_pretty_json (l : InstallationLock) : result InstallContractError rstr :=
  InstallationLock_validate l;;
  Ok (json_to_string_pretty (lock_serialize l) ++ [10%N]).

Definition refresh_digest (l : InstallationLock) : InstallationLock :=
  set_lock_digest (expected_digest (set_lock_digest [] l)) l.

(** [record_engine_upgrade(&mut self, ..)]: the answer and the lock it leaves
    behind, which is the edited one when the last validation fails. *)
Definition record_engine_upgrade (l : InstallationLock) (from to source : rstr) (artifact_sha256 : option rstr)
    : result InstallContractError unit * InstallationLock :=
  let checked :=
    InstallationLock_validate l;;
    invalid_if (negb (str_eqb (le_version (il_engine l)) from))
      "engine upgrade source version differs from the current lock";;
    from_version ← parse_version "engine upgrade from" from;
    to_version ← parse_version "engine upgrade to" to;
    invalid_if (negb (version_ltb from_version to_version))
      "engine upgrade target must be greater than its source" in
  match checked with
  | Err e => (Err e, l)
  | Ok _ => let upgraded := refresh_digest (set_engine to source artifact_sha256 l) in
            (InstallationLock_validate upgraded, upgraded)
  end.
End contract.

(** ** Decimal numbers *)

Lemma as_unsigned_show maximum n : (n <= maximum)%N -> as_unsigned maximum (jnum n) = Some n.
Proof.
  intros Hn. unfold as_unsigned, jnum.
  destruct (show_N_decimal n) as (-> & -> & ->). by apply N.leb_le in Hn as ->.
Qed.

(** ** Objects *)

Lemma fst_find (l : list (rstr * Value)) k v :
  assoc k l = Some v -> (lit k, v) ∈ l.
Proof.
  unfold assoc. destruct (find _ l) as [[k' v']|] eqn:E; [|done]. cbn. intros [= ->].
  apply find_some in E as [Hin Hk]. apply str_eqb_eq in Hk. cbn in Hk. subst. by apply list_elem_of_In.
Qed.
Lemma assoc_iff (l : list (rstr * Value)) k v :
  NoDup (map fst l) -> assoc k l = Some v <-> (lit k, v) ∈ l.
Proof.
  intros Hnd. split; [apply fst_find|].
  induction l as [|[k' v'] l IH]; [by intros ?%not_elem_of_nil|].
  apply NoDup_cons in Hnd as [Hk Hnd]. unfold assoc in *. cbn [find fst].
  destruct (str_eqb k' (lit k)) eqn:E.
  - apply str_eqb_eq in E as ->. intros [[= ->]|Hin]%elem_of_cons; [done|].
    exfalso. apply Hk. apply list_elem_of_fmap. by exists (lit k, v).
  - intros [[= <- <-]|Hin]%elem_of_cons; [|by apply IH].
    by rewrite (proj2 (str_eqb_eq _ _) eq_refl) in E.
Qed.
Lemma assoc_perm l l' k : NoDup (map fst l) -> l ≡ₚ l' -> assoc k l = assoc k l'.
Proof.
  intros Hnd Hp. assert (NoDup (map fst l')) as Hnd' by by rewrite <-Hp.
  apply option_eq. intros v. by rewrite !assoc_iff, Hp.
Qed.

Lemma insert_entry_perm k v l : k ∉ map fst l -> insert_entry k v l ≡ₚ (k, v) :: l.
Proof.
  induction l as [|[k' v'] l IH]; cbn [insert_entry map fst]; [done|].
  intros [Hk Hl]%not_elem_of_cons. destruct (str_ltb k k'); [done|].
  destruct (str_eqb k k') eqn:E; [by apply str_eqb_eq in E|].
  by rewrite (IH Hl), Permutation_swap.
Qed.
Lemma sort_entries_perm l : NoDup (map fst l) -> sort_entries l ≡ₚ l.
Proof.
  assert (forall m, NoDup (map fst (m ++ l)) ->
    fold_left (fun m kv => insert_entry kv.1 kv.2 m) l m ≡ₚ m ++ l) as H.
  { induction l as [|[k v] l IH]; intros m; cbn [fold_left fst snd]; [by rewrite app_nil_r|].
    rewrite <-Permutation_middle. cbn [map fst]. intros [Hk Hnd]%NoDup_cons.
    assert (insert_entry k v m ≡ₚ (k, v) :: m) as Hi.
    { apply insert_entry_perm. intros Hin. apply Hk. rewrite map_app, elem_of_app. by left. }
    rewrite IH; [by rewrite Hi|]. rewrite Hi. cbn [app map fst]. by constructor. }
  intros Hnd. by apply (H []).
Qed.

Lemma struct_fields_of names l :
  all_unique (map fst l) = true ->
  forallb (fun k => existsb (fun n => str_eqb k (lit n)) names) (map fst l) = true ->
  struct_fields names (JObject l) = Some l.
Proof.
  intros Hu Hk. unfold struct_fields. rewrite Hu.
  rewrite forallb_forall in Hk. rewrite (proj2 (forallb_forall _ l)); [done|].
  intros kv Hin. apply Hk, (in_map fst l kv Hin).
Qed.
Lemma struct_fields_inv names l l' :
  struct_fields names (JObject l) = Some l' ->
  l' = l /\ NoDup (map fst l) /\ Forall (fun kv => existsb (fun n => str_eqb kv.1 (lit n)) names = true) l.
Proof.
  unfold struct_fields. destruct (_ && _) eqn:E; [|done]. intros [= <-]. bool_simpl.
  split; [done|]. split; [by apply all_unique_NoDup|by apply forallb_Forall].
Qed.

(** A copy of a JSON value a struct reads back from: the tree itself, the map
    [to_value] makes of it, and its canonical form. *)
Record copy (c : Value -> Value) : Prop := {
  copy_string s : c (JString s) = JString s;
  copy_bool b : c (JBool b) = JBool b;
  copy_number n : c (JNumber n) = JNumber n;
  copy_array l : c (JArray l) = JArray (map c l);
  copy_object names l : struct_fields names (JObject l) = Some l ->
    exists l', c (JObject l) = JObject l' /\ struct_fields names (JObject l') = Some l' /\
               forall k, assoc k l' = c <$> assoc k l;
}.

Lemma copy_self : copy (fun v => v).
Proof.
  split; [done..|intros l; by rewrite map_id|]. intros names l Hl. exists l.
  split; [done|]. split; [done|]. intros k. by destruct (assoc k l).
Qed.
Lemma copy_canonical : copy canonical_json.
Proof.
  split; [done..|]. intros names l Hl.
  apply struct_fields_inv in Hl as (_ & Hnd & Hk).
  set (m := map (fun kv => (kv.1, canonical_json kv.2)) l).
  assert (map fst m = map fst l) as Hm by (unfold m; rewrite map_map; by apply map_ext).
  assert (sort_entries m ≡ₚ m) as Hp by (apply sort_entries_perm; by rewrite Hm).
  exists (sort_entries m). split; [done|]. split.
  - apply struct_fields_of; [apply all_unique_NoDup; by rewrite Hp, Hm|].
    apply forallb_Forall. rewrite Hp, Hm. apply Forall_forall. intros k Hin.
    apply list_elem_of_fmap in Hin as (kv & -> & Hin). rewrite Forall_forall in Hk. by apply Hk.
  - intros k. rewrite <-(assoc_perm m _ k) by (done || by rewrite Hm). unfold m, assoc. clear.
    induction l as [|[k' v] l IH]; [done|]. cbn [map find fst]. by destruct (str_eqb k' (lit k)).
Qed.
Lemma copy_compose c d : copy c -> copy d -> copy (fun v => d (c v)).
Proof.
  intros Hc Hd. split; intros.
  - by rewrite (copy_string _ Hc), (copy_string _ Hd).
  - by rewrite (copy_bool _ Hc), (copy_bool _ Hd).
  - by rewrite (copy_number _ Hc), (copy_number _ Hd).
  - by rewrite (copy_array _ Hc), (copy_array _ Hd), map_map.
  - destruct (copy_object _ Hc names l) as (l1 & -> & H1 & Ha); [done|].
    destruct (copy_object _ Hd names l1 H1) as (l2 & -> & H2 & Hb).
    exists l2. split; [done|]. split; [done|]. intros k. rewrite Hb, Ha. by destruct (assoc k l).
Qed.

Section reading.
Context (c : Value -> Value) (Hc : copy c).

Lemma read_string s : as_string (c (JString s)) = Some s.
Proof. by rewrite (copy_string _ Hc). Qed.
Lemma read_bool b : as_bool (c (JBool b)) = Some b.
Proof. by rewrite (copy_bool _ Hc). Qed.
Lemma read_number maximum n : (n <= maximum)%N -> as_unsigned maximum (c (jnum n)) = Some n.
Proof. unfold jnum. rewrite (copy_number _ Hc). apply as_unsigned_show. Qed.
Lemma read_list {A} (f : Value -> option A) (g : A -> Value) l :
  Forall (fun a => f (c (g a)) = Some a) l -> as_list f (c (JArray (map g l))) = Some l.
Proof.
  intros Hl. rewrite (copy_array _ Hc). cbn [as_list]. rewrite map_map.
  induction Hl as [|a l Ha _ IH]; [done|]. cbn. by rewrite Ha, IH.
Qed.
Lemma read_strings l : as_list as_string (c (JArray (map JString l))) = Some l.
Proof. apply read_list, Forall_forall. intros s _. apply read_string. Qed.
Lemma nullable_string s : nullable as_string (c (JString s)) = Some (Some s).
Proof. by rewrite (copy_string _ Hc). Qed.
Lemma nullable_number maximum n : (n <= maximum)%N -> nullable (as_unsigned maximum) (c (jnum n)) = Some (Some n).
Proof.
  intros Hn. unfold jnum. rewrite (copy_number _ Hc). cbn [nullable].
  change (JNumber (show_N n)) with (jnum n). by rewrite as_unsigned_show.
Qed.
Lemma read_variant {A} (name : A -> rstr) variants a :
  find (fun b => str_eqb (name b) (name a)) variants = Some a ->
  as_variant name variants (c (JString (name a))) = Some a.
Proof. intros E. by rewrite (copy_string _ Hc). Qed.
End reading.

(** Read a struct back field by field: the object is a copy, every key is
    looked up among closed names. *)
Ltac lookup_key k l :=
  lazymatch l with
  | [] => constr:(@None Value)
  | (lit k, ?v) :: _ => constr:(Some v)
  | _ :: ?l' => lookup_key k l'
  end.
Ltac read_assoc :=
  repeat match goal with
  | |- context [assoc ?k ?l] => let r := lookup_key k l in change (assoc k l) with r
  end;
  cbn [fmap option_fmap option_map].
Ltac read_struct Hc :=
  match type of Hc with copy ?c =>
  match goal with |- context [struct_fields ?names (c (JObject ?l))] =>
    let l' := fresh "l" in let H := fresh in let Ha := fresh in
    destruct (copy_object _ Hc names l) as (l' & -> & H & Ha);
    [apply struct_fields_of; cbn [map fst app skip_none]; vm_compute; reflexivity|];
    rewrite H; cbn [mbind option_bind]; unfold required, or_none, or_default; rewrite !Ha;
    cbn [app skip_none]; read_assoc
  end end.
(** Then the fields are leaves. *)
Ltac read_leaves Hc :=
  cbn [mbind option_bind];
  repeat (first
    [ rewrite (read_string _ Hc) | rewrite (read_bool _ Hc) | rewrite (read_strings _ Hc)
    | rewrite (nullable_string _ Hc) | rewrite (read_number _ Hc) by done
    | rewrite (nullable_number _ Hc) by done
    | match goal with |- context [as_variant ?f ?vs (_ (JString (_ ?x)))] =>
        rewrite (read_variant _ Hc f vs x) by (destruct x; vm_compute; reflexivity) end ];
    cbn [mbind option_bind]).

Lemma read_style c (Hc : copy c) s : style_of_value (c (style_serialize s)) = Some s.
Proof.
  destruct s as [kind [id|] [file|] [sha|]]; unfold style_of_value, style_serialize;
    cbn [st_kind st_id st_file st_sha256 skip_none app]; read_struct Hc; by read_leaves Hc.
Qed.
Lemma read_selection c (Hc : copy c) s : selection_of_value (c (selection_serialize s)) = Some s.
Proof.
  destruct s as [auth style cache]; unfold selection_of_value, selection_serialize;
    cbn [se_admin_auth se_style se_cache]; read_struct Hc.
  read_leaves Hc. rewrite (read_style c Hc). by read_leaves Hc.
Qed.

(** The integers of a lock fit their Rust types. *)
Definition in_u64 (o : option N) : Prop := match o with Some n => (n <= u64_max)%N | None => True end.
Definition lock_widths (l : InstallationLock) : Prop :=
  (le_database_schema_version (il_engine l) <= u64_max)%N /\
  Forall (fun d => (id_manifest_version d <= u8_max)%N /\ in_u64 (id_state_version d)) (il_dlcs l) /\
  Forall (fun r => in_u64 (re_state_version r)) (il_retained_dlcs l) /\
  Forall (fun h => (hi_sequence h <= u64_max)%N) (il_history l).

Lemma read_engine c (Hc : copy c) e : (le_database_schema_version e <= u64_max)%N ->
  engine_of_value (c (engine_serialize e)) = Some e.
Proof.
  intros Hw. destruct e as [? ? ? ? ? [sha|]]; unfold engine_of_value, engine_serialize;
    cbn [le_version le_config_schema_version le_database_schema_version le_plugin_api le_source
         le_artifact_sha256 skip_none app in_u64] in *; read_struct Hc; by read_leaves Hc.
Qed.
Lemma read_dlc c (Hc : copy c) d : (id_manifest_version d <= u8_max)%N -> in_u64 (id_state_version d) ->
  dlc_of_value (c (dlc_serialize d)) = Some d.
Proof.
  intros Hm Hs. destruct d as [? ? ? ? ? ? kind ? ? [art|] ? ? [conf|] [st|] ?];
    unfold dlc_of_value, dlc_serialize;
    cbn [id_id id_requested_version id_version id_core_compatibility id_manifest_version id_plugin_api
         id_source_kind id_source id_manifest_sha256 id_artifact_sha256 id_enabled id_approved_capabilities
         id_config_sha256 id_state_version id_applied_migrations skip_none app in_u64] in *;
    read_struct Hc; by read_leaves Hc.
Qed.
Lemma read_retained c (Hc : copy c) r : in_u64 (re_state_version r) ->
  retained_of_value (c (retained_serialize r)) = Some r.
Proof.
  intros Hs. destruct r as [? ? [st|] ?]; unfold retained_of_value, retained_serialize;
    cbn [re_id re_removed_version re_state_version re_applied_migrations skip_none app in_u64] in *;
    read_struct Hc; by read_leaves Hc.
Qed.
Lemma read_history c (Hc : copy c) h : (hi_sequence h <= u64_max)%N ->
  history_of_value (c (history_serialize h)) = Some h.
Proof.
  intros Hs. destruct h as [? action ? [from|] [to|] ?]; unfold history_of_value, history_serialize;
    cbn [hi_sequence hi_action hi_dlc_id hi_from_version hi_to_version hi_engine_version skip_none app in_u64] in *;
    read_struct Hc; by read_leaves Hc.
Qed.
Lemma read_lock c (Hc : copy c) l : lock_widths l -> lock_of_value (c (lock_serialize l)) = Some l.
Proof.
  intros (He & Hd & Hr & Hh).
  assert (forall ds, Forall (fun d => (id_manifest_version d <= u8_max)%N /\ in_u64 (id_state_version d)) ds ->
    as_list dlc_of_value (c (JArray (map dlc_serialize ds))) = Some ds) as Hds.
  { intros ds F. apply read_list; [done|]. eapply Forall_impl; [exact F|]. intros d [? ?]. by apply read_dlc. }
  assert (forall rs, Forall (fun r => in_u64 (re_state_version r)) rs ->
    as_list retained_of_value (c (JArray (map retained_serialize rs))) = Some rs) as Hrs.
  { intros rs F. apply read_list; [done|]. eapply Forall_impl; [exact F|]. intros r ?. by apply read_retained. }
  assert (forall hs, Forall (fun h => (hi_sequence h <= u64_max)%N) hs ->
    as_list history_of_value (c (JArray (map history_serialize hs))) = Some hs) as Hhs.
  { intros hs F. apply read_list; [done|]. eapply Forall_impl; [exact F|]. intros h ?. by apply read_history. }
  destruct l as [? ? ? ? ? retained ? ?];
    cbn [il_engine il_selection il_dlcs il_retained_dlcs il_history] in *.
  unfold lock_of_value, lock_serialize.
  cbn [il_schema_version il_installation_id il_engine il_selection il_dlcs il_retained_dlcs il_history
       il_lock_digest].
  destruct retained as [|r rs]; cbn [app]; read_struct Hc; read_leaves Hc;
    rewrite (read_engine c Hc) by done; cbn [mbind option_bind];
    rewrite (read_selection c Hc); cbn [mbind option_bind];
    rewrite Hds by done; cbn [mbind option_bind];
    rewrite ?Hrs by done; cbn [mbind option_bind];
    rewrite Hhs by done; by read_leaves Hc.
Qed.

(** ** Loops *)

Section contract_theorems.
Context `{UrlLib, SemverLib, Sha256Lib, UuidLib, ContractText}.

Lemma invalid_if_Ok b m u : invalid_if b m = Ok u <-> b = false.
Proof. apply fail_if_Ok. Qed.

(** A loop that compares every key with the previous one accepts strictly
    sorted lists only. *)
Lemma sorted_loop {A} (key : A -> rstr) (f : option rstr -> A -> result InstallContractError (option rstr))
    (P : A -> Prop)
    (Hf : forall p a q, f p a = Ok q ->
            q = Some (key a) /\ P a /\ (forall k, p = Some k -> str_ltb k (key a) = true)) :
  forall l p q, for_fold f p l = Ok q ->
    Forall P l /\ StronglySorted (fun a b => str_ltb (key a) (key b) = true) l /\
    forall k, p = Some k -> Forall (fun a => str_ltb k (key a) = true) l.
Proof.
  induction l as [|a l IH]; intros p q; cbn [for_fold].
  { intros _. split; [constructor|]. split; [constructor|]. by constructor. }
  intros (s & Ha & Hl)%bind_Ok. apply Hf in Ha as (-> & HP & Hk).
  apply IH in Hl as (HPl & Hs & Hall). specialize (Hall _ eq_refl).
  split; [by constructor|]. split; [by constructor|].
  intros k E. constructor; [by apply Hk|].
  eapply Forall_impl; [exact Hall|]. intros b Hb. eapply str_ltb_trans; [by apply Hk|done].
Qed.
Lemma strongly_sorted_NoDup {A} (key : A -> rstr) l :
  StronglySorted (fun a b => str_ltb (key a) (key b) = true) l -> NoDup (key <$> l).
Proof.
  induction 1 as [|a l _ IH Hall]; [constructor|]. cbn. constructor; [|done].
  intros (b & E & Hb)%list_elem_of_fmap. rewrite Forall_forall in Hall. specialize (Hall _ Hb).
  rewrite E in Hall. by rewrite str_ltb_irrefl in Hall.
Qed.
Lemma str_leb_false k a : str_leb a k = false -> str_ltb k a = true.
Proof. unfold str_leb. apply negb_false_iff. Qed.
Lemma is_some_and_false {A} (p : A -> bool) o : is_some_and p o = false -> forall a, o = Some a -> p a = false.
Proof. by intros E a ->. Qed.

Lemma history_loop records : forall i j, for_fold history_step i records = Ok j ->
  Forall (fun h => DlcHistoryRecord_validate h = Ok tt) records /\
  forall k h, records !! k = Some h -> hi_sequence h = N.min (i + N.of_nat k + 1) u64_max.
Proof.
  induction records as [|h records IH]; intros i j; cbn [for_fold].
  { intros _. split; [constructor|]. intros k h. by rewrite lookup_nil. }
  intros (s & Ha & Hl)%bind_Ok. unfold history_step, invalid_if, saturating_succ in Ha. inv_ok. bool_simpl.
  apply IH in Hl as (HP & Hk). split; [by constructor|].
  intros [|k] h' Hlk; cbn in Hlk; [simplify_eq; lia|].
  rewrite (Hk _ _ Hlk). f_equal. lia.
Qed.

(** ** Locks *)

(** The expects of an upgrade record are on parsed versions. *)
Lemma upgrade_versions_parse h from to :
  DlcHistoryRecord_validate h = Ok tt -> hi_action h = Upgraded ->
  hi_from_version h = Some from -> hi_to_version h = Some to ->
  exists f t, version_parse from = Some f /\ version_parse to = Some t /\ version_ltb f t = true.
Proof.
  unfold DlcHistoryRecord_validate, invalid_if, versions_are_valid. intros Hv Ha Hf Ht.
  rewrite Ha, Hf, Ht in Hv. cbn [parse_optional_version] in Hv. unfold parse_version in Hv. inv_ok. bool_simpl.
  repeat match goal with E : version_parse ?s = Some _, G : context [version_parse ?s] |- _ => rewrite E in G end.
  simplify_eq. eauto.
Qed.

Lemma InstalledDlc_validate_sound ev d u : InstalledDlc_validate ev d = Ok u ->
  valid_plugin_id (id_id d) = true /\
  (exists req core v, req_parse (id_requested_version d) = Some req /\
     req_parse (id_core_compatibility d) = Some core /\ version_parse (id_version d) = Some v /\
     req_matches req v = true /\ req_matches core ev = true) /\
  (id_source_kind d = SourceFile -> stays_inside (id_source d)) /\
  (id_source_kind d <> Bundled -> id_artifact_sha256 d <> None).
Proof.
  unfold InstalledDlc_validate, invalid_if, parse_requirement, parse_version. intros Hd. inv_ok. bool_simpl.
  split; [done|]. split; [by repeat eexists|].
  destruct (id_source_kind d); inv_ok; bool_simpl; (split; [|by intros Hne E; rewrite E in *]); try done.
  intros _. by apply safe_relative_path_sound.
Qed.

Lemma dlc_loop ev ds q : for_fold (dlc_step ev) None ds = Ok q ->
  Forall (fun d => InstalledDlc_validate ev d = Ok tt) ds /\
  StronglySorted (fun a b => str_ltb (id_id a) (id_id b) = true) ds.
Proof.
  intros Hd. edestruct (sorted_loop id_id (dlc_step ev)) as (? & ? & _); [|exact Hd|by split].
  intros p a r E. unfold dlc_step, invalid_if in E. inv_ok. split; [done|]. split; [done|].
  intros k ->. by apply str_leb_false.
Qed.
Lemma retained_loop (ids : list rstr) rs q :
  for_fold (retained_step (list_to_set ids)) None rs = Ok q ->
  Forall (fun r => re_id r ∉ ids) rs /\
  StronglySorted (fun a b => str_ltb (re_id a) (re_id b) = true) rs.
Proof.
  intros Hr. edestruct (sorted_loop re_id (retained_step (list_to_set ids))) as (? & ? & _);
    [|exact Hr|by split].
  intros p a r E. unfold retained_step, invalid_if in E. inv_ok. bool_simpl. split; [done|].
  split; [by rewrite <-(elem_of_list_to_set (C := gset rstr))|]. intros k ->. by apply str_leb_false.
Qed.

(** The whole content of an accepted lock. *)
Lemma InstallationLock_validate_sound l : InstallationLock_validate l = Ok tt ->
  exists ev, version_parse (le_version (il_engine l)) = Some ev /\
  Forall (fun d => InstalledDlc_validate ev d = Ok tt) (il_dlcs l) /\
  StronglySorted (fun a b => str_ltb (id_id a) (id_id b) = true) (il_dlcs l) /\
  StronglySorted (fun a b => str_ltb (re_id a) (re_id b) = true) (il_retained_dlcs l) /\
  Forall (fun r => re_id r ∉ id_id <$> il_dlcs l) (il_retained_dlcs l) /\
  Forall (fun h => DlcHistoryRecord_validate h = Ok tt) (il_history l) /\
  (forall k h, il_history l !! k = Some h -> hi_sequence h = N.min (N.of_nat k + 1) u64_max) /\
  il_lock_digest l = expected_digest l.
Proof.
  unfold InstallationLock_validate, invalid_if, parse_version. intros Hl. inv_ok. bool_simpl.
  repeat match goal with E : str_eqb _ _ = true |- _ => apply str_eqb_eq in E end.
  match goal with E : for_fold (dlc_step ?v) _ _ = _ |- _ => rename E into Hd; exists v end.
  match goal with E : for_fold (retained_step _) _ _ = _ |- _ => rename E into Hr end.
  match goal with E : for_fold history_step _ _ = _ |- _ => pose proof (history_loop _ _ _ E) as (? & Hh) end.
  apply dlc_loop in Hd as (? & ?). apply retained_loop in Hr as (? & ?).
  repeat split; done.
Qed.

Lemma expected_digest_ignores_digest d l : expected_digest (set_lock_digest d l) = expected_digest l.
Proof. reflexivity. Qed.

Lemma lock_tree_inj a b : lock_widths a -> lock_widths b ->
  canonical_json (to_value (lock_serialize a)) = canonical_json (to_value (lock_serialize b)) -> a = b.
Proof.
  intros Ha Hb E.
  pose proof (copy_compose _ _ copy_canonical copy_canonical) as Hc.
  pose proof (read_lock _ Hc a Ha) as Ra. pose proof (read_lock _ Hc b Hb) as Rb. cbn beta in Ra, Rb.
  unfold to_value in E. rewrite E, Rb in Ra. by injection Ra.
Qed.

(** The documented behaviour of [serde_json::to_vec] the digest relies on:
    different values are written differently. *)
Definition locks_are_written_apart : Prop := forall a b, lock_widths a -> lock_widths b ->
  let v l := canonical_json (to_value (lock_serialize l)) in
  json_to_vec (v a) = json_to_vec (v b) -> v a = v b.

(** C11. The digest seals the whole lock: two accepted locks with the same
    [lockDigest] are the same lock, field by field, DLC history included, or
    SHA-256 collides. *)
Theorem lock_digest_covers_every_field (l l' : InstallationLock)
    (Hw : locks_are_written_apart) (Hl : lock_widths l) (Hl' : lock_widths l')
    (V : InstallationLock_validate l = Ok tt) (V' : InstallationLock_validate l' = Ok tt)
    (E : il_lock_digest l = il_lock_digest l') :
  l = l' \/ exists x y : list N, x <> y /\ sha256_hex x = sha256_hex y.
Proof.
  apply InstallationLock_validate_sound in V as (_ & _ & _ & _ & _ & _ & _ & _ & D).
  apply InstallationLock_validate_sound in V' as (_ & _ & _ & _ & _ & _ & _ & _ & D').
  assert (expected_digest l = expected_digest l') as X by by rewrite <-D, <-D'.
  unfold expected_digest in X.
  match type of X with sha256_hex ?x = sha256_hex ?y => destruct (decide (x = y)) as [Y|]; [left|by right; exists x, y] end.
  apply Hw in Y; [|done..]. apply lock_tree_inj in Y; [|done..].
  destruct l, l'. cbn in *. by simplify_eq.
Qed.

(** A lock file reads back: what [to_pretty_json] writes for a lock,
    [from_json] reads as the same lock. *)
Theorem lock_file_round_trips (l : InstallationLock) (text : rstr)
    (Hparse : forall k, json_parse (json_to_string_pretty (lock_serialize k) ++ [10%N]) = Ok (lock_serialize k))
    (Hl : lock_widths l) (Ht : to_pretty_json l = Ok text) :
  InstallationLock_from_json text = Ok l.
Proof.
  unfold to_pretty_json in Ht. inv_ok. unfold InstallationLock_from_json.
  rewrite Hparse. cbn [map_err mbind result_bind].
  rewrite (read_lock _ copy_self l Hl : lock_of_value (lock_serialize l) = Some l).
  cbn [ok_or mbind result_bind].
  match goal with E : InstallationLock_validate l = _ |- _ => by rewrite E end.
Qed.

(** An accepted lock is consistent: DLC identifiers are distinct and sorted,
    no identifier is both active and retained, the history is numbered 1, 2,
    3, ... with every upgrade strictly forward, and every active DLC satisfies
    the version range that was asked for and runs on the locked engine. *)
Theorem accepted_lock_is_consistent (l : InstallationLock) (V : InstallationLock_validate l = Ok tt) :
  NoDup ((id_id <$> il_dlcs l) ++ (re_id <$> il_retained_dlcs l)) /\
  (forall k h, il_history l !! k = Some h -> (N.of_nat k < u64_max)%N -> hi_sequence h = (N.of_nat k + 1)%N) /\
  (forall h, h ∈ il_history l -> hi_action h = Upgraded ->
     exists from to f t, hi_from_version h = Some from /\ hi_to_version h = Some to /\
       version_parse from = Some f /\ version_parse to = Some t /\ version_ltb f t = true) /\
  exists engine, version_parse (le_version (il_engine l)) = Some engine /\
    forall d, d ∈ il_dlcs l -> exists req core v,
      req_parse (id_requested_version d) = Some req /\ req_parse (id_core_compatibility d) = Some core /\
      version_parse (id_version d) = Some v /\ req_matches req v = true /\ req_matches core engine = true.
Proof.
  apply InstallationLock_validate_sound in V as (ev & Hev & Hd & Hs & Hr & Hdis & Hh & Hseq & _).
  rewrite Forall_forall in Hd. rewrite Forall_forall in Hh. split_and!.
  - apply NoDup_app. split; [by apply strongly_sorted_NoDup|]. split; [|by apply strongly_sorted_NoDup].
    intros i Hi (r & -> & Hin)%list_elem_of_fmap. rewrite Forall_forall in Hdis. by apply (Hdis r Hin).
  - intros k h Hk Hlt. rewrite (Hseq k h Hk). apply N.min_l. lia.
  - intros h Hin Ha. specialize (Hh h Hin).
    assert (versions_are_valid h = true) as Hv.
    { unfold DlcHistoryRecord_validate, invalid_if in Hh. inv_ok. by bool_simpl. }
    unfold versions_are_valid in Hv. rewrite Ha in Hv.
    destruct (hi_from_version h) as [from|] eqn:Ef, (hi_to_version h) as [to|] eqn:Et; try done.
    destruct (upgrade_versions_parse h from to) as (f & t & ? & ? & ?); [done..|]. by exists from, to, f, t.
  - exists ev. split; [done|]. intros d Hin. by apply (InstalledDlc_validate_sound ev d tt), Hd.
Qed.

(** An engine upgrade that succeeds starts from the locked version, goes
    strictly forward, leaves a valid and freshly sealed lock, keeps everything
    but the engine's version, source and artifact, and only happens when every
    active DLC declares itself compatible with the new engine.  One that fails
    leaves the lock as it was, or (when only the final validation refused it)
    exactly the refused upgrade, for the caller to discard. *)
Theorem engine_upgrade_goes_forward (l l' : InstallationLock) from to source artifact r
    (Hr : record_engine_upgrade l from to source artifact = (r, l')) :
  match r with
  | Ok _ =>
      InstallationLock_validate l = Ok tt /\ InstallationLock_validate l' = Ok tt /\
      le_version (il_engine l) = from /\ le_version (il_engine l') = to /\
      (exists f t, version_parse from = Some f /\ version_parse to = Some t /\ version_ltb f t = true /\
         forall d, d ∈ il_dlcs l -> exists core,
           req_parse (id_core_compatibility d) = Some core /\ req_matches core t = true) /\
      l' = set_lock_digest (il_lock_digest l') (set_engine to source artifact l)
  | Err e => l' = l \/ l' = refresh_digest (set_engine to source artifact l) /\
                       InstallationLock_validate l' = Err e
  end.
Proof.
  unfold record_engine_upgrade in Hr.
  match type of Hr with match ?c with _ => _ end = _ => destruct c as [[]|e] eqn:C end;
    [|simplify_eq; by left].
  injection Hr as Hv <-. destruct r as [[]|e]; [|by right].
  unfold invalid_if, parse_version in C. inv_ok. bool_simpl.
  match goal with E : str_eqb _ _ = true |- _ => apply str_eqb_eq in E as <- end.
  split; [done|]. split; [done|]. split; [done|]. split; [done|]. split; [|done].
  match goal with F : version_parse (le_version _) = Some ?f, T : version_parse to = Some ?t |- _ =>
    exists f, t; do 3 (split; [done|]) end.
  intros d Hin.
  apply InstallationLock_validate_sound in Hv as (ev & Hev & Hd & _).
  cbn [refresh_digest set_lock_digest set_engine il_engine le_version il_dlcs] in Hev, Hd. simplify_eq.
  rewrite Forall_forall in Hd.
  destruct (InstalledDlc_validate_sound _ _ _ (Hd d Hin)) as (_ & (req & core & v & _ & ? & _ & _ & ?) & _).
  by exists core.
Qed.
End contract_theorems.
