(* ===== verification/Dlc.v ===== *)
(** * The DLC lifecycle: [apps/cli/src/bootstrap/dlc_lifecycle.rs]

    Adding, enabling, disabling, upgrading, reconciling and removing the
    optional modules of an installation: the edits of the intent and the lock,
    the checks before and after them, and the environment file they project to
    (with [find_official_dlc] and the two [verify_] functions of
    [apps/cli/src/bootstrap.rs]).  The version of the CLI and the texts of the
    bundled manifests are compiled in; here they are parameters.  An [anyhow]
    error is the constructor that names the failed check. *)

From Stdlib Require Import Bool NArith ZArith Lia.
From S2P Require Import Prelude Text Extern Manifest InstallLock.

Inductive DlcError :=
| Contract (e : InstallContractError)
| BadManifest (e : ManifestError)
| UnknownOfficial
| PathTarget
| EmptyTarget
| TwoRequirements
| AlreadyInstalled
| NotInstalled
| NoDlcInstalled
| VersionNeedsTarget
| CatalogMismatch
| InvalidRequirement
| InvalidDlcVersion
| RangeUnsatisfied
| EngineIncompatible
| NotBundled
| MetadataMismatch
| InstallationIdDiffers
| SelectionDiffers
| DlcSetDiffers
| CliMismatch
| MutableRelease
| Downgrade
| RequiredByRuntime
| HasDependents
| MissingDependency
| DisabledDependency
| DependencyRange
| TargetNotCli
| SourceNotLocked
| InvalidFrom
| InvalidTo
| NotForward
| InvalidArtifact
| InvalidSource
| EnvLineTooLong
| EnvDuplicate
| EnvUnterminatedQuote
| EnvUnsafeValue
| EnvMissing
| EnvDiffers
| Panicked.

(** ** The official catalog *)

Record OfficialDlc := {
  od_alias : rstr;
  od_id : rstr;
  od_runtime_feature : rstr;
  od_source : rstr;
}.
Definition official (alias id feature source : string) : OfficialDlc := {|
  od_alias := lit alias; od_id := lit ("org.open-soverign-blog." ++ id);
  od_runtime_feature := lit feature; od_source := lit ("plugins/official/" ++ source ++ "/plugin.toml") |}.
Definition OFFICIAL_DLCS : list OfficialDlc := [
  official "ads" "monetization-policy" "ads" "ads";
  official "ai-authorship" "ai-authorship" "ai_authorship" "ai-authorship";
  official "ai-summary" "ai-summary" "ai_summary" "ai-summary";
  official "code-runner" "code-runner-client" "code_runner" "code-runner";
  official "comments" "comments" "comments" "comments";
  official "external-auth" "external-auth" "external_auth" "external-auth";
  official "home-curation" "home-curation" "home_curation" "home-curation";
  official "rbac" "rbac" "rbac" "rbac";
  official "release-check" "release-check" "release_check" "release-check";
  official "seo" "seo" "seo" "seo";
  official "social-embeds" "social-embeds" "social_embeds" "social-embeds"].

Definition normalize_name (name : rstr) : rstr :=
  (fun c => if (c =? 95)%N then 45%N else c) <$> to_ascii_lowercase name.
Definition find_official_dlc (name : rstr) : option OfficialDlc :=
  let normalized := normalize_name name in
  find (fun dlc => str_eqb (od_id dlc) normalized || str_eqb (od_alias dlc) normalized
                   || (str_eqb (od_alias dlc) (lit "code-runner") && str_eqb normalized (lit "code-runner-client"))
                   || (str_eqb (od_alias dlc) (lit "external-auth") && str_eqb normalized (lit "external")))
    OFFICIAL_DLCS.

Definition Capability_name (c : Capability) : rstr :=
  lit (match c with
       | ContentRead => "content.read" | ContentWrite => "content.write" | ContentPublish => "content.publish"
       | AssetsRead => "assets.read" | AssetsWrite => "assets.write"
       | OntologyRead => "ontology.read" | OntologyWrite => "ontology.write"
       | CommentsRead => "comments.read" | CommentsWrite => "comments.write"
       | CommentsModerate => "comments.moderate" | AiInvoke => "ai.invoke" | AiTool => "ai.tool"
       | CapRenderSlot => "render.slot" | RoutePublic => "route.public" | RouteAdmin => "route.admin"
       | JobsSchedule => "jobs.schedule" | NetworkConnect => "network.connect" | SecretUse => "secret.use"
       | StateRead => "state.read" | StateWrite => "state.write" | CodeExecute => "code.execute"
       end).

(** [sort] and [sort_by] are stable; [dedup] drops consecutive repetitions. *)
Fixpoint insert_by {A} (leb : A -> A -> bool) (x : A) (l : list A) : list A :=
  match l with
  | [] => [x]
  | y :: l' => if leb x y then x :: l else y :: insert_by leb x l'
  end.
Definition sort_by {A} (leb : A -> A -> bool) (l : list A) : list A := fold_right (insert_by leb) [] l.
Fixpoint dedup (l : list rstr) : list rstr :=
  match l with
  | [] => []
  | x :: l' => match dedup l' with
               | [] => [x]
               | y :: l'' => if str_eqb x y then y :: l'' else x :: y :: l''
               end
  end.
Definition by_id {A} (id : A -> rstr) (a b : A) : bool := str_leb (id a) (id b).

(** [collect::<BTreeMap<_, _>>()]: the last entry of a key wins. *)
Definition collect_map {A B} (key : A -> rstr) (value : A -> B) (l : list A) : gmap rstr B :=
  fold_left (fun m a => <[key a := value a]> m) l ∅.

(** ** A deployment *)

Record Deployment := {
  de_env_original : rstr;
  de_env_values : gmap rstr rstr;
  de_intent : InstallationIntent;
  de_lock : InstallationLock;
}.
(** What a lifecycle command leaves behind: nothing to do, or the new contents
    of the three files. *)
Record Replaced := {
  rp_deployment : Deployment;
  rp_intent_text : rstr;
  rp_lock_text : rstr;
  rp_env_text : rstr;
}.

Definition with_intent_dlcs (f : list RequestedDlc -> list RequestedDlc) (d : Deployment) : Deployment := {|
  de_env_original := de_env_original d; de_env_values := de_env_values d;
  de_intent := {|
    in_schema_version := in_schema_version (de_intent d);
    in_installation_id := in_installation_id (de_intent d); in_site_id := in_site_id (de_intent d);
    in_created_with := in_created_with (de_intent d); in_selection := in_selection (de_intent d);
    in_dlcs := f (in_dlcs (de_intent d)) |};
  de_lock := de_lock d |}.
Definition with_lock (f : InstallationLock -> InstallationLock) (d : Deployment) : Deployment := {|
  de_env_original := de_env_original d; de_env_values := de_env_values d; de_intent := de_intent d;
  de_lock := f (de_lock d) |}.
Definition lock_with (dlcs : list InstalledDlc) (retained : list RetainedDlcState)
    (history : list DlcHistoryRecord) (l : InstallationLock) : InstallationLock := {|
  il_schema_version := il_schema_version l; il_installation_id := il_installation_id l;
  il_engine := il_engine l; il_selection := il_selection l; il_dlcs := dlcs;
  il_retained_dlcs := retained; il_history := history; il_lock_digest := il_lock_digest l |}.
Definition set_dlcs (dlcs : list InstalledDlc) (l : InstallationLock) : InstallationLock :=
  lock_with dlcs (il_retained_dlcs l) (il_history l) l.
Definition set_retained (retained : list RetainedDlcState) (l : InstallationLock) : InstallationLock :=
  lock_with (il_dlcs l) retained (il_history l) l.

Definition push_history (action : DlcHistoryAction) (id : rstr) (from_version to_version : option rstr)
    (engine_version : rstr) (l : InstallationLock) : InstallationLock :=
  lock_with (il_dlcs l) (il_retained_dlcs l)
    (il_history l ++ [{| hi_sequence := size_of (il_history l) + 1; hi_action := action; hi_dlc_id := id;
                         hi_from_version := from_version; hi_to_version := to_version;
                         hi_engine_version := engine_version |}]) l.

Definition set_requested_enabled (enabled : bool) (r : RequestedDlc) : RequestedDlc :=
  {| rd_id := rd_id r; rd_version := rd_version r; rd_enabled := enabled |}.
Definition set_installed (enabled : bool) (state : option N) (migrations : list rstr) (d : InstalledDlc)
    : InstalledDlc := {|
  id_id := id_id d; id_requested_version := id_requested_version d; id_version := id_version d;
  id_core_compatibility := id_core_compatibility d; id_manifest_version := id_manifest_version d;
  id_plugin_api := id_plugin_api d; id_source_kind := id_source_kind d; id_source := id_source d;
  id_manifest_sha256 := id_manifest_sha256 d; id_artifact_sha256 := id_artifact_sha256 d;
  id_enabled := enabled; id_approved_capabilities := id_approved_capabilities d;
  id_config_sha256 := id_config_sha256 d; id_state_version := state; id_applied_migrations := migrations |}.
Definition set_installed_enabled (enabled : bool) (d : InstalledDlc) : InstalledDlc :=
  set_installed enabled (id_state_version d) (id_applied_migrations d) d.

(** [iter_mut().find(p)] then an assignment: the first match is updated. *)
Fixpoint update_first {A} (p : A -> bool) (f : A -> A) (l : list A) : list A :=
  match l with
  | [] => []
  | a :: l => if p a then f a :: l else a :: update_first p f l
  end.
(** [Vec::remove] at [position]. *)
Fixpoint remove_first {A} (p : A -> bool) (l : list A) : list A :=
  match l with
  | [] => []
  | a :: l => if p a then l else a :: remove_first p l
  end.

Definition normalize_contracts (d : Deployment) : Deployment :=
  with_intent_dlcs (sort_by (by_id rd_id))
    (with_lock (fun l => lock_with (sort_by (by_id id_id) (il_dlcs l))
                           (sort_by (by_id re_id) (il_retained_dlcs l)) (il_history l) l) d).

Definition carry_state (old new : InstalledDlc) : InstalledDlc :=
  set_installed (id_enabled old) (id_state_version new) (id_applied_migrations old) new.
Definition ensure_immutable_release (old new : InstalledDlc) : result DlcError unit :=
  fail_if (str_eqb (id_version old) (id_version new)
           && negb (str_eqb (id_manifest_sha256 old) (id_manifest_sha256 new))) MutableRelease.

(** ** The environment file *)

Fixpoint split_inclusive (d : N) (s : rstr) : list rstr :=
  match s with
  | [] => []
  | c :: s => if (c =? d)%N then [c] :: split_inclusive d s
              else match split_inclusive d s with
                   | [] => [[c]]
                   | p :: ps => (c :: p) :: ps
                   end
  end.
Definition strip_last (c : N) (s : rstr) : option rstr :=
  match last s with
  | Some e => if (e =? c)%N then Some (removelast s) else None
  | None => None
  end.
(** [str::lines] *)
Definition line_of (segment : rstr) : rstr :=
  match strip_last 10 segment with
  | Some line => default line (strip_last 13 line)
  | None => segment
  end.

Definition unquote (value : rstr) : result DlcError rstr :=
  match value with
  | q :: rest =>
      if (q =? 39)%N || (q =? 34)%N
      then fail_if (negb (bool_decide (last rest = Some q))) EnvUnterminatedQuote;; Ok (removelast rest)
      else Ok value
  | [] => Ok value
  end.

Definition MANAGED_ENV_KEYS : list rstr := [lit "OSB_DLC_IDS"; lit "OSB_FEATURES"; lit "OSB_INSTALL_LOCK_DIGEST"].
Definition wanted_keys : list rstr :=
  MANAGED_ENV_KEYS ++ [lit "OSB_AUTH_MODE"; lit "OSB_COMMENTS"; lit "OSB_COLLABORATION"].

Definition project_line (projected : gmap rstr rstr) (segment : rstr) : result DlcError (gmap rstr rstr) :=
  let line := line_of segment in
  fail_if (16 * 1024 <? str_len line)%N EnvLineTooLong;;
  let line := trim line in
  if is_empty line || starts_with (lit "#") line then Ok projected
  else match split_once 61 line with
       | None => Ok projected
       | Some (name, raw) =>
           if negb (existsb (str_eqb name) wanted_keys) then Ok projected
           else fail_if (is_some (projected !! name)) EnvDuplicate;;
                value ← unquote raw;
                Ok (<[name := value]> projected)
       end.
Definition project_environment (source : rstr) : result DlcError (gmap rstr rstr) :=
  for_fold project_line ∅ (split_inclusive 10 source).

Definition safe_env_byte (b : N) : bool := is_ascii_alphanumeric b || one_of ".,-_:/=<>^ " b.
Definition replace_segment (updates : gmap rstr rstr) (state : rstr * gset rstr) (segment : rstr)
    : result DlcError (rstr * gset rstr) :=
  let '(output, replaced) := state in
  let '(without_lf, lf) := match strip_last 10 segment with
                           | Some line => (line, [10%N]) | None => (segment, []) end in
  let '(line, ending) := match strip_last 13 without_lf with
                         | Some line => (line, 13%N :: lf) | None => (without_lf, lf) end in
  match '(name, _) ← split_once 61 line; value ← updates !! name; Some (name, value) with
  | Some (name, value) =>
      fail_if (bool_decide (name ∈ replaced)) EnvDuplicate;;
      fail_if (negb (forallb safe_env_byte (bytes value))) EnvUnsafeValue;;
      Ok (output ++ name ++ [61%N] ++ value ++ ending, {[ name ]} ∪ replaced)
  | None => Ok (output ++ segment, replaced)
  end.
Definition replace_environment_values (original : rstr) (updates : gmap rstr rstr) : result DlcError rstr :=
  '(output, replaced) ← for_fold (replace_segment updates) ([], ∅) (split_inclusive 10 original);
  fail_if (negb (bool_decide (dom updates ⊆ replaced))) EnvMissing;;
  Ok output.

(** ** The commands *)

Definition CONFIG_SCHEMA : rstr := lit "open-soverign-blog/2".
Definition DATABASE_SCHEMA_VERSION : N := 9.

Section lifecycle.
Context `{UrlLib, SemverLib, Sha256Lib, UuidLib, ContractText, ManifestToml}.
(** [env!("CARGO_PKG_VERSION")], the [include_str!] of a catalog entry and
    [serde_json::to_vec] of a plugin's configuration. *)
Context (current_engine : rstr) (bundled_manifest : OfficialDlc -> rstr) (config_to_vec : PluginConfig -> list N).

Definition contract {A} (m : result InstallContractError A) : result DlcError A := map_err Contract m.
Definition expect {A} (o : option A) : result DlcError A := ok_or o Panicked.

Definition parse_official_manifest (o : OfficialDlc) : result DlcError PluginManifest :=
  map_err BadManifest (PluginManifest_from_toml (bundled_manifest o)).
Definition official_manifest_digest (o : OfficialDlc) : rstr := sha256_hex (bytes (bundled_manifest o)).

Definition verify_bundled_record (d : InstalledDlc) : result DlcError unit :=
  if negb (bool_decide (id_source_kind d = Bundled)) then Ok tt
  else
    o ← ok_or (find_official_dlc (id_id d)) UnknownOfficial;
    m ← parse_official_manifest o;
    ensure (str_eqb (id_source d) (od_source o)
            && str_eqb (id_manifest_sha256 d) (official_manifest_digest o)
            && str_eqb (id_id d) (pm_id m) && str_eqb (id_version d) (pm_version m)
            && (id_manifest_version d =? pm_manifest_version m)%N
            && str_eqb (id_plugin_api d) (pm_plugin_api m)
            && bool_decide (pm_core_compatibility m = Some (id_core_compatibility d))) MetadataMismatch.
Definition verify_bundled_official_manifest_bytes (l : InstallationLock) : result DlcError unit :=
  for_each verify_bundled_record (il_dlcs l).

Definition verify_intent_lock_pair (i : InstallationIntent) (l : InstallationLock) : result DlcError unit :=
  contract (InstallationIntent_validate i);;
  contract (InstallationLock_validate l);;
  verify_bundled_official_manifest_bytes l;;
  ensure (str_eqb (in_installation_id i) (il_installation_id l)) InstallationIdDiffers;;
  ensure (bool_decide (in_selection i = il_selection l)) SelectionDiffers;;
  ensure (bool_decide (collect_map rd_id (fun d => (rd_version d, rd_enabled d)) (in_dlcs i)
                       = collect_map id_id (fun d => (id_requested_version d, id_enabled d)) (il_dlcs l)))
    DlcSetDiffers.

Definition ensure_official_record (d : InstalledDlc) : result DlcError unit :=
  o ← ok_or (find_official_dlc (id_id d)) UnknownOfficial;
  ensure (bool_decide (id_source_kind d = Bundled) && str_eqb (id_source d) (od_source o)) NotBundled.
Definition ensure_bundled_official_records (l : InstallationLock) : result DlcError unit :=
  verify_bundled_official_manifest_bytes l;;
  for_each ensure_official_record (il_dlcs l).

Definition ensure_cli_matches_lock (l : InstallationLock) : result DlcError unit :=
  let e := il_engine l in
  ensure (str_eqb (le_version e) current_engine && str_eqb (le_config_schema_version e) CONFIG_SCHEMA
          && (le_database_schema_version e =? DATABASE_SCHEMA_VERSION)%N
          && str_eqb (le_plugin_api e) PLUGIN_API_VERSION) CliMismatch.

Definition official_target (raw : rstr) : result DlcError OfficialDlc :=
  ensure (negb (contains_char 47 raw) && negb (contains_char 58 raw) && negb (contains_char 92 raw)) PathTarget;;
  ok_or (find_official_dlc raw) UnknownOfficial.

Definition resolve_official (o : OfficialDlc) (requirement : rstr) (enabled : bool) (engine_version : rstr)
    : result DlcError InstalledDlc :=
  m ← parse_official_manifest o;
  ensure (str_eqb (pm_id m) (od_id o)) CatalogMismatch;;
  requirement_parsed ← ok_or (req_parse requirement) InvalidRequirement;
  version ← ok_or (version_parse (pm_version m)) InvalidDlcVersion;
  ensure (req_matches requirement_parsed version) RangeUnsatisfied;;
  supported ← map_err BadManifest (supports_core m engine_version);
  ensure supported EngineIncompatible;;
  Ok {|
    id_id := pm_id m; id_requested_version := requirement; id_version := pm_version m;
    id_core_compatibility := default (lit "=" ++ engine_version) (pm_core_compatibility m);
    id_manifest_version := pm_manifest_version m; id_plugin_api := pm_plugin_api m;
    id_source_kind := Bundled; id_source := od_source o; id_manifest_sha256 := official_manifest_digest o;
    id_artifact_sha256 := None; id_enabled := enabled;
    id_approved_capabilities :=
      dedup (sort_by str_leb ((fun p => Capability_name (pq_capability p)) <$> pm_permissions m));
    id_config_sha256 := (fun c => sha256_hex (config_to_vec c)) <$> pm_config m;
    id_state_version := ps_version <$> pm_state m; id_applied_migrations := [] |}.

Definition parse_dlc_spec (raw : rstr) (explicit : option rstr) : result DlcError (OfficialDlc * rstr) :=
  let '(name, suffix) := match rsplit_once (lit "@") raw with
                         | Some (name, version) => (name, Some version)
                         | None => (raw, None)
                         end in
  fail_if (is_empty name) EmptyTarget;;
  fail_if (is_some explicit && is_some suffix) TwoRequirements;;
  o ← official_target name;
  m ← parse_official_manifest o;
  let requirement := match explicit with
                     | Some v => v
                     | None => default (lit "^" ++ pm_version m) suffix
                     end in
  contract (RequestedDlc_validate {| rd_id := od_id o; rd_version := requirement; rd_enabled := true |});;
  Ok (o, requirement).

Definition check_dependency (l : InstallationLock) (dep : PluginDependency) : result DlcError unit :=
  resolved ← ok_or (collect_map id_id (fun d => d) (il_dlcs l) !! pd_id dep) MissingDependency;
  ensure (id_enabled resolved) DisabledDependency;;
  requirement ← ok_or (req_parse (pd_version dep)) DependencyRange;
  version ← ok_or (version_parse (id_version resolved)) InvalidDlcVersion;
  ensure (req_matches requirement version) DependencyRange.
Definition check_enabled_dlc (l : InstallationLock) (d : InstalledDlc) : result DlcError unit :=
  o ← expect (find_official_dlc (id_id d));
  m ← parse_official_manifest o;
  for_each (check_dependency l) (List.filter (fun dep => negb (pd_optional dep)) (pm_dependencies m)).
Definition validate_enabled_dependencies (l : InstallationLock) : result DlcError unit :=
  for_each (check_enabled_dlc l) (List.filter id_enabled (il_dlcs l)).

Definition check_dependent (target : rstr) (d : InstalledDlc) : result DlcError unit :=
  o ← expect (find_official_dlc (id_id d));
  m ← parse_official_manifest o;
  fail_if (existsb (fun dep => negb (pd_optional dep) && str_eqb (pd_id dep) target) (pm_dependencies m))
    HasDependents.
Definition ensure_no_enabled_dependents (l : InstallationLock) (target : rstr) : result DlcError unit :=
  for_each (check_dependent target)
    (List.filter (fun d => id_enabled d && negb (str_eqb (id_id d) target)) (il_dlcs l)).

Definition ensure_not_required_by_runtime (d : Deployment) (target : OfficialDlc) : result DlcError unit :=
  let value_is_true name :=
    is_some_and (fun v => str_eqb (to_ascii_lowercase v) (lit "true")) (de_env_values d !! lit name) in
  let feature := od_runtime_feature target in
  fail_if
    (if str_eqb feature (lit "comments") && value_is_true "OSB_COMMENTS" then true
     else if str_eqb feature (lit "rbac") && value_is_true "OSB_COLLABORATION" then true
     else str_eqb feature (lit "external_auth")
          && (bool_decide (se_admin_auth (in_selection (de_intent d)) = External)
              || is_some_and (fun mode => str_eqb mode (lit "oauth") || str_eqb mode (lit "local_and_oauth"))
                   (de_env_values d !! lit "OSB_AUTH_MODE")))
    RequiredByRuntime.

Definition enabled_composition (l : InstallationLock) : result DlcError (rstr * rstr) :=
  officials ← traverse (fun d => o ← ok_or (find_official_dlc (id_id d)) UnknownOfficial; Ok (id_id d, o))
                (List.filter id_enabled (il_dlcs l));
  let features := (fun p => od_runtime_feature p.2) <$> officials in
  Ok (join (lit ",") (fst <$> officials),
      if is_empty_list features then lit "none" else join (lit ",") features).

Definition env_updates (ids features digest : rstr) : gmap rstr rstr :=
  <[lit "OSB_DLC_IDS" := ids]> (<[lit "OSB_FEATURES" := features]>
    {[ lit "OSB_INSTALL_LOCK_DIGEST" := digest ]}).

Definition verify_environment_projection (l : InstallationLock) (values : gmap rstr rstr)
    : result DlcError unit :=
  '(ids, features) ← enabled_composition l;
  for_each (fun '(name, expected) =>
      actual ← ok_or (values !! name) EnvMissing;
      ensure (str_eqb actual expected) EnvDiffers)
    [(lit "OSB_DLC_IDS", ids); (lit "OSB_FEATURES", features); (lit "OSB_INSTALL_LOCK_DIGEST", il_lock_digest l)].

(** [load_deployment] after the three files were read as text: the paths are
    distinct, and the sizes and the mode of .env were accepted. *)
Definition load_deployment (intent_text lock_text env_text : rstr) : result DlcError Deployment :=
  intent ← contract (InstallationIntent_from_toml intent_text);
  lock ← contract (InstallationLock_from_json lock_text);
  verify_intent_lock_pair intent lock;;
  ensure_bundled_official_records lock;;
  env_values ← project_environment env_text;
  verify_environment_projection lock env_values;;
  Ok {| de_env_original := env_text; de_env_values := env_values; de_intent := intent; de_lock := lock |}.

(** [persist] up to the replacement of the three files. *)
Definition persist (d : Deployment) : result DlcError Replaced :=
  validate_enabled_dependencies (de_lock d);;
  let d := with_lock refresh_digest d in
  verify_intent_lock_pair (de_intent d) (de_lock d);;
  intent ← contract (InstallationIntent_to_toml_pretty (de_intent d));
  lock ← contract (to_pretty_json (de_lock d));
  '(ids, features) ← enabled_composition (de_lock d);
  env ← replace_environment_values (de_env_original d) (env_updates ids features (il_lock_digest (de_lock d)));
  Ok {| rp_deployment := d; rp_intent_text := intent; rp_lock_text := lock; rp_env_text := env |}.

(** Each command edits the loaded deployment, normalizes it and persists it. *)
Definition commit (d : Deployment) : result DlcError Replaced := persist (normalize_contracts d).

(** [DlcAction::Add] *)
Definition add_edit (raw : rstr) (version : option rstr) (d : Deployment) : result DlcError Deployment :=
  ensure_cli_matches_lock (de_lock d);;
  '(o, requirement) ← parse_dlc_spec raw version;
  fail_if (existsb (fun r => str_eqb (rd_id r) (od_id o)) (in_dlcs (de_intent d))) AlreadyInstalled;;
  resolved ← resolve_official o requirement true current_engine;
  let retained_here r := str_eqb (re_id r) (od_id o) in
  let retained := il_retained_dlcs (de_lock d) in
  let '(resolved, lock) :=
    match find retained_here retained with
    | Some r => (set_installed (id_enabled resolved) (re_state_version r) (re_applied_migrations r) resolved,
                 set_retained (remove_first retained_here retained) (de_lock d))
    | None => (resolved, de_lock d)
    end in
  let d := with_intent_dlcs (fun l => l ++ [{| rd_id := od_id o; rd_version := requirement; rd_enabled := true |}]) d in
  let lock := push_history Installed (od_id o) None (Some (id_version resolved)) current_engine lock in
  let lock := set_dlcs (il_dlcs lock ++ [resolved]) lock in
  Ok (with_lock (fun _ => lock) d).
Definition add (raw : rstr) (version : option rstr) (d : Deployment) : result DlcError Replaced :=
  d ← add_edit raw version d; commit d.

(** [set_enabled]; [None] when there is nothing to do. *)
Definition set_enabled_edit (raw : rstr) (enabled : bool) (d : Deployment) : result DlcError (option Deployment) :=
  ensure_cli_matches_lock (de_lock d);;
  o ← official_target raw;
  (if enabled then Ok tt
   else ensure_not_required_by_runtime d o;; ensure_no_enabled_dependents (de_lock d) (od_id o));;
  let requested_here r := str_eqb (rd_id r) (od_id o) in
  let installed_here i := str_eqb (id_id i) (od_id o) in
  ensure (existsb requested_here (in_dlcs (de_intent d))) NotInstalled;;
  installed ← expect (find installed_here (il_dlcs (de_lock d)));
  if Bool.eqb (id_enabled installed) enabled then Ok None
  else
    let d := with_intent_dlcs (update_first requested_here (set_requested_enabled enabled)) d in
    let lock := set_dlcs (update_first installed_here (set_installed_enabled enabled) (il_dlcs (de_lock d))) (de_lock d) in
    let version := Some (id_version installed) in
    let lock := push_history (if enabled then Enabled else HistoryDisabled) (od_id o) version version
                  current_engine lock in
    Ok (Some (with_lock (fun _ => lock) d)).
Definition set_enabled (raw : rstr) (enabled : bool) (d : Deployment) : result DlcError (option Replaced) :=
  edit ← set_enabled_edit raw enabled d; transpose_map commit edit.

(** The step from a locked DLC to its re-resolution: state carried over, no
    changed bytes under the same version, no lower version.  The versions are
    the entry of [transitions], if any. *)
Definition advance (o : OfficialDlc) (request : RequestedDlc) (engine : rstr) (old : InstalledDlc)
    : result DlcError (InstalledDlc * list (rstr * rstr * rstr)) :=
  new ← resolve_official o (rd_version request) (rd_enabled request) engine;
  let new := carry_state old new in
  ensure_immutable_release old new;;
  old_version ← ok_or (version_parse (id_version old)) InvalidDlcVersion;
  new_version ← ok_or (version_parse (id_version new)) InvalidDlcVersion;
  ensure (negb (version_ltb new_version old_version)) Downgrade;;
  Ok (new, if version_ltb old_version new_version then [(rd_id request, id_version old, id_version new)] else []).

Record UpgradeState := {
  us_requests : list RequestedDlc;
  us_resolved : list InstalledDlc;
  us_transitions : list (rstr * rstr * rstr);
  us_changed : bool;
}.
Definition push_upgrades (engine : rstr) (transitions : list (rstr * rstr * rstr)) (l : InstallationLock)
    : InstallationLock :=
  fold_left (fun l '(id, from, to) => push_history Upgraded id (Some from) (Some to) engine l) transitions l.

(** One turn of the loop of [upgrade]. *)
Definition upgrade_step (target_id : option rstr) (version : option rstr) (old_by_id : gmap rstr InstalledDlc)
    (s : UpgradeState) (request : RequestedDlc) : result DlcError UpgradeState :=
  old ← expect (old_by_id !! rd_id request);
  if is_some_and (fun id => negb (str_eqb id (rd_id request))) target_id
  then Ok {| us_requests := us_requests s ++ [request]; us_resolved := us_resolved s ++ [old];
             us_transitions := us_transitions s; us_changed := us_changed s |}
  else
    request ← match version with
              | Some requirement =>
                  let r := {| rd_id := rd_id request; rd_version := requirement; rd_enabled := rd_enabled request |} in
                  contract (RequestedDlc_validate r);; Ok r
              | None => Ok request
              end;
    o ← expect (find_official_dlc (rd_id request));
    '(new, transition) ← advance o request current_engine old;
    Ok {| us_requests := us_requests s ++ [request]; us_resolved := us_resolved s ++ [new];
          us_transitions := us_transitions s ++ transition;
          us_changed := us_changed s || negb (bool_decide (new = old))
                        || negb (str_eqb (rd_version request) (id_requested_version old)) |}.
Definition upgrade_edit (target version : option rstr) (d : Deployment) : result DlcError (option Deployment) :=
  ensure_cli_matches_lock (de_lock d);;
  target_id ← transpose_map (fun raw => od_id <$> official_target raw) target;
  ensure (is_some target_id || is_none version) VersionNeedsTarget;;
  ensure (is_none_or (fun id => existsb (fun r => str_eqb (rd_id r) id) (in_dlcs (de_intent d))) target_id)
    NotInstalled;;
  s ← for_fold (upgrade_step target_id version (collect_map id_id (fun i => i) (il_dlcs (de_lock d))))
        {| us_requests := []; us_resolved := []; us_transitions := []; us_changed := false |}
        (in_dlcs (de_intent d));
  ensure (is_some target_id || negb (is_empty_list (in_dlcs (de_intent d)))) NoDlcInstalled;;
  if negb (us_changed s) then Ok None
  else
    let d := with_intent_dlcs (fun _ => us_requests s) d in
    let lock := push_upgrades current_engine (us_transitions s) (set_dlcs (us_resolved s) (de_lock d)) in
    Ok (Some (with_lock (fun _ => lock) d)).
Definition upgrade (target version : option rstr) (d : Deployment) : result DlcError (option Replaced) :=
  edit ← upgrade_edit target version d; transpose_map commit edit.

Definition set_engine_tuple (to source : rstr) (artifact_sha256 : option rstr) (l : InstallationLock)
    : InstallationLock := {|
  il_schema_version := il_schema_version l; il_installation_id := il_installation_id l;
  il_engine := {| le_version := to; le_config_schema_version := CONFIG_SCHEMA;
                  le_database_schema_version := DATABASE_SCHEMA_VERSION; le_plugin_api := PLUGIN_API_VERSION;
                  le_source := source; le_artifact_sha256 := artifact_sha256 |};
  il_selection := il_selection l; il_dlcs := il_dlcs l;
  il_retained_dlcs := il_retained_dlcs l; il_history := il_history l; il_lock_digest := il_lock_digest l |}.

(** One turn of the loop of [reconcile]. *)
Definition reconcile_step (to : rstr) (old_by_id : gmap rstr InstalledDlc)
    (s : list InstalledDlc * list (rstr * rstr * rstr)) (request : RequestedDlc)
    : result DlcError (list InstalledDlc * list (rstr * rstr * rstr)) :=
  o ← ok_or (find_official_dlc (rd_id request)) UnknownOfficial;
  old ← expect (old_by_id !! rd_id request);
  '(new, transition) ← advance o request to old;
  Ok (s.1 ++ [new], s.2 ++ transition).
Definition reconcile_edit (from to source : rstr) (artifact_sha256 : option rstr) (d : Deployment)
    : result DlcError Deployment :=
  ensure (str_eqb to current_engine) TargetNotCli;;
  ensure (str_eqb (le_version (il_engine (de_lock d))) from) SourceNotLocked;;
  from_version ← ok_or (version_parse from) InvalidFrom;
  to_version ← ok_or (version_parse to) InvalidTo;
  ensure (version_ltb from_version to_version) NotForward;;
  fail_if (is_some_and (fun v => negb (valid_sha256 v)) artifact_sha256) InvalidArtifact;;
  ensure (negb (is_empty (trim source)) && (str_len source <=? 2048)%N) InvalidSource;;
  '(resolved, transitions) ←
    for_fold (reconcile_step to (collect_map id_id (fun i => i) (il_dlcs (de_lock d)))) ([], [])
      (in_dlcs (de_intent d));
  let lock := push_upgrades to transitions (set_dlcs resolved (set_engine_tuple to source artifact_sha256 (de_lock d))) in
  Ok (with_lock (fun _ => lock) d).
Definition reconcile (from to source : rstr) (artifact_sha256 : option rstr) (d : Deployment)
    : result DlcError Replaced :=
  d ← reconcile_edit from to source artifact_sha256 d; commit d.

Definition remove_edit (raw : rstr) (d : Deployment) : result DlcError Deployment :=
  ensure_cli_matches_lock (de_lock d);;
  o ← official_target raw;
  ensure_not_required_by_runtime d o;;
  ensure_no_enabled_dependents (de_lock d) (od_id o);;
  let installed_here i := str_eqb (id_id i) (od_id o) in
  removed ← ok_or (find installed_here (il_dlcs (de_lock d))) NotInstalled;
  let lock := set_dlcs (remove_first installed_here (il_dlcs (de_lock d))) (de_lock d) in
  let d := with_intent_dlcs (List.filter (fun r => negb (str_eqb (rd_id r) (od_id o)))) d in
  let lock := set_retained
                (List.filter (fun r => negb (str_eqb (re_id r) (od_id o))) (il_retained_dlcs lock)
                 ++ [{| re_id := id_id removed; re_removed_version := id_version removed;
                        re_state_version := id_state_version removed;
                        re_applied_migrations := id_applied_migrations removed |}]) lock in
  let lock := push_history Removed (od_id o) (Some (id_version removed)) None current_engine lock in
  Ok (with_lock (fun _ => lock) d).
Definition remove (raw : rstr) (d : Deployment) : result DlcError Replaced :=
  d ← remove_edit raw d; commit d.

(** ** The lifecycle as a state machine *)

Inductive DlcAction :=
| Add (dlc : rstr) (version : option rstr)
| Enable (dlc : rstr)
| Disable (dlc : rstr)
| Upgrade (dlc version : option rstr)
| Reconcile (from to source : rstr) (artifact_sha256 : option rstr)
| Remove (dlc : rstr).

Definition run (a : DlcAction) (d : Deployment) : result DlcError (option Replaced) :=
  match a with
  | Add dlc version => Some <$> add dlc version d
  | Enable dlc => set_enabled dlc true d
  | Disable dlc => set_enabled dlc false d
  | Upgrade dlc version => upgrade dlc version d
  | Reconcile from to source artifact => Some <$> reconcile from to source artifact d
  | Remove dlc => Some <$> remove dlc d
  end.
End lifecycle.
