(* ===== verification/DlcTheorems.v ===== *)
(** * What the DLC lifecycle guarantees

    The commands of Dlc.v on a verified deployment: they never panic, what they
    persist is verified again, installed modules keep their release, and no migration
    ledger is lost. *)

From Stdlib Require Import Bool NArith ZArith Lia.
From S2P Require Import Prelude Text Extern Manifest InstallLock Dlc.

(** ** Lists *)

Lemma insert_by_perm {A} (leb : A -> A -> bool) x l : insert_by leb x l ≡ₚ x :: l.
Proof.
  induction l as [|y l IH]; cbn; [done|]. destruct (leb x y); [done|]. by rewrite IH, Permutation_swap.
Qed.
Lemma sort_by_perm {A} (leb : A -> A -> bool) l : sort_by leb l ≡ₚ l.
Proof. induction l as [|x l IH]; cbn; [done|]. by rewrite insert_by_perm, IH. Qed.

Lemma collect_map_lookup {A B} (key : A -> rstr) (value : A -> B) l k v :
  NoDup (key <$> l) -> collect_map key value l !! k = Some v <-> exists a, a ∈ l /\ key a = k /\ value a = v.
Proof.
  unfold collect_map. enough (forall m : gmap rstr B, NoDup (key <$> l) ->
    fold_left (fun m a => <[key a := value a]> m) l m !! k = Some v <->
    (exists a, a ∈ l /\ key a = k /\ value a = v) \/ (m !! k = Some v /\ (k ∉ key <$> l))) as H.
  { intros Hnd. rewrite (H ∅ Hnd), lookup_empty. naive_solver. }
  induction l as [|a l IH]; intros m; cbn [fmap list_fmap fold_left].
  { intros _. split; [|intros [(a & []%not_elem_of_nil & _)|[? _]]; done].
    intros Hm. right. split; [done|]. apply not_elem_of_nil. }
  rewrite NoDup_cons. intros [Ha Hnd]. rewrite (IH _ Hnd), lookup_insert_Some, not_elem_of_cons.
  setoid_rewrite elem_of_cons. split.
  - intros [(b & Hb & Hk)|[[[<- <-]|[Hne Hm]] Hn]]; [left; eauto|left; by exists a; auto|by right].
  - intros [(b & [->|Hb] & <- & <-)|[Hm [Hne Hn]]]; [|left; eauto|right; by auto].
    destruct (decide (key a ∈ key <$> l)); [done|]. right. by auto.
Qed.

Lemma find_Some {A} (p : A -> bool) l a : find p l = Some a -> a ∈ l /\ p a = true.
Proof. intros [Hin Hp]%find_some. by apply list_elem_of_In in Hin. Qed.
Lemma find_None {A} (p : A -> bool) l a : find p l = None -> a ∈ l -> p a = false.
Proof. intros H Hin. eapply find_none; [exact H|by apply list_elem_of_In]. Qed.

Lemma update_first_in {A} (p : A -> bool) f l b :
  b ∈ update_first p f l -> b ∈ l \/ exists a, a ∈ l /\ p a = true /\ b = f a.
Proof.
  induction l as [|a l IH]; cbn; [by left|]. destruct (p a) eqn:E; rewrite !elem_of_cons.
  - intros [->|?]; [right; by exists a; rewrite elem_of_cons; auto|auto].
  - intros [->|[?|(c & ? & ? & ->)]%IH]; [auto|auto|right; exists c; rewrite elem_of_cons; auto].
Qed.
Lemma in_update_first {A} (p : A -> bool) f l a :
  a ∈ l -> a ∈ update_first p f l \/ p a = true /\ f a ∈ update_first p f l.
Proof.
  induction l as [|b l IH]; cbn; [by intros ?%not_elem_of_nil|].
  rewrite elem_of_cons. intros [->|Hin].
  - destruct (p b) eqn:E; rewrite !elem_of_cons; auto.
  - destruct (p b) eqn:E; rewrite !elem_of_cons; [auto|]. destruct (IH Hin) as [|[? ?]]; auto.
Qed.
Lemma remove_first_in {A} (p : A -> bool) l a : a ∈ remove_first p l -> a ∈ l.
Proof. induction l as [|b l IH]; cbn; [done|]. destruct (p b); rewrite !elem_of_cons; naive_solver. Qed.
Lemma in_remove_first {A} (p : A -> bool) l a : a ∈ l -> a ∈ remove_first p l \/ p a = true.
Proof.
  induction l as [|b l IH]; cbn; [by intros ?%not_elem_of_nil|]. rewrite elem_of_cons.
  destruct (p b) eqn:E; rewrite ?elem_of_cons; naive_solver.
Qed.
Lemma elem_of_filter_bool {A} (p : A -> bool) l a : a ∈ List.filter p l <-> a ∈ l /\ p a = true.
Proof. rewrite !list_elem_of_In. apply filter_In. Qed.

(** ** The catalog *)

Lemma official_found o : o ∈ OFFICIAL_DLCS -> find_official_dlc (od_id o) = Some o.
Proof.
  intros Hin. assert (forallb (fun o => match find_official_dlc (od_id o) with
    | Some o' => str_eqb (od_id o') (od_id o) && str_eqb (od_alias o') (od_alias o)
                 && str_eqb (od_runtime_feature o') (od_runtime_feature o)
                 && str_eqb (od_source o') (od_source o)
    | None => false end) OFFICIAL_DLCS = true) as H by (vm_compute; reflexivity).
  rewrite forallb_forall in H. specialize (H o (proj1 (list_elem_of_In _ _) Hin)).
  destruct (find_official_dlc (od_id o)) as [o'|]; [|done]. bool_simpl.
  repeat match goal with E : str_eqb _ _ = true |- _ => apply str_eqb_eq in E end.
  destruct o, o'. cbn in *. by subst.
Qed.
Lemma find_official_in name o : find_official_dlc name = Some o -> o ∈ OFFICIAL_DLCS.
Proof. intros [? _]%find_Some. done. Qed.

(** ** Verified deployments *)

Section lifecycle_theorems.
Context `{UrlLib, SemverLib, Sha256Lib, UuidLib, ContractText, ManifestToml}.
Context (current_engine : rstr) (bundled_manifest : OfficialDlc -> rstr) (config_to_vec : PluginConfig -> list N).

Abbreviation parse_official_manifest := (parse_official_manifest bundled_manifest).
Abbreviation verify_bundled_record := (verify_bundled_record bundled_manifest).
Abbreviation verify_intent_lock_pair := (verify_intent_lock_pair bundled_manifest).
Abbreviation resolve_official := (resolve_official bundled_manifest config_to_vec).
Abbreviation advance := (advance bundled_manifest config_to_vec).
Abbreviation persist := (persist bundled_manifest).
Abbreviation run := (run current_engine bundled_manifest config_to_vec).

Lemma requested_loop l : forall seen q, for_fold insert_requested seen l = Ok q ->
  NoDup (rd_id <$> l) /\ Forall (fun r => rd_id r ∉ seen) l.
Proof.
  induction l as [|r l IH]; intros seen q; cbn [for_fold]; [intros _; by repeat constructor|].
  intros (s & Hr & Hl)%bind_Ok. unfold insert_requested, invalid_if in Hr. inv_ok. bool_simpl.
  apply IH in Hl as (Hnd & Hall). apply seen_step in Hall as [? ?].
  split; [by constructor|by constructor].
Qed.

(** What the two files agree on after [verify_intent_lock_pair]. *)
Record pair_ok (i : InstallationIntent) (l : InstallationLock) : Prop := {
  po_intent : InstallationIntent_validate i = Ok tt;
  po_lock : InstallationLock_validate l = Ok tt;
  po_bundled : Forall (fun d => verify_bundled_record d = Ok tt) (il_dlcs l);
  po_requests : NoDup (rd_id <$> in_dlcs i);
  po_dlcs : NoDup (id_id <$> il_dlcs l);
  po_disjoint : Forall (fun r => re_id r ∉ id_id <$> il_dlcs l) (il_retained_dlcs l);
  po_retained : NoDup (re_id <$> il_retained_dlcs l);
  po_agree : forall id v, (exists r, r ∈ in_dlcs i /\ rd_id r = id /\ (rd_version r, rd_enabled r) = v) <->
                     (exists d, d ∈ il_dlcs l /\ id_id d = id /\ (id_requested_version d, id_enabled d) = v);
}.
Lemma verify_pair_ok i l : verify_intent_lock_pair i l = Ok tt -> pair_ok i l.
Proof.
  unfold Dlc.verify_intent_lock_pair, contract, verify_bundled_official_manifest_bytes.
  intros Hv. inv_ok. bool_simpl.
  match goal with E : for_each _ _ = _ |- _ => apply for_each_Ok in E end.
  match goal with E : InstallationLock_validate l = _ |- _ =>
    pose proof (InstallationLock_validate_sound l E) as (ev & _ & _ & Hs & Hr & Hdis & _) end.
  assert (NoDup (rd_id <$> in_dlcs i)) as Hnd.
  { match goal with E : InstallationIntent_validate i = _ |- _ =>
      unfold InstallationIntent_validate in E; inv_ok end.
    match goal with E : for_fold insert_requested _ _ = _ |- _ => by apply requested_loop in E as [? _] end. }
  assert (NoDup (id_id <$> il_dlcs l)) by by apply strongly_sorted_NoDup.
  split; try done; [by apply strongly_sorted_NoDup|].
  intros id v. rewrite <-!collect_map_lookup by done.
  match goal with E : collect_map _ _ _ = collect_map _ _ _ |- _ => by rewrite E end.
Qed.

Definition official_record (d : InstalledDlc) : Prop := ensure_official_record d = Ok tt.
Definition verified (d : Deployment) : Prop :=
  verify_intent_lock_pair (de_intent d) (de_lock d) = Ok tt /\
  Forall official_record (il_dlcs (de_lock d)).

Lemma load_verified intent_text lock_text env_text d :
  load_deployment bundled_manifest intent_text lock_text env_text = Ok d -> verified d.
Proof.
  unfold load_deployment, ensure_bundled_official_records, contract. intros Hl. inv_ok. cbn.
  split; [done|].
  match goal with E : for_each ensure_official_record _ = _ |- _ => by apply for_each_Ok in E end.
Qed.

Lemma official_record_found d : official_record d ->
  exists o, find_official_dlc (id_id d) = Some o /\ id_source_kind d = Bundled.
Proof. unfold official_record, ensure_official_record. intros Hd. inv_ok. bool_simpl. by eexists. Qed.

(** The catalog entry of a locked official module carries its identifier. *)
Lemma bundled_entry d o : verify_bundled_record d = Ok tt -> official_record d ->
  find_official_dlc (id_id d) = Some o ->
  exists m, parse_official_manifest o = Ok m /\ pm_id m = id_id d /\ pm_version m = id_version d /\
            id_manifest_sha256 d = official_manifest_digest bundled_manifest o.
Proof.
  intros Hb (o' & Ho' & Hk)%official_record_found Ho. unfold Dlc.verify_bundled_record in Hb.
  rewrite Hk, bool_decide_eq_true_2, Ho in Hb by done. cbn [negb ok_or mbind result_bind] in Hb. inv_ok. bool_simpl.
  repeat match goal with E : str_eqb _ _ = true |- _ => apply str_eqb_eq in E end.
  eexists. by split_and!.
Qed.

Lemma resolve_Ok o req en ver d : resolve_official o req en ver = Ok d ->
  exists m, parse_official_manifest o = Ok m /\ pm_id m = od_id o /\ id_id d = od_id o /\
    id_version d = pm_version m /\ id_manifest_sha256 d = official_manifest_digest bundled_manifest o /\
    id_source_kind d = Bundled /\ id_source d = od_source o /\ id_applied_migrations d = [] /\
    id_requested_version d = req /\ id_enabled d = en.
Proof.
  unfold Dlc.resolve_official. intros Hr. inv_ok.
  match goal with E : str_eqb _ _ = true |- _ => apply str_eqb_eq in E end. eexists. cbn. by split_and!.
Qed.
Lemma record_of_official o d : o ∈ OFFICIAL_DLCS -> id_id d = od_id o -> id_source_kind d = Bundled ->
  id_source d = od_source o -> official_record d.
Proof.
  intros Hin Hid Hk Hs. unfold official_record, ensure_official_record.
  rewrite Hid, (official_found _ Hin). cbn. rewrite Hk, Hs, bool_decide_eq_true_2 by done. cbn.
  by rewrite (proj2 (str_eqb_eq _ _) eq_refl).
Qed.

(** ** What a command may do to the lock *)

(** The migrations applied so far stay. *)
Definition kept (old new : InstalledDlc) : Prop := id_applied_migrations new = id_applied_migrations old.

Record edited (l l1 : InstallationLock) : Prop := {
  ed_history : exists new, il_history l1 = il_history l ++ new;
  ed_official : Forall official_record (il_dlcs l1);
  ed_kept : forall i j, i ∈ il_dlcs l -> j ∈ il_dlcs l1 -> id_id i = id_id j -> kept i j;
  ed_active : forall i, i ∈ il_dlcs l ->
    (exists j, j ∈ il_dlcs l1 /\ id_id j = id_id i) \/
    (exists r, r ∈ il_retained_dlcs l1 /\ re_id r = id_id i /\
       re_applied_migrations r = id_applied_migrations i /\ re_state_version r = id_state_version i);
  ed_retained : forall r, r ∈ il_retained_dlcs l -> r ∈ il_retained_dlcs l1 \/
    (exists j, j ∈ il_dlcs l1 /\ id_id j = re_id r /\
       id_applied_migrations j = re_applied_migrations r /\ id_state_version j = re_state_version r);
}.

Lemma kept_refl d : kept d d.
Proof. done. Qed.

Lemma edited_normalized l d1 :
  edited l (de_lock d1) -> edited l (de_lock (with_lock refresh_digest (normalize_contracts d1))).
Proof.
  assert (forall A leb (l : list A) x, x ∈ sort_by leb l <-> x ∈ l) as Hs.
  { intros A leb k x. by rewrite (sort_by_perm leb k). }
  intros [Hh Ho Hk Ha Hr]. split; cbn; [done|by rewrite sort_by_perm| | |];
    setoid_rewrite Hs; done.
Qed.

Lemma push_upgrades_frame engine ts l :
  il_dlcs (push_upgrades engine ts l) = il_dlcs l /\
  il_retained_dlcs (push_upgrades engine ts l) = il_retained_dlcs l /\
  exists new, il_history (push_upgrades engine ts l) = il_history l ++ new.
Proof.
  revert l. induction ts as [|[[id from] to] ts IH]; intros l.
  { split_and!; [done|done|]. exists []. by rewrite app_nil_r. }
  change (push_upgrades engine ((id, from, to) :: ts) l)
    with (push_upgrades engine ts (push_history Upgraded id (Some from) (Some to) engine l)).
  destruct (IH (push_history Upgraded id (Some from) (Some to) engine l)) as (-> & -> & new & ->).
  split_and!; [done|done|]. cbn. eexists. by rewrite <-app_assoc.
Qed.

Lemma persist_Ok d r : persist d = Ok r ->
  rp_deployment r = with_lock refresh_digest d /\
  validate_enabled_dependencies bundled_manifest (de_lock d) = Ok tt /\
  verify_intent_lock_pair (de_intent d) (refresh_digest (de_lock d)) = Ok tt.
Proof.
  unfold Dlc.persist. intros Hp. inv_ok.
  repeat match goal with x : rstr * rstr |- _ => destruct x end. inv_ok. by split_and!.
Qed.

Lemma advance_kept o request engine old new ts :
  verify_bundled_record old = Ok tt -> official_record old ->
  find_official_dlc (id_id old) = Some o -> advance o request engine old = Ok (new, ts) ->
  id_id new = id_id old /\ official_record new /\ kept old new.
Proof.
  intros Hb Hrec Ho Ha. unfold Dlc.advance, ensure_immutable_release in Ha. inv_ok.
  match goal with E : resolve_official _ _ _ _ = Ok ?n |- _ =>
    destruct (resolve_Ok _ _ _ _ _ E) as (m & Hm & Hid & Hnid & _ & _ & Hk & Hsrc & _) end.
  destruct (bundled_entry old o Hb Hrec Ho) as (m' & Hm' & Hid' & _).
  rewrite Hm in Hm'. injection Hm' as <-.
  split; [cbn; congruence|]. split; [|done].
  eapply record_of_official; [by eapply find_official_in|done..].
Qed.

(** ** Every command is an edit of the lock *)

Section commands.
Context (d : Deployment) (Hv : verified d).
Let l := de_lock d.

Lemma verified_pair : pair_ok (de_intent d) l.
Proof. apply verify_pair_ok, Hv. Qed.
Lemma verified_records : Forall official_record (il_dlcs l).
Proof. apply Hv. Qed.

Lemma request_locked r : r ∈ in_dlcs (de_intent d) ->
  exists i, i ∈ il_dlcs l /\ id_id i = rd_id r /\ id_enabled i = rd_enabled r.
Proof.
  intros Hr. destruct (proj1 (po_agree _ _ verified_pair (rd_id r) (rd_version r, rd_enabled r)))
    as (i & Hi & Hid & [= _ He]); [by exists r|by exists i].
Qed.
Lemma locked_request i : i ∈ il_dlcs l -> exists r, r ∈ in_dlcs (de_intent d) /\ rd_id r = id_id i.
Proof.
  intros Hi. destruct (proj2 (po_agree _ _ verified_pair (id_id i) (id_requested_version i, id_enabled i)))
    as (r & Hr & Hid & _); [by exists i|by exists r].
Qed.
Lemma old_by_id_lookup r : r ∈ in_dlcs (de_intent d) ->
  exists old, collect_map id_id (fun i => i) (il_dlcs l) !! rd_id r = Some old /\ old ∈ il_dlcs l /\
              id_id old = rd_id r.
Proof.
  intros (i & Hi & Hid & _)%request_locked. exists i. split; [|done].
  apply collect_map_lookup; [apply verified_pair|]. by exists i.
Qed.
Lemma same_dlc i j : i ∈ il_dlcs l -> j ∈ il_dlcs l -> id_id i = id_id j -> i = j.
Proof. apply nodup_key, verified_pair. Qed.
Lemma locked_record i : i ∈ il_dlcs l -> official_record i /\ verify_bundled_record i = Ok tt.
Proof.
  intros Hi. split; [eapply Forall_forall in Hi; [exact Hi|exact verified_records]|].
  eapply Forall_forall in Hi; [exact Hi|apply verified_pair].
Qed.

Lemma add_edits raw version d1 :
  add_edit current_engine bundled_manifest config_to_vec raw version d = Ok d1 -> edited l (de_lock d1).
Proof.
  unfold add_edit. intros Ha. inv_ok.
  match goal with p : OfficialDlc * rstr |- _ => destruct p as [o requirement] end. inv_ok.
  match goal with E : parse_dlc_spec _ _ _ = Ok _ |- _ => rename E into Hspec end.
  match goal with E : resolve_official _ _ _ _ = Ok ?n |- _ => rename n into new, E into Hres end.
  match goal with E : existsb _ _ = false |- _ => rename E into Hnew end.
  assert (o ∈ OFFICIAL_DLCS) as Ho.
  { unfold parse_dlc_spec, official_target in Hspec. destruct (rsplit_once _ raw) as [[]|]; inv_ok;
      by eapply find_official_in. }
  destruct (resolve_Ok _ _ _ _ _ Hres) as (m & _ & _ & Hid & _ & _ & Hk & Hsrc & Hmig & _).
  assert (forall i, i ∈ il_dlcs l -> id_id i <> od_id o) as Hfresh.
  { intros i (q & Hq & Hqi)%locked_request E. rewrite existsb_false, Forall_forall in Hnew.
    specialize (Hnew q Hq). cbn in Hnew. rewrite Hqi, E in Hnew.
    by rewrite (proj2 (str_eqb_eq _ _) eq_refl) in Hnew. }
  assert (official_record new /\ forall e s g, official_record (set_installed e s g new)) as [Hrec Hrec'].
  { split; [|intros e s g]; by apply (record_of_official o). }
  pose proof verified_records as Hall.
  match goal with E : (let '(_, _) := _ in _) = Ok d1 |- _ => rename E into Hp end.
  destruct (find _ _) as [q|] eqn:Hf; injection Hp as <-; split; cbn; try (by eexists).
  - apply Forall_app. split; [done|]. constructor; [apply Hrec'|constructor].
  - intros i j Hi [Hj|Hj%list_elem_of_singleton]%elem_of_app E; [|subst j; by destruct (Hfresh i Hi); rewrite E].
    rewrite (same_dlc i j) by done. apply kept_refl.
  - intros i Hi. left. exists i. rewrite elem_of_app. by auto.
  - intros q' Hq'. apply find_Some in Hf as [Hq Hqid]. apply str_eqb_eq in Hqid.
    destruct (in_remove_first (fun r => str_eqb (re_id r) (od_id o)) _ q' Hq') as [|E]; [by left|right].
    apply str_eqb_eq in E.
    rewrite (nodup_key re_id _ q' q (po_retained _ _ verified_pair) Hq' Hq) by congruence.
    eexists. split; [apply elem_of_app; right; by apply list_elem_of_singleton|]. cbn. split_and!; congruence.
  - apply Forall_app. split; [done|]. by constructor.
  - intros i j Hi [Hj|Hj%list_elem_of_singleton]%elem_of_app E; [|subst j; by destruct (Hfresh i Hi); rewrite E].
    rewrite (same_dlc i j) by done. apply kept_refl.
  - intros i Hi. left. exists i. rewrite elem_of_app. by auto.
  - intros q' Hq'. by left.
Qed.

Lemma set_enabled_edits raw enabled d1 :
  set_enabled_edit current_engine bundled_manifest raw enabled d = Ok (Some d1) -> edited l (de_lock d1).
Proof.
  unfold set_enabled_edit. intros Ha. inv_ok. destruct (Bool.eqb _ _); [done|]. inv_ok.
  assert (forall i, kept i (set_installed_enabled enabled i)) as Hk by done.
  split; cbn; [by eexists| | | |by left].
  - apply Forall_forall. intros j Hj. apply update_first_in in Hj as [Hj|(i & Hi & _ & ->)];
      [by apply locked_record|]. by apply (proj1 (locked_record i Hi)).
  - intros i j Hi Hj E. apply update_first_in in Hj as [Hj|(k & Hk' & _ & ->)].
    + rewrite (same_dlc i j) by done. apply kept_refl.
    + rewrite (same_dlc i k) by done. apply Hk.
  - intros i Hi. left.
    destruct (in_update_first (fun j => str_eqb (id_id j) (od_id x0)) (set_installed_enabled enabled) _ i Hi)
      as [?|[_ ?]]; eauto.
Qed.

Lemma remove_edits raw d1 :
  remove_edit current_engine bundled_manifest raw d = Ok d1 -> edited l (de_lock d1).
Proof.
  unfold remove_edit. intros Ha. inv_ok.
  match goal with E : find _ _ = Some ?i |- _ => rename i into gone; apply find_Some in E as [Hgone Hid] end.
  apply str_eqb_eq in Hid.
  split; cbn; [by eexists| | | |].
  - apply Forall_forall. intros j Hj%remove_first_in. by apply locked_record.
  - intros i j Hi Hj%remove_first_in E. rewrite (same_dlc i j) by done. apply kept_refl.
  - intros i Hi.
    destruct (in_remove_first (fun j => str_eqb (id_id j) (id_id gone)) _ i Hi) as [Hin|E].
    + left. exists i. rewrite <-Hid. done.
    + right. apply str_eqb_eq in E. rewrite (same_dlc i gone) by done.
      eexists. split; [apply elem_of_app; right; by apply list_elem_of_singleton|done].
  - intros q Hq. left. apply elem_of_app. left. apply elem_of_filter_bool. split; [done|].
    apply negb_true_iff, not_true_iff_false. intros E%str_eqb_eq.
    pose proof (po_disjoint _ _ verified_pair) as Hdis. rewrite Forall_forall in Hdis.
    apply (Hdis q Hq). apply list_elem_of_fmap. exists gone. split; [congruence|done].
Qed.

(** The two loops: every module of the result advances a locked one, and every
    request has its module. *)
Definition advanced (j : InstalledDlc) : Prop :=
  exists old, old ∈ il_dlcs l /\ id_id j = id_id old /\ official_record j /\ kept old j.

Lemma advanced_old old : old ∈ il_dlcs l -> advanced old.
Proof. intros Hin. exists old. split_and!; [done|done|by apply locked_record|apply kept_refl]. Qed.
Lemma advance_advanced o request engine old new ts :
  old ∈ il_dlcs l -> id_id old = rd_id request -> find_official_dlc (rd_id request) = Some o ->
  advance o request engine old = Ok (new, ts) -> advanced new /\ id_id new = rd_id request.
Proof.
  intros Hin Hid Ho Ha. destruct (locked_record old Hin) as [Hrec Hb]. rewrite <-Hid in Ho.
  destruct (advance_kept o request engine old new ts Hb Hrec Ho Ha) as (E & ? & ?).
  split; [by exists old|congruence].
Qed.

Lemma upgrade_loop target version requests : forall s s',
  requests ⊆ in_dlcs (de_intent d) ->
  for_fold (upgrade_step current_engine bundled_manifest config_to_vec target version
              (collect_map id_id (fun i => i) (il_dlcs l))) s requests = Ok s' ->
  Forall advanced (us_resolved s) -> 
  Forall advanced (us_resolved s') /\
  (id_id <$> us_resolved s') = (id_id <$> us_resolved s) ++ (rd_id <$> requests).
Proof.
  induction requests as [|q requests IH]; intros s s' Hsub; cbn [for_fold].
  { intros [= <-] Hs. by rewrite app_nil_r. }
  intros (s1 & Hstep & Hloop)%bind_Ok Hs.
  assert (q ∈ in_dlcs (de_intent d)) as Hq by (apply Hsub; left).
  destruct (old_by_id_lookup q Hq) as (old & Hold & Hin & Hid).
  unfold Dlc.upgrade_step in Hstep. rewrite Hold in Hstep. cbn [expect ok_or mbind result_bind] in Hstep.
  assert (exists j, us_resolved s1 = us_resolved s ++ [j] /\ advanced j /\ id_id j = rd_id q) as (j & Es & Hj & Ej).
  { destruct (is_some_and _ target).
    - injection Hstep as <-. exists old. split_and!; [done|by apply advanced_old|done].
    - apply bind_Ok in Hstep as (q' & Hq' & Hstep).
      assert (rd_id q' = rd_id q) as Eq by (destruct version; inv_ok; done).
      unfold contract, expect in Hstep. inv_ok.
      match goal with p : InstalledDlc * list _ |- _ => destruct p as [new ts] end. inv_ok. cbn.
      exists new. split; [done|]. rewrite <-Eq. eapply advance_advanced; [exact Hin|congruence|done|done]. }
  destruct (IH s1 s') as [Hall Hids]; [intros x Hx; apply Hsub; by right|done| |].
  - rewrite Es. apply Forall_app. split; [done|]. by constructor.
  - split; [done|]. rewrite Hids, Es, fmap_app, <-app_assoc. cbn. by rewrite Ej.
Qed.
Lemma reconcile_loop to requests : forall s s',
  requests ⊆ in_dlcs (de_intent d) ->
  for_fold (reconcile_step bundled_manifest config_to_vec to
              (collect_map id_id (fun i => i) (il_dlcs l))) s requests = Ok s' ->
  Forall advanced s.1 -> 
  Forall advanced s'.1 /\ (id_id <$> s'.1) = (id_id <$> s.1) ++ (rd_id <$> requests).
Proof.
  induction requests as [|q requests IH]; intros s s' Hsub; cbn [for_fold].
  { intros [= <-] Hs. by rewrite app_nil_r. }
  intros (s1 & Hstep & Hloop)%bind_Ok Hs.
  assert (q ∈ in_dlcs (de_intent d)) as Hq by (apply Hsub; left).
  destruct (old_by_id_lookup q Hq) as (old & Hold & Hin & Hid).
  unfold Dlc.reconcile_step in Hstep. apply bind_Ok in Hstep as (o & Ho & Hstep).
  rewrite Hold in Hstep. cbn [expect ok_or mbind result_bind] in Hstep. inv_ok.
  match goal with p : InstalledDlc * list _ |- _ => destruct p as [new ts] end. inv_ok.
  destruct (advance_advanced o q to old new ts) as [Hnew Eid]; [done..|].
  destruct (IH _ s' ltac:(intros x Hx; apply Hsub; by right) Hloop) as [Hall Hids]; cbn in *.
  - apply Forall_app. split; [done|]. by constructor.
  - split; [done|]. rewrite Hids, fmap_app, <-app_assoc. cbn. by rewrite Eid.
Qed.

(** A lock whose modules are exactly the advanced requests is an edit. *)
Lemma advanced_edits l1 : Forall advanced (il_dlcs l1) ->
  (id_id <$> il_dlcs l1) = (rd_id <$> in_dlcs (de_intent d)) ->
  il_retained_dlcs l1 = il_retained_dlcs l -> (exists new, il_history l1 = il_history l ++ new) ->
  edited l l1.
Proof.
  intros Hall Hids Hret Hh. rewrite Forall_forall in Hall. split; [done| | | |].
  - apply Forall_forall. intros j Hj. destruct (Hall j Hj) as (? & _ & _ & ? & _). done.
  - intros i j Hi Hj E. destruct (Hall j Hj) as (old & Hin & Eid & _ & Hk).
    by rewrite (same_dlc i old) by congruence.
  - intros i (q & Hq & E)%locked_request. left.
    assert (rd_id q ∈ id_id <$> il_dlcs l1) as Hin by (rewrite Hids; by apply list_elem_of_fmap_2).
    apply list_elem_of_fmap in Hin as (j & Ej & Hj). exists j. split; [done|congruence].
  - intros r Hr. left. by rewrite Hret.
Qed.

Lemma upgrade_edits target version d1 :
  upgrade_edit current_engine bundled_manifest config_to_vec target version d = Ok (Some d1) ->
  edited l (de_lock d1).
Proof.
  unfold upgrade_edit. intros Ha. inv_ok. destruct (negb (us_changed _)); [done|]. inv_ok.
  match goal with E : for_fold _ _ _ = Ok ?s |- _ => apply upgrade_loop in E as [Hall Hids]; [|done|constructor] end.
  cbn [with_lock de_lock]. edestruct push_upgrades_frame as (Ed & Er & Eh).
  apply advanced_edits; [by rewrite Ed|by rewrite Ed|by rewrite Er|exact Eh].
Qed.
Lemma reconcile_edits from to source artifact d1 :
  reconcile_edit current_engine bundled_manifest config_to_vec from to source artifact d = Ok d1 ->
  edited l (de_lock d1).
Proof.
  unfold reconcile_edit. intros Ha. inv_ok.
  match goal with p : list InstalledDlc * list _ |- _ => destruct p as [resolved ts] end. inv_ok.
  match goal with E : for_fold _ _ _ = Ok _ |- _ => apply reconcile_loop in E as [Hall Hids]; [|done|constructor] end.
  cbn [with_lock de_lock]. edestruct push_upgrades_frame as (Ed & Er & Eh).
  apply advanced_edits; [by rewrite Ed|by rewrite Ed|by rewrite Er|exact Eh].
Qed.

Lemma run_edits a r : run a d = Ok (Some r) ->
  edited l (de_lock (rp_deployment r)) /\
  validate_enabled_dependencies bundled_manifest (de_lock (rp_deployment r)) = Ok tt /\
  verified (rp_deployment r).
Proof.
  intros Hr. assert (exists d1, edited l (de_lock d1) /\ persist (normalize_contracts d1) = Ok r) as (d1 & He & Hp).
  { destruct a; cbn [Dlc.run] in Hr; unfold add, set_enabled, upgrade, reconcile, remove, commit in Hr; inv_ok;
      repeat match goal with E : transpose_map _ ?o = Ok (Some _) |- _ =>
        apply transpose_map_Ok in E; destruct o; [destruct E as (? & ? & ?)|done] end; simplify_eq;
      eauto using add_edits, set_enabled_edits, upgrade_edits, reconcile_edits, remove_edits. }
  pose proof (edited_normalized _ _ He) as He'.
  apply persist_Ok in Hp as (-> & Hdep & Hpair). split; [done|]. split; [exact Hdep|].
  split; [exact Hpair|apply He'].
Qed.
End commands.

(** ** The guarantees *)

(** *** Panics *)

(** The computation does not reach one of the [expect]s of the code. *)
Definition calm {A} (m : result DlcError A) : Prop := m <> Err Panicked.

Lemma calm_bind {A B} (m : result DlcError A) (k : A -> result DlcError B) :
  calm m -> (forall a, m = Ok a -> calm (k a)) -> calm (m ≫= k).
Proof. unfold calm. destruct m as [a|e]; cbn; [by eauto|]. intros He _ [= ->]. done. Qed.
Lemma calm_fmap {A B} (m : result DlcError A) (f : A -> B) : calm m -> calm (f <$> m).
Proof. unfold calm. destruct m; cbn; congruence. Qed.
Lemma calm_fail_if b e : e <> Panicked -> calm (fail_if b e).
Proof. unfold calm. destruct b; cbn; congruence. Qed.
Lemma calm_ensure b e : e <> Panicked -> calm (ensure b e).
Proof. unfold calm. destruct b; cbn; congruence. Qed.
Lemma calm_ok_or {A} (o : option A) e : e <> Panicked -> calm (ok_or o e).
Proof. unfold calm. destruct o; cbn; congruence. Qed.
Lemma calm_expect {A} (o : option A) : is_Some o -> calm (expect o).
Proof. intros [a ->]. done. Qed.
Lemma calm_contract {A} (m : result InstallContractError A) : calm (contract m).
Proof. unfold calm. destruct m; done. Qed.
Lemma calm_manifest {A} (m : result ManifestError A) : calm (map_err BadManifest m).
Proof. unfold calm. destruct m; done. Qed.
Lemma calm_Ok {A} (a : A) : calm (Ok a).
Proof. done. Qed.
Lemma calm_for_each {A} (f : A -> result DlcError unit) l : (forall a, a ∈ l -> calm (f a)) -> calm (for_each f l).
Proof.
  induction l as [|a l IH]; intros Hf; cbn; [done|].
  apply calm_bind; [apply Hf; left|]. intros _ _. apply IH. intros b Hb. apply Hf. by right.
Qed.
Lemma calm_traverse {A B} (f : A -> result DlcError B) l : (forall a, a ∈ l -> calm (f a)) -> calm (traverse f l).
Proof.
  induction l as [|a l IH]; intros Hf; cbn; [done|].
  apply calm_bind; [apply Hf; left|]. intros b _. apply calm_bind; [|done].
  apply IH. intros c Hc. apply Hf. by right.
Qed.
Lemma calm_for_fold {A S} (f : S -> A -> result DlcError S) l : forall s,
  (forall s a, a ∈ l -> calm (f s a)) -> calm (for_fold f s l).
Proof.
  induction l as [|a l IH]; intros s Hf; cbn; [done|].
  apply calm_bind; [apply Hf; left|]. intros s' _. apply IH. intros s2 b Hb. apply Hf. by right.
Qed.

(** Everything but [expect] is calm by its shape. *)
Create HintDb calm.
Ltac calm :=
  repeat first
    [ solve [auto 1 with calm nocore] | apply calm_Ok | apply calm_contract | apply calm_manifest
    | apply calm_fail_if; discriminate | apply calm_ensure; discriminate | apply calm_ok_or; discriminate
    | apply calm_fmap | apply calm_bind; [|intros ? ?]
    | match goal with
      | |- calm (match ?x with _ => _ end) => destruct x eqn:?
      | |- calm (if ?x then _ else _) => destruct x eqn:?
      end ].

Lemma calm_env original updates : calm (replace_environment_values original updates).
Proof.
  unfold replace_environment_values. calm. apply calm_for_fold. intros [out rep] seg _.
  unfold replace_segment. calm.
Qed.
#[local] Hint Resolve calm_env : calm.
Lemma calm_verify_bundled l : calm (verify_bundled_official_manifest_bytes bundled_manifest l).
Proof. apply calm_for_each. intros i _. unfold Dlc.verify_bundled_record, Dlc.parse_official_manifest. calm. Qed.
#[local] Hint Resolve calm_verify_bundled : calm.
Lemma calm_verify_pair i l : calm (verify_intent_lock_pair i l).
Proof. unfold Dlc.verify_intent_lock_pair. calm. Qed.
#[local] Hint Resolve calm_verify_pair : calm.
Lemma calm_target raw : calm (official_target raw).
Proof. unfold official_target. calm. Qed.
Lemma calm_resolve o req en ver : calm (resolve_official o req en ver).
Proof. unfold Dlc.resolve_official, Dlc.parse_official_manifest. calm. Qed.
#[local] Hint Resolve calm_target calm_resolve : calm.
Lemma calm_advance o request engine old : calm (advance o request engine old).
Proof. unfold Dlc.advance, ensure_immutable_release. calm. Qed.
#[local] Hint Resolve calm_advance : calm.
Lemma calm_dependents l target : Forall official_record (il_dlcs l) ->
  calm (ensure_no_enabled_dependents bundled_manifest l target).
Proof.
  intros Hall. apply calm_for_each. intros i [Hi _]%elem_of_filter_bool. rewrite Forall_forall in Hall.
  destruct (official_record_found i (Hall i Hi)) as (o & Ho & _).
  unfold check_dependent, Dlc.parse_official_manifest. calm. by apply calm_expect.
Qed.
Lemma calm_persist d : Forall official_record (il_dlcs (de_lock d)) -> calm (persist d).
Proof.
  intros Hall. unfold Dlc.persist. calm.
  - apply calm_for_each. intros i [Hi _]%elem_of_filter_bool. rewrite Forall_forall in Hall.
    destruct (official_record_found i (Hall i Hi)) as (o & Ho & _).
    unfold check_enabled_dlc, Dlc.parse_official_manifest. calm; [by apply calm_expect|].
    apply calm_for_each. intros dep _. unfold check_dependency. calm.
  - unfold enabled_composition. calm. apply calm_traverse. intros i _. calm.
Qed.

Lemma calm_commit d0 d1 : edited d0 (de_lock d1) -> calm (commit bundled_manifest d1).
Proof.
  intros He. apply calm_persist. cbn. rewrite sort_by_perm. apply He.
Qed.
Lemma calm_optional_commit d0 (o : option Deployment) :
  (forall d1, o = Some d1 -> edited d0 (de_lock d1)) -> calm (transpose_map (commit bundled_manifest) o).
Proof. intros He. destruct o as [d1|]; cbn; [|done]. by eapply calm_fmap, calm_commit, He. Qed.

Lemma calm_parse_spec raw version : calm (parse_dlc_spec bundled_manifest raw version).
Proof. unfold parse_dlc_spec, Dlc.parse_official_manifest. calm. Qed.
Lemma calm_runtime d o : calm (ensure_not_required_by_runtime d o).
Proof. unfold ensure_not_required_by_runtime. by apply calm_fail_if. Qed.
#[local] Hint Resolve calm_parse_spec calm_runtime : calm.

Lemma calm_set_enabled_edit d raw enabled : verified d ->
  calm (set_enabled_edit current_engine bundled_manifest raw enabled d).
Proof.
  intros Hv. unfold set_enabled_edit. calm.
  - by apply calm_dependents, Hv.
  - apply calm_expect.
    match goal with X : ensure (existsb _ _) _ = Ok _ |- _ => apply ensure_Ok in X; rename X into E end.
    apply existsb_exists in E as (q & Hq & E). apply list_elem_of_In in Hq. apply str_eqb_eq in E.
    destruct (request_locked d Hv q Hq) as (i & Hi & Hid & _).
    destruct (find _ _) as [|] eqn:F; [done|]. eapply find_None in F; [|exact Hi]. cbn in F.
    by rewrite Hid, E, (proj2 (str_eqb_eq _ _) eq_refl) in F.
Qed.
Lemma calm_upgrade_edit d target version : verified d ->
  calm (upgrade_edit current_engine bundled_manifest config_to_vec target version d).
Proof.
  intros Hv. unfold upgrade_edit. calm; [destruct target; cbn; by calm|].
  apply calm_for_fold. intros s q Hq.
  destruct (old_by_id_lookup d Hv q Hq) as (old & Hold & Hin & Hid).
  destruct (official_record_found old (proj1 (locked_record d Hv old Hin))) as (o & Ho & _).
  unfold upgrade_step. rewrite Hold. cbn [expect ok_or mbind result_bind].
  case_match; [done|]. apply calm_bind; [destruct version; calm|].
  intros q' Hq'. assert (rd_id q' = id_id old) as -> by (rewrite Hid; destruct version; by inv_ok).
  rewrite Ho. calm.
Qed.
Lemma calm_reconcile_edit d from to source artifact : verified d ->
  calm (reconcile_edit current_engine bundled_manifest config_to_vec from to source artifact d).
Proof.
  intros Hv. unfold reconcile_edit. calm. apply calm_for_fold. intros s q Hq.
  destruct (old_by_id_lookup d Hv q Hq) as (old & Hold & _).
  unfold reconcile_step. rewrite Hold. calm.
Qed.
Lemma calm_remove_edit d raw : verified d -> calm (remove_edit current_engine bundled_manifest raw d).
Proof. intros Hv. unfold remove_edit. calm. by apply calm_dependents, Hv. Qed.

(** The [expect]s of the lifecycle commands are justified: on a deployment
    that passed the loading checks no command panics; it succeeds or reports
    an error. *)
Theorem lifecycle_never_panics (d : Deployment) a (Hv : verified d) : run a d <> Err Panicked.
Proof.
  change (calm (run a d)). destruct a; cbn [Dlc.run]; try apply calm_fmap.
  - apply calm_bind; [unfold add_edit; calm|]. intros d1 E. by eapply calm_commit, add_edits.
  - apply calm_bind; [by apply calm_set_enabled_edit|]. intros o E. eapply calm_optional_commit.
    intros d1 ->. by eapply set_enabled_edits.
  - apply calm_bind; [by apply calm_set_enabled_edit|]. intros o E. eapply calm_optional_commit.
    intros d1 ->. by eapply set_enabled_edits.
  - apply calm_bind; [by apply calm_upgrade_edit|]. intros o E. eapply calm_optional_commit.
    intros d1 ->. by eapply upgrade_edits.
  - apply calm_bind; [by apply calm_reconcile_edit|]. intros d1 E. by eapply calm_commit, reconcile_edits.
  - apply calm_bind; [by apply calm_remove_edit|]. intros d1 E. by eapply calm_commit, remove_edits.
Qed.

(** C38. Whatever command succeeds, the deployment it persists passes the checks
    the next command starts with, and its enabled modules are closed under
    their required dependencies: each dependency of the bundled manifest is
    locked, enabled and in the range asked for. *)
Theorem lifecycle_keeps_deployments_verified (d : Deployment) a r
    (Hv : verified d) (Hr : run a d = Ok (Some r)) :
  let l := de_lock (rp_deployment r) in
  verified (rp_deployment r) /\
  forall i o m dep, i ∈ il_dlcs l -> id_enabled i = true ->
    find_official_dlc (id_id i) = Some o -> parse_official_manifest o = Ok m ->
    dep ∈ pm_dependencies m -> pd_optional dep = false ->
    exists j req v, j ∈ il_dlcs l /\ id_id j = pd_id dep /\ id_enabled j = true /\
      req_parse (pd_version dep) = Some req /\ version_parse (id_version j) = Some v /\ req_matches req v = true.
Proof.
  destruct (run_edits d Hv a r Hr) as (_ & Hdep & Hver). cbn zeta. split; [exact Hver|].
  intros i o m dep Hi Hen Ho Hm Hd Hopt.
  unfold validate_enabled_dependencies in Hdep. rewrite for_each_Ok, Forall_forall in Hdep.
  specialize (Hdep i ltac:(by apply elem_of_filter_bool)).
  unfold check_enabled_dlc in Hdep. rewrite Ho in Hdep. cbn [expect ok_or mbind result_bind] in Hdep.
  rewrite Hm in Hdep. cbn [mbind result_bind] in Hdep. rewrite for_each_Ok, Forall_forall in Hdep.
  specialize (Hdep dep ltac:(apply elem_of_filter_bool; by rewrite Hopt)).
  unfold check_dependency in Hdep. inv_ok.
  match goal with E : collect_map _ _ _ !! _ = Some ?j |- _ => exists j; rename E into Hj end.
  apply collect_map_lookup in Hj as (j & Hj & Hid & <-); [|apply (verify_pair_ok _ _ (proj1 Hver))].
  by do 2 eexists.
Qed.

(** Both locks were checked against the same bundled manifests. *)
Lemma same_release i j :
  verify_bundled_record i = Ok tt -> official_record i -> verify_bundled_record j = Ok tt -> official_record j ->
  id_id i = id_id j -> id_version j = id_version i /\ id_manifest_sha256 j = id_manifest_sha256 i.
Proof.
  intros Hi Ri Hj Rj E. destruct (official_record_found i Ri) as (o & Ho & _).
  destruct (bundled_entry i o Hi Ri Ho) as (m & Hm & _ & Hv & Hs). rewrite E in Ho.
  destruct (bundled_entry j o Hj Rj Ho) as (m' & Hm' & _ & Hv' & Hs').
  rewrite Hm in Hm'. injection Hm' as <-. by rewrite <-Hv, <-Hv', Hs, Hs'.
Qed.

(** A module that stays installed through a command keeps its release, byte
    for byte, and its applied migrations, and the history only grows.  ([upgrade] and
    [reconcile] included: a lock of another release does not pass the loading
    checks.) *)
Theorem installed_modules_keep_their_release (d : Deployment) a r
    (Hv : verified d) (Hr : run a d = Ok (Some r)) :
  let before := de_lock d in
  let after := de_lock (rp_deployment r) in
  (exists new, il_history after = il_history before ++ new) /\
  forall i j, i ∈ il_dlcs before -> j ∈ il_dlcs after -> id_id i = id_id j ->
    id_version j = id_version i /\ id_manifest_sha256 j = id_manifest_sha256 i /\
    id_applied_migrations j = id_applied_migrations i.
Proof.
  destruct (run_edits d Hv a r Hr) as (He & _ & Hver). cbn zeta.
  split; [apply (ed_history _ _ He)|]. intros i j Hi Hj E.
  destruct (locked_record d Hv i Hi) as [Ri Bi]. destruct (locked_record _ Hver j Hj) as [Rj Bj].
  destruct (same_release i j Bi Ri Bj Rj E) as [? ?]. split_and!; [done|done|]. by apply (ed_kept _ _ He).
Qed.

(** The migration ledger of a module, installed or removed. *)
Definition ledger (l : InstallationLock) (id : rstr) : option (list rstr) :=
  match find (fun i => str_eqb (id_id i) id) (il_dlcs l) with
  | Some i => Some (id_applied_migrations i)
  | None => re_applied_migrations <$> find (fun r => str_eqb (re_id r) id) (il_retained_dlcs l)
  end.

Lemma find_key {A} (key : A -> rstr) l a : NoDup (key <$> l) -> a ∈ l ->
  find (fun b => str_eqb (key b) (key a)) l = Some a.
Proof.
  intros Hnd Ha. destruct (find _ l) as [b|] eqn:E.
  - apply find_Some in E as [Hb E]. apply str_eqb_eq in E. f_equal. by eapply nodup_key.
  - eapply find_None in E; [|exact Ha]. cbn in E. by rewrite (proj2 (str_eqb_eq _ _) eq_refl) in E.
Qed.
Lemma ledger_active i l j : pair_ok i l -> j ∈ il_dlcs l -> ledger l (id_id j) = Some (id_applied_migrations j).
Proof. intros Hp Hj. unfold ledger. by rewrite (find_key id_id _ j (po_dlcs _ _ Hp) Hj). Qed.
Lemma ledger_retained i l r : pair_ok i l -> r ∈ il_retained_dlcs l ->
  ledger l (re_id r) = Some (re_applied_migrations r).
Proof.
  intros Hp Hr. unfold ledger. destruct (find _ (il_dlcs l)) as [j|] eqn:E.
  - apply find_Some in E as [Hj E]. apply str_eqb_eq in E.
    pose proof (po_disjoint _ _ Hp) as Hd. rewrite Forall_forall in Hd. destruct (Hd r Hr).
    apply list_elem_of_fmap. by exists j.
  - by rewrite (find_key re_id _ r (po_retained _ _ Hp) Hr).
Qed.

(** C39. No command loses a migration ledger: the migrations recorded for a
    module, while it is installed or after it was removed, are recorded for it
    afterwards, whether the command keeps, removes, re-adds, upgrades or
    switches it. *)
Theorem migration_ledger_is_never_lost (d : Deployment) a r id migrations
    (Hv : verified d) (Hr : run a d = Ok (Some r))
    (Hl : ledger (de_lock d) id = Some migrations) :
  ledger (de_lock (rp_deployment r)) id = Some migrations.
Proof.
  destruct (run_edits d Hv a r Hr) as (He & _ & Hver).
  pose proof (verify_pair_ok _ _ (proj1 Hver)) as Hp.
  unfold ledger in Hl. destruct (find _ (il_dlcs (de_lock d))) as [i|] eqn:E.
  - injection Hl as <-. apply find_Some in E as [Hi E]. apply str_eqb_eq in E as <-.
    destruct (ed_active _ _ He i Hi) as [(j & Hj & Eid)|(q & Hq & Eid & <- & _)]; rewrite <-Eid.
    + rewrite (ledger_active _ _ j Hp Hj). f_equal. by apply (ed_kept _ _ He i j).
    + by apply (ledger_retained _ _ q Hp).
  - destruct (find _ (il_retained_dlcs _)) as [q|] eqn:F; [|done]. injection Hl as <-.
    apply find_Some in F as [Hq F]. apply str_eqb_eq in F as <-.
    destruct (ed_retained _ _ He q Hq) as [Hq'|(j & Hj & <- & <- & _)];
      [by apply (ledger_retained _ _ q Hp)|by apply (ledger_active _ _ j Hp)].
Qed.

(** A module that one command removed and the next command adds again
    resumes exactly where it was: same state version, same migrations. *)
Theorem reinstalled_module_resumes_its_state (d d1 : Deployment) a1 a2 r1 r2 i j
    (Hv : verified d) (Hr1 : run a1 d = Ok (Some r1))
    (Hv1 : verified d1) (Hlock : de_lock d1 = de_lock (rp_deployment r1)) (Hr2 : run a2 d1 = Ok (Some r2))
    (Hi : i ∈ il_dlcs (de_lock d)) (Hgone : id_id i ∉ id_id <$> il_dlcs (de_lock d1))
    (Hj : j ∈ il_dlcs (de_lock (rp_deployment r2))) (Hid : id_id j = id_id i) :
  id_state_version j = id_state_version i /\ id_applied_migrations j = id_applied_migrations i.
Proof.
  destruct (run_edits d Hv a1 r1 Hr1) as (He1 & _).
  destruct (run_edits d1 Hv1 a2 r2 Hr2) as (He2 & _ & Hver2).
  pose proof (verify_pair_ok _ _ (proj1 Hver2)) as Hp.
  destruct (ed_active _ _ He1 i Hi) as [(k & Hk & Ek)|(q & Hq & Eq & Em & Es)].
  { destruct Hgone. rewrite Hlock. apply list_elem_of_fmap. by exists k. }
  rewrite <-Hlock in Hq. destruct (ed_retained _ _ He2 q Hq) as [Hq'|(k & Hk & Ek & Ekm & Eks)].
  - pose proof (po_disjoint _ _ Hp) as Hdis. rewrite Forall_forall in Hdis. destruct (Hdis q Hq').
    apply list_elem_of_fmap. exists j. split; [congruence|done].
  - assert (k = j) as -> by (eapply (nodup_key id_id); [apply Hp|done|done|congruence]). split; congruence.
Qed.
End lifecycle_theorems.
