(* ===== verification/DlcEnvironment.v ===== *)
(** * The environment file of a deployment

    [replace_environment_values] rewrites the three managed lines of [.env] and
    nothing else; read back with [project_environment], the file names exactly
    the composition of the lock it was written with. *)

From Stdlib Require Import Bool NArith ZArith Lia.
From S2P Require Import Prelude Text Extern Manifest InstallLock Dlc DlcTheorems.

(** ** Lines *)

(** The pieces [split_inclusive] yields: every one but the last ends with the
    delimiter, which occurs nowhere else. *)
Fixpoint segmented (d : N) (l : list rstr) : Prop :=
  match l with
  | [] => True
  | s :: l' => (exists body, (d ∉ body) /\ (s = body ++ [d] \/ l' = [] /\ s = body /\ body <> [])) /\ segmented d l'
  end.

Lemma split_inclusive_segmented d s : segmented d (split_inclusive d s) /\ mjoin (split_inclusive d s) = s.
Proof.
  induction s as [|c s [IHs IHj]]; [done|]. cbn [split_inclusive]. destruct (N.eqb_spec c d) as [->|Hne].
  - split; [split; [|exact IHs]; exists []; split; [apply not_elem_of_nil|by left]|].
    change (mjoin ([d] :: split_inclusive d s)) with (d :: mjoin (split_inclusive d s)). by rewrite IHj.
  - destruct (split_inclusive d s) as [|p ps] eqn:E.
    + cbn in IHj. subst s. split; [|done]. split; [|done]. exists [c].
      split; [by rewrite list_elem_of_singleton|by right].
    + destruct IHs as [(body & Hb & Hp) Hps].
      split; [|by change (mjoin ((c :: p) :: ps)) with (c :: mjoin (p :: ps)); rewrite IHj].
      split; [|exact Hps]. exists (c :: body). split; [rewrite elem_of_cons; naive_solver|].
      destruct Hp as [->|(-> & -> & _)]; [by left|by right].
Qed.

Lemma split_inclusive_body d body rest : d ∉ body ->
  split_inclusive d (body ++ d :: rest) = (body ++ [d]) :: split_inclusive d rest.
Proof.
  induction body as [|c body IH]; cbn [app split_inclusive].
  - intros _. by rewrite N.eqb_refl.
  - intros [Hc Hb]%not_elem_of_cons. rewrite (proj2 (N.eqb_neq c d)) by done. by rewrite IH.
Qed.
Lemma split_inclusive_last d body : d ∉ body -> body <> [] -> split_inclusive d body = [body].
Proof.
  induction body as [|c body IH]; [done|]. cbn [split_inclusive]. intros [Hc Hb]%not_elem_of_cons _.
  rewrite (proj2 (N.eqb_neq c d)) by done. destruct body; [done|]. by rewrite IH.
Qed.
Lemma split_inclusive_join d l : segmented d l -> split_inclusive d (mjoin l) = l.
Proof.
  induction l as [|s l IH]; [done|]. intros [(body & Hb & Hs) Hl].
  change (mjoin (s :: l)) with (s ++ mjoin l). destruct Hs as [->|(-> & -> & Hne)].
  - rewrite <-app_assoc. cbn [app]. rewrite split_inclusive_body by done. by rewrite IH.
  - change (mjoin []) with (@nil N). rewrite app_nil_r. by apply split_inclusive_last.
Qed.

Lemma strip_last_Some c s t : strip_last c s = Some t <-> s = t ++ [c].
Proof.
  unfold strip_last. induction s as [|e u _] using rev_ind.
  { split; [done|]. intros E. by destruct t. }
  rewrite last_snoc, removelast_last. destruct (N.eqb_spec e c) as [->|Hne]; split; intros E.
  - by injection E as <-.
  - by apply app_inj_tail in E as [-> _].
  - done.
  - by apply app_inj_tail in E as [_ ?].
Qed.

(** A segment splits into its line, and its ending. *)
Definition cut (segment : rstr) : rstr * rstr :=
  let '(without_lf, lf) := match strip_last 10 segment with
                           | Some line => (line, [10%N]) | None => (segment, []) end in
  match strip_last 13 without_lf with Some line => (line, 13%N :: lf) | None => (without_lf, lf) end.
Lemma cut_app segment : (cut segment).1 ++ (cut segment).2 = segment.
Proof.
  unfold cut. destruct (strip_last 10 segment) as [s|] eqn:E; [apply strip_last_Some in E as ->|];
    destruct (strip_last 13 _) as [t|] eqn:F; cbn; rewrite ?app_nil_r; try done;
    apply strip_last_Some in F as ->; by rewrite <-?app_assoc.
Qed.

Lemma trim_start_app u c v : is_whitespace c = false -> trim_start (u ++ c :: v) = trim_start u ++ c :: v.
Proof.
  intros Hc. induction u as [|x u IH]; cbn [app trim_start]; [by rewrite Hc|].
  destruct (is_whitespace x); [exact IH|done].
Qed.
Lemma trim_assignment x name rest : is_whitespace x = false ->
  trim ((x :: name) ++ 61%N :: rest) = (x :: name) ++ 61%N :: trim_end rest.
Proof.
  intros Hx. unfold trim. cbn [app trim_start]. rewrite Hx. unfold trim_end.
  assert (rev (x :: name ++ 61%N :: rest) = rev rest ++ 61%N :: rev (x :: name)) as ->.
  { change (x :: name ++ 61%N :: rest) with ((x :: name) ++ 61%N :: rest).
    rewrite rev_app_distr. cbn [rev]. by rewrite <-!app_assoc. }
  rewrite trim_start_app by done. rewrite rev_app_distr. cbn [rev].
  by rewrite rev_app_distr, rev_involutive, <-app_assoc.
Qed.
Lemma trim_end_snoc_ws s c : is_whitespace c = true -> trim_end (s ++ [c]) = trim_end s.
Proof. intros Hc. unfold trim_end. rewrite rev_app_distr. cbn. by rewrite Hc. Qed.
Lemma trim_end_id s : (forall c, last s = Some c -> is_whitespace c = false) -> trim_end s = s.
Proof.
  intros Hl. induction s as [|c s _] using rev_ind; [done|]. unfold trim_end. rewrite rev_app_distr. cbn.
  rewrite (Hl c) by apply last_snoc. cbn. by rewrite rev_involutive.
Qed.

(** ** One line *)

Definition endings : list rstr := [[]; [10%N]; [13%N]; [13%N; 10%N]].
Lemma cut_line line e : 10%N ∉ line -> 13%N ∉ line -> e ∈ endings -> cut (line ++ e) = (line, e).
Proof.
  intros H10 H13 He.
  assert (forall c, (c ∉ line) -> strip_last c line = None) as Hnone.
  { intros c Hc. destruct (strip_last c line) as [t|] eqn:E; [|done]. apply strip_last_Some in E as ->.
    destruct Hc. apply elem_of_app. right. by apply list_elem_of_singleton. }
  assert (forall c, strip_last c (line ++ [c]) = Some line) as Hsome by (intros c; by apply strip_last_Some).
  assert (strip_last 10 (line ++ [13%N]) = None) as H1310 by (unfold strip_last; by rewrite last_snoc).
  assert (strip_last 10 (line ++ [13%N; 10%N]) = Some (line ++ [13%N])) as H4
    by (apply strip_last_Some; by rewrite <-app_assoc).
  unfold endings in He. rewrite !elem_of_cons in He. unfold cut.
  destruct He as [->|[->|[->|[->|[]%not_elem_of_nil]]]]; rewrite ?app_nil_r.
  - by rewrite !Hnone.
  - by rewrite Hsome, Hnone.
  - by rewrite H1310, Hsome.
  - by rewrite H4, Hsome.
Qed.
Lemma cut_ending segment : (cut segment).2 ∈ endings.
Proof.
  unfold cut, endings. destruct (strip_last 10 segment); destruct (strip_last 13 _); cbn; rewrite !elem_of_cons; auto.
Qed.

(** [line_of] keeps a lone carriage return, which [trim] drops. *)
Lemma line_of_cut segment :
  line_of segment = (cut segment).1 \/ line_of segment = (cut segment).1 ++ [13%N].
Proof.
  unfold line_of, cut. destruct (strip_last 10 segment) as [line|]; [left; by destruct (strip_last 13 line)|].
  destruct (strip_last 13 segment) as [t|] eqn:E; [right; by apply strip_last_Some|by left].
Qed.
Lemma trim_line_of segment x name rest : is_whitespace x = false ->
  (cut segment).1 = (x :: name) ++ 61%N :: rest ->
  trim (line_of segment) = (x :: name) ++ 61%N :: trim_end rest.
Proof.
  intros Hx E. destruct (line_of_cut segment) as [->| ->]; rewrite E; [by apply trim_assignment|].
  rewrite <-app_assoc. change ((61%N :: rest) ++ [13%N]) with (61%N :: (rest ++ [13%N])).
  rewrite trim_assignment by done. by rewrite trim_end_snoc_ws.
Qed.

(** The three managed names are plain. *)
Definition managed (k : rstr) : Prop := k ∈ MANAGED_ENV_KEYS.
Lemma managed_plain k : managed k -> exists x name, k = x :: name /\ is_whitespace x = false /\ x <> 35%N /\
  (61%N ∉ k) /\ (10%N ∉ k) /\ (13%N ∉ k) /\ existsb (str_eqb k) wanted_keys = true /\ (str_len k <= 100)%N.
Proof.
  unfold managed, MANAGED_ENV_KEYS. rewrite !elem_of_cons.
  intros [->|[->|[->|[]%not_elem_of_nil]]]; do 2 eexists; (split; [reflexivity|]);
    repeat split; try (by vm_compute); by apply contains_char_false; vm_compute.
Qed.

Lemma safe_env_ascii : ascii_only safe_env_byte.
Proof.
  intros c. unfold safe_env_byte, is_ascii_alphanumeric, is_ascii_lowercase, is_ascii_uppercase, is_ascii_digit,
    in_range, one_of. rewrite orb_true_iff. intros [H|H].
  - repeat (apply orb_true_iff in H as [H|H]); bool_simpl; lia.
  - apply existsb_exists in H as (d & Hd & ->%N.eqb_eq).
    assert (forallb (fun d => d <? 128)%N (lit ".,-_:/=<>^ ") = true) as Hall by (vm_compute; reflexivity).
    rewrite forallb_forall in Hall. by apply N.ltb_lt, Hall.
Qed.
Lemma safe_value v : forallb safe_env_byte (bytes v) = true ->
  (10%N ∉ v) /\ (13%N ∉ v) /\ unquote v = Ok v /\ str_len v = size_of v.
Proof.
  rewrite (bytes_ascii_all _ _ safe_env_ascii). intros Hs.
  assert (forall c, safe_env_byte c = false -> c ∉ v) as Hno.
  { intros c Hc Hin. rewrite Forall_forall in Hs. specialize (Hs c Hin). congruence. }
  split; [by apply Hno|]. split; [by apply Hno|]. split.
  - destruct v as [|q v]; [done|]. unfold unquote. apply Forall_cons in Hs as [Hq _].
    destruct (N.eqb_spec q 39) as [->|]; [done|]. by destruct (N.eqb_spec q 34) as [->|].
  - unfold str_len. rewrite bytes_of_ascii; [done|]. eapply Forall_impl; [exact Hs|]. apply safe_env_ascii.
Qed.

(** A managed line defines its name. *)
Lemma project_managed m segment k rest : managed k -> (cut segment).1 = k ++ 61%N :: rest ->
  (str_len (line_of segment) <= 16384)%N ->
  project_line m segment = (fail_if (is_some (m !! k)) EnvDuplicate;; value ← unquote (trim_end rest);
                            Ok (<[k := value]> m)).
Proof.
  intros Hk Hc Hlen. destruct (managed_plain k Hk) as (x & name & -> & Hx & Hh & Heq & _ & _ & Hw & _).
  unfold project_line. apply N.ltb_ge in Hlen. change (16 * 1024)%N with 16384%N. rewrite Hlen.
  cbn [fail_if mbind result_bind]. rewrite (trim_line_of segment x name rest Hx Hc).
  rewrite split_once_app by done. rewrite Hw. cbn [app is_empty orb negb].
  assert (starts_with (lit "#") (x :: name ++ 61%N :: trim_end rest) = false) as ->; [|done].
  unfold starts_with. cbn [lit strip_prefix]. change (lit "#") with [35%N]. cbn [strip_prefix].
  rewrite (proj2 (N.eqb_neq 35 x)) by done. by rewrite bool_decide_eq_false_2 by (by intros [? ?]).
Qed.

Lemma project_managed_Ok m segment k rest m1 : managed k -> (cut segment).1 = k ++ 61%N :: rest ->
  project_line m segment = Ok m1 -> m !! k = None /\ exists old, m1 = <[k := old]> m.
Proof.
  intros Hk Hc Hp. assert (str_len (line_of segment) <= 16384)%N as Hlen.
  { unfold project_line in Hp. apply bind_Ok in Hp as ([] & Hl & _). apply fail_if_Ok in Hl. by apply N.ltb_ge in Hl. }
  rewrite (project_managed m segment k rest Hk Hc Hlen) in Hp. inv_ok.
  split; [by destruct (m !! k)|by eexists].
Qed.

(** Any other line acts alike on every map that lacks the name it defines. *)
Lemma project_line_cases m segment m1 : project_line m segment = Ok m1 ->
  (m1 = m /\ forall m', project_line m' segment = Ok m') \/
  exists name value, m !! name = None /\ m1 = <[name := value]> m /\
    forall m', m' !! name = None -> project_line m' segment = Ok (<[name := value]> m').
Proof.
  unfold project_line. intros Hp. apply bind_Ok in Hp as ([] & Hlen & Hp).
  destruct (_ || _); [left; injection Hp as <-; split; [done|]; intros m'; by rewrite Hlen|].
  destruct (split_once _ _) as [[name raw]|]; [|left; injection Hp as <-; split; [done|]; intros m'; by rewrite Hlen].
  destruct (negb _); [left; injection Hp as <-; split; [done|]; intros m'; by rewrite Hlen|]. right.
  apply bind_Ok in Hp as ([] & Hdup & Hp). apply fail_if_Ok in Hdup. apply bind_Ok in Hp as (value & Hv & Hp).
  injection Hp as <-. exists name, value. split; [by destruct (m !! name)|]. split; [done|].
  intros m' Hm'. rewrite Hlen, Hm', Hv. done.
Qed.

(** ** The whole file *)

Definition fits (updates : gmap rstr rstr) : Prop := forall k v, updates !! k = Some v ->
  managed k /\ (forall c, last v = Some c -> is_whitespace c = false) /\ (str_len v <= 16000)%N.

Lemma replace_segment_cases updates out replaced segment out' replaced' :
  replace_segment updates (out, replaced) segment = Ok (out', replaced') ->
  (out' = out ++ segment /\ replaced' = replaced) \/
  exists k rest v, (cut segment).1 = k ++ 61%N :: rest /\ updates !! k = Some v /\ (k ∉ replaced) /\
    forallb safe_env_byte (bytes v) = true /\ replaced' = {[ k ]} ∪ replaced /\
    out' = out ++ k ++ 61%N :: v ++ (cut segment).2.
Proof.
  intros H.
  assert (match '(name, _) ← split_once 61 (cut segment).1; value ← updates !! name; Some (name, value) with
    | Some (name, value) =>
        fail_if (bool_decide (name ∈ replaced)) EnvDuplicate;;
        fail_if (negb (forallb safe_env_byte (bytes value))) EnvUnsafeValue;;
        Ok (out ++ name ++ [61%N] ++ value ++ (cut segment).2, {[ name ]} ∪ replaced)
    | None => Ok (out ++ segment, replaced)
    end = Ok (out', replaced')) as E.
  { rewrite <-H. unfold replace_segment, cut. destruct (strip_last 10 segment); by destruct (strip_last 13 _). }
  destruct (split_once 61 (cut segment).1) as [[k rest]|] eqn:Es; [|left; by injection E as <- <-].
  apply split_once_Some in Es as [Es _]. cbn [mbind option_bind] in E.
  destruct (updates !! k) as [v|] eqn:Ev; [|left; by injection E as <- <-].
  right. cbn [mbind option_bind] in E. inv_ok. bool_simpl. exists k, rest, v. by split_and!.
Qed.

(** The map read so far from the new lines, given the one from the old lines
    and the names replaced among them. *)
Definition overlay (updates m : gmap rstr rstr) (replaced : gset rstr) (m' : gmap rstr rstr) : Prop :=
  (forall k, k ∈ replaced -> is_Some (m !! k) /\ is_Some (updates !! k)) /\
  (forall k, k ∈ replaced -> m' !! k = updates !! k) /\ (forall k, k ∉ replaced -> m' !! k = m !! k).

Lemma overlay_insert updates m replaced m' k v w : overlay updates m replaced m' -> m !! k = None ->
  updates !! k = Some w ->
  overlay updates (<[k := v]> m) ({[ k ]} ∪ replaced) (<[k := w]> m').
Proof.
  intros (H1 & H2 & H3) Hk Hw. split_and!; intros i.
  - rewrite elem_of_union, elem_of_singleton. intros [->|Hi]; [by rewrite lookup_insert_eq; eauto|].
    destruct (decide (i = k)) as [->|]; [by rewrite lookup_insert_eq; eauto|]. rewrite lookup_insert_ne by done. auto.
  - rewrite elem_of_union, elem_of_singleton. destruct (decide (i = k)) as [->|Hne]; [by rewrite lookup_insert_eq|].
    rewrite lookup_insert_ne by done. naive_solver.
  - rewrite not_elem_of_union, not_elem_of_singleton. intros [Hne Hi]. rewrite !lookup_insert_ne by done. auto.
Qed.
Lemma overlay_keep updates m replaced m' k v : overlay updates m replaced m' -> m !! k = None ->
  m' !! k = None /\ overlay updates (<[k := v]> m) replaced (<[k := v]> m').
Proof.
  intros (H1 & H2 & H3) Hk.
  assert (k ∉ replaced) as Hn by (intros Hin; destruct (H1 k Hin) as [[? E] _]; congruence).
  split; [by rewrite H3|]. split_and!; intros i Hi; (destruct (decide (i = k)) as [->|Hne];
    [try done; by rewrite ?lookup_insert_eq|rewrite !lookup_insert_ne by done; auto]).
Qed.

(** A rewritten line is a line: it ends as the old one did. *)
Lemma rewritten_segment updates k v segment : fits updates -> updates !! k = Some v ->
  forallb safe_env_byte (bytes v) = true ->
  let segment' := k ++ 61%N :: v ++ (cut segment).2 in
  cut segment' = (k ++ 61%N :: v, (cut segment).2) /\
  forall m, m !! k = None -> project_line m segment' = Ok (<[k := v]> m).
Proof.
  intros Hf Hk Hs. cbn zeta. destruct (Hf k v Hk) as (Hm & Hlast & Hlen).
  destruct (safe_value v Hs) as (H10 & H13 & Hu & _).
  destruct (managed_plain k Hm) as (x & name & Ek & Hx & _ & _ & Hk10 & Hk13 & _ & Hklen).
  assert (cut (k ++ 61%N :: v ++ (cut segment).2) = (k ++ 61%N :: v, (cut segment).2)) as Hcut.
  { change (k ++ 61%N :: v ++ ?e) with (k ++ (61%N :: v) ++ e). rewrite app_assoc.
    apply cut_line; [| |apply cut_ending]; rewrite elem_of_app, elem_of_cons; naive_solver. }
  split; [done|]. intros m Hnone. rewrite (project_managed m _ k v Hm).
  - rewrite Hnone, (trim_end_id v Hlast), Hu. done.
  - by rewrite Hcut.
  - destruct (line_of_cut (k ++ 61%N :: v ++ (cut segment).2)) as [->| ->]; rewrite Hcut; cbn [fst];
      change (k ++ 61%N :: v) with (k ++ [61%N] ++ v); rewrite !str_len_app;
      change (str_len [61%N]) with 1%N; change (str_len [13%N]) with 1%N; lia.
Qed.

Lemma rewritten_segmented k v segment rest : 10%N ∉ k -> 10%N ∉ v ->
  segmented 10 (segment :: rest) ->
  segmented 10 [k ++ 61%N :: v ++ (cut segment).2] /\
  (rest <> [] -> exists body, (10%N ∉ body) /\ k ++ 61%N :: v ++ (cut segment).2 = body ++ [10%N]).
Proof.
  intros Hk Hv [(body & Hb & Hs) _].
  assert (forall e, (10%N ∉ e) -> 10%N ∉ k ++ 61%N :: v ++ e) as Hno.
  { intros e He. rewrite elem_of_app, elem_of_cons, elem_of_app. naive_solver. }
  assert (forall e, (10%N ∉ e) -> exists b, (10%N ∉ b) /\ k ++ 61%N :: v ++ e ++ [10%N] = b ++ [10%N]) as Hend.
  { intros e He. exists (k ++ 61%N :: v ++ e). split; [by apply Hno|]. rewrite <-app_assoc. cbn [app].
    by rewrite <-app_assoc. }
  assert ((exists e, (10%N ∉ e) /\ (cut segment).2 = e ++ [10%N]) \/ (rest = [] /\ (10%N ∉ (cut segment).2)))
    as [(e & He & ->)|[-> He]].
  { destruct Hs as [->|(-> & -> & _)].
    - left. unfold cut. rewrite (proj2 (strip_last_Some 10 (body ++ [10%N]) body) eq_refl).
      destruct (strip_last 13 body); [exists [13%N]|exists []]; split; try done;
        rewrite ?list_elem_of_singleton; try done; apply not_elem_of_nil.
    - right. split; [done|]. intros Hin. apply Hb. rewrite <-(cut_app body). apply elem_of_app. by right. }
  - destruct (Hend e He) as (b & Hb' & E). split; [|intros _; by exists b].
    split; [|done]. exists b. split; [done|by left].
  - split; [|done]. split; [|done]. eexists. split; [by apply Hno|]. right. split; [done|]. split; [done|].
    by destruct k.
Qed.

Lemma segmented_cons d s rest rest' : segmented d (s :: rest) -> segmented d rest' ->
  (rest = [] -> rest' = []) -> segmented d (s :: rest').
Proof.
  intros [(body & Hb & Hs) _] Hr Hn. split; [|done]. exists body. split; [done|].
  destruct Hs as [->|(E & -> & ?)]; [by left|right]. by split_and!; [apply Hn|..].
Qed.
Lemma segmented_replace d s rest s' rest' : segmented d [s'] ->
  (rest <> [] -> exists body, (d ∉ body) /\ s' = body ++ [d]) ->
  segmented d rest' -> (rest = [] -> rest' = []) -> segmented d (s :: rest) -> segmented d (s' :: rest').
Proof.
  intros [H1 _] H2 Hr Hn _. split; [|done]. destruct rest as [|r rest].
  - destruct H1 as (body & Hb & Hs). exists body. split; [done|].
    destruct Hs as [->|(_ & -> & ?)]; [by left|right]. by split_and!; [apply Hn|..].
  - destruct (H2 ltac:(done)) as (body & Hb & ->). exists body. by split; [|left].
Qed.

Lemma replace_loop updates (Hf : fits updates) segments : forall out replaced m m' out' replaced' final,
  segmented 10 segments -> overlay updates m replaced m' ->
  for_fold (replace_segment updates) (out, replaced) segments = Ok (out', replaced') ->
  for_fold project_line m segments = Ok final ->
  exists segments' final', out' = out ++ mjoin segments' /\ segmented 10 segments' /\
    (segments = [] -> segments' = []) /\
    for_fold project_line m' segments' = Ok final' /\ overlay updates final replaced' final'.
Proof.
  induction segments as [|s segments IH]; intros out replaced m m' out' replaced' final Hseg Hov; cbn [for_fold].
  { intros [= <- <-] [= <-]. exists [], m'. rewrite app_nil_r. by split_and!. }
  intros ([out1 replaced1] & Hs & Hrest)%bind_Ok (m1 & Hp & Hproj)%bind_Ok.
  assert (segmented 10 segments) as Hseg' by apply Hseg.
  apply replace_segment_cases in Hs as [[-> ->]|(k & rest & v & Hcut & Hk & Hnew & Hsafe & -> & ->)].
  - assert (exists m1', project_line m' s = Ok m1' /\ overlay updates m1 replaced m1') as (m1' & Hp' & Hov1).
    { destruct (project_line_cases m s m1 Hp) as [[-> Hany]|(name & value & Hnone & -> & Hany)]; [by eauto|].
      destruct (overlay_keep updates m replaced m' name value Hov Hnone) as [Hnone' ?]. eauto. }
    destruct (IH _ _ _ _ _ _ _ Hseg' Hov1 Hrest Hproj) as (segs & final' & -> & Hsegs & Hnil & Hloop & ?).
    exists (s :: segs), final'. cbn [for_fold]. rewrite Hp'. split_and!; [|by eapply segmented_cons|done|done|done].
    change (mjoin (s :: segs)) with (s ++ mjoin segs). by rewrite app_assoc.
  - destruct (Hf k v Hk) as (Hm & _). destruct (managed_plain k Hm) as (x & name & Ek & Hx & _ & _ & H10 & _).
    destruct (rewritten_segment updates k v s Hf Hk Hsafe) as [_ Hline].
    destruct (project_managed_Ok m s k rest m1 Hm Hcut Hp) as [Hnone [old ->]].
    assert (m' !! k = None) as Hnone' by (destruct Hov as (_ & _ & H3); by rewrite H3).
    pose proof (overlay_insert updates m replaced m' k old v Hov Hnone Hk) as Hov1.
    destruct (IH _ _ _ _ _ _ _ Hseg' Hov1 Hrest Hproj) as (segs & final' & -> & Hsegs & Hnil & Hloop & ?).
    destruct (rewritten_segmented k v s segments H10 (proj1 (safe_value v Hsafe)) Hseg) as [Hr1 Hr2].
    exists ((k ++ 61%N :: v ++ (cut s).2) :: segs), final'. cbn [for_fold]. rewrite (Hline m' Hnone').
    split_and!; [|by eapply segmented_replace|done|done|done].
    rewrite <-app_assoc. done.
Qed.

(** Reading back the file that was written: the managed names have their new
    values, every other name the value it had. *)
Lemma environment_reads_back updates original text values : fits updates ->
  replace_environment_values original updates = Ok text -> project_environment original = Ok values ->
  exists values', project_environment text = Ok values' /\
    (forall k v, updates !! k = Some v -> values' !! k = Some v) /\
    (forall k, updates !! k = None -> values' !! k = values !! k).
Proof.
  intros Hf Hr Hp. unfold replace_environment_values in Hr. apply bind_Ok in Hr as ([out replaced] & Hloop & Hr).
  inv_ok. bool_simpl. rename text into out. unfold project_environment in *.
  destruct (split_inclusive_segmented 10 original) as [Hseg _].
  destruct (replace_loop updates Hf (split_inclusive 10 original) [] ∅ ∅ ∅ out replaced values Hseg)
    as (segs & final' & -> & Hsegs & _ & Hl & (H1 & H2 & H3)); [|done|done|].
  { split_and!; intros k Hk; try done; exfalso; set_solver. }
  cbn [app]. rewrite split_inclusive_join by done. exists final'. split; [done|]. split.
  - intros k v Hk. rewrite H2; [done|]. by apply (elem_of_weaken k (dom updates)); [apply elem_of_dom_2 with v|].
  - intros k Hk. apply H3. intros Hin. destruct (H1 k Hin) as [_ [? E]]. congruence.
Qed.

(** ** The composition fits the file *)

Definition plain (v : rstr) : Prop := Forall (fun c => is_whitespace c = false) v.

Lemma official_id id o : valid_plugin_id id = true -> find_official_dlc id = Some o -> od_id o = id.
Proof.
  intros Hid Ho.
  assert (normalize_name id = id) as Hn.
  { apply valid_plugin_id_iff in Hid as (_ & labels & -> & _ & Hl).
    assert (Forall (fun c => (if (ascii_lower c =? 95)%N then 45%N else ascii_lower c) = c) (join [46%N] labels)) as Hf.
    { assert (forall c, label_char c = true ->
        (if (ascii_lower c =? 95)%N then 45%N else ascii_lower c) = c) as Hc.
      { intros c. unfold label_char, ascii_lower, is_ascii_lowercase, is_ascii_uppercase, is_ascii_digit, in_range.
        intros Hc. destruct (_ && _)%bool eqn:E in |- *.
        - bool_simpl. repeat (apply orb_true_iff in Hc as [Hc|Hc]); bool_simpl; lia.
        - destruct (N.eqb_spec c 95) as [->|]; [done|done]. }
      clear -Hl Hc. induction Hl as [|l labels Hl' _ IH]; [constructor|]. destruct Hl' as (_ & Hl' & _).
      assert (Forall (fun c => (if (ascii_lower c =? 95)%N then 45%N else ascii_lower c) = c) l) as Hfl
        by (eapply Forall_impl; [exact Hl'|exact Hc]).
      destruct labels as [|m labels]; [exact Hfl|].
      change (join [46%N] (l :: m :: labels)) with (l ++ [46%N] ++ join [46%N] (m :: labels)).
      rewrite !Forall_app. split_and!; [done|by repeat constructor|done]. }
    unfold normalize_name, to_ascii_lowercase. rewrite <-list_fmap_compose.
    clear -Hf. revert Hf. generalize (join [46%N] labels). intros s Hs. induction Hs as [|c s E _ IH]; [done|].
    cbn. f_equal; [exact E|exact IH]. }
  unfold find_official_dlc in Ho. rewrite Hn in Ho. apply find_Some in Ho as [Hin Ho].
  assert (forallb (fun o => negb (valid_plugin_id (od_alias o))) OFFICIAL_DLCS = true) as Ha by (vm_compute; reflexivity).
  rewrite forallb_forall in Ha. specialize (Ha o (proj1 (list_elem_of_In _ _) Hin)).
  repeat (apply orb_true_iff in Ho as [Ho|Ho]); try apply andb_true_iff in Ho as [_ Ho]; apply str_eqb_eq in Ho.
  - done.
  - by rewrite Ho, Hid in Ha.
  - by rewrite Ho in Hid.
  - by rewrite Ho in Hid.
Qed.

Lemma catalog_plain o : o ∈ OFFICIAL_DLCS ->
  (plain (od_id o) /\ (str_len (od_id o) <= 60)%N) /\
  (plain (od_runtime_feature o) /\ (str_len (od_runtime_feature o) <= 60)%N).
Proof.
  intros Hin. assert (forallb (fun o => forallb (fun v => forallb (fun c => negb (is_whitespace c)) v
    && (str_len v <=? 60)%N) [od_id o; od_runtime_feature o]) OFFICIAL_DLCS = true) as H by (vm_compute; reflexivity).
  rewrite forallb_forall in H. specialize (H o (proj1 (list_elem_of_In _ _) Hin)). cbn [forallb] in H. bool_simpl.
  assert (forall v, forallb (fun c => negb (is_whitespace c)) v = true -> plain v) as Hp.
  { intros v Hv. apply forallb_Forall in Hv. eapply Forall_impl; [exact Hv|]. cbn. intros c. apply negb_true_iff. }
  repeat split; auto.
Qed.

Lemma join_plain l : Forall (fun v => plain v /\ (str_len v <= 60)%N) l ->
  plain (join (lit ",") l) /\ (str_len (join (lit ",") l) <= 61 * size_of l)%N.
Proof.
  induction 1 as [|v l [Hp Hlen] Hl [IHp IHl]]; [split; [constructor|done]|].
  assert (size_of (v :: l) = 1 + size_of l)%N as -> by (unfold size_of; cbn [length]; lia).
  destruct l as [|w l]; [cbn [join]; split; [done|lia]|].
  change (join (lit ",") (v :: w :: l)) with (v ++ lit "," ++ join (lit ",") (w :: l)).
  split; [apply Forall_app; split; [done|]; by apply Forall_app; split; [repeat constructor|]|].
  rewrite !str_len_app. change (str_len (lit ",")) with 1%N. lia.
Qed.
Lemma plain_last v : plain v -> forall c, last v = Some c -> is_whitespace c = false.
Proof. intros Hv c Hc. eapply Forall_forall in Hv; [exact Hv|]. by apply last_Some_elem_of. Qed.
Lemma graphic_not_whitespace c : (33 <= c < 128)%N -> is_whitespace c = false.
Proof.
  intros Hc. unfold is_whitespace.
  assert (in_range 9 13 c = false) as -> by (apply andb_false_iff; right; apply N.leb_gt; lia).
  assert (in_range 8192 8202 c = false) as -> by (apply andb_false_iff; left; apply N.leb_gt; lia).
  by rewrite !(proj2 (N.eqb_neq c _)) by lia.
Qed.
Lemma sha256_plain v : valid_sha256 v = true -> plain v /\ str_len v = 64%N.
Proof.
  unfold valid_sha256. intros H. bool_simpl. split; [|done].
  assert (ascii_only (fun b => is_ascii_hexdigit b && negb (is_ascii_uppercase b))) as Ha.
  { intros c Hc. bool_simpl. unfold is_ascii_hexdigit, is_ascii_digit, in_range in *.
    repeat match goal with X : (_ || _)%bool = true |- _ => apply orb_true_iff in X as [X|X] end; bool_simpl; lia. }
  match goal with X : forallb _ (bytes v) = true |- _ => apply (bytes_ascii_all _ _ Ha) in X; rename X into Hf end.
  eapply Forall_impl; [exact Hf|]. cbn. intros c Hc. apply graphic_not_whitespace.
  bool_simpl. unfold is_ascii_hexdigit, is_ascii_digit, in_range in *.
  repeat match goal with X : (_ || _)%bool = true |- _ => apply orb_true_iff in X as [X|X] end; bool_simpl; lia.
Qed.

(** ** What a command writes *)

Section environment.
Context `{UrlLib, SemverLib, Sha256Lib, UuidLib, ContractText, ManifestToml}.
Context (current_engine : rstr) (bundled_manifest : OfficialDlc -> rstr) (config_to_vec : PluginConfig -> list N).
Abbreviation run := (run current_engine bundled_manifest config_to_vec).

(** Every command rewrites the environment file it loaded. *)
Lemma run_environment d a r : run a d = Ok (Some r) -> exists ids features,
  enabled_composition (de_lock (rp_deployment r)) = Ok (ids, features) /\
  replace_environment_values (de_env_original d)
    (env_updates ids features (il_lock_digest (de_lock (rp_deployment r)))) = Ok (rp_env_text r).
Proof.
  intros Hr.
  assert (exists d1, de_env_original d1 = de_env_original d /\ commit bundled_manifest d1 = Ok r) as (d1 & <- & Hp).
  { destruct a; cbn [Dlc.run] in Hr;
      unfold add, set_enabled, upgrade, reconcile, remove,
        add_edit, set_enabled_edit, upgrade_edit, reconcile_edit, remove_edit in Hr; inv_ok;
      repeat match goal with
      | E : transpose_map _ ?o = Ok (Some _) |- _ =>
          apply transpose_map_Ok in E; destruct o; [destruct E as (? & ? & ?)|done]
      | E : (if ?b then _ else _) = Ok (Some _) |- _ => destruct b; [done|]
      | E : (let '(_, _) := ?p in _) = Ok _ |- _ => destruct p
      | _ => progress inv_ok
      end; (eexists; split; [|eassumption]); reflexivity. }
  unfold commit, persist in Hp. inv_ok.
  match goal with p : rstr * rstr |- _ => destruct p as [ids features] end. inv_ok. by exists ids, features.
Qed.

Lemma catalog_bound (l : list rstr) : NoDup l -> l ⊆ od_id <$> OFFICIAL_DLCS -> (size_of l <= 11)%N.
Proof.
  intros Hnd Hsub. apply NoDup_submseteq, submseteq_length in Hsub; [|done].
  rewrite length_fmap in Hsub. change (length OFFICIAL_DLCS) with 11 in Hsub. unfold size_of. lia.
Qed.

(** The names of the enabled modules fit one line, without white space. *)
Lemma composition_plain l ids features : InstallationLock_validate l = Ok tt ->
  enabled_composition l = Ok (ids, features) ->
  (plain ids /\ (str_len ids <= 16000)%N) /\ (plain features /\ (str_len features <= 16000)%N).
Proof.
  intros (ev & _ & Hd & Hs & _)%InstallationLock_validate_sound. unfold enabled_composition.
  intros (officials & Ht & [= <- <-])%bind_Ok. apply traverse_Ok in Ht.
  assert (Forall (fun p => p.1 = od_id p.2 /\ p.2 ∈ OFFICIAL_DLCS) officials) as Hall.
  { apply Forall_forall. intros p (k & Hk)%list_elem_of_lookup.
    destruct (Forall2_lookup_r _ _ _ _ _ Ht Hk) as (d & Hdk & E). inv_ok.
    apply list_elem_of_lookup_2, elem_of_filter_bool in Hdk as [Hin _].
    rewrite Forall_forall in Hd. apply Hd, InstalledDlc_validate_sound in Hin as [Hid _].
    cbn. split; [by symmetry; apply official_id|by eapply find_official_in]. }
  assert (fst <$> officials = id_id <$> List.filter id_enabled (il_dlcs l)) as Hids.
  { clear -Ht. induction Ht as [|d p ds ps E _ IH]; [done|]. inv_ok. cbn. by rewrite IH. }
  assert (size_of officials <= 11)%N as Hn.
  { assert (size_of officials = size_of (fst <$> officials)) as -> by (unfold size_of; by rewrite length_fmap).
    apply catalog_bound.
    - rewrite Hids. apply strongly_sorted_NoDup in Hs. revert Hs. generalize (il_dlcs l). clear.
      induction l as [|d l IH]; [by constructor|]. cbn [fmap list_fmap List.filter]. rewrite NoDup_cons.
      intros [Hd Hnd]. destruct (id_enabled d); [|by apply IH]. cbn. constructor; [|by apply IH].
      intros (e & E & [He _]%elem_of_filter_bool)%list_elem_of_fmap. apply Hd, list_elem_of_fmap. by exists e.
    - intros v (p & -> & Hp)%list_elem_of_fmap. rewrite Forall_forall in Hall.
      destruct (Hall p Hp) as [-> Hin]. by apply list_elem_of_fmap_2. }
  assert (forall f : rstr * OfficialDlc -> rstr,
    (forall p, p.1 = od_id p.2 -> p.2 ∈ OFFICIAL_DLCS -> plain (f p) /\ (str_len (f p) <= 60)%N) ->
    plain (join (lit ",") (f <$> officials)) /\ (str_len (join (lit ",") (f <$> officials)) <= 16000)%N) as Hj.
  { intros f Hf. destruct (join_plain (f <$> officials)) as [? Hlen].
    - apply Forall_fmap. eapply Forall_impl; [exact Hall|]. intros p [E Hin]. by apply Hf.
    - split; [done|]. unfold size_of in *. rewrite length_fmap in Hlen. lia. }
  split; [apply Hj; intros p -> Hin; by apply catalog_plain|].
  destruct (is_empty_list _); [split; [repeat constructor|by vm_compute]|].
  apply (Hj (fun p => od_runtime_feature p.2)). intros p _ Hin. by apply catalog_plain.
Qed.

Lemma env_updates_lookup ids features digest k v : env_updates ids features digest !! k = Some v <->
  (k, v) ∈ [(lit "OSB_DLC_IDS", ids); (lit "OSB_FEATURES", features); (lit "OSB_INSTALL_LOCK_DIGEST", digest)].
Proof.
  assert (forall l : list (rstr * rstr), NoDup l.*1 -> (list_to_map l : gmap rstr rstr) !! k = Some v <-> (k, v) ∈ l) as H'
    by (intros l Hl; symmetry; by apply elem_of_list_to_map).
  rewrite <-H'; [|apply (bool_decide_unpack _); vm_compute; exact I]. reflexivity.
Qed.
Lemma updates_fit l ids features : InstallationLock_validate l = Ok tt ->
  enabled_composition l = Ok (ids, features) -> fits (env_updates ids features (il_lock_digest l)).
Proof.
  intros Hl Hc k v Hk. destruct (composition_plain l ids features Hl Hc) as [[Hi Hil] [Hf Hfl]].
  destruct (sha256_plain (il_lock_digest l)) as [Hd Hdl].
  { unfold InstallationLock_validate, invalid_if in Hl. inv_ok. by bool_simpl. }
  apply env_updates_lookup in Hk. rewrite !elem_of_cons in Hk.
  destruct Hk as [[= -> ->]|[[= -> ->]|[[= -> ->]|[]%not_elem_of_nil]]];
    (split; [unfold managed, MANAGED_ENV_KEYS; rewrite !elem_of_cons; auto|split; [by apply plain_last|lia]]).
Qed.

(** C40. The environment file follows the lock: when a command replaces the
    three files, the new [.env] parses, passes the projection check of the new
    lock that every later command and the server start with, and gives every
    other projected setting the value it had. *)
Theorem persisted_environment_matches_lock (d : Deployment) a r values
    (Hv : verified bundled_manifest d) (Hr : run a d = Ok (Some r))
    (Hp : project_environment (de_env_original d) = Ok values) :
  exists values', project_environment (rp_env_text r) = Ok values' /\
    verify_environment_projection (de_lock (rp_deployment r)) values' = Ok tt /\
    forall k, k ∉ MANAGED_ENV_KEYS -> values' !! k = values !! k.
Proof.
  destruct (run_edits current_engine bundled_manifest config_to_vec d Hv a r Hr) as (_ & _ & Hver).
  destruct (run_environment d a r Hr) as (ids & features & Hc & Ht).
  pose proof (po_lock _ _ _ (verify_pair_ok _ _ _ (proj1 Hver))) as Hl.
  pose proof (updates_fit _ ids features Hl Hc) as Hfit.
  destruct (environment_reads_back _ _ _ values Hfit Ht Hp) as (values' & Hp' & Hnew & Hold).
  exists values'. split; [done|]. split.
  - unfold verify_environment_projection. rewrite Hc. cbn [mbind result_bind].
    apply for_each_Ok, Forall_forall. intros [k v] Hk. apply env_updates_lookup, Hnew in Hk. rewrite Hk. cbn.
    by rewrite (proj2 (str_eqb_eq _ _) eq_refl).
  - intros k Hk. apply Hold. destruct (env_updates _ _ _ !! k) as [v|] eqn:E; [|done].
    by destruct (Hfit k v E).
Qed.
End environment.
