(* ===== verification/PluginWitnesses.v ===== *)
(** * The plugin and installation theorems at concrete inputs *)

From Stdlib Require Import Bool NArith ZArith Lia.
From stdpp Require Import countable.
From S2P Require Import Prelude Text Extern Manifest InstallLock.
Import Toy.

(** A plugin that runs an executable of its package and asks for one host. *)
Definition sample_manifest : PluginManifest := {|
  pm_schema_uri := None; pm_manifest_version := 1; pm_id := lit "org.example.seo"; pm_name := lit "SEO";
  pm_version := lit "1.0.0"; pm_license := lit "MIT";
  pm_provenance := {| pp_origin := Original; pp_generated := false; pp_generator := None;
                      pp_source_materials := []; pp_notice_files := [lit "docs/NOTICE"];
                      pp_attestation := None |};
  pm_plugin_api := lit "1"; pm_kinds := [KindSeo];
  pm_runtime := JsonRpcStdio (lit "jsonrpc-stdio@1") (lit "bin/run") [] (toy_hex [1%N]);
  pm_permissions := [{| pq_capability := NetworkConnect; pq_scope := None;
                        pq_resources := Some [lit "https://api.example"]; pq_reason := None |};
                     {| pq_capability := ContentRead; pq_scope := Some ScopePublished;
                        pq_resources := None; pq_reason := None |}];
  pm_description := None; pm_core_compatibility := Some (lit "1.0.0"); pm_authors := [];
  pm_homepage := None; pm_repository := None; pm_config := None; pm_hooks := []; pm_routes := [];
  pm_render_slots := [];
  pm_ui := Some {| ui_sandbox := Iframe; ui_entrypoint := lit "./ui/index.html"; ui_sha256 := toy_hex [2%N];
                   ui_panels := [] |};
  pm_state := None; pm_migrations := []; pm_dependencies := []; pm_limits := None; pm_metadata := ∅ |}.

Lemma accepted_manifest_stays_in_its_package_witness :
  PluginManifest_validate sample_manifest = Ok tt /\ Forall stays_inside (package_paths sample_manifest).
Proof.
  assert (PluginManifest_validate sample_manifest = Ok tt) as V by (vm_compute; reflexivity).
  exact (conj V (accepted_manifest_stays_in_its_package sample_manifest V)).
Defined.
Lemma accepted_permissions_are_exact_witness :
  PluginManifest_validate sample_manifest = Ok tt /\
  NoDup (pm_permissions sample_manifest) /\ Forall exact_resource [lit "https://api.example"].
Proof.
  assert (PluginManifest_validate sample_manifest = Ok tt) as V by (vm_compute; reflexivity).
  destruct (accepted_permissions_are_exact sample_manifest V) as [Hn Hp].
  split; [exact V|]. split; [exact Hn|].
  exact (proj2 (proj2 (proj2 (Hp _ (list_elem_of_here _ _)) _ eq_refl))).
Defined.

(** JSON texts as the tokens of the value's tree in postfix order. *)
Definition write_token (t : nat * nat + (rstr + bool)) : list N :=
  match t with
  | inl (n, m) => [0%N; N.of_nat n; N.of_nat m]
  | inr (inl s) => 1%N :: size_of s :: s
  | inr (inr b) => [2%N; if b then 1%N else 0%N]
  end.
Fixpoint read_tokens (fuel : nat) (l : list N) : list (nat * nat + (rstr + bool)) :=
  match fuel, l with
  | S fuel, 0%N :: n :: m :: l => inl (N.to_nat n, N.to_nat m) :: read_tokens fuel l
  | S fuel, 1%N :: n :: l =>
      inr (inl (take (N.to_nat n) l)) :: read_tokens fuel (drop (N.to_nat n) l)
  | S fuel, 2%N :: b :: l => inr (inr (b =? 1)%N) :: read_tokens fuel l
  | _, _ => []
  end.
Definition toy_write (v : Value) : list N := mjoin (write_token <$> gen_tree_to_list (value_tree v)).
Definition toy_read (l : list N) : option Value := tree_value <$> gen_tree_of_list [] (read_tokens (length l) l).

Lemma read_write_tokens ts : forall fuel, length ts <= fuel ->
  read_tokens fuel (mjoin (write_token <$> ts)) = ts.
Proof.
  induction ts as [|t ts IH]; intros [|fuel] Hf; cbn in Hf; [done..|lia|].
  change (mjoin (write_token <$> t :: ts)) with (write_token t ++ mjoin (write_token <$> ts)). destruct t as [[n m]|[s|b]]; cbn.
  - by rewrite !Nat2N.id, IH by lia.
  - unfold size_of. by rewrite !Nat2N.id, take_app_length, drop_app_length, IH by lia.
  - destruct b; by rewrite IH by lia.
Qed.
Lemma length_write ts : length ts <= length (mjoin (write_token <$> ts)).
Proof.
  induction ts as [|t ts IH]; [done|]. change (mjoin (write_token <$> t :: ts)) with (write_token t ++ mjoin (write_token <$> ts)). rewrite length_app.
  destruct t as [[]|[]]; cbn [write_token length]; lia.
Qed.
Lemma toy_read_write v : toy_read (toy_write v) = Some v.
Proof.
  unfold toy_read, toy_write. rewrite read_write_tokens by apply length_write.
  rewrite <-(app_nil_r (gen_tree_to_list _)), gen_tree_of_to_list. cbn. by rewrite tree_value_tree.
Qed.

Definition toy_parse_json (s : rstr) : result rstr Value :=
  match toy_read (removelast s) with Some v => Ok v | None => Err (lit "not a document") end.
#[export] Instance toy_contract : ContractText := {
  json_to_vec := toy_write;
  json_to_string_pretty := toy_write;
  json_parse := toy_parse_json;
  json_mismatch _ := lit "mismatch";
  toml_intent _ := Err (lit "no toml");
  toml_to_string_pretty _ := Err (lit "no toml");
}.
Lemma toy_written_apart : locks_are_written_apart.
Proof.
  intros a b _ _ v E. apply (inj Some). rewrite <-(toy_read_write (v a)), <-(toy_read_write (v b)).
  unfold json_to_vec, toy_contract in E. by rewrite E.
Qed.
Lemma toy_parses k : json_parse (json_to_string_pretty (lock_serialize k) ++ [10%N]) = Ok (lock_serialize k).
Proof.
  unfold json_parse, json_to_string_pretty, toy_contract, toy_parse_json.
  by rewrite removelast_last, toy_read_write.
Qed.

Definition sample_dlc : InstalledDlc := {|
  id_id := lit "org.example.seo"; id_requested_version := lit "1.0.0"; id_version := lit "1.1.0";
  id_core_compatibility := lit "1.0.0"; id_manifest_version := 1; id_plugin_api := lit "1";
  id_source_kind := SourceFile; id_source := lit "dlc/seo.tar"; id_manifest_sha256 := toy_hex [1%N];
  id_artifact_sha256 := Some (toy_hex [2%N]); id_enabled := true;
  id_approved_capabilities := [lit "content.read"]; id_config_sha256 := None; id_state_version := Some 1%N;
  id_applied_migrations := [lit "first"] |}.
Definition sample_history : list DlcHistoryRecord := [
  {| hi_sequence := 1; hi_action := Installed; hi_dlc_id := lit "org.example.seo"; hi_from_version := None;
     hi_to_version := Some (lit "1.0.0"); hi_engine_version := lit "1.0.0" |};
  {| hi_sequence := 2; hi_action := Upgraded; hi_dlc_id := lit "org.example.seo";
     hi_from_version := Some (lit "1.0.0"); hi_to_version := Some (lit "1.1.0");
     hi_engine_version := lit "1.0.0" |}].
Definition sample_lock : InstallationLock := refresh_digest {|
  il_schema_version := INSTALL_LOCK_SCHEMA_VERSION; il_installation_id := lit "7";
  il_engine := {| le_version := lit "1.0.0"; le_config_schema_version := lit "1";
                  le_database_schema_version := 9; le_plugin_api := lit "1"; le_source := lit "release";
                  le_artifact_sha256 := None |};
  il_selection := {| se_admin_auth := AccessKey;
                     se_style := {| st_kind := StyleNone; st_id := None; st_file := None; st_sha256 := None |};
                     se_cache := CacheOff |};
  il_dlcs := [sample_dlc];
  il_retained_dlcs := [{| re_id := lit "org.example.ads"; re_removed_version := lit "1.0.0";
                          re_state_version := None; re_applied_migrations := [] |}];
  il_history := sample_history; il_lock_digest := [] |}.

Lemma sample_lock_valid : InstallationLock_validate sample_lock = Ok tt.
Proof. vm_compute. reflexivity. Qed.
Lemma sample_lock_widths : lock_widths sample_lock.
Proof. repeat split; repeat constructor; cbn; discriminate. Qed.

Lemma lock_digest_covers_every_field_witness :
  sample_lock = sample_lock \/ exists x y : list N, x <> y /\ toy_hex x = toy_hex y.
Proof.
  exact (lock_digest_covers_every_field sample_lock sample_lock toy_written_apart sample_lock_widths
           sample_lock_widths sample_lock_valid sample_lock_valid eq_refl).
Defined.
Lemma lock_file_round_trips_witness :
  exists text, to_pretty_json sample_lock = Ok text /\ InstallationLock_from_json text = Ok sample_lock.
Proof.
  assert (to_pretty_json sample_lock = Ok (json_to_string_pretty (lock_serialize sample_lock) ++ [10%N])) as T.
  { unfold to_pretty_json. rewrite sample_lock_valid. reflexivity. }
  eexists. split; [exact T|].
  exact (lock_file_round_trips sample_lock _ toy_parses sample_lock_widths T).
Defined.
Lemma accepted_lock_is_consistent_witness :
  InstallationLock_validate sample_lock = Ok tt /\
  NoDup [lit "org.example.seo"; lit "org.example.ads"].
Proof.
  exact (conj sample_lock_valid (proj1 (accepted_lock_is_consistent sample_lock sample_lock_valid))).
Defined.

(** An accepted upgrade to 1.2.0 and a refused one to 0.9.0. *)
Definition upgraded : InstallationLock :=
  refresh_digest (set_engine (lit "1.2.0") (lit "release") None sample_lock).
Lemma upgrade_runs :
  record_engine_upgrade sample_lock (lit "1.0.0") (lit "1.2.0") (lit "release") None = (Ok tt, upgraded).
Proof. vm_compute. reflexivity. Qed.
Lemma engine_upgrade_goes_forward_witness :
  InstallationLock_validate upgraded = Ok tt /\ le_version (il_engine upgraded) = lit "1.2.0" /\
  is_err (record_engine_upgrade sample_lock (lit "1.0.0") (lit "0.9.0") (lit "release") None).1 = true.
Proof.
  destruct (engine_upgrade_goes_forward sample_lock upgraded _ _ _ _ _ upgrade_runs) as (_ & V & _ & T & _).
  split; [exact V|]. split; [exact T|]. vm_compute. reflexivity.
Defined.
