(* ===== verification/DlcWitnesses.v ===== *)
(** * The DLC lifecycle theorems at concrete inputs

    A catalog whose manifests are the sample plugin under each identifier, the
    [ads] module requiring the [seo] module, and an installation of both. *)

From Stdlib Require Import Bool NArith ZArith Lia.
From S2P Require Import Prelude Text Extern Manifest InstallLock Dlc DlcTheorems DlcEnvironment PluginWitnesses.
Import Toy.

Definition seo : rstr := lit "org.open-soverign-blog.seo".
Definition ads : rstr := lit "org.open-soverign-blog.monetization-policy".
Definition catalog_manifest (id : rstr) : PluginManifest := {|
  pm_schema_uri := None; pm_manifest_version := 1; pm_id := id; pm_name := lit "Module";
  pm_version := lit "1.1.0"; pm_license := lit "MIT"; pm_provenance := pm_provenance sample_manifest;
  pm_plugin_api := lit "1"; pm_kinds := [KindSeo]; pm_runtime := pm_runtime sample_manifest;
  pm_permissions := pm_permissions sample_manifest; pm_description := None;
  pm_core_compatibility := Some (lit "1.0.0"); pm_authors := []; pm_homepage := None; pm_repository := None;
  pm_config := None; pm_hooks := []; pm_routes := []; pm_render_slots := []; pm_ui := None; pm_state := None;
  pm_migrations := [];
  pm_dependencies := if str_eqb id ads then [{| pd_id := seo; pd_version := lit "1.0.0"; pd_optional := false |}]
                     else [];
  pm_limits := None; pm_metadata := ∅ |}.
#[local] Instance catalog_toml : ManifestToml := fun text => Ok (catalog_manifest text).
#[local] Instance catalog_contract : ContractText := {
  json_to_vec := toy_write; json_to_string_pretty := toy_write; json_parse := toy_parse_json;
  json_mismatch _ := lit "mismatch"; toml_intent _ := Err (lit "no toml");
  toml_to_string_pretty _ := Ok (lit "intent") }.

Abbreviation bundled := od_id.
Abbreviation no_config := (fun _ : PluginConfig => []).
Abbreviation run := (run (lit "1.0.0") bundled no_config).

Definition module_record (id source : rstr) (migrations : list rstr) : InstalledDlc := {|
  id_id := id; id_requested_version := lit "1.0.0"; id_version := lit "1.1.0";
  id_core_compatibility := lit "1.0.0"; id_manifest_version := 1; id_plugin_api := lit "1";
  id_source_kind := Bundled; id_source := source; id_manifest_sha256 := toy_hex (bytes id);
  id_artifact_sha256 := None; id_enabled := true;
  id_approved_capabilities := [lit "content.read"; lit "network.connect"]; id_config_sha256 := None;
  id_state_version := Some 1%N; id_applied_migrations := migrations |}.
Definition site_lock : InstallationLock := refresh_digest {|
  il_schema_version := INSTALL_LOCK_SCHEMA_VERSION; il_installation_id := lit "7";
  il_engine := {| le_version := lit "1.0.0"; le_config_schema_version := CONFIG_SCHEMA;
                  le_database_schema_version := 9; le_plugin_api := lit "1"; le_source := lit "release";
                  le_artifact_sha256 := None |};
  il_selection := il_selection sample_lock;
  il_dlcs := [module_record ads (lit "plugins/official/ads/plugin.toml") [lit "org.example.first"];
              module_record seo (lit "plugins/official/seo/plugin.toml") []];
  il_retained_dlcs := []; il_history := []; il_lock_digest := [] |}.
Definition site_intent : InstallationIntent := {|
  in_schema_version := INSTALL_INTENT_SCHEMA_VERSION; in_installation_id := lit "7"; in_site_id := lit "8";
  in_created_with := lit "1.0.0"; in_selection := il_selection sample_lock;
  in_dlcs := [{| rd_id := ads; rd_version := lit "1.0.0"; rd_enabled := true |};
              {| rd_id := seo; rd_version := lit "1.0.0"; rd_enabled := true |}] |}.
Definition site_env : rstr :=
  lit "# site" ++ [10%N] ++ lit "OSB_COMMENTS='false'" ++ [13; 10]%N ++ lit "OSB_DLC_IDS=" ++ ads ++ lit "," ++ seo
  ++ [10%N] ++ lit "OSB_FEATURES=ads,seo" ++ [10%N]
  ++ lit "OSB_INSTALL_LOCK_DIGEST=" ++ il_lock_digest site_lock.
Definition load (env : rstr) (i : InstallationIntent) (l : InstallationLock) : Deployment := {|
  de_env_original := env; de_env_values := default ∅ (to_option (project_environment env));
  de_intent := i; de_lock := l |}.
Definition site : Deployment := load site_env site_intent site_lock.

Lemma verified_decide d : verify_intent_lock_pair bundled (de_intent d) (de_lock d) = Ok tt ->
  for_each ensure_official_record (il_dlcs (de_lock d)) = Ok tt -> verified bundled d.
Proof. intros H1 H2. split; [exact H1|]. apply for_each_Ok in H2. exact H2. Qed.
Lemma site_verified : verified bundled site.
Proof. apply verified_decide; vm_compute; reflexivity. Qed.

Definition replaced (r : result DlcError (option Replaced)) (otherwise : Replaced) : Replaced :=
  match r with Ok (Some r) => r | _ => otherwise end.
Definition unchanged : Replaced :=
  {| rp_deployment := site; rp_intent_text := []; rp_lock_text := []; rp_env_text := [] |}.
Definition without_ads : Replaced := replaced (run (Remove (lit "Ads")) site) unchanged.
Lemma removal_runs : run (Remove (lit "Ads")) site = Ok (Some without_ads).
Proof. vm_compute. reflexivity. Qed.

Lemma lifecycle_never_panics_witness :
  run (Disable (lit "seo")) site = Err HasDependents /\ run (Disable (lit "seo")) site <> Err Panicked.
Proof.
  split; [vm_compute; reflexivity|].
  exact (lifecycle_never_panics (lit "1.0.0") bundled no_config site (Disable (lit "seo")) site_verified).
Defined.

Lemma lifecycle_keeps_deployments_verified_witness :
  verified bundled (rp_deployment without_ads) /\ id_id <$> il_dlcs (de_lock (rp_deployment without_ads)) = [seo].
Proof.
  split; [|vm_compute; reflexivity].
  exact (proj1 (lifecycle_keeps_deployments_verified (lit "1.0.0") bundled no_config site _ _ site_verified removal_runs)).
Defined.
Lemma installed_modules_keep_their_release_witness :
  exists new, il_history (de_lock (rp_deployment without_ads)) = il_history site_lock ++ new.
Proof.
  exact (proj1 (installed_modules_keep_their_release (lit "1.0.0") bundled no_config site _ _ site_verified removal_runs)).
Defined.
Lemma site_ledger : ledger (de_lock site) ads = Some [lit "org.example.first"].
Proof. vm_compute. reflexivity. Qed.
Lemma migration_ledger_is_never_lost_witness :
  ledger (de_lock (rp_deployment without_ads)) ads = Some [lit "org.example.first"].
Proof.
  exact (migration_ledger_is_never_lost _ _ _ site _ without_ads ads _ site_verified removal_runs site_ledger).
Defined.

(** The next command loads what the removal left. *)
Definition reload (r : Replaced) : Deployment :=
  load (rp_env_text r) (de_intent (rp_deployment r)) (de_lock (rp_deployment r)).
Lemma reload_lock r : de_lock (reload r) = de_lock (rp_deployment r).
Proof. reflexivity. Qed.
Abbreviation reloaded := (reload without_ads).
Lemma reloaded_verified : verified bundled reloaded.
Proof. apply verified_decide; vm_compute; reflexivity. Qed.
Definition ads_again : Replaced := replaced (run (Add (lit "ads@1.0.0") None) reloaded) unchanged.
Lemma addition_runs : run (Add (lit "ads@1.0.0") None) reloaded = Ok (Some ads_again).
Proof. vm_compute. reflexivity. Qed.
Definition ads_record : InstalledDlc := default (module_record ads [] []) (head (il_dlcs (de_lock (rp_deployment ads_again)))).

Definition ads_removed : InstalledDlc :=
  module_record ads (lit "plugins/official/ads/plugin.toml") [lit "org.example.first"].
Lemma ads_installed : ads_removed ∈ il_dlcs (de_lock site).
Proof. apply (bool_decide_unpack _). vm_compute. exact I. Qed.
Lemma ads_gone : id_id ads_removed ∉ id_id <$> il_dlcs (de_lock reloaded).
Proof. apply (bool_decide_unpack _). vm_compute. exact I. Qed.
Lemma ads_back : ads_record ∈ il_dlcs (de_lock (rp_deployment ads_again)) /\ id_id ads_record = id_id ads_removed.
Proof. split; [apply (bool_decide_unpack _); vm_compute; exact I|vm_compute; reflexivity]. Qed.

Lemma reinstalled_module_resumes_its_state_witness :
  id_state_version ads_record = id_state_version ads_removed /\
  id_applied_migrations ads_record = id_applied_migrations ads_removed.
Proof.
  exact (reinstalled_module_resumes_its_state _ _ _ site reloaded _ _ without_ads ads_again ads_removed ads_record
    site_verified removal_runs reloaded_verified (reload_lock without_ads) addition_runs ads_installed ads_gone
    (proj1 ads_back) (proj2 ads_back)).
Defined.

Lemma load_values env i l : is_ok (project_environment env) = true ->
  project_environment (de_env_original (load env i l)) = Ok (de_env_values (load env i l)).
Proof. intros (m & E)%is_ok_true. cbn. by rewrite E. Qed.
Lemma site_values : project_environment (de_env_original site) = Ok (de_env_values site).
Proof. apply load_values. vm_compute. reflexivity. Qed.
Lemma persisted_environment_matches_lock_witness :
  exists values', project_environment (rp_env_text without_ads) = Ok values' /\
    verify_environment_projection (de_lock (rp_deployment without_ads)) values' = Ok tt /\
    forall k, k ∉ MANAGED_ENV_KEYS -> values' !! k = de_env_values site !! k.
Proof.
  exact (persisted_environment_matches_lock _ _ _ site _ without_ads _ site_verified removal_runs site_values).
Defined.
