(* ===== verification/Content.v ===== *)
(** * The content model and its validation: [crates/kernel/src/content.rs]

    Every struct and enum of the file, the validators that guard the storage
    boundary, the content hash and the hash an AI summary is bound to. *)

From Stdlib Require Import Bool NArith ZArith Lia.
From S2P Require Import Prelude Text Extern.

Definition CONTENT_SCHEMA_VERSION : rstr := lit "1.0".
Definition AI_SUMMARY_SOURCE_HASH_VERSION : rstr := lit "osb-ai-summary-source/1".
Definition AI_SUMMARY_MAX_CHARACTERS : N := 2000.

Inductive DocumentStatus := Draft | Published | Archived.
#[export] Instance DocumentStatus_eq_dec : EqDecision DocumentStatus.
Proof. solve_decision. Defined.

Inductive RevisionActorKind := Human | Agent | Importer | System.
Inductive PublicAuthorshipKind := AuthorHuman | AiGenerated | AiAssisted | Imported.
#[export] Instance PublicAuthorshipKind_eq_dec : EqDecision PublicAuthorshipKind.
Proof. solve_decision. Defined.

Record PublicAuthorship := {
  pa_kind : PublicAuthorshipKind;
  pa_generator : option rstr;
  pa_human_reviewed : bool;
}.
Definition default_authorship : PublicAuthorship :=
  {| pa_kind := AuthorHuman; pa_generator := None; pa_human_reviewed := false |}.

Record RevisionActor := {
  ra_kind : RevisionActorKind;
  ra_id : rstr;
  ra_display_name : option rstr;
}.

Record Provenance := {
  prov_origin : rstr;
  prov_source_uri : option rstr;
  prov_actor_id : option rstr;
  prov_generated_by : option rstr;
}.

Record IntentLayer := {
  il_format : rstr;
  il_source_html : rstr;
  il_renderer_hints : gmap rstr rstr;
  il_provenance : option Provenance;
}.

Record OntologyStatement := {
  os_subject : rstr;
  os_predicate : rstr;
  os_object : Value;
  os_evidence : option rstr;
  os_confirmed_by_author : bool;
}.

Record OntologySidecar := {
  on_schema : rstr;
  on_statements : list OntologyStatement;
}.

Record AiSummaryProvenance := {
  sp_provider : rstr;
  sp_model : rstr;
  sp_prompt_version : rstr;
  sp_generated_at : DateTime;
  sp_human_reviewed : bool;
}.

Record AiSummary := {
  sum_text : rstr;
  sum_source_hash : rstr;
  sum_provenance : AiSummaryProvenance;
}.

Inductive ContentValidationError :=
| InvalidTitle | InvalidSlug | InvalidMarkdown | InvalidIntentLayer
| InvalidOntologyLayer | InvalidIdempotencyKey | InvalidEmbed | InvalidAuthorship
| InvalidAiSummaryText | InvalidAiSummaryProvenance
| AiSummaryRequiresHumanReview | AiSummarySourceMismatch.
#[export] Instance ContentValidationError_eq_dec : EqDecision ContentValidationError.
Proof. solve_decision. Defined.

Section content.
Context `{UrlLib, Sha256Lib}.

Record EmbedReference := {
  em_id : rstr;
  em_provider : rstr;
  em_resource_id : rstr;
  em_canonical_url : Url;
  em_title : rstr;
  em_consent_purpose_ids : list rstr;
}.

Record RevisionSnapshot := {
  rs_schema_version : rstr;
  rs_id : Uuid;
  rs_document_id : Uuid;
  rs_revision_number : N;
  rs_parent_revision_id : option Uuid;
  rs_title : rstr;
  rs_slug : rstr;
  rs_source_markdown : rstr;
  rs_embeds : list EmbedReference;
  rs_intent : option IntentLayer;
  rs_ontology : option OntologySidecar;
  rs_ai_summary : option AiSummary;
  rs_authorship : PublicAuthorship;
  rs_actor : RevisionActor;
  rs_content_hash : rstr;
  rs_created_at : DateTime;
}.

Record DocumentSnapshot := {
  ds_schema_version : rstr;
  ds_id : Uuid;
  ds_site_id : Uuid;
  ds_status : DocumentStatus;
  ds_current_revision_id : Uuid;
  ds_published_revision_id : option Uuid;
  ds_revision : RevisionSnapshot;
  ds_created_at : DateTime;
  ds_updated_at : DateTime;
}.

Record NewDocument := {
  nd_site_id : Uuid;
  nd_title : rstr;
  nd_slug : rstr;
  nd_source_markdown : rstr;
  nd_embeds : list EmbedReference;
  nd_intent : option IntentLayer;
  nd_ontology : option OntologySidecar;
  nd_ai_summary : option AiSummary;
  nd_authorship : PublicAuthorship;
  nd_actor : RevisionActor;
}.

Record ProposedRevision := {
  pr_document_id : Uuid;
  pr_base_revision_id : Uuid;
  pr_title : rstr;
  pr_slug : rstr;
  pr_source_markdown : rstr;
  pr_embeds : list EmbedReference;
  pr_intent : option IntentLayer;
  pr_ontology : option OntologySidecar;
  pr_ai_summary : option AiSummary;
  pr_authorship : PublicAuthorship;
  pr_actor : RevisionActor;
  pr_idempotency_key : option rstr;
}.

(** [serde_json::to_vec] on the four layers the hash covers. *)
Class LayerCodec := {
  embeds_to_vec : list EmbedReference -> list N;
  intent_to_vec : IntentLayer -> list N;
  ontology_to_vec : OntologySidecar -> list N;
  summary_to_vec : AiSummary -> list N;
}.
Context `{LayerCodec}.

(** ** Hashes: the bytes fed to the hasher, in order *)

Definition content_preimage (title slug markdown : rstr) (embeds : list EmbedReference)
    (intent : option IntentLayer) (ontology : option OntologySidecar)
    (ai_summary : option AiSummary) : list N :=
  bytes CONTENT_SCHEMA_VERSION ++ [0%N] ++ bytes title ++ [0%N] ++ bytes slug ++ [0%N]
  ++ bytes markdown ++ [0%N] ++ embeds_to_vec embeds ++ [0%N]
  ++ match intent with Some v => intent_to_vec v | None => [] end ++ [0%N]
  ++ match ontology with Some v => ontology_to_vec v | None => [] end
  ++ match ai_summary with
     | Some v => [0%N] ++ bytes (lit "ai-summary-v1") ++ [0%N] ++ summary_to_vec v
     | None => []
     end.

Definition content_hash_with_ai_summary (title slug markdown : rstr)
    (embeds : list EmbedReference) (intent : option IntentLayer)
    (ontology : option OntologySidecar) (ai_summary : option AiSummary) : rstr :=
  lit "sha256:" ++ sha256_hex (content_preimage title slug markdown embeds intent ontology ai_summary).

Definition content_hash (title slug markdown : rstr) (embeds : list EmbedReference)
    (intent : option IntentLayer) (ontology : option OntologySidecar) : rstr :=
  content_hash_with_ai_summary title slug markdown embeds intent ontology None.

Definition ai_summary_source_preimage (title markdown : rstr) : list N :=
  bytes AI_SUMMARY_SOURCE_HASH_VERSION ++ [0%N] ++ bytes title ++ [0%N] ++ bytes markdown.
Definition ai_summary_source_hash (title markdown : rstr) : rstr :=
  lit "sha256:" ++ sha256_hex (ai_summary_source_preimage title markdown).

(** ** Validators *)

Definition valid_summary_label (value : rstr) (max_length : N) : bool :=
  within 1 max_length (char_count (trim value)) && negb (existsb is_control value).

Definition contains_disallowed_control (value : rstr) : bool :=
  existsb (fun c => is_control c && negb ((c =? 10) || (c =? 13) || (c =? 9)))%N value.

Definition validate_ready_ai_summary (title markdown : rstr) (summary : AiSummary)
    : result ContentValidationError unit :=
  let text_length := char_count (trim (sum_text summary)) in
  fail_if (negb (within 1 AI_SUMMARY_MAX_CHARACTERS text_length)
           || contains_disallowed_control (sum_text summary)) InvalidAiSummaryText;;
  let p := sum_provenance summary in
  fail_if (negb (valid_summary_label (sp_provider p) 100)
           || negb (valid_summary_label (sp_model p) 300)
           || negb (valid_summary_label (sp_prompt_version p) 100)) InvalidAiSummaryProvenance;;
  fail_if (negb (sp_human_reviewed p)) AiSummaryRequiresHumanReview;;
  fail_if (negb (str_eqb (sum_source_hash summary) (ai_summary_source_hash title markdown)))
    AiSummarySourceMismatch.

Definition validate_for_source (self : AiSummary) (title markdown : rstr) :=
  validate_ready_ai_summary title markdown self.

Definition publishable_ai_summary (self : RevisionSnapshot) : option AiSummary :=
  match rs_ai_summary self with
  | Some summary =>
      if is_ok (validate_for_source summary (rs_title self) (rs_source_markdown self))
      then Some summary else None
  | None => None
  end.

Definition validate_title (value : rstr) : result ContentValidationError unit :=
  fail_if (negb (within 1 300 (char_count (trim value))) || contains_nul value) InvalidTitle.

Definition validate_slug (value : rstr) : result ContentValidationError unit :=
  let slug := trim value in
  fail_if (is_empty slug || (240 <? str_len slug)%N
           || starts_with (lit ".") slug || ends_with (lit ".") slug
           || contains_char 47 slug || contains_char 92 slug || contains_nul slug
           || existsb is_control slug) InvalidSlug.

Definition validate_markdown (value : rstr) : result ContentValidationError unit :=
  fail_if ((10 * 1024 * 1024 <? str_len value)%N || contains_nul value) InvalidMarkdown.

Definition invalid_hint (hint : rstr * rstr) : bool :=
  let '(key, value) := hint in
  is_empty (trim key) || (100 <? str_len key)%N || (1000 <? str_len value)%N
  || contains_nul key || contains_nul value.

Definition invalid_provenance (p : Provenance) : bool :=
  is_empty (trim (prov_origin p)) || (100 <? str_len (prov_origin p))%N
  || is_some_and (fun v => (2048 <? str_len v)%N || is_none (url_parse v)) (prov_source_uri p)
  || is_some_and (fun v => (200 <? str_len v)%N || contains_nul v) (prov_actor_id p)
  || is_some_and (fun v => (500 <? str_len v)%N || contains_nul v) (prov_generated_by p).

Definition invalid_intent (i : IntentLayer) : bool :=
  let hints := map_to_list (il_renderer_hints i) in
  is_empty (trim (il_format i)) || (100 <? str_len (il_format i))%N
  || (10 * 1024 * 1024 <? str_len (il_source_html i))%N || contains_nul (il_source_html i)
  || ((64 <? size_of hints)%N || existsb invalid_hint hints)
  || is_some_and invalid_provenance (il_provenance i).

Definition invalid_statement (s : OntologyStatement) : bool :=
  is_empty (trim (os_subject s)) || (2048 <? str_len (os_subject s))%N
  || contains_nul (os_subject s)
  || is_empty (trim (os_predicate s)) || (2048 <? str_len (os_predicate s))%N
  || contains_nul (os_predicate s)
  || is_some_and (fun v => (4096 <? str_len v)%N || contains_nul v) (os_evidence s).

Definition invalid_ontology (o : OntologySidecar) : bool :=
  is_empty (trim (on_schema o)) || (2048 <? str_len (on_schema o))%N
  || is_none (url_parse (on_schema o)) || (100000 <? size_of (on_statements o))%N
  || existsb invalid_statement (on_statements o)
  || (10 * 1024 * 1024 <? size_of (ontology_to_vec o))%N.

Definition validate_optional_layers (intent : option IntentLayer)
    (ontology : option OntologySidecar) : result ContentValidationError unit :=
  match intent with Some i => fail_if (invalid_intent i) InvalidIntentLayer | None => Ok tt end;;
  match ontology with Some o => fail_if (invalid_ontology o) InvalidOntologyLayer | None => Ok tt end.

Definition validate_authorship (value : PublicAuthorship) : result ContentValidationError unit :=
  fail_if (is_some_and (fun g => is_empty (trim g) || (300 <? str_len g)%N
                                 || existsb is_control g) (pa_generator value)) InvalidAuthorship;;
  fail_if (bool_decide (pa_kind value = AuthorHuman) && is_some (pa_generator value))
    InvalidAuthorship;;
  fail_if (negb (bool_decide (pa_kind value = AuthorHuman)) && is_none (pa_generator value))
    InvalidAuthorship.

Definition safe_identifier (candidate : rstr) : bool :=
  negb (is_empty candidate) && (str_len candidate <=? 200)%N
  && forallb (fun c => is_ascii_alphanumeric c || one_of "-_." c) candidate.

Definition invalid_purposes (ids : list rstr) : bool :=
  (128 <? size_of ids)%N || existsb (fun p => negb (safe_identifier p)) ids
  || negb (N.of_nat (size (list_to_set ids : gset rstr)) =? size_of ids)%N.

(** One iteration of the loop, with the set of identifiers seen so far. *)
Definition validate_embed (seen : gset rstr) (v : EmbedReference)
    : result ContentValidationError (gset rstr) :=
  let url := em_canonical_url v in
  fail_if (negb (safe_identifier (em_id v)) || negb (safe_identifier (em_provider v))
           || is_empty (trim (em_resource_id v)) || (2000 <? str_len (em_resource_id v))%N
           || is_empty (trim (em_title v)) || (500 <? str_len (em_title v))%N
           || negb (str_eqb (url_scheme url) (lit "http") || str_eqb (url_scheme url) (lit "https"))
           || is_none (url_host_str url) || negb (is_empty (url_username url))
           || is_some (url_password url) || invalid_purposes (em_consent_purpose_ids v)
           || bool_decide (em_id v ∈ seen)) InvalidEmbed;;
  Ok ({[ em_id v ]} ∪ seen).

Definition validate_embeds (values : list EmbedReference) : result ContentValidationError unit :=
  fail_if (10000 <? size_of values)%N InvalidEmbed;;
  _ ← for_fold validate_embed ∅ values;
  Ok tt.

Definition NewDocument_validate (d : NewDocument) : result ContentValidationError unit :=
  validate_title (nd_title d);;
  validate_slug (nd_slug d);;
  validate_markdown (nd_source_markdown d);;
  validate_embeds (nd_embeds d);;
  validate_authorship (nd_authorship d);;
  validate_optional_layers (nd_intent d) (nd_ontology d);;
  match nd_ai_summary d with
  | Some s => validate_ready_ai_summary (nd_title d) (nd_source_markdown d) s
  | None => Ok tt
  end.

Definition ProposedRevision_validate (p : ProposedRevision) : result ContentValidationError unit :=
  validate_title (pr_title p);;
  validate_slug (pr_slug p);;
  validate_markdown (pr_source_markdown p);;
  validate_embeds (pr_embeds p);;
  validate_authorship (pr_authorship p);;
  validate_optional_layers (pr_intent p) (pr_ontology p);;
  match pr_ai_summary p with
  | Some s => validate_ready_ai_summary (pr_title p) (pr_source_markdown p) s
  | None => Ok tt
  end;;
  match pr_idempotency_key p with
  | Some key => fail_if (is_empty (trim key) || (200 <? str_len key)%N) InvalidIdempotencyKey
  | None => Ok tt
  end.
End content.

(** ** Properties of the validators *)

Section validators.
Context `{UrlLib, Sha256Lib}.

Lemma validate_title_Ok t u :
  validate_title t = Ok u <->
  (1 <= char_count (trim t) <= 300)%N /\ 0%N ∉ t.
Proof.
  unfold validate_title, within, contains_nul.
  rewrite fail_if_Ok, orb_false_iff, negb_false_iff, andb_true_iff, !N.leb_le,
    contains_char_false. tauto.
Qed.

Lemma validate_markdown_Ok m u :
  validate_markdown m = Ok u <-> (str_len m <= 10 * 1024 * 1024)%N /\ 0%N ∉ m.
Proof.
  unfold validate_markdown, contains_nul.
  rewrite fail_if_Ok, orb_false_iff, N.ltb_ge, contains_char_false. tauto.
Qed.

(** The trimmed slug is one non-empty path segment: no separator, no control
    character, and not a dot segment. *)
Definition safe_segment (s : rstr) : Prop :=
  s <> [] /\ (47%N ∉ s) /\ (92%N ∉ s) /\ (0%N ∉ s) /\ Forall (fun c => is_control c = false) s
  /\ s <> lit "." /\ s <> lit "..".

Lemma validate_slug_sound s u :
  validate_slug s = Ok u -> safe_segment (trim s) /\ (str_len (trim s) <= 240)%N.
Proof.
  unfold validate_slug, contains_nul. rewrite fail_if_Ok. intros Hs. bool_simpl.
  repeat match goal with
  | X : contains_char _ _ = false |- _ => apply contains_char_false in X
  | X : existsb _ _ = false |- _ => apply existsb_false in X
  end.
  unfold safe_segment. split; [|done].
  repeat split; try done; intros E; rewrite E in *; cbn in *; done.
Qed.

Lemma validate_ready_ai_summary_Ok title markdown s u :
  validate_ready_ai_summary title markdown s = Ok u ->
  (1 <= char_count (trim (sum_text s)) <= 2000)%N /\
  contains_disallowed_control (sum_text s) = false /\
  sp_human_reviewed (sum_provenance s) = true /\
  sum_source_hash s = ai_summary_source_hash title markdown.
Proof.
  unfold validate_ready_ai_summary, within. intros Hs. inv_ok. bool_simpl.
  by repeat match goal with X : str_eqb _ _ = true |- _ => apply str_eqb_eq in X end.
Qed.

(** [validate_embeds] accepts exactly lists of valid, pairwise distinct
    references; the loop invariant relates the set to the prefix read. *)
Definition safe_embed (v : EmbedReference) : Prop :=
  safe_identifier (em_id v) = true /\ safe_identifier (em_provider v) = true /\
  (url_scheme (em_canonical_url v) = lit "http" \/ url_scheme (em_canonical_url v) = lit "https") /\
  is_Some (url_host_str (em_canonical_url v)) /\
  url_username (em_canonical_url v) = [] /\ url_password (em_canonical_url v) = None.

Lemma validate_embed_Ok seen v seen' :
  validate_embed seen v = Ok seen' ->
  safe_embed v /\ (em_id v ∉ seen) /\ seen' = {[ em_id v ]} ∪ seen.
Proof.
  unfold validate_embed, safe_embed. intros Hv. inv_ok. bool_simpl.
  repeat match goal with
  | X : (_ || _)%bool = true |- _ => apply orb_true_iff in X
  | X : is_none (url_host_str ?u) = false |- _ => destruct (url_host_str u); [clear X|done]
  | X : is_some (url_password ?u) = false |- _ => destruct (url_password u); [done|clear X]
  | X : is_empty (url_username ?u) = true |- _ => destruct (url_username u); [clear X|done]
  end.
  rewrite !str_eqb_eq in *. naive_solver.
Qed.

Lemma validate_embeds_loop seen values seen' :
  for_fold validate_embed seen values = Ok seen' ->
  Forall safe_embed values /\ NoDup (em_id <$> values) /\
  Forall (fun v => em_id v ∉ seen) values.
Proof.
  revert seen. induction values as [|v values IH]; intros seen; cbn.
  { repeat constructor. }
  intros Hl. inv_ok. repeat match goal with
  | X : validate_embed _ _ = Ok _ |- _ => apply validate_embed_Ok in X as (Hv & Hn & ->)
  | X : for_fold _ _ _ = Ok _ |- _ => apply IH in X as (Ha & Hd & Hf)
  end. repeat split; [by constructor| |constructor; [done|]].
  - constructor; [|done]. intros (w & E & Hw)%list_elem_of_fmap.
    rewrite Forall_forall in Hf. specialize (Hf w Hw). set_solver.
  - eapply Forall_impl; [exact Hf|]. set_solver.
Qed.

Lemma validate_embeds_Ok values u :
  validate_embeds values = Ok u ->
  Forall safe_embed values /\ NoDup (em_id <$> values) /\ (size_of values <= 10000)%N.
Proof.
  unfold validate_embeds. intros Hv. inv_ok. bool_simpl.
  match goal with
  | X : for_fold _ _ _ = Ok _ |- _ => apply validate_embeds_loop in X as (? & ? & _) end. done.
Qed.

Lemma ProposedRevision_validate_Ok `{!LayerCodec} p u :
  ProposedRevision_validate p = Ok u ->
  (0%N ∉ pr_title p) /\ (0%N ∉ pr_source_markdown p) /\ safe_segment (trim (pr_slug p)) /\
  Forall safe_embed (pr_embeds p) /\ NoDup (em_id <$> pr_embeds p).
Proof.
  unfold ProposedRevision_validate. intros Hp. inv_ok.
  repeat match goal with
  | X : validate_title _ = Ok _ |- _ => apply validate_title_Ok in X
  | X : validate_markdown _ = Ok _ |- _ => apply validate_markdown_Ok in X
  | X : validate_slug _ = Ok _ |- _ => apply validate_slug_sound in X
  | X : validate_embeds _ = Ok _ |- _ => apply validate_embeds_Ok in X
  end. naive_solver.
Qed.
End validators.

(** ** The hashes identify what they cover *)

(** Two different messages with the same digest. *)
Definition sha256_collision `{Sha256Lib} : Prop :=
  exists x y, x <> y /\ sha256_hex x = sha256_hex y.

Section hashes.
Context `{UrlLib, Sha256Lib}.

Lemma sha256_inj_or_collision x y :
  lit "sha256:" ++ sha256_hex x = lit "sha256:" ++ sha256_hex y -> x = y \/ sha256_collision.
Proof.
  intros E%(inj (app _)). destruct (decide (x = y)); [by left|right]. by exists x, y.
Qed.

Lemma ai_summary_source_preimage_inj t m t' m' :
  is_text t -> is_text m -> is_text t' -> is_text m' -> 0%N ∉ t -> 0%N ∉ t' ->
  ai_summary_source_preimage t m = ai_summary_source_preimage t' m' -> t = t' /\ m = m'.
Proof.
  intros ? ? ? ? Ht Ht'. unfold ai_summary_source_preimage.
  intros E%(inj (app _)). cbn in E. injection E as E.
  apply app_sep_inj in E as [? ?]; [|by apply bytes_nul_free..].
  by split; apply bytes_inj.
Qed.

(** An AI summary that is publishable for two sources was bound to one
    source: either title and Markdown agree exactly, or SHA-256 collides.  So
    editing either makes the stored summary unpublishable (fail closed). *)
Theorem publishable_summary_binds_source (r r' : RevisionSnapshot) s :
  is_text (rs_title r) -> is_text (rs_title r') ->
  is_text (rs_source_markdown r) -> is_text (rs_source_markdown r') ->
  (0%N ∉ rs_title r) -> (0%N ∉ rs_title r') ->
  publishable_ai_summary r = Some s -> publishable_ai_summary r' = Some s ->
  (sp_human_reviewed (sum_provenance s) = true /\
   contains_disallowed_control (sum_text s) = false) /\
  ((rs_title r = rs_title r' /\ rs_source_markdown r = rs_source_markdown r')
   \/ sha256_collision).
Proof.
  intros ? ? ? ? ? ? P P'. unfold publishable_ai_summary, validate_for_source in *.
  destruct (rs_ai_summary r) as [a|]; [|done].
  destruct (rs_ai_summary r') as [a'|]; [|done].
  destruct (is_ok _) eqn:V in P; [|done]. destruct (is_ok _) eqn:V' in P'; [|done].
  simplify_eq. apply is_ok_true in V as [? V], V' as [? V'].
  apply validate_ready_ai_summary_Ok in V as (_ & Hc & Hr & Hs), V' as (_ & _ & _ & Hs').
  split; [done|]. rewrite Hs in Hs'.
  apply sha256_inj_or_collision in Hs' as [E|]; [left|by right].
  by apply ai_summary_source_preimage_inj in E.
Qed.
End hashes.

Section content_hash.
Context `{UrlLib, Sha256Lib, !LayerCodec}.

(** Documented behaviour of [serde_json::to_vec] on these layers: control
    characters are escaped, so no NUL byte is ever written; a document is not
    empty; and decoding recovers the value. *)
Record codec_faithful : Prop := {
  embeds_nul_free es : 0%N ∉ embeds_to_vec es;
  intent_nul_free i : 0%N ∉ intent_to_vec i;
  ontology_nul_free o : 0%N ∉ ontology_to_vec o;
  intent_nonempty i : intent_to_vec i <> [];
  ontology_nonempty o : ontology_to_vec o <> [];
  embeds_inj : Inj (=) (=) embeds_to_vec;
  intent_inj : Inj (=) (=) intent_to_vec;
  ontology_inj : Inj (=) (=) ontology_to_vec;
  summary_inj : Inj (=) (=) summary_to_vec;
}.

Lemma optional_layer_inj {A} (f : A -> list N) (Hf : Inj (=) (=) f)
    (Hne : forall a, f a <> []) (o o' : option A) :
  match o with Some v => f v | None => [] end = match o' with Some v => f v | None => [] end ->
  o = o'.
Proof.
  destruct o as [a|], o' as [a'|]; intros E; [|by destruct (Hne a)|by destruct (Hne a')|done].
  f_equal. by apply Hf.
Qed.

Lemma ontology_tail_inj (o o' : option OntologySidecar) (tail tail' : list N) :
  codec_faithful ->
  (tail = [] \/ exists r, tail = 0%N :: r) -> (tail' = [] \/ exists r, tail' = 0%N :: r) ->
  match o with Some v => ontology_to_vec v | None => [] end ++ tail
  = match o' with Some v => ontology_to_vec v | None => [] end ++ tail' ->
  o = o' /\ tail = tail'.
Proof.
  intros Hc Ht Ht' E.
  assert (forall o : option OntologySidecar,
    0%N ∉ match o with Some v => ontology_to_vec v | None => [] end) as Hn.
  { intros [v|]; [by apply ontology_nul_free|apply not_elem_of_nil]. }
  enough (match o with Some v => ontology_to_vec v | None => [] end
          = match o' with Some v => ontology_to_vec v | None => [] end /\ tail = tail') as [E' ?].
  { split; [|done]. apply (optional_layer_inj ontology_to_vec); [apply Hc..|done]. }
  destruct Ht as [->|[r ->]], Ht' as [->|[r' ->]]; rewrite ?app_nil_r in E; subst.
  - done.
  - exfalso. apply (Hn o). rewrite E. apply elem_of_app. right. constructor.
  - exfalso. apply (Hn o'). rewrite <-E. apply elem_of_app. right. constructor.
  - apply app_sep_inj in E as [-> ->]; done.
Qed.

(** The revision hash covers every field it is given: two revisions whose
    validated text fields are NUL-free and whose hashes agree have the same
    title, slug, Markdown, embeds, intent, ontology and summary, unless
    SHA-256 collides.  In particular a revision without a summary never
    shares its hash with one that has a summary. *)
Theorem content_hash_covers_every_field t s m es i o a t' s' m' es' i' o' a' :
  codec_faithful ->
  Forall is_text [t; s; m; t'; s'; m'] -> Forall (fun x : rstr => 0%N ∉ x) [t; s; m; t'; s'; m'] ->
  content_hash_with_ai_summary t s m es i o a = content_hash_with_ai_summary t' s' m' es' i' o' a' ->
  (t = t' /\ s = s' /\ m = m' /\ es = es' /\ i = i' /\ o = o' /\ a = a') \/ sha256_collision.
Proof.
  intros Hc Htx Hnul E. apply sha256_inj_or_collision in E as [E|]; [left|by right].
  rewrite !Forall_cons in Htx, Hnul. destruct_and?.
  unfold content_preimage in E. apply (inj (app _)) in E. cbn [app] in E. injection E as E.
  do 3 (let Et := fresh "Et" in apply app_sep_inj in E as [Et E];
    [apply bytes_inj in Et; [|done..]|by apply bytes_nul_free..]).
  apply app_sep_inj in E as [Ees E]; [|by apply embeds_nul_free..].
  assert (forall i : option IntentLayer,
    0%N ∉ match i with Some v => intent_to_vec v | None => [] end) as Hi.
  { intros [v|]; [by apply intent_nul_free|apply not_elem_of_nil]. }
  apply app_sep_inj in E as [Ei E]; [|apply Hi..].
  apply ontology_tail_inj in E as [-> E]; [|done|destruct a, a'; eauto..].
  apply (optional_layer_inj intent_to_vec) in Ei as ->; [|by apply Hc..].
  apply (embeds_inj Hc) in Ees as ->.
  assert (a = a') as ->; [|done].
  destruct a as [v|], a' as [v'|]; try done. cbn [app] in E. injection E as E. f_equal. by apply (summary_inj Hc).
Qed.
End content_hash.
