(* ===== verification/Ai2Ai.v ===== *)
(** * The AI2AI proposal envelope: [crates/kernel/src/ai2ai.rs]

    The envelope an agent submits, its policy snapshot, context receipts and
    provenance, and the validation that every accepted proposal has passed.
    The clock [Utc::now()] is an argument of [envelope_validate]. *)

From Stdlib Require Import Bool NArith ZArith Lia.
From Stdlib Require Import SpecFloat.
From S2P Require Import Prelude Text Extern Content.

Definition AI2AI_SPEC_VERSION : rstr := lit "1.0".
Definition AI_PROPOSAL_AUDIT_SCHEMA_VERSION : rstr := lit "1.0".

Inductive AiActorKind := ActorHuman | ActorAgent | ActorTool | ActorService.

Record AiActor := {
  aa_kind : AiActorKind;
  aa_id : rstr;
  aa_provider : option rstr;
  aa_model : option rstr;
}.

Inductive DataBoundary := LocalOnly | ApprovedProviders | RedactBeforeSend | ExternalAllowed.

(** [f64] is IEEE 754 binary64 as in the standard library's [SpecFloat]. *)
Abbreviation f64 := spec_float.
Definition f64_is_finite (x : f64) : bool :=
  match x with S754_zero _ | S754_finite _ _ _ => true | _ => false end.
Definition f64_zero : f64 := S754_zero false.

Record AiPolicySnapshot := {
  ap_data_boundary : DataBoundary;
  ap_allowed_provider_ids : list rstr;
  ap_allowed_capabilities : list rstr;
  ap_max_cost : option f64;
  ap_max_tokens : option N;
}.

Record ContextReceipt := {
  cr_reference : rstr;
  cr_content_hash : rstr;
  cr_scope : rstr;
  cr_included : bool;
  cr_exclusion_reason : option rstr;
}.

Record AiProvenanceEntry := {
  pe_kind : rstr;
  pe_reference : rstr;
  pe_content_hash : option rstr;
}.

Inductive Ai2AiValidationError :=
| UnsupportedVersion | EnvelopeInvalidIdempotencyKey | MissingIdentityOrIntent
| InvalidProposal | InvalidIdentifier | InvalidTimestamp | InvalidPolicy
| InvalidContextReceipt | InvalidProvenance.
#[export] Instance Ai2AiValidationError_eq_dec : EqDecision Ai2AiValidationError.
Proof. solve_decision. Defined.

(** ** Policy, receipts and provenance *)

Definition valid_content_hash (value : rstr) : bool :=
  (str_len value =? 71)%N && starts_with (lit "sha256:") value
  && forallb (fun b => is_ascii_digit b || in_range 97 102 b) (drop 7 (bytes value)).

(** [values.iter().all(|value| ... && seen.insert(value))] *)
Fixpoint unique_bounded_from (seen : gset rstr) (values : list rstr) (maximum : N) : bool :=
  match values with
  | [] => true
  | v :: vs =>
      negb (is_empty (trim v)) && (str_len v <=? maximum)%N && negb (contains_nul v)
      && negb (bool_decide (v ∈ seen)) && unique_bounded_from ({[ v ]} ∪ seen) vs maximum
  end.
Definition unique_bounded_values (values : list rstr) (maximum : N) : bool :=
  unique_bounded_from ∅ values maximum.

Definition validate_policy (policy : AiPolicySnapshot) (actor_provider : option rstr)
    : result Ai2AiValidationError unit :=
  fail_if ((128 <? size_of (ap_allowed_provider_ids policy))%N
           || (128 <? size_of (ap_allowed_capabilities policy))%N
           || negb (unique_bounded_values (ap_allowed_provider_ids policy) 300)
           || negb (unique_bounded_values (ap_allowed_capabilities policy) 300)
           || is_some_and (fun v => negb (f64_is_finite v) || SFltb v f64_zero) (ap_max_cost policy))
    InvalidPolicy;;
  match ap_data_boundary policy with
  | LocalOnly =>
      if negb (is_empty_list (ap_allowed_provider_ids policy)) then Err InvalidPolicy else Ok tt
  | ApprovedProviders =>
      provider ← ok_or actor_provider InvalidPolicy;
      if existsb (fun v => str_eqb v provider) (ap_allowed_provider_ids policy)
      then Ok tt else Err InvalidPolicy
  | _ => Ok tt
  end.

Definition validate_for_provider (self : AiPolicySnapshot) (actor_provider : option rstr) :=
  validate_policy self actor_provider.

Definition validate_receipt (references : gset (rstr * rstr)) (v : ContextReceipt)
    : result Ai2AiValidationError (gset (rstr * rstr)) :=
  fail_if (is_empty (trim (cr_reference v)) || (2048 <? str_len (cr_reference v))%N
           || is_empty (trim (cr_scope v)) || (100 <? str_len (cr_scope v))%N
           || negb (valid_content_hash (cr_content_hash v))
           || bool_decide ((cr_reference v, cr_scope v) ∈ references)
           || is_some_and (fun r => is_empty (trim r) || (1000 <? str_len r)%N || contains_nul r)
                (cr_exclusion_reason v)
           || (negb (cr_included v) && is_none (cr_exclusion_reason v))
           || (cr_included v && is_some (cr_exclusion_reason v))) InvalidContextReceipt;;
  Ok ({[ (cr_reference v, cr_scope v) ]} ∪ references).

Definition validate_context_receipts (values : list ContextReceipt)
    : result Ai2AiValidationError unit :=
  fail_if (10000 <? size_of values)%N InvalidContextReceipt;;
  _ ← for_fold validate_receipt ∅ values;
  Ok tt.

Definition validate_provenance_entry (v : AiProvenanceEntry) : result Ai2AiValidationError unit :=
  fail_if (is_empty (trim (pe_kind v)) || (100 <? str_len (pe_kind v))%N
           || is_empty (trim (pe_reference v)) || (2048 <? str_len (pe_reference v))%N
           || is_some_and (fun d => negb (valid_content_hash d)) (pe_content_hash v))
    InvalidProvenance.
Definition validate_provenance (values : list AiProvenanceEntry)
    : result Ai2AiValidationError unit :=
  fail_if (10000 <? size_of values)%N InvalidProvenance;;
  for_each validate_provenance_entry values.

Section envelope.
Context `{UrlLib, Sha256Lib, !LayerCodec}.

Record Ai2AiEnvelope := {
  env_spec_version : rstr;
  env_message_id : Uuid;
  env_idempotency_key : rstr;
  env_occurred_at : DateTime;
  env_actor : AiActor;
  env_intent : rstr;
  env_proposal : ProposedRevision;
  env_policy : AiPolicySnapshot;
  env_context_receipts : list ContextReceipt;
  env_provenance : list AiProvenanceEntry;
}.

Record AiProposalAuditRecord := {
  au_schema_version : rstr;
  au_document_id : Uuid;
  au_accepted_revision_id : Uuid;
  au_received_at : DateTime;
  au_envelope : Ai2AiEnvelope;
}.

Definition envelope_validate (now : DateTime) (self : Ai2AiEnvelope)
    : result Ai2AiValidationError unit :=
  fail_if (negb (str_eqb (env_spec_version self) AI2AI_SPEC_VERSION)) UnsupportedVersion;;
  fail_if (uuid_is_nil (env_message_id self)
           || uuid_is_nil (pr_document_id (env_proposal self))
           || uuid_is_nil (pr_base_revision_id (env_proposal self))) InvalidIdentifier;;
  fail_if (is_empty (trim (env_idempotency_key self))
           || (200 <? str_len (env_idempotency_key self))%N
           || contains_nul (env_idempotency_key self)) EnvelopeInvalidIdempotencyKey;;
  let actor := env_actor self in
  fail_if (is_empty (trim (aa_id actor)) || (300 <? str_len (aa_id actor))%N
           || contains_nul (aa_id actor)
           || is_empty (trim (env_intent self)) || (2000 <? str_len (env_intent self))%N
           || contains_nul (env_intent self)
           || is_some_and (fun v => (300 <? str_len v)%N || contains_nul v) (aa_provider actor)
           || is_some_and (fun v => (300 <? str_len v)%N || contains_nul v) (aa_model actor))
    MissingIdentityOrIntent;;
  fail_if (now + minutes 5 <? env_occurred_at self)%Z InvalidTimestamp;;
  validate_for_provider (env_policy self) (aa_provider actor);;
  validate_context_receipts (env_context_receipts self);;
  validate_provenance (env_provenance self);;
  map_err (fun _ => InvalidProposal) (ProposedRevision_validate (env_proposal self)).
End envelope.

(** ** What an accepted envelope guarantees *)

Lemma unique_bounded_from_NoDup seen values maximum :
  unique_bounded_from seen values maximum = true ->
  NoDup values /\ Forall (fun v => v ∉ seen) values
  /\ Forall (fun v => (str_len v <= maximum)%N /\ 0%N ∉ v) values.
Proof.
  revert seen. induction values as [|v vs IH]; intros seen; cbn; [by repeat constructor|].
  intros Hv. bool_simpl.
  match goal with X : unique_bounded_from _ _ _ = true |- _ =>
    apply IH in X as (Hnd & Hf & Hb) end.
  match goal with X : contains_nul _ = false |- _ => apply contains_char_false in X end.
  apply (seen_step id) in Hf as [Hv Hf]. rewrite list_fmap_id in Hv.
  repeat split; by constructor.
Qed.

Lemma validate_policy_Ok policy provider u :
  validate_policy policy provider = Ok u ->
  NoDup (ap_allowed_provider_ids policy) /\ NoDup (ap_allowed_capabilities policy) /\
  match ap_data_boundary policy with
  | LocalOnly => ap_allowed_provider_ids policy = []
  | ApprovedProviders => exists p, provider = Some p /\ p ∈ ap_allowed_provider_ids policy
  | _ => True
  end.
Proof.
  unfold validate_policy. intros Hp. inv_ok. bool_simpl.
  unfold unique_bounded_values in *.
  repeat match goal with X : unique_bounded_from _ _ _ = true |- _ =>
    apply unique_bounded_from_NoDup in X as (? & _ & _) end.
  repeat split; try done.
  destruct (ap_data_boundary policy); try done.
  - by destruct (ap_allowed_provider_ids policy).
  - inv_ok. destruct (existsb _ _) eqn:E; [|done].
    apply existsb_exists in E as (p & Hin & ->%str_eqb_eq). eexists. by rewrite list_elem_of_In.
Qed.

(** A receipt either is included without a reason or excluded with one, and no
    two receipts speak about the same reference in the same scope. *)
Definition receipt_consistent (v : ContextReceipt) : Prop :=
  (cr_included v = true <-> cr_exclusion_reason v = None)
  /\ valid_content_hash (cr_content_hash v) = true.

Lemma validate_receipts_loop seen values seen' :
  for_fold validate_receipt seen values = Ok seen' ->
  Forall receipt_consistent values /\
  NoDup ((fun v => (cr_reference v, cr_scope v)) <$> values) /\
  Forall (fun v => (cr_reference v, cr_scope v) ∉ seen) values.
Proof.
  revert seen. induction values as [|v values IH]; intros seen; cbn; [repeat constructor|].
  intros Hl. inv_ok. unfold validate_receipt in *. inv_ok. bool_simpl.
  match goal with X : for_fold _ _ _ = Ok _ |- _ => apply IH in X as (Ha & Hd & Hf) end.
  assert (receipt_consistent v).
  { unfold receipt_consistent. destruct (cr_included v), (cr_exclusion_reason v); naive_solver. }
  apply (seen_step (fun v => (cr_reference v, cr_scope v))) in Hf as [??].
  repeat split; by constructor.
Qed.

Section envelope_properties.
Context `{UrlLib, Sha256Lib, !LayerCodec}.

(** An accepted envelope has a provider its policy allows, consistent and
    pairwise distinct context receipts, non-nil identifiers, a timestamp at
    most five minutes ahead of the local clock, and a valid proposal. *)
Theorem envelope_validate_sound now e :
  envelope_validate now e = Ok tt ->
  env_message_id e <> 0%N /\ pr_document_id (env_proposal e) <> 0%N /\
  pr_base_revision_id (env_proposal e) <> 0%N /\
  (env_occurred_at e <= now + 5 * 60 * 10 ^ 9)%Z /\
  match ap_data_boundary (env_policy e) with
  | LocalOnly => ap_allowed_provider_ids (env_policy e) = []
  | ApprovedProviders =>
      exists p, aa_provider (env_actor e) = Some p /\ p ∈ ap_allowed_provider_ids (env_policy e)
  | _ => True
  end /\
  Forall receipt_consistent (env_context_receipts e) /\
  NoDup ((fun v => (cr_reference v, cr_scope v)) <$> env_context_receipts e) /\
  ProposedRevision_validate (env_proposal e) = Ok tt.
Proof.
  unfold envelope_validate, validate_for_provider, validate_context_receipts, uuid_is_nil.
  intros He. inv_ok. bool_simpl.
  repeat match goal with
  | X : validate_policy _ _ = Ok _ |- _ => apply validate_policy_Ok in X as (? & ? & ?)
  | X : for_fold validate_receipt _ _ = Ok _ |- _ =>
      apply validate_receipts_loop in X as (? & ? & _)
  end.
  repeat split; done.
Qed.
End envelope_properties.
