(* ===== verification/Renderer.v ===== *)
(** * The publish renderer: [crates/renderer/src/lib.rs]

    Markdown and intent HTML become the artifact readers see.  The Markdown
    parser and writer ([pulldown-cmark]) and the sanitizer ([ammonia]) are
    parameters; what the crate adds around them, the treatment of raw HTML, of
    embed directives and of formulas, the facade of an embed, the summaries and
    the sanitizer's configuration, is here. *)

From Stdlib Require Import Bool NArith ZArith Lia.
From S2P Require Import Prelude Text Markup Extern Content.

(** ** Third-party code *)

Inductive MarkdownOption := Strikethrough | Tables | Footnotes | Tasklists | HeadingAttributes | Math.
(** The events the crate looks at; [Other] stands for the remaining
    constructors of [pulldown_cmark::Event], which it passes on. *)
Inductive Event (Other : Type) :=
| EventText (value : rstr)
| EventCode (value : rstr)
| EventHtml (value : rstr)
| EventInlineHtml (value : rstr)
| EventInlineMath (value : rstr)
| EventDisplayMath (value : rstr)
| EventSoftBreak
| EventHardBreak
| EventOther (event : Other).
Arguments EventText {Other} _.
Arguments EventCode {Other} _.
Arguments EventHtml {Other} _.
Arguments EventInlineHtml {Other} _.
Arguments EventInlineMath {Other} _.
Arguments EventDisplayMath {Other} _.
Arguments EventSoftBreak {Other}.
Arguments EventHardBreak {Other}.
Arguments EventOther {Other} _.

Class MarkdownLib := {
  OtherEvent : Type;
  markdown_events : list MarkdownOption -> rstr -> list (Event OtherEvent);
  push_html : list (Event OtherEvent) -> rstr;
}.

(** [ammonia::Builder] with what the crate configures. *)
Record Sanitizer := {
  sa_tags : list rstr;
  sa_generic_attributes : list rstr;
  sa_tag_attributes : list (rstr * list rstr);
  sa_url_schemes : list rstr;
  sa_attribute_filter : rstr -> rstr -> rstr -> option rstr;
  sa_link_rel : option rstr;
  sa_strip_comments : bool;
}.
Class AmmoniaLib := clean : Sanitizer -> rstr -> rstr.

(** ** Artifacts *)

Definition RENDERER_VERSION : rstr := lit "osb-renderer/0.1.0".
Definition SANITIZER_POLICY_VERSION : rstr := lit "strict-html/1".
Inductive ViewMode := ViewIntent | ViewMarkdown | ViewMarkdownSource.
Record PublishArtifact := {
  art_view : ViewMode;
  art_html : rstr;
  art_source_hash : rstr;
  art_artifact_hash : rstr;
  art_renderer_version : rstr;
  art_sanitizer_policy_version : rstr;
  art_required_style_assets : list rstr;
  art_required_script_assets : list rstr;
}.

Definition escape_html (source : rstr) : rstr := mjoin (escape_char <$> source).

Section renderer.
Context `{!UrlLib, !Sha256Lib, !MarkdownLib, !AmmoniaLib}.
Implicit Types (source : rstr) (embed : EmbedReference) (embeds : list EmbedReference).

Definition hash_bytes (value : list N) : rstr := lit "sha256:" ++ sha256_hex value.

(** ** The sanitizer *)

Definition sanitizer_base : option Url := url_parse (lit "https://open-soverign-blog.invalid/").
(** Without the fixed base URL the code panics. *)
Definition is_first_party_relative_url (value : rstr) : bool :=
  if is_empty value || negb (str_eqb value (trim value)) || contains_char 92 value || existsb is_control value then false
  else match sanitizer_base with
       | None => false
       | Some base =>
           match url_join base value with
           | Some resolved =>
               str_eqb (url_scheme resolved) (url_scheme base)
               && bool_decide (url_host_str resolved = url_host_str base)
               && bool_decide (url_port_or_known_default resolved = url_port_or_known_default base)
               && is_empty (url_username resolved) && is_none (url_password resolved)
           | None => false
           end
       end.
Definition attribute_filter (element attribute value : rstr) : option rstr :=
  if str_eqb element (lit "img") && str_eqb attribute (lit "src") && negb (is_first_party_relative_url value)
  then None else Some value.
Definition sanitizer : Sanitizer := {|
  sa_tags := lit <$> ["a"; "article"; "aside"; "blockquote"; "br"; "code"; "del"; "details"; "div"; "em"; "figcaption";
    "figure"; "h1"; "h2"; "h3"; "h4"; "h5"; "h6"; "hr"; "img"; "input"; "kbd"; "li"; "mark"; "ol"; "p"; "pre"; "s";
    "section"; "small"; "span"; "strong"; "sub"; "summary"; "sup"; "table"; "tbody"; "td"; "th"; "thead"; "tr"; "ul"]%string;
  sa_generic_attributes := lit <$> ["class"; "id"; "lang"; "title"]%string;
  sa_tag_attributes :=
    [(lit "a", lit <$> ["href"; "hreflang"; "target"]%string);
     (lit "img", lit <$> ["src"; "alt"; "width"; "height"; "loading"; "decoding"]%string);
     (lit "input", lit <$> ["type"; "checked"; "disabled"]%string);
     (lit "ol", lit <$> ["start"; "reversed"]%string);
     (lit "figure", lit <$> ["data-osb-provider"; "data-osb-resource-id"]%string);
     (lit "td", lit <$> ["colspan"; "rowspan"]%string);
     (lit "th", lit <$> ["colspan"; "rowspan"; "scope"]%string)];
  sa_url_schemes := lit <$> ["http"; "https"; "mailto"]%string;
  sa_attribute_filter := attribute_filter;
  sa_link_rel := Some (lit "noopener noreferrer");
  sa_strip_comments := true |}.
Definition sanitize_untrusted_html source : rstr := clean sanitizer source.
Definition sanitize_generated_html source : rstr := clean sanitizer source.

(** ** Embeds and formulas *)

Definition parse_embed_directive (value : rstr) : option rstr :=
  id ← strip_prefix (lit "::osb-embed ") (trim value);
  if negb (is_empty id) && forallb (fun c => is_ascii_alphanumeric c || one_of "-_." c) id then Some id else None.

(** The label of the link, Korean for "view the original". *)
Definition view_original : rstr := [50896; 47928; 32; 48372; 44592]%N.
Definition facade_href embed : rstr :=
  if str_eqb (url_scheme (em_canonical_url embed)) (lit "http") || str_eqb (url_scheme (em_canonical_url embed)) (lit "https")
  then url_as_str (em_canonical_url embed) else lit "#".
Definition embed_facade embed : rstr :=
  let provider := escape_html (em_provider embed) in
  let resource_id := escape_html (em_resource_id embed) in
  let title := escape_html (em_title embed) in
  let id := escape_html (em_id embed) in
  let href := escape_html (facade_href embed) in
  html "<figure id=`embed-" ++ id ++ html "` class=`osb-embed osb-embed-" ++ provider
  ++ html "` data-osb-provider=`" ++ provider ++ html "` data-osb-resource-id=`" ++ resource_id
  ++ html "`><div class=`osb-embed-facade`><span class=`osb-embed-provider`>" ++ provider
  ++ html "</span><figcaption>" ++ title ++ html "</figcaption><a class=`osb-embed-action` href=`" ++ href
  ++ html "`>" ++ view_original ++ html "</a></div></figure>".
Definition math_markup (value : rstr) (display : bool) : rstr :=
  let class := if display then lit "osb-math osb-math-display" else lit "osb-math osb-math-inline" in
  let tag := if display then lit "div" else lit "span" in
  html "<" ++ tag ++ html " class=`" ++ class ++ html "`><code>" ++ escape_html value ++ html "</code></" ++ tag ++ html ">".

Definition markdown_options : list MarkdownOption := [Strikethrough; Tables; Footnotes; Tasklists; HeadingAttributes; Math].
(** The closure over the parser's events. *)
Definition portable_event embeds (event : Event OtherEvent) : Event OtherEvent :=
  match event with
  | EventHtml value | EventInlineHtml value => EventText value
  | EventText value =>
      match id ← parse_embed_directive value; List.find (fun e => str_eqb (em_id e) id) embeds with
      | Some e => EventHtml (embed_facade e)
      | None => EventText value
      end
  | EventInlineMath value => EventHtml (math_markup value false)
  | EventDisplayMath value => EventHtml (math_markup value true)
  | other => other
  end.
Definition portable_events embeds source : list (Event OtherEvent) :=
  portable_event embeds <$> markdown_events markdown_options source.
Definition render_markdown_with_embeds source embeds : rstr :=
  sanitize_generated_html (push_html (portable_events embeds source)).
Definition render_markdown source : rstr := render_markdown_with_embeds source [].

(** [str::replace] with a pattern that is not empty: occurrences from the left
    that do not overlap. *)
Fixpoint replace_from (skip : nat) (from to s : rstr) : rstr :=
  match s with
  | [] => []
  | c :: s' =>
      match skip with
      | S skip => replace_from skip from to s'
      | O => if starts_with from s then to ++ replace_from (length from - 1) from to s'
             else c :: replace_from 0 from to s'
      end
  end.
Definition replace (from to s : rstr) : rstr := replace_from 0 from to s.
Definition embed_placeholder embed : rstr := lit "{{embed:" ++ em_id embed ++ lit "}}".
Definition inject_intent_embeds source embeds : rstr :=
  sanitize_generated_html
    (fold_left (fun output embed => replace (embed_placeholder embed) (embed_facade embed) output) embeds source).

(** ** Summaries *)

Definition render_ai_summary (summary : option AiSummary) : option rstr :=
  summary ← summary;
  let text := escape_html (trim (sum_text summary)) in
  Some (html "<aside class=`osb-ai-summary` aria-label=`AI summary`><p class=`osb-ai-summary__label`>AI summary</p><p class=`osb-ai-summary__text`>"
        ++ text ++ html "</p></aside>").

(** One iteration of the loop of [summarize_markdown], before its [break]. *)
Definition summarize_event (state : rstr * bool) (event : Event OtherEvent) : rstr * bool :=
  let '(summary, suppress) := state in
  match event with
  | EventText value | EventCode value =>
      if suppress then state
      else let gap := if negb (is_empty summary) && negb (is_some_and is_whitespace (last summary)) then [32%N] else [] in
           (summary ++ gap ++ value, suppress)
  | EventSoftBreak | EventHardBreak => (summary ++ [32%N], suppress)
  | EventHtml value | EventInlineHtml value =>
      let markup := to_ascii_lowercase value in
      let suppress := suppress || contains (lit "<script") markup || contains (lit "<style") markup in
      (summary, if contains (lit "</script") markup || contains (lit "</style") markup then false else suppress)
  | _ => state
  end.
Fixpoint summarize_events (max_characters : N) (state : rstr * bool) (events : list (Event OtherEvent)) : rstr :=
  match events with
  | [] => state.1
  | event :: events =>
      let state := summarize_event state event in
      if (max_characters <=? char_count state.1)%N then state.1 else summarize_events max_characters state events
  end.
Definition summarize_markdown source (max_characters : N) : rstr :=
  let normalized := join [32%N] (split_whitespace (summarize_events max_characters ([], false) (markdown_events [] source))) in
  take (N.to_nat max_characters) normalized ++ (if (max_characters <? char_count normalized)%N then [8230%N] else []).

(** ** The artifact of a revision *)

Definition render_body (revision : RevisionSnapshot) (view : ViewMode) : rstr * rstr :=
  match view with
  | ViewIntent =>
      match rs_intent revision with
      | None => (render_markdown_with_embeds (rs_source_markdown revision) (rs_embeds revision), rs_content_hash revision)
      | Some intent =>
          (inject_intent_embeds (sanitize_untrusted_html (il_source_html intent)) (rs_embeds revision),
           hash_bytes (bytes (il_source_html intent)))
      end
  | ViewMarkdown =>
      (render_markdown_with_embeds (rs_source_markdown revision) (rs_embeds revision),
       hash_bytes (bytes (rs_source_markdown revision)))
  | ViewMarkdownSource =>
      (html "<pre class=`osb-markdown-source`><code>" ++ escape_html (rs_source_markdown revision) ++ html "</code></pre>",
       hash_bytes (bytes (rs_source_markdown revision)))
  end.
Definition render_revision (revision : RevisionSnapshot) (view : ViewMode) : PublishArtifact :=
  let '(body_html, source_hash) := render_body revision view in
  let html := match render_ai_summary (publishable_ai_summary revision) with
              | Some summary => summary ++ body_html
              | None => body_html
              end in
  {| art_view := view; art_html := html; art_source_hash := source_hash; art_artifact_hash := hash_bytes (bytes html);
     art_renderer_version := RENDERER_VERSION; art_sanitizer_policy_version := SANITIZER_POLICY_VERSION;
     art_required_style_assets := [lit "/assets/osb-content.css"; lit "/vendor/katex/katex.min.css"];
     art_required_script_assets := [lit "/vendor/katex/katex.min.js"; lit "/assets/osb-content.js"] |}.
End renderer.

(** ** What a browser reads *)

Lemma escape_app a b : escape (a ++ b) = escape a ++ escape b.
Proof. unfold escape. by rewrite fmap_app, join_app. Qed.
(** An attribute value or a text with a fixed beginning. *)
Lemma reads_value_from prefix v : escape prefix = prefix ->
  reads InValue (prefix ++ escape v ++ [34%N]) [34%N] [prefix ++ v] InTag.
Proof. intros Hp. rewrite <-Hp at 1. rewrite app_assoc, <-escape_app. apply reads_value. Qed.
Definition text_data (v : rstr) : list rstr := if is_empty v then [] else [v].
Lemma reads_text_data v : reads InText (escape v ++ [60%N]) [60%N] (text_data v) InTag.
Proof.
  destruct v as [|c v]; [|by apply reads_text]. eapply reads_eq; [literal|reflexivity..].
Qed.

Section markup.
Context `{!UrlLib, !Sha256Lib, !MarkdownLib, !AmmoniaLib}.

Definition facade_tags : rstr :=
  html "<figure id=`` class=`` data-osb-provider=`` data-osb-resource-id=``><div class=``><span class=``></span><figcaption></figcaption><a class=`` href=``></a></div></figure>".
Definition facade_data (embed : EmbedReference) : list rstr :=
  [lit "embed-" ++ em_id embed; lit "osb-embed osb-embed-" ++ em_provider embed; em_provider embed; em_resource_id embed;
   lit "osb-embed-facade"; lit "osb-embed-provider"] ++ text_data (em_provider embed) ++ text_data (em_title embed)
  ++ [lit "osb-embed-action"; facade_href embed; view_original].
Lemma facade_pieces embed : embed_facade embed =
  html "<figure id=`" ++ (lit "embed-" ++ escape (em_id embed) ++ [34%N])
  ++ html " class=`" ++ (lit "osb-embed osb-embed-" ++ escape (em_provider embed) ++ [34%N])
  ++ html " data-osb-provider=`" ++ (escape (em_provider embed) ++ [34%N])
  ++ html " data-osb-resource-id=`" ++ (escape (em_resource_id embed) ++ [34%N])
  ++ html "><div class=`osb-embed-facade`><span class=`osb-embed-provider`>" ++ (escape (em_provider embed) ++ [60%N])
  ++ html "/span><figcaption>" ++ (escape (em_title embed) ++ [60%N])
  ++ html "/figcaption><a class=`osb-embed-action` href=`" ++ (escape (facade_href embed) ++ [34%N])
  ++ (html ">" ++ view_original ++ html "</a></div></figure>").
Proof. unfold embed_facade, escape_html, escape. rewrite <-!app_assoc. reflexivity. Qed.
Lemma reads_facade embed : reads InText (embed_facade embed) facade_tags (facade_data embed) InText.
Proof.
  rewrite facade_pieces. eapply reads_eq.
  - repeat (eapply reads_app; [first [by apply reads_value_from|apply reads_value|apply reads_text_data|literal]|]). literal.
  - reflexivity.
  - unfold facade_data. reflexivity.
Qed.

Definition math_tags (display : bool) : rstr :=
  if display then html "<div class=``><code></code></div>" else html "<span class=``><code></code></span>".
Definition math_data (value : rstr) (display : bool) : list rstr :=
  (if display then lit "osb-math osb-math-display" else lit "osb-math osb-math-inline") :: text_data value.
Definition math_opening (display : bool) : rstr :=
  if display then html "<div class=`osb-math osb-math-display`><code>" else html "<span class=`osb-math osb-math-inline`><code>".
Definition math_closing (display : bool) : rstr := if display then html "/code></div>" else html "/code></span>".
Lemma math_pieces value display :
  math_markup value display = math_opening display ++ (escape value ++ [60%N]) ++ math_closing display.
Proof. unfold math_markup, escape_html, escape. destruct display; rewrite <-!app_assoc; reflexivity. Qed.
Lemma reads_math value display : reads InText (math_markup value display) (math_tags display) (math_data value display) InText.
Proof.
  rewrite math_pieces. eapply reads_eq.
  - eapply reads_app; [|eapply reads_app; [apply reads_text_data|]]; destruct display; literal.
  - by destruct display.
  - unfold math_data. destruct display; cbn; by rewrite app_nil_r.
Qed.

Definition summary_tags : rstr := html "<aside class=`` aria-label=``><p class=``></p><p class=``></p></aside>".
Definition summary_data (text : rstr) : list rstr :=
  [lit "osb-ai-summary"; lit "AI summary"; lit "osb-ai-summary__label"; lit "AI summary"; lit "osb-ai-summary__text"]
  ++ text_data text.
Lemma reads_summary summary markup : render_ai_summary (Some summary) = Some markup ->
  reads InText markup summary_tags (summary_data (trim (sum_text summary))) InText.
Proof.
  set (opening := html "<aside class=`osb-ai-summary` aria-label=`AI summary`><p class=`osb-ai-summary__label`>AI summary</p><p class=`osb-ai-summary__text`>").
  set (v := trim (sum_text summary)). intros E.
  assert (Some markup = Some (opening ++ escape_html v ++ html "</p></aside>")) as ->%(inj Some) by by rewrite <-E.
  assert (opening ++ escape_html v ++ html "</p></aside>" = opening ++ (escape v ++ [60%N]) ++ html "/p></aside>") as Hp.
  { unfold escape_html, escape. rewrite <-!app_assoc. reflexivity. }
  rewrite Hp. eapply reads_eq.
  - eapply reads_app; [literal|]. eapply reads_app; [apply reads_text_data|literal].
  - reflexivity.
  - unfold summary_data. cbn. by rewrite app_nil_r.
Qed.
Lemma reads_source source :
  reads InText (html "<pre class=`osb-markdown-source`><code>" ++ escape_html source ++ html "</code></pre>")
    (html "<pre class=``><code></code></pre>") (lit "osb-markdown-source" :: text_data source) InText.
Proof.
  assert (escape_html source ++ html "</code></pre>" = (escape source ++ [60%N]) ++ html "/code></pre>") as ->.
  { unfold escape_html, escape. rewrite <-!app_assoc. reflexivity. }
  eapply reads_eq.
  - eapply reads_app; [literal|]. eapply reads_app; [apply reads_text_data|literal].
  - reflexivity.
  - cbn. by rewrite app_nil_r.
Qed.

(** An event of the portable path that the writer copies into the page as
    markup is the facade of one of the embeds or a formula. *)
Definition first_party_event (embeds : list EmbedReference) (event : Event OtherEvent) : Prop :=
  match event with
  | EventHtml markup =>
      (exists embed, embed ∈ embeds /\ reads InText markup facade_tags (facade_data embed) InText)
      \/ (exists value display, reads InText markup (math_tags display) (math_data value display) InText)
  | EventInlineHtml _ | EventInlineMath _ | EventDisplayMath _ => False
  | _ => True
  end.
Lemma portable_event_first_party embeds event : first_party_event embeds (portable_event embeds event).
Proof.
  destruct event; cbn; try done; try (right; eexists _, _; apply reads_math).
  destruct (parse_embed_directive value) as [id|]; cbn; [|done].
  destruct (List.find _ embeds) as [embed|] eqn:E; [|done]. apply List.find_some in E as [Hin _].
  left. exists embed. split; [by apply list_elem_of_In|apply reads_facade].
Qed.

(** What becomes of an event of the parser: raw HTML, block or inline, turns
    into the text it is; a text that is the directive of one of the embeds into
    markup read as that embed's facade; a formula into markup read as the
    formula; everything else is kept. *)
Inductive portable_as (embeds : list EmbedReference) : Event OtherEvent -> Event OtherEvent -> Prop :=
| portable_html value : portable_as embeds (EventHtml value) (EventText value)
| portable_inline_html value : portable_as embeds (EventInlineHtml value) (EventText value)
| portable_embed value embed markup : embed ∈ embeds -> parse_embed_directive value = Some (em_id embed) ->
    reads InText markup facade_tags (facade_data embed) InText ->
    portable_as embeds (EventText value) (EventHtml markup)
| portable_text value : (forall embed, embed ∈ embeds -> parse_embed_directive value <> Some (em_id embed)) ->
    portable_as embeds (EventText value) (EventText value)
| portable_inline_math value markup : reads InText markup (math_tags false) (math_data value false) InText ->
    portable_as embeds (EventInlineMath value) (EventHtml markup)
| portable_display_math value markup : reads InText markup (math_tags true) (math_data value true) InText ->
    portable_as embeds (EventDisplayMath value) (EventHtml markup)
| portable_code value : portable_as embeds (EventCode value) (EventCode value)
| portable_soft_break : portable_as embeds EventSoftBreak EventSoftBreak
| portable_hard_break : portable_as embeds EventHardBreak EventHardBreak
| portable_other event : portable_as embeds (EventOther event) (EventOther event).
Lemma portable_event_as embeds event : portable_as embeds event (portable_event embeds event).
Proof.
  destruct event as [value| | | |value|value| | |]; try constructor; try apply reads_math. cbn.
  destruct (parse_embed_directive value) as [id|] eqn:Hid; cbn; [|constructor; congruence].
  destruct (List.find _ embeds) as [embed|] eqn:E.
  - apply List.find_some in E as [Hin <-%str_eqb_eq]. eapply portable_embed; [by apply list_elem_of_In|done|apply reads_facade].
  - constructor. intros embed Hin. rewrite Hid. intros [= ->]. pose proof (List.find_none _ _ E embed (proj1 (list_elem_of_In _ _) Hin)) as Hne.
    cbn in Hne. apply not_true_iff_false in Hne. by apply Hne, str_eqb_eq.
Qed.
(** The page of a revision's Markdown: the sanitized output of the writer on
    the parser's events, each made portable. *)
Definition portable_page (revision : RevisionSnapshot) (body : rstr) : Prop :=
  exists events,
    Forall2 (portable_as (rs_embeds revision)) (markdown_events markdown_options (rs_source_markdown revision)) events
    /\ Forall (first_party_event (rs_embeds revision)) events
    /\ body = clean sanitizer (push_html events).
Lemma markdown_page revision :
  portable_page revision (render_markdown_with_embeds (rs_source_markdown revision) (rs_embeds revision)).
Proof.
  exists (portable_events (rs_embeds revision) (rs_source_markdown revision)). split_and!; [| |done].
  - apply Forall2_fmap_r, Forall_Forall2_diag, Forall_forall. intros event _. apply portable_event_as.
  - apply Forall_fmap, Forall_forall. intros event _. apply portable_event_first_party.
Qed.

(** [str::replace] cuts the string at the occurrences of the pattern. *)
Lemma replace_skips from to a s : replace_from (length a) from to (a ++ s) = replace_from 0 from to s.
Proof. induction a as [|c a IH]; [done|apply IH]. Qed.
Lemma join_cons_piece sep c p ps : c :: join sep (p :: ps) = join sep ((c :: p) :: ps).
Proof. by destruct ps. Qed.
Lemma replace_pieces from to s : from <> [] ->
  exists p ps, s = join from (p :: ps) /\ replace from to s = join to (p :: ps)
    /\ Forall (fun piece => contains from piece = false) (p :: ps).
Proof.
  intros Hf. assert (contains from [] = false) as Hnil.
  { cbn. rewrite orb_false_r. apply not_true_iff_false. rewrite starts_with_true. by destruct from; intros [? [=]]. }
  induction s as [s IH] using (well_founded_induction (well_founded_ltof _ length)). unfold replace, ltof in *.
  destruct s as [|c s]; [exists [], []; by repeat constructor|]. cbn [replace_from].
  destruct (starts_with from (c :: s)) eqn:Hs.
  - apply starts_with_true in Hs as [r Hr]. destruct from as [|f from]; [done|]. injection Hr as -> ->.
    destruct (IH r) as (p & ps & Hrs & Hrep & Hno); [cbn; rewrite length_app; lia|].
    exists [], (p :: ps). cbn [length]. rewrite Nat.sub_succ, Nat.sub_0_r, replace_skips, Hrep.
    split_and!; [|done|by constructor]. change (f :: from ++ r = (f :: from) ++ join (f :: from) (p :: ps)). by rewrite <-Hrs.
  - destruct (IH s) as (p & ps & Hss & Hrep & Hno); [cbn; lia|].
    exists (c :: p), ps. rewrite Hrep, <-!join_cons_piece, <-Hss. inversion_clear Hno as [|? ? Hp Hps].
    split_and!; [done..|]. constructor; [|done]. cbn [contains]. rewrite Hp, orb_false_r.
    apply not_true_iff_false. intros [r Hr]%starts_with_true. apply not_true_iff_false in Hs. apply Hs, starts_with_true.
    rewrite Hss, join_cons_piece. destruct ps as [|q ps]; [by exists r|]. cbn [join]. rewrite Hr, <-app_assoc. by eexists.
Qed.
(** The facades put in, embed by embed: the text is cut at the placeholders of
    the embed, and the pieces are joined by markup read as its facade. *)
Inductive injected : list EmbedReference -> rstr -> rstr -> Prop :=
| injected_none text : injected [] text text
| injected_embed embed embeds pieces facade output :
    Forall (fun piece => contains (embed_placeholder embed) piece = false) pieces ->
    reads InText facade facade_tags (facade_data embed) InText ->
    injected embeds (join facade pieces) output ->
    injected (embed :: embeds) (join (embed_placeholder embed) pieces) output.
Lemma facades_injected embeds text :
  injected embeds text (fold_left (fun output embed => replace (embed_placeholder embed) (embed_facade embed) output) embeds text).
Proof.
  revert text. induction embeds as [|embed embeds IH]; intros text; [constructor|]. cbn [fold_left].
  destruct (replace_pieces (embed_placeholder embed) (embed_facade embed) text) as (p & ps & Ht & Hr & Hno); [done|].
  rewrite Hr. rewrite Ht at 1. econstructor; [done|apply reads_facade|apply IH].
Qed.
(** The page of an intent's HTML: sanitized, the facades put in, and sanitized
    again. *)
Definition intent_page (revision : RevisionSnapshot) (intent : IntentLayer) (body : rstr) : Prop :=
  exists markup, injected (rs_embeds revision) (clean sanitizer (il_source_html intent)) markup
    /\ body = clean sanitizer markup.

(** C30. What the artifact of a revision can contain, whatever its Markdown,
    intent HTML, embeds and summary say. The page of the Markdown is the
    sanitized output of the writer on the parser's events with each made
    portable: raw HTML, block or inline, reaches the writer only as text, and
    markup only as the facade of one of the revision's embeds, where its
    directive stands, or as a formula; a browser reads that markup as a fixed
    tag structure whose texts and attribute values are exactly the fields of the
    embed, or the formula. The page of an intent is its HTML sanitized, with
    facades of the embeds, read the same way, where their placeholders stood,
    and sanitized again; the Markdown page stands in where there is no intent.
    The source view reads as one text, the Markdown. In front of the page is
    nothing, or, when the stored AI summary may be published, a fixed frame
    whose last text is that summary. *)
Theorem artifact_is_contained (revision : RevisionSnapshot) (view : ViewMode) :
  exists summary body, art_html (render_revision revision view) = summary ++ body
  /\ match view with
     | ViewMarkdownSource => reads InText body (html "<pre class=``><code></code></pre>")
                              (lit "osb-markdown-source" :: text_data (rs_source_markdown revision)) InText
     | ViewMarkdown => portable_page revision body
     | ViewIntent => match rs_intent revision with
                     | Some intent => intent_page revision intent body
                     | None => portable_page revision body
                     end
     end
  /\ match publishable_ai_summary revision with
     | Some s => reads InText summary summary_tags (summary_data (trim (sum_text s))) InText
     | None => summary = []
     end.
Proof.
  exists (default [] (render_ai_summary (publishable_ai_summary revision))), (render_body revision view).1. split_and!.
  - unfold render_revision. destruct (render_body revision view). by destruct (render_ai_summary _).
  - destruct view; cbn [render_body fst]; [|apply markdown_page|apply reads_source].
    destruct (rs_intent revision) as [intent|]; [|apply markdown_page].
    eexists. split; [apply facades_injected|done].
  - destruct (publishable_ai_summary revision) as [s|]; [|done]. by apply reads_summary.
Qed.

(** ** Excerpts *)

Lemma words_started acc q : acc <> [] -> exists w r, words_aux acc q = w :: r /\ rev acc `prefix_of` w.
Proof.
  revert acc. induction q as [|c q IH]; intros acc Ha; cbn [words_aux].
  { destruct acc; [done|]. by eexists _, _. }
  destruct (is_whitespace c).
  - destruct acc; [done|]. by eexists _, _.
  - destruct (IH (c :: acc) ltac:(done)) as (w & r & -> & Hw). eexists _, _. split; [done|].
    etrans; [|exact Hw]. cbn [rev]. by apply prefix_app_r.
Qed.
Lemma join_prefix a l l' : join [32%N] l `prefix_of` join [32%N] l' -> (l' = [] -> l = []) ->
  join [32%N] (a :: l) `prefix_of` join [32%N] (a :: l').
Proof.
  intros Hp Hl. destruct l as [|b l]; [|destruct l' as [|b' l']; [by specialize (Hl eq_refl)|]].
  - cbn [join]. destruct l'; [done|]. by apply prefix_app_r.
  - change (join [32%N] (a :: b :: l)) with (a ++ [32%N] ++ join [32%N] (b :: l)).
    change (join [32%N] (a :: b' :: l')) with (a ++ [32%N] ++ join [32%N] (b' :: l')). by do 2 apply prefix_app.
Qed.
Lemma words_prefix acc p q :
  join [32%N] (words_aux acc p) `prefix_of` join [32%N] (words_aux acc (p ++ q))
  /\ (words_aux acc (p ++ q) = [] -> words_aux acc p = []).
Proof.
  revert acc. induction p as [|c p IH]; intros acc; cbn [app words_aux].
  - destruct acc as [|c acc]; [split; [apply prefix_nil|done]|].
    destruct (words_started (c :: acc) q ltac:(done)) as (w & r & -> & Hw). cbn [is_empty]. split; [|done].
    destruct r; cbn [join]; [done|]. by apply prefix_app_r.
  - destruct (is_whitespace c); [|apply IH]. destruct (IH []) as [Hp Hn]. destruct acc; cbn [is_empty]; [done|].
    split; [by apply join_prefix|done].
Qed.

Lemma summarize_grows (state : rstr * bool) event : state.1 `prefix_of` (summarize_event state event).1.
Proof. destruct state as [s b], event; cbn; try destruct b; cbn; try done; by apply prefix_app_r. Qed.
Lemma summarize_fold_grows events (state : rstr * bool) : state.1 `prefix_of` (fold_left summarize_event events state).1.
Proof.
  revert state. induction events as [|event events IH]; intros state; cbn; [done|]. etrans; [apply summarize_grows|apply IH].
Qed.
Lemma summarize_events_prefix n events (state : rstr * bool) :
  summarize_events n state events `prefix_of` (fold_left summarize_event events state).1.
Proof.
  revert state. induction events as [|event events IH]; intros state; cbn; [done|].
  destruct (_ <=? _)%N; [apply summarize_fold_grows|apply IH].
Qed.

Lemma words_solid acc s : Forall (fun c => is_whitespace c = false) acc ->
  Forall (fun w => w <> [] /\ solid w) (words_aux acc s).
Proof.
  assert (forall l : rstr, l <> [] -> solid l -> rev l <> [] /\ solid (rev l)) as Hrev.
  { intros l Hl Hs. split; [destruct l; [done|cbn; by intros [_ [=]]%app_nil]|]. unfold solid in *.
    rewrite Forall_forall in *. intros c Hc. apply Hs. by apply list_elem_of_In, in_rev, list_elem_of_In. }
  revert acc. induction s as [|c s IH]; intros acc Ha; cbn [words_aux].
  - destruct acc; constructor; [by apply Hrev|constructor].
  - destruct (is_whitespace c) eqn:E; [|by apply IH; constructor].
    destruct acc; [by apply IH|]. constructor; [by apply Hrev|]. by apply IH.
Qed.
Lemma join_spaces l : Forall (fun w => w <> [] /\ solid w) l ->
  Forall (fun c => is_whitespace c = true -> c = 32%N) (join [32%N] l) /\ (forall c, head (join [32%N] l) = Some c -> is_whitespace c = false).
Proof.
  assert (forall w, solid w -> Forall (fun c => is_whitespace c = true -> c = 32%N) w) as Hs.
  { intros w Hw. eapply Forall_impl; [exact Hw|]. intros c Hc E. cbn in Hc. congruence. }
  induction 1 as [|w l [Hw Hsw] Hl [IH _]]; [done|]. split.
  - cbn [join]. destruct l; [by apply Hs|]. rewrite !Forall_app. split_and!; [by apply Hs|by repeat constructor|exact IH].
  - intros c Hc. destruct w as [|d w]; [done|]. inversion Hsw; subst. destruct l; cbn in Hc; by injection Hc as <-.
Qed.

(** C31. The excerpt of a post has at most the requested number of characters,
    and an ellipsis; it is a prefix of the text of the whole post, with runs of
    whitespace written as one space and without leading whitespace, although
    the loop stops reading events as soon as it has collected enough
    characters. *)
Theorem excerpt_is_a_bounded_prefix (source : rstr) (n : N) :
  let text := join [32%N] (split_whitespace (fold_left summarize_event (markdown_events [] source) ([], false)).1) in
  exists excerpt, (summarize_markdown source n = excerpt \/ summarize_markdown source n = excerpt ++ [8230%N])
  /\ excerpt `prefix_of` text /\ (char_count excerpt <= n)%N
  /\ Forall (fun c => is_whitespace c = true -> c = 32%N) excerpt
  /\ (forall c, head excerpt = Some c -> is_whitespace c = false)
  /\ (summarize_markdown source n = excerpt ++ [8230%N] -> char_count excerpt = n /\ excerpt <> text).
Proof.
  cbn zeta. unfold summarize_markdown. set (events := markdown_events [] source).
  destruct (summarize_events_prefix n events ([], false)) as [rest Hrest].
  set (partial := summarize_events n ([], false) events) in *. set (normalized := join [32%N] (split_whitespace partial)).
  destruct (join_spaces (split_whitespace partial)) as [Hspaces Hhead]; [by apply words_solid|]. fold normalized in Hspaces, Hhead.
  assert (normalized `prefix_of` join [32%N] (split_whitespace (fold_left summarize_event events ([], false)).1)) as Hprefix.
  { rewrite Hrest. apply words_prefix. }
  assert (take (N.to_nat n) normalized `prefix_of` normalized) as Htake.
  { exists (drop (N.to_nat n) normalized). by rewrite take_drop. }
  exists (take (N.to_nat n) normalized). unfold char_count, size_of. split_and!.
  - destruct (_ <? _)%N; [by right|left; apply app_nil_r].
  - by etrans.
  - rewrite length_take. lia.
  - by apply Forall_take.
  - intros c Hc. apply Hhead. destruct Htake as [r ->]. by destruct (take _ normalized).
  - intros E. destruct (N.ltb_spec n (N.of_nat (length normalized))) as [Hlt|]; [|rewrite app_nil_r in E; apply (f_equal length) in E; rewrite length_app in E; cbn in E; lia].
    rewrite length_take. split; [lia|]. intros Ht. destruct Hprefix as [r Hr]. rewrite Hr in Ht.
    apply (f_equal length) in Ht. rewrite length_take, length_app in Ht. lia.
Qed.
End markup.
