(* ===== verification/Comments.v ===== *)
(** * The comments feature: [features/comments/src/lib.rs]

    Submission, moderation and rendering of a comment.  The store keeps its own
    records (StoreFeed); the handlers use this feature's validation and
    rendering. *)

From Stdlib Require Import Bool NArith ZArith Lia.
From S2P Require Import Prelude Text Extern Content Renderer.

Module Comments.
Inductive CommentStatus := Pending | Approved | Rejected | Spam | Deleted.
#[export] Instance CommentStatus_eq_dec : EqDecision CommentStatus.
Proof. solve_decision. Defined.
Record Comment := {
  co_id : Uuid;
  co_site_id : Uuid;
  co_document_id : Uuid;
  co_author_reference : rstr;
  co_source_markdown : rstr;
  co_status : CommentStatus;
  co_created_at : DateTime;
  co_updated_at : DateTime;
}.
Record CommentSubmission := {
  cs_site_id : Uuid;
  cs_document_id : Uuid;
  cs_author_reference : rstr;
  cs_source_markdown : rstr;
}.
Inductive CommentError := InvalidAuthor | InvalidBody | InvalidTransition.

Definition validate (self : CommentSubmission) : result CommentError unit :=
  fail_if (is_empty (trim (cs_author_reference self)) || (300 <? str_len (cs_author_reference self))%N) InvalidAuthor;;
  let length := char_count (trim (cs_source_markdown self)) in
  fail_if (negb (within 1 20000 length) || contains_nul (cs_source_markdown self)) InvalidBody.
Definition into_pending (self : CommentSubmission) (id : Uuid) (now : DateTime) : result CommentError Comment :=
  validate self;;
  Ok {| co_id := id; co_site_id := cs_site_id self; co_document_id := cs_document_id self;
        co_author_reference := cs_author_reference self; co_source_markdown := cs_source_markdown self;
        co_status := Pending; co_created_at := now; co_updated_at := now |}.

Definition transition_allowed (current next : CommentStatus) : bool :=
  match current, next with
  | Pending, Approved | Pending, Rejected | Pending, Spam | Approved, Rejected | Approved, Spam | _, Deleted => true
  | _, _ => false
  end.
(** The comment is left as it was when the transition is refused. *)
Definition moderate (next : CommentStatus) (now : DateTime) (self : Comment) : result CommentError unit * Comment :=
  if transition_allowed (co_status self) next
  then (Ok tt, {| co_id := co_id self; co_site_id := co_site_id self; co_document_id := co_document_id self;
                  co_author_reference := co_author_reference self; co_source_markdown := co_source_markdown self;
                  co_status := next; co_created_at := co_created_at self; co_updated_at := now |})
  else (Err InvalidTransition, self).
Definition moderate_all (decisions : list (CommentStatus * DateTime)) (self : Comment) : Comment :=
  fold_left (fun c d => (moderate d.1 d.2 c).2) decisions self.

Section render.
Context `{!UrlLib, !Sha256Lib, !MarkdownLib, !AmmoniaLib}.
Definition render_if_approved (self : Comment) : option rstr :=
  if bool_decide (co_status self = Approved) then Some (render_markdown (co_source_markdown self)) else None.
End render.

(** How far a comment is on its way out of sight. *)
Definition rank (s : CommentStatus) : nat := match s with Pending => 0 | Approved => 1 | Rejected | Spam => 2 | Deleted => 3 end.
Lemma transition_rank s t : transition_allowed s t = true -> rank s < rank t \/ s = Deleted /\ t = Deleted.
Proof. destruct s, t; cbn; intros; try discriminate; lia || tauto. Qed.
Lemma moderate_all_snoc d ds c : moderate_all (d :: ds) c = moderate_all ds (moderate d.1 d.2 c).2.
Proof. done. Qed.
Lemma moderate_rank next now c : rank (co_status c) <= rank (co_status (moderate next now c).2).
Proof.
  unfold moderate. destruct (transition_allowed _ _) eqn:E; cbn; [|lia]. apply transition_rank in E as [?|[-> ->]]; lia.
Qed.
Lemma moderate_all_rank ds c : rank (co_status c) <= rank (co_status (moderate_all ds c)).
Proof.
  revert c. induction ds as [|d ds IH]; intros c; [done|]. rewrite moderate_all_snoc.
  pose proof (moderate_rank d.1 d.2 c). specialize (IH (moderate d.1 d.2 c).2). lia.
Qed.
Lemma moderate_all_content ds c : co_id (moderate_all ds c) = co_id c /\ co_source_markdown (moderate_all ds c) = co_source_markdown c
  /\ co_author_reference (moderate_all ds c) = co_author_reference c /\ co_created_at (moderate_all ds c) = co_created_at c.
Proof.
  revert c. induction ds as [|d ds IH]; intros c; [done|]. rewrite moderate_all_snoc. destruct (IH (moderate d.1 d.2 c).2) as (-> & -> & -> & ->).
  unfold moderate. by destruct (transition_allowed _ _).
Qed.

Section moderation.
Context `{!UrlLib, !Sha256Lib, !MarkdownLib, !AmmoniaLib}.
(** Whatever moderators decide, and in whatever order: a comment that was
    rejected, marked as spam or deleted is never rendered again, a comment
    never returns to the queue, what was submitted is never altered, and a
    comment that is rendered shows the sanitized Markdown that was submitted. *)
Theorem hidden_comment_stays_hidden c ds :
  (2 <= rank (co_status c) -> render_if_approved (moderate_all ds c) = None)
  /\ (co_status c <> Pending -> co_status (moderate_all ds c) <> Pending)
  /\ co_source_markdown (moderate_all ds c) = co_source_markdown c
  /\ co_author_reference (moderate_all ds c) = co_author_reference c
  /\ (forall html, render_if_approved (moderate_all ds c) = Some html -> html = render_markdown (co_source_markdown c)).
Proof.
  pose proof (moderate_all_rank ds c) as Hr. destruct (moderate_all_content ds c) as (_ & Hm & Ha & _).
  unfold render_if_approved. split_and!; [| |done..|].
  - intros Hhid. case_bool_decide as E; [|done]. rewrite E in Hr. cbn in Hr. lia.
  - intros Hp E. rewrite E in Hr. destruct (co_status c); [done|cbn in Hr; lia..].
  - intros h. case_bool_decide; [|done]. rewrite Hm. by intros [= <-].
Qed.
End moderation.
End Comments.
