(* ===== verification/SocialEmbeds.v ===== *)
(** * Embeds of known providers: [apps/server/src/social_embeds.rs]

    Embeds that name [youtube] or [x] have to be normalized references; other
    providers stay inert references of the content model. *)

From Stdlib Require Import Bool NArith ZArith Lia.
From S2P Require Import Prelude Text Extern Content.

(** [url]: [path_segments], [None] for a URL that cannot be a base. *)
Class PathSegmentsLib `{UrlLib} := url_path_segments : Url -> option (list rstr).

Section embeds.
Context `{!UrlLib, !PathSegmentsLib}.

Definition validate_youtube (embed : EmbedReference) : result rstr unit :=
  let resource := em_resource_id embed in
  fail_if (negb (str_len resource =? 11)%N || negb (forallb (fun b => is_ascii_alphanumeric b || (b =? 95)%N || (b =? 45)%N) (bytes resource)))
    (lit "YouTube embed resourceId must be an 11-character video ID");;
  let expected := lit "https://www.youtube.com/watch?v=" ++ resource in
  fail_if (negb (str_eqb (url_as_str (em_canonical_url embed)) expected))
    (lit "YouTube embed canonicalUrl must use the normalized watch URL").
Definition handle_byte (b : N) : bool := is_ascii_alphanumeric b || (b =? 95)%N.
Definition validate_x (embed : EmbedReference) : result rstr unit :=
  fail_if (is_empty (em_resource_id embed) || (30 <? str_len (em_resource_id embed))%N
           || negb (forallb is_ascii_digit (bytes (em_resource_id embed))))
    (lit "X embed resourceId must be a numeric status ID");;
  let url := em_canonical_url embed in
  fail_if (negb (str_eqb (url_scheme url) (lit "https")) || negb (bool_decide (url_host_str url = Some (lit "x.com")))
           || negb (is_empty (url_username url)) || is_some (url_password url) || is_some (url_query url) || is_some (url_fragment url))
    (lit "X embed canonicalUrl must be a normalized x.com status URL");;
  let segments := default [] (url_path_segments url) in
  match segments with
  | [handle; status; id] =>
      fail_if (negb (str_eqb status (lit "status")) || negb (str_eqb id (em_resource_id embed)) || is_empty handle
               || (15 <? str_len handle)%N || negb (forallb handle_byte (bytes handle)))
        (lit "X embed canonicalUrl must contain a valid handle and matching status ID")
  | _ => Err (lit "X embed canonicalUrl must contain a valid handle and matching status ID")
  end.
Definition validate_official_embeds (embeds : list EmbedReference) : result rstr unit :=
  for_fold (fun _ embed =>
    if str_eqb (em_provider embed) (lit "youtube") then validate_youtube embed
    else if str_eqb (em_provider embed) (lit "x") then validate_x embed else Ok tt) tt embeds.

(** What an accepted reference to a known provider is. *)
Definition youtube_video (embed : EmbedReference) : Prop :=
  length (em_resource_id embed) = 11 /\ Forall (fun c => is_ascii_alphanumeric c = true \/ c = 95%N \/ c = 45%N) (em_resource_id embed)
  /\ url_as_str (em_canonical_url embed) = lit "https://www.youtube.com/watch?v=" ++ em_resource_id embed.
Definition x_status (embed : EmbedReference) : Prop :=
  let url := em_canonical_url embed in
  url_scheme url = lit "https" /\ url_host_str url = Some (lit "x.com") /\ url_username url = [] /\ url_password url = None
  /\ url_query url = None /\ url_fragment url = None
  /\ exists handle, url_path_segments url = Some [handle; lit "status"; em_resource_id embed]
     /\ handle <> [] /\ length handle <= 15 /\ Forall (fun c => handle_byte c = true) handle
     /\ em_resource_id embed <> [] /\ length (em_resource_id embed) <= 30 /\ Forall (fun c => is_ascii_digit c = true) (em_resource_id embed).

Lemma ascii_text_len (p : N -> bool) s : ascii_only p -> Forall (fun c => p c = true) s -> str_len s = N.of_nat (length s).
Proof.
  intros Hp Hs. unfold str_len, size_of. rewrite bytes_of_ascii; [done|]. eapply Forall_impl; [exact Hs|]. intros c. apply Hp.
Qed.
Lemma alphanumeric_ascii c : is_ascii_alphanumeric c = true -> (c < 128)%N.
Proof.
  unfold is_ascii_alphanumeric, is_ascii_lowercase, is_ascii_uppercase, is_ascii_digit, in_range.
  intros Hc. bool_simpl. repeat match goal with X : (_ || _)%bool = true |- _ => apply orb_true_iff in X as [X|X] end; bool_simpl; lia.
Qed.
Lemma digit_ascii c : is_ascii_digit c = true -> (c < 128)%N.
Proof. unfold is_ascii_digit, in_range. intros Hd. bool_simpl. lia. Qed.
Lemma handle_ascii c : handle_byte c = true -> (c < 128)%N.
Proof. unfold handle_byte. intros [Hc|Hc]%orb_true_iff; [by apply alphanumeric_ascii|]. apply N.eqb_eq in Hc. lia. Qed.

Lemma validate_youtube_Ok embed u : validate_youtube embed = Ok u -> youtube_video embed.
Proof.
  unfold validate_youtube, youtube_video. set (p := fun b => is_ascii_alphanumeric b || (b =? 95)%N || (b =? 45)%N).
  assert (ascii_only p) as Hp.
  { intros c [[Hc|Hc]%orb_true_iff|Hc]%orb_true_iff; [by apply alphanumeric_ascii|apply N.eqb_eq in Hc; lia..]. }
  intros Hv. inv_ok. bool_simpl.
  match goal with X : forallb p _ = true |- _ => apply (bytes_ascii_all p _ Hp) in X as Hall end.
  match goal with X : str_len _ = _ |- _ => rewrite (ascii_text_len p) in X by done end. split_and!; [lia| |by apply str_eqb_eq].
  eapply Forall_impl; [exact Hall|]. intros c. unfold p. cbv beta. rewrite !orb_true_iff, !N.eqb_eq. tauto.
Qed.
Lemma validate_x_Ok embed u : validate_x embed = Ok u -> x_status embed.
Proof.
  unfold validate_x, x_status. intros Hv. inv_ok. rename H3 into Hsegments.
  destruct (url_path_segments (em_canonical_url embed)) as [segments|]; [|done]. cbn in Hsegments.
  destruct segments as [|handle [|status [|id [|]]]]; try done. inv_ok. bool_simpl.
  repeat match goal with
  | X : is_some ?o = false |- _ => destruct o eqn:?; [done|clear X]
  | X : is_empty ?l = true |- _ => destruct l eqn:?; [clear X|done]
  | X : str_eqb _ _ = true |- _ => apply str_eqb_eq in X
  | X : forallb is_ascii_digit _ = true |- _ => apply (bytes_ascii_all _ _ digit_ascii) in X
  | X : forallb handle_byte _ = true |- _ => apply (bytes_ascii_all _ _ handle_ascii) in X
  end.
  rewrite (ascii_text_len is_ascii_digit) in * by (done || exact digit_ascii).
  rewrite (ascii_text_len handle_byte) in * by (done || exact handle_ascii). subst.
  split_and!; try done. exists handle. split_and!; try done; try lia; by (intros E; rewrite E in *).
Qed.

(** Accepted embeds of the known providers are normalized references: a
    watch URL that is determined by its video identifier, or a status URL below
    x.com whose last segment is the status identifier. *)
Theorem accepted_embeds_are_normalized embeds u : validate_official_embeds embeds = Ok u ->
  Forall (fun embed => (em_provider embed = lit "youtube" -> youtube_video embed)
                    /\ (em_provider embed = lit "x" -> x_status embed)) embeds.
Proof.
  unfold validate_official_embeds. generalize tt at 2. induction embeds as [|embed embeds IH]; intros [] Hv; [constructor|].
  cbn [for_fold] in Hv. inv_ok. constructor; [|by eapply IH].
  split; intros Hp; rewrite Hp in *; [by eapply validate_youtube_Ok|].
  match goal with X : (if str_eqb (lit "x") _ then _ else _) = _ |- _ => by eapply validate_x_Ok in X end.
Qed.
End embeds.
