(* ===== verification/Seo.v ===== *)
(** * Canonical URLs: [features/seo/src/lib.rs]

    The public URL of the installation and the absolute URLs built below it. *)

From Stdlib Require Import Bool NArith ZArith Lia.
From S2P Require Import Prelude Text Extern.

Section seo.
Context `{!UrlLib}.

Record SeoPolicy := {
  seo_public_url : Url;
  seo_article_base_path : rstr;
  seo_no_index : bool;
}.
Inductive SeoError := InvalidSlug | CannotBeBaseUrl | InvalidPublicUrl | InvalidBasePath | InvalidResourcePath.
Definition default_blog_path : rstr := lit "blog".

Definition dot_segment (segment : rstr) : bool := str_eqb segment (lit ".") || str_eqb segment (lit "..").
Definition bad_public_segment (segment : rstr) : bool :=
  is_empty segment || dot_segment segment
  || negb (forallb (fun byte => is_ascii_alphanumeric byte || one_of "-_.~%" byte) (bytes segment)).
Definition bad_base_segment (segment : rstr) : bool :=
  is_empty segment || dot_segment segment || negb (forallb (fun c => is_ascii_alphanumeric c || one_of "-_" c) segment).
Definition validate (self : SeoPolicy) : result SeoError unit :=
  let url := seo_public_url self in
  fail_if (negb (str_eqb (url_scheme url) (lit "http") || str_eqb (url_scheme url) (lit "https"))
           || is_none (url_host_str url) || negb (is_empty (url_username url)) || is_some (url_password url)
           || is_some (url_query url) || is_some (url_fragment url)) InvalidPublicUrl;;
  let public_path := trim_matches 47 (url_path url) in
  fail_if (negb (is_empty public_path) && existsb bad_public_segment (split 47 public_path)) InvalidPublicUrl;;
  fail_if (existsb bad_base_segment (split 47 (seo_article_base_path self))) InvalidBasePath.

Definition article_route_pattern (self : SeoPolicy) : result SeoError rstr :=
  validate self;;
  Ok (lit "/" ++ trim_matches 47 (seo_article_base_path self) ++ lit "/{slug}").
Definition canonical_article_url (self : SeoPolicy) (slug : rstr) : result SeoError Url :=
  validate self;;
  fail_if (is_empty (trim slug) || contains_char 47 slug || contains_char 92 slug || existsb is_control slug) InvalidSlug;;
  ok_or (url_push_segments (seo_public_url self)
    (List.filter (fun s => negb (is_empty s)) (split 47 (trim_matches 47 (seo_article_base_path self))) ++ [slug])) CannotBeBaseUrl.
Definition public_route_url (self : SeoPolicy) (path : rstr) : result SeoError Url :=
  validate self;;
  let path := default path (strip_prefix (lit "/") path) in
  fail_if (is_empty path || contains_char 92 path || contains_any "?#" path || existsb is_control path
           || existsb (fun s => is_empty s || dot_segment s) (split 47 path)) InvalidResourcePath;;
  ok_or (url_push_segments (seo_public_url self) (split 47 path)) CannotBeBaseUrl.
Definition public_resource_url (self : SeoPolicy) (segment : rstr) : result SeoError Url :=
  validate self;;
  fail_if (is_empty segment || contains_char 47 segment || contains_char 92 segment || existsb is_control segment) InvalidResourcePath;;
  public_route_url self segment.

(** A segment that the path of a URL keeps as it is. *)
Definition plain_segment (s : rstr) : Prop :=
  s <> [] /\ s <> lit "." /\ s <> lit ".." /\ (47%N ∉ s) /\ (92%N ∉ s) /\ (63%N ∉ s) /\ (35%N ∉ s)
  /\ Forall (fun c => is_control c = false) s.

Lemma split_member d s p : p ∈ split d s -> (d ∉ p) /\ forall c, c ∈ p -> c ∈ s.
Proof.
  intros Hp. split; [pose proof (split_pieces d s) as Ha; rewrite Forall_forall in Ha; by apply Ha|].
  pose proof (split_join d s) as Hj. revert Hp. generalize dependent (split d s). intros l Hj Hp c Hc. rewrite <-Hj. clear Hj s.
  induction Hp as [p l|p q l Hp IH]; cbn [join].
  - destruct l; [done|]. rewrite elem_of_app. by left.
  - destruct l; [by inversion Hp|]. rewrite !elem_of_app. right. right. by apply IH.
Qed.
Lemma control_free s c : existsb is_control s = false -> c ∈ s -> is_control c = false.
Proof.
  intros Hf Hc. apply not_true_iff_false. intros Ht. apply not_true_iff_false in Hf. apply Hf, existsb_exists.
  exists c. split; [by apply list_elem_of_In|done].
Qed.

(** An absolute URL for a public route consists of the public URL with plain
    segments appended, and those are the route's: nothing that a URL parser
    would normalize away or read as an authority, a query or a fragment is
    accepted. *)
Theorem public_route_is_plain (self : SeoPolicy) path url : public_route_url self path = Ok url ->
  exists segments, url_push_segments (seo_public_url self) segments = Some url
  /\ join [47%N] segments = default path (strip_prefix (lit "/") path)
  /\ segments <> [] /\ Forall plain_segment segments.
Proof.
  unfold public_route_url. intros Hr. inv_ok. set (p := default path (strip_prefix (lit "/") path)) in *.
  bool_simpl.
  exists (split 47 p). split_and!; [done|apply split_join| |].
  { intros E. pose proof (split_join 47 p) as Hj. rewrite E in Hj. cbn in Hj. by rewrite <-Hj in *. }
  match goal with X : existsb (fun s => is_empty s || dot_segment s) _ = false |- _ => rename X into Hdots end.
  match goal with X : contains_any _ _ = false |- _ => pose proof (proj1 (contains_any_false _ _) X) as Hany end.
  apply Forall_forall. intros segment Hin. destruct (split_member _ _ _ Hin) as [H47 Hsub].
  assert (is_empty segment || dot_segment segment = false) as Hs.
  { apply not_true_iff_false. intros Ht. apply not_true_iff_false in Hdots. apply Hdots, existsb_exists.
    exists segment. split; [by apply list_elem_of_In|done]. }
  unfold dot_segment in Hs. bool_simpl. unfold plain_segment. split_and!.
  - by intros ->.
  - by intros ->.
  - by intros ->.
  - done.
  - intros Hc. eapply contains_char_false; [|by apply Hsub]. done.
  - intros Hc. apply (Hany 63%N); [by apply Hsub|]. vm_compute. by left.
  - intros Hc. apply (Hany 35%N); [by apply Hsub|]. vm_compute. by right; left.
  - apply Forall_forall. intros c Hc. eapply control_free; [done|by apply Hsub].
Qed.
End seo.
