(* ===== verification/StoreBase.v ===== *)
(** * The SQLite schema and the transaction monad

    [crates/storage-sqlite/src/lib.rs]: the tables of [MIGRATION_1] to
    [MIGRATION_9] that hold content, as finite maps from primary keys to rows,
    the constraint checks SQLite performs for them, and transactions.

    A transaction is a function from the database to either an error or a
    result and the new database: an error path drops the [Transaction] value,
    which rolls back, so no state survives an [Err].  Identifiers and
    timestamps are stored as text in the program; both are compared here as the
    values they print ([extern] conventions).  JSON columns keep an abstract
    document ([StoreCodec]). *)

From Stdlib Require Import Bool NArith ZArith Lia.
From S2P Require Import Prelude Text Extern Content Ai2Ai.

(** ** Errors *)

Inductive RepositoryError :=
| NotFound
| DuplicateSlug
| RevisionConflict
| DuplicateIdempotencyKey
| Validation (message : rstr)
| Storage (message : rstr).
#[export] Instance RepositoryError_eq_dec : EqDecision RepositoryError.
Proof. solve_decision. Defined.

(** The constraint failures of SQLite that the schema can raise, and the text
    [rusqlite::Error::to_string] gives for them. *)
Inductive SqlError :=
| UniqueFailed (columns : rstr)
| ForeignKeyFailed
| CheckFailed (constraint : rstr)
| RaiseAbort (message : rstr).

Definition sql_error_text (e : SqlError) : rstr :=
  match e with
  | UniqueFailed columns => lit "UNIQUE constraint failed: " ++ columns
  | ForeignKeyFailed => lit "FOREIGN KEY constraint failed"
  | CheckFailed c => lit "CHECK constraint failed: " ++ c
  | RaiseAbort m => m
  end.

Definition storage_error (text : rstr) : RepositoryError := Storage text.

Definition map_constraint_error (e : SqlError) : RepositoryError :=
  let text := sql_error_text e in
  if contains (lit "UNIQUE constraint failed") text then DuplicateSlug
  else storage_error text.

Definition map_category_constraint_error (e : SqlError) : RepositoryError :=
  let text := sql_error_text e in
  if contains (lit "categories.site_id, categories.slug") text
     || contains (lit "documents.site_id, documents.current_slug") text then DuplicateSlug
  else if contains (lit "FOREIGN KEY constraint failed") text then NotFound
  else if contains (lit "CHECK constraint failed") text
  then Validation (lit "category record violates a storage constraint")
  else storage_error text.

Definition map_series_constraint_error (e : SqlError) : RepositoryError :=
  let text := sql_error_text e in
  if contains (lit "series.site_id, series.category_id") text
  then Validation (lit "the category is already a series")
  else if contains (lit "FOREIGN KEY constraint failed") text then NotFound
  else if contains (lit "CHECK constraint failed") text
  then Validation (lit "series record violates a storage constraint")
  else storage_error text.

Definition map_ai_proposal_constraint_error (e : SqlError) : RepositoryError :=
  let text := sql_error_text e in
  if contains (lit "ai_proposal_audits.message_id") text
     || contains (lit "ai_proposal_audits.idempotency_key") text
  then DuplicateIdempotencyKey
  else storage_error text.

Definition map_community_constraint_error (e : SqlError) : RepositoryError :=
  let text := sql_error_text e in
  if contains (lit "users.email") text then Validation (lit "email is already registered")
  else if contains (lit "users.handle") text
  then Validation (lit "user handle is already registered")
  else if contains (lit "sites.handle") text
  then Validation (lit "site handle is already registered")
  else if contains (lit "sessions.token_hash") text
  then Validation (lit "session credential is already registered")
  else if contains (lit "FOREIGN KEY constraint failed") text then NotFound
  else if contains (lit "CHECK constraint failed") text || contains (lit "UNIQUE constraint failed") text
  then Validation (lit "community record violates a storage constraint")
  else storage_error text.

(** The mapping [insert_revision] applies to its own statement. *)
Definition map_revision_constraint_error (e : SqlError) : RepositoryError :=
  let text := sql_error_text e in
  if contains (lit "idempotency_key") text then DuplicateIdempotencyKey
  else map_constraint_error e.

Definition content_error_message (e : ContentValidationError) : rstr :=
  match e with
  | InvalidTitle => lit "title must be 1 to 300 characters and contain no null bytes"
  | InvalidSlug => lit "slug is not a safe single path segment"
  | InvalidMarkdown => lit "Markdown exceeds the size limit or contains a null byte"
  | InvalidIntentLayer => lit "intent layer is invalid"
  | InvalidOntologyLayer => lit "ontology sidecar is invalid"
  | InvalidIdempotencyKey => lit "idempotency key is invalid"
  | InvalidEmbed => lit "embed reference is invalid or duplicated"
  | InvalidAuthorship => lit "public authorship metadata is invalid"
  | InvalidAiSummaryText =>
      lit "AI summary text must be 1 to 2000 characters and contain no active controls"
  | InvalidAiSummaryProvenance => lit "AI summary provenance is invalid"
  | AiSummaryRequiresHumanReview =>
      lit "AI summary must be reviewed by a human before it is stored or published"
  | AiSummarySourceMismatch =>
      lit "AI summary was generated from different title or Markdown source"
  end.

Definition envelope_error_message (e : Ai2AiValidationError) : rstr :=
  match e with
  | UnsupportedVersion => lit "unsupported AI2AI version"
  | EnvelopeInvalidIdempotencyKey => lit "invalid idempotency key"
  | MissingIdentityOrIntent => lit "actor identity and intent are required"
  | InvalidProposal => lit "proposed revision is invalid"
  | InvalidIdentifier =>
      lit "message, document, and base revision identifiers must be non-nil UUIDs"
  | InvalidTimestamp => lit "AI2AI timestamp is unreasonably far in the future"
  | InvalidPolicy => lit "AI policy snapshot is inconsistent or out of bounds"
  | InvalidContextReceipt => lit "AI context receipt is invalid, duplicated, or inconsistent"
  | InvalidProvenance => lit "AI provenance entry is invalid"
  end.

(** ** Rows *)

Inductive ThemeProfile := Paper | Ink | Forest | Terminal.
Inductive CategoryStatus := Active | CategoryArchived.
#[export] Instance CategoryStatus_eq_dec : EqDecision CategoryStatus.
Proof. solve_decision. Defined.
Inductive SiteMembershipRole := Owner | Editor | Writer.
#[export] Instance SiteMembershipRole_eq_dec : EqDecision SiteMembershipRole.
Proof. solve_decision. Defined.

Definition can_write (r : SiteMembershipRole) : bool :=
  match r with Owner | Editor | Writer => true end.
Definition is_owner (r : SiteMembershipRole) : bool :=
  match r with Owner => true | _ => false end.

(** [documents] *)
Record DocumentRow := {
  doc_site_id : Uuid;
  doc_status : DocumentStatus;
  doc_current_revision_id : Uuid;
  doc_published_revision_id : option Uuid;
  doc_current_slug : rstr;
  doc_created_at : DateTime;
  doc_updated_at : DateTime;
}.

(** [routes], keyed by [(site_id, path)] *)
Record RouteRow := {
  route_document_id : Uuid;
  route_is_canonical : bool;
  route_created_at : DateTime;
}.

(** [categories] *)
Record CategoryRow := {
  cat_site_id : Uuid;
  cat_slug : rstr;
  cat_title : rstr;
  cat_description : option rstr;
  cat_theme_profile : option ThemeProfile;
  cat_status : CategoryStatus;
  cat_created_by_user_id : Uuid;
  cat_created_at : DateTime;
  cat_updated_at : DateTime;
}.

(** [revision_categories], keyed by [revision_id] *)
Record PlacementRow := {
  pl_document_id : Uuid;
  pl_site_id : Uuid;
  pl_category_id : option Uuid;
  pl_assigned_by_user_id : option Uuid;
  pl_assigned_at : DateTime;
}.

(** [series] *)
Record SeriesRow := {
  se_site_id : Uuid;
  se_category_id : Uuid;
  se_home_position : Z;
  se_created_by_user_id : Uuid;
  se_created_at : DateTime;
  se_updated_at : DateTime;
}.

(** [series_items], keyed by [(series_id, document_id)] *)
Record SeriesItemRow := {
  si_site_id : Uuid;
  si_position : Z;
  si_added_at : DateTime;
}.

(** [home_pins], keyed by [slot] *)
Record HomePinRow := {
  hp_document_id : Uuid;
  hp_pinned_by_user_id : Uuid;
  hp_pinned_at : DateTime;
}.

(** [site_memberships], keyed by [(site_id, user_id)] *)
Record MembershipRow := {
  ms_role : SiteMembershipRole;
  ms_created_at : DateTime;
}.

(** [admin_control_plane]: the columns the content operations read. *)
Record ControlPlaneRow := {
  cp_primary_site_id : Uuid;
  cp_owner_user_id : Uuid;
}.

Inductive StoredCommentStatus := CommentPending | CommentApproved.
#[export] Instance StoredCommentStatus_eq_dec : EqDecision StoredCommentStatus.
Proof. solve_decision. Defined.

(** [comments] *)
Record CommentRow := {
  cm_site_id : Uuid;
  cm_document_id : Uuid;
  cm_author_user_id : Uuid;
  cm_source_markdown : rstr;
  cm_status : StoredCommentStatus;
  cm_created_at : DateTime;
  cm_updated_at : DateTime;
}.

(** [serde_json::to_string] / [from_str] on the two documents the store keeps:
    an accepted encoding is read back as the same value. *)
Class StoreCodec `{UrlLib} := {
  Json : Type;
  revision_to_json : RevisionSnapshot -> option Json;
  revision_of_json : Json -> option RevisionSnapshot;
  envelope_to_json : Ai2AiEnvelope -> option Json;
  envelope_of_json : Json -> option Ai2AiEnvelope;
}.

Definition codec_roundtrip `{StoreCodec} : Prop :=
  (forall r, exists j, revision_to_json r = Some j /\ revision_of_json j = Some r) /\
  (forall e, exists j, envelope_to_json e = Some j /\ envelope_of_json j = Some e).

Section schema.
Context `{StoreCodec}.

(** [revisions] *)
Record RevisionRow := {
  rev_document_id : Uuid;
  rev_number : N;
  rev_parent_revision_id : option Uuid;
  rev_slug : rstr;
  rev_snapshot_json : Json;
  rev_idempotency_key : option rstr;
  rev_created_at : DateTime;
}.

(** [ai_proposal_audits], keyed by [accepted_revision_id] *)
Record AuditRow := {
  ad_schema_version : rstr;
  ad_document_id : Uuid;
  ad_message_id : Uuid;
  ad_idempotency_key : rstr;
  ad_received_at : DateTime;
  ad_envelope_json : Json;
}.

Record DB := {
  documents : gmap Uuid DocumentRow;
  revisions : gmap Uuid RevisionRow;
  routes : gmap (Uuid * rstr) RouteRow;
  ai_proposal_audits : gmap Uuid AuditRow;
  categories : gmap Uuid CategoryRow;
  revision_categories : gmap Uuid PlacementRow;
  series : gmap Uuid SeriesRow;
  series_items : gmap (Uuid * Uuid) SeriesItemRow;
  home_pins : gmap Z HomePinRow;
  site_memberships : gmap (Uuid * Uuid) MembershipRow;
  users : gset Uuid;
  sites : gset Uuid;
  admin_control_plane : option ControlPlaneRow;
  comments : gmap Uuid CommentRow;
}.

Definition set_documents (db : DB) v := Build_DB v (revisions db) (routes db)
  (ai_proposal_audits db) (categories db) (revision_categories db) (series db) (series_items db)
  (home_pins db) (site_memberships db) (users db) (sites db) (admin_control_plane db) (comments db).
Definition set_revisions (db : DB) v := Build_DB (documents db) v (routes db)
  (ai_proposal_audits db) (categories db) (revision_categories db) (series db) (series_items db)
  (home_pins db) (site_memberships db) (users db) (sites db) (admin_control_plane db) (comments db).
Definition set_routes (db : DB) v := Build_DB (documents db) (revisions db) v
  (ai_proposal_audits db) (categories db) (revision_categories db) (series db) (series_items db)
  (home_pins db) (site_memberships db) (users db) (sites db) (admin_control_plane db) (comments db).
Definition set_audits (db : DB) v := Build_DB (documents db) (revisions db) (routes db)
  v (categories db) (revision_categories db) (series db) (series_items db)
  (home_pins db) (site_memberships db) (users db) (sites db) (admin_control_plane db) (comments db).
Definition set_categories (db : DB) v := Build_DB (documents db) (revisions db) (routes db)
  (ai_proposal_audits db) v (revision_categories db) (series db) (series_items db)
  (home_pins db) (site_memberships db) (users db) (sites db) (admin_control_plane db) (comments db).
Definition set_placements (db : DB) v := Build_DB (documents db) (revisions db) (routes db)
  (ai_proposal_audits db) (categories db) v (series db) (series_items db)
  (home_pins db) (site_memberships db) (users db) (sites db) (admin_control_plane db) (comments db).
Definition set_series (db : DB) v := Build_DB (documents db) (revisions db) (routes db)
  (ai_proposal_audits db) (categories db) (revision_categories db) v (series_items db)
  (home_pins db) (site_memberships db) (users db) (sites db) (admin_control_plane db) (comments db).
Definition set_series_items (db : DB) v := Build_DB (documents db) (revisions db) (routes db)
  (ai_proposal_audits db) (categories db) (revision_categories db) (series db) v
  (home_pins db) (site_memberships db) (users db) (sites db) (admin_control_plane db) (comments db).
Definition set_home_pins (db : DB) v := Build_DB (documents db) (revisions db) (routes db)
  (ai_proposal_audits db) (categories db) (revision_categories db) (series db) (series_items db)
  v (site_memberships db) (users db) (sites db) (admin_control_plane db) (comments db).
Definition set_comments (db : DB) v := Build_DB (documents db) (revisions db) (routes db)
  (ai_proposal_audits db) (categories db) (revision_categories db) (series db) (series_items db)
  (home_pins db) (site_memberships db) (users db) (sites db) (admin_control_plane db) v.

(** A freshly migrated database. *)
Definition empty_db : DB :=
  Build_DB ∅ ∅ ∅ ∅ ∅ ∅ ∅ ∅ ∅ ∅ ∅ ∅ None ∅.

(** ** Transactions *)

Definition query (A : Type) : Type := DB -> result RepositoryError A.
Definition tx (A : Type) : Type := DB -> result RepositoryError (A * DB).

#[export] Instance tx_ret : MRet tx := fun A a db => Ok (a, db).
#[export] Instance tx_bind : MBind tx := fun A B k m db =>
  match m db with Ok (a, db') => k a db' | Err e => Err e end.

Definition read {A} (q : query A) : tx A := fun db => a ← q db; Ok (a, db).
Definition raise {A} (e : RepositoryError) : tx A := fun _ => Err e.
Definition lift {A} (r : result RepositoryError A) : tx A := fun db => a ← r; Ok (a, db).

(** [Transaction::execute] with its [map_err]. *)
Definition execute (map : SqlError -> RepositoryError) (f : DB -> result SqlError DB) : tx unit :=
  fun db => match f db with Ok db' => Ok (tt, db') | Err e => Err (map e) end.
(** The same when the number of changed rows is used. *)
Definition execute_count (map : SqlError -> RepositoryError)
    (f : DB -> result SqlError (N * DB)) : tx N :=
  fun db => match f db with Ok nd => Ok nd | Err e => Err (map e) end.

Definition any_row {K V} `{Countable K} (p : K -> V -> bool) (t : gmap K V) : bool :=
  existsb (fun kv => p kv.1 kv.2) (map_to_list t).

(** The foreign keys declared [DEFERRABLE INITIALLY DEFERRED]. *)
Definition document_fks_hold (db : DB) (d : DocumentRow) : bool :=
  bool_decide (is_Some (revisions db !! doc_current_revision_id d))
  && is_none_or (fun r => bool_decide (is_Some (revisions db !! r))) (doc_published_revision_id d).
Definition revision_fks_hold (db : DB) (r : RevisionRow) : bool :=
  bool_decide (is_Some (documents db !! rev_document_id r)).
Definition deferred_fks_hold (db : DB) : bool :=
  negb (any_row (fun _ d => negb (document_fks_hold db d)) (documents db))
  && negb (any_row (fun _ r => negb (revision_fks_hold db r)) (revisions db)).

Definition commit : tx unit := fun db =>
  if deferred_fks_hold db then Ok (tt, db)
  else Err (storage_error (sql_error_text ForeignKeyFailed)).

(** [BEGIN], the body, [COMMIT]; any error leaves the database as it was. *)
Definition transaction {A} (m : tx A) (db : DB) : result RepositoryError A * DB :=
  match (a ← m; commit;; mret a) db with
  | Ok (a, db') => (Ok a, db')
  | Err e => (Err e, db)
  end.

(** ** Lemmas on transactions *)

Lemma tx_bind_Ok {A B} (m : tx A) (k : A -> tx B) db b db' :
  (m ≫= k) db = Ok (b, db') <-> exists a d, m db = Ok (a, d) /\ k a d = Ok (b, db').
Proof. unfold mbind, tx_bind. destruct (m db) as [[a d]|]; naive_solver. Qed.
Lemma read_Ok {A} (q : query A) db a db' :
  read q db = Ok (a, db') <-> q db = Ok a /\ db' = db.
Proof. unfold read. destruct (q db); cbn; naive_solver. Qed.
Lemma lift_Ok {A} (r : result RepositoryError A) db a db' :
  lift r db = Ok (a, db') <-> r = Ok a /\ db' = db.
Proof. unfold lift. destruct r; cbn; naive_solver. Qed.
Lemma execute_Ok map f db u db' :
  execute map f db = Ok (u, db') <-> f db = Ok db'.
Proof. unfold execute. destruct u, (f db); naive_solver. Qed.
Lemma execute_count_Ok map f db n db' :
  execute_count map f db = Ok (n, db') <-> f db = Ok (n, db').
Proof. unfold execute_count. destruct (f db); naive_solver. Qed.
Lemma ret_Ok {A} (a b : A) db db' : (mret a : tx A) db = Ok (b, db') <-> a = b /\ db = db'.
Proof. unfold mret, tx_ret. naive_solver. Qed.
Lemma commit_Ok db u db' : commit db = Ok (u, db') <-> deferred_fks_hold db = true /\ db' = db.
Proof. unfold commit. destruct u, (deferred_fks_hold db); naive_solver. Qed.

Lemma any_row_true {K V} `{Countable K} (p : K -> V -> bool) (t : gmap K V) :
  any_row p t = true <-> exists k v, t !! k = Some v /\ p k v = true.
Proof.
  unfold any_row. rewrite existsb_exists. split.
  - intros ([k v] & Hin%list_elem_of_In%elem_of_map_to_list & ?). eauto.
  - intros (k & v & Hkv & ?). exists (k, v).
    by rewrite <-list_elem_of_In, elem_of_map_to_list.
Qed.
Lemma any_row_false {K V} `{Countable K} (p : K -> V -> bool) (t : gmap K V) :
  any_row p t = false <-> forall k v, t !! k = Some v -> p k v = false.
Proof.
  rewrite <-not_true_iff_false, any_row_true. split.
  - intros Hn k v Hkv. apply not_true_iff_false. naive_solver.
  - intros Hf (k & v & Hkv & Hp). rewrite (Hf k v Hkv) in Hp. done.
Qed.

Lemma deferred_fks_hold_true db :
  deferred_fks_hold db = true <->
  (forall d row, documents db !! d = Some row ->
     is_Some (revisions db !! doc_current_revision_id row) /\
     forall r, doc_published_revision_id row = Some r -> is_Some (revisions db !! r)) /\
  (forall r row, revisions db !! r = Some row -> is_Some (documents db !! rev_document_id row)).
Proof.
  unfold deferred_fks_hold. rewrite andb_true_iff, !negb_true_iff, !any_row_false.
  setoid_rewrite negb_false_iff. unfold document_fks_hold, revision_fks_hold, is_none_or.
  setoid_rewrite andb_true_iff. setoid_rewrite bool_decide_eq_true.
  split; intros [Hd Hr]; (split; [|exact Hr]); intros d row Hrow; specialize (Hd d row Hrow) as [? Hp].
  - split; [done|]. intros r E. rewrite E in Hp. by apply bool_decide_eq_true in Hp.
  - split; [done|]. destruct (doc_published_revision_id row) as [r|]; [|done].
    apply bool_decide_eq_true. by apply Hp.
Qed.

(** An error never changes the database. *)
Lemma transaction_error {A} (m : tx A) db e db' :
  transaction m db = (Err e, db') -> db' = db.
Proof. unfold transaction. destruct ((a ← m; commit;; mret a) db) as [[]|]; naive_solver. Qed.
Lemma transaction_Ok {A} (m : tx A) db a db' :
  transaction m db = (Ok a, db') <-> m db = Ok (a, db') /\ deferred_fks_hold db' = true.
Proof.
  unfold transaction, mbind, tx_bind, commit, mret, tx_ret.
  destruct (m db) as [[b d]|]; [|split; [done|by intros [[=] _]]].
  destruct (deferred_fks_hold d) eqn:E; (split; [intros ?|intros [??]]; simplify_eq; done || congruence).
Qed.
End schema.

(** [inv_tx]: run a successful transaction body backwards. *)
Ltac inv_tx :=
  repeat match goal with
  | H : (_ ≫= _) _ = Ok _ |- _ => apply tx_bind_Ok in H as (? & ? & ? & ?)
  | H : read _ _ = Ok _ |- _ => apply read_Ok in H as [? ->]
  | H : lift _ _ = Ok _ |- _ => apply lift_Ok in H as [? ->]
  | H : execute _ _ _ = Ok _ |- _ => apply execute_Ok in H
  | H : execute_count _ _ _ = Ok _ |- _ => apply execute_count_Ok in H
  | H : mret _ _ = Ok _ |- _ => apply ret_Ok in H as [? ?]
  | H : raise _ _ = Ok _ |- _ => discriminate H
  end; subst; inv_ok.

(** ** SQL helpers *)

(** [ORDER BY]: a stable sort by a total preorder given as a boolean [<=]. *)
Section order_by.
Context {A : Type} (leb : A -> A -> bool).

Definition leb_rel : relation A := fun x y => leb x y = true.
#[local] Instance leb_rel_dec x y : Decision (leb_rel x y) := bool_dec (leb x y) true.

Definition order_by (l : list A) : list A := merge_sort leb_rel l.

Lemma order_by_Permutation l : order_by l ≡ₚ l.
Proof. apply merge_sort_Permutation. Qed.
Lemma elem_of_order_by x l : x ∈ order_by l <-> x ∈ l.
Proof. by rewrite order_by_Permutation. Qed.
Lemma order_by_StronglySorted l :
  (forall x y, leb x y = true \/ leb y x = true) ->
  (forall x y z, leb x y = true -> leb y z = true -> leb x z = true) ->
  StronglySorted (fun x y => leb x y = true) (order_by l).
Proof.
  intros Htot Htrans.
  assert (Transitive leb_rel) by exact Htrans. assert (Total leb_rel) by exact Htot.
  exact (StronglySorted_merge_sort leb_rel l).
Qed.
End order_by.

(** [LIMIT n] *)
Definition limit {A} (n : N) (l : list A) : list A := take (N.to_nat n) l.

(** [COLLATE NOCASE] *)
Definition nocase_eqb (a b : rstr) : bool := str_eqb (to_ascii_lowercase a) (to_ascii_lowercase b).
