(* ===== verification/StoreTaxonomy.v ===== *)
(** * Categories, series and route paths

    [crates/storage-sqlite/src/lib.rs]: slug normalisation, the category and
    series records, the paths a document may occupy, and the ordered membership
    of a series.  Identifiers ([Uuid::now_v7]) and the clock are arguments. *)

From Stdlib Require Import Bool NArith ZArith Lia.
From S2P Require Import Prelude Text Extern Content Ai2Ai StoreBase.

(** ** Enumerations stored as text *)

Definition ThemeProfile_as_str (t : ThemeProfile) : rstr :=
  match t with
  | Paper => lit "paper" | Ink => lit "ink" | Forest => lit "forest" | Terminal => lit "terminal"
  end.
Definition ThemeProfile_from_str (v : rstr) : result RepositoryError ThemeProfile :=
  if str_eqb v (lit "paper") then Ok Paper
  else if str_eqb v (lit "ink") then Ok Ink
  else if str_eqb v (lit "forest") then Ok Forest
  else if str_eqb v (lit "terminal") then Ok Terminal
  else Err (Validation (lit "theme profile must be one of paper, ink, forest, or terminal")).

Definition CategoryStatus_as_str (s : CategoryStatus) : rstr :=
  match s with Active => lit "active" | CategoryArchived => lit "archived" end.
Definition CategoryStatus_from_str (v : rstr) : result RepositoryError CategoryStatus :=
  if str_eqb v (lit "active") then Ok Active
  else if str_eqb v (lit "archived") then Ok CategoryArchived
  else Err (Storage (lit "unknown category status " ++ v)).

Definition parse_status (v : rstr) : result RepositoryError DocumentStatus :=
  if str_eqb v (lit "draft") then Ok Draft
  else if str_eqb v (lit "published") then Ok Published
  else if str_eqb v (lit "archived") then Ok Archived
  else Err (Storage (lit "unknown document status " ++ v)).

(** ** Text normalisation *)

Definition handle_byte (b : N) : bool := is_ascii_lowercase b || is_ascii_digit b || (b =? 45)%N.

Definition normalize_handle (value field : rstr) : result RepositoryError rstr :=
  let normalized := to_ascii_lowercase (trim value) in
  fail_if (is_empty normalized || (40 <? str_len normalized)%N || negb (is_ascii normalized)
           || starts_with (lit "-") normalized || ends_with (lit "-") normalized
           || existsb (fun b => negb (is_ascii_lowercase b) && negb (is_ascii_digit b)
                                && negb (b =? 45)%N) (bytes normalized))
    (Validation (field ++ lit " must contain 1-40 lowercase ASCII letters, digits, or interior hyphens"));;
  Ok normalized.

Definition normalize_category_slug (value : rstr) : result RepositoryError rstr :=
  normalize_handle value (lit "category slug").

Definition RESERVED : list rstr :=
  lit <$> ["api"; "assets"; "blog"; "docs"; "healthz"; "livez"; "login"; "media"; "onboarding";
           "openapi"; "providers"; "references"; "readyz"; "schemas"; "studio"; "vendor"]%string.

Definition normalize_new_category_slug (value : rstr) : result RepositoryError rstr :=
  slug ← normalize_category_slug value;
  fail_if (existsb (str_eqb slug) RESERVED)
    (Validation (lit "category slug '" ++ slug ++ lit "' is reserved by the application"));;
  Ok slug.

Definition validate_required_text (value field : rstr) (max_chars : N)
    : result RepositoryError rstr :=
  let value := trim value in
  fail_if (is_empty value || (max_chars <? char_count value)%N || contains_nul value)
    (Validation (field ++ lit " must contain 1-" ++ show_N max_chars ++ lit " characters"));;
  Ok value.

Definition validate_optional_text (value : option rstr) (field : rstr) (max_chars : N)
    : result RepositoryError (option rstr) :=
  match trim <$> value with
  | Some v =>
      if is_empty v then Ok None
      else if (max_chars <? char_count v)%N || contains_nul v
      then Err (Validation (field ++ lit " must not exceed " ++ show_N max_chars ++ lit " characters"))
      else Ok (Some v)
  | None => Ok None
  end.

(** ** Records returned to callers *)

Record CategoryRecord := {
  cr_id : Uuid;
  cr_site_id : Uuid;
  cr_slug : rstr;
  cr_title : rstr;
  cr_description : option rstr;
  cr_theme_profile : option ThemeProfile;
  cr_status : CategoryStatus;
  cr_created_by_user_id : Uuid;
  cr_created_at : DateTime;
  cr_updated_at : DateTime;
}.

Record CreateCategoryInput := {
  cci_slug : rstr;
  cci_title : rstr;
  cci_description : option rstr;
  cci_theme_profile : option ThemeProfile;
}.
Record UpdateCategoryInput := {
  uci_title : rstr;
  uci_description : option rstr;
  uci_theme_profile : option ThemeProfile;
}.

Record SeriesRecord := {
  sr_id : Uuid;
  sr_site_id : Uuid;
  sr_category_id : Uuid;
  sr_slug : rstr;
  sr_title : rstr;
  sr_description : option rstr;
  sr_theme_profile : option ThemeProfile;
  sr_status : CategoryStatus;
  sr_home_position : Z;
  sr_created_by_user_id : Uuid;
  sr_created_at : DateTime;
  sr_updated_at : DateTime;
}.

Record SeriesItemRecord := {
  sir_series_id : Uuid;
  sir_site_id : Uuid;
  sir_document_id : Uuid;
  sir_position : Z;
  sir_added_at : DateTime;
}.

Record RevisionCategoryPlacement := {
  rcp_revision_id : Uuid;
  rcp_document_id : Uuid;
  rcp_site_id : Uuid;
  rcp_category_id : option Uuid;
  rcp_assigned_by_user_id : option Uuid;
  rcp_assigned_at : DateTime;
}.

Definition parse_category_row (id : Uuid) (c : CategoryRow) : CategoryRecord := {|
  cr_id := id; cr_site_id := cat_site_id c; cr_slug := cat_slug c; cr_title := cat_title c;
  cr_description := cat_description c; cr_theme_profile := cat_theme_profile c;
  cr_status := cat_status c; cr_created_by_user_id := cat_created_by_user_id c;
  cr_created_at := cat_created_at c; cr_updated_at := cat_updated_at c;
|}.

Definition SERIES_POSITION_STEP : Z := 1024.
Definition i64_max : Z := 2 ^ 63 - 1.
Definition u64_max : Z := 2 ^ 64 - 1.

(** [series_position]: checked u64 arithmetic, then a checked conversion. *)
Definition series_position (index : Z) : result RepositoryError Z :=
  ordinal ← (let o := (index + 1)%Z in
             if (o <=? u64_max)%Z && (o * SERIES_POSITION_STEP <=? u64_max)%Z
             then Ok (o * SERIES_POSITION_STEP)%Z
             else Err (Validation (lit "series position overflow")));
  if (ordinal <=? i64_max)%Z then Ok ordinal
  else Err (Validation (lit "out of range integral type conversion attempted")).

Definition page_parameter (value : N) : result RepositoryError Z :=
  if (Z.of_N value <=? i64_max)%Z then Ok (Z.of_N value)
  else Err (Validation (lit "pagination offset or limit is too large")).

(** [LIMIT ?1 OFFSET ?2] with both parameters checked. *)
Definition page {A} (offset lim : N) (l : list A) : result RepositoryError (list A) :=
  lim ← page_parameter lim;
  offset ← page_parameter offset;
  Ok (limit (Z.to_N lim) (drop (Z.to_nat offset) l)).

Section taxonomy.
Context `{StoreCodec}.

(** ** Access scopes *)

Definition owns_site_in_connection (user_id site_id : Uuid) : query bool := fun db =>
  Ok match site_memberships db !! (site_id, user_id) with
     | Some m => bool_decide (ms_role m = Owner)
     | None => false
     end.
Definition ensure_site_owner (user_id site_id : Uuid) : query unit := fun db =>
  owns ← owns_site_in_connection user_id site_id db;
  if (owns : bool) then Ok tt else Err NotFound.

Definition load_site_membership (site_id user_id : Uuid) : query MembershipRow := fun db =>
  ok_or (site_memberships db !! (site_id, user_id)) NotFound.
Definition ensure_site_writer (user_id site_id : Uuid) : query SiteMembershipRole := fun db =>
  membership ← load_site_membership site_id user_id db;
  if can_write (ms_role membership) then Ok (ms_role membership) else Err NotFound.

Definition ensure_user_exists (user_id : Uuid) : query unit := fun db =>
  if bool_decide (user_id ∈ users db) then Ok tt else Err NotFound.
Definition ensure_site_exists (site_id : Uuid) : query unit := fun db =>
  if bool_decide (site_id ∈ sites db) then Ok tt else Err NotFound.
Definition ensure_document_exists (document_id : Uuid) : query unit := fun db =>
  if is_some (documents db !! document_id) then Ok tt else Err NotFound.
Definition ensure_document_in_site (site_id document_id : Uuid) : query unit := fun db =>
  match documents db !! document_id with
  | Some d => if (doc_site_id d =? site_id)%N then Ok tt else Err NotFound
  | None => Err NotFound
  end.

(** A document with a published revision that is not archived. *)
Definition is_public (d : DocumentRow) : bool :=
  is_some (doc_published_revision_id d) && negb (bool_decide (doc_status d = Archived)).
Definition ensure_published_document_in_site (site_id document_id : Uuid) : query unit := fun db =>
  match documents db !! document_id with
  | Some d => if (doc_site_id d =? site_id)%N && is_public d then Ok tt else Err NotFound
  | None => Err NotFound
  end.

(** ** Categories *)

Definition load_category_by_id (site_id category_id : Uuid) : query CategoryRecord := fun db =>
  match categories db !! category_id with
  | Some c => if (cat_site_id c =? site_id)%N then Ok (parse_category_row category_id c) else Err NotFound
  | None => Err NotFound
  end.

Definition category_has_slug (site_id : Uuid) (slug : rstr) (_ : Uuid) (c : CategoryRow) : bool :=
  (cat_site_id c =? site_id)%N && nocase_eqb (cat_slug c) slug.
Definition load_category_by_slug (site_id : Uuid) (slug : rstr) : query CategoryRecord := fun db =>
  match List.find (fun kv => category_has_slug site_id slug kv.1 kv.2) (map_to_list (categories db)) with
  | Some (id, c) => Ok (parse_category_row id c)
  | None => Err NotFound
  end.

(** ** Paths *)

Definition category_route_path (category : option CategoryRecord) (revision_slug : rstr) : rstr :=
  match category with
  | Some c => cr_slug c ++ lit "/" ++ revision_slug
  | None => revision_slug
  end.

Definition document_has_slug (site_id : Uuid) (path : rstr) (_ : Uuid) (d : DocumentRow) : bool :=
  (doc_site_id d =? site_id)%N && str_eqb (doc_current_slug d) path.

Definition ensure_category_landing_available (site_id : Uuid) (category_slug : rstr) : query unit :=
  fun db =>
  if any_row (document_has_slug site_id category_slug) (documents db)
     || is_some (routes db !! (site_id, category_slug))
  then Err DuplicateSlug else Ok tt.

Definition ensure_root_slug_not_category (site_id : Uuid) (revision_slug : rstr) : query unit :=
  fun db =>
  if any_row (category_has_slug site_id revision_slug) (categories db)
  then Err DuplicateSlug else Ok tt.

Definition ensure_document_route_available (site_id document_id : Uuid) (route_path : rstr)
    : query unit := fun db =>
  if any_row (fun id d => document_has_slug site_id route_path id d && negb (id =? document_id)%N)
       (documents db)
     || is_some_and (fun r => negb (route_document_id r =? document_id)%N)
          (routes db !! (site_id, route_path))
  then Err DuplicateSlug else Ok tt.

Definition load_revision_category_placement (site_id document_id revision_id : Uuid)
    : query RevisionCategoryPlacement := fun db =>
  match revision_categories db !! revision_id with
  | Some p =>
      if (pl_document_id p =? document_id)%N && (pl_site_id p =? site_id)%N
      then Ok {| rcp_revision_id := revision_id; rcp_document_id := document_id;
                 rcp_site_id := site_id; rcp_category_id := pl_category_id p;
                 rcp_assigned_by_user_id := pl_assigned_by_user_id p;
                 rcp_assigned_at := pl_assigned_at p |}
      else Err NotFound
  | None => Err NotFound
  end.

Definition archived_receives (what : string) : RepositoryError :=
  Validation (lit "archived categories cannot receive " ++ lit what).
Definition is_inactive (category : option CategoryRecord) : bool :=
  is_some_and (fun c => negb (bool_decide (cr_status c = Active))) category.

Definition revision_category_route_path (site_id document_id revision_id : Uuid)
    (revision_slug : rstr) (require_active : bool) : query rstr := fun db =>
  placement ← load_revision_category_placement site_id document_id revision_id db;
  category ← transpose_map (fun id => load_category_by_id site_id id db) (rcp_category_id placement);
  fail_if (require_active && is_inactive category) (archived_receives "publications");;
  match category with
  | None => ensure_root_slug_not_category site_id revision_slug db
  | Some _ => Ok tt
  end;;
  Ok (category_route_path category revision_slug).

(** ** Category operations *)

Definition category_slug_checks (slug : rstr) : bool :=
  str_eqb slug (to_ascii_lowercase slug) && within 1 40 (char_count slug)
  && forallb handle_byte slug
  && negb (starts_with (lit "-") slug) && negb (ends_with (lit "-") slug).

Definition insert_category (id : Uuid) (row : CategoryRow) (db : DB) : result SqlError DB :=
  fail_if (negb (category_slug_checks (cat_slug row))) (CheckFailed (lit "slug"));;
  fail_if (is_some (categories db !! id)) (UniqueFailed (lit "categories.id"));;
  fail_if (any_row (category_has_slug (cat_site_id row) (cat_slug row)) (categories db))
    (UniqueFailed (lit "categories.site_id, categories.slug"));;
  fail_if (negb (bool_decide (cat_site_id row ∈ sites db))
           || negb (bool_decide (cat_created_by_user_id row ∈ users db))) ForeignKeyFailed;;
  Ok (set_categories db (<[id := row]> (categories db))).

Definition create_category_in_transaction (owner_user_id site_id : Uuid)
    (input : CreateCategoryInput) (id : Uuid) (now : DateTime) : tx CategoryRecord :=
  slug ← lift (normalize_new_category_slug (cci_slug input));
  title ← lift (validate_required_text (cci_title input) (lit "category title") 200);
  description ← lift (validate_optional_text (cci_description input) (lit "category description") 2000);
  read (ensure_category_landing_available site_id slug);;
  execute map_category_constraint_error (insert_category id {|
    cat_site_id := site_id; cat_slug := slug; cat_title := title; cat_description := description;
    cat_theme_profile := cci_theme_profile input; cat_status := Active;
    cat_created_by_user_id := owner_user_id; cat_created_at := now; cat_updated_at := now |});;
  read (load_category_by_id site_id id).

Definition create_category (owner_user_id site_id : Uuid) (input : CreateCategoryInput)
    (id : Uuid) (now : DateTime) : DB -> result RepositoryError CategoryRecord * DB :=
  transaction (
    read (ensure_site_owner owner_user_id site_id);;
    create_category_in_transaction owner_user_id site_id input id now).

(** [UPDATE categories SET title, description, theme_profile, updated_at]:
    the slug and the status are never among the columns. *)
Definition update_category_row (site_id category_id : Uuid) (title : rstr)
    (description : option rstr) (theme : option ThemeProfile) (now : DateTime) (db : DB) : DB :=
  set_categories db (alter (fun c =>
    if (cat_site_id c =? site_id)%N
    then {| cat_site_id := cat_site_id c; cat_slug := cat_slug c; cat_title := title;
            cat_description := description; cat_theme_profile := theme; cat_status := cat_status c;
            cat_created_by_user_id := cat_created_by_user_id c; cat_created_at := cat_created_at c;
            cat_updated_at := now |}
    else c) category_id (categories db)).

Definition archive_category_row (site_id category_id : Uuid) (now : DateTime) (db : DB) : DB :=
  set_categories db (alter (fun c =>
    if (cat_site_id c =? site_id)%N
    then {| cat_site_id := cat_site_id c; cat_slug := cat_slug c; cat_title := cat_title c;
            cat_description := cat_description c; cat_theme_profile := cat_theme_profile c;
            cat_status := CategoryArchived; cat_created_by_user_id := cat_created_by_user_id c;
            cat_created_at := cat_created_at c; cat_updated_at := now |}
    else c) category_id (categories db)).

Definition sql_storage (e : SqlError) : RepositoryError := storage_error (sql_error_text e).

(** A read after [COMMIT] on the same connection. *)
Definition then_load {A B} (r : result RepositoryError A * DB) (q : query B)
    : result RepositoryError B * DB :=
  match r with
  | (Ok _, db) => (q db, db)
  | (Err e, db) => (Err e, db)
  end.

Definition update_category (owner_user_id site_id category_id : Uuid)
    (input : UpdateCategoryInput) (now : DateTime) (db : DB) : result RepositoryError CategoryRecord * DB :=
  then_load (transaction (
    title ← lift (validate_required_text (uci_title input) (lit "category title") 200);
    description ← lift (validate_optional_text (uci_description input) (lit "category description") 2000);
    read (ensure_site_owner owner_user_id site_id);;
    read (load_category_by_id site_id category_id);;
    execute map_category_constraint_error (fun db =>
      Ok (update_category_row site_id category_id title description (uci_theme_profile input) now db))) db)
    (load_category_by_id site_id category_id).

Definition archive_category (owner_user_id site_id category_id : Uuid) (now : DateTime) (db : DB)
    : result RepositoryError CategoryRecord * DB :=
  then_load (transaction (
    read (ensure_site_owner owner_user_id site_id);;
    category ← read (load_category_by_id site_id category_id);
    if bool_decide (cr_status category = Active)
    then execute sql_storage (fun db => Ok (archive_category_row site_id category_id now db))
    else mret tt) db)
    (load_category_by_id site_id category_id).

(** ** Series *)

(** [series_select]: a series with its backing category. *)
Definition series_select (db : DB) (id : Uuid) (s : SeriesRow) : option SeriesRecord :=
  c ← categories db !! se_category_id s;
  if (cat_site_id c =? se_site_id s)%N
  then Some {|
    sr_id := id; sr_site_id := se_site_id s; sr_category_id := se_category_id s;
    sr_slug := cat_slug c; sr_title := cat_title c; sr_description := cat_description c;
    sr_theme_profile := cat_theme_profile c; sr_status := cat_status c;
    sr_home_position := se_home_position s; sr_created_by_user_id := se_created_by_user_id s;
    sr_created_at := se_created_at s;
    sr_updated_at := if (se_updated_at s <? cat_updated_at c)%Z then cat_updated_at c else se_updated_at s |}
  else None.
Definition series_records (db : DB) : list SeriesRecord :=
  omap (fun kv => series_select db kv.1 kv.2) (map_to_list (series db)).

Definition load_series_by_id (site_id series_id : Uuid) : query SeriesRecord := fun db =>
  ok_or (List.find (fun r => (sr_id r =? series_id)%N && (sr_site_id r =? site_id)%N) (series_records db))
    NotFound.
Definition load_series_by_category_id (site_id category_id : Uuid) : query SeriesRecord := fun db =>
  ok_or (List.find (fun r => (sr_category_id r =? category_id)%N && (sr_site_id r =? site_id)%N)
    (series_records db)) NotFound.
Definition load_series_by_slug (site_id : Uuid) (slug : rstr) : query SeriesRecord := fun db =>
  ok_or (List.find (fun r => (sr_site_id r =? site_id)%N && nocase_eqb (sr_slug r) slug)
    (series_records db)) NotFound.

Definition status_rank (s : CategoryStatus) : Z := match s with Active => 0 | CategoryArchived => 1 end.
Definition series_listing_leb (a b : SeriesRecord) : bool :=
  (status_rank (sr_status a) <? status_rank (sr_status b))%Z
  || ((status_rank (sr_status a) =? status_rank (sr_status b))%Z
      && ((sr_home_position a <? sr_home_position b)%Z
          || ((sr_home_position a =? sr_home_position b)%Z && (sr_id a <=? sr_id b)%N))).
Definition list_series_with_connection (site_id : Uuid) (include_archived : bool) (n : N)
    : query (list SeriesRecord) := fun db =>
  Ok (limit (N.min n 500) (order_by series_listing_leb
    (List.filter (fun r => (sr_site_id r =? site_id)%N
                           && (include_archived || bool_decide (sr_status r = Active)))
      (series_records db)))).

(** The document's published revision is placed in the given category. *)
Definition published_in (db : DB) (site_id category_id document_id : Uuid) (d : DocumentRow) : bool :=
  (doc_site_id d =? site_id)%N && is_public d
  && is_some_and (fun r =>
       is_some_and (fun p => (pl_document_id p =? document_id)%N && (pl_site_id p =? doc_site_id d)%N
                             && bool_decide (pl_category_id p = Some category_id))
         (revision_categories db !! r))
       (doc_published_revision_id d).

(** The join of [series_items] with its series, document and published
    placement. *)
Definition item_is_public (db : DB) (site_id series_id : Uuid) (k : Uuid * Uuid)
    (item : SeriesItemRow) : bool :=
  (k.1 =? series_id)%N && (si_site_id item =? site_id)%N
  && is_some_and (fun s => (se_site_id s =? si_site_id item)%N
       && is_some_and (published_in db (si_site_id item) (se_category_id s) k.2) (documents db !! k.2))
     (series db !! k.1).

Definition item_record (kv : (Uuid * Uuid) * SeriesItemRow) : SeriesItemRecord := {|
  sir_series_id := kv.1.1; sir_site_id := si_site_id kv.2; sir_document_id := kv.1.2;
  sir_position := si_position kv.2; sir_added_at := si_added_at kv.2 |}.
Definition item_leb (a b : SeriesItemRecord) : bool :=
  (sir_position a <? sir_position b)%Z
  || ((sir_position a =? sir_position b)%Z && (sir_document_id a <=? sir_document_id b)%N).
Definition public_items (db : DB) (site_id series_id : Uuid) : list SeriesItemRecord :=
  item_record <$> List.filter (fun kv => item_is_public db site_id series_id kv.1 kv.2)
    (map_to_list (series_items db)).
Definition list_published_series_items_with_connection (site_id series_id : Uuid) (n : N)
    : query (list SeriesItemRecord) := fun db =>
  Ok (limit (N.min n 501) (order_by item_leb (public_items db site_id series_id))).

(** [COALESCE(MAX(position), 0) + step]; SQLite answers an overflowing sum
    with a REAL, which the i64 column read refuses. *)
Definition next_position (positions : list Z) : result RepositoryError Z :=
  let p := (match positions with [] => 0 | x :: xs => fold_left Z.max xs x end + SERIES_POSITION_STEP)%Z in
  if (p <=? i64_max)%Z then Ok p else Err (storage_error (lit "Invalid column type Real at index: 0")).

Definition series_full : RepositoryError :=
  Validation (lit "a series cannot contain more than 500 published documents").

Definition insert_series_item (series_id document_id : Uuid) (row : SeriesItemRow) (db : DB)
    : result SqlError DB :=
  fail_if (si_position row <=? 0)%Z (CheckFailed (lit "position > 0"));;
  fail_if (is_some (series_items db !! (series_id, document_id)))
    (UniqueFailed (lit "series_items.series_id, series_items.document_id"));;
  fail_if (negb (is_some_and (fun s => (se_site_id s =? si_site_id row)%N) (series db !! series_id))
           || negb (is_some_and (fun d => (doc_site_id d =? si_site_id row)%N) (documents db !! document_id)))
    ForeignKeyFailed;;
  Ok (set_series_items db (<[(series_id, document_id) := row]> (series_items db))).

(** The series whose category holds the revision's placement. *)
Definition series_of_revision (site_id document_id revision_id : Uuid) : query (option Uuid) := fun db =>
  Ok match revision_categories db !! revision_id with
     | Some p =>
         if (pl_document_id p =? document_id)%N && (pl_site_id p =? site_id)%N
         then fst <$> List.find (fun kv => bool_decide (pl_category_id p = Some (se_category_id kv.2))
                                           && (se_site_id kv.2 =? pl_site_id p)%N)
                        (map_to_list (series db))
         else None
     | None => None
     end.

Definition ensure_series_item_for_revision_in_transaction
    (site_id document_id revision_id : Uuid) (now : DateTime) : tx unit :=
  series_id ← read (series_of_revision site_id document_id revision_id);
  match series_id with
  | None => mret tt
  | Some series_id =>
      already ← read (fun db => Ok (is_some_and (fun i => (si_site_id i =? site_id)%N)
                                      (series_items db !! (series_id, document_id))));
      if (already : bool) then mret tt
      else
        count ← read (fun db => Ok (size_of (public_items db site_id series_id)));
        lift (fail_if (500 <=? count)%N series_full);;
        position ← read (fun db => next_position
          ((fun kv => si_position kv.2) <$> List.filter
             (fun kv => (kv.1.1 =? series_id)%N && (si_site_id kv.2 =? site_id)%N)
             (map_to_list (series_items db))));
        lift (fail_if (position <=? 0)%Z (Validation (lit "series position overflow")));;
        execute map_series_constraint_error (insert_series_item series_id document_id
          {| si_site_id := site_id; si_position := position; si_added_at := now |})
  end.

Definition insert_series (id : Uuid) (row : SeriesRow) (db : DB) : result SqlError DB :=
  fail_if (se_home_position row <=? 0)%Z (CheckFailed (lit "home_position > 0"));;
  fail_if (is_some (series db !! id)) (UniqueFailed (lit "series.id"));;
  fail_if (any_row (fun _ s => (se_site_id s =? se_site_id row)%N
                               && (se_category_id s =? se_category_id row)%N) (series db))
    (UniqueFailed (lit "series.site_id, series.category_id"));;
  fail_if (negb (is_some_and (fun c => (cat_site_id c =? se_site_id row)%N)
                   (categories db !! se_category_id row))
           || negb (bool_decide (se_created_by_user_id row ∈ users db))) ForeignKeyFailed;;
  Ok (set_series db (<[id := row]> (series db))).

(** Documents whose published revision is in the category, oldest first. *)
Definition oldest_first_leb (a b : Uuid * DocumentRow) : bool :=
  (doc_created_at a.2 <? doc_created_at b.2)%Z
  || ((doc_created_at a.2 =? doc_created_at b.2)%Z && (a.1 <=? b.1)%N).
Definition published_members (db : DB) (site_id category_id : Uuid) : list Uuid :=
  fst <$> order_by oldest_first_leb
    (List.filter (fun kv => published_in db site_id category_id kv.1 kv.2) (map_to_list (documents db))).

Fixpoint insert_series_items_from (index : Z) (site_id series_id : Uuid) (added_at : DateTime)
    (document_ids : list Uuid) : tx unit :=
  match document_ids with
  | [] => mret tt
  | document_id :: rest =>
      position ← lift (series_position index);
      execute map_series_constraint_error (insert_series_item series_id document_id
        {| si_site_id := site_id; si_position := position; si_added_at := added_at |});;
      insert_series_items_from (index + 1) site_id series_id added_at rest
  end.

Definition backfill_series_items_in_transaction (site_id series_id category_id : Uuid)
    (added_at : DateTime) : tx unit :=
  document_ids ← read (fun db => Ok (limit 501 (published_members db site_id category_id)));
  lift (fail_if (500 <? size_of document_ids)%N series_full);;
  insert_series_items_from 0 site_id series_id added_at document_ids.

Definition create_series_for_category_in_transaction (owner_user_id site_id category_id : Uuid)
    (series_id : Uuid) (now : DateTime) : tx SeriesRecord :=
  read (load_category_by_id site_id category_id);;
  in_site ← read (fun db => Ok (List.filter (fun kv => (se_site_id kv.2 =? site_id)%N)
                                  (map_to_list (series db))));
  lift (fail_if (500 <=? size_of in_site)%N
          (Validation (lit "a site cannot contain more than 500 series")));;
  position ← lift (next_position ((fun kv => se_home_position kv.2) <$> in_site));
  lift (fail_if (position <=? 0)%Z (Validation (lit "series home position overflow")));;
  execute map_series_constraint_error (insert_series series_id {|
    se_site_id := site_id; se_category_id := category_id; se_home_position := position;
    se_created_by_user_id := owner_user_id; se_created_at := now; se_updated_at := now |});;
  backfill_series_items_in_transaction site_id series_id category_id now;;
  read (load_series_by_id site_id series_id).

Definition promote_category_to_series (owner_user_id site_id category_id series_id : Uuid)
    (now : DateTime) : DB -> result RepositoryError SeriesRecord * DB :=
  transaction (
    read (ensure_site_owner owner_user_id site_id);;
    read (load_category_by_id site_id category_id);;
    existing ← (fun db => Ok (load_series_by_category_id site_id category_id db, db));
    match (existing : result RepositoryError SeriesRecord) with
    | Ok s => mret s
    | Err NotFound =>
        create_series_for_category_in_transaction owner_user_id site_id category_id series_id now
    | Err e => raise e
    end).

(** [now] stands for the clock readings of the whole call. *)
Definition create_series (owner_user_id site_id : Uuid) (input : CreateCategoryInput)
    (category_id series_id : Uuid) (now : DateTime) : DB -> result RepositoryError SeriesRecord * DB :=
  transaction (
    read (ensure_site_owner owner_user_id site_id);;
    category ← create_category_in_transaction owner_user_id site_id input category_id now;
    create_series_for_category_in_transaction owner_user_id site_id (cr_id category) series_id now).

Definition touch_series (site_id series_id : Uuid) (now : DateTime) (db : DB) : DB :=
  set_series db (alter (fun s =>
    if (se_site_id s =? site_id)%N
    then {| se_site_id := se_site_id s; se_category_id := se_category_id s;
            se_home_position := se_home_position s; se_created_by_user_id := se_created_by_user_id s;
            se_created_at := se_created_at s; se_updated_at := now |}
    else s) series_id (series db)).

(** [UPDATE series_items SET position = ?1 WHERE ...], with its row count. *)
Definition set_item_position (site_id series_id document_id : Uuid) (position : Z) (db : DB)
    : result SqlError (N * DB) :=
  match series_items db !! (series_id, document_id) with
  | Some i =>
      if (si_site_id i =? site_id)%N
      then fail_if (position <=? 0)%Z (CheckFailed (lit "position > 0"));;
           Ok (1%N, set_series_items db (<[(series_id, document_id) :=
             {| si_site_id := si_site_id i; si_position := position; si_added_at := si_added_at i |}]>
             (series_items db)))
      else Ok (0%N, db)
  | None => Ok (0%N, db)
  end.

Fixpoint reorder_from (index : Z) (site_id series_id : Uuid) (document_ids : list Uuid) : tx unit :=
  match document_ids with
  | [] => mret tt
  | document_id :: rest =>
      position ← lift (series_position index);
      changed ← execute_count sql_storage (set_item_position site_id series_id document_id position);
      lift (fail_if (negb (changed =? 1)%N) RevisionConflict);;
      reorder_from (index + 1) site_id series_id rest
  end.

Definition as_set (ids : list Uuid) : gset Uuid := list_to_set ids.

Definition replace_series_order (owner_user_id site_id series_id : Uuid)
    (document_ids : list Uuid) (now : DateTime) (db : DB)
    : result RepositoryError (list SeriesItemRecord) * DB :=
  if (500 <? size_of document_ids)%N
     || negb (N.of_nat (size (as_set document_ids)) =? size_of document_ids)%N
  then (Err (Validation (lit "series order must contain at most 500 unique document ids")), db)
  else
  then_load (transaction (
    read (ensure_site_owner owner_user_id site_id);;
    read (load_series_by_id site_id series_id);;
    current ← read (list_published_series_items_with_connection site_id series_id 501);
    lift (fail_if (negb (size_of current =? size_of document_ids)%N
                   || negb (bool_decide (as_set (sir_document_id <$> current) = as_set document_ids)))
            RevisionConflict);;
    reorder_from 0 site_id series_id document_ids;;
    execute sql_storage (fun db => Ok (touch_series site_id series_id now db))) db)
    (list_published_series_items_with_connection site_id series_id 500).
End taxonomy.

(** ** Category slugs *)

Lemma handle_bytes_checks s :
  existsb (fun b => negb (is_ascii_lowercase b) && negb (is_ascii_digit b) && negb (b =? 45)%N) s = false <->
  forallb handle_byte s = true.
Proof.
  rewrite existsb_false, forallb_Forall. apply Forall_iff. intros c. unfold handle_byte.
  by destruct (is_ascii_lowercase c), (is_ascii_digit c), (c =? 45)%N.
Qed.

Lemma handle_byte_ascii c : handle_byte c = true -> (c < 128)%N /\ ascii_lower c = c /\ is_whitespace c = false.
Proof.
  intros Hc. assert (c < 128)%N as Hr.
  { unfold handle_byte, is_ascii_lowercase, is_ascii_digit, in_range in Hc.
    repeat (apply orb_true_iff in Hc as [Hc|Hc]); bool_simpl; lia. }
  assert (Forall (fun n => let c := N.of_nat n in
            handle_byte c = true -> ascii_lower c = c /\ is_whitespace c = false) (seq 0 128)) as Hall.
  { apply Forall_forall. intros n Hn. apply elem_of_seq in Hn.
    do 128 (destruct n as [|n]; [cbv; try discriminate; by split|]). lia. }
  rewrite Forall_forall in Hall. specialize (Hall (N.to_nat c)). cbn zeta in Hall.
  rewrite N2Nat.id in Hall. split; [done|]. apply Hall; [|done]. apply elem_of_seq. lia.
Qed.

(** A valid handle is fixed by the normalisation steps. *)
Lemma handle_fixed s : forallb handle_byte s = true ->
  bytes s = s /\ to_ascii_lowercase s = s /\ trim s = s /\ is_ascii s = true.
Proof.
  rewrite forallb_Forall. intros Hs.
  assert (forall l, Forall (fun c => handle_byte c = true) l -> trim_start l = l) as Ht.
  { intros [|c l]; [done|]. rewrite Forall_cons. intros [Hc _]. cbn.
    destruct (handle_byte_ascii c Hc) as (_ & _ & ->). done. }
  split_and!.
  - apply bytes_of_ascii. eapply Forall_impl; [exact Hs|]. intros c Hc. by apply handle_byte_ascii.
  - unfold to_ascii_lowercase. induction Hs as [|c l Hc Hl IH]; [done|]. cbn. rewrite IH.
    f_equal. by apply handle_byte_ascii.
  - unfold trim, trim_end. rewrite (Ht s Hs), Ht, rev_involutive; [done|].
    by apply List.Forall_rev.
  - unfold is_ascii. apply forallb_Forall. eapply Forall_impl; [exact Hs|]. intros c Hc.
    apply N.ltb_lt. by apply handle_byte_ascii.
Qed.

(** A slug accepted for a new category satisfies every CHECK constraint of
    the [categories] table, is not a reserved application path, and is a fixed
    point of the normalisation. *)
Theorem new_category_slug_is_storable value slug :
  normalize_new_category_slug value = Ok slug ->
  category_slug_checks slug = true /\ (slug ∉ RESERVED) /\ normalize_new_category_slug slug = Ok slug.
Proof.
  unfold normalize_new_category_slug, normalize_category_slug, normalize_handle. intros Hn. inv_ok.
  bool_simpl. match goal with X : existsb (fun b => _ && _) (bytes ?s) = false |- _ =>
    rename X into Hb; set (slug := s) in * end.
  assert (is_ascii slug = true) as Ha by done.
  assert (bytes slug = slug) as Hbytes.
  { apply bytes_of_ascii. unfold is_ascii in Ha. rewrite forallb_Forall in Ha.
    eapply Forall_impl; [exact Ha|]. intros c. apply N.ltb_lt. }
  rewrite Hbytes in Hb. apply handle_bytes_checks in Hb as Hh.
  destruct (handle_fixed slug Hh) as (_ & Hlow & Htrim & _).
  match goal with X : existsb (str_eqb _) RESERVED = false |- _ => rename X into Hres end.
  match goal with X : (str_len slug <= 40)%N |- _ => rename X into Hlen end.
  assert (char_count slug = str_len slug) as Hcount by (unfold str_len, char_count; by rewrite Hbytes).
  assert (1 <= char_count slug)%N as Hpos.
  { unfold char_count, size_of. destruct slug; [done|cbn; lia]. }
  split_and!.
  - unfold category_slug_checks, within. rewrite Hlow, Hcount, (proj2 (str_eqb_eq _ _) eq_refl), Hh.
    repeat match goal with X : _ = false |- _ => rewrite X end. cbn.
    rewrite !andb_true_r, andb_true_iff, !N.leb_le. lia.
  - rewrite existsb_false, Forall_forall in Hres. intros Hin%Hres.
    by rewrite (proj2 (str_eqb_eq _ _) eq_refl) in Hin.
  - rewrite Htrim, Hlow, Hbytes, Hb, Ha. apply N.ltb_ge in Hlen as ->.
    repeat match goal with X : _ = false |- _ => rewrite X; clear X end. cbn [negb orb fail_if].
    unfold mbind, result_bind. by rewrite Hres.
Qed.
