(* ===== verification/CustomCss.v ===== *)
(** * Site stylesheets

    [crates/storage-sqlite/src/lib.rs], [validate_custom_css]: the owner's
    stylesheet is placed inside an [@scope { ... }] block of a first-party
    stylesheet, so it has to be a sequence of complete blocks that cannot close
    that block, and may not load anything.  The byte scanner
    [validate_css_block_structure] is compared with a grammar of balanced
    style sheets, and the search loop of [contains_css_function] with the
    occurrences it looks for. *)

From Stdlib Require Import Bool NArith ZArith Lia.
From S2P Require Import Prelude Text Extern Content Ai2Ai StoreBase.

(** ** Block structure *)

Inductive ScanState := Normal | SingleQuoted | DoubleQuoted | CssComment.

(** The bytes the scanner looks at. *)
Definition b_slash : N := 47.
Definition b_star : N := 42.
Definition b_quote : N := 39.
Definition b_dquote : N := 34.
Definition b_open : N := 123.
Definition b_close : N := 125.

(** [u32::saturating_add(1)] *)
Definition depth_succ (n : N) : N := N.min (n + 1) (2 ^ 32 - 1).

(** The [while cursor < bytes.len()] loop; the argument is the input from the
    cursor on. *)
Fixpoint css_scan (state : ScanState) (depth : N) (input : list N)
    : result RepositoryError (ScanState * N) :=
  match input with
  | [] => Ok (state, depth)
  | byte :: rest =>
      match state with
      | Normal =>
          if (byte =? b_slash)%N && match rest with n :: _ => (n =? b_star)%N | [] => false end
          then match rest with
               | _ :: rest' => css_scan CssComment depth rest'
               | [] => css_scan CssComment depth rest
               end
          else if (byte =? b_quote)%N then css_scan SingleQuoted depth rest
          else if (byte =? b_dquote)%N then css_scan DoubleQuoted depth rest
          else if (byte =? b_open)%N then css_scan Normal (depth_succ depth) rest
          else if (byte =? b_close)%N
          then if (depth =? 0)%N
               then Err (Validation (lit "custom CSS contains an unmatched closing brace"))
               else css_scan Normal (depth - 1) rest
          else css_scan Normal depth rest
      | SingleQuoted => css_scan (if (byte =? b_quote)%N then Normal else SingleQuoted) depth rest
      | DoubleQuoted => css_scan (if (byte =? b_dquote)%N then Normal else DoubleQuoted) depth rest
      | CssComment =>
          if (byte =? b_star)%N && match rest with n :: _ => (n =? b_slash)%N | [] => false end
          then match rest with
               | _ :: rest' => css_scan Normal depth rest'
               | [] => css_scan Normal depth rest
               end
          else css_scan CssComment depth rest
      end
  end.

Definition validate_css_block_structure (value : rstr) : result RepositoryError unit :=
  '(state, depth) ← css_scan Normal 0 (bytes value);
  ensure (match state with Normal => true | _ => false end)
    (Validation (lit "custom CSS contains an unterminated string or comment"));;
  ensure (depth =? 0)%N (Validation (lit "custom CSS contains an unclosed block")).

(** ** Function calls *)

(** [u8::is_ascii_whitespace] *)
Definition is_ascii_whitespace (b : N) : bool := existsb (N.eqb b) [32; 9; 10; 12; 13]%N.
#[local] Arguments is_ascii_whitespace : simpl never.

(** [haystack.find(needle)]: what follows the first occurrence. *)
Fixpoint find_after (needle haystack : list N) : option (list N) :=
  match strip_prefix needle haystack with
  | Some rest => Some rest
  | None => match haystack with [] => None | _ :: h => find_after needle h end
  end.

Fixpoint skip_ascii_whitespace (s : list N) : list N :=
  match s with
  | b :: s' => if is_ascii_whitespace b then skip_ascii_whitespace s' else s
  | [] => []
  end.

(** The [while let] loop; the input is [value[offset..]]. *)
Fixpoint css_function_loop (fuel : nat) (name input : list N) : bool :=
  match fuel with
  | O => false
  | S fuel =>
      match find_after name input with
      | None => false
      | Some rest =>
          match skip_ascii_whitespace rest with
          | 40%N :: _ => true
          | _ => if is_empty_list rest then false else css_function_loop fuel name rest
          end
      end
  end.

(** Every round drops at least the length of the name, so the length of the
    value bounds the number of rounds. *)
Definition contains_css_function (value name : rstr) : bool :=
  css_function_loop (S (length (bytes value))) (bytes name) (bytes value).

Definition MAX_CUSTOM_CSS : N := 64 * 1024.

Definition unsafe_fragment (value : rstr) : bool :=
  let lower := to_ascii_lowercase value in
  contains_any "<>\" value
  || contains_char 64 lower
  || contains (lit "http:") lower
  || contains (lit "https:") lower
  || contains (lit "data:") lower
  || contains (lit "javascript:") lower
  || contains (lit "//") lower
  || contains (lit "expression(") lower
  || contains (lit "behavior:") lower
  || contains (lit "-moz-binding") lower
  || contains_css_function lower (lit "url")
  || contains_css_function lower (lit "image-set")
  || contains_css_function lower (lit "src").

Definition validate_custom_css (value : option rstr) : result RepositoryError (option rstr) :=
  match value with
  | None => Ok None
  | Some value =>
      let value := trim value in
      if is_empty value then Ok None else
      fail_if (MAX_CUSTOM_CSS <? str_len value)%N
        (Validation (lit "custom CSS must not exceed 65536 bytes"));;
      fail_if (contains_nul value
               || existsb (fun c => is_control c && negb (existsb (N.eqb c) [10; 13; 9]%N)) value)
        (Validation (lit "custom CSS contains unsupported control characters"));;
      fail_if (unsafe_fragment value)
        (Validation (lit "custom CSS must not contain HTML, at-rules, escapes, or external resource loaders"));;
      validate_css_block_structure value;;
      Ok (Some value)
  end.

(** ** The grammar of balanced style sheets *)

(** A byte that is a token of its own, given what follows it. *)
Definition plain_byte (b : N) (rest : list N) : Prop :=
  (b ∉ [b_quote; b_dquote; b_open; b_close]) /\ ~ (b = b_slash /\ head rest = Some b_star).

(** Coarser than the grammar of CSS: a quoted string may span lines, and round
    and square brackets are bytes like others. *)
Inductive css_blocks : list N -> Prop :=
| css_empty : css_blocks []
| css_plain b s : plain_byte b s -> css_blocks s -> css_blocks (b :: s)
| css_string q body s : q = b_quote \/ q = b_dquote -> q ∉ body ->
    css_blocks s -> css_blocks (q :: body ++ q :: s)
| css_comment body s : contains [b_star; b_slash] (body ++ [b_star]) = false ->
    css_blocks s -> css_blocks (b_slash :: b_star :: body ++ b_star :: b_slash :: s)
| css_block body s : css_blocks body -> css_blocks s ->
    css_blocks (b_open :: body ++ b_close :: s).

(** What is left to read with [d] blocks open. *)
Fixpoint css_open (d : nat) (s : list N) : Prop :=
  match d with
  | O => css_blocks s
  | S d => exists body rest, s = body ++ b_close :: rest /\ css_blocks body /\ css_open d rest
  end.

(** The completions of a scanner state. *)
Definition css_rest (state : ScanState) (d : nat) (s : list N) : Prop :=
  match state with
  | Normal => css_open d s
  | SingleQuoted => exists body rest, s = body ++ b_quote :: rest /\ (b_quote ∉ body) /\ css_open d rest
  | DoubleQuoted => exists body rest, s = body ++ b_dquote :: rest /\ (b_dquote ∉ body) /\ css_open d rest
  | CssComment => exists body rest, s = body ++ b_star :: b_slash :: rest
      /\ contains [b_star; b_slash] (body ++ [b_star]) = false /\ css_open d rest
  end.

(** Appending a complete prefix. *)
Lemma css_open_prefix (P : list N -> list N) d s :
  (forall s, css_blocks s -> css_blocks (P s)) ->
  (forall a b, P (a ++ b) = P a ++ b) ->
  css_open d s -> css_open d (P s).
Proof.
  intros HP Happ. destruct d as [|d]; cbn; [apply HP|].
  intros (body & rest & -> & Hb & Hr). exists (P body), rest. rewrite Happ. auto.
Qed.

Lemma css_open_plain d b s : plain_byte b s -> css_open d s -> css_open d (b :: s).
Proof.
  intros Hp. destruct d as [|d]; cbn; [by apply css_plain|].
  intros (body & rest & -> & Hb & Hr). exists (b :: body), rest. split_and!; [done| |done].
  apply css_plain; [|done]. destruct Hp as [Hin Hc]. split; [done|]. intros [-> Hh]. apply Hc.
  split; [done|]. by destruct body.
Qed.
Lemma css_open_string d q body s :
  q = b_quote \/ q = b_dquote -> q ∉ body -> css_open d s -> css_open d (q :: body ++ q :: s).
Proof.
  intros Hq Hb. apply (css_open_prefix (fun s => q :: body ++ q :: s)).
  - intros. by apply css_string.
  - intros a b. cbn. by rewrite <-app_assoc.
Qed.
Lemma css_open_comment d body s :
  contains [b_star; b_slash] (body ++ [b_star]) = false ->
  css_open d s -> css_open d (b_slash :: b_star :: body ++ b_star :: b_slash :: s).
Proof.
  intros Hb. apply (css_open_prefix (fun s => b_slash :: b_star :: body ++ b_star :: b_slash :: s)).
  - intros. by apply css_comment.
  - intros a b. cbn. by rewrite <-app_assoc.
Qed.
Lemma css_open_block d s : css_open (S d) s -> css_open d (b_open :: s).
Proof.
  intros (body & rest & -> & Hb & Hr). revert Hr.
  apply (css_open_prefix (fun s => b_open :: body ++ b_close :: s)).
  - intros. by apply css_block.
  - intros a b. cbn. by rewrite <-app_assoc.
Qed.
#[local] Hint Resolve css_open_plain css_open_string css_open_comment css_open_block : osb.

(** ** The scanner accepts exactly the balanced sheets *)

Definition next_is (c : N) (s : list N) : bool :=
  match s with n :: _ => (n =? c)%N | [] => false end.
Lemma next_is_true c s : next_is c s = true <-> exists t, s = c :: t.
Proof.
  destruct s as [|n s]; cbn; [naive_solver|]. rewrite N.eqb_eq.
  split; [intros ->; eauto|intros (t & E); by injection E].
Qed.
Lemma next_is_false c s : next_is c s = false -> head s <> Some c.
Proof. destruct s as [|n s]; cbn; [done|]. intros ?%N.eqb_neq [= ->]. done. Qed.

Lemma starts_with_cons a p b s : starts_with (a :: p) (b :: s) = (b =? a)%N && starts_with p s.
Proof. unfold starts_with. cbn [strip_prefix]. rewrite N.eqb_sym. by destruct (b =? a)%N. Qed.
Lemma contains_cons p b s : contains p (b :: s) = starts_with p (b :: s) || contains p s.
Proof. done. Qed.

Lemma contains_star_cons b body :
  contains [b_star; b_slash] ((b :: body) ++ [b_star]) =
  (b =? b_star)%N && next_is b_slash (body ++ [b_star]) || contains [b_star; b_slash] (body ++ [b_star]).
Proof.
  rewrite <-app_comm_cons, contains_cons, starts_with_cons. f_equal. f_equal.
  destruct (body ++ [b_star]) as [|c l]; [done|]. rewrite starts_with_cons. cbn. apply andb_true_r.
Qed.

Lemma depth_succ_below d : (N.of_nat d + 1 < 2 ^ 32)%N -> depth_succ (N.of_nat d) = N.of_nat (S d).
Proof. unfold depth_succ. lia. Qed.

Lemma css_scan_sound n : forall state d s,
  length s <= n -> (N.of_nat d + size_of s < 2 ^ 32)%N ->
  css_scan state (N.of_nat d) s = Ok (Normal, 0%N) -> css_rest state d s.
Proof.
  induction n as [|n IH]; intros state d [|b s] Hn Hd; unfold size_of in Hd; cbn [length] in Hn, Hd;
    try lia; cbn [css_scan].
  1, 2: intros [= -> Hd0]; assert (d = 0) as -> by lia; apply css_empty.
  fold (next_is b_star s) (next_is b_slash s).
  assert (forall st' d', (N.of_nat d' + size_of s < 2 ^ 32)%N ->
    css_scan st' (N.of_nat d') s = Ok (Normal, 0%N) -> css_rest st' d' s) as IH1
    by (intros; apply IH; [lia|done|done]).
  destruct state.
  - destruct ((b =? b_slash)%N && next_is b_star s) eqn:E1.
    { bool_simpl. apply next_is_true in H0 as (t & ->). subst b. intros Hs.
      apply IH in Hs; [|cbn in Hn; lia|unfold size_of; cbn in Hd; lia].
      destruct Hs as (body & rest & -> & Hb & Hr). cbn. auto with osb. }
    destruct (N.eqb_spec b b_quote) as [->|N1].
    { intros Hs%IH1; [|unfold size_of; lia]. destruct Hs as (body & rest & -> & Hb & Hr). cbn. auto with osb. }
    destruct (N.eqb_spec b b_dquote) as [->|N2].
    { intros Hs%IH1; [|unfold size_of; lia]. destruct Hs as (body & rest & -> & Hb & Hr). cbn. auto with osb. }
    destruct (N.eqb_spec b b_open) as [->|N3].
    { rewrite depth_succ_below by lia. intros Hs%IH1; [|unfold size_of; lia]. cbn. by apply css_open_block. }
    destruct (N.eqb_spec b b_close) as [->|N4].
    { destruct (N.eqb_spec (N.of_nat d) 0); [done|]. destruct d as [|d]; [lia|].
      replace (N.of_nat (S d) - 1)%N with (N.of_nat d) by lia. intros Hs%IH1; [|unfold size_of; lia].
      exists [], s. split_and!; [done|constructor|done]. }
    intros Hs%IH1; [|unfold size_of; lia]. apply css_open_plain; [|done]. split.
    + rewrite !not_elem_of_cons. auto using not_elem_of_nil.
    + intros [-> Hh]. rewrite N.eqb_refl in E1. cbn in E1. by apply next_is_false in E1.
  - destruct (N.eqb_spec b b_quote) as [->|Hq]; intros Hs%IH1; [| unfold size_of; lia | |unfold size_of; lia].
    + exists [], s. auto using not_elem_of_nil.
    + destruct Hs as (body & rest & -> & Hb & Hr). exists (b :: body), rest.
      rewrite not_elem_of_cons. auto.
  - destruct (N.eqb_spec b b_dquote) as [->|Hq]; intros Hs%IH1; [| unfold size_of; lia | |unfold size_of; lia].
    + exists [], s. auto using not_elem_of_nil.
    + destruct Hs as (body & rest & -> & Hb & Hr). exists (b :: body), rest.
      rewrite not_elem_of_cons. auto.
  - destruct ((b =? b_star)%N && next_is b_slash s) eqn:E1.
    { bool_simpl. apply next_is_true in H0 as (t & ->). subst b. intros Hs.
      apply IH in Hs; [|cbn in Hn; lia|unfold size_of; cbn in Hd; lia]. by exists [], t. }
    intros Hs%IH1; [|unfold size_of; lia]. destruct Hs as (body & rest & -> & Hb & Hr).
    exists (b :: body), rest. split_and!; [done| |done]. rewrite contains_star_cons, Hb, orb_false_r.
    by destruct body.
Qed.

Lemma css_scan_string state q body s d :
  (state = SingleQuoted /\ q = b_quote) \/ (state = DoubleQuoted /\ q = b_dquote) ->
  q ∉ body -> css_scan state d (body ++ q :: s) = css_scan Normal d s.
Proof.
  intros Hq. induction body as [|b body IH]; intros Hb.
  - destruct Hq as [[-> ->]|[-> ->]]; reflexivity.
  - apply not_elem_of_cons in Hb as [Hbq Hb]. rewrite <-IH by done. cbn [app css_scan].
    destruct Hq as [[-> ->]|[-> ->]]; by rewrite (proj2 (N.eqb_neq _ _) (not_eq_sym Hbq)).
Qed.

Lemma css_scan_comment body s d :
  contains [b_star; b_slash] (body ++ [b_star]) = false ->
  css_scan CssComment d (body ++ b_star :: b_slash :: s) = css_scan Normal d s.
Proof.
  induction body as [|b body IH]; [done|]. rewrite contains_star_cons. intros Hb.
  apply orb_false_iff in Hb as [Hb Hc]. rewrite <-IH by done. cbn [app css_scan].
  fold (next_is b_slash (body ++ b_star :: b_slash :: s)).
  replace (next_is b_slash (body ++ b_star :: b_slash :: s)) with (next_is b_slash (body ++ [b_star]))
    by (by destruct body). by rewrite Hb.
Qed.

Lemma css_scan_plain b s d :
  plain_byte b s -> css_scan Normal d (b :: s) = css_scan Normal d s.
Proof.
  intros [Hin Hc]. cbn [css_scan]. fold (next_is b_star s).
  rewrite !not_elem_of_cons in Hin. destruct Hin as (N1 & N2 & N3 & N4 & _).
  apply N.eqb_neq in N1, N2, N3, N4. rewrite N1, N2, N3, N4.
  destruct ((b =? b_slash)%N && next_is b_star s) eqn:E; [|done]. bool_simpl. subst b.
  apply next_is_true in H0 as (t & ->). by destruct Hc.
Qed.

Lemma css_scan_complete p : css_blocks p -> forall d rest,
  head rest <> Some b_star -> (N.of_nat d + size_of p < 2 ^ 32)%N ->
  css_scan Normal (N.of_nat d) (p ++ rest) = css_scan Normal (N.of_nat d) rest.
Proof.
  induction 1 as [|b s Hp Hs IH|q body s Hq Hb Hs IH|body s Hc Hs IH|body s Hb IHb Hs IHs];
    intros d rest Hr Hd; unfold size_of in *; cbn [length] in Hd; rewrite ?length_app in Hd; cbn [length] in Hd.
  - done.
  - rewrite <-app_comm_cons, css_scan_plain; [apply IH; [done|lia]|].
    destruct Hp as [Hin Hh]. split; [done|]. intros [-> E]. apply Hh. split; [done|]. by destruct s.
  - rewrite <-app_comm_cons, <-app_assoc, <-app_comm_cons. cbn [css_scan].
    destruct Hq as [-> | ->]; cbn; (erewrite css_scan_string; [|by eauto|done]); apply IH; try done; lia.
  - rewrite <-!app_comm_cons, <-app_assoc, <-!app_comm_cons. cbn [css_scan].
    cbn. change (css_scan CssComment (N.of_nat d) (body ++ b_star :: b_slash :: s ++ rest) =
      css_scan Normal (N.of_nat d) rest). rewrite css_scan_comment by done. apply IH; [done|lia].
  - rewrite <-app_comm_cons, <-app_assoc, <-app_comm_cons.
    transitivity (css_scan Normal (N.of_nat (S d)) (body ++ b_close :: s ++ rest)).
    { rewrite <-depth_succ_below by lia. reflexivity. }
    rewrite IHb; [|done|lia].
    transitivity (css_scan Normal (N.of_nat d) (s ++ rest)); [|apply IHs; [done|lia]].
    replace (N.of_nat d) with (N.of_nat (S d) - 1)%N by lia. reflexivity.
Qed.

Lemma css_block_structure_iff value : (str_len value < 2 ^ 32)%N ->
  validate_css_block_structure value = Ok tt <-> css_blocks (bytes value).
Proof.
  unfold str_len, validate_css_block_structure. intros Hlen. split.
  - intros H. inv_ok. destruct x as [st d]. inv_ok. destruct st; try discriminate. bool_simpl. subst d.
    apply (css_scan_sound (length (bytes value)) Normal 0); [done| |done]. unfold size_of in *; lia.
  - intros Hb. pose proof (css_scan_complete _ Hb 0 []) as E.
    change (N.of_nat 0) with 0%N in E. rewrite app_nil_r in E. rewrite E by (done || unfold size_of in *; lia). done.
Qed.

(** ** The search for function calls is exact *)

(** [name], white space and an opening parenthesis, anywhere. *)
Definition css_call (name s : list N) : Prop :=
  exists before space after, s = before ++ name ++ space ++ 40%N :: after
    /\ Forall (fun b => is_ascii_whitespace b = true) space.

Lemma find_after_None p s : find_after p s = None -> forall a r, s <> a ++ p ++ r.
Proof.
  induction s as [|b s IH]; cbn [find_after].
  - intros E a r Hs. symmetry in Hs. apply app_eq_nil in Hs as [-> [-> ->]%app_eq_nil]. done.
  - destruct (strip_prefix p (b :: s)) eqn:E; [done|]. intros Hn a r Hs. destruct a as [|x a]; cbn in Hs.
    + rewrite (proj2 (strip_prefix_Some p (b :: s) r) Hs) in E. done.
    + injection Hs as -> Hs. by apply (IH Hn a r).
Qed.

(** The first occurrence: no other one starts before it. *)
Lemma find_after_Some p s r : find_after p s = Some r ->
  exists a, s = a ++ p ++ r /\ forall a' r', s = a' ++ p ++ r' -> length a <= length a'.
Proof.
  induction s as [|b s IH]; cbn [find_after].
  - destruct (strip_prefix p []) eqn:E; [|done]. intros [= <-]. apply strip_prefix_Some in E.
    exists []. split; [done|]. intros; cbn; lia.
  - destruct (strip_prefix p (b :: s)) eqn:E.
    + intros [= <-]. apply strip_prefix_Some in E. exists []. split; [done|]. intros; cbn; lia.
    + intros H. destruct (IH H) as (a & -> & Hmin). exists (b :: a). split; [done|].
      intros [|x a'] r' Hs; cbn in *.
      * rewrite (proj2 (strip_prefix_Some p _ r') Hs) in E. done.
      * injection Hs as -> Hs. apply Hmin in Hs. lia.
Qed.

Lemma skip_ascii_whitespace_spec s : exists space, s = space ++ skip_ascii_whitespace s /\
  Forall (fun b => is_ascii_whitespace b = true) space.
Proof.
  induction s as [|b s (space & E & Hs)]; cbn; [by exists []|].
  destruct (is_ascii_whitespace b) eqn:Hb; [|by exists []]. exists (b :: space). cbn. rewrite <-E. auto.
Qed.
Lemma skip_ascii_whitespace_app space s :
  Forall (fun b => is_ascii_whitespace b = true) space ->
  skip_ascii_whitespace (space ++ s) = skip_ascii_whitespace s.
Proof. induction 1 as [|b space Hb Hs IH]; cbn; [done|]. by rewrite Hb. Qed.

(** A name whose first byte does not occur in it again overlaps itself
    nowhere. *)
Lemma occurrences_disjoint (c : N) t a1 r1 a2 r2 :
  c ∉ t -> a1 ++ (c :: t) ++ r1 = a2 ++ (c :: t) ++ r2 -> length a1 < length a2 ->
  exists m, a2 = a1 ++ (c :: t) ++ m /\ r1 = m ++ (c :: t) ++ r2.
Proof.
  intros Hc E Hlt. destruct (app_eq_inv _ _ _ _ E) as [(k & Ha & Hk)|(k & -> & Hk)].
  { subst a1. rewrite length_app in Hlt. lia. }
  rewrite length_app in Hlt. destruct k as [|x k]; [cbn in Hlt; lia|]. cbn in Hk. injection Hk as <- Hk.
  destruct (app_eq_inv _ _ _ _ Hk) as [(m & Ht & Hm)|(m & -> & Hm)]; [|exists m; split; [done|]; exact Hm].
  destruct m as [|x m].
  - exists []. rewrite app_nil_r in *. by subst.
  - cbn in Hm. injection Hm as <- Hm. destruct Hc. rewrite Ht. apply elem_of_app. right. left.
Qed.

Lemma not_paren {A} (x : N) (a b : A) : x <> 40%N -> match x with 40%N => a | _ => b end = b.
Proof. intros Hx. destruct x as [|p]; [done|]. do 6 (destruct p as [p|p|]; try reflexivity). by destruct Hx. Qed.

Lemma css_function_loop_exact c t fuel s :
  c ∉ t -> length s < fuel ->
  css_function_loop fuel (c :: t) s = true <-> css_call (c :: t) s.
Proof.
  intros Hc. revert s. induction fuel as [|fuel IH]; intros s Hlen; [lia|]. cbn [css_function_loop].
  destruct (find_after (c :: t) s) as [rest|] eqn:E.
  2: { split; [done|]. intros (a & w & r & Hs & _). by destruct (find_after_None _ _ E a (w ++ 40%N :: r)). }
  destruct (find_after_Some _ _ _ E) as (a & Hs & Hmin).
  destruct (skip_ascii_whitespace_spec rest) as (space & Hrest & Hspace).
  assert (css_call (c :: t) rest -> css_call (c :: t) s) as Hlater.
  { intros (b & w & r & -> & Hw). exists (a ++ (c :: t) ++ b), w, r. split; [|done].
    rewrite Hs, <-!app_assoc. done. }
  assert (css_call (c :: t) s -> head (skip_ascii_whitespace rest) = Some 40%N \/ css_call (c :: t) rest) as Hfirst.
  { intros (b & w & r & Hb & Hw). pose proof (Hmin _ _ Hb) as Hle. rewrite Hs in Hb.
    destruct (decide (length a = length b)) as [El|Nl].
    - apply app_inj_1 in Hb as [_ Hb]; [|done]. apply app_inv_head in Hb. left. rewrite Hb.
      by rewrite skip_ascii_whitespace_app.
    - destruct (occurrences_disjoint c t a rest b _ Hc Hb ltac:(lia)) as (m & _ & ->).
      right. by exists m, w, r. }
  assert (css_call (c :: t) s <-> head (skip_ascii_whitespace rest) = Some 40%N \/ css_call (c :: t) rest) as ->.
  { split; [exact Hfirst|]. intros [Hh|Hr]; [|by apply Hlater].
    destruct (skip_ascii_whitespace rest) as [|x q]; [done|]. injection Hh as ->.
    exists a, space, q. by rewrite <-Hrest. }
  assert (length rest < fuel) as Hl.
  { rewrite Hs in Hlen. rewrite !length_app in Hlen. cbn in Hlen. lia. }
  assert (head (skip_ascii_whitespace rest) = Some 40%N \/ css_call (c :: t) rest <->
    head (skip_ascii_whitespace rest) = Some 40%N \/
    (if is_empty_list rest then false else css_function_loop fuel (c :: t) rest) = true) as ->.
  { destruct rest as [|x rest]; [|by cbn [is_empty_list]; rewrite IH].
    split; (intros [?|Hn]; [by left|]); [|done].
    destruct Hn as (b & w & r & Hn & _). symmetry in Hn. by apply app_eq_nil in Hn as [_ [? _]%app_eq_nil]. }
  destruct (skip_ascii_whitespace rest) as [|x q]; cbn [head]; [naive_solver|].
  destruct (decide (x = 40%N)) as [->|Nx]; [naive_solver|].
  rewrite (not_paren _ _ _ Nx). naive_solver.
Qed.

Lemma contains_css_function_iff value c t :
  bytes (c :: t) = c :: t -> c ∉ t ->
  contains_css_function value (c :: t) = true <-> css_call (c :: t) (bytes value).
Proof.
  intros E Hc. unfold contains_css_function. rewrite E. apply css_function_loop_exact; [done|lia].
Qed.

(** ** What a stored stylesheet is *)

Definition css_loaders : list rstr := lit <$> ["url"; "image-set"; "src"]%string.
Definition css_fragments : list rstr :=
  lit <$> ["http:"; "https:"; "data:"; "javascript:"; "//"; "expression("; "behavior:"; "-moz-binding"]%string.

Record contained_sheet (css : rstr) : Prop := {
  sheet_bounded : css <> [] /\ (str_len css <= MAX_CUSTOM_CSS)%N;
  sheet_printable : forall c, c ∈ css -> is_control c = true -> c ∈ [10; 13; 9]%N;
  (** No markup, no escapes, no at-rules. *)
  sheet_inert : forall c, c ∈ css -> c ∉ lit "<>\@";
  sheet_fragments : forall f, f ∈ css_fragments ->
    ~ exists a b, to_ascii_lowercase css = a ++ f ++ b;
  sheet_loads_nothing : forall f, f ∈ css_loaders -> ~ css_call f (bytes (to_ascii_lowercase css));
  sheet_balanced : css_blocks (bytes css);
}.

Lemma contains_false_iff p s : contains p s = false <-> ~ exists a b, s = a ++ p ++ b.
Proof. by rewrite <-not_true_iff_false, contains_true. Qed.

Lemma lower_at css : contains_char 64 (to_ascii_lowercase css) = contains_char 64 css.
Proof.
  induction css as [|c css IH]; [done|]. unfold contains_char in *. cbn [to_ascii_lowercase fmap list_fmap existsb].
  f_equal; [|exact IH]. unfold ascii_lower. destruct (is_ascii_uppercase c) eqn:E; [|done].
  unfold is_ascii_uppercase, in_range in E. bool_simpl. symmetry.
  rewrite (proj2 (N.eqb_neq 64 c)), (proj2 (N.eqb_neq 64 (c + 32))) by lia. done.
Qed.

Lemma unsafe_fragment_false css : unsafe_fragment css = false <->
  (forall c, c ∈ css -> c ∉ lit "<>\@")
  /\ (forall f, f ∈ css_fragments -> ~ exists a b, to_ascii_lowercase css = a ++ f ++ b)
  /\ (forall f, f ∈ css_loaders -> ~ css_call f (bytes (to_ascii_lowercase css))).
Proof.
  assert (forall f, f ∈ css_loaders ->
    contains_css_function (to_ascii_lowercase css) f = false <->
    ~ css_call f (bytes (to_ascii_lowercase css))) as Hload.
  { intros f Hf. rewrite <-not_true_iff_false. apply not_iff_compat.
    unfold css_loaders in Hf. cbn [fmap list_fmap] in Hf. rewrite !elem_of_cons, elem_of_nil in Hf.
    destruct Hf as [->|[->|[->|[]]]]; apply contains_css_function_iff;
      solve [reflexivity | apply contains_char_false; reflexivity]. }
  assert (contains_any "<>\" css = false /\ contains_char 64 css = false <->
    forall c, c ∈ css -> c ∉ lit "<>\@") as Hinert.
  { rewrite contains_any_false, contains_char_false.
    change (lit "<>\") with [60; 62; 92]%N. change (lit "<>\@") with [60; 62; 92; 64]%N.
    setoid_rewrite not_elem_of_cons. setoid_rewrite not_elem_of_cons. setoid_rewrite not_elem_of_cons.
    setoid_rewrite not_elem_of_cons. split.
    - intros [H1 H2] c Hc. destruct (H1 c Hc) as (? & ? & ? & ?). split_and!; try done. by intros ->.
    - intros Hf. split; [intros c Hc|intros Hc]; specialize (Hf _ Hc); naive_solver. }
  rewrite <-Hinert. unfold unsafe_fragment. rewrite !orb_false_iff, lower_at.
  rewrite !contains_false_iff, !Hload by (apply list_elem_of_fmap; eexists; split; [reflexivity|set_solver]).
  rewrite <-(Forall_forall _ css_fragments), <-(Forall_forall _ css_loaders).
  unfold css_fragments, css_loaders. cbn [fmap list_fmap]. rewrite !Forall_cons, !Forall_nil. tauto.
Qed.

Lemma trim_empty s : is_empty (trim s) = false <-> trim s <> [].
Proof. by destruct (trim s). Qed.

(** C36. A stylesheet is stored exactly when its trimmed text is a bounded,
    printable, balanced sheet without markup, escapes, at-rules or resource
    loaders, where balance is the grammar [css_blocks] and a loader is any
    occurrence of [url], [image-set] or [src] before a parenthesis. *)
Theorem stored_css_is_a_contained_sheet value css :
  validate_custom_css (Some value) = Ok (Some css) <-> css = trim value /\ contained_sheet css.
Proof.
  cbn [validate_custom_css]. split.
  - destruct (is_empty (trim value)) eqn:E; [intros [=]|]. intros H. inv_ok. bool_simpl.
    split; [done|]. destruct (proj1 (unsafe_fragment_false _) H1) as (Hi & Hf & Hl).
    split; try done.
    + split; [by apply trim_empty|done].
    + intros c Hc Hctl. rename H3 into Hp. rewrite existsb_false, Forall_forall in Hp.
      specialize (Hp c Hc). cbn beta in Hp. rewrite Hctl in Hp. cbn [andb] in Hp. apply negb_false_iff in Hp.
      apply existsb_exists in Hp as (d & Hd%list_elem_of_In & ->%N.eqb_eq). done.
    + apply css_block_structure_iff; [|done]. unfold MAX_CUSTOM_CSS in *. lia.
  - intros [-> [[Hne Hlen] Hp Hi Hf Hl Hb]].
    rewrite (proj2 (trim_empty value) Hne).
    assert ((MAX_CUSTOM_CSS <? str_len (trim value))%N = false) as -> by (by apply N.ltb_ge).
    assert (contains_nul (trim value) = false) as ->.
    { apply contains_char_false. intros H0. specialize (Hp _ H0 eq_refl). set_solver. }
    assert (existsb (fun c => is_control c && negb (existsb (N.eqb c) [10; 13; 9]%N)) (trim value) = false) as ->.
    { rewrite existsb_false, Forall_forall. intros c Hc. destruct (is_control c) eqn:Ec; [|done].
      apply negb_false_iff, existsb_exists. exists c. rewrite <-list_elem_of_In, N.eqb_refl. auto. }
    rewrite (proj2 (unsafe_fragment_false (trim value)) ltac:(auto)). cbn [orb fail_if].
    rewrite (proj2 (css_block_structure_iff (trim value) ltac:(unfold MAX_CUSTOM_CSS in *; lia)) Hb).
    reflexivity.
Qed.

(** The server wraps the sheet in [@scope (..) {] and [}]: reading it with one
    block open leaves exactly that block open. *)
Lemma stored_css_stays_in_its_scope css rest :
  contained_sheet css -> head rest <> Some b_star ->
  css_scan Normal 1 (bytes css ++ rest) = css_scan Normal 1 rest.
Proof.
  intros [[_ Hlen] _ _ _ _ Hb] Hr. apply (css_scan_complete _ Hb 1); [done|].
  unfold MAX_CUSTOM_CSS, str_len, size_of in *. lia.
Qed.

(** ** Examples *)

Definition sample_css : rstr := lit " a:hover { color: red; } /* url */ p { margin: 0 } ".
Example sample_css_is_stored : validate_custom_css (Some sample_css) = Ok (Some (trim sample_css)).
Proof. vm_compute. reflexivity. Qed.
Example closing_the_scope_is_refused :
  is_err (validate_custom_css (Some (lit "a {} } body { color: red }"))) = true.
Proof. vm_compute. reflexivity. Qed.
Example loading_is_refused :
  is_err (validate_custom_css (Some (lit "a { background: URL  ( x ) }"))) = true.
Proof. vm_compute. reflexivity. Qed.
