(* ===== verification/Accounts.v ===== *)
(** * Accounts, sessions, sites and the administrator control plane

    [crates/storage-sqlite/src/lib.rs]: the tables [users], [sessions],
    [sites], [site_memberships], [site_theme_revisions],
    [admin_control_plane] and [external_identities] of [MIGRATION_3],
    [MIGRATION_5] and [MIGRATION_6] as finite maps from primary keys to rows,
    their constraints, and the operations on them.

    Identifiers ([Uuid::now_v7]) and every reading of the clock are arguments,
    in the order in which the code takes them.  A constraint failure is the one
    SQLite reports: [CHECK]s in the order of the schema, then the unique
    indexes from the newest to the oldest, then the immediate foreign keys. *)

From Stdlib Require Import Bool NArith ZArith Lia.
From S2P Require Import Prelude Text Extern Content Ai2Ai StoreBase StoreTaxonomy CustomCss.

(** ** Enumerations *)

#[export] Instance ThemeProfile_eq_dec : EqDecision ThemeProfile.
Proof. solve_decision. Defined.

Inductive SessionAuthMethod := Legacy | MethodAccessKey | MethodExternal.
#[export] Instance SessionAuthMethod_eq_dec : EqDecision SessionAuthMethod.
Proof. solve_decision. Defined.

Inductive AdminAuthMode := ModeAccessKey | ModeExternal | ModeDisabled.
#[export] Instance AdminAuthMode_eq_dec : EqDecision AdminAuthMode.
Proof. solve_decision. Defined.

Definition AdminAuthMode_as_str (m : AdminAuthMode) : rstr :=
  match m with
  | ModeAccessKey => lit "access_key" | ModeExternal => lit "external" | ModeDisabled => lit "disabled"
  end.
Definition AdminAuthMode_from_str (v : rstr) : result RepositoryError AdminAuthMode :=
  if str_eqb v (lit "access_key") then Ok ModeAccessKey
  else if str_eqb v (lit "external") then Ok ModeExternal
  else if str_eqb v (lit "disabled") then Ok ModeDisabled
  else Err (Storage (lit "unknown admin authentication mode " ++ v)).

Definition session_method (m : AdminAuthMode) : option SessionAuthMethod :=
  match m with
  | ModeAccessKey => Some MethodAccessKey
  | ModeExternal => Some MethodExternal
  | ModeDisabled => None
  end.

Definition SessionAuthMethod_as_str (m : SessionAuthMethod) : rstr :=
  match m with
  | Legacy => lit "legacy" | MethodAccessKey => lit "access_key" | MethodExternal => lit "external"
  end.
Definition SessionAuthMethod_from_str (v : rstr) : result RepositoryError SessionAuthMethod :=
  if str_eqb v (lit "legacy") then Ok Legacy
  else if str_eqb v (lit "access_key") then Ok MethodAccessKey
  else if str_eqb v (lit "external") then Ok MethodExternal
  else Err (Storage (lit "unknown session authentication method " ++ v)).

Definition SiteMembershipRole_as_str (r : SiteMembershipRole) : rstr :=
  match r with Owner => lit "owner" | Editor => lit "editor" | Writer => lit "writer" end.
Definition SiteMembershipRole_from_str (v : rstr) : result RepositoryError SiteMembershipRole :=
  if str_eqb v (lit "owner") then Ok Owner
  else if str_eqb v (lit "editor") then Ok Editor
  else if str_eqb v (lit "writer") then Ok Writer
  else Err (Storage (lit "unknown site membership role " ++ v)).

(** ** Rows *)

(** [users], keyed by [id] *)
Record UserRow := {
  us_email : rstr;
  us_handle : rstr;
  us_display_name : rstr;
  us_password_phc : rstr;
  us_created_at : DateTime;
  us_updated_at : DateTime;
}.

(** [sessions], keyed by [id] *)
Record SessionRow := {
  ss_token_hash : list N;
  ss_user_id : Uuid;
  ss_auth_epoch : Z;
  ss_auth_method : SessionAuthMethod;
  ss_expires_at : DateTime;
  ss_created_at : DateTime;
  ss_revoked_at : option DateTime;
}.

(** [sites], keyed by [id] *)
Record SiteRow := {
  st_handle : rstr;
  st_title : rstr;
  st_description : option rstr;
  st_current_theme_revision : Z;
  st_created_at : DateTime;
  st_updated_at : DateTime;
}.

(** [site_theme_revisions], keyed by [(site_id, revision)] *)
Record ThemeRow := {
  th_profile : ThemeProfile;
  th_custom_css : option rstr;
  th_created_by_user_id : Uuid;
  th_created_at : DateTime;
}.

(** [admin_control_plane], whose only key is 1 *)
Record ControlRow := {
  ct_primary_site_id : Uuid;
  ct_owner_user_id : Uuid;
  ct_auth_mode : AdminAuthMode;
  ct_auth_epoch : Z;
  ct_setup_complete : bool;
  ct_binding_fingerprint : list N;
  ct_created_at : DateTime;
  ct_updated_at : DateTime;
}.

(** [external_identities], keyed by [(adapter, issuer, subject_hash)] *)
Record IdentityRow := {
  ei_user_id : Uuid;
  ei_created_at : DateTime;
  ei_last_seen_at : DateTime;
}.

Record AccountDB := {
  user_table : gmap Uuid UserRow;
  session_table : gmap Uuid SessionRow;
  site_table : gmap Uuid SiteRow;
  membership_table : gmap (Uuid * Uuid) MembershipRow;
  theme_table : gmap (Uuid * Z) ThemeRow;
  control_plane : option ControlRow;
  identity_table : gmap (rstr * rstr * list N) IdentityRow;
}.

Definition set_users (db : AccountDB) v := Build_AccountDB v (session_table db) (site_table db)
  (membership_table db) (theme_table db) (control_plane db) (identity_table db).
Definition set_sessions (db : AccountDB) v := Build_AccountDB (user_table db) v (site_table db)
  (membership_table db) (theme_table db) (control_plane db) (identity_table db).
Definition set_sites (db : AccountDB) v := Build_AccountDB (user_table db) (session_table db) v
  (membership_table db) (theme_table db) (control_plane db) (identity_table db).
Definition set_memberships (db : AccountDB) v := Build_AccountDB (user_table db) (session_table db)
  (site_table db) v (theme_table db) (control_plane db) (identity_table db).
Definition set_themes (db : AccountDB) v := Build_AccountDB (user_table db) (session_table db)
  (site_table db) (membership_table db) v (control_plane db) (identity_table db).
Definition set_control (db : AccountDB) v := Build_AccountDB (user_table db) (session_table db)
  (site_table db) (membership_table db) (theme_table db) v (identity_table db).
Definition set_identities (db : AccountDB) v := Build_AccountDB (user_table db) (session_table db)
  (site_table db) (membership_table db) (theme_table db) (control_plane db) v.

(** A freshly migrated database without legacy documents. *)
Definition no_accounts : AccountDB := Build_AccountDB ∅ ∅ ∅ ∅ ∅ None ∅.

(** ** Records returned to callers *)

Record UserRecord := {
  ur_id : Uuid;
  ur_email : rstr;
  ur_handle : rstr;
  ur_display_name : rstr;
  ur_password_phc : rstr;
  ur_created_at : DateTime;
  ur_updated_at : DateTime;
}.
Record SessionRecord := {
  sn_id : Uuid;
  sn_user_id : Uuid;
  sn_auth_epoch : Z;
  sn_auth_method : SessionAuthMethod;
  sn_expires_at : DateTime;
  sn_created_at : DateTime;
  sn_revoked_at : option DateTime;
}.
Record AdminControlPlaneRecord := {
  cp_primary_site : Uuid;
  cp_owner_user : Uuid;
  cp_auth_mode : AdminAuthMode;
  cp_auth_epoch : Z;
  cp_setup_complete : bool;
  cp_binding_fingerprint : list N;
  cp_created_at : DateTime;
  cp_updated_at : DateTime;
}.
Record PrimaryOwnerBootstrap := {
  pb_site_id : Uuid;
  pb_site_handle : rstr;
  pb_site_title : rstr;
  pb_site_description : option rstr;
  pb_owner_display_name : rstr;
  pb_theme_profile : ThemeProfile;
}.
Record ExternalIdentityRecord := {
  xr_adapter : rstr;
  xr_issuer : rstr;
  xr_subject_hash : list N;
  xr_user_id : Uuid;
  xr_created_at : DateTime;
  xr_last_seen_at : DateTime;
}.
Record SiteRecord := {
  sit_id : Uuid;
  sit_handle : rstr;
  sit_title : rstr;
  sit_description : option rstr;
  sit_owner_user_id : Uuid;
  sit_theme_profile : ThemeProfile;
  sit_theme_revision : Z;
  sit_custom_css : option rstr;
  sit_created_at : DateTime;
  sit_updated_at : DateTime;
}.
Record PrimaryOwnerSession := {
  pos_session : SessionRecord;
  pos_user : UserRecord;
  pos_site : SiteRecord;
}.
Record SiteMembershipRecord := {
  mr_site_id : Uuid;
  mr_user_id : Uuid;
  mr_role : SiteMembershipRole;
  mr_created_at : DateTime;
}.
Record SiteMetadataRecord := {
  sm_id : Uuid;
  sm_handle : rstr;
  sm_title : rstr;
  sm_created_at : DateTime;
  sm_updated_at : DateTime;
}.

(** ** Constraint errors *)

(** The mapping of the [INSERT] of [add_site_collaborator]. *)
Definition map_membership_error (e : SqlError) : RepositoryError :=
  if contains (lit "site_memberships.site_id") (sql_error_text e)
  then Validation (lit "account is already a member of this site")
  else map_community_constraint_error e.

(** The mapping to [storage_error]. *)
Definition map_storage_error (e : SqlError) : RepositoryError := storage_error (sql_error_text e).

(** ** Statements *)

Definition check (b : bool) (text : string) : result SqlError unit := ensure b (CheckFailed (lit text)).
Definition unique (taken : bool) (columns : string) : result SqlError unit :=
  fail_if taken (UniqueFailed (lit columns)).
Definition references (present : bool) : result SqlError unit := ensure present ForeignKeyFailed.

(** [handle NOT GLOB '*[^a-z0-9-]*'] *)
Definition handle_glob (h : rstr) : bool := forallb handle_byte h.
(** [password_phc LIKE '$argon2id$%']: [LIKE] folds ASCII case. *)
Definition like_argon2id (p : rstr) : bool := starts_with (lit "$argon2id$") (to_ascii_lowercase p).

Definition handle_checks (handle : rstr) : result SqlError unit :=
  check (str_eqb handle (to_ascii_lowercase handle)) "handle = lower(handle)";;
  check (within 1 40 (char_count handle)) "length(handle) BETWEEN 1 AND 40";;
  check (handle_glob handle) "handle NOT GLOB '*[^a-z0-9-]*'".

Definition insert_user (id : Uuid) (r : UserRow) (db : AccountDB) : result SqlError AccountDB :=
  check (str_eqb (us_email r) (to_ascii_lowercase (us_email r))) "email = lower(email)";;
  handle_checks (us_handle r);;
  check (like_argon2id (us_password_phc r)) "password_phc LIKE '$argon2id$%'";;
  unique (any_row (fun _ u => nocase_eqb (us_handle u) (us_handle r)) (user_table db)) "users.handle";;
  unique (any_row (fun _ u => nocase_eqb (us_email u) (us_email r)) (user_table db)) "users.email";;
  unique (is_some (user_table db !! id)) "users.id";;
  Ok (set_users db (<[id := r]> (user_table db))).

Definition insert_session_row (id : Uuid) (r : SessionRow) (db : AccountDB) : result SqlError AccountDB :=
  check (size_of (ss_token_hash r) =? 32)%N "length(token_hash) = 32";;
  check (0 <=? ss_auth_epoch r)%Z "auth_epoch >= 0";;
  unique (any_row (fun _ s => bool_decide (ss_token_hash s = ss_token_hash r)) (session_table db))
    "sessions.token_hash";;
  unique (is_some (session_table db !! id)) "sessions.id";;
  references (is_some (user_table db !! ss_user_id r));;
  Ok (set_sessions db (<[id := r]> (session_table db))).

Definition insert_site (id : Uuid) (r : SiteRow) (db : AccountDB) : result SqlError AccountDB :=
  check (0 <? st_current_theme_revision r)%Z "current_theme_revision > 0";;
  handle_checks (st_handle r);;
  unique (any_row (fun _ s => nocase_eqb (st_handle s) (st_handle r)) (site_table db)) "sites.handle";;
  unique (is_some (site_table db !! id)) "sites.id";;
  Ok (set_sites db (<[id := r]> (site_table db))).

(** [site_single_owner_idx] is a unique index on the owner rows only. *)
Definition insert_membership (site_id user_id : Uuid) (r : MembershipRow) (db : AccountDB)
    : result SqlError AccountDB :=
  unique (is_owner (ms_role r)
          && any_row (fun k m => (k.1 =? site_id)%N && is_owner (ms_role m)) (membership_table db))
    "site_memberships.site_id";;
  unique (is_some (membership_table db !! (site_id, user_id)))
    "site_memberships.site_id, site_memberships.user_id";;
  references (is_some (site_table db !! site_id) && is_some (user_table db !! user_id));;
  Ok (set_memberships db (<[(site_id, user_id) := r]> (membership_table db))).

Definition insert_theme (site_id : Uuid) (revision : Z) (r : ThemeRow) (db : AccountDB)
    : result SqlError AccountDB :=
  check (0 <? revision)%Z "revision > 0";;
  check (is_none_or (fun css => (str_len css <=? 65536)%N) (th_custom_css r))
    "custom_css IS NULL OR length(CAST(custom_css AS BLOB)) <= 65536";;
  unique (is_some (theme_table db !! (site_id, revision)))
    "site_theme_revisions.site_id, site_theme_revisions.revision";;
  references (is_some (site_table db !! site_id) && is_some (user_table db !! th_created_by_user_id r));;
  Ok (set_themes db (<[(site_id, revision) := r]> (theme_table db))).

Definition insert_control_row (r : ControlRow) (db : AccountDB) : result SqlError AccountDB :=
  check (0 <? ct_auth_epoch r)%Z "auth_epoch > 0";;
  check (size_of (ct_binding_fingerprint r) =? 32)%N "length(binding_fingerprint) = 32";;
  unique (is_some (control_plane db)) "admin_control_plane.singleton";;
  references (is_some (site_table db !! ct_primary_site_id r)
              && is_some (user_table db !! ct_owner_user_id r));;
  Ok (set_control db (Some r)).

Definition insert_identity (adapter issuer : rstr) (subject : list N) (r : IdentityRow) (db : AccountDB)
    : result SqlError AccountDB :=
  check (size_of subject =? 32)%N "length(subject_hash) = 32";;
  check (within 1 64 (char_count adapter)) "length(adapter) BETWEEN 1 AND 64";;
  check (within 1 2048 (char_count issuer)) "length(issuer) BETWEEN 1 AND 2048";;
  unique (is_some (identity_table db !! (adapter, issuer, subject)))
    "external_identities.adapter, external_identities.issuer, external_identities.subject_hash";;
  references (is_some (user_table db !! ei_user_id r));;
  Ok (set_identities db (<[(adapter, issuer, subject) := r]> (identity_table db))).

(** [INSERT OR IGNORE]: a failed [CHECK] or unique index skips the row, a
    foreign key still fails. *)
Definition or_ignore (insert : AccountDB -> result SqlError AccountDB) (db : AccountDB)
    : result SqlError AccountDB :=
  match insert db with
  | Ok db' => Ok db'
  | Err ForeignKeyFailed => Err ForeignKeyFailed
  | Err _ => Ok db
  end.

(** [UPDATE sites SET handle, title, description, updated_at WHERE id] *)
Definition update_site_metadata (id : Uuid) (handle title : rstr) (description : option rstr)
    (now : DateTime) (db : AccountDB) : result SqlError AccountDB :=
  match site_table db !! id with
  | None => Ok db
  | Some s =>
      handle_checks handle;;
      unique (any_row (fun k s => negb (k =? id)%N && nocase_eqb (st_handle s) handle) (site_table db))
        "sites.handle";;
      Ok (set_sites db (<[id := {|
        st_handle := handle; st_title := title; st_description := description;
        st_current_theme_revision := st_current_theme_revision s;
        st_created_at := st_created_at s; st_updated_at := now |}]> (site_table db)))
  end.

(** [UPDATE sites SET current_theme_revision, updated_at WHERE id] *)
Definition update_site_theme (id : Uuid) (revision : Z) (now : DateTime) (db : AccountDB)
    : result SqlError AccountDB :=
  match site_table db !! id with
  | None => Ok db
  | Some s =>
      check (0 <? revision)%Z "current_theme_revision > 0";;
      Ok (set_sites db (<[id := {|
        st_handle := st_handle s; st_title := st_title s; st_description := st_description s;
        st_current_theme_revision := revision;
        st_created_at := st_created_at s; st_updated_at := now |}]> (site_table db)))
  end.

Definition revoke_row (now : DateTime) (s : SessionRow) : SessionRow := {|
  ss_token_hash := ss_token_hash s; ss_user_id := ss_user_id s; ss_auth_epoch := ss_auth_epoch s;
  ss_auth_method := ss_auth_method s; ss_expires_at := ss_expires_at s; ss_created_at := ss_created_at s;
  ss_revoked_at := match ss_revoked_at s with Some t => Some t | None => Some now end |}.

(** [UPDATE sessions SET revoked_at = COALESCE(revoked_at, ?1)
    WHERE auth_method != 'legacy'] *)
Definition revoke_owner_sessions (now : DateTime) (db : AccountDB) : AccountDB :=
  set_sessions db
    ((fun s => if bool_decide (ss_auth_method s = Legacy) then s else revoke_row now s) <$> session_table db).

(** [UPDATE sessions SET revoked_at = ?1 WHERE token_hash = ?2 AND revoked_at IS NULL],
    with the number of changed rows. *)
Definition is_live_token (token_hash : list N) (s : SessionRow) : bool :=
  bool_decide (ss_token_hash s = token_hash) && is_none (ss_revoked_at s).
Definition revoke_token (token_hash : list N) (now : DateTime) (db : AccountDB) : N * AccountDB :=
  (N.of_nat (length (filter (fun kv => is_live_token token_hash kv.2 = true) (map_to_list (session_table db)))),
   set_sessions db
     ((fun s => if is_live_token token_hash s then revoke_row now s else s) <$> session_table db)).

(** ** Transactions *)

Definition acc (A : Type) : Type := AccountDB -> result RepositoryError (A * AccountDB).
#[export] Instance acc_ret : MRet acc := fun A a db => Ok (a, db).
#[export] Instance acc_bind : MBind acc := fun A B k m db =>
  match m db with Ok (a, db') => k a db' | Err e => Err e end.

Definition fetch {A} (q : AccountDB -> result RepositoryError A) : acc A :=
  fun db => a ← q db; Ok (a, db).
Definition return_err {A} (e : RepositoryError) : acc A := fun _ => Err e.
Definition guard_ok (r : result RepositoryError unit) : acc unit := fun db => r;; Ok (tt, db).
Definition exec (map : SqlError -> RepositoryError) (f : AccountDB -> result SqlError AccountDB) : acc unit :=
  fun db => match f db with Ok db' => Ok (tt, db') | Err e => Err (map e) end.
Definition update (f : AccountDB -> AccountDB) : acc unit := fun db => Ok (tt, f db).

(** The only deferred key, from a site to its current theme revision. *)
Definition current_themes_exist (db : AccountDB) : bool :=
  negb (any_row (fun id s => negb (is_some (theme_table db !! (id, st_current_theme_revision s))))
    (site_table db)).

(** [BEGIN IMMEDIATE], the body and [COMMIT]; an error rolls back. *)
Definition transaction {A} (m : acc A) (db : AccountDB) : result RepositoryError A * AccountDB :=
  match m db with
  | Err e => (Err e, db)
  | Ok (a, db') =>
      if current_themes_exist db' then (Ok a, db')
      else (Err (map_storage_error ForeignKeyFailed), db)
  end.

(** One statement outside a transaction. *)
Definition autocommit {A} (m : acc A) (db : AccountDB) : result RepositoryError A * AccountDB :=
  match m db with Ok (a, db') => (Ok a, db') | Err e => (Err e, db) end.

(** A read after the commit of a transaction. *)
Definition then_load {A B} (p : result RepositoryError A * AccountDB)
    (q : A -> AccountDB -> result RepositoryError B) : result RepositoryError B * AccountDB :=
  match p with
  | (Ok a, db) => (q a db, db)
  | (Err e, db) => (Err e, db)
  end.

(** ** Validation *)

Definition normalize_email (value : rstr) : result RepositoryError rstr :=
  let normalized := to_ascii_lowercase (trim value) in
  let parts := split 64 normalized in
  let local := default [] (head parts) in
  let domain := default [] (head (tail parts)) in
  fail_if ((320 <? str_len normalized)%N || negb (is_ascii normalized)
           || is_empty local || is_empty domain || negb (is_empty_list (tail (tail parts)))
           || existsb (fun b => existsb (N.eqb b) [32; 9; 10; 12; 13]%N || (b <? 32)%N || (b =? 127)%N)
                (bytes normalized))
    (Validation (lit "email must be a valid ASCII address"));;
  Ok normalized.

Definition validate_password_phc (value : rstr) : result RepositoryError unit :=
  fail_if (negb (starts_with (lit "$argon2id$") value) || (1024 <? str_len value)%N
           || contains_nul value || existsb (fun c => (c =? 13)%N || (c =? 10)%N) value)
    (Validation (lit "password must be stored as a bounded Argon2id PHC string")).

Definition validate_token_hash (value : list N) : result RepositoryError unit :=
  ensure (size_of value =? 32)%N (Validation (lit "session token hash must be exactly 32 bytes")).
Definition validate_session_expiry (expires_at now : DateTime) : result RepositoryError unit :=
  fail_if (expires_at <=? now)%Z (Validation (lit "session expiry must be in the future")).
Definition validate_fingerprint (value : list N) : result RepositoryError unit :=
  ensure (size_of value =? 32)%N (Validation (lit "admin binding fingerprint must be exactly 32 bytes")).
Definition validate_subject_hash (value : list N) : result RepositoryError unit :=
  ensure (size_of value =? 32)%N (Validation (lit "external subject hash must be exactly 32 bytes")).
Definition fixed_hash (value : list N) (label : rstr) : result RepositoryError (list N) :=
  if (size_of value =? 32)%N then Ok value else Err (Storage (label ++ lit " is not 32 bytes")).

Definition validate_external_adapter (value : rstr) : result RepositoryError rstr :=
  let normalized := to_ascii_lowercase (trim value) in
  fail_if (is_empty normalized || (64 <? str_len normalized)%N
           || negb (forallb (fun b => is_ascii_lowercase b || is_ascii_digit b || one_of "_-" b)
                      (bytes normalized)))
    (Validation (lit "external adapter must contain 1-64 lowercase ASCII letters, digits, _, or -"));;
  Ok normalized.

Definition validate_external_issuer (value : rstr) : result RepositoryError rstr :=
  let value := trim value in
  fail_if (is_empty value || (2048 <? str_len value)%N || contains_nul value
           || existsb (fun c => (c =? 13)%N || (c =? 10)%N) value)
    (Validation (lit "external issuer must contain 1-2048 bounded characters"));;
  Ok value.

(** ** Loading rows *)

(** [query_row(..).optional()]: the first row that satisfies the condition. *)
Definition find_row {K V} `{Countable K} (p : K -> V -> bool) (t : gmap K V) : option (K * V) :=
  List.find (fun kv => p kv.1 kv.2) (map_to_list t).

Definition parse_user_row (id : Uuid) (u : UserRow) : UserRecord := {|
  ur_id := id; ur_email := us_email u; ur_handle := us_handle u;
  ur_display_name := us_display_name u; ur_password_phc := us_password_phc u;
  ur_created_at := us_created_at u; ur_updated_at := us_updated_at u |}.
Definition load_user_by_id (id : Uuid) (db : AccountDB) : result RepositoryError UserRecord :=
  u ← ok_or (user_table db !! id) NotFound; Ok (parse_user_row id u).
Definition load_user_by_column (column : UserRow -> rstr) (value : rstr) (db : AccountDB)
    : result RepositoryError UserRecord :=
  '(id, u) ← ok_or (find_row (fun _ u => nocase_eqb (column u) value) (user_table db)) NotFound;
  Ok (parse_user_row id u).

(** [u64::try_from] on a stored [i64]. *)
Definition u64_of_i64 (z : Z) (message : rstr) : result RepositoryError Z :=
  if (0 <=? z)%Z then Ok z else Err (Storage message).

Definition parse_session_row (id : Uuid) (s : SessionRow) : result RepositoryError SessionRecord :=
  epoch ← u64_of_i64 (ss_auth_epoch s) (lit "session auth epoch is invalid");
  Ok {| sn_id := id; sn_user_id := ss_user_id s; sn_auth_epoch := epoch;
        sn_auth_method := ss_auth_method s; sn_expires_at := ss_expires_at s;
        sn_created_at := ss_created_at s; sn_revoked_at := ss_revoked_at s |}.
Definition load_session_by_id (id : Uuid) (db : AccountDB) : result RepositoryError SessionRecord :=
  s ← ok_or (session_table db !! id) NotFound; parse_session_row id s.
Definition load_active_session_by_hash (token_hash : list N) (now : DateTime) (db : AccountDB)
    : result RepositoryError SessionRecord :=
  '(id, s) ← ok_or (find_row (fun _ s => is_live_token token_hash s) (session_table db)) NotFound;
  session ← parse_session_row id s;
  if (sn_expires_at session <=? now)%Z then Err NotFound else Ok session.

Definition parse_admin_control_plane_row (c : ControlRow) : result RepositoryError AdminControlPlaneRecord :=
  epoch ← u64_of_i64 (ct_auth_epoch c) (lit "admin auth epoch is invalid");
  fingerprint ← fixed_hash (ct_binding_fingerprint c) (lit "admin binding fingerprint");
  Ok {| cp_primary_site := ct_primary_site_id c; cp_owner_user := ct_owner_user_id c;
        cp_auth_mode := ct_auth_mode c; cp_auth_epoch := epoch;
        cp_setup_complete := ct_setup_complete c; cp_binding_fingerprint := fingerprint;
        cp_created_at := ct_created_at c; cp_updated_at := ct_updated_at c |}.
Definition load_admin_control_plane_optional (db : AccountDB)
    : result RepositoryError (option AdminControlPlaneRecord) :=
  transpose_map parse_admin_control_plane_row (control_plane db).
Definition load_admin_control_plane (db : AccountDB) : result RepositoryError AdminControlPlaneRecord :=
  c ← load_admin_control_plane_optional db; ok_or c NotFound.

Definition parse_external_identity_row (key : rstr * rstr * list N) (r : IdentityRow)
    : result RepositoryError ExternalIdentityRecord :=
  hash ← fixed_hash key.2 (lit "external subject hash");
  Ok {| xr_adapter := key.1.1; xr_issuer := key.1.2; xr_subject_hash := hash;
        xr_user_id := ei_user_id r; xr_created_at := ei_created_at r;
        xr_last_seen_at := ei_last_seen_at r |}.
Definition load_external_identity_optional (adapter issuer : rstr) (subject : list N) (db : AccountDB)
    : result RepositoryError (option ExternalIdentityRecord) :=
  transpose_map (parse_external_identity_row (adapter, issuer, subject))
    (identity_table db !! (adapter, issuer, subject)).
Definition load_external_identity (adapter issuer : rstr) (subject : list N) (db : AccountDB)
    : result RepositoryError ExternalIdentityRecord :=
  r ← load_external_identity_optional adapter issuer subject db; ok_or r NotFound.

(** The joined row of a site: its owner membership and its current theme. *)
Definition site_join (id : Uuid) (s : SiteRow) (owner_user_id : option Uuid) (db : AccountDB)
    : option (Uuid * ThemeRow) :=
  '(k, _) ← find_row (fun k m => (k.1 =? id)%N && is_owner (ms_role m)
                                 && is_none_or (N.eqb k.2) owner_user_id) (membership_table db);
  theme ← theme_table db !! (id, st_current_theme_revision s);
  Some (k.2, theme).

Definition parse_site_row (id : Uuid) (s : SiteRow) (owner : Uuid) (theme : ThemeRow)
    : result RepositoryError SiteRecord :=
  revision ← u64_of_i64 (st_current_theme_revision s)
    (lit "out of range integral type conversion attempted");
  Ok {| sit_id := id; sit_handle := st_handle s; sit_title := st_title s;
        sit_description := st_description s; sit_owner_user_id := owner;
        sit_theme_profile := th_profile theme; sit_theme_revision := revision;
        sit_custom_css := th_custom_css theme; sit_created_at := st_created_at s;
        sit_updated_at := st_updated_at s |}.

Definition load_site_by_id (id : Uuid) (owner_user_id : option Uuid) (db : AccountDB)
    : result RepositoryError SiteRecord :=
  '(s, (owner, theme)) ← ok_or (s ← site_table db !! id;
                                join ← site_join id s owner_user_id db; Some (s, join)) NotFound;
  parse_site_row id s owner theme.

(** [ORDER BY created_at DESC, id DESC] *)
Definition newest_first (a b : DateTime * Uuid) : bool :=
  (b.1 <? a.1)%Z || ((a.1 =? b.1)%Z && (b.2 <=? a.2)%N).

Definition load_sites (owner_user_id : option Uuid) (lim : N) (db : AccountDB)
    : result RepositoryError (list SiteRecord) :=
  let rows := omap (fun kv => (fun join => (kv.1, kv.2, join)) <$> site_join kv.1 kv.2 owner_user_id db)
                (map_to_list (site_table db)) in
  let sorted := order_by (fun a b => newest_first (st_created_at a.1.2, a.1.1) (st_created_at b.1.2, b.1.1)) rows in
  traverse (fun row => parse_site_row row.1.1 row.1.2 row.2.1 row.2.2) (limit (N.min lim 500) sorted).

Definition parse_site_membership_row (site_id user_id : Uuid) (m : MembershipRow) : SiteMembershipRecord :=
  {| mr_site_id := site_id; mr_user_id := user_id; mr_role := ms_role m; mr_created_at := ms_created_at m |}.
Definition load_site_membership (site_id user_id : Uuid) (db : AccountDB)
    : result RepositoryError SiteMembershipRecord :=
  m ← ok_or (membership_table db !! (site_id, user_id)) NotFound;
  Ok (parse_site_membership_row site_id user_id m).

Definition owns_site_in_connection (user_id site_id : Uuid) (db : AccountDB) : result RepositoryError bool :=
  Ok match membership_table db !! (site_id, user_id) with
     | Some m => is_owner (ms_role m)
     | None => false
     end.
Definition ensure_site_owner (user_id site_id : Uuid) (db : AccountDB) : result RepositoryError unit :=
  owns ← owns_site_in_connection user_id site_id db;
  if (owns : bool) then Ok tt else Err NotFound.
Definition ensure_user_exists (user_id : Uuid) (db : AccountDB) : result RepositoryError unit :=
  if is_some (user_table db !! user_id) then Ok tt else Err NotFound.

(** [COALESCE(MAX(revision), 0) + 1], read back as an [i64]. *)
Definition next_theme_revision (site_id : Uuid) (db : AccountDB) : result RepositoryError Z :=
  let revisions := omap (fun kv => if (kv.1.1 =? site_id)%N then Some kv.1.2 else None)
                     (map_to_list (theme_table db)) in
  let next := (match revisions with [] => 0 | r :: rest => foldr Z.max r rest end + 1)%Z in
  if (next <=? i64_max)%Z then Ok next else Err (Storage (lit "integer overflow")).

Definition append_site_appearance_revision (owner_user_id site_id : Uuid) (profile : ThemeProfile)
    (custom_css : option rstr) (now : DateTime) : acc unit :=
  next_revision ← fetch (next_theme_revision site_id);
  exec map_community_constraint_error (insert_theme site_id next_revision
    {| th_profile := profile; th_custom_css := custom_css;
       th_created_by_user_id := owner_user_id; th_created_at := now |});;
  exec map_storage_error (update_site_theme site_id next_revision now).

(** ** Users *)

Definition create_user (email handle display_name password_phc : rstr) (id : Uuid) (now : DateTime)
    (db : AccountDB) : result RepositoryError UserRecord * AccountDB :=
  match (email ← normalize_email email;
         handle ← normalize_handle handle (lit "user handle");
         display_name ← validate_required_text display_name (lit "display name") 100;
         validate_password_phc password_phc;;
         Ok {| us_email := email; us_handle := handle; us_display_name := display_name;
               us_password_phc := password_phc; us_created_at := now; us_updated_at := now |}) with
  | Err e => (Err e, db)
  | Ok row => then_load (autocommit (exec map_community_constraint_error (insert_user id row)) db)
                (fun _ => load_user_by_id id)
  end.

Definition get_user_by_id (id : Uuid) (db : AccountDB) := load_user_by_id id db.
Definition get_user_by_handle (handle : rstr) (db : AccountDB) : result RepositoryError UserRecord :=
  handle ← normalize_handle handle (lit "user handle");
  load_user_by_column us_handle handle db.
Definition find_user_by_email (email : rstr) (db : AccountDB) : result RepositoryError UserRecord :=
  email ← normalize_email email;
  load_user_by_column us_email email db.

(** ** The administrator control plane *)

Definition validate_control_plane_binding (existing : AdminControlPlaneRecord) (primary_site_id : Uuid)
    (mode : AdminAuthMode) (fingerprint : list N) : result RepositoryError unit :=
  ensure ((cp_primary_site existing =? primary_site_id)%N && bool_decide (cp_auth_mode existing = mode)
          && bool_decide (cp_binding_fingerprint existing = fingerprint))
    (Validation (lit "admin control-plane binding differs from persisted state; use an explicit authentication migration or rotation")).

Definition insert_admin_control_plane (primary_site_id owner_user_id : Uuid) (mode : AdminAuthMode)
    (fingerprint : list N) (setup_complete : bool) (now : DateTime) : acc AdminControlPlaneRecord :=
  guard_ok (validate_fingerprint fingerprint);;
  fetch (ensure_site_owner owner_user_id primary_site_id);;
  exec map_community_constraint_error (insert_control_row
    {| ct_primary_site_id := primary_site_id; ct_owner_user_id := owner_user_id; ct_auth_mode := mode;
       ct_auth_epoch := 1; ct_setup_complete := setup_complete; ct_binding_fingerprint := fingerprint;
       ct_created_at := now; ct_updated_at := now |});;
  fetch load_admin_control_plane.

(** A stored binding has to be the requested one. *)
Definition confirm_binding (existing : AdminControlPlaneRecord) (site_id : Uuid) (mode : AdminAuthMode)
    (fingerprint : list N) : acc AdminControlPlaneRecord :=
  guard_ok (validate_control_plane_binding existing site_id mode fingerprint);;
  fetch (ensure_site_owner (cp_owner_user existing) (cp_primary_site existing));;
  mret existing.

Definition disabled_owner_phc : rstr := lit "$argon2id$disabled-for-primary-owner".

(** The owner and the site of a fresh database. *)
Definition insert_primary_site (b : PrimaryOwnerBootstrap) (handle title : rstr)
    (description : option rstr) (display_name : rstr) (now : DateTime) : acc (SiteRecord * bool) :=
  let id := pb_site_id b in
  let owner_handle := lit "owner-" ++ uuid_simple id in
  exec map_community_constraint_error (insert_user id
    {| us_email := owner_handle ++ lit "@localhost"; us_handle := owner_handle;
       us_display_name := display_name; us_password_phc := disabled_owner_phc;
       us_created_at := now; us_updated_at := now |});;
  exec map_community_constraint_error (insert_site id
    {| st_handle := handle; st_title := title; st_description := description;
       st_current_theme_revision := 1; st_created_at := now; st_updated_at := now |});;
  exec map_community_constraint_error (insert_membership id id {| ms_role := Owner; ms_created_at := now |});;
  exec map_community_constraint_error (insert_theme id 1
    {| th_profile := pb_theme_profile b; th_custom_css := None;
       th_created_by_user_id := id; th_created_at := now |});;
  site ← fetch (load_site_by_id id None);
  mret (site, false).

(** The primary site when no control plane is stored yet. *)
Definition select_primary_site (b : PrimaryOwnerBootstrap) (handle title : rstr)
    (description : option rstr) (display_name : rstr) (now : DateTime) : acc (SiteRecord * bool) :=
  fun db => match load_site_by_id (pb_site_id b) None db with
  | Ok site => Ok ((site, true), db)
  | Err NotFound =>
      if bool_decide (site_table db = ∅)
      then insert_primary_site b handle title description display_name now db
      else Err (Validation (lit "refusing to guess a primary owner because another site already exists"))
  | Err e => Err e
  end.

Definition provision_primary_owner_site (b : PrimaryOwnerBootstrap) (mode : AdminAuthMode)
    (fingerprint : list N) (now1 now2 : DateTime) (db : AccountDB)
    : result RepositoryError AdminControlPlaneRecord * AccountDB :=
  match (validate_fingerprint fingerprint;;
         handle ← normalize_handle (pb_site_handle b) (lit "site handle");
         title ← validate_required_text (pb_site_title b) (lit "site title") 200;
         description ← validate_optional_text (pb_site_description b) (lit "site description") 2000;
         display_name ← validate_required_text (pb_owner_display_name b) (lit "owner display name") 100;
         Ok (handle, title, description, display_name)) with
  | Err e => (Err e, db)
  | Ok (handle, title, description, display_name) =>
      transaction (
        existing ← fetch load_admin_control_plane_optional;
        match existing with
        | Some existing => confirm_binding existing (pb_site_id b) mode fingerprint
        | None =>
            '(site, setup_complete) ← select_primary_site b handle title description display_name now1;
            insert_admin_control_plane (sit_id site) (sit_owner_user_id site) mode fingerprint
              setup_complete now2
        end) db
  end.

Definition reconcile_admin_control_plane (primary_site_id : Uuid) (mode : AdminAuthMode)
    (fingerprint : list N) (now : DateTime) (db : AccountDB)
    : result RepositoryError AdminControlPlaneRecord * AccountDB :=
  match validate_fingerprint fingerprint with
  | Err e => (Err e, db)
  | Ok _ =>
      transaction (
        existing ← fetch load_admin_control_plane_optional;
        match existing with
        | Some existing => confirm_binding existing primary_site_id mode fingerprint
        | None =>
            site ← fetch (load_site_by_id primary_site_id None);
            insert_admin_control_plane (sit_id site) (sit_owner_user_id site) mode fingerprint true now
        end) db
  end.

(** [UPDATE admin_control_plane SET .. WHERE singleton = 1 AND auth_epoch = ?5],
    with the number of changed rows. *)
Definition update_binding (mode : AdminAuthMode) (next_epoch : Z) (fingerprint : list N) (now : DateTime)
    (epoch : Z) (db : AccountDB) : result SqlError (N * AccountDB) :=
  match control_plane db with
  | Some c =>
      if (ct_auth_epoch c =? epoch)%Z then
        check (0 <? next_epoch)%Z "auth_epoch > 0";;
        check (size_of fingerprint =? 32)%N "length(binding_fingerprint) = 32";;
        Ok (1%N, set_control db (Some {|
          ct_primary_site_id := ct_primary_site_id c; ct_owner_user_id := ct_owner_user_id c;
          ct_auth_mode := mode; ct_auth_epoch := next_epoch; ct_setup_complete := ct_setup_complete c;
          ct_binding_fingerprint := fingerprint; ct_created_at := ct_created_at c; ct_updated_at := now |}))
      else Ok (0%N, db)
  | None => Ok (0%N, db)
  end.

(** [UPDATE admin_control_plane SET setup_complete = 1 ..
    WHERE singleton = 1 AND setup_complete = 0] *)
Definition update_setup (now : DateTime) (db : AccountDB) : result SqlError (N * AccountDB) :=
  match control_plane db with
  | Some c =>
      if ct_setup_complete c then Ok (0%N, db)
      else Ok (1%N, set_control db (Some {|
          ct_primary_site_id := ct_primary_site_id c; ct_owner_user_id := ct_owner_user_id c;
          ct_auth_mode := ct_auth_mode c; ct_auth_epoch := ct_auth_epoch c; ct_setup_complete := true;
          ct_binding_fingerprint := ct_binding_fingerprint c; ct_created_at := ct_created_at c;
          ct_updated_at := now |}))
  | None => Ok (0%N, db)
  end.

(** An [UPDATE] that has to change exactly one row. *)
Definition exec_one (map : SqlError -> RepositoryError) (f : AccountDB -> result SqlError (N * AccountDB))
    (otherwise : RepositoryError) : acc unit :=
  fun db => match f db with
  | Err e => Err (map e)
  | Ok (n, db') => if (n =? 1)%N then Ok (tt, db') else Err otherwise
  end.

(** [checked_add(1)] on the [u64] epoch, then [i64::try_from]. *)
Definition next_auth_epoch (epoch : Z) : result RepositoryError Z :=
  ensure (epoch <? u64_max)%Z (Validation (lit "administrator authentication epoch is exhausted"));;
  ensure (epoch + 1 <=? i64_max)%Z (Validation (lit "administrator authentication epoch is too large"));;
  Ok (epoch + 1)%Z.

Definition same_binding (c : AdminControlPlaneRecord) (mode : AdminAuthMode) (fingerprint : list N) : bool :=
  bool_decide (cp_auth_mode c = mode) && bool_decide (cp_binding_fingerprint c = fingerprint).

Definition rotate_admin_control_plane (primary_site_id : Uuid) (mode : AdminAuthMode)
    (fingerprint : list N) (now : DateTime) (db : AccountDB)
    : result RepositoryError AdminControlPlaneRecord * AccountDB :=
  match validate_fingerprint fingerprint with
  | Err e => (Err e, db)
  | Ok _ =>
      transaction (
        existing ← fetch load_admin_control_plane;
        guard_ok (ensure (cp_primary_site existing =? primary_site_id)%N
          (Validation (lit "administrator authentication rotation cannot change the primary site")));;
        fetch (ensure_site_owner (cp_owner_user existing) (cp_primary_site existing));;
        if same_binding existing mode fingerprint then mret existing
        else
          next_epoch ← fetch (fun _ => next_auth_epoch (cp_auth_epoch existing));
          guard_ok (ensure (cp_auth_epoch existing <=? i64_max)%Z
            (Storage (lit "stored administrator authentication epoch is too large")));;
          exec_one map_storage_error
            (update_binding mode next_epoch fingerprint now (cp_auth_epoch existing))
            (Storage (lit "administrator authentication binding changed concurrently"));;
          update (revoke_owner_sessions now);;
          update (fun db => set_identities db ∅);;
          fetch load_admin_control_plane) db
  end.

Definition get_admin_control_plane (db : AccountDB) := load_admin_control_plane db.

Definition complete_primary_owner_setup (owner_user_id : Uuid) (handle title : rstr)
    (description : option rstr) (profile : ThemeProfile) (now1 now2 now3 : DateTime) (db : AccountDB)
    : result RepositoryError SiteRecord * AccountDB :=
  match (handle ← normalize_handle handle (lit "site handle");
         title ← validate_required_text title (lit "site title") 200;
         description ← validate_optional_text description (lit "site description") 2000;
         Ok (handle, title, description)) with
  | Err e => (Err e, db)
  | Ok (handle, title, description) =>
      transaction (
        control ← fetch load_admin_control_plane;
        guard_ok (ensure (cp_owner_user control =? owner_user_id)%N NotFound);;
        guard_ok (fail_if (cp_setup_complete control)
          (Validation (lit "primary owner setup is already complete")));;
        fetch (ensure_site_owner (cp_owner_user control) (cp_primary_site control));;
        exec map_community_constraint_error
          (update_site_metadata (cp_primary_site control) handle title description now1);;
        append_site_appearance_revision (cp_owner_user control) (cp_primary_site control) profile None now2;;
        exec_one map_storage_error (update_setup now3)
          (Validation (lit "primary owner setup is already complete"));;
        fetch (load_site_by_id (cp_primary_site control) (Some (cp_owner_user control)))) db
  end.

(** ** External identities *)

(** [UPDATE external_identities SET last_seen_at = ?1 WHERE ..] *)
Definition touch_identity (key : rstr * rstr * list N) (now : DateTime) (db : AccountDB) : AccountDB :=
  set_identities db (alter (fun r => {| ei_user_id := ei_user_id r; ei_created_at := ei_created_at r;
                                        ei_last_seen_at := now |}) key (identity_table db)).

Definition bind_external_identity (adapter issuer : rstr) (subject fingerprint : list N)
    (now : DateTime) (db : AccountDB) : result RepositoryError ExternalIdentityRecord * AccountDB :=
  match (adapter ← validate_external_adapter adapter;
         issuer ← validate_external_issuer issuer;
         validate_subject_hash subject;;
         validate_fingerprint fingerprint;;
         Ok (adapter, issuer)) with
  | Err e => (Err e, db)
  | Ok (adapter, issuer) =>
      transaction (
        control ← fetch load_admin_control_plane;
        guard_ok (ensure (same_binding control ModeExternal fingerprint)
          (Validation (lit "external identity binding does not match the active administrator authentication binding")));;
        fetch (ensure_site_owner (cp_owner_user control) (cp_primary_site control));;
        existing ← fetch (load_external_identity_optional adapter issuer subject);
        match existing with
        | Some r =>
            guard_ok (ensure (xr_user_id r =? cp_owner_user control)%N
              (Validation (lit "external identity is already bound to a different user")));;
            update (touch_identity (adapter, issuer, subject) now)
        | None =>
            exec map_community_constraint_error (insert_identity adapter issuer subject
              {| ei_user_id := cp_owner_user control; ei_created_at := now; ei_last_seen_at := now |})
        end;;
        fetch (load_external_identity adapter issuer subject)) db
  end.

Definition get_external_identity (adapter issuer : rstr) (subject : list N) (db : AccountDB)
    : result RepositoryError ExternalIdentityRecord :=
  adapter ← validate_external_adapter adapter;
  issuer ← validate_external_issuer issuer;
  validate_subject_hash subject;;
  load_external_identity adapter issuer subject db.

(** ** Sessions *)

(** [insert_session] up to its [INSERT]; [now1] is read by the expiry check and
    [now2] is the creation time. *)
Definition insert_session_statement (id user_id : Uuid) (token_hash : list N) (expires_at : DateTime)
    (epoch : Z) (method : SessionAuthMethod) (now1 now2 : DateTime) : acc unit :=
  guard_ok (validate_token_hash token_hash);;
  guard_ok (validate_session_expiry expires_at now1);;
  guard_ok (ensure (epoch <=? i64_max)%Z (Validation (lit "session auth epoch is too large")));;
  exec map_community_constraint_error (insert_session_row id
    {| ss_token_hash := token_hash; ss_user_id := user_id; ss_auth_epoch := epoch;
       ss_auth_method := method; ss_expires_at := expires_at; ss_created_at := now2;
       ss_revoked_at := None |}).
Definition insert_session (id user_id : Uuid) (token_hash : list N) (expires_at : DateTime)
    (epoch : Z) (method : SessionAuthMethod) (now1 now2 : DateTime) : acc SessionRecord :=
  insert_session_statement id user_id token_hash expires_at epoch method now1 now2;;
  fetch (load_session_by_id id).

Definition create_primary_owner_session (token_hash : list N) (expires_at : DateTime)
    (method : SessionAuthMethod) (fingerprint : list N) (id : Uuid) (now0 now1 now2 : DateTime)
    (db : AccountDB) : result RepositoryError SessionRecord * AccountDB :=
  match (validate_token_hash token_hash;;
         validate_session_expiry expires_at now0;;
         validate_fingerprint fingerprint) with
  | Err e => (Err e, db)
  | Ok _ =>
      transaction (
        control ← fetch load_admin_control_plane;
        guard_ok (ensure (bool_decide (session_method (cp_auth_mode control) = Some method)
                          && bool_decide (cp_binding_fingerprint control = fingerprint))
          (Validation (lit "session issuance does not match the active administrator authentication binding")));;
        fetch (ensure_site_owner (cp_owner_user control) (cp_primary_site control));;
        insert_session id (cp_owner_user control) token_hash expires_at (cp_auth_epoch control) method
          now1 now2) db
  end.

(** The session was issued to the owner under the stored binding. *)
Definition session_matches (session : SessionRecord) (control : AdminControlPlaneRecord) : bool :=
  (sn_user_id session =? cp_owner_user control)%N
  && (sn_auth_epoch session =? cp_auth_epoch control)%Z
  && bool_decide (session_method (cp_auth_mode control) = Some (sn_auth_method session)).

Definition get_primary_owner_session (token_hash : list N) (now : DateTime) (db : AccountDB)
    : result RepositoryError PrimaryOwnerSession :=
  validate_token_hash token_hash;;
  session ← load_active_session_by_hash token_hash now db;
  control ← load_admin_control_plane db;
  ensure (session_matches session control) NotFound;;
  user ← load_user_by_id (cp_owner_user control) db;
  site ← load_site_by_id (cp_primary_site control) None db;
  Ok {| pos_session := session; pos_user := user; pos_site := site |}.

Definition create_session (user_id : Uuid) (token_hash : list N) (expires_at : DateTime)
    (id : Uuid) (now0 now1 now2 : DateTime) (db : AccountDB)
    : result RepositoryError SessionRecord * AccountDB :=
  match (validate_token_hash token_hash;; validate_session_expiry expires_at now0) with
  | Err e => (Err e, db)
  | Ok _ =>
      then_load
        (autocommit (insert_session_statement id user_id token_hash expires_at 0 Legacy now1 now2) db)
        (fun _ => load_session_by_id id)
  end.

Definition get_session (token_hash : list N) (now : DateTime) (db : AccountDB)
    : result RepositoryError SessionRecord :=
  validate_token_hash token_hash;;
  session ← load_active_session_by_hash token_hash now db;
  (if bool_decide (sn_auth_method session = Legacy) then Ok tt
   else control ← load_admin_control_plane db; ensure (session_matches session control) NotFound);;
  Ok session.

Definition revoke_session (token_hash : list N) (now : DateTime) (db : AccountDB)
    : result RepositoryError bool * AccountDB :=
  match validate_token_hash token_hash with
  | Err e => (Err e, db)
  | Ok _ => let '(changed, db') := revoke_token token_hash now db in (Ok (0 <? changed)%N, db')
  end.

(** ** Sites *)

Definition create_site (owner_user_id : Uuid) (handle title : rstr) (description : option rstr)
    (profile : ThemeProfile) (id : Uuid) (now : DateTime) (db : AccountDB)
    : result RepositoryError SiteRecord * AccountDB :=
  match (handle ← normalize_handle handle (lit "site handle");
         title ← validate_required_text title (lit "site title") 200;
         description ← validate_optional_text description (lit "site description") 2000;
         Ok (handle, title, description)) with
  | Err e => (Err e, db)
  | Ok (handle, title, description) =>
      then_load (transaction (
        fetch (ensure_user_exists owner_user_id);;
        already_owns ← fetch (fun db => Ok (any_row
          (fun k m => (k.2 =? owner_user_id)%N && is_owner (ms_role m)) (membership_table db)));
        guard_ok (fail_if already_owns
          (Validation (lit "an account can own one site in this deployment")));;
        exec map_community_constraint_error (insert_site id
          {| st_handle := handle; st_title := title; st_description := description;
             st_current_theme_revision := 1; st_created_at := now; st_updated_at := now |});;
        exec map_community_constraint_error
          (insert_membership id owner_user_id {| ms_role := Owner; ms_created_at := now |});;
        exec map_community_constraint_error (insert_theme id 1
          {| th_profile := profile; th_custom_css := None;
             th_created_by_user_id := owner_user_id; th_created_at := now |})) db)
        (fun _ => load_site_by_id id None)
  end.

Definition legacy_owner_phc : rstr := lit "$argon2id$disabled-for-legacy-readonly-owner".

Definition ensure_legacy_site (site_id : Uuid) (now : DateTime) (db : AccountDB)
    : result RepositoryError SiteRecord * AccountDB :=
  match load_site_by_id site_id None db with
  | Ok site => (Ok site, db)
  | Err NotFound =>
      let handle := lit "legacy-" ++ uuid_simple site_id in
      then_load (transaction (
        exec map_community_constraint_error (or_ignore (insert_user site_id
          {| us_email := handle ++ lit "@localhost"; us_handle := handle;
             us_display_name := lit "Legacy owner"; us_password_phc := legacy_owner_phc;
             us_created_at := now; us_updated_at := now |}));;
        exec map_community_constraint_error (or_ignore (insert_site site_id
          {| st_handle := handle; st_title := lit "Legacy blog";
             st_description := Some (lit "Content retained from the single-site deployment profile.");
             st_current_theme_revision := 1; st_created_at := now; st_updated_at := now |}));;
        exec map_community_constraint_error (or_ignore
          (insert_membership site_id site_id {| ms_role := Owner; ms_created_at := now |}));;
        exec map_community_constraint_error (or_ignore (insert_theme site_id 1
          {| th_profile := Paper; th_custom_css := None;
             th_created_by_user_id := site_id; th_created_at := now |}))) db)
        (fun _ => load_site_by_id site_id None)
  | Err e => (Err e, db)
  end.

Definition list_sites (lim : N) (db : AccountDB) := load_sites None lim db.
Definition get_site_by_id (id : Uuid) (db : AccountDB) := load_site_by_id id None db.
Definition list_owned_sites (owner_user_id : Uuid) (lim : N) (db : AccountDB) :=
  load_sites (Some owner_user_id) lim db.
Definition get_owned_site (owner_user_id site_id : Uuid) (db : AccountDB) :=
  load_site_by_id site_id (Some owner_user_id) db.
Definition get_site_by_handle (handle : rstr) (db : AccountDB) : result RepositoryError SiteRecord :=
  handle ← normalize_handle handle (lit "site handle");
  '(id, _) ← ok_or (find_row (fun _ s => nocase_eqb (st_handle s) handle) (site_table db)) NotFound;
  load_site_by_id id None db.
Definition owns_site (user_id site_id : Uuid) (db : AccountDB) := owns_site_in_connection user_id site_id db.
Definition get_site_membership (user_id site_id : Uuid) (db : AccountDB) := load_site_membership site_id user_id db.

Definition list_site_metadata_page (offset lim : N) (db : AccountDB)
    : result RepositoryError (list SiteMetadataRecord) :=
  rows ← page offset lim (order_by (fun a b => newest_first (st_created_at a.2, a.1) (st_created_at b.2, b.1))
                            (map_to_list (site_table db)));
  Ok ((fun kv => {| sm_id := kv.1; sm_handle := st_handle kv.2; sm_title := st_title kv.2;
                    sm_created_at := st_created_at kv.2; sm_updated_at := st_updated_at kv.2 |}) <$> (rows : list (Uuid * SiteRow))).

(** [ORDER BY CASE role WHEN 'owner' THEN 0 ELSE 1 END, created_at DESC, site_id DESC] *)
Definition accessible_leb (a b : Uuid * MembershipRow) : bool :=
  let rank (m : MembershipRow) := if is_owner (ms_role m) then 0%N else 1%N in
  (rank a.2 <? rank b.2)%N
  || ((rank a.2 =? rank b.2)%N && newest_first (ms_created_at a.2, a.1) (ms_created_at b.2, b.1)).
Definition list_accessible_sites (user_id : Uuid) (lim : N) (db : AccountDB)
    : result RepositoryError (list SiteRecord) :=
  let rows := omap (fun kv => if (kv.1.2 =? user_id)%N then Some (kv.1.1, kv.2) else None)
                (map_to_list (membership_table db)) in
  traverse (fun row => load_site_by_id row.1 None db) (limit (N.min lim 500) (order_by accessible_leb rows)).

(** [ORDER BY CASE role .. END, created_at, user_id] *)
Definition role_rank (r : SiteMembershipRole) : N := match r with Owner => 0 | Editor => 1 | Writer => 2 end.
Definition member_leb (a b : Uuid * MembershipRow) : bool :=
  (role_rank (ms_role a.2) <? role_rank (ms_role b.2))%N
  || ((role_rank (ms_role a.2) =? role_rank (ms_role b.2))%N
      && ((ms_created_at a.2 <? ms_created_at b.2)%Z
          || ((ms_created_at a.2 =? ms_created_at b.2)%Z && (a.1 <=? b.1)%N))).
Definition list_site_memberships (owner_user_id site_id : Uuid) (lim : N) (db : AccountDB)
    : result RepositoryError (list SiteMembershipRecord) :=
  ensure_site_owner owner_user_id site_id db;;
  let rows := omap (fun kv => if (kv.1.1 =? site_id)%N then Some (kv.1.2, kv.2) else None)
                (map_to_list (membership_table db)) in
  Ok ((fun row => parse_site_membership_row site_id row.1 row.2) <$>
      limit (N.min lim 500) (order_by member_leb rows)).

Definition add_site_collaborator (owner_user_id site_id : Uuid) (collaborator_email : rstr)
    (role : SiteMembershipRole) (now : DateTime) (db : AccountDB)
    : result RepositoryError SiteMembershipRecord * AccountDB :=
  match (fail_if (is_owner role) (Validation (lit "owner membership cannot be invited or reassigned"));;
         normalize_email collaborator_email) with
  | Err e => (Err e, db)
  | Ok email =>
      then_load (transaction (
        fetch (ensure_site_owner owner_user_id site_id);;
        collaborator ← fetch (fun db =>
          kv ← ok_or (find_row (fun _ u => nocase_eqb (us_email u) email) (user_table db)) NotFound;
          Ok kv.1);
        exec map_membership_error
          (insert_membership site_id collaborator {| ms_role := role; ms_created_at := now |});;
        mret collaborator) db)
        (fun collaborator => load_site_membership site_id collaborator)
  end.

(** [DELETE FROM site_memberships WHERE site_id = ?1 AND user_id = ?2] *)
Definition delete_membership (site_id user_id : Uuid) (db : AccountDB) : result SqlError (N * AccountDB) :=
  Ok ((if is_some (membership_table db !! (site_id, user_id)) then 1%N else 0%N),
      set_memberships db (delete (site_id, user_id) (membership_table db))).

Definition remove_site_collaborator (owner_user_id site_id collaborator_user_id : Uuid) (db : AccountDB)
    : result RepositoryError SiteMembershipRecord * AccountDB :=
  transaction (
    fetch (ensure_site_owner owner_user_id site_id);;
    membership ← fetch (load_site_membership site_id collaborator_user_id);
    guard_ok (fail_if (is_owner (mr_role membership))
      (Validation (lit "owner membership cannot be removed or demoted")));;
    exec_one map_storage_error (delete_membership site_id collaborator_user_id) NotFound;;
    mret membership) db.

(** ** Appearance *)

(** The custom CSS of the current theme revision. *)
Definition current_custom_css (site_id : Uuid) (db : AccountDB) : result RepositoryError (option rstr) :=
  match (s ← site_table db !! site_id; theme_table db !! (site_id, st_current_theme_revision s)) with
  | Some t => Ok (th_custom_css t)
  | None => Err (Storage (lit "Query returned no rows"))
  end.

Definition change_site_theme (owner_user_id site_id : Uuid) (profile : ThemeProfile) (now : DateTime)
    (db : AccountDB) : result RepositoryError SiteRecord * AccountDB :=
  then_load (transaction (
    fetch (ensure_site_owner owner_user_id site_id);;
    css ← fetch (current_custom_css site_id);
    append_site_appearance_revision owner_user_id site_id profile css now) db)
    (fun _ => load_site_by_id site_id (Some owner_user_id)).

Definition change_site_appearance (owner_user_id site_id : Uuid) (profile : ThemeProfile)
    (custom_css : option rstr) (now : DateTime) (db : AccountDB)
    : result RepositoryError SiteRecord * AccountDB :=
  match validate_custom_css custom_css with
  | Err e => (Err e, db)
  | Ok css =>
      then_load (transaction (
        fetch (ensure_site_owner owner_user_id site_id);;
        append_site_appearance_revision owner_user_id site_id profile css now) db)
        (fun _ => load_site_by_id site_id (Some owner_user_id))
  end.

(** ** Histories *)

(** Every operation of the account tables, with its arguments, fresh identifiers
    and clock readings.  The offline import, which may also give the owner a
    new display name, is in OfflineImport; BlogTheorems follows both. *)
Inductive account_op :=
| CreateUser (email handle display_name phc : rstr) (id : Uuid) (now : DateTime)
| ProvisionPrimaryOwnerSite (b : PrimaryOwnerBootstrap) (mode : AdminAuthMode) (fp : list N) (n1 n2 : DateTime)
| ReconcileAdminControlPlane (site : Uuid) (mode : AdminAuthMode) (fp : list N) (now : DateTime)
| RotateAdminControlPlane (site : Uuid) (mode : AdminAuthMode) (fp : list N) (now : DateTime)
| CompletePrimaryOwnerSetup (owner : Uuid) (handle title : rstr) (description : option rstr)
    (profile : ThemeProfile) (n1 n2 n3 : DateTime)
| BindExternalIdentity (adapter issuer : rstr) (subject fp : list N) (now : DateTime)
| CreatePrimaryOwnerSession (token : list N) (expires : DateTime) (method : SessionAuthMethod)
    (fp : list N) (id : Uuid) (n0 n1 n2 : DateTime)
| CreateSession (user : Uuid) (token : list N) (expires : DateTime) (id : Uuid) (n0 n1 n2 : DateTime)
| RevokeSession (token : list N) (now : DateTime)
| CreateSite (owner : Uuid) (handle title : rstr) (description : option rstr) (profile : ThemeProfile)
    (id : Uuid) (now : DateTime)
| EnsureLegacySite (site : Uuid) (now : DateTime)
| AddSiteCollaborator (owner site : Uuid) (email : rstr) (role : SiteMembershipRole) (now : DateTime)
| RemoveSiteCollaborator (owner site user : Uuid)
| ChangeSiteTheme (owner site : Uuid) (profile : ThemeProfile) (now : DateTime)
| ChangeSiteAppearance (owner site : Uuid) (profile : ThemeProfile) (css : option rstr) (now : DateTime).

(** The error of a call, if any, and the tables after it. *)
Definition outcome {A} (p : result RepositoryError A * AccountDB) : option RepositoryError * AccountDB :=
  (match p.1 with Ok _ => None | Err e => Some e end, p.2).

Definition account_run (o : account_op) (db : AccountDB) : option RepositoryError * AccountDB :=
  match o with
  | CreateUser e h d p id now => outcome (create_user e h d p id now db)
  | ProvisionPrimaryOwnerSite b m fp n1 n2 => outcome (provision_primary_owner_site b m fp n1 n2 db)
  | ReconcileAdminControlPlane s m fp now => outcome (reconcile_admin_control_plane s m fp now db)
  | RotateAdminControlPlane s m fp now => outcome (rotate_admin_control_plane s m fp now db)
  | CompletePrimaryOwnerSetup u h t d p n1 n2 n3 =>
      outcome (complete_primary_owner_setup u h t d p n1 n2 n3 db)
  | BindExternalIdentity a i s fp now => outcome (bind_external_identity a i s fp now db)
  | CreatePrimaryOwnerSession t e m fp id n0 n1 n2 =>
      outcome (create_primary_owner_session t e m fp id n0 n1 n2 db)
  | CreateSession u t e id n0 n1 n2 => outcome (create_session u t e id n0 n1 n2 db)
  | RevokeSession t now => outcome (revoke_session t now db)
  | CreateSite u h t d p id now => outcome (create_site u h t d p id now db)
  | EnsureLegacySite s now => outcome (ensure_legacy_site s now db)
  | AddSiteCollaborator u s e r now => outcome (add_site_collaborator u s e r now db)
  | RemoveSiteCollaborator u s c => outcome (remove_site_collaborator u s c db)
  | ChangeSiteTheme u s p now => outcome (change_site_theme u s p now db)
  | ChangeSiteAppearance u s p css now => outcome (change_site_appearance u s p css now db)
  end.

Definition account_runs (ops : list account_op) (db : AccountDB) : AccountDB :=
  fold_left (fun db o => (account_run o db).2) ops db.
