(* ===== verification/AccountsSpec.v ===== *)
(** * The account tables: abstract steps and the invariant

    What an operation of [Accounts] may do to the tables, as a relation on
    whole states: each rule adds or changes the rows of one decision, under the
    conditions that decision has to meet.  The well-formedness invariant of the
    tables and the facts that no step revises are proved for the rules; the
    operations are shown to be sequences of these steps in [AccountsRefine]. *)

From Stdlib Require Import Bool NArith ZArith Lia.
From S2P Require Import Prelude Text Extern Content Ai2Ai StoreBase StoreTaxonomy CustomCss Accounts.

(** ** Steps *)

Definition is_owner_of (db : AccountDB) (site user : Uuid) : Prop :=
  exists m, membership_table db !! (site, user) = Some m /\ ms_role m = Owner.

(** A session may be issued: to any user as a legacy session, or to the owner
    under the stored binding. *)
Definition issued_under (db : AccountDB) (s : SessionRow) : Prop :=
  (ss_auth_method s = Legacy /\ ss_auth_epoch s = 0%Z) \/
  exists c, control_plane db = Some c /\ ss_auth_epoch s = ct_auth_epoch c
    /\ session_method (ct_auth_mode c) = Some (ss_auth_method s) /\ ss_user_id s = ct_owner_user_id c.

Definition handle_free (db : AccountDB) (handle : rstr) (except : option Uuid) : Prop :=
  forall id s, site_table db !! id = Some s -> Some id <> except -> nocase_eqb (st_handle s) handle = false.

Definition add_site (id : Uuid) (s : SiteRow) (owner : Uuid) (m : MembershipRow) (t : ThemeRow)
    (db : AccountDB) : AccountDB :=
  Build_AccountDB (user_table db) (session_table db) (<[id := s]> (site_table db))
    (<[(id, owner) := m]> (membership_table db)) (<[(id, 1%Z) := t]> (theme_table db))
    (control_plane db) (identity_table db).

Definition with_theme (s : SiteRow) (revision : Z) (now : DateTime) : SiteRow := {|
  st_handle := st_handle s; st_title := st_title s; st_description := st_description s;
  st_current_theme_revision := revision; st_created_at := st_created_at s; st_updated_at := now |}.
Definition with_metadata (s : SiteRow) handle title description (now : DateTime) : SiteRow := {|
  st_handle := handle; st_title := title; st_description := description;
  st_current_theme_revision := st_current_theme_revision s;
  st_created_at := st_created_at s; st_updated_at := now |}.
Definition with_binding (c : ControlRow) mode epoch fingerprint (now : DateTime) : ControlRow := {|
  ct_primary_site_id := ct_primary_site_id c; ct_owner_user_id := ct_owner_user_id c;
  ct_auth_mode := mode; ct_auth_epoch := epoch; ct_setup_complete := ct_setup_complete c;
  ct_binding_fingerprint := fingerprint; ct_created_at := ct_created_at c; ct_updated_at := now |}.
Definition with_setup (c : ControlRow) (now : DateTime) : ControlRow := {|
  ct_primary_site_id := ct_primary_site_id c; ct_owner_user_id := ct_owner_user_id c;
  ct_auth_mode := ct_auth_mode c; ct_auth_epoch := ct_auth_epoch c; ct_setup_complete := true;
  ct_binding_fingerprint := ct_binding_fingerprint c; ct_created_at := ct_created_at c;
  ct_updated_at := now |}.

Definition revoke_where (p : SessionRow -> bool) (now : DateTime) (t : gmap Uuid SessionRow) :=
  (fun s => if p s then revoke_row now s else s) <$> t.

Inductive account_step (db : AccountDB) : AccountDB -> Prop :=
| step_user id r :
    user_table db !! id = None ->
    (forall k u, user_table db !! k = Some u ->
       nocase_eqb (us_handle u) (us_handle r) = false /\ nocase_eqb (us_email u) (us_email r) = false) ->
    account_step db (set_users db (<[id := r]> (user_table db)))
| step_session id r :
    session_table db !! id = None ->
    (forall k s, session_table db !! k = Some s -> ss_token_hash s <> ss_token_hash r) ->
    size_of (ss_token_hash r) = 32%N -> is_Some (user_table db !! ss_user_id r) ->
    ss_revoked_at r = None -> issued_under db r ->
    account_step db (set_sessions db (<[id := r]> (session_table db)))
| step_revoke p now :
    account_step db (set_sessions db (revoke_where p now (session_table db)))
| step_site id s owner m t :
    site_table db !! id = None -> is_Some (user_table db !! owner) ->
    st_current_theme_revision s = 1%Z -> handle_free db (st_handle s) None ->
    ms_role m = Owner -> account_step db (add_site id s owner m t db)
| step_metadata id s handle title description now :
    site_table db !! id = Some s -> handle_free db handle (Some id) ->
    account_step db (set_sites db (<[id := with_metadata s handle title description now]> (site_table db)))
| step_theme id s revision t now :
    site_table db !! id = Some s -> (0 < revision)%Z ->
    (forall r, is_Some (theme_table db !! (id, r)) -> (r < revision)%Z) ->
    account_step db (set_sites (set_themes db (<[(id, revision) := t]> (theme_table db)))
      (<[id := with_theme s revision now]> (site_table db)))
| step_member site user m :
    is_Some (site_table db !! site) -> is_Some (user_table db !! user) ->
    membership_table db !! (site, user) = None -> ms_role m <> Owner ->
    account_step db (set_memberships db (<[(site, user) := m]> (membership_table db)))
| step_unmember site user m :
    membership_table db !! (site, user) = Some m -> ms_role m <> Owner ->
    account_step db (set_memberships db (delete (site, user) (membership_table db)))
| step_bind c :
    control_plane db = None -> ct_auth_epoch c = 1%Z -> size_of (ct_binding_fingerprint c) = 32%N ->
    is_owner_of db (ct_primary_site_id c) (ct_owner_user_id c) ->
    account_step db (set_control db (Some c))
| step_rotate c mode fingerprint now :
    control_plane db = Some c -> (ct_auth_epoch c + 1 <= i64_max)%Z -> size_of fingerprint = 32%N ->
    account_step db (Build_AccountDB (user_table db)
      (revoke_where (fun s => negb (bool_decide (ss_auth_method s = Legacy))) now (session_table db))
      (site_table db) (membership_table db) (theme_table db)
      (Some (with_binding c mode (ct_auth_epoch c + 1) fingerprint now)) ∅)
| step_setup c now :
    control_plane db = Some c -> account_step db (set_control db (Some (with_setup c now)))
| step_identity key r :
    size_of key.2 = 32%N -> is_Some (user_table db !! ei_user_id r) ->
    account_step db (set_identities db (<[key := r]> (identity_table db))).

(** ** The invariant *)

Record account_wf (db : AccountDB) : Prop := {
  awf_member : forall site user m, membership_table db !! (site, user) = Some m ->
    is_Some (site_table db !! site) /\ is_Some (user_table db !! user);
  awf_owner : forall site, is_Some (site_table db !! site) -> exists user, is_owner_of db site user;
  awf_one_owner : forall site u v, is_owner_of db site u -> is_owner_of db site v -> u = v;
  awf_theme : forall site s, site_table db !! site = Some s ->
    is_Some (theme_table db !! (site, st_current_theme_revision s))
    /\ (0 < st_current_theme_revision s)%Z;
  awf_theme_site : forall site r, is_Some (theme_table db !! (site, r)) -> is_Some (site_table db !! site);
  awf_site_handle : forall i j s t, site_table db !! i = Some s -> site_table db !! j = Some t ->
    nocase_eqb (st_handle s) (st_handle t) = true -> i = j;
  awf_user_names : forall i j u v, user_table db !! i = Some u -> user_table db !! j = Some v ->
    nocase_eqb (us_handle u) (us_handle v) = true \/ nocase_eqb (us_email u) (us_email v) = true -> i = j;
  awf_token : forall i j s t, session_table db !! i = Some s -> session_table db !! j = Some t ->
    ss_token_hash s = ss_token_hash t -> i = j;
  awf_session : forall id s, session_table db !! id = Some s ->
    size_of (ss_token_hash s) = 32%N /\ is_Some (user_table db !! ss_user_id s) /\ (0 <= ss_auth_epoch s)%Z;
  (** A live owner session carries the stored binding. *)
  awf_live : forall id s, session_table db !! id = Some s -> ss_revoked_at s = None -> issued_under db s;
  awf_control : forall c, control_plane db = Some c ->
    (0 < ct_auth_epoch c <= i64_max)%Z /\ size_of (ct_binding_fingerprint c) = 32%N
    /\ is_owner_of db (ct_primary_site_id c) (ct_owner_user_id c);
  awf_identity : forall key r, identity_table db !! key = Some r ->
    size_of key.2 = 32%N /\ is_Some (user_table db !! ei_user_id r);
}.

Lemma no_accounts_wf : account_wf no_accounts.
Proof.
  split; cbn; try (intros * ?; discriminate || (intros; simplify_map_eq; done)).
  all: try (intros * [? ?]; simplify_map_eq; done).
  intros site u v (m & Hm & _). cbn in Hm. simplify_map_eq.
Qed.

(** ** Preservation *)

(** The fields of the invariant that talk about unchanged tables only. *)
Ltac unchanged Hwf :=
  first [exact (awf_member _ Hwf) | exact (awf_owner _ Hwf) | exact (awf_one_owner _ Hwf)
        | exact (awf_theme _ Hwf) | exact (awf_theme_site _ Hwf) | exact (awf_site_handle _ Hwf)
        | exact (awf_user_names _ Hwf) | exact (awf_token _ Hwf) | exact (awf_session _ Hwf)
        | exact (awf_live _ Hwf) | exact (awf_control _ Hwf) | exact (awf_identity _ Hwf)].

(** [lookup_cases]: split every lookup in an updated table. *)
Ltac lookup_cases :=
  repeat match goal with
  | H : <[_ := _]> _ !! _ = Some _ |- _ => apply lookup_insert_Some in H as [[? ?]|[? H]]
  | H : delete _ _ !! _ = Some _ |- _ => apply lookup_delete_Some in H as [? H]
  | H : (_ <$> _) !! _ = Some _ |- _ => apply lookup_fmap_Some in H as (? & ? & ?)
  end; simplify_eq.

Lemma nocase_sym a b : nocase_eqb a b = nocase_eqb b a.
Proof. unfold nocase_eqb, str_eqb. apply bool_decide_ext. naive_solver. Qed.

Lemma insert_is_Some {K V} `{Countable K} (t : gmap K V) i j v :
  is_Some (t !! j) -> is_Some (<[i := v]> t !! j).
Proof. intros. rewrite lookup_insert_is_Some'. auto. Qed.
#[export] Hint Resolve insert_is_Some : osb.

Lemma revoke_row_fields now s :
  ss_token_hash (revoke_row now s) = ss_token_hash s /\ ss_user_id (revoke_row now s) = ss_user_id s /\
  ss_auth_epoch (revoke_row now s) = ss_auth_epoch s /\ ss_auth_method (revoke_row now s) = ss_auth_method s /\
  ss_expires_at (revoke_row now s) = ss_expires_at s /\ is_Some (ss_revoked_at (revoke_row now s)).
Proof. cbn. split_and!; try done. destruct (ss_revoked_at s); eauto. Qed.

Lemma revoke_where_lookup p now t id s :
  revoke_where p now t !! id = Some s <->
  exists s0, t !! id = Some s0 /\ s = if p s0 then revoke_row now s0 else s0.
Proof. unfold revoke_where. rewrite lookup_fmap_Some. naive_solver. Qed.

Lemma revoke_where_same p now t id s : revoke_where p now t !! id = Some s ->
  exists s0, t !! id = Some s0 /\ ss_token_hash s = ss_token_hash s0 /\ ss_user_id s = ss_user_id s0
    /\ ss_auth_epoch s = ss_auth_epoch s0 /\ (ss_revoked_at s = None -> s = s0 /\ p s0 = false).
Proof.
  intros (s0 & Hs0 & ->)%revoke_where_lookup. exists s0.
  destruct (p s0); [|by split_and!]. split_and!; try done.
  cbn. destruct (ss_revoked_at s0); done.
Qed.

Lemma user_step_wf db id r : account_wf db -> user_table db !! id = None ->
  (forall k u, user_table db !! k = Some u ->
     nocase_eqb (us_handle u) (us_handle r) = false /\ nocase_eqb (us_email u) (us_email r) = false) ->
  account_wf (set_users db (<[id := r]> (user_table db))).
Proof.
  intros Hwf Hid Hfree. split; cbn; try unchanged Hwf.
  - intros site user m [? ?]%(awf_member _ Hwf). auto with osb.
  - intros i j u v Hu Hv. lookup_cases; [done| | |by eapply (awf_user_names _ Hwf)].
    + destruct (Hfree _ _ Hu) as [-> ->]. naive_solver.
    + destruct (Hfree _ _ Hv) as [H1 H2].
      rewrite (nocase_sym (us_handle u)), (nocase_sym (us_email u)), H1, H2. naive_solver.
  - intros k s (? & ? & ?)%(awf_session _ Hwf). auto with osb.
  - intros key x [? ?]%(awf_identity _ Hwf). auto with osb.
Qed.

Lemma session_step_wf db id r : account_wf db -> session_table db !! id = None ->
  (forall k s, session_table db !! k = Some s -> ss_token_hash s <> ss_token_hash r) ->
  size_of (ss_token_hash r) = 32%N -> is_Some (user_table db !! ss_user_id r) -> issued_under db r ->
  account_wf (set_sessions db (<[id := r]> (session_table db))).
Proof.
  intros Hwf Hid Hfree Hsize Huser Hiss. split; cbn; try unchanged Hwf.
  - intros i j s t Hs Ht E. lookup_cases; [done| | |by eapply (awf_token _ Hwf)].
    + by destruct (Hfree _ _ Hs).
    + by destruct (Hfree _ _ Ht).
  - intros k s Hs. lookup_cases; [|by apply (awf_session _ Hwf k)]. split_and!; try done.
    destruct Hiss as [[_ ->]|(c & Hc & -> & _)]; [done|].
    destruct (awf_control _ Hwf c Hc) as [? _]. lia.
  - intros k s Hs Hr. lookup_cases; [done|]. by apply (awf_live _ Hwf k s).
Qed.

Lemma revoke_step_wf db p now : account_wf db ->
  account_wf (set_sessions db (revoke_where p now (session_table db))).
Proof.
  intros Hwf. split; cbn; try unchanged Hwf.
  - intros i j s t (s0 & Hs & Es & _)%revoke_where_same (t0 & Ht & Et & _)%revoke_where_same E.
    apply (awf_token _ Hwf _ _ _ _ Hs Ht). congruence.
  - intros k s (s0 & Hs & -> & -> & -> & _)%revoke_where_same. by apply (awf_session _ Hwf k).
  - intros k s (s0 & Hs & _ & _ & _ & Hl)%revoke_where_same Hr. destruct (Hl Hr) as [-> _].
    by apply (awf_live _ Hwf k s0).
Qed.

Lemma add_site_owner db id s owner m t site user :
  account_wf db -> site_table db !! id = None -> ms_role m = Owner ->
  is_owner_of (add_site id s owner m t db) site user <->
  (site = id /\ user = owner) \/ is_owner_of db site user.
Proof.
  intros Hwf Hid Hm. unfold is_owner_of. cbn. split.
  - intros (x & Hx & Hr). apply lookup_insert_Some in Hx as [[E _]|[_ Hx]]; [left; by injection E as -> ->|].
    right. eauto.
  - intros [[-> ->]|(x & Hx & Hr)].
    + exists m. by rewrite lookup_insert_eq.
    + exists x. split; [|done]. rewrite lookup_insert_ne; [done|]. intros [= <- <-].
      destruct (awf_member _ Hwf _ _ _ Hx) as [[? Hs] _]. congruence.
Qed.

Lemma site_step_wf db id s owner m t : account_wf db ->
  site_table db !! id = None -> is_Some (user_table db !! owner) ->
  st_current_theme_revision s = 1%Z -> handle_free db (st_handle s) None -> ms_role m = Owner ->
  account_wf (add_site id s owner m t db).
Proof.
  intros Hwf Hid Howner Hrev Hfree Hm.
  assert (forall site user, is_owner_of (add_site id s owner m t db) site user <->
    (site = id /\ user = owner) \/ is_owner_of db site user) as Hown by (intros; by apply add_site_owner).
  assert (forall site u, is_owner_of db site u -> site <> id) as Hnid.
  { intros site u (x & Hx & _) ->. destruct (awf_member _ Hwf _ _ _ Hx) as [[? ?] _]. congruence. }
  split; try unchanged Hwf.
  - cbn. intros site user x Hx. lookup_cases; [split; [|done]; rewrite lookup_insert_eq; eauto|].
    destruct (awf_member _ Hwf _ _ _ Hx). auto with osb.
  - intros site [x Hx]. setoid_rewrite Hown. cbn in Hx. lookup_cases; [eauto|].
    destruct (awf_owner _ Hwf site) as [u Hu]; eauto.
  - intros site u v. rewrite !Hown. intros [[-> ->]|Hu] [[E ->]|Hv]; try done;
      [by apply Hnid in Hv|by apply Hnid in Hu|by eapply (awf_one_owner _ Hwf)].
  - cbn. intros site x Hx. lookup_cases; [rewrite Hrev, lookup_insert_eq; split; [eauto|done]|].
    destruct (awf_theme _ Hwf _ _ Hx) as (? & ?). auto with osb.
  - cbn. intros site r [x Hx]. lookup_cases; [rewrite lookup_insert_eq; eauto|].
    apply insert_is_Some, (awf_theme_site _ Hwf site r). eauto.
  - cbn. intros i j x y Hx Hy E. lookup_cases; [done| | |by eapply (awf_site_handle _ Hwf)].
    + rewrite (Hfree _ _ Hx) in E; done.
    + rewrite nocase_sym, (Hfree _ _ Hy) in E; done.
  - intros c (? & ? & ?)%(awf_control _ Hwf). split_and!; try done; try lia. apply Hown. auto.
Qed.

Lemma metadata_step_wf db id s handle title description now : account_wf db ->
  site_table db !! id = Some s -> handle_free db handle (Some id) ->
  account_wf (set_sites db (<[id := with_metadata s handle title description now]> (site_table db))).
Proof.
  intros Hwf Hid Hfree. split; cbn; try unchanged Hwf.
  - intros site user m [? ?]%(awf_member _ Hwf). auto with osb.
  - intros site [x Hx]. apply (awf_owner _ Hwf). lookup_cases; eauto.
  - intros site x Hx. lookup_cases; [exact (awf_theme _ Hwf _ _ Hid)|exact (awf_theme _ Hwf _ _ Hx)].
  - intros site r H. apply insert_is_Some. by apply (awf_theme_site _ Hwf _ r).
  - intros i j x y Hx Hy E. lookup_cases; [done| | |by eapply (awf_site_handle _ Hwf)]; cbn in E.
    + rewrite (Hfree _ _ Hx) in E by congruence. done.
    + rewrite nocase_sym, (Hfree _ _ Hy) in E by congruence. done.
Qed.

Lemma theme_step_wf db id s revision t now : account_wf db ->
  site_table db !! id = Some s -> (0 < revision)%Z ->
  account_wf (set_sites (set_themes db (<[(id, revision) := t]> (theme_table db)))
    (<[id := with_theme s revision now]> (site_table db))).
Proof.
  intros Hwf Hid Hpos. split; cbn; try unchanged Hwf.
  - intros site user m [? ?]%(awf_member _ Hwf). auto with osb.
  - intros site [x Hx]. apply (awf_owner _ Hwf). lookup_cases; eauto.
  - intros site x Hx. lookup_cases; [cbn; rewrite lookup_insert_eq; eauto|].
    destruct (awf_theme _ Hwf _ _ Hx) as (? & ?). auto with osb.
  - intros site r [x Hx]. lookup_cases; [rewrite lookup_insert_eq; eauto|].
    apply insert_is_Some, (awf_theme_site _ Hwf _ r). eauto.
  - intros i j x y Hx Hy E. lookup_cases; [done| | |by eapply (awf_site_handle _ Hwf)]; cbn in E.
    + by apply (awf_site_handle _ Hwf _ _ _ _ Hx Hid).
    + by apply (awf_site_handle _ Hwf _ _ _ _ Hid Hy).
Qed.

(** Adding or removing a membership that is not the owner's. *)
Lemma insert_member_owner db site user m :
  membership_table db !! (site, user) = None -> ms_role m <> Owner ->
  forall s u, is_owner_of (set_memberships db (<[(site, user) := m]> (membership_table db))) s u <-> is_owner_of db s u.
Proof.
  intros Hnone Hm s u. unfold is_owner_of. cbn. split; intros (x & Hx & Hr).
  - lookup_cases; eauto.
  - exists x. split; [|done]. rewrite lookup_insert_ne; [done|]. intros [= <- <-]. congruence.
Qed.
Lemma delete_member_owner db site user m :
  membership_table db !! (site, user) = Some m -> ms_role m <> Owner ->
  forall s u, is_owner_of (set_memberships db (delete (site, user) (membership_table db))) s u <-> is_owner_of db s u.
Proof.
  intros Hsome Hm s u. unfold is_owner_of. cbn. split; intros (x & Hx & Hr).
  - lookup_cases. eauto.
  - exists x. split; [|done]. rewrite lookup_delete_ne; [done|]. intros [= <- <-]. congruence.
Qed.

Lemma membership_step_wf db t : account_wf db ->
  (forall s u, is_owner_of (set_memberships db t) s u <-> is_owner_of db s u) ->
  (forall site user m, t !! (site, user) = Some m ->
     is_Some (site_table db !! site) /\ is_Some (user_table db !! user)) ->
  account_wf (set_memberships db t).
Proof.
  intros Hwf Hown Hrefs. split; try unchanged Hwf.
  - exact Hrefs.
  - intros site Hs. setoid_rewrite Hown. by apply (awf_owner _ Hwf).
  - intros site u v. rewrite !Hown. apply (awf_one_owner _ Hwf).
  - intros c (? & ? & ?)%(awf_control _ Hwf). split_and!; try done; try lia. by apply Hown.
Qed.

Lemma bind_step_wf db c : account_wf db ->
  control_plane db = None -> ct_auth_epoch c = 1%Z -> size_of (ct_binding_fingerprint c) = 32%N ->
  is_owner_of db (ct_primary_site_id c) (ct_owner_user_id c) ->
  account_wf (set_control db (Some c)).
Proof.
  intros Hwf Hnone Hepoch Hsize Hown. split; try unchanged Hwf; cbn.
  - intros id s Hs Hl. destruct (awf_live _ Hwf _ _ Hs Hl) as [?|(c0 & ? & _)]; [by left|congruence].
  - intros c0 [= <-]. rewrite Hepoch. split_and!; done.
Qed.

Lemma rotate_step_wf db c mode fingerprint now : account_wf db ->
  control_plane db = Some c -> (ct_auth_epoch c + 1 <= i64_max)%Z -> size_of fingerprint = 32%N ->
  account_wf (Build_AccountDB (user_table db)
    (revoke_where (fun s => negb (bool_decide (ss_auth_method s = Legacy))) now (session_table db))
    (site_table db) (membership_table db) (theme_table db)
    (Some (with_binding c mode (ct_auth_epoch c + 1) fingerprint now)) ∅).
Proof.
  intros Hwf Hc Hmax Hsize.
  pose proof (revoke_step_wf db (fun s => negb (bool_decide (ss_auth_method s = Legacy))) now Hwf) as Hrev.
  split; try unchanged Hwf; try unchanged Hrev; cbn.
  - intros id s (s0 & Hs & _ & _ & _ & Hl)%revoke_where_same Hr. destruct (Hl Hr) as [-> Hlegacy].
    left. apply negb_false_iff, bool_decide_eq_true in Hlegacy. split; [done|].
    destruct (awf_live _ Hwf _ _ Hs Hr) as [[_ ?]|(c0 & _ & _ & Hm & _)]; [done|].
    rewrite Hlegacy in Hm. by destruct (ct_auth_mode c0).
  - intros c0 [= <-]. destruct (awf_control _ Hwf c Hc) as (? & _ & Hown). cbn. split_and!; try done; lia.
  - intros key r Hr. simplify_map_eq.
Qed.

Lemma setup_step_wf db c now : account_wf db -> control_plane db = Some c ->
  account_wf (set_control db (Some (with_setup c now))).
Proof.
  intros Hwf Hc. split; try unchanged Hwf; cbn.
  - intros id s Hs Hl. destruct (awf_live _ Hwf _ _ Hs Hl) as [?|(c0 & Hc0 & ?)]; [by left|].
    right. exists (with_setup c now). split; [done|]. rewrite Hc in Hc0. by injection Hc0 as ->.
  - intros c0 [= <-]. exact (awf_control _ Hwf c Hc).
Qed.

Lemma identity_step_wf db key r : account_wf db ->
  size_of key.2 = 32%N -> is_Some (user_table db !! ei_user_id r) ->
  account_wf (set_identities db (<[key := r]> (identity_table db))).
Proof.
  intros Hwf Hsize Huser. split; try unchanged Hwf; cbn.
  intros k x Hx. lookup_cases; [done|]. by apply (awf_identity _ Hwf _ x).
Qed.

Lemma account_step_wf db db' : account_wf db -> account_step db db' -> account_wf db'.
Proof.
  intros Hwf Hs. destruct Hs.
  - by apply user_step_wf.
  - by apply session_step_wf.
  - by apply revoke_step_wf.
  - by apply site_step_wf.
  - by eapply metadata_step_wf.
  - by apply theme_step_wf.
  - apply membership_step_wf; [done| |].
    + by apply insert_member_owner.
    + intros s u x Hx. lookup_cases; [done|]. by apply (awf_member _ Hwf s u x).
  - apply membership_step_wf; [done| |].
    + by eapply delete_member_owner.
    + intros s u x Hx. lookup_cases. by apply (awf_member _ Hwf s u x).
  - by apply bind_step_wf.
  - by apply rotate_step_wf.
  - by apply setup_step_wf.
  - by apply identity_step_wf.
Qed.

Lemma account_steps_wf db db' : account_wf db -> rtc account_step db db' -> account_wf db'.
Proof. intros Hwf Hs. induction Hs; [done|]. eauto using account_step_wf. Qed.

(** ** What no step revises *)

(** The rows that are only ever extended, and what happens to the others. *)
Record account_evolves (db db' : AccountDB) : Prop := {
  ev_users : user_table db ⊆ user_table db';
  ev_themes : theme_table db ⊆ theme_table db';
  ev_sites : forall id s, site_table db !! id = Some s -> exists s', site_table db' !! id = Some s'
    /\ st_created_at s' = st_created_at s;
  ev_owner : forall site user, is_owner_of db site user -> is_owner_of db' site user;
  (** A session keeps its credential, user, epoch and method; a revocation is
      never undone. *)
  ev_sessions : forall id s, session_table db !! id = Some s -> exists s', session_table db' !! id = Some s'
    /\ ss_token_hash s' = ss_token_hash s /\ ss_user_id s' = ss_user_id s
    /\ ss_auth_epoch s' = ss_auth_epoch s /\ ss_auth_method s' = ss_auth_method s
    /\ ss_expires_at s' = ss_expires_at s
    /\ (is_Some (ss_revoked_at s) -> is_Some (ss_revoked_at s'));
  (** The primary site and owner are fixed; the binding changes only with the
      epoch. *)
  ev_control : forall c, control_plane db = Some c -> exists c', control_plane db' = Some c'
    /\ ct_primary_site_id c' = ct_primary_site_id c /\ ct_owner_user_id c' = ct_owner_user_id c
    /\ (ct_auth_epoch c <= ct_auth_epoch c')%Z
    /\ (ct_auth_epoch c = ct_auth_epoch c' ->
        ct_auth_mode c' = ct_auth_mode c /\ ct_binding_fingerprint c' = ct_binding_fingerprint c)
    /\ (ct_setup_complete c = true -> ct_setup_complete c' = true);
}.

#[export] Instance account_evolves_refl : Reflexive account_evolves.
Proof. intros db. split; eauto 10 using Z.le_refl. Qed.

#[export] Instance account_evolves_trans : Transitive account_evolves.
Proof.
  intros a b c [Hu Ht Hs Ho Hn Hc] [Hu' Ht' Hs' Ho' Hn' Hc']. split.
  - by transitivity (user_table b).
  - by transitivity (theme_table b).
  - intros id s (s1 & H1 & E1)%Hs. destruct (Hs' _ _ H1) as (s2 & ? & ?). exists s2. split; [done|congruence].
  - auto.
  - intros id s (s1 & H1 & ? & ? & ? & ? & ? & R1)%Hn. destruct (Hn' _ _ H1) as (s2 & ? & ? & ? & ? & ? & ? & R2).
    exists s2. split_and!; try done; try congruence. auto.
  - intros x (x1 & H1 & ? & ? & Hle & Hsame & Hset)%Hc.
    destruct (Hc' _ H1) as (x2 & ? & ? & ? & Hle2 & Hsame2 & Hset2).
    exists x2. split_and!; try congruence; try lia; [|by auto].
    intros E. destruct Hsame; [lia|]. destruct Hsame2; [lia|]. split; congruence.
Qed.

Lemma revoke_where_evolves p now t id s : t !! id = Some s ->
  exists s', revoke_where p now t !! id = Some s'
    /\ ss_token_hash s' = ss_token_hash s /\ ss_user_id s' = ss_user_id s
    /\ ss_auth_epoch s' = ss_auth_epoch s /\ ss_auth_method s' = ss_auth_method s
    /\ ss_expires_at s' = ss_expires_at s /\ (is_Some (ss_revoked_at s) -> is_Some (ss_revoked_at s')).
Proof.
  intros Hs. exists (if p s then revoke_row now s else s).
  split; [apply revoke_where_lookup; eauto|]. destruct (p s); [|by split_and!].
  destruct (revoke_row_fields now s) as (? & ? & ? & ? & ? & ?). auto 10.
Qed.

Lemma account_step_evolves db db' : account_wf db -> account_step db db' -> account_evolves db db'.
Proof.
  intros Hwf Hs. assert (account_evolves db db) as Hrefl by reflexivity. destruct Hrefl.
  destruct Hs; split; cbn; try assumption; eauto using revoke_where_evolves.
  - by apply insert_subseteq.
  - intros k s Hs. exists s. rewrite lookup_insert_ne by congruence. auto 10.
  - apply insert_subseteq. destruct (theme_table db !! (id, 1%Z)) eqn:E; [|done].
    destruct (awf_theme_site _ Hwf id 1%Z) as [? ?]; [eauto|congruence].
  - intros k x Hx. exists x. rewrite lookup_insert_ne by congruence. auto.
  - intros site user Hown. rewrite add_site_owner by done. auto.
  - intros k x Hx. destruct (decide (k = id)) as [->|]; [|rewrite lookup_insert_ne by done; eauto].
    rewrite lookup_insert_eq. eexists. split; [done|]. cbn. congruence.
  - apply insert_subseteq. destruct (theme_table db !! (id, revision)) eqn:E; [|done].
    specialize (H1 revision ltac:(eauto)). lia.
  - intros k x Hx. destruct (decide (k = id)) as [->|]; [|rewrite lookup_insert_ne by done; eauto].
    rewrite lookup_insert_eq. eexists. split; [done|]. cbn. congruence.
  - intros s u. by apply insert_member_owner.
  - intros s u. by eapply delete_member_owner.
  - intros c0 Hc0. congruence.
  - intros c0 Hc0. rewrite H in Hc0. injection Hc0 as <-. eexists. split; [done|]. cbn.
    split_and!; try done; lia.
  - intros c0 Hc0. rewrite H in Hc0. injection Hc0 as <-. eexists. split; [done|]. cbn.
    split_and!; try done; lia.
Qed.

Lemma account_steps_evolve db db' : account_wf db -> rtc account_step db db' -> account_evolves db db'.
Proof.
  intros Hwf Hs. induction Hs as [|a b c Hab Hbc IH]; [reflexivity|].
  transitivity b; eauto using account_step_evolves, account_step_wf.
Qed.
