(* ===== verification/AccountsRefine.v ===== *)
(** * The account operations take abstract steps

    Every operation of [Accounts], whatever its arguments and its answer, leads
    from a well-formed state to a state reached by the steps of
    [AccountsSpec]. *)

From Stdlib Require Import Bool NArith ZArith Lia.
From S2P Require Import Prelude Text Extern Content Ai2Ai StoreBase StoreTaxonomy CustomCss Accounts AccountsSpec.

(** ** Running a body backwards *)

Lemma acc_bind_Ok {A B} (m : acc A) (k : A -> acc B) db b db' :
  (m ≫= k) db = Ok (b, db') <-> exists a d, m db = Ok (a, d) /\ k a d = Ok (b, db').
Proof. unfold mbind, acc_bind. destruct (m db) as [[a d]|]; naive_solver. Qed.
Lemma acc_ret_Ok {A} (a b : A) db db' : (mret a : acc A) db = Ok (b, db') <-> a = b /\ db = db'.
Proof. unfold mret, acc_ret. naive_solver. Qed.
Lemma fetch_Ok {A} (q : AccountDB -> result RepositoryError A) db a db' :
  fetch q db = Ok (a, db') <-> q db = Ok a /\ db' = db.
Proof. unfold fetch. destruct (q db); cbn; naive_solver. Qed.
Lemma guard_ok_Ok r db u db' : guard_ok r db = Ok (u, db') <-> r = Ok tt /\ db' = db.
Proof. unfold guard_ok. destruct u, r as [[]|]; cbn; naive_solver. Qed.
Lemma exec_Ok map f db u db' : exec map f db = Ok (u, db') <-> f db = Ok db'.
Proof. unfold exec. destruct u, (f db); naive_solver. Qed.
Lemma update_Ok f db u db' : update f db = Ok (u, db') <-> db' = f db.
Proof. unfold update. destruct u. naive_solver. Qed.
Lemma exec_one_Ok map f e db u db' : exec_one map f e db = Ok (u, db') <-> f db = Ok (1%N, db').
Proof.
  unfold exec_one. destruct u, (f db) as [[n d]|]; [|naive_solver].
  destruct (N.eqb_spec n 1) as [->|]; naive_solver.
Qed.

Ltac inv_acc :=
  repeat match goal with
  | H : (_ ≫= _) _ = Ok _ |- _ => apply acc_bind_Ok in H as (? & ? & ? & H)
  | H : fetch _ _ = Ok _ |- _ => apply fetch_Ok in H as [? ->]
  | H : guard_ok _ _ = Ok _ |- _ => apply guard_ok_Ok in H as [? ->]
  | H : exec _ _ _ = Ok _ |- _ => apply exec_Ok in H
  | H : exec_one _ _ _ _ = Ok _ |- _ => apply exec_one_Ok in H
  | H : update _ _ = Ok _ |- _ => apply update_Ok in H
  | H : mret _ _ = Ok _ |- _ => apply acc_ret_Ok in H as [? ?]
  end; subst; inv_ok.

(** [inv_sql]: the conditions under which a statement succeeds. *)
Ltac inv_sql :=
  unfold check, unique, references in *; inv_ok; bool_simpl;
  repeat match goal with
  | H : any_row _ _ = false |- _ => rewrite any_row_false in H
  end.

Lemma is_some_iff {A} (o : option A) : is_some o = true <-> is_Some o.
Proof. destruct o; cbn; [|split; [done|by intros []]]. split; eauto. Qed.
Lemma is_some_false {A} (o : option A) : is_some o = false <-> o = None.
Proof. by destruct o. Qed.
Lemma is_owner_true r : is_owner r = true <-> r = Owner.
Proof. by destruct r. Qed.

(** ** Statements *)

Lemma insert_user_Ok id r db db' : insert_user id r db = Ok db' -> account_step db db'.
Proof.
  unfold insert_user. intros H. inv_sql. constructor; [by apply is_some_false|].
  intros k u Hu. split; by eauto.
Qed.

Lemma insert_session_Ok id r db db' :
  insert_session_row id r db = Ok db' -> ss_revoked_at r = None -> issued_under db r -> account_step db db'.
Proof.
  unfold insert_session_row. intros H Hrev Hiss. inv_sql.
  constructor; try done; [by apply is_some_false| |by apply is_some_iff].
  intros k s Hs E. specialize (H1 k s Hs). cbn in H1. rewrite bool_decide_eq_false in H1. done.
Qed.

(** The three statements that create a site. *)
Lemma insert_site_rows_Ok id s owner m t db d1 d2 db' :
  st_current_theme_revision s = 1%Z -> ms_role m = Owner ->
  insert_site id s db = Ok d1 -> insert_membership id owner m d1 = Ok d2 ->
  insert_theme id 1 t d2 = Ok db' -> account_step db db'.
Proof.
  unfold insert_site, handle_checks, insert_membership, insert_theme. intros Hrev Hm H1 H2 H3. inv_sql.
  cbn in *. apply (step_site db id s owner m t); try done.
  - by apply is_some_false.
  - by apply is_some_iff.
  - intros k x Hx _. by eauto.
Qed.

Lemma update_metadata_Ok id handle title description now db db' : 
  update_site_metadata id handle title description now db = Ok db' -> rtc account_step db db'.
Proof.
  unfold update_site_metadata, handle_checks. destruct (site_table db !! id) as [s|] eqn:E.
  - intros H. inv_sql. apply rtc_once, (step_metadata db id s); [done|].
    intros k x Hx Hne. specialize (H0 k x Hx). cbn in H0. rewrite (proj2 (N.eqb_neq k id)) in H0 by congruence.
    done.
  - intros [= <-]. apply rtc_refl.
Qed.

Lemma next_theme_revision_Ok id db r : next_theme_revision id db = Ok r ->
  (forall q, is_Some (theme_table db !! (id, q)) -> (q < r)%Z).
Proof.
  unfold next_theme_revision. cbn zeta. intros H q [t Hq].
  match type of H with context [omap ?f ?l] => set (revs := omap f l) in H end.
  assert (q ∈ revs) as Hin.
  { apply list_elem_of_omap. exists ((id, q), t). split; [by apply elem_of_map_to_list|]. cbn.
    by rewrite N.eqb_refl. }
  clearbody revs. destruct (_ <=? _)%Z; [|done]. injection H as <-.
  destruct revs as [|r0 rest]; [by apply not_elem_of_nil in Hin|].
  enough (q <= foldr Z.max r0 rest)%Z by lia. apply elem_of_cons in Hin as [->|Hin].
  - clear. induction rest; cbn; lia.
  - induction rest as [|a rest IH]; [by apply not_elem_of_nil in Hin|]. cbn.
    apply elem_of_cons in Hin as [->|Hin]; [lia|]. specialize (IH Hin). lia.
Qed.

Lemma append_appearance_Ok owner site profile css now db u db' :
  append_site_appearance_revision owner site profile css now db = Ok (u, db') -> account_step db db'.
Proof.
  unfold append_site_appearance_revision. intros H. inv_acc.
  match goal with H : next_theme_revision _ _ = Ok _ |- _ =>
    pose proof (next_theme_revision_Ok _ _ _ H) as Hmax end.
  unfold insert_theme, update_site_theme in *. inv_sql. cbn in H.
  destruct (site_table db !! site) as [s|] eqn:Es; [|done].
  inv_sql. by apply (step_theme db site s).
Qed.

(** ** Loaded records *)

Definition control_record (c : ControlRow) : AdminControlPlaneRecord := {|
  cp_primary_site := ct_primary_site_id c; cp_owner_user := ct_owner_user_id c;
  cp_auth_mode := ct_auth_mode c; cp_auth_epoch := ct_auth_epoch c;
  cp_setup_complete := ct_setup_complete c; cp_binding_fingerprint := ct_binding_fingerprint c;
  cp_created_at := ct_created_at c; cp_updated_at := ct_updated_at c |}.

Lemma parse_control_Ok c r : parse_admin_control_plane_row c = Ok r -> r = control_record c.
Proof.
  unfold parse_admin_control_plane_row, u64_of_i64, fixed_hash. intros H. inv_ok.
  repeat case_match; by simplify_eq.
Qed.
Lemma load_control_optional_Ok db o : load_admin_control_plane_optional db = Ok o ->
  control_plane db = None /\ o = None \/ exists c, control_plane db = Some c /\ o = Some (control_record c).
Proof.
  unfold load_admin_control_plane_optional. rewrite transpose_map_Ok. destruct (control_plane db) as [c|]; [|auto].
  intros (r & Hr%parse_control_Ok & ->). subst r. eauto.
Qed.
Lemma load_control_Ok db r : load_admin_control_plane db = Ok r ->
  exists c, control_plane db = Some c /\ r = control_record c.
Proof.
  unfold load_admin_control_plane. intros H. inv_ok.
  apply load_control_optional_Ok in H as [[_ ?]|(c & Hc & E)]; [done|]. injection E as ->. eauto.
Qed.

Lemma ensure_owner_Ok user site db u : ensure_site_owner user site db = Ok u -> is_owner_of db site user.
Proof.
  unfold ensure_site_owner, owns_site_in_connection. cbn.
  destruct (membership_table db !! (site, user)) as [m|] eqn:E; [|done].
  destruct (is_owner (ms_role m)) eqn:Hr; [|done]. intros _. exists m. by rewrite <-is_owner_true.
Qed.

Lemma find_row_Some {K V} `{Countable K} (p : K -> V -> bool) (t : gmap K V) k v :
  find_row p t = Some (k, v) -> t !! k = Some v /\ p k v = true.
Proof.
  unfold find_row. intros [Hin Hp]%List.find_some. by apply list_elem_of_In, elem_of_map_to_list in Hin.
Qed.
Lemma find_row_None {K V} `{Countable K} (p : K -> V -> bool) (t : gmap K V) :
  find_row p t = None <-> forall k v, t !! k = Some v -> p k v = false.
Proof.
  unfold find_row. split.
  - intros Hn k v Hkv. apply (List.find_none _ _ Hn (k, v)).
    by apply list_elem_of_In, elem_of_map_to_list.
  - intros Hf. destruct (List.find _ _) as [[k v]|] eqn:E; [|done].
    apply List.find_some in E as [Hin Hp]. apply list_elem_of_In, elem_of_map_to_list in Hin.
    cbn in Hp. rewrite (Hf k v Hin) in Hp. done.
Qed.

Lemma load_site_Ok id owner db r : load_site_by_id id owner db = Ok r ->
  exists s t, site_table db !! id = Some s /\ is_owner_of db id (sit_owner_user_id r)
    /\ theme_table db !! (id, st_current_theme_revision s) = Some t
    /\ sit_id r = id /\ sit_handle r = st_handle s /\ sit_theme_revision r = st_current_theme_revision s
    /\ sit_theme_profile r = th_profile t /\ sit_custom_css r = th_custom_css t
    /\ (forall u, owner = Some u -> u = sit_owner_user_id r).
Proof.
  unfold load_site_by_id, site_join, parse_site_row, u64_of_i64. intros H. inv_ok.
  destruct x as [s [u t]]. inv_ok.
  match goal with H : (_ ≫= _) = Some _ |- _ => apply bind_Some in H as (s' & Hs & H);
    apply bind_Some in H as ([u' t'] & Hj & H); apply bind_Some in Hj as ([[k1 k2] m] & Hm & Hj);
    apply bind_Some in Hj as (t'' & Ht & Hj) end.
  simplify_eq. cbn in *. apply find_row_Some in Hm as [Hm Hp]. cbn in Hp. bool_simpl. subst k1.
  destruct (0 <=? st_current_theme_revision s)%Z; [|done]. simplify_eq.
  exists s, t. cbn. split_and!; try done.
  - exists m. by rewrite <-is_owner_true.
  - intros u' ->. cbn in *. by bool_simpl.
Qed.

(** ** Control-plane statements *)

Lemma insert_control_Ok primary owner mode fp setup now db r db' :
  insert_admin_control_plane primary owner mode fp setup now db = Ok (r, db') -> account_step db db'.
Proof.
  unfold insert_admin_control_plane. intros H. inv_acc. unfold insert_control_row in *. inv_sql.
  apply step_bind; cbn in *; try done; [by apply is_some_false|].
  by eapply ensure_owner_Ok.
Qed.

Lemma update_setup_Ok now db db' : update_setup now db = Ok (1%N, db') -> account_step db db'.
Proof.
  unfold update_setup. destruct (control_plane db) as [c|] eqn:E; [|done].
  destruct (ct_setup_complete c); [done|]. intros [= <-]. exact (step_setup db c now E).
Qed.

(** The three statements of a rotation. *)
Lemma rotation_Ok c mode fp now db d epoch :
  control_plane db = Some c -> next_auth_epoch (ct_auth_epoch c) = Ok epoch ->
  update_binding mode epoch fp now (ct_auth_epoch c) db = Ok (1%N, d) ->
  account_step db (set_identities (revoke_owner_sessions now d) ∅).
Proof.
  unfold next_auth_epoch, update_binding. intros Hc Hn. rewrite Hc, Z.eqb_refl. intros H. inv_sql.
  assert (forall t, revoke_where (fun s => negb (bool_decide (ss_auth_method s = Legacy))) now t =
    (fun s => if bool_decide (ss_auth_method s = Legacy) then s else revoke_row now s) <$> t) as E.
  { intros t. apply map_fmap_ext. intros k s _. by destruct (bool_decide _). }
  unfold revoke_owner_sessions. cbn. rewrite <-E. by apply (step_rotate db c).
Qed.

Lemma insert_identity_Ok adapter issuer subject r db db' :
  insert_identity adapter issuer subject r db = Ok db' -> account_step db db'.
Proof.
  unfold insert_identity. intros H. inv_sql. apply step_identity; [done|]. by apply is_some_iff.
Qed.

Lemma touch_identity_Ok key now db r : account_wf db -> identity_table db !! key = Some r ->
  account_step db (touch_identity key now db).
Proof.
  intros Hwf Hr. destruct (awf_identity _ Hwf _ _ Hr) as [Hs Hu].
  pose proof (step_identity db key {| ei_user_id := ei_user_id r; ei_created_at := ei_created_at r;
    ei_last_seen_at := now |} Hs Hu) as Hstep.
  unfold touch_identity. replace (alter _ key (identity_table db)) with
    (<[key := {| ei_user_id := ei_user_id r; ei_created_at := ei_created_at r; ei_last_seen_at := now |}]>
      (identity_table db)); [done|].
  apply map_eq. intros k. destruct (decide (k = key)) as [->|Hne].
  - by rewrite lookup_insert_eq, lookup_alter_eq, Hr.
  - by rewrite lookup_insert_ne, lookup_alter_ne by done.
Qed.

(** ** Operations *)

Lemma account_tx_Ok {A} (m : acc A) db a db' :
  transaction m db = (Ok a, db') <-> m db = Ok (a, db') /\ current_themes_exist db' = true.
Proof.
  unfold transaction. destruct (m db) as [[b d]|]; [destruct (current_themes_exist d) eqn:E|];
    (split; [intros H|intros [H ?]]); simplify_eq; done || congruence.
Qed.
Lemma account_tx_Err {A} (m : acc A) db e db' : transaction m db = (Err e, db') -> db' = db.
Proof. unfold transaction. destruct (m db) as [[b d]|]; [destruct (current_themes_exist d)|]; naive_solver. Qed.
Lemma account_tx_steps {A} (m : acc A) db :
  (forall a d, m db = Ok (a, d) -> rtc account_step db d) -> rtc account_step db (transaction m db).2.
Proof.
  unfold transaction. destruct (m db) as [[a d]|]; [|intros; apply rtc_refl].
  intros H. destruct (current_themes_exist d); [by eapply H|apply rtc_refl].
Qed.
Lemma autocommit_steps {A} (m : acc A) db :
  (forall a d, m db = Ok (a, d) -> rtc account_step db d) -> rtc account_step db (autocommit m db).2.
Proof. unfold autocommit. destruct (m db) as [[a d]|]; [|intros; apply rtc_refl]. intros H. by eapply H. Qed.
Lemma then_load_state {A B} (p : result RepositoryError A * AccountDB)
    (q : A -> AccountDB -> result RepositoryError B) : (then_load p q).2 = p.2.
Proof. by destruct p as [[a|e] db]. Qed.
Lemma validated_steps {A B} (v : result RepositoryError A) (k : A -> result RepositoryError B * AccountDB) db :
  (forall a, v = Ok a -> rtc account_step db (k a).2) ->
  rtc account_step db (match v with Err e => (Err e, db) | Ok a => k a end).2.
Proof. destruct v; intros H; [by apply H|apply rtc_refl]. Qed.
#[local] Hint Resolve rtc_once rtc_refl : osb.

(** [body]: reduce an operation to the successful run of its body. *)
Ltac body :=
  repeat match goal with
  | |- rtc _ _ (then_load _ _).2 => rewrite then_load_state
  | |- rtc _ _ (transaction _ _).2 => apply account_tx_steps; intros ? ? ?
  | |- rtc _ _ (autocommit _ _).2 => apply autocommit_steps; intros ? ? ?
  | |- rtc _ _ (match _ with Ok _ => _ | Err _ => _ end).2 => apply validated_steps; intros ? ?
  | |- context [match ?x with pair _ _ => _ end] => destruct x
  end; inv_acc.

Lemma create_user_steps e h d p id now db : rtc account_step db (create_user e h d p id now db).2.
Proof. unfold create_user. body. eauto using insert_user_Ok with osb. Qed.

Lemma confirm_binding_state r site mode fp db a d :
  confirm_binding r site mode fp db = Ok (a, d) -> d = db.
Proof. unfold confirm_binding. intros H. by inv_acc. Qed.

Lemma insert_primary_site_steps b h t desc name now db r d :
  insert_primary_site b h t desc name now db = Ok (r, d) -> rtc account_step db d.
Proof.
  unfold insert_primary_site. intros H. inv_acc.
  eapply rtc_l; [by eapply insert_user_Ok|]. apply rtc_once.
  eapply insert_site_rows_Ok; [| |eassumption..]; done.
Qed.

Lemma select_primary_site_steps b h t desc name now db r d :
  select_primary_site b h t desc name now db = Ok (r, d) -> rtc account_step db d.
Proof.
  unfold select_primary_site. destruct (load_site_by_id _ _ _) as [site|[]] eqn:E; try done.
  - intros [= _ <-]. apply rtc_refl.
  - destruct (bool_decide _); [|done]. apply insert_primary_site_steps.
Qed.

Lemma provision_steps b mode fp n1 n2 db :
  rtc account_step db (provision_primary_owner_site b mode fp n1 n2 db).2.
Proof.
  unfold provision_primary_owner_site. body. destruct x as [r|].
  - apply confirm_binding_state in H0 as ->. apply rtc_refl.
  - apply acc_bind_Ok in H0 as ([site setup] & d' & Hs & Hc).
    eapply rtc_r; [by eapply select_primary_site_steps|by eapply insert_control_Ok].
Qed.

Lemma reconcile_steps site mode fp now db :
  rtc account_step db (reconcile_admin_control_plane site mode fp now db).2.
Proof.
  unfold reconcile_admin_control_plane. body. destruct x as [r|].
  - apply confirm_binding_state in H0 as ->. apply rtc_refl.
  - inv_acc. eapply rtc_once, insert_control_Ok. eassumption.
Qed.

Lemma rotate_steps site mode fp now db :
  rtc account_step db (rotate_admin_control_plane site mode fp now db).2.
Proof.
  unfold rotate_admin_control_plane. body.
  match goal with H : load_admin_control_plane _ = Ok _ |- _ => apply load_control_Ok in H as (c & Hc & ->) end.
  destruct (same_binding _ _ _); inv_acc; [apply rtc_refl|].
  eapply rtc_once, rotation_Ok; eassumption.
Qed.

Lemma setup_steps owner h t desc profile n1 n2 n3 db :
  rtc account_step db (complete_primary_owner_setup owner h t desc profile n1 n2 n3 db).2.
Proof.
  unfold complete_primary_owner_setup. body.
  etransitivity; [by eapply update_metadata_Ok|].
  eapply rtc_l; [by eapply append_appearance_Ok|]. by eapply rtc_once, update_setup_Ok.
Qed.

Lemma bind_identity_steps adapter issuer subject fp now db : account_wf db ->
  rtc account_step db (bind_external_identity adapter issuer subject fp now db).2.
Proof.
  intros Hwf. unfold bind_external_identity. body.
  match goal with H : load_external_identity_optional _ _ _ _ = Ok ?o |- _ =>
    unfold load_external_identity_optional in H; rewrite transpose_map_Ok in H; destruct o as [r|] end;
    inv_acc; [|by eapply rtc_once, insert_identity_Ok].
  destruct (identity_table db !! _) as [row|] eqn:E; [|done].
  by eapply rtc_once, touch_identity_Ok.
Qed.

Lemma owner_session_steps token expires method fp id n0 n1 n2 db :
  rtc account_step db (create_primary_owner_session token expires method fp id n0 n1 n2 db).2.
Proof.
  unfold create_primary_owner_session, insert_session, insert_session_statement. body.
  match goal with H : load_admin_control_plane _ = Ok _ |- _ => apply load_control_Ok in H as (c & Hc & ->) end.
  bool_simpl. eapply rtc_once, insert_session_Ok; [eassumption|done|]. right. by exists c.
Qed.

Lemma create_session_steps user token expires id n0 n1 n2 db :
  rtc account_step db (create_session user token expires id n0 n1 n2 db).2.
Proof.
  unfold create_session, insert_session_statement. body.
  eapply rtc_once, insert_session_Ok; [eassumption|done|]. by left.
Qed.

Lemma revoke_session_steps token now db : rtc account_step db (revoke_session token now db).2.
Proof.
  unfold revoke_session, revoke_token. destruct (validate_token_hash token); [apply rtc_once, step_revoke|apply rtc_refl].
Qed.

Lemma create_site_steps owner h t desc profile id now db :
  rtc account_step db (create_site owner h t desc profile id now db).2.
Proof.
  unfold create_site. body. eapply rtc_once, insert_site_rows_Ok; [| |eassumption..]; done.
Qed.

Lemma add_collaborator_steps owner site email role now db :
  rtc account_step db (add_site_collaborator owner site email role now db).2.
Proof.
  unfold add_site_collaborator. body. unfold insert_membership in *. inv_sql. cbn in *.
  apply rtc_once, step_member; [by apply is_some_iff..|by apply is_some_false|].
  cbn. intros ->. done.
Qed.

Lemma remove_collaborator_steps owner site user db :
  rtc account_step db (remove_site_collaborator owner site user db).2.
Proof.
  unfold remove_site_collaborator. body. unfold delete_membership, load_site_membership in *. inv_ok. cbn in *.
  eapply rtc_once, step_unmember; [eassumption|]. intros E. by rewrite E in *.
Qed.

Lemma change_theme_steps owner site profile now db :
  rtc account_step db (change_site_theme owner site profile now db).2.
Proof. unfold change_site_theme. body. by eapply rtc_once, append_appearance_Ok. Qed.

Lemma change_appearance_steps owner site profile css now db :
  rtc account_step db (change_site_appearance owner site profile css now db).2.
Proof. unfold change_site_appearance. body. by eapply rtc_once, append_appearance_Ok. Qed.

(** ** The legacy site *)

Lemma or_ignore_Ok f db d : or_ignore f db = Ok d ->
  f db = Ok d \/ (d = db /\ exists e, f db = Err e /\ e <> ForeignKeyFailed).
Proof. unfold or_ignore. destruct (f db) as [x|[]]; naive_solver. Qed.

(** A membership or theme of a site without rows is never skipped. *)
Lemma membership_not_ignored id user m db d :
  (forall u x, membership_table db !! (id, u) <> Some x) ->
  or_ignore (insert_membership id user m) db = Ok d -> insert_membership id user m db = Ok d.
Proof.
  intros Hnone [H|(_ & e & He & Hfk)]%or_ignore_Ok; [done|exfalso].
  unfold insert_membership in He.
  assert (any_row (fun k x => (k.1 =? id)%N && is_owner (ms_role x)) (membership_table db) = false) as E.
  { apply any_row_false. intros [k1 k2] x Hx. cbn. destruct (N.eqb_spec k1 id) as [->|]; [|done].
    by destruct (Hnone _ _ Hx). }
  rewrite E, andb_false_r in He. cbn in He.
  destruct (membership_table db !! (id, user)) as [x|] eqn:Ex; [by destruct (Hnone _ _ Ex)|]. cbn in He.
  unfold references, ensure in He. destruct (_ && _) in He; cbn in He; congruence.
Qed.
Lemma theme_not_ignored id user profile now db d :
  theme_table db !! (id, 1%Z) = None ->
  let row := {| th_profile := profile; th_custom_css := None; th_created_by_user_id := user;
                th_created_at := now |} in
  or_ignore (insert_theme id 1 row) db = Ok d -> insert_theme id 1 row db = Ok d.
Proof.
  intros Hnone row [H|(_ & e & He & Hfk)]%or_ignore_Ok; [done|exfalso].
  unfold insert_theme in He. rewrite Hnone in He. cbn in He.
  unfold references, ensure in He. destruct (_ && _) in He; cbn in He; congruence.
Qed.

(** In a well-formed state every stored site loads. *)
Lemma owner_row_found db id u : account_wf db -> is_owner_of db id u ->
  exists m, find_row (fun k m => (k.1 =? id)%N && is_owner (ms_role m) && is_none_or (N.eqb k.2) None)
    (membership_table db) = Some ((id, u), m).
Proof.
  intros Hwf (m & Hm & Hr). destruct (find_row _ _) as [[[k1 k2] m']|] eqn:E.
  - apply find_row_Some in E as [Hm' Hp]. cbn in Hp. bool_simpl. subst k1.
    assert (is_owner_of db id k2) as Ho by (exists m'; by rewrite <-is_owner_true).
    rewrite (awf_one_owner _ Hwf id u k2); [eauto|by exists m|done].
  - rewrite find_row_None in E. specialize (E _ _ Hm). cbn in E.
    rewrite N.eqb_refl, (proj2 (is_owner_true _) Hr) in E. done.
Qed.

Lemma stored_site_loads db id : account_wf db -> is_Some (site_table db !! id) ->
  exists r, load_site_by_id id None db = Ok r.
Proof.
  intros Hwf [s Hs]. destruct (awf_owner _ Hwf id) as [u Hu]; [eauto|].
  destruct (owner_row_found db id u Hwf Hu) as [m Hm].
  destruct (awf_theme _ Hwf _ _ Hs) as [[t Ht] Hpos].
  unfold load_site_by_id, site_join, parse_site_row, u64_of_i64. rewrite Hs. cbn [mbind option_bind]. rewrite Hm. cbn. rewrite Ht. cbn.
  destruct (Z.leb_spec 0 (st_current_theme_revision s)); [eauto|lia].
Qed.

Lemma legacy_rows_steps id r s m profile now db d1 d2 d3 d4 : account_wf db -> site_table db !! id = None ->
  st_current_theme_revision s = 1%Z -> ms_role m = Owner ->
  or_ignore (insert_user id r) db = Ok d1 -> or_ignore (insert_site id s) d1 = Ok d2 ->
  or_ignore (insert_membership id id m) d2 = Ok d3 ->
  or_ignore (insert_theme id 1 {| th_profile := profile; th_custom_css := None;
     th_created_by_user_id := id; th_created_at := now |}) d3 = Ok d4 -> rtc account_step db d4.
Proof.
  intros Hwf Hid Hrev Hm H1 H2 H3 H4.
  assert (rtc account_step db d1 /\ account_wf d1 /\ site_table d1 !! id = None) as (Hsteps & Hwf1 & Hid1).
  { apply or_ignore_Ok in H1 as [H1|[-> _]]; [|by split; [apply rtc_refl|]].
    split; [by eapply rtc_once, insert_user_Ok|]. split; [by eapply account_step_wf, insert_user_Ok|].
    unfold insert_user, handle_checks in H1. by inv_sql. }
  etransitivity; [exact Hsteps|]. clear Hsteps H1 Hwf Hid db.
  assert (forall u x, membership_table d1 !! (id, u) <> Some x) as Hnomember.
  { intros u x Hx. destruct (awf_member _ Hwf1 _ _ _ Hx) as [[? ?] _]. congruence. }
  assert (theme_table d1 !! (id, 1%Z) = None) as Hnotheme.
  { destruct (theme_table d1 !! (id, 1%Z)) eqn:E; [|done].
    destruct (awf_theme_site _ Hwf1 id 1%Z) as [? ?]; [eauto|congruence]. }
  assert (membership_table d2 = membership_table d1 /\ theme_table d2 = theme_table d1) as [Em Et].
  { apply or_ignore_Ok in H2 as [H2|[-> _]]; [|done]. unfold insert_site, handle_checks in H2. by inv_sql. }
  apply membership_not_ignored in H3; [|by rewrite Em].
  apply theme_not_ignored in H4; [|unfold insert_membership in H3; inv_sql; cbn; congruence].
  apply or_ignore_Ok in H2 as [H2|[-> _]].
  - by eapply rtc_once, insert_site_rows_Ok.
  - unfold insert_membership in H3. inv_sql. rewrite Hid1 in *. done.
Qed.

Lemma legacy_site_steps id now db : account_wf db -> rtc account_step db (ensure_legacy_site id now db).2.
Proof.
  intros Hwf. unfold ensure_legacy_site.
  destruct (load_site_by_id id None db) as [site|e] eqn:E; [apply rtc_refl|].
  assert (site_table db !! id = None) as Hid.
  { destruct (site_table db !! id) eqn:Es; [|done]. destruct (stored_site_loads db id Hwf); [eauto|congruence]. }
  destruct e; try apply rtc_refl. body. eapply legacy_rows_steps; [done|done| | |eassumption..]; done.
Qed.

(** Every operation is a sequence of steps. *)
Lemma account_run_steps o db : account_wf db -> rtc account_step db (account_run o db).2.
Proof.
  intros Hwf. destruct o; cbn [account_run outcome snd].
  - apply create_user_steps.
  - apply provision_steps.
  - apply reconcile_steps.
  - apply rotate_steps.
  - apply setup_steps.
  - by apply bind_identity_steps.
  - apply owner_session_steps.
  - apply create_session_steps.
  - apply revoke_session_steps.
  - apply create_site_steps.
  - by apply legacy_site_steps.
  - apply add_collaborator_steps.
  - apply remove_collaborator_steps.
  - apply change_theme_steps.
  - apply change_appearance_steps.
Qed.

Lemma account_run_wf o db : account_wf db -> account_wf (account_run o db).2.
Proof. intros Hwf. eauto using account_steps_wf, account_run_steps. Qed.
Lemma account_runs_wf ops db : account_wf db -> account_wf (account_runs ops db).
Proof.
  revert db. induction ops as [|o ops IH]; intros db Hwf; [done|]. apply IH. by apply account_run_wf.
Qed.
Lemma account_runs_steps ops db : account_wf db -> rtc account_step db (account_runs ops db).
Proof.
  revert db. induction ops as [|o ops IH]; intros db Hwf; [apply rtc_refl|].
  etransitivity; [by apply account_run_steps|]. by apply IH, account_run_wf.
Qed.
Lemma account_runs_evolve ops db : account_wf db -> account_evolves db (account_runs ops db).
Proof. intros Hwf. apply account_steps_evolve; [done|]. by apply account_runs_steps. Qed.
Lemma account_runs_app a b db : account_runs (a ++ b) db = account_runs b (account_runs a db).
Proof. apply fold_left_app. Qed.
