(* ===== verification/AccountsTheorems.v ===== *)
(** * Ownership and sessions

    What the account tables guarantee over every history of operations: each
    site loads with one owner that never changes, an accepted owner session was
    issued under the stored binding and has not been revoked since, and a
    revoked or rotated credential is refused for ever. *)

From Stdlib Require Import Bool NArith ZArith Lia.
From S2P Require Import Prelude Text Extern Content Ai2Ai StoreBase StoreTaxonomy CustomCss Accounts AccountsSpec AccountsRefine.

(** ** Ownership *)

Lemma owns_site_iff db site user : owns_site user site db = Ok true <-> is_owner_of db site user.
Proof.
  unfold owns_site, owns_site_in_connection, is_owner_of.
  destruct (membership_table db !! (site, user)) as [m|] eqn:E; [|naive_solver].
  split; [intros [= Hm]; exists m; by rewrite <-is_owner_true|].
  intros (x & [= <-] & Hx). by rewrite (proj2 (is_owner_true _) Hx).
Qed.

Lemma loaded_owner_owns db site r : load_site_by_id site None db = Ok r -> is_owner_of db site (sit_owner_user_id r).
Proof. intros H. by destruct (load_site_Ok _ _ _ _ H) as (s & t & _ & ? & _). Qed.

(** C35. After any history every stored site loads, its record names the one
    account that owns it, and in every continuation of the history the same
    site loads with the same owner. *)
Theorem every_site_keeps_its_owner ops later site :
  let db := account_runs ops no_accounts in
  is_Some (site_table db !! site) ->
  exists r r', load_site_by_id site None db = Ok r
    /\ load_site_by_id site None (account_runs later db) = Ok r'
    /\ sit_owner_user_id r' = sit_owner_user_id r
    /\ forall user, owns_site user site db = Ok true <-> user = sit_owner_user_id r.
Proof.
  intros db Hs. assert (account_wf db) as Hwf by (apply account_runs_wf, no_accounts_wf).
  pose proof (account_runs_wf later db Hwf) as Hwf'.
  pose proof (account_runs_evolve later db Hwf) as Hev.
  destruct (stored_site_loads db site Hwf Hs) as [r Hr]. destruct Hs as [s Hs].
  destruct (ev_sites _ _ Hev _ _ Hs) as (s' & Hs' & _).
  destruct (stored_site_loads (account_runs later db) site Hwf') as [r' Hr']; [eauto|].
  exists r, r'. pose proof (loaded_owner_owns _ _ _ Hr) as Ho. split_and!; try done.
  - eapply (awf_one_owner _ Hwf'); [by apply loaded_owner_owns|]. by apply (ev_owner _ _ Hev).
  - intros user. rewrite owns_site_iff. split; [|by intros ->]. intros Hu. by apply (awf_one_owner _ Hwf site).
Qed.

(** ** Operations that issue no session *)

Definition no_new_sessions (db db' : AccountDB) : Prop :=
  forall id s, session_table db' !! id = Some s -> ss_revoked_at s = None -> session_table db !! id = Some s.

#[export] Instance no_new_sessions_refl : Reflexive no_new_sessions.
Proof. intros db id s Hs _. exact Hs. Qed.
#[export] Instance no_new_sessions_trans : Transitive no_new_sessions.
Proof. intros a b c Hab Hbc id s Hs Hl. by apply Hab; [apply Hbc|]. Qed.

Definition quiet {A} (m : acc A) : Prop := forall db a d, m db = Ok (a, d) -> no_new_sessions db d.
Definition quiet_sql (f : AccountDB -> result SqlError AccountDB) : Prop :=
  forall db d, f db = Ok d -> session_table d = session_table db.

Lemma same_sessions_quiet db d : session_table d = session_table db -> no_new_sessions db d.
Proof. intros E id s. by rewrite E. Qed.

Lemma quiet_bind {A B} (m : acc A) (k : A -> acc B) : quiet m -> (forall a, quiet (k a)) -> quiet (m ≫= k).
Proof. intros Hm Hk db b d H. inv_acc. etransitivity; [by eapply Hm|by eapply Hk]. Qed.
Lemma quiet_ret {A} (a : A) : quiet (mret a).
Proof. intros db b d H. inv_acc. reflexivity. Qed.
Lemma quiet_fetch {A} (q : AccountDB -> result RepositoryError A) : quiet (fetch q).
Proof. intros db b d H. inv_acc. reflexivity. Qed.
Lemma quiet_guard r : quiet (guard_ok r).
Proof. intros db b d H. inv_acc. reflexivity. Qed.
Lemma quiet_exec map f : quiet_sql f -> quiet (exec map f).
Proof. intros Hf db b d H. inv_acc. by apply same_sessions_quiet, Hf. Qed.
Lemma quiet_exec_one map f e : (forall db n d, f db = Ok (n, d) -> session_table d = session_table db) ->
  quiet (exec_one map f e).
Proof. intros Hf db b d H. inv_acc. by eapply same_sessions_quiet, Hf. Qed.
Lemma quiet_update f : (forall db, no_new_sessions db (f db)) -> quiet (update f).
Proof. intros Hf db b d H. inv_acc. apply Hf. Qed.

Create HintDb quiet.
#[export] Hint Resolve quiet_ret quiet_fetch quiet_guard quiet_exec : quiet.

Lemma quiet_insert_user id r : quiet_sql (insert_user id r).
Proof. unfold insert_user, handle_checks. intros db d H. by inv_sql. Qed.
Lemma quiet_insert_site id r : quiet_sql (insert_site id r).
Proof. unfold insert_site, handle_checks. intros db d H. by inv_sql. Qed.
Lemma quiet_insert_membership s u r : quiet_sql (insert_membership s u r).
Proof. unfold insert_membership. intros db d H. by inv_sql. Qed.
Lemma quiet_insert_theme s n r : quiet_sql (insert_theme s n r).
Proof. unfold insert_theme. intros db d H. by inv_sql. Qed.
Lemma quiet_insert_control r : quiet_sql (insert_control_row r).
Proof. unfold insert_control_row. intros db d H. by inv_sql. Qed.
Lemma quiet_insert_identity a i s r : quiet_sql (insert_identity a i s r).
Proof. unfold insert_identity. intros db d H. by inv_sql. Qed.
Lemma quiet_or_ignore f : quiet_sql f -> quiet_sql (or_ignore f).
Proof. intros Hf db d [H|[-> _]]%or_ignore_Ok; [by apply Hf|done]. Qed.
Lemma quiet_update_metadata id h t desc now : quiet_sql (update_site_metadata id h t desc now).
Proof.
  unfold update_site_metadata, handle_checks. intros db d H.
  destruct (site_table db !! id); by inv_sql.
Qed.
Lemma quiet_update_theme id n now : quiet_sql (update_site_theme id n now).
Proof. unfold update_site_theme. intros db d H. destruct (site_table db !! id); by inv_sql. Qed.
Lemma quiet_update_setup now db n d : update_setup now db = Ok (n, d) -> session_table d = session_table db.
Proof. unfold update_setup. destruct (control_plane db) as [c|]; [destruct (ct_setup_complete c)|]; naive_solver. Qed.
Lemma quiet_update_binding mode e fp now epoch db n d :
  update_binding mode e fp now epoch db = Ok (n, d) -> session_table d = session_table db.
Proof.
  unfold update_binding. intros H. destruct (control_plane db) as [c|]; [|naive_solver].
  destruct (_ =? _)%Z; [|naive_solver]. by inv_sql.
Qed.
Lemma quiet_delete_membership s u db n d :
  delete_membership s u db = Ok (n, d) -> session_table d = session_table db.
Proof. unfold delete_membership. naive_solver. Qed.
Lemma quiet_revoke p now db : no_new_sessions db (set_sessions db (revoke_where p now (session_table db))).
Proof. intros id s Hs Hl. apply revoke_where_same in Hs as (s0 & ? & _ & _ & _ & Hs). by destruct (Hs Hl) as [-> _]. Qed.
Lemma quiet_revoke_owner now db : no_new_sessions db (revoke_owner_sessions now db).
Proof.
  intros id s Hs Hl. unfold revoke_owner_sessions in Hs. cbn in Hs.
  apply lookup_fmap_Some in Hs as (s0 & <- & Hs0). destruct (bool_decide _); [done|].
  destruct (revoke_row_fields now s0) as (_ & _ & _ & _ & _ & []). congruence.
Qed.
Lemma quiet_append owner site profile css now : quiet (append_site_appearance_revision owner site profile css now).
Proof.
  unfold append_site_appearance_revision. repeat (apply quiet_bind; [|intros ?]);
    auto using quiet_insert_theme, quiet_update_theme with quiet.
Qed.
#[export] Hint Resolve quiet_insert_user quiet_insert_site quiet_insert_membership quiet_insert_theme
  quiet_insert_control quiet_insert_identity quiet_or_ignore quiet_update_metadata quiet_update_theme
  quiet_append : quiet.

Lemma quiet_transaction {A} (m : acc A) db : quiet m -> no_new_sessions db (transaction m db).2.
Proof.
  intros Hm. unfold transaction. destruct (m db) as [[a d]|] eqn:E; [|reflexivity].
  destruct (current_themes_exist d); [by eapply Hm|reflexivity].
Qed.
Lemma quiet_autocommit {A} (m : acc A) db : quiet m -> no_new_sessions db (autocommit m db).2.
Proof. intros Hm. unfold autocommit. destruct (m db) as [[a d]|] eqn:E; [by eapply Hm|reflexivity]. Qed.
Lemma quiet_validated {A B} (v : result RepositoryError A) (k : A -> result RepositoryError B * AccountDB) db :
  (forall a, no_new_sessions db (k a).2) ->
  no_new_sessions db (match v with Err e => (Err e, db) | Ok a => k a end).2.
Proof. destruct v; intros H; [apply H|reflexivity]. Qed.

(** [quiet_op]: an operation whose statements are quiet is quiet. *)
Ltac quiet_op :=
  repeat match goal with
  | |- no_new_sessions _ (then_load _ _).2 => rewrite then_load_state
  | |- no_new_sessions _ (transaction _ _).2 => apply quiet_transaction
  | |- no_new_sessions _ (autocommit _ _).2 => apply quiet_autocommit
  | |- no_new_sessions _ (match _ with Ok _ => _ | Err _ => _ end).2 => apply quiet_validated; intros ?
  | |- quiet (_ ≫= _) => apply quiet_bind; [|intros ?]
  | |- quiet (if ?b then _ else _) => destruct b
  | |- quiet (match ?x with Some _ => _ | None => _ end) => destruct x
  | |- context [match ?x with pair _ _ => _ end] => destruct x
  end; auto with quiet.

Lemma quiet_confirm r site mode fp : quiet (confirm_binding r site mode fp).
Proof. unfold confirm_binding. quiet_op. Qed.
Lemma quiet_insert_control_plane p o m fp b now : quiet (insert_admin_control_plane p o m fp b now).
Proof. unfold insert_admin_control_plane. quiet_op. Qed.
Lemma quiet_select_primary b h t desc name now : quiet (select_primary_site b h t desc name now).
Proof.
  intros db a d. unfold select_primary_site. destruct (load_site_by_id _ _ _) as [site|[]]; try done.
  - intros [= _ <-]. reflexivity.
  - destruct (bool_decide _); [|done]. revert db a d. change (quiet (insert_primary_site b h t desc name now)).
    unfold insert_primary_site. quiet_op.
Qed.
#[export] Hint Resolve quiet_confirm quiet_insert_control_plane quiet_select_primary : quiet.

(** The two operations that issue a session. *)
Definition issues (o : account_op) : bool :=
  match o with CreatePrimaryOwnerSession _ _ _ _ _ _ _ _ | CreateSession _ _ _ _ _ _ _ => true | _ => false end.

Lemma quiet_operation o db : issues o = false -> no_new_sessions db (account_run o db).2.
Proof.
  intros Ho. destruct o; try discriminate Ho; cbn [account_run outcome snd].
  - unfold create_user. quiet_op.
  - unfold provision_primary_owner_site. quiet_op.
  - unfold reconcile_admin_control_plane. quiet_op.
  - unfold rotate_admin_control_plane. quiet_op.
    + apply quiet_exec_one. intros. by eapply quiet_update_binding.
    + apply quiet_update, quiet_revoke_owner.
    + apply quiet_update. intros d. by apply same_sessions_quiet.
  - unfold complete_primary_owner_setup. quiet_op. apply quiet_exec_one. intros. by eapply quiet_update_setup.
  - unfold bind_external_identity. quiet_op. apply quiet_update. intros d. by apply same_sessions_quiet.
  - unfold revoke_session, revoke_token. destruct (validate_token_hash token); [apply quiet_revoke|reflexivity].
  - unfold create_site. quiet_op.
  - unfold ensure_legacy_site. destruct (load_site_by_id site None db) as [|[]]; try reflexivity. quiet_op.
  - unfold add_site_collaborator. quiet_op.
  - unfold remove_site_collaborator. quiet_op. apply quiet_exec_one. intros. by eapply quiet_delete_membership.
  - unfold change_site_theme. quiet_op.
  - unfold change_site_appearance. quiet_op.
Qed.

Lemma insert_session_statement_Ok id user token expires epoch method n1 n2 db u d :
  insert_session_statement id user token expires epoch method n1 n2 db = Ok (u, d) ->
  d = set_sessions db (<[id := {| ss_token_hash := token; ss_user_id := user; ss_auth_epoch := epoch;
       ss_auth_method := method; ss_expires_at := expires; ss_created_at := n2; ss_revoked_at := None |}]>
       (session_table db)).
Proof.
  unfold insert_session_statement. intros H. inv_acc. unfold insert_session_row in *. by inv_sql.
Qed.

(** The operation that issued a live owner session, and the binding it named. *)
Definition issuing (o : account_op) (s : SessionRow) (fingerprint : list N) : Prop :=
  exists id n0 n1 n2, o = CreatePrimaryOwnerSession (ss_token_hash s) (ss_expires_at s)
    (ss_auth_method s) fingerprint id n0 n1 n2.

Lemma live_owner_session_new o db id s c :
  session_table (account_run o db).2 !! id = Some s -> ss_revoked_at s = None -> ss_auth_method s <> Legacy ->
  control_plane (account_run o db).2 = Some c ->
  session_table db !! id = Some s \/ issuing o s (ct_binding_fingerprint c).
Proof.
  intros Hs Hl Hm Hc. destruct (issues o) eqn:Ho; [|left; by apply (quiet_operation o db Ho)].
  destruct o; try discriminate Ho; cbn [account_run outcome snd] in *.
  - unfold create_primary_owner_session in *.
    destruct (validate_token_hash token ≫= _) eqn:Ev; [|auto]. cbn [snd] in *.
    destruct (transaction _ db) as [[r|e] d] eqn:E; [|apply account_tx_Err in E as ->; auto].
    cbn [snd] in *. apply account_tx_Ok in E as [E _]. inv_acc.
    match goal with H : load_admin_control_plane _ = Ok _ |- _ =>
      apply load_control_Ok in H as (c0 & Hc0 & ->) end.
    unfold insert_session in E. inv_acc.
    match goal with H : insert_session_statement _ _ _ _ _ _ _ _ _ = _ |- _ =>
      apply insert_session_statement_Ok in H as -> end.
    bool_simpl. cbn in Hs, Hc. rewrite Hc0 in Hc. injection Hc as ->.
    apply lookup_insert_Some in Hs as [[-> <-]|[_ Hs]]; [|auto]. right. cbn. unfold issuing. cbn.
    exists id, n0, n1, n2. cbn in *. by subst fp.
  - unfold create_session in *.
    destruct (validate_token_hash token ≫= _) eqn:Ev; [|auto].
    rewrite then_load_state in *. unfold autocommit in *.
    destruct (insert_session_statement _ _ _ _ _ _ _ _ db) as [[r d]|] eqn:E; [|auto]. cbn [snd] in *.
    apply insert_session_statement_Ok in E as ->. cbn in Hs.
    apply lookup_insert_Some in Hs as [[-> <-]|[_ Hs]]; [done|auto].
Qed.

(** ** Accepted sessions *)

Definition live_session (db : AccountDB) (id : Uuid) (s : SessionRow) (now : DateTime) : Prop :=
  session_table db !! id = Some s /\ ss_revoked_at s = None /\ (now < ss_expires_at s)%Z.

Lemma is_live_token_true token s :
  is_live_token token s = true <-> ss_token_hash s = token /\ ss_revoked_at s = None.
Proof.
  unfold is_live_token, is_none. rewrite andb_true_iff, bool_decide_eq_true, negb_true_iff, is_some_false. done.
Qed.

Lemma load_active_Ok token now db r : load_active_session_by_hash token now db = Ok r ->
  exists s, live_session db (sn_id r) s now /\ ss_token_hash s = token /\ sn_user_id r = ss_user_id s
    /\ sn_auth_epoch r = ss_auth_epoch s /\ sn_auth_method r = ss_auth_method s
    /\ sn_expires_at r = ss_expires_at s.
Proof.
  unfold load_active_session_by_hash, parse_session_row, u64_of_i64. intros H. inv_ok.
  destruct x as [id s]. inv_ok.
  match goal with H : find_row _ _ = Some _ |- _ => apply find_row_Some in H as [Hs [Ht Hl]%is_live_token_true] end.
  destruct (0 <=? ss_auth_epoch s)%Z; [|done]. simplify_eq. cbn in *.
  destruct (ss_expires_at s <=? now)%Z eqn:E; [done|]. simplify_eq. bool_simpl. cbn.
  exists s. by split_and!.
Qed.

Lemma get_primary_owner_session_Ok token now db r : get_primary_owner_session token now db = Ok r ->
  exists s c, live_session db (sn_id (pos_session r)) s now /\ control_plane db = Some c
    /\ ss_token_hash s = token /\ sn_user_id (pos_session r) = ct_owner_user_id c
    /\ session_method (ct_auth_mode c) = Some (ss_auth_method s)
    /\ load_site_by_id (ct_primary_site_id c) None db = Ok (pos_site r)
    /\ load_user_by_id (ct_owner_user_id c) db = Ok (pos_user r).
Proof.
  unfold get_primary_owner_session, session_matches. intros H. inv_ok. bool_simpl.
  match goal with H : load_active_session_by_hash _ _ _ = Ok _ |- _ =>
    apply load_active_Ok in H as (s & Hs & Ht & Hu & _ & Hm & _) end.
  match goal with H : load_admin_control_plane _ = Ok _ |- _ => apply load_control_Ok in H as (c & Hc & ->) end.
  cbn in *. exists s, c. split_and!; try done; congruence.
Qed.

(** ** Where an accepted owner session comes from *)

Lemma revoked_by_operation token now db id s :
  size_of token = 32%N -> session_table (account_run (RevokeSession token now) db).2 !! id = Some s ->
  ss_token_hash s = token -> is_Some (ss_revoked_at s).
Proof.
  intros Hsize. cbn [account_run outcome snd]. unfold revoke_session, validate_token_hash, revoke_token.
  rewrite Hsize. cbn [N.eqb ensure]. cbn. intros Hs Ht.
  apply lookup_fmap_Some in Hs as (s0 & <- & Hs0).
  destruct (is_live_token token s0) eqn:E; [by destruct (revoke_row_fields now s0) as (_ & _ & _ & _ & _ & ?)|].
  destruct (ss_revoked_at s0) eqn:Er; [eauto|]. by rewrite (proj2 (is_live_token_true token s0)) in E.
Qed.

Lemma live_owner_session_origin ops id s c :
  let db := account_runs ops no_accounts in
  session_table db !! id = Some s -> ss_revoked_at s = None -> ss_auth_method s <> Legacy ->
  control_plane db = Some c ->
  exists before o after, ops = before ++ o :: after /\ issuing o s (ct_binding_fingerprint c)
    /\ forall now, RevokeSession (ss_token_hash s) now ∉ after.
Proof.
  cbn zeta. revert id s c. induction ops as [|o ops IH] using rev_ind; intros id s c Hs Hl Hm Hc.
  { cbn in Hs. by rewrite lookup_empty in Hs. }
  rewrite account_runs_app in Hs, Hc. set (d := account_runs ops no_accounts) in *.
  change (account_runs [o] d) with (account_run o d).2 in Hs, Hc.
  assert (account_wf d) as Hwf by (apply account_runs_wf, no_accounts_wf).
  pose proof (account_run_wf o d Hwf) as Hwf'.
  destruct (live_owner_session_new o d id s c Hs Hl Hm Hc) as [Hold|Hissue].
  - destruct (awf_live _ Hwf _ _ Hold Hl) as [[? _]|(c0 & Hc0 & E0 & _)]; [done|].
    destruct (awf_live _ Hwf' _ _ Hs Hl) as [[? _]|(c1 & Hc1 & E1 & _)]; [done|].
    rewrite Hc in Hc1. injection Hc1 as <-.
    pose proof (account_steps_evolve _ _ Hwf (account_run_steps o d Hwf)) as Hev.
    destruct (ev_control _ _ Hev c0 Hc0) as (c' & Hc' & _ & _ & _ & Hsame & _).
    rewrite Hc in Hc'. injection Hc' as <-. destruct (Hsame ltac:(congruence)) as [_ ->].
    destruct (IH id s c0 Hold Hl Hm Hc0) as (before & o0 & after & -> & Hi & Hrev).
    exists before, o0, (after ++ [o]). rewrite <-app_assoc. split_and!; [done|done|].
    intros now [Hin|E%list_elem_of_singleton]%elem_of_app; [by eapply Hrev|]. subst o.
    destruct (revoked_by_operation _ _ _ _ _ (proj1 (awf_session _ Hwf _ _ Hold)) Hs eq_refl). congruence.
  - exists ops, o, []. split_and!; [done|done|]. intros now. apply not_elem_of_nil.
Qed.

(** When a credential is accepted as the primary owner's, the session
    behind it was issued, with the stored owner, by a
    [create_primary_owner_session] of that very credential which named the
    binding stored now; it has not expired, no later operation revoked it, and
    the site returned is owned by that user. *)
Theorem accepted_owner_session_was_issued_under_the_stored_binding ops token now r :
  let db := account_runs ops no_accounts in
  get_primary_owner_session token now db = Ok r ->
  exists before after expires method c id n0 n1 n2,
    ops = before ++ CreatePrimaryOwnerSession token expires method (ct_binding_fingerprint c) id n0 n1 n2 :: after
    /\ control_plane db = Some c /\ session_method (ct_auth_mode c) = Some method
    /\ (now < expires)%Z
    /\ (forall n, RevokeSession token n ∉ after)
    /\ sn_user_id (pos_session r) = ct_owner_user_id c
    /\ sit_id (pos_site r) = ct_primary_site_id c
    /\ sit_owner_user_id (pos_site r) = ct_owner_user_id c.
Proof.
  intros db H. assert (account_wf db) as Hwf by (apply account_runs_wf, no_accounts_wf).
  destruct (get_primary_owner_session_Ok _ _ _ _ H) as (s & c & (Hs & Hl & Hexp) & Hc & <- & Hu & Hm & Hsite & _).
  assert (ss_auth_method s <> Legacy) as Hne by (intros E; rewrite E in Hm; by destruct (ct_auth_mode c)).
  destruct (live_owner_session_origin ops _ s c Hs Hl Hne Hc)
    as (before & o & after & Hops & (id & n0 & n1 & n2 & ->) & Hrev).
  destruct (load_site_Ok _ _ _ _ Hsite) as (st & t & _ & Ho & _ & Hid & _).
  exists before, after, (ss_expires_at s), (ss_auth_method s), c, id, n0, n1, n2.
  split_and!; try done.
  eapply (awf_one_owner _ Hwf); [exact Ho|]. by destruct (awf_control _ Hwf c Hc) as (_ & _ & ?).
Qed.

(** ** Retired credentials *)

(** A stored credential that is revoked. *)
Definition retired (db : AccountDB) (token : list N) : Prop :=
  exists id s, session_table db !! id = Some s /\ ss_token_hash s = token /\ is_Some (ss_revoked_at s).

Lemma retired_is_refused db token now : account_wf db -> retired db token ->
  get_session token now db = Err NotFound /\ get_primary_owner_session token now db = Err NotFound.
Proof.
  intros Hwf (id & s & Hs & Ht & Hr).
  assert (load_active_session_by_hash token now db = Err NotFound) as E.
  { unfold load_active_session_by_hash. rewrite (proj2 (find_row_None _ _)); [done|].
    intros k s' Hs'. destruct (is_live_token token s') eqn:El; [|done].
    apply is_live_token_true in El as [Et Hl]. assert (k = id) as ->.
    { apply (awf_token _ Hwf k id s' s); [done..|congruence]. }
    rewrite Hs in Hs'. injection Hs' as <-. rewrite Hl in Hr. by destruct Hr. }
  unfold get_session, get_primary_owner_session, validate_token_hash.
  destruct (awf_session _ Hwf _ _ Hs) as [Hsize _]. rewrite <-Ht in *. rewrite Hsize. cbn [N.eqb ensure].
  cbn. rewrite E. done.
Qed.

Lemma retired_forever ops db token : account_wf db -> retired db token -> retired (account_runs ops db) token.
Proof.
  intros Hwf (id & s & Hs & Ht & Hr).
  destruct (ev_sessions _ _ (account_runs_evolve ops db Hwf) _ _ Hs) as (s' & Hs' & Et & _ & _ & _ & _ & Hr').
  exists id, s'. split_and!; [done|congruence|auto].
Qed.

(** A revocation of the credential, or a rotation to a different binding when
    it is an owner credential. *)
Definition retires (db : AccountDB) (o : account_op) (s : SessionRow) : Prop :=
  (exists now, o = RevokeSession (ss_token_hash s) now) \/
  (ss_auth_method s <> Legacy /\ exists site mode fp now c,
     o = RotateAdminControlPlane site mode fp now /\ (account_run o db).1 = None
     /\ control_plane db = Some c /\ same_binding (control_record c) mode fp = false).

Lemma rotation_revokes site mode fp now db c id s : account_wf db ->
  (account_run (RotateAdminControlPlane site mode fp now) db).1 = None ->
  control_plane db = Some c -> same_binding (control_record c) mode fp = false ->
  session_table (account_run (RotateAdminControlPlane site mode fp now) db).2 !! id = Some s ->
  ss_auth_method s <> Legacy -> is_Some (ss_revoked_at s).
Proof.
  intros Hwf. cbn [account_run outcome fst snd]. unfold rotate_admin_control_plane.
  destruct (validate_fingerprint fp); [|done].
  destruct (transaction _ db) as [[r|e] d] eqn:E; [|done]. cbn [fst snd].
  intros _ Hc Hsame Hs Hm. apply account_tx_Ok in E as [E _]. inv_acc.
  match goal with H : load_admin_control_plane db = Ok _ |- _ =>
    apply load_control_Ok in H as (c0 & Hc0 & ->) end.
  rewrite Hc in Hc0. injection Hc0 as <-. rewrite Hsame in E. inv_acc.
  unfold revoke_owner_sessions in Hs. cbn in Hs. apply lookup_fmap_Some in Hs as (s0 & <- & Hs0).
  destruct (bool_decide (ss_auth_method s0 = Legacy)) eqn:El; [by bool_simpl|].
  by destruct (revoke_row_fields now s0) as (_ & _ & _ & _ & _ & ?).
Qed.

(** C34. Once a stored credential has been revoked, or the administrator binding
    has been rotated away from under an owner credential, no continuation of
    the history accepts it again: both session lookups answer NotFound. *)
Theorem retired_credentials_stay_dead ops o later id s now :
  let db := account_runs ops no_accounts in
  session_table db !! id = Some s -> retires db o s ->
  let db' := account_runs (o :: later) db in
  get_session (ss_token_hash s) now db' = Err NotFound
  /\ get_primary_owner_session (ss_token_hash s) now db' = Err NotFound.
Proof.
  cbn zeta. set (db := account_runs ops no_accounts). intros Hs Hretires.
  assert (account_wf db) as Hwf by (apply account_runs_wf, no_accounts_wf).
  pose proof (account_run_wf o db Hwf) as Hwf'.
  change (account_runs (o :: later) db) with (account_runs later (account_run o db).2).
  apply retired_is_refused; [by apply account_runs_wf|]. apply retired_forever; [done|].
  destruct (ev_sessions _ _ (account_steps_evolve _ _ Hwf (account_run_steps o db Hwf)) _ _ Hs)
    as (s' & Hs' & Et & _ & _ & Em & _).
  exists id, s'. split_and!; [done|done|].
  destruct Hretires as [[n ->]|(Hm & site & mode & fp & n & c & -> & Hok & Hc & Hsame)].
  - apply (revoked_by_operation (ss_token_hash s) n db id s'); [|done|done]. by apply (awf_session _ Hwf _ _ Hs).
  - apply (rotation_revokes site mode fp n db c id s'); try done. congruence.
Qed.
