(* ===== verification/AccountsWitnesses.v ===== *)
(** * The account theorems at concrete inputs

    A fresh deployment provisions its primary owner with an access key, issues
    an owner session, invites a writer, changes the site's appearance and
    rotates the key. *)

From Stdlib Require Import Bool NArith ZArith Lia.
From S2P Require Import Prelude Text Extern Content Ai2Ai StoreBase StoreTaxonomy CustomCss Accounts AccountsSpec AccountsRefine AccountsTheorems.

Definition key_fingerprint (n : N) : list N := repeat n 32.
Definition home : PrimaryOwnerBootstrap := {|
  pb_site_id := 1; pb_site_handle := lit "Home"; pb_site_title := lit "Home page";
  pb_site_description := None; pb_owner_display_name := lit "Owner"; pb_theme_profile := Paper |}.

Definition deployed : list account_op :=
  [ProvisionPrimaryOwnerSite home ModeAccessKey (key_fingerprint 5) 10 10;
   CreatePrimaryOwnerSession (repeat 8%N 32) 1000 MethodAccessKey (key_fingerprint 5) 40 20 20 21].
Definition collaboration : list account_op :=
  [CreateUser (lit "Writer@example.org") (lit "writer") (lit "A writer") (lit "$argon2id$v=19$x") 2 30;
   AddSiteCollaborator 1 1 (lit "writer@example.org") Writer 31;
   CompletePrimaryOwnerSetup 1 (lit "garden") (lit "Garden") (Some (lit "Notes")) Forest 32 32 33;
   ChangeSiteAppearance 1 1 Ink (Some (lit "p { margin: 0 }")) 34;
   EnsureLegacySite 9 35].
Definition rotation : account_op := RotateAdminControlPlane 1 ModeAccessKey (key_fingerprint 6) 50.

(** Every one of these operations succeeds. *)
Fixpoint all_succeed (ops : list account_op) (db : AccountDB) : bool :=
  match ops with
  | [] => true
  | o :: ops => is_none (account_run o db).1 && all_succeed ops (account_run o db).2
  end.
Example the_history_runs : all_succeed (deployed ++ collaboration ++ [rotation]) no_accounts = true.
Proof. vm_compute. reflexivity. Qed.

(** A collaborator cannot take the site over, or the owner leave it. *)
Example ownership_is_not_assignable :
  let db := account_runs (deployed ++ collaboration) no_accounts in
  ((account_run (AddSiteCollaborator 1 1 (lit "writer@example.org") Owner 60) db).1,
   (account_run (RemoveSiteCollaborator 1 1 1) db).1,
   (account_run (ChangeSiteTheme 2 1 Paper 60) db).1)
  = (Some (Validation (lit "owner membership cannot be invited or reassigned")),
     Some (Validation (lit "owner membership cannot be removed or demoted")),
     Some NotFound).
Proof. vm_compute. reflexivity. Qed.

(** Custom CSS survives a theme change and the appearance is versioned. *)
Example appearance_is_versioned :
  let db := account_runs (deployed ++ collaboration ++ [ChangeSiteTheme 1 1 Terminal 61]) no_accounts in
  match load_site_by_id 1 None db with
  | Ok r => (sit_theme_revision r, sit_theme_profile r, sit_custom_css r, sit_handle r)
            = (4%Z, Terminal, Some (lit "p { margin: 0 }"), lit "garden")
  | Err _ => False
  end.
Proof. vm_compute. reflexivity. Qed.

Lemma every_site_keeps_its_owner_witness :
  let db := account_runs deployed no_accounts in
  exists r r', load_site_by_id 1 None db = Ok r
    /\ load_site_by_id 1 None (account_runs (collaboration ++ [rotation]) db) = Ok r'
    /\ sit_owner_user_id r' = sit_owner_user_id r
    /\ forall user, owns_site user 1 db = Ok true <-> user = sit_owner_user_id r.
Proof.
  apply (every_site_keeps_its_owner deployed (collaboration ++ [rotation]) 1).
  apply is_some_iff. vm_compute. reflexivity.
Defined.

Lemma accepted_owner_session_was_issued_under_the_stored_binding_witness :
  let db := account_runs (deployed ++ collaboration) no_accounts in
  match get_primary_owner_session (repeat 8%N 32) 70 db with
  | Ok r => sn_user_id (pos_session r) = 1%N /\ sit_owner_user_id (pos_site r) = 1%N
  | Err _ => False
  end.
Proof.
  cbn zeta. destruct (get_primary_owner_session _ _ _) as [r|e] eqn:E.
  - destruct (accepted_owner_session_was_issued_under_the_stored_binding (deployed ++ collaboration) _ _ _ E)
      as (_ & _ & _ & _ & c & _ & _ & _ & _ & _ & Hc & _ & _ & _ & Hu & _ & Ho).
    assert (ct_owner_user_id c = 1%N) as Hone.
    { assert (ct_owner_user_id <$> control_plane (account_runs (deployed ++ collaboration) no_accounts) = Some 1%N)
        as Hone by (vm_compute; reflexivity).
      rewrite Hc in Hone. cbn in Hone. by injection Hone. }
    rewrite Hu, Ho. auto.
  - apply (f_equal is_ok) in E. vm_compute in E. discriminate E.
Defined.

Lemma retired_credentials_stay_dead_witness :
  let db := account_runs (rotation :: [CreateUser (lit "a@b.c") (lit "late") (lit "Late") (lit "$argon2id$x") 3 80])
              (account_runs deployed no_accounts) in
  get_session (repeat 8%N 32) 70 db = Err NotFound /\ get_primary_owner_session (repeat 8%N 32) 70 db = Err NotFound.
Proof.
  destruct (session_table (account_runs deployed no_accounts) !! 40%N) as [s|] eqn:Es.
  2: { apply (f_equal is_some) in Es. vm_compute in Es. discriminate Es. }
  assert (ss_token_hash s = repeat 8%N 32 /\ ss_auth_method s = MethodAccessKey) as [Et Em].
  { assert ((fun s => (ss_token_hash s, ss_auth_method s)) <$>
        session_table (account_runs deployed no_accounts) !! 40%N = Some (repeat 8%N 32, MethodAccessKey))
      as Hrow by (vm_compute; reflexivity).
    rewrite Es in Hrow. cbn [fmap option_fmap option_map] in Hrow. by injection Hrow. }
  cbn zeta. rewrite <-Et.
  apply (retired_credentials_stay_dead deployed rotation _ 40 s 70); [done|]. right. split; [by rewrite Em|].
  destruct (control_plane (account_runs deployed no_accounts)) as [c|] eqn:Ec.
  2: { apply (f_equal is_some) in Ec. vm_compute in Ec. discriminate Ec. }
  exists 1%N, ModeAccessKey, (key_fingerprint 6), 50%Z, c. split_and!; [done| |done|].
  - vm_compute. reflexivity.
  - assert ((fun c => same_binding (control_record c) ModeAccessKey (key_fingerprint 6)) <$>
        control_plane (account_runs deployed no_accounts) = Some false) as Hrow by (vm_compute; reflexivity).
    rewrite Ec in Hrow. cbn [fmap option_fmap option_map] in Hrow. by injection Hrow.
Defined.
