(* ===== verification/StoreContent.v ===== *)
(** * Documents, revisions, routes and publication

    [crates/storage-sqlite/src/lib.rs]: the [ContentRepository] implementation
    and the site-scoped operations on documents.  One definition per function;
    the SQL statements are the row operations below them. *)

From Stdlib Require Import Bool NArith ZArith Lia.
From S2P Require Import Prelude Text Extern Content Ai2Ai StoreBase StoreTaxonomy.

Inductive RevisionSelector := Current | PublishedRevision.
Inductive CategoryPostOrder := NewestFirst | OldestFirst.
Inductive AuditOrder := AuditNewestFirst | AuditOldestFirst.

Section content_store.
Context `{StoreCodec, Sha256Lib, !LayerCodec}.

(** ** Statements *)

Definition slug_taken (site_id : Uuid) (path : rstr) (except : Uuid) (db : DB) : bool :=
  any_row (fun id d => document_has_slug site_id path id d && negb (id =? except)%N) (documents db).

Definition insert_document (id : Uuid) (row : DocumentRow) (db : DB) : result SqlError DB :=
  fail_if (is_some (documents db !! id)) (UniqueFailed (lit "documents.id"));;
  fail_if (slug_taken (doc_site_id row) (doc_current_slug row) id db)
    (UniqueFailed (lit "documents.site_id, documents.current_slug"));;
  Ok (set_documents db (<[id := row]> (documents db))).

(** [UPDATE documents SET ... WHERE id = ?], re-checking
    [UNIQUE (site_id, current_slug)]. *)
Definition update_document (id : Uuid) (f : DocumentRow -> DocumentRow) (db : DB) : result SqlError DB :=
  match documents db !! id with
  | None => Ok db
  | Some row =>
      fail_if (slug_taken (doc_site_id (f row)) (doc_current_slug (f row)) id db)
        (UniqueFailed (lit "documents.site_id, documents.current_slug"));;
      Ok (set_documents db (<[id := f row]> (documents db)))
  end.

(** The [revisions_default_category_placement] trigger. *)
Definition default_category_placement (id : Uuid) (row : RevisionRow) (db : DB) : result SqlError DB :=
  match documents db !! rev_document_id row with
  | None => Ok db
  | Some d =>
      fail_if (is_some (revision_categories db !! id)) (UniqueFailed (lit "revision_categories.revision_id"));;
      Ok (set_placements db (<[id := {|
        pl_document_id := rev_document_id row;
        pl_site_id := doc_site_id d;
        pl_category_id := parent ← rev_parent_revision_id row;
                          placement ← revision_categories db !! parent;
                          pl_category_id placement;
        pl_assigned_by_user_id := None;
        pl_assigned_at := rev_created_at row |}]> (revision_categories db)))
  end.

Definition insert_revision_row (id : Uuid) (row : RevisionRow) (db : DB) : result SqlError DB :=
  fail_if (is_some (revisions db !! id)) (UniqueFailed (lit "revisions.id"));;
  fail_if (is_some_and (fun key => any_row (fun _ r => bool_decide (rev_idempotency_key r = Some key))
                                     (revisions db)) (rev_idempotency_key row))
    (UniqueFailed (lit "revisions.idempotency_key"));;
  fail_if (any_row (fun _ r => (rev_document_id r =? rev_document_id row)%N
                               && (rev_number r =? rev_number row)%N) (revisions db))
    (UniqueFailed (lit "revisions.document_id, revisions.revision_number"));;
  fail_if (is_some_and (fun p => is_none (revisions db !! p)) (rev_parent_revision_id row)) ForeignKeyFailed;;
  default_category_placement id row (set_revisions db (<[id := row]> (revisions db))).

(** [UPDATE revision_categories SET category_id, assigned_by_user_id, assigned_at
    WHERE revision_id AND document_id AND site_id], guarded by the
    [published_revision_category_immutable] trigger. *)
Definition update_placement (revision_id document_id site_id : Uuid) (category_id : option Uuid)
    (actor_user_id : Uuid) (now : DateTime) (db : DB) : result SqlError (N * DB) :=
  match revision_categories db !! revision_id with
  | None => Ok (0%N, db)
  | Some p =>
      if (pl_document_id p =? document_id)%N && (pl_site_id p =? site_id)%N then
        fail_if (is_some_and (fun d => bool_decide (doc_published_revision_id d = Some revision_id))
                   (documents db !! pl_document_id p))
          (RaiseAbort (lit "published revision category placement is immutable"));;
        fail_if (is_some_and (fun c => negb (is_some_and (fun row => (cat_site_id row =? site_id)%N)
                                               (categories db !! c))) category_id
                 || negb (bool_decide (actor_user_id ∈ users db))) ForeignKeyFailed;;
        Ok (1%N, set_placements db (<[revision_id := {|
          pl_document_id := pl_document_id p; pl_site_id := pl_site_id p;
          pl_category_id := category_id; pl_assigned_by_user_id := Some actor_user_id;
          pl_assigned_at := now |}]> (revision_categories db)))
      else Ok (0%N, db)
  end.

(** [UPDATE routes SET is_canonical = 0 WHERE document_id = ?1] *)
Definition clear_canonical (document_id : Uuid) (db : DB) : result SqlError DB :=
  Ok (set_routes db ((fun r =>
    if (route_document_id r =? document_id)%N
    then {| route_document_id := route_document_id r; route_is_canonical := false;
            route_created_at := route_created_at r |}
    else r) <$> routes db)).

(** [INSERT INTO routes ... ON CONFLICT(site_id, path) DO UPDATE]: a path owned
    by another document is left as it is. *)
Definition upsert_route (site_id : Uuid) (path : rstr) (document_id : Uuid) (now : DateTime) (db : DB)
    : result SqlError DB :=
  match routes db !! (site_id, path) with
  | Some r =>
      Ok (set_routes db (<[(site_id, path) := {|
        route_document_id := route_document_id r;
        route_is_canonical := if (route_document_id r =? document_id)%N then true else route_is_canonical r;
        route_created_at := route_created_at r |}]> (routes db)))
  | None =>
      fail_if (is_none (documents db !! document_id)) ForeignKeyFailed;;
      Ok (set_routes db (<[(site_id, path) := {|
        route_document_id := document_id; route_is_canonical := true; route_created_at := now |}]>
        (routes db)))
  end.

Definition insert_audit (id : Uuid) (row : AuditRow) (db : DB) : result SqlError DB :=
  fail_if (is_some (ai_proposal_audits db !! id)) (UniqueFailed (lit "ai_proposal_audits.accepted_revision_id"));;
  fail_if (any_row (fun _ a => (ad_message_id a =? ad_message_id row)%N) (ai_proposal_audits db))
    (UniqueFailed (lit "ai_proposal_audits.message_id"));;
  fail_if (any_row (fun _ a => str_eqb (ad_idempotency_key a) (ad_idempotency_key row)) (ai_proposal_audits db))
    (UniqueFailed (lit "ai_proposal_audits.idempotency_key"));;
  fail_if (negb (is_some_and (fun r => (rev_document_id r =? ad_document_id row)%N) (revisions db !! id)))
    ForeignKeyFailed;;
  Ok (set_audits db (<[id := row]> (ai_proposal_audits db))).

(** ** Reading documents *)

Definition revision_of (db : DB) (document_id : Uuid) (revision_id : Uuid) : option RevisionRow :=
  r ← revisions db !! revision_id;
  if (rev_document_id r =? document_id)%N then Some r else None.

Definition json_error : RepositoryError := storage_error (lit "invalid JSON document").

Definition load_document (document_id : Uuid) (selector : RevisionSelector) : query DocumentSnapshot :=
  fun db =>
  d ← ok_or (documents db !! document_id) NotFound;
  fail_if (match selector with Current => false | PublishedRevision => negb (is_public d) end) NotFound;;
  revision_id ← ok_or (match selector with
                       | Current => Some (doc_current_revision_id d)
                       | PublishedRevision => doc_published_revision_id d
                       end) NotFound;
  r ← ok_or (revision_of db document_id revision_id) NotFound;
  revision ← ok_or (revision_of_json (rev_snapshot_json r)) json_error;
  Ok {| ds_schema_version := CONTENT_SCHEMA_VERSION; ds_id := document_id; ds_site_id := doc_site_id d;
        ds_status := doc_status d; ds_current_revision_id := doc_current_revision_id d;
        ds_published_revision_id := doc_published_revision_id d; ds_revision := revision;
        ds_created_at := doc_created_at d;
        ds_updated_at := match selector with
                         | Current => doc_updated_at d
                         | PublishedRevision => rev_created_at r
                         end |}.

Definition get_document (id : Uuid) : query DocumentSnapshot := load_document id Current.

Definition get_published_by_slug (site_id : Uuid) (slug : rstr) : query DocumentSnapshot := fun db =>
  document_id ← ok_or (r ← routes db !! (site_id, slug);
                       d ← documents db !! route_document_id r;
                       if (doc_site_id d =? site_id)%N then Some (route_document_id r) else None) NotFound;
  load_document document_id PublishedRevision db.

(** [published.created_at DESC, d.id DESC] *)
Definition published_at (db : DB) (d : DocumentRow) : option DateTime :=
  r ← doc_published_revision_id d; row ← revisions db !! r; Some (rev_created_at row).
Definition newest_leb (a b : Uuid * DateTime) : bool :=
  (b.2 <? a.2)%Z || ((a.2 =? b.2)%Z && (b.1 <=? a.1)%N).
Definition published_keys (db : DB) (p : Uuid -> DocumentRow -> bool) : list (Uuid * DateTime) :=
  omap (fun kv => if is_public kv.2 && p kv.1 kv.2
                  then t ← published_at db kv.2; Some (kv.1, t) else None)
    (map_to_list (documents db)).

Definition list_published (site_id : Uuid) (n : N) : query (list DocumentSnapshot) := fun db =>
  traverse (fun k => load_document k.1 PublishedRevision db)
    (limit (N.min n 500) (order_by newest_leb
      (published_keys db (fun _ d => (doc_site_id d =? site_id)%N)))).

Definition list_documents (site_id : Uuid) (n : N) : query (list DocumentSnapshot) := fun db =>
  traverse (fun k => load_document k.1 Current db)
    (limit (N.min n 500) (order_by newest_leb
      (omap (fun kv => if (doc_site_id kv.2 =? site_id)%N then Some (kv.1, doc_updated_at kv.2) else None)
         (map_to_list (documents db))))).

Definition revision_number_leb (a b : Uuid * RevisionRow) : bool :=
  (rev_number b.2 <=? rev_number a.2)%N.
Definition list_revisions (document_id : Uuid) (n : N) : query (list RevisionSnapshot) := fun db =>
  fail_if (is_none (documents db !! document_id)) NotFound;;
  traverse (fun kv => ok_or (revision_of_json (rev_snapshot_json kv.2)) json_error)
    (limit (N.min n 1000) (order_by revision_number_leb
      (List.filter (fun kv => (rev_document_id kv.2 =? document_id)%N) (map_to_list (revisions db))))).

Definition list_documents_with_selector (site_id : option Uuid) (n : N) (selector : RevisionSelector)
    : query (list DocumentSnapshot) := fun db =>
  let in_scope d := bool_decide (doc_site_id d ∈ sites db)
                    && is_none_or (fun s => (doc_site_id d =? s)%N) site_id in
  let keys := match selector with
    | Current => omap (fun kv => if in_scope kv.2 then Some (kv.1, doc_updated_at kv.2) else None)
                   (map_to_list (documents db))
    | PublishedRevision => published_keys db (fun _ => in_scope)
    end in
  traverse (fun k => load_document k.1 selector db) (limit (N.min n 500) (order_by newest_leb keys)).

Definition list_published_in_category_with_connection (site_id category_id : Uuid) (n : N)
    (order : CategoryPostOrder) : query (list DocumentSnapshot) := fun db =>
  let ids := match order with
    | OldestFirst => published_members db site_id category_id
    | NewestFirst => fst <$> order_by newest_leb (published_keys db (published_in db site_id category_id))
    end in
  traverse (fun id => load_document id PublishedRevision db) (limit (N.min n 500) ids).

Definition list_published_in_series_with_connection (site_id series_id : Uuid) (n : N)
    : query (list DocumentSnapshot) := fun db =>
  items ← list_published_series_items_with_connection site_id series_id n db;
  traverse (fun i => load_document (sir_document_id i) PublishedRevision db) items.

Definition published_noncanonical_route_exists (site_id : Uuid) (path : rstr) : query bool := fun db =>
  Ok match routes db !! (site_id, path) with
     | Some r => negb (route_is_canonical r)
                 && is_some_and (fun d => (doc_site_id d =? site_id)%N && is_public d)
                      (documents db !! route_document_id r)
     | None => false
     end.

Definition id_leb (a b : Uuid) : bool := (a <=? b)%N.
Definition get_unique_published_by_leaf_slug (site_id : Uuid) (leaf_slug : rstr)
    : query (option DocumentSnapshot) := fun db =>
  let matches := omap (fun kv =>
      if (doc_site_id kv.2 =? site_id)%N && is_public kv.2
      then r ← doc_published_revision_id kv.2; row ← revisions db !! r;
           if str_eqb (rev_slug row) leaf_slug then Some kv.1 else None
      else None) (map_to_list (documents db)) in
  match limit 2 (order_by id_leb matches) with
  | [id] => Some <$> load_document id PublishedRevision db
  | _ => Ok None
  end.

(** ** Writing revisions *)

Definition with_computed_hash (r : RevisionSnapshot) : RevisionSnapshot := {|
  rs_schema_version := rs_schema_version r; rs_id := rs_id r; rs_document_id := rs_document_id r;
  rs_revision_number := rs_revision_number r; rs_parent_revision_id := rs_parent_revision_id r;
  rs_title := rs_title r; rs_slug := rs_slug r; rs_source_markdown := rs_source_markdown r;
  rs_embeds := rs_embeds r; rs_intent := rs_intent r; rs_ontology := rs_ontology r;
  rs_ai_summary := rs_ai_summary r; rs_authorship := rs_authorship r; rs_actor := rs_actor r;
  rs_content_hash := content_hash_with_ai_summary (rs_title r) (rs_slug r) (rs_source_markdown r)
    (rs_embeds r) (rs_intent r) (rs_ontology r) (rs_ai_summary r);
  rs_created_at := rs_created_at r |}.

(** The number is not bounded here; the column is an [i64]. *)
Definition insert_revision (r : RevisionSnapshot) (idempotency_key : option rstr) : tx unit :=
  json ← lift (ok_or (revision_to_json r) json_error);
  execute map_revision_constraint_error (insert_revision_row (rs_id r) {|
    rev_document_id := rs_document_id r; rev_number := rs_revision_number r;
    rev_parent_revision_id := rs_parent_revision_id r; rev_slug := rs_slug r;
    rev_snapshot_json := json; rev_idempotency_key := idempotency_key;
    rev_created_at := rs_created_at r |}).

Definition immutable_placement : RepositoryError :=
  Validation (lit "published revision placement is immutable; create a new revision before moving it").

Definition set_slug_if_current (site_id revision_id : Uuid) (path : rstr) (now : DateTime)
    (d : DocumentRow) : DocumentRow :=
  if (doc_site_id d =? site_id)%N && (doc_current_revision_id d =? revision_id)%N
  then {| doc_site_id := doc_site_id d; doc_status := doc_status d;
          doc_current_revision_id := doc_current_revision_id d;
          doc_published_revision_id := doc_published_revision_id d;
          doc_current_slug := path; doc_created_at := doc_created_at d; doc_updated_at := now |}
  else d.

Definition assign_revision_category_in_transaction (actor_user_id site_id document_id revision_id : Uuid)
    (category_id : option Uuid) (now : DateTime) : tx RevisionCategoryPlacement :=
  d ← read (fun db => match documents db !! document_id with
                      | Some d => if (doc_site_id d =? site_id)%N then Ok d else Err NotFound
                      | None => Err NotFound
                      end);
  lift (fail_if (negb (doc_current_revision_id d =? revision_id)%N) RevisionConflict);;
  lift (fail_if (bool_decide (doc_published_revision_id d = Some (doc_current_revision_id d)))
          immutable_placement);;
  category ← read (fun db => transpose_map (fun id => load_category_by_id site_id id db) category_id);
  lift (fail_if (is_inactive category) (archived_receives "revisions"));;
  r ← read (fun db => ok_or (revision_of db document_id revision_id) NotFound);
  let route_path := category_route_path category (rev_slug r) in
  read (ensure_document_route_available site_id document_id route_path);;
  read (fun db => match category with
                  | None => ensure_root_slug_not_category site_id (rev_slug r) db
                  | Some _ => Ok tt
                  end);;
  changed ← execute_count map_category_constraint_error
    (update_placement revision_id document_id site_id category_id actor_user_id now);
  lift (fail_if (negb (changed =? 1)%N) NotFound);;
  execute map_constraint_error
    (update_document document_id (set_slug_if_current site_id revision_id route_path now));;
  read (load_revision_category_placement site_id document_id revision_id).

Definition create_document_in_transaction (input : NewDocument) (document_id revision_id : Uuid)
    (now : DateTime) (initial_category : option (Uuid * Uuid)) (idempotency_key : option rstr)
    : tx DocumentSnapshot :=
  let site_id := nd_site_id input in
  let revision := with_computed_hash {|
    rs_schema_version := CONTENT_SCHEMA_VERSION; rs_id := revision_id; rs_document_id := document_id;
    rs_revision_number := 1; rs_parent_revision_id := None; rs_title := nd_title input;
    rs_slug := nd_slug input; rs_source_markdown := nd_source_markdown input;
    rs_embeds := nd_embeds input; rs_intent := nd_intent input; rs_ontology := nd_ontology input;
    rs_ai_summary := nd_ai_summary input; rs_authorship := nd_authorship input;
    rs_actor := nd_actor input; rs_content_hash := []; rs_created_at := now |} in
  category ← read (fun db => transpose_map (fun ic => load_category_by_id site_id ic.2 db) initial_category);
  lift (fail_if (is_inactive category) (archived_receives "revisions"));;
  read (fun db => match category with
                  | None => ensure_root_slug_not_category site_id (rs_slug revision) db
                  | Some _ => Ok tt
                  end);;
  let initial_route_path := category_route_path category (rs_slug revision) in
  read (ensure_document_route_available site_id document_id initial_route_path);;
  execute map_constraint_error (insert_document document_id {|
    doc_site_id := site_id; doc_status := Draft; doc_current_revision_id := revision_id;
    doc_published_revision_id := None; doc_current_slug := initial_route_path;
    doc_created_at := now; doc_updated_at := now |});;
  insert_revision revision idempotency_key;;
  match initial_category with
  | Some (actor_user_id, category_id) =>
      assign_revision_category_in_transaction actor_user_id site_id document_id revision_id
        (Some category_id) now;; mret tt
  | None => mret tt
  end;;
  mret {| ds_schema_version := CONTENT_SCHEMA_VERSION; ds_id := document_id; ds_site_id := site_id;
          ds_status := Draft; ds_current_revision_id := revision_id; ds_published_revision_id := None;
          ds_revision := revision; ds_created_at := now; ds_updated_at := now |}.

Definition validation_error (e : ContentValidationError) : RepositoryError :=
  Validation (content_error_message e).

(** The [UPDATE documents] of an appended revision. *)
Definition advance_current (revision_id : Uuid) (path : rstr) (created_at : DateTime) (d : DocumentRow)
    : DocumentRow := {|
  doc_site_id := doc_site_id d;
  doc_status := match doc_published_revision_id d with None => Draft | Some _ => Published end;
  doc_current_revision_id := revision_id;
  doc_published_revision_id := doc_published_revision_id d;
  doc_current_slug := path; doc_created_at := doc_created_at d; doc_updated_at := created_at |}.

Definition append_revision_in_transaction_with_category (input : ProposedRevision) (revision_id : Uuid)
    (now : DateTime) (category_assignment : option (Uuid * option Uuid)) : tx RevisionSnapshot :=
  lift (map_err validation_error (ProposedRevision_validate input));;
  let document_id := pr_document_id input in
  let base_revision_id := pr_base_revision_id input in
  current ← read (fun db => ok_or (d ← documents db !! document_id;
                                   r ← revisions db !! doc_current_revision_id d;
                                   Some (d, r)) NotFound);
  let '(d, r) := (current : DocumentRow * RevisionRow) in
  lift (fail_if (negb (doc_current_revision_id d =? base_revision_id)%N) RevisionConflict);;
  let site_id := doc_site_id d in
  let revision := with_computed_hash {|
    rs_schema_version := CONTENT_SCHEMA_VERSION; rs_id := revision_id; rs_document_id := document_id;
    rs_revision_number := rev_number r + 1; rs_parent_revision_id := Some base_revision_id;
    rs_title := pr_title input; rs_slug := pr_slug input;
    rs_source_markdown := pr_source_markdown input; rs_embeds := pr_embeds input;
    rs_intent := pr_intent input; rs_ontology := pr_ontology input;
    rs_ai_summary := pr_ai_summary input; rs_authorship := pr_authorship input;
    rs_actor := pr_actor input; rs_content_hash := []; rs_created_at := now |} in
  insert_revision revision (pr_idempotency_key input);;
  match category_assignment with
  | Some (actor_user_id, category_id) =>
      category ← read (fun db => transpose_map (fun id => load_category_by_id site_id id db) category_id);
      lift (fail_if (is_inactive category) (archived_receives "revisions"));;
      changed ← execute_count map_category_constraint_error
        (update_placement revision_id document_id site_id category_id actor_user_id now);
      lift (fail_if (negb (changed =? 1)%N) NotFound)
  | None => mret tt
  end;;
  route_path ← read (revision_category_route_path site_id document_id revision_id (rs_slug revision) false);
  read (ensure_document_route_available site_id document_id route_path);;
  execute map_constraint_error
    (update_document document_id (advance_current revision_id route_path (rs_created_at revision)));;
  mret revision.

Definition append_revision_in_transaction (input : ProposedRevision) (revision_id : Uuid)
    (now : DateTime) : tx RevisionSnapshot :=
  append_revision_in_transaction_with_category input revision_id now None.

Definition mark_published (revision_id : Uuid) (now : DateTime) (d : DocumentRow) : DocumentRow := {|
  doc_site_id := doc_site_id d; doc_status := Published;
  doc_current_revision_id := doc_current_revision_id d;
  doc_published_revision_id := Some revision_id; doc_current_slug := doc_current_slug d;
  doc_created_at := doc_created_at d; doc_updated_at := now |}.

Definition publish_in_transaction_at (document_id revision_id : Uuid) (now : DateTime) : tx unit :=
  r ← read (fun db => ok_or (revision_of db document_id revision_id) NotFound);
  revision ← lift (ok_or (revision_of_json (rev_snapshot_json r)) json_error);
  d ← read (fun db => ok_or (documents db !! document_id) NotFound);
  let site_id := doc_site_id d in
  route_path ← read (revision_category_route_path site_id document_id revision_id (rs_slug revision) true);
  read (ensure_document_route_available site_id document_id route_path);;
  execute sql_storage (clear_canonical document_id);;
  execute map_constraint_error (upsert_route site_id route_path document_id now);;
  routed ← read (fun db => ok_or (routes db !! (site_id, route_path)) (storage_error (lit "no rows")));
  lift (fail_if (negb (route_document_id routed =? document_id)%N) DuplicateSlug);;
  ensure_series_item_for_revision_in_transaction site_id document_id revision_id now;;
  execute sql_storage (update_document document_id (mark_published revision_id now)).

(** ** The [ContentRepository] operations *)

Definition create_document (input : NewDocument) (document_id revision_id : Uuid) (now : DateTime)
    : DB -> result RepositoryError DocumentSnapshot * DB :=
  transaction (
    lift (map_err validation_error (NewDocument_validate input));;
    create_document_in_transaction input document_id revision_id now None None).

Definition append_revision (input : ProposedRevision) (revision_id : Uuid) (now : DateTime)
    : DB -> result RepositoryError RevisionSnapshot * DB :=
  transaction (
    lift (map_err validation_error (ProposedRevision_validate input));;
    append_revision_in_transaction input revision_id now).

Definition publish (document_id revision_id : Uuid) (now : DateTime) (db : DB)
    : result RepositoryError DocumentSnapshot * DB :=
  then_load (transaction (publish_in_transaction_at document_id revision_id now) db)
    (load_document document_id PublishedRevision).

(** The accepted revision of an AI proposal: actor, authorship and idempotency
    key come from the envelope. *)
Definition derive_proposal (e : Ai2AiEnvelope) : ProposedRevision :=
  let p := env_proposal e in {|
  pr_document_id := pr_document_id p; pr_base_revision_id := pr_base_revision_id p;
  pr_title := pr_title p; pr_slug := pr_slug p; pr_source_markdown := pr_source_markdown p;
  pr_embeds := pr_embeds p; pr_intent := pr_intent p; pr_ontology := pr_ontology p;
  pr_ai_summary := pr_ai_summary p;
  pr_authorship := {|
    pa_kind := AiGenerated;
    pa_generator := Some (match aa_model (env_actor e) with
                          | Some m => m
                          | None => match aa_provider (env_actor e) with
                                    | Some v => v
                                    | None => lit "ai2ai"
                                    end
                          end);
    pa_human_reviewed := false |};
  pr_actor := {| ra_kind := Agent; ra_id := aa_id (env_actor e); ra_display_name := None |};
  pr_idempotency_key := Some (env_idempotency_key e) |}.

Definition insert_ai_proposal (record : AiProposalAuditRecord) : tx unit :=
  json ← lift (ok_or (envelope_to_json (au_envelope record)) json_error);
  execute map_ai_proposal_constraint_error (insert_audit (au_accepted_revision_id record) {|
    ad_schema_version := au_schema_version record; ad_document_id := au_document_id record;
    ad_message_id := env_message_id (au_envelope record);
    ad_idempotency_key := env_idempotency_key (au_envelope record);
    ad_received_at := au_received_at record; ad_envelope_json := json |}).

(** [now] stands for the clock readings of the whole call. *)
Definition append_ai_proposal (envelope : Ai2AiEnvelope) (revision_id : Uuid) (now : DateTime)
    : DB -> result RepositoryError RevisionSnapshot * DB :=
  transaction (
    lift (map_err (fun e => Validation (envelope_error_message e)) (envelope_validate now envelope));;
    let proposal := derive_proposal envelope in
    lift (map_err validation_error (ProposedRevision_validate proposal));;
    revision ← append_revision_in_transaction proposal revision_id now;
    insert_ai_proposal {|
      au_schema_version := AI_PROPOSAL_AUDIT_SCHEMA_VERSION; au_document_id := rs_document_id revision;
      au_accepted_revision_id := rs_id revision; au_received_at := now; au_envelope := envelope |};;
    mret revision).

Definition audit_leb (order : AuditOrder) (a b : Uuid * AuditRow) : bool :=
  let before x y := (ad_received_at x.2 <? ad_received_at y.2)%Z
                    || ((ad_received_at x.2 =? ad_received_at y.2)%Z && (x.1 <=? y.1)%N) in
  match order with AuditNewestFirst => before b a | AuditOldestFirst => before a b end.

Definition parse_audit (document_id : Uuid) (kv : Uuid * AuditRow) : result RepositoryError AiProposalAuditRecord :=
  let '(id, a) := kv in
  envelope ← ok_or (envelope_of_json (ad_envelope_json a)) json_error;
  fail_if (negb (ad_document_id a =? document_id)%N
           || negb (pr_document_id (env_proposal envelope) =? document_id)%N
           || negb (env_message_id envelope =? ad_message_id a)%N
           || negb (str_eqb (env_idempotency_key envelope) (ad_idempotency_key a)))
    (Storage (lit "AI proposal audit columns do not match the stored envelope"));;
  Ok {| au_schema_version := ad_schema_version a; au_document_id := document_id;
        au_accepted_revision_id := id; au_received_at := ad_received_at a; au_envelope := envelope |}.

(** [usize::MAX] asks for every record, any other limit is capped. *)
Definition usize_max : N := 18446744073709551615.
Definition load_ai_proposals (document_id : Uuid) (n : N) (order : AuditOrder)
    : query (list AiProposalAuditRecord) := fun db =>
  let rows := order_by (audit_leb order)
    (List.filter (fun kv => (ad_document_id kv.2 =? document_id)%N) (map_to_list (ai_proposal_audits db))) in
  traverse (parse_audit document_id)
    (if (n =? usize_max)%N then rows else limit (N.min n 1000) rows).

Definition list_ai_proposals (document_id : Uuid) (n : N) : query (list AiProposalAuditRecord) := fun db =>
  ensure_document_exists document_id db;;
  load_ai_proposals document_id n AuditNewestFirst db.

(** ** The site-scoped operations *)

Definition create_document_in_owned_site (owner_user_id : Uuid) (input : NewDocument)
    (document_id revision_id : Uuid) (now : DateTime) : DB -> result RepositoryError DocumentSnapshot * DB :=
  transaction (
    lift (map_err validation_error (NewDocument_validate input));;
    read (ensure_site_owner owner_user_id (nd_site_id input));;
    create_document_in_transaction input document_id revision_id now None None).

Definition create_document_in_writable_site_with_category (actor_user_id : Uuid) (input : NewDocument)
    (category_id : option Uuid) (document_id revision_id : Uuid) (now : DateTime)
    : DB -> result RepositoryError DocumentSnapshot * DB :=
  transaction (
    lift (map_err validation_error (NewDocument_validate input));;
    read (ensure_site_writer actor_user_id (nd_site_id input));;
    create_document_in_transaction input document_id revision_id now
      ((fun c => (actor_user_id, c)) <$> category_id) None).

Definition revise_document_in_writable_site_with_category (actor_user_id site_id : Uuid)
    (input : ProposedRevision) (category_selection : option (option Uuid)) (revision_id : Uuid)
    (now : DateTime) : DB -> result RepositoryError RevisionSnapshot * DB :=
  transaction (
    lift (map_err validation_error (ProposedRevision_validate input));;
    read (ensure_site_writer actor_user_id site_id);;
    read (ensure_document_in_site site_id (pr_document_id input));;
    append_revision_in_transaction_with_category input revision_id now
      ((fun c => (actor_user_id, c)) <$> category_selection)).

Definition publish_document_in_owned_site (owner_user_id site_id document_id revision_id : Uuid)
    (now : DateTime) (db : DB) : result RepositoryError DocumentSnapshot * DB :=
  then_load (transaction (
    read (ensure_site_owner owner_user_id site_id);;
    read (ensure_document_in_site site_id document_id);;
    publish_in_transaction_at document_id revision_id now) db)
    (load_document document_id PublishedRevision).

Definition assign_revision_category_in_writable_site (actor_user_id site_id document_id revision_id : Uuid)
    (category_id : option Uuid) (now : DateTime) : DB -> result RepositoryError RevisionCategoryPlacement * DB :=
  transaction (
    read (ensure_site_writer actor_user_id site_id);;
    assign_revision_category_in_transaction actor_user_id site_id document_id revision_id category_id now).
End content_store.
