(* ===== verification/StoreFeed.v ===== *)
(** * Comments, home curation, series editing and the read projections

    [crates/storage-sqlite/src/lib.rs]: the remaining operations on content.
    [load_site_by_id] is used here only to refuse unknown sites, which in a
    well-formed state of the account tables is the existence of the site's row
    (Accounts, [stored_site_loads]). *)

From Stdlib Require Import Bool NArith ZArith Lia.
From S2P Require Import Prelude Text Extern Content Ai2Ai StoreBase StoreTaxonomy StoreContent.

(** ** Records returned to callers *)

Record CategoryMetadataRecord := {
  cmr_id : Uuid;
  cmr_site_id : Uuid;
  cmr_slug : rstr;
  cmr_title : rstr;
  cmr_status : CategoryStatus;
  cmr_created_at : DateTime;
  cmr_updated_at : DateTime;
}.
Record CurrentDocumentMetadataRecord := {
  cdm_id : Uuid;
  cdm_site_id : Uuid;
  cdm_status : DocumentStatus;
  cdm_current_revision_id : Uuid;
  cdm_published_revision_id : option Uuid;
  cdm_title : rstr;
  cdm_slug : rstr;
  cdm_revision_number : N;
  cdm_category_id : option Uuid;
  cdm_created_at : DateTime;
  cdm_updated_at : DateTime;
}.
Record RevisionMetadataRecord := {
  rmr_id : Uuid;
  rmr_document_id : Uuid;
  rmr_revision_number : N;
  rmr_slug : rstr;
  rmr_created_at : DateTime;
}.
Record CommentRecord := {
  com_id : Uuid;
  com_site_id : Uuid;
  com_document_id : Uuid;
  com_author_user_id : Uuid;
  com_source_markdown : rstr;
  com_status : StoredCommentStatus;
  com_created_at : DateTime;
  com_updated_at : DateTime;
}.
Record HomePinRecord := {
  pin_slot : N;
  pin_document_id : Uuid;
  pin_pinned_at : DateTime;
}.
Definition validate_comment_markdown (value : rstr) : result RepositoryError rstr :=
  let value := trim value in
  fail_if (is_empty value || (64 * 1024 <? str_len value)%N || contains_nul value)
    (Validation (lit "comment Markdown must contain 1-65536 bytes"));;
  Ok value.

Section feed.
Context `{StoreCodec, Sha256Lib, !LayerCodec}.

Record HomeCategorySectionRecords := {
  hcs_category : CategoryRecord;
  hcs_items : list DocumentSnapshot;
}.
Record HomeSeriesSectionRecords := {
  hss_series : SeriesRecord;
  hss_items : list DocumentSnapshot;
}.
Record HomeFeedRecords := {
  hf_pinned : list DocumentSnapshot;
  hf_recent : list DocumentSnapshot;
  hf_category_sections : list HomeCategorySectionRecords;
  hf_series_sections : list HomeSeriesSectionRecords;
}.
Record ExportedRoute := {
  er_path : rstr;
  er_canonical : bool;
  er_created_at : DateTime;
}.
Record ExportedDocument := {
  ed_current : DocumentSnapshot;
  ed_revisions : list RevisionSnapshot;
  ed_revision_category_placements : list RevisionCategoryPlacement;
  ed_ai_proposals : list AiProposalAuditRecord;
  ed_routes : list ExportedRoute;
}.
Record SiteExport := {
  se_schema_version : rstr;
  se_export_site_id : Uuid;
  se_categories : list CategoryRecord;
  se_series : list SeriesRecord;
  se_series_items : list SeriesItemRecord;
  se_documents : list ExportedDocument;
}.

(** ** Documents of a writer *)

Definition create_document_in_writable_site (actor_user_id : Uuid) (input : NewDocument)
    (document_id revision_id : Uuid) (now : DateTime) : DB -> result RepositoryError DocumentSnapshot * DB :=
  transaction (
    lift (map_err validation_error (NewDocument_validate input));;
    read (ensure_site_writer actor_user_id (nd_site_id input));;
    create_document_in_transaction input document_id revision_id now None None).

Definition revise_document_in_owned_site (owner_user_id site_id : Uuid) (input : ProposedRevision)
    (revision_id : Uuid) (now : DateTime) : DB -> result RepositoryError RevisionSnapshot * DB :=
  transaction (
    lift (map_err validation_error (ProposedRevision_validate input));;
    read (ensure_site_owner owner_user_id site_id);;
    read (ensure_document_in_site site_id (pr_document_id input));;
    append_revision_in_transaction input revision_id now).

Definition revise_document_in_writable_site (actor_user_id site_id : Uuid) (input : ProposedRevision)
    (revision_id : Uuid) (now : DateTime) : DB -> result RepositoryError RevisionSnapshot * DB :=
  transaction (
    lift (map_err validation_error (ProposedRevision_validate input));;
    read (ensure_site_writer actor_user_id site_id);;
    read (ensure_document_in_site site_id (pr_document_id input));;
    append_revision_in_transaction input revision_id now).

(** ** Series presentation *)

Definition update_series (owner_user_id site_id series_id : Uuid) (input : UpdateCategoryInput)
    (now : DateTime) (db : DB) : result RepositoryError SeriesRecord * DB :=
  then_load (transaction (
    title ← lift (validate_required_text (uci_title input) (lit "series title") 200);
    description ← lift (validate_optional_text (uci_description input) (lit "series description") 2000);
    read (ensure_site_owner owner_user_id site_id);;
    series ← read (load_series_by_id site_id series_id);
    execute map_category_constraint_error (fun db =>
      Ok (update_category_row site_id (sr_category_id series) title description
            (uci_theme_profile input) now db));;
    execute sql_storage (fun db => Ok (touch_series site_id series_id now db))) db)
    (load_series_by_id site_id series_id).

Definition archive_series (owner_user_id site_id series_id : Uuid) (now : DateTime) (db : DB)
    : result RepositoryError SeriesRecord * DB :=
  then_load (transaction (
    read (ensure_site_owner owner_user_id site_id);;
    series ← read (load_series_by_id site_id series_id);
    if bool_decide (sr_status series = Active)
    then execute sql_storage (fun db => Ok (archive_category_row site_id (sr_category_id series) now db));;
         execute sql_storage (fun db => Ok (touch_series site_id series_id now db))
    else mret tt) db)
    (load_series_by_id site_id series_id).

(** ** Comments *)

Definition insert_comment (id : Uuid) (row : CommentRow) (db : DB) : result SqlError DB :=
  fail_if (is_some (comments db !! id)) (UniqueFailed (lit "comments.id"));;
  fail_if (negb (bool_decide (cm_site_id row ∈ sites db))
           || negb (is_some_and (fun d => (doc_site_id d =? cm_site_id row)%N)
                      (documents db !! cm_document_id row))
           || negb (bool_decide (cm_author_user_id row ∈ users db))) ForeignKeyFailed;;
  Ok (set_comments db (<[id := row]> (comments db))).

Definition parse_comment_row (id : Uuid) (c : CommentRow) : CommentRecord := {|
  com_id := id; com_site_id := cm_site_id c; com_document_id := cm_document_id c;
  com_author_user_id := cm_author_user_id c; com_source_markdown := cm_source_markdown c;
  com_status := cm_status c; com_created_at := cm_created_at c; com_updated_at := cm_updated_at c |}.

Definition is_approved (c : CommentRow) : bool := bool_decide (cm_status c = CommentApproved).
Definition load_comment_by_id (id : Uuid) (approved_only : bool) : query CommentRecord := fun db =>
  match comments db !! id with
  | Some c => if negb approved_only || is_approved c then Ok (parse_comment_row id c) else Err NotFound
  | None => Err NotFound
  end.

Definition create_comment (author_user_id site_id document_id : Uuid) (source_markdown : rstr)
    (id : Uuid) (now : DateTime) (db : DB) : result RepositoryError CommentRecord * DB :=
  then_load (transaction (
    source_markdown ← lift (validate_comment_markdown source_markdown);
    read (ensure_user_exists author_user_id);;
    read (ensure_published_document_in_site site_id document_id);;
    execute map_community_constraint_error (insert_comment id {|
      cm_site_id := site_id; cm_document_id := document_id; cm_author_user_id := author_user_id;
      cm_source_markdown := source_markdown; cm_status := CommentApproved;
      cm_created_at := now; cm_updated_at := now |})) db)
    (load_comment_by_id id false).

Definition comment_leb (a b : CommentRecord) : bool :=
  (com_created_at a <? com_created_at b)%Z
  || ((com_created_at a =? com_created_at b)%Z && (com_id a <=? com_id b)%N).
Definition approved_comments (db : DB) (site_id document_id : Uuid) : list CommentRecord :=
  (fun kv => parse_comment_row kv.1 kv.2) <$>
    List.filter (fun kv => (cm_site_id kv.2 =? site_id)%N && (cm_document_id kv.2 =? document_id)%N
                           && is_approved kv.2) (map_to_list (comments db)).
Definition list_approved_comments (site_id document_id : Uuid) (n : N) : query (list CommentRecord) :=
  fun db =>
  ensure_published_document_in_site site_id document_id db;;
  Ok (limit (N.min n 1000) (order_by comment_leb (approved_comments db site_id document_id))).
Definition count_approved_comments (site_id document_id : Uuid) : query N := fun db =>
  ensure_published_document_in_site site_id document_id db;;
  Ok (size_of (approved_comments db site_id document_id)).
Definition get_comment (comment_id : Uuid) : query CommentRecord := load_comment_by_id comment_id true.

(** ** Home pins *)

Definition pin_record (kv : Z * HomePinRow) : result RepositoryError HomePinRecord :=
  if (0 <=? kv.1)%Z && (kv.1 <=? 255)%Z
  then Ok {| pin_slot := Z.to_N kv.1; pin_document_id := hp_document_id kv.2;
             pin_pinned_at := hp_pinned_at kv.2 |}
  else Err (Storage (lit "out of range integral type conversion attempted")).
Definition load_home_pins : query (list HomePinRecord) := fun db =>
  traverse pin_record (order_by (fun a b => (a.1 <=? b.1)%Z) (map_to_list (home_pins db))).
Definition list_home_pins : query (list HomePinRecord) := load_home_pins.

Definition insert_home_pin (slot : Z) (row : HomePinRow) (db : DB) : result SqlError DB :=
  fail_if (negb ((1 <=? slot)%Z && (slot <=? 3)%Z)) (CheckFailed (lit "slot BETWEEN 1 AND 3"));;
  fail_if (any_row (fun _ p => (hp_document_id p =? hp_document_id row)%N) (home_pins db))
    (UniqueFailed (lit "home_pins.document_id"));;
  fail_if (is_some (home_pins db !! slot)) (UniqueFailed (lit "home_pins.slot"));;
  fail_if (is_none (documents db !! hp_document_id row)
           || negb (bool_decide (hp_pinned_by_user_id row ∈ users db))) ForeignKeyFailed;;
  Ok (set_home_pins db (<[slot := row]> (home_pins db))).

Definition not_pinnable : RepositoryError :=
  Validation (lit "only currently published documents can be pinned").
Definition ensure_pinnable (document_ids : list Uuid) : query unit := fun db =>
  for_each (fun id => ensure (is_some_and is_public (documents db !! id)) not_pinnable) document_ids.

Fixpoint insert_home_pins_from (slot : Z) (administrator_user_id : Uuid) (now : DateTime)
    (document_ids : list Uuid) : tx unit :=
  match document_ids with
  | [] => mret tt
  | document_id :: rest =>
      execute map_constraint_error (insert_home_pin slot
        {| hp_document_id := document_id; hp_pinned_by_user_id := administrator_user_id;
           hp_pinned_at := now |});;
      insert_home_pins_from (slot + 1) administrator_user_id now rest
  end.

Definition replace_home_pins (administrator_user_id : Uuid) (document_ids : list Uuid) (now : DateTime)
    (db : DB) : result RepositoryError (list HomePinRecord) * DB :=
  if (3 <? size_of document_ids)%N
     || negb (N.of_nat (size (as_set document_ids)) =? size_of document_ids)%N
  then (Err (Validation (lit "home pins must contain at most three unique document ids")), db)
  else transaction (
    control ← read (fun db => ok_or (admin_control_plane db) NotFound);
    lift (ensure (cp_owner_user_id control =? administrator_user_id)%N NotFound);;
    read (ensure_pinnable document_ids);;
    execute sql_storage (fun db => Ok (set_home_pins db ∅));;
    insert_home_pins_from 1 administrator_user_id now document_ids;;
    read load_home_pins) db.

(** ** The home feed *)

Definition is_pinned (pinned : list DocumentSnapshot) (d : DocumentSnapshot) : bool :=
  existsb (fun p => (ds_id p =? ds_id d)%N) pinned.

(** A pin whose document is not public any more is skipped. *)
Fixpoint load_pinned (db : DB) (pins : list HomePinRecord) : result RepositoryError (list DocumentSnapshot) :=
  match pins with
  | [] => Ok []
  | pin :: rest =>
      match load_document (pin_document_id pin) PublishedRevision db with
      | Ok document =>
          rest ← load_pinned db rest;
          Ok (if bool_decide (ds_status document = Archived) then rest else document :: rest)
      | Err NotFound => load_pinned db rest
      | Err e => Err e
      end
  end.

(** [limit.saturating_add(pinned).min(500)] *)
Definition fetch_limit (n : N) (pinned : list DocumentSnapshot) : N :=
  N.min (N.min (n + size_of pinned) usize_max) 500.
Definition without_pins (pinned : list DocumentSnapshot) (n : N) (l : list DocumentSnapshot)
    : list DocumentSnapshot :=
  limit n (List.filter (fun d => negb (is_pinned pinned d)) l).

(** The two loops over series and categories: a section takes what is left of
    the budget and is dropped when it is empty. *)
Fixpoint feed_sections {S} (fetch : S -> N -> result RepositoryError (list DocumentSnapshot))
    (pinned : list DocumentSnapshot) (remaining : N) (sources : list S)
    : result RepositoryError (list (S * list DocumentSnapshot) * N) :=
  match sources with
  | [] => Ok ([], remaining)
  | source :: rest =>
      if (remaining =? 0)%N then Ok ([], remaining) else
      documents ← fetch source (fetch_limit remaining pinned);
      match without_pins pinned remaining documents with
      | [] => feed_sections fetch pinned remaining rest
      | items =>
          '(sections, budget) ← feed_sections fetch pinned (remaining - size_of items) rest;
          Ok ((source, items) :: sections, budget)
      end
  end.

Definition oldest_category_leb (a b : Uuid * CategoryRow) : bool :=
  (cat_created_at a.2 <? cat_created_at b.2)%Z
  || ((cat_created_at a.2 =? cat_created_at b.2)%Z && (a.1 <=? b.1)%N).
(** Active categories that back no series, in creation order. *)
Definition plain_categories (db : DB) (site_id : Uuid) : list CategoryRecord :=
  (fun kv => parse_category_row kv.1 kv.2) <$> limit 500 (order_by oldest_category_leb
    (List.filter (fun kv => (cat_site_id kv.2 =? site_id)%N && bool_decide (cat_status kv.2 = Active)
        && negb (any_row (fun _ s => (se_site_id s =? cat_site_id kv.2)%N
                                     && (se_category_id s =? kv.1)%N) (series db)))
      (map_to_list (categories db)))).

Definition home_feed (primary_site_id : Uuid) (recent_limit : N) : query HomeFeedRecords := fun db =>
  ensure_site_exists primary_site_id db;;
  pins ← load_home_pins db;
  pinned ← load_pinned db pins;
  published ← list_documents_with_selector None (fetch_limit recent_limit pinned) PublishedRevision db;
  let recent := without_pins pinned (N.min recent_limit 500) published in
  series ← list_series_with_connection primary_site_id false 500 db;
  '(series_sections, remaining) ← feed_sections
    (fun s n => list_published_in_series_with_connection primary_site_id (sr_id s) n db)
    pinned (N.min recent_limit 500) series;
  '(category_sections, _) ← feed_sections
    (fun c n => list_published_in_category_with_connection primary_site_id (cr_id c) n OldestFirst db)
    pinned remaining (plain_categories db primary_site_id);
  Ok {| hf_pinned := pinned; hf_recent := recent;
        hf_category_sections := (fun s => {| hcs_category := s.1; hcs_items := s.2 |}) <$> category_sections;
        hf_series_sections := (fun s => {| hss_series := s.1; hss_items := s.2 |}) <$> series_sections |}.

(** ** Read projections *)

Definition category_listing_leb (a b : Uuid * CategoryRow) : bool :=
  let ra := status_rank (cat_status a.2) in let rb := status_rank (cat_status b.2) in
  let sa := to_ascii_lowercase (cat_slug a.2) in let sb := to_ascii_lowercase (cat_slug b.2) in
  (ra <? rb)%Z || ((ra =? rb)%Z
    && (str_ltb (cat_title a.2) (cat_title b.2)
        || (str_eqb (cat_title a.2) (cat_title b.2) && str_leb sa sb))).
Definition listed_categories (db : DB) (site_id : Uuid) (include_archived : bool) : list (Uuid * CategoryRow) :=
  order_by category_listing_leb
    (List.filter (fun kv => (cat_site_id kv.2 =? site_id)%N
                            && (include_archived || bool_decide (cat_status kv.2 = Active)))
      (map_to_list (categories db))).
Definition list_categories (site_id : Uuid) (include_archived : bool) (n : N) : query (list CategoryRecord) :=
  fun db =>
  ensure_site_exists site_id db;;
  Ok ((fun kv => parse_category_row kv.1 kv.2) <$> limit (N.min n 500) (listed_categories db site_id include_archived)).
Definition list_category_metadata_page (site_id : Uuid) (include_archived : bool) (offset n : N)
    : query (list CategoryMetadataRecord) := fun db =>
  ensure_site_exists site_id db;;
  rows ← page offset n (listed_categories db site_id include_archived);
  Ok ((fun kv => {| cmr_id := kv.1; cmr_site_id := cat_site_id kv.2; cmr_slug := cat_slug kv.2;
                    cmr_title := cat_title kv.2; cmr_status := cat_status kv.2;
                    cmr_created_at := cat_created_at kv.2; cmr_updated_at := cat_updated_at kv.2 |})
        <$> (rows : list (Uuid * CategoryRow))).
Definition get_category_by_id (site_id category_id : Uuid) : query CategoryRecord :=
  load_category_by_id site_id category_id.
Definition get_category_by_slug (site_id : Uuid) (slug : rstr) : query CategoryRecord := fun db =>
  slug ← normalize_category_slug slug;
  load_category_by_slug site_id slug db.
Definition list_published_in_category (site_id category_id : Uuid) (n : N) : query (list DocumentSnapshot) :=
  fun db =>
  load_category_by_id site_id category_id db;;
  list_published_in_category_with_connection site_id category_id n NewestFirst db.

Definition list_series (site_id : Uuid) (include_archived : bool) (n : N) : query (list SeriesRecord) :=
  fun db => ensure_site_exists site_id db;; list_series_with_connection site_id include_archived n db.
Definition get_series_by_id (site_id series_id : Uuid) : query SeriesRecord := load_series_by_id site_id series_id.
Definition get_series_by_slug (site_id : Uuid) (slug : rstr) : query SeriesRecord := fun db =>
  slug ← normalize_category_slug slug;
  load_series_by_slug site_id slug db.
Definition get_series_by_category_id (site_id category_id : Uuid) : query SeriesRecord :=
  load_series_by_category_id site_id category_id.
Definition list_published_in_series (site_id series_id : Uuid) (n : N) : query (list DocumentSnapshot) :=
  fun db =>
  load_series_by_id site_id series_id db;;
  list_published_in_series_with_connection site_id series_id n db.

Definition get_revision_category_placement (site_id document_id revision_id : Uuid)
    : query RevisionCategoryPlacement := fun db =>
  ensure_document_in_site site_id document_id db;;
  load_revision_category_placement site_id document_id revision_id db.

(** The category of the current or the published revision. *)
Definition load_document_category (site_id document_id : Uuid) (selector : RevisionSelector)
    : query (option CategoryRecord) := fun db =>
  category ← ok_or (d ← documents db !! document_id;
                    revision_id ← match selector with
                                  | Current => Some (doc_current_revision_id d)
                                  | PublishedRevision => doc_published_revision_id d
                                  end;
                    p ← revision_categories db !! revision_id;
                    if (doc_site_id d =? site_id)%N && (pl_document_id p =? document_id)%N
                       && (pl_site_id p =? doc_site_id d)%N
                    then Some (pl_category_id p) else None) NotFound;
  transpose_map (fun id => load_category_by_id site_id id db) category.
Definition get_current_category (site_id document_id : Uuid) := load_document_category site_id document_id Current.
Definition get_published_category (site_id document_id : Uuid) :=
  load_document_category site_id document_id PublishedRevision.

Definition get_document_in_owned_site (owner_user_id site_id document_id : Uuid) : query DocumentSnapshot :=
  fun db =>
  ensure_site_owner owner_user_id site_id db;;
  ensure_document_in_site site_id document_id db;;
  load_document document_id Current db.
Definition get_document_in_writable_site (actor_user_id site_id document_id : Uuid) : query DocumentSnapshot :=
  fun db =>
  ensure_site_writer actor_user_id site_id db;;
  ensure_document_in_site site_id document_id db;;
  load_document document_id Current db.
Definition list_documents_in_owned_site (owner_user_id site_id : Uuid) (n : N) : query (list DocumentSnapshot) :=
  fun db =>
  ensure_site_owner owner_user_id site_id db;;
  list_documents_with_selector (Some site_id) n Current db.
Definition list_documents_in_writable_site (actor_user_id site_id : Uuid) (n : N)
    : query (list DocumentSnapshot) := fun db =>
  ensure_site_writer actor_user_id site_id db;;
  list_documents_with_selector (Some site_id) n Current db.
Definition list_published_across_sites (n : N) : query (list DocumentSnapshot) :=
  list_documents_with_selector None n PublishedRevision.
Definition get_published_document_by_id (document_id : Uuid) : query DocumentSnapshot :=
  load_document document_id PublishedRevision.

Definition ensure_category_in_site (site_id category_id : Uuid) : query unit := fun db =>
  if is_some_and (fun c => (cat_site_id c =? site_id)%N) (categories db !! category_id)
  then Ok tt else Err NotFound.

(** The joined rows of a document page, and their projection. *)
Definition current_placement (db : DB) (site_id : Uuid) (category_id : option Uuid)
    (kv : Uuid * DocumentRow) : option (Uuid * DocumentRow * RevisionRow * PlacementRow) :=
  let '(id, d) := kv in
  r ← revision_of db id (doc_current_revision_id d);
  p ← revision_categories db !! doc_current_revision_id d;
  if (doc_site_id d =? site_id)%N && (pl_document_id p =? id)%N && (pl_site_id p =? doc_site_id d)%N
     && bool_decide (pl_category_id p = category_id)
  then Some (id, d, r, p) else None.
Definition document_metadata (row : Uuid * DocumentRow * RevisionRow * PlacementRow)
    : result RepositoryError CurrentDocumentMetadataRecord :=
  let '(id, d, r, p) := row in
  revision ← ok_or (revision_of_json (rev_snapshot_json r)) json_error;
  Ok {| cdm_id := id; cdm_site_id := doc_site_id d; cdm_status := doc_status d;
        cdm_current_revision_id := doc_current_revision_id d;
        cdm_published_revision_id := doc_published_revision_id d; cdm_title := rs_title revision;
        cdm_slug := rev_slug r; cdm_revision_number := rev_number r; cdm_category_id := pl_category_id p;
        cdm_created_at := doc_created_at d; cdm_updated_at := doc_updated_at d |}.
Definition list_current_document_metadata_page (site_id : Uuid) (category_id : option Uuid) (offset n : N)
    : query (list CurrentDocumentMetadataRecord) := fun db =>
  ensure_site_exists site_id db;;
  match category_id with Some c => ensure_category_in_site site_id c db | None => Ok tt end;;
  rows ← page offset n (order_by
    (fun a b => newest_leb (a.1.1.1, doc_updated_at a.1.1.2) (b.1.1.1, doc_updated_at b.1.1.2))
    (omap (current_placement db site_id category_id) (map_to_list (documents db))));
  traverse document_metadata rows.

Definition list_revision_metadata_page (document_id : Uuid) (offset n : N)
    : query (list RevisionMetadataRecord) := fun db =>
  ensure_document_exists document_id db;;
  rows ← page offset n (order_by revision_number_leb
    (List.filter (fun kv => (rev_document_id kv.2 =? document_id)%N) (map_to_list (revisions db))));
  Ok ((fun kv => {| rmr_id := kv.1; rmr_document_id := rev_document_id kv.2;
                    rmr_revision_number := rev_number kv.2; rmr_slug := rev_slug kv.2;
                    rmr_created_at := rev_created_at kv.2 |}) <$> (rows : list (Uuid * RevisionRow))).

(** ** Export *)

Definition export_item_leb (db : DB) (a b : SeriesItemRecord) : bool :=
  let home i := match series db !! sir_series_id i with Some s => se_home_position s | None => 0%Z end in
  (home a <? home b)%Z || ((home a =? home b)%Z
    && ((sir_series_id a <? sir_series_id b)%N
        || ((sir_series_id a =? sir_series_id b)%N && item_leb a b))).
Definition route_leb (a b : ExportedRoute) : bool :=
  (er_created_at a <? er_created_at b)%Z
  || ((er_created_at a =? er_created_at b)%Z && str_leb (er_path a) (er_path b)).

Definition export_document (site_id : Uuid) (db : DB) (document_id : Uuid)
    : result RepositoryError ExportedDocument :=
  current ← load_document document_id Current db;
  revisions ← traverse (fun kv => ok_or (revision_of_json (rev_snapshot_json kv.2)) json_error)
    (order_by (fun a b => revision_number_leb b a)
      (List.filter (fun kv => (rev_document_id kv.2 =? document_id)%N) (map_to_list (revisions db))));
  let exported := order_by route_leb
    ((fun kv => {| er_path := kv.1.2; er_canonical := route_is_canonical kv.2;
                   er_created_at := route_created_at kv.2 |}) <$>
      List.filter (fun kv => (route_document_id kv.2 =? document_id)%N) (map_to_list (routes db))) in
  placements ← traverse (fun r => load_revision_category_placement site_id document_id (rs_id r) db) revisions;
  proposals ← load_ai_proposals document_id usize_max AuditOldestFirst db;
  Ok {| ed_current := current; ed_revisions := revisions; ed_revision_category_placements := placements;
        ed_ai_proposals := proposals; ed_routes := exported |}.

Definition export_site (site_id : Uuid) : query SiteExport := fun db =>
  let exported_categories := (fun kv => parse_category_row kv.1 kv.2) <$> order_by oldest_category_leb
    (List.filter (fun kv => (cat_site_id kv.2 =? site_id)%N) (map_to_list (categories db))) in
  exported_series ← list_series_with_connection site_id true 500 db;
  let items := order_by (export_item_leb db) (item_record <$>
    List.filter (fun kv => (si_site_id kv.2 =? site_id)%N
                  && is_some_and (fun s => (se_site_id s =? si_site_id kv.2)%N) (series db !! kv.1.1))
      (map_to_list (series_items db))) in
  exported ← traverse (export_document site_id db)
    (fst <$> order_by (fun a b => (doc_created_at a.2 <=? doc_created_at b.2)%Z)
      (List.filter (fun kv => (doc_site_id kv.2 =? site_id)%N) (map_to_list (documents db))));
  Ok {| se_schema_version := lit "open-soverign-blog-export/4"; se_export_site_id := site_id;
        se_categories := exported_categories; se_series := exported_series; se_series_items := items;
        se_documents := exported |}.

End feed.
