(* ===== verification/OfflineImport.v ===== *)
(** * Offline import of a batch of posts

    [crates/storage-sqlite/src/lib.rs], [import_offline_batch] and its
    helpers: validation of the batch, the transaction that reconciles the
    owner's name, declares categories, creates and publishes posts and adds
    historical routes, and the comparison that makes a retry a no-op.

    The transaction works on the content tables and on the account tables.
    [Uuid::now_v7] is a function of the position in the batch. *)

From Stdlib Require Import Bool NArith ZArith Lia.
From S2P Require Import Prelude Text Extern Content Ai2Ai StoreBase Accounts StoreTaxonomy StoreContent.

Record OfflineImportCategory := {
  oic_slug : rstr;
  oic_title : rstr;
  oic_description : option rstr;
}.
Record OfflineImportAlias := {
  oia_path : rstr;
  oia_created_at : DateTime;
}.
Record OfflineImportPost := {
  oip_source_id : rstr;
  oip_title : rstr;
  oip_slug : rstr;
  oip_source_markdown : rstr;
  oip_created_at : DateTime;
  oip_author_id : rstr;
  oip_author_display_name : rstr;
  oip_primary_category : rstr;
  oip_human_reviewed : bool;
  oip_aliases : list OfflineImportAlias;
}.
Record OfflineImportBatch := {
  oib_source : rstr;
  oib_owner_display_name : rstr;
  oib_categories : list OfflineImportCategory;
  oib_posts : list OfflineImportPost;
}.
Inductive OfflineImportPostStatus := PostImported | PostUnchanged.
Record OfflineImportPostOutcome := {
  oio_source_id : rstr;
  oio_canonical_path : rstr;
  oio_status : OfflineImportPostStatus;
}.
Record OfflineImportReport := {
  oir_dry_run : bool;
  oir_owner_display_name_updated : bool;
  oir_categories_created : N;
  oir_categories_reused : N;
  oir_posts_imported : N;
  oir_posts_unchanged : N;
  oir_aliases_created : N;
  oir_posts : list OfflineImportPostOutcome;
}.

(** ** Validation *)

Definition invalid (b : bool) (message : rstr) : result RepositoryError unit :=
  fail_if b (Validation message).

Definition validate_offline_import_reserved_root (root : rstr) : result RepositoryError unit :=
  invalid (is_empty root || (720 <? str_len root)%N || str_eqb root (lit ".") || str_eqb root (lit "..")
           || contains_any "/\" root || existsb is_control root)
    (lit "offline import reserved route root '" ++ root ++ lit "' is not a safe public path segment").

Definition ensure_offline_import_root_available (root : rstr) (reserved_route_roots : list rstr)
    : result RepositoryError unit :=
  invalid (existsb (str_eqb root) reserved_route_roots)
    (lit "offline import route root '" ++ root ++ lit "' overlaps the configured article base path").

Definition validate_offline_import_text (value field : rstr) (max_chars : N) : result RepositoryError unit :=
  invalid (negb (within 1 max_chars (char_count value)) || negb (str_eqb value (trim value))
           || existsb is_control value)
    (field ++ lit " must contain 1-" ++ show_N max_chars
     ++ lit " printable characters without surrounding whitespace").

Definition offline_import_idempotency_key (site_id : Uuid) (source source_id : rstr)
    : result RepositoryError rstr :=
  let key := lit "offline-import:" ++ uuid_hyphenated site_id ++ lit ":" ++ show_N (str_len source)
             ++ lit ":" ++ source ++ lit ":" ++ source_id in
  invalid (200 <? str_len key)%N
    (lit "offline import sourceId '" ++ source_id
     ++ lit "' produces an idempotency key longer than 200 bytes");;
  Ok key.

Definition claim_offline_import_route (claimed : gmap rstr rstr) (path source_id : rstr)
    : result RepositoryError (gmap rstr rstr) :=
  match claimed !! path with
  | Some existing =>
      Err (Validation (lit "offline import route '" ++ path ++ lit "' is claimed by sourceIds '"
                       ++ existing ++ lit "' and '" ++ source_id ++ lit "'"))
  | None => Ok (<[path := source_id]> claimed)
  end.

Definition RESERVED_ROOTS : list rstr :=
  lit <$> [".well-known"; "AI2AI.md"; "UNLICENSE"; "agent.txt"; "agents.txt"; "api"; "assets"; "blog";
           "custom.css"; "docs"; "favicon.svg"; "healthz"; "index.html"; "livez"; "llms.txt"; "login";
           "media"; "onboarding"; "openapi"; "providers"; "references"; "readyz"; "robots.txt"; "schemas";
           "sitemap.xml"; "studio"; "vendor"]%string.

Definition unsafe_segment (segment : rstr) : bool :=
  is_empty segment || str_eqb segment (lit ".") || str_eqb segment (lit "..")
  || (720 <? str_len segment)%N || contains_char 92 segment || existsb is_control segment.

Definition validate_offline_import_alias_path (path : rstr) (reserved_route_roots : list rstr)
    : result RepositoryError unit :=
  let segments := split 47 path in
  let root := default [] (head segments) in
  invalid ((2048 <? str_len path)%N || (32 <? size_of segments)%N || existsb unsafe_segment segments
           || starts_with (lit "/") path || ends_with (lit "/") path)
    (lit "offline import alias '" ++ path ++ lit "' is not a safe relative public path");;
  invalid (existsb (str_eqb root) RESERVED_ROOTS || existsb (str_eqb root) reserved_route_roots
           || starts_with (lit "@") root)
    (lit "offline import alias '" ++ path ++ lit "' overlaps an application route").

(** [#[derive(PartialEq, Eq)]] of the two kernel records the retry compares. *)
#[export] Instance RevisionActorKind_eq_dec : EqDecision RevisionActorKind.
Proof. solve_decision. Defined.
#[export] Instance RevisionActor_eq_dec : EqDecision RevisionActor.
Proof. solve_decision. Defined.
#[export] Instance PublicAuthorship_eq_dec : EqDecision PublicAuthorship.
Proof. solve_decision. Defined.

Section import.
Context `{StoreCodec, Sha256Lib, !LayerCodec}.

Definition offline_import_document (site_id : Uuid) (source : rstr) (post : OfflineImportPost)
    : NewDocument := {|
  nd_site_id := site_id; nd_title := oip_title post; nd_slug := oip_slug post;
  nd_source_markdown := oip_source_markdown post; nd_embeds := []; nd_intent := None;
  nd_ontology := None; nd_ai_summary := None;
  nd_authorship := {| pa_kind := Imported; pa_generator := Some source;
                      pa_human_reviewed := oip_human_reviewed post |};
  nd_actor := {| ra_kind := Importer; ra_id := oip_author_id post;
                 ra_display_name := Some (oip_author_display_name post) |} |}.

(** The loop over the category declarations. *)
Definition check_import_category (reserved : list rstr) (seen : gset rstr) (c : OfflineImportCategory)
    : result RepositoryError (gset rstr) :=
  slug ← normalize_new_category_slug (oic_slug c);
  ensure_offline_import_root_available slug reserved;;
  invalid (bool_decide (slug ∈ seen))
    (lit "offline import category '" ++ slug ++ lit "' is declared more than once");;
  validate_required_text (oic_title c) (lit "category title") 200;;
  validate_optional_text (oic_description c) (lit "category description") 2000;;
  Ok ({[ slug ]} ∪ seen).

Definition about_post (post : OfflineImportPost) (what : string) : rstr :=
  lit "offline import sourceId '" ++ oip_source_id post ++ lit "' " ++ lit what.

(** The loop over the aliases of a post. *)
Definition check_import_alias (reserved : list rstr) (post : OfflineImportPost) (canonical_path : rstr)
    (claimed : gmap rstr rstr) (alias : OfflineImportAlias) : result RepositoryError (gmap rstr rstr) :=
  validate_offline_import_alias_path (oia_path alias) reserved;;
  invalid (str_eqb (oia_path alias) canonical_path)
    (about_post post "repeats its canonical path as an alias");;
  claim_offline_import_route claimed (oia_path alias) (oip_source_id post).

(** The loop over the posts. *)
Definition check_import_post (site_id : Uuid) (source : rstr) (reserved : list rstr)
    (state : gset rstr * gmap rstr rstr) (post : OfflineImportPost)
    : result RepositoryError (gset rstr * gmap rstr rstr) :=
  let '(source_ids, claimed) := state in
  validate_offline_import_text (oip_source_id post) (lit "offline import sourceId") 100;;
  validate_offline_import_text (oip_author_id post) (lit "offline import author id") 200;;
  validate_offline_import_text (oip_author_display_name post)
    (lit "offline import author display name") 200;;
  offline_import_idempotency_key site_id source (oip_source_id post);;
  invalid (bool_decide (oip_source_id post ∈ source_ids)) (about_post post "is duplicated");;
  invalid (1000 <? size_of (oip_aliases post))%N (about_post post "has more than 1000 aliases");;
  map_err (fun e => Validation (about_post post "is invalid: " ++ content_error_message e))
    (NewDocument_validate (offline_import_document site_id source post));;
  invalid (negb (str_eqb (oip_slug post) (trim (oip_slug post))))
    (about_post post "has a slug with surrounding whitespace");;
  category_slug ← normalize_new_category_slug (oip_primary_category post);
  ensure_offline_import_root_available category_slug reserved;;
  let canonical_path := category_slug ++ lit "/" ++ oip_slug post in
  claimed ← claim_offline_import_route claimed canonical_path (oip_source_id post);
  claimed ← for_fold (check_import_alias reserved post canonical_path) claimed (oip_aliases post);
  Ok ({[ oip_source_id post ]} ∪ source_ids, claimed).

Definition validate_offline_import_batch (site_id : Uuid) (batch : OfflineImportBatch)
    (reserved : list rstr) : result RepositoryError unit :=
  for_each validate_offline_import_reserved_root reserved;;
  validate_offline_import_text (oib_source batch) (lit "offline import source") 100;;
  validate_offline_import_text (oib_owner_display_name batch)
    (lit "offline import owner display name") 200;;
  invalid (500 <? size_of (oib_categories batch))%N
    (lit "offline import cannot contain more than 500 category declarations");;
  invalid (is_empty_list (oib_posts batch) || (5000 <? size_of (oib_posts batch))%N)
    (lit "offline import must contain 1-5000 posts");;
  for_fold (check_import_category reserved) ∅ (oib_categories batch);;
  for_fold (check_import_post site_id (oib_source batch) reserved) (∅, ∅) (oib_posts batch);;
  Ok tt.

(** ** The transaction *)

(** One category declaration: [true] when it was created. *)
Definition import_category (owner_user_id site_id : Uuid) (now : DateTime) (id : Uuid)
    (c : OfflineImportCategory) : tx bool :=
  slug ← lift (normalize_new_category_slug (oic_slug c));
  title ← lift (validate_required_text (oic_title c) (lit "category title") 200);
  description ← lift (validate_optional_text (oic_description c) (lit "category description") 2000);
  found ← (fun db => Ok (load_category_by_slug site_id slug db, db));
  match (found : result RepositoryError CategoryRecord) with
  | Ok existing =>
      lift (invalid (negb (bool_decide (cr_status existing = Active))
                     || negb (str_eqb (cr_title existing) title)
                     || negb (bool_decide (cr_description existing = description)))
              (lit "offline import category '" ++ slug ++ lit "' conflicts with existing metadata"));;
      mret false
  | Err NotFound =>
      read (ensure_category_landing_available site_id slug);;
      execute map_category_constraint_error (insert_category id {|
        cat_site_id := site_id; cat_slug := slug; cat_title := title; cat_description := description;
        cat_theme_profile := None; cat_status := Active; cat_created_by_user_id := owner_user_id;
        cat_created_at := now; cat_updated_at := now |});;
      mret true
  | Err e => raise e
  end.

(** The routes of a document, and those an imported post has. *)
Definition routes_of (db : DB) (site_id document_id : Uuid) : gmap rstr (bool * DateTime) :=
  list_to_map (omap (fun kv =>
    if (kv.1.1 =? site_id)%N && (route_document_id kv.2 =? document_id)%N
    then Some (kv.1.2, (route_is_canonical kv.2, route_created_at kv.2)) else None)
    (map_to_list (routes db))).
(** [collect::<BTreeMap>]: a later entry replaces an earlier one. *)
Definition expected_routes (canonical_path : rstr) (post : OfflineImportPost) : gmap rstr (bool * DateTime) :=
  foldl (fun m a => <[oia_path a := (false, oia_created_at a)]> m)
    {[ canonical_path := (true, oip_created_at post) ]} (oip_aliases post).

Definition ensure_offline_import_retry_matches (site_id : Uuid) (source : rstr) (post : OfflineImportPost)
    (category : CategoryRecord) (document_id revision_id : Uuid) (db : DB)
    : result RepositoryError unit :=
  document ← (load_document document_id Current db : result RepositoryError DocumentSnapshot);
  let expected := offline_import_document site_id source post in
  placement ← load_revision_category_placement site_id document_id revision_id db;
  let revision := ds_revision document in
  let exact :=
    (ds_site_id document =? site_id)%N
    && bool_decide (ds_status document = Published)
    && (ds_current_revision_id document =? revision_id)%N
    && bool_decide (ds_published_revision_id document = Some revision_id)
    && (ds_created_at document =? oip_created_at post)%Z
    && (ds_updated_at document =? oip_created_at post)%Z
    && (rs_id revision =? revision_id)%N
    && (rs_revision_number revision =? 1)%N
    && is_none (rs_parent_revision_id revision)
    && str_eqb (rs_title revision) (nd_title expected)
    && str_eqb (rs_slug revision) (nd_slug expected)
    && str_eqb (rs_source_markdown revision) (nd_source_markdown expected)
    && is_empty_list (rs_embeds revision)
    && is_none (rs_intent revision)
    && is_none (rs_ontology revision)
    && is_none (rs_ai_summary revision)
    && bool_decide (rs_authorship revision = nd_authorship expected)
    && bool_decide (rs_actor revision = nd_actor expected)
    && (rs_created_at revision =? oip_created_at post)%Z
    && bool_decide (rcp_category_id placement = Some (cr_id category))
    && (rcp_assigned_at placement =? oip_created_at post)%Z
    && bool_decide (routes_of db site_id document_id =
                    expected_routes (category_route_path (Some category) (oip_slug post)) post) in
  invalid (negb exact) (about_post post "conflicts with its previously imported record").

(** [INSERT INTO routes .. VALUES (.., 0, ..)] *)
Definition insert_alias (site_id : Uuid) (path : rstr) (document_id : Uuid) (created_at : DateTime) (db : DB)
    : result SqlError DB :=
  fail_if (is_some (routes db !! (site_id, path))) (UniqueFailed (lit "routes.site_id, routes.path"));;
  fail_if (is_none (documents db !! document_id)) ForeignKeyFailed;;
  Ok (set_routes db (<[(site_id, path) := {| route_document_id := document_id;
    route_is_canonical := false; route_created_at := created_at |}]> (routes db))).

Definition import_alias (site_id document_id : Uuid) (alias : OfflineImportAlias) : tx unit :=
  read (ensure_document_route_available site_id document_id (oia_path alias));;
  read (if contains_char 47 (oia_path alias) then fun _ => Ok tt
        else ensure_root_slug_not_category site_id (oia_path alias));;
  execute map_constraint_error (insert_alias site_id (oia_path alias) document_id (oia_created_at alias)).

Fixpoint import_aliases (site_id document_id : Uuid) (aliases : list OfflineImportAlias) : tx unit :=
  match aliases with
  | [] => mret tt
  | a :: rest => import_alias site_id document_id a;; import_aliases site_id document_id rest
  end.

(** The revision that consumed an idempotency key, with its document. *)
Definition revision_with_key (key : rstr) : query (option (Uuid * Uuid)) := fun db =>
  Ok ((fun kv => (rev_document_id kv.2, kv.1)) <$>
      List.find (fun kv => bool_decide (rev_idempotency_key kv.2 = Some key)) (map_to_list (revisions db))).

(** One post; the identifiers are used when it is new. *)
Definition import_post (owner_user_id site_id : Uuid) (source : rstr) (document_id revision_id : Uuid)
    (post : OfflineImportPost) : tx OfflineImportPostOutcome :=
  category_slug ← lift (normalize_new_category_slug (oip_primary_category post));
  category ← read (load_category_by_slug site_id category_slug);
  lift (invalid (negb (bool_decide (cr_status category = Active)))
    (lit "offline import post '" ++ oip_source_id post ++ lit "' targets archived category '"
     ++ category_slug ++ lit "'"));;
  let outcome status := {|
    oio_source_id := oip_source_id post;
    oio_canonical_path := category_route_path (Some category) (oip_slug post); oio_status := status |} in
  key ← lift (offline_import_idempotency_key site_id source (oip_source_id post));
  existing ← read (revision_with_key key);
  match existing with
  | Some (document_id, revision_id) =>
      read (ensure_offline_import_retry_matches site_id source post category document_id revision_id);;
      mret (outcome PostUnchanged)
  | None =>
      document ← create_document_in_transaction (offline_import_document site_id source post)
        document_id revision_id (oip_created_at post) (Some (owner_user_id, cr_id category)) (Some key);
      publish_in_transaction_at (ds_id document) (ds_current_revision_id document) (oip_created_at post);;
      import_aliases site_id (ds_id document) (oip_aliases post);;
      mret (outcome PostImported)
  end.

(** The two loops; [index] is the position in the batch. *)
Fixpoint import_categories (ids : N -> Uuid) (owner_user_id site_id : Uuid) (now : DateTime) (index : N)
    (categories : list OfflineImportCategory) : tx (list bool) :=
  match categories with
  | [] => mret []
  | c :: rest =>
      created ← import_category owner_user_id site_id now (ids index) c;
      others ← import_categories ids owner_user_id site_id now (index + 1) rest;
      mret (created :: others)
  end.
Fixpoint import_posts (ids : N -> Uuid * Uuid) (owner_user_id site_id : Uuid) (source : rstr) (index : N)
    (posts : list OfflineImportPost) : tx (list OfflineImportPostOutcome) :=
  match posts with
  | [] => mret []
  | p :: rest =>
      outcome ← import_post owner_user_id site_id source (ids index).1 (ids index).2 p;
      others ← import_posts ids owner_user_id site_id source (index + 1) rest;
      mret (outcome :: others)
  end.

Definition imported (o : OfflineImportPostOutcome) : bool :=
  match oio_status o with PostImported => true | PostUnchanged => false end.
Definition count_if {A} (p : A -> bool) (l : list A) : N := size_of (List.filter p l).

(** The counters the loops keep. *)
Definition import_report (dry_run renamed : bool) (created : list bool)
    (posts : list OfflineImportPost) (outcomes : list OfflineImportPostOutcome) : OfflineImportReport := {|
  oir_dry_run := dry_run; oir_owner_display_name_updated := renamed;
  oir_categories_created := count_if id created; oir_categories_reused := count_if negb created;
  oir_posts_imported := count_if imported outcomes;
  oir_posts_unchanged := count_if (fun o => negb (imported o)) outcomes;
  oir_aliases_created := foldr N.add 0%N
    (zip_with (fun p o => if imported o then size_of (oip_aliases p) else 0%N) posts outcomes);
  oir_posts := outcomes |}.

Definition with_display_name (name : rstr) (now : DateTime) (u : UserRow) : UserRow := {|
  us_email := us_email u; us_handle := us_handle u; us_display_name := name;
  us_password_phc := us_password_phc u; us_created_at := us_created_at u; us_updated_at := now |}.
(** The owner's name is reconciled: whether it changed, and the new rows. *)
Definition reconcile_owner_name (owner_user_id : Uuid) (name : rstr) (now : DateTime) (accounts : AccountDB)
    : result RepositoryError (bool * AccountDB) :=
  name ← validate_required_text name (lit "offline import owner display name") 200;
  owner ← ok_or (user_table accounts !! owner_user_id) NotFound;
  if str_eqb (us_display_name owner) name then Ok (false, accounts)
  else Ok (true, set_users accounts
                   (<[owner_user_id := with_display_name name now owner]> (user_table accounts))).

(** The content statements of the import. *)
Definition import_content (ids : N -> Uuid) (post_ids : N -> Uuid * Uuid) (owner_user_id site_id : Uuid)
    (batch : OfflineImportBatch) (now : DateTime) : tx (list bool * list OfflineImportPostOutcome) :=
  created ← import_categories ids owner_user_id site_id now 0 (oib_categories batch);
  outcomes ← import_posts post_ids owner_user_id site_id (oib_source batch) 0 (oib_posts batch);
  mret (created, outcomes).

(** Commit, or roll back when it is a dry run. *)
Definition finish (dry_run : bool) (before after : DB * AccountDB) (report : OfflineImportReport)
    : result RepositoryError OfflineImportReport * (DB * AccountDB) :=
  if dry_run then (Ok report, before)
  else if deferred_fks_hold after.1 then (Ok report, after)
  else (Err (storage_error (sql_error_text ForeignKeyFailed)), before).

Definition import_offline_batch_with_reserved_roots (ids : N -> Uuid) (post_ids : N -> Uuid * Uuid)
    (owner_user_id site_id : Uuid) (batch : OfflineImportBatch) (reserved : list rstr) (dry_run : bool)
    (now : DateTime) (state : DB * AccountDB)
    : result RepositoryError OfflineImportReport * (DB * AccountDB) :=
  let '(db, accounts) := state in
  match (validate_offline_import_batch site_id batch reserved;;
         ensure_site_owner owner_user_id site_id db;;
         '(renamed, accounts') ← reconcile_owner_name owner_user_id (oib_owner_display_name batch) now accounts;
         '((created, outcomes), db') ← import_content ids post_ids owner_user_id site_id batch now db;
         Ok (import_report dry_run renamed created (oib_posts batch) outcomes, (db', accounts'))) with
  | Err e => (Err e, state)
  | Ok (report, after) => finish dry_run state after report
  end.

Definition import_offline_batch (ids : N -> Uuid) (post_ids : N -> Uuid * Uuid)
    (owner_user_id site_id : Uuid) (batch : OfflineImportBatch) (dry_run : bool) (now : DateTime)
    (state : DB * AccountDB) : result RepositoryError OfflineImportReport * (DB * AccountDB) :=
  import_offline_batch_with_reserved_roots ids post_ids owner_user_id site_id batch [lit "blog"] dry_run now state.

End import.
