(* ===== verification/StoreSpec.v ===== *)
(** * The abstract content store: guarded row steps and their invariant

    What the storage crate promises, independently of how its SQL is arranged:
    the database evolves by the guarded steps of [content_step], and every state
    reached by them from a well-formed one is well formed ([wf]).  StoreRefine.v
    shows that each operation of the crate is a sequence of these steps. *)

From Stdlib Require Import Bool NArith ZArith Lia.
From S2P Require Import Prelude Text Extern Content Ai2Ai StoreBase StoreTaxonomy StoreContent.

(** [case_rows]: split on the key of every lookup in an updated table. *)
Ltac case_rows :=
  repeat match goal with
  | H : <[_ := _]> _ !! _ = Some _ |- _ => apply lookup_insert_Some in H as [[? ?]|[? ?]]; subst
  end; simplify_eq; cbn in *.

Section spec.
Context `{StoreCodec, Sha256Lib, !LayerCodec}.

(** ** Vocabulary *)

(** The public path of a revision under a placement. *)
Definition placement_path (db : DB) (p : PlacementRow) (slug : rstr) : option rstr :=
  match pl_category_id p with
  | None => Some slug
  | Some c => row ← categories db !! c; Some (cat_slug row ++ lit "/" ++ slug)
  end.

(** Nobody but [id] claims [path] in [site], as a current slug or a route. *)
Definition path_free (db : DB) (site id : Uuid) (path : rstr) : Prop :=
  (forall id' d, documents db !! id' = Some d -> doc_site_id d = site ->
     doc_current_slug d = path -> id' = id) /\
  (forall r, routes db !! (site, path) = Some r -> route_document_id r = id).

Definition key_fresh (db : DB) (key : option rstr) : Prop :=
  forall k rid r, key = Some k -> revisions db !! rid = Some r -> rev_idempotency_key r <> Some k.

Definition category_in_site (db : DB) (site : Uuid) (c : option Uuid) : Prop :=
  forall id, c = Some id -> exists row, categories db !! id = Some row /\ cat_site_id row = site.

(** A placement that belongs to a revision of document [id] in [site]. *)
Definition placement_ok (db : DB) (site id : Uuid) (p : PlacementRow) : Prop :=
  pl_document_id p = id /\ pl_site_id p = site /\ category_in_site db site (pl_category_id p).

(** The row of a revision is its decoded snapshot, whose hash is the hash of
    its content. *)
Record row_stores (rid : Uuid) (r : RevisionRow) (s : RevisionSnapshot) : Prop := {
  st_decodes : revision_of_json (rev_snapshot_json r) = Some s;
  st_id : rs_id s = rid;
  st_document : rs_document_id s = rev_document_id r;
  st_number : rs_revision_number s = rev_number r;
  st_parent : rs_parent_revision_id s = rev_parent_revision_id r;
  st_slug : rs_slug s = rev_slug r;
  st_created_at : rs_created_at s = rev_created_at r;
  st_hash : rs_content_hash s = content_hash_with_ai_summary (rs_title s) (rs_slug s)
    (rs_source_markdown s) (rs_embeds s) (rs_intent s) (rs_ontology s) (rs_ai_summary s);
}.

(** Home pins: slots one to three, each showing a published document, no
    document twice. *)
Definition pins_ok (db : DB) (pins : gmap Z HomePinRow) : Prop :=
  (forall slot p, pins !! slot = Some p -> (1 <= slot <= 3)%Z /\
     exists d, documents db !! hp_document_id p = Some d /\ is_Some (doc_published_revision_id d)) /\
  (forall slot p slot' p', pins !! slot = Some p -> pins !! slot' = Some p' ->
     hp_document_id p = hp_document_id p' -> slot = slot').
Definition comment_ok (db : DB) (c : CommentRow) : Prop :=
  exists d, documents db !! cm_document_id c = Some d /\ doc_site_id d = cm_site_id c.

Definition status_of (published : option Uuid) : DocumentStatus :=
  match published with None => Draft | Some _ => Published end.

Definition move_row (path : rstr) (now : DateTime) (d : DocumentRow) : DocumentRow := {|
  doc_site_id := doc_site_id d; doc_status := doc_status d;
  doc_current_revision_id := doc_current_revision_id d;
  doc_published_revision_id := doc_published_revision_id d;
  doc_current_slug := path; doc_created_at := doc_created_at d; doc_updated_at := now |}.

Definition uncanonical (id : Uuid) (r : RouteRow) : RouteRow :=
  if (route_document_id r =? id)%N
  then {| route_document_id := route_document_id r; route_is_canonical := false;
          route_created_at := route_created_at r |}
  else r.
(** The routes after [id] has been published at [path]. *)
Definition publish_routes (site : Uuid) (path : rstr) (id : Uuid) (now : DateTime)
    (t : gmap (Uuid * rstr) RouteRow) : gmap (Uuid * rstr) RouteRow :=
  let cleared := uncanonical id <$> t in
  <[(site, path) := {|
    route_document_id := id; route_is_canonical := true;
    route_created_at := match cleared !! (site, path) with
                        | Some r => route_created_at r | None => now
                        end |}]> cleared.

(** ** The steps *)

(** Steps that leave every publication as it is. *)
Inductive draft_step (db : DB) : DB -> Prop :=
| step_create id d rid r s p :
    documents db !! id = None -> revisions db !! rid = None ->
    doc_current_revision_id d = rid -> doc_published_revision_id d = None -> doc_status d = Draft ->
    rev_document_id r = id -> rev_number r = 1%N -> rev_parent_revision_id r = None ->
    row_stores rid r s -> key_fresh db (rev_idempotency_key r) ->
    placement_ok db (doc_site_id d) id p ->
    placement_path db p (rev_slug r) = Some (doc_current_slug d) ->
    path_free db (doc_site_id d) id (doc_current_slug d) ->
  draft_step db
      (set_placements (set_revisions (set_documents db (<[id := d]> (documents db)))
         (<[rid := r]> (revisions db))) (<[rid := p]> (revision_categories db)))
| step_revise id d base rid r s p path :
    documents db !! id = Some d -> revisions db !! doc_current_revision_id d = Some base ->
    revisions db !! rid = None ->
    rev_document_id r = id -> rev_number r = (rev_number base + 1)%N ->
    rev_parent_revision_id r = Some (doc_current_revision_id d) ->
    row_stores rid r s -> key_fresh db (rev_idempotency_key r) ->
    placement_ok db (doc_site_id d) id p ->
    placement_path db p (rev_slug r) = Some path ->
    path_free db (doc_site_id d) id path ->
  draft_step db
      (set_placements (set_revisions
         (set_documents db (<[id := advance_current rid path (rev_created_at r) d]> (documents db)))
         (<[rid := r]> (revisions db))) (<[rid := p]> (revision_categories db)))
| step_move id d r p path now :
    documents db !! id = Some d -> revisions db !! doc_current_revision_id d = Some r ->
    doc_published_revision_id d <> Some (doc_current_revision_id d) ->
    placement_ok db (doc_site_id d) id p ->
    placement_path db p (rev_slug r) = Some path ->
    path_free db (doc_site_id d) id path ->
  draft_step db
      (set_placements (set_documents db (<[id := move_row path now d]> (documents db)))
         (<[doc_current_revision_id d := p]> (revision_categories db)))
| step_audit rid r a :
  ai_proposal_audits db !! rid = None -> revisions db !! rid = Some r ->
  rev_document_id r = ad_document_id a ->
  (forall rid' a', ai_proposal_audits db !! rid' = Some a' ->
     ad_message_id a' <> ad_message_id a /\ ad_idempotency_key a' <> ad_idempotency_key a) ->
  draft_step db (set_audits db (<[rid := a]> (ai_proposal_audits db)))
| step_category id row :
  categories db !! id = None -> category_slug_checks (cat_slug row) = true ->
  (forall id' row', categories db !! id' = Some row' -> cat_site_id row' = cat_site_id row ->
     nocase_eqb (cat_slug row') (cat_slug row) = false) ->
  draft_step db (set_categories db (<[id := row]> (categories db)))
| step_category_edit id row row' :
  categories db !! id = Some row ->
  cat_site_id row' = cat_site_id row -> cat_slug row' = cat_slug row ->
  draft_step db (set_categories db (<[id := row']> (categories db)))
| step_series id row c :
  series db !! id = None -> (0 < se_home_position row)%Z ->
  (forall id' row', series db !! id' = Some row' -> se_site_id row' = se_site_id row ->
     se_category_id row' <> se_category_id row) ->
  categories db !! se_category_id row = Some c -> cat_site_id c = se_site_id row ->
  draft_step db (set_series db (<[id := row]> (series db)))
| step_series_edit id row row' :
  series db !! id = Some row -> (0 < se_home_position row')%Z ->
  se_site_id row' = se_site_id row -> se_category_id row' = se_category_id row ->
  draft_step db (set_series db (<[id := row']> (series db)))
| step_item sid did row s d :
  series_items db !! (sid, did) = None -> (0 < si_position row)%Z ->
  series db !! sid = Some s -> se_site_id s = si_site_id row ->
  documents db !! did = Some d -> doc_site_id d = si_site_id row ->
  draft_step db (set_series_items db (<[(sid, did) := row]> (series_items db)))
| step_item_move k row position :
  series_items db !! k = Some row -> (0 < position)%Z ->
  draft_step db (set_series_items db (<[k := {|
    si_site_id := si_site_id row; si_position := position; si_added_at := si_added_at row |}]>
    (series_items db)))
| step_comment id row :
    comments db !! id = None -> comment_ok db row ->
    draft_step db (set_comments db (<[id := row]> (comments db)))
| step_pins pins :
    pins_ok db pins -> draft_step db (set_home_pins db pins).

Inductive content_step (db : DB) : DB -> Prop :=
| step_draft db' : draft_step db db' -> content_step db db'
| step_publish id d rid r p path now :
    documents db !! id = Some d -> revisions db !! rid = Some r -> rev_document_id r = id ->
    revision_categories db !! rid = Some p ->
    placement_path db p (rev_slug r) = Some path ->
    path_free db (doc_site_id d) id path ->
    content_step db
      (set_documents (set_routes db (publish_routes (doc_site_id d) path id now (routes db)))
       (<[id := mark_published rid now d]> (documents db)))
| step_alias id d path now :
    documents db !! id = Some d -> routes db !! (doc_site_id d, path) = None ->
    path_free db (doc_site_id d) id path ->
    content_step db (set_routes db (<[(doc_site_id d, path) := {|
      route_document_id := id; route_is_canonical := false; route_created_at := now |}]> (routes db))).

Lemma draft_steps db db' : rtc draft_step db db' -> rtc content_step db db'.
Proof. apply (rtc_congruence id). apply step_draft. Qed.

(** ** The invariant *)

(** Documents and the revision chain. *)
Record wf_chain (db : DB) : Prop := {
  wf_current id d : documents db !! id = Some d ->
    exists r, revisions db !! doc_current_revision_id d = Some r /\ rev_document_id r = id /\
      forall rid' r', revisions db !! rid' = Some r' -> rev_document_id r' = id ->
        (rev_number r' <= rev_number r)%N;
  wf_published id d p : documents db !! id = Some d -> doc_published_revision_id d = Some p ->
    exists r, revisions db !! p = Some r /\ rev_document_id r = id;
  wf_status id d : documents db !! id = Some d ->
    doc_status d = status_of (doc_published_revision_id d);
  wf_owner rid r : revisions db !! rid = Some r -> is_Some (documents db !! rev_document_id r);
  wf_parent rid r : revisions db !! rid = Some r ->
    match rev_parent_revision_id r with
    | None => rev_number r = 1%N
    | Some q => exists r0, revisions db !! q = Some r0 /\ rev_document_id r0 = rev_document_id r
                           /\ rev_number r = (rev_number r0 + 1)%N
    end;
  wf_number rid r rid' r' : revisions db !! rid = Some r -> revisions db !! rid' = Some r' ->
    rev_document_id r = rev_document_id r' -> rev_number r = rev_number r' -> rid = rid';
  wf_key rid r rid' r' k : revisions db !! rid = Some r -> revisions db !! rid' = Some r' ->
    rev_idempotency_key r = Some k -> rev_idempotency_key r' = Some k -> rid = rid';
  wf_snapshot rid r : revisions db !! rid = Some r -> exists s, row_stores rid r s;
}.

(** Placements, paths and routes. *)
Record wf_paths (db : DB) : Prop := {
  wf_placement rid r d : revisions db !! rid = Some r -> documents db !! rev_document_id r = Some d ->
    exists p, revision_categories db !! rid = Some p /\
      placement_ok db (doc_site_id d) (rev_document_id r) p;
  wf_placed rid p : revision_categories db !! rid = Some p -> is_Some (revisions db !! rid);
  wf_current_path id d r : documents db !! id = Some d ->
    revisions db !! doc_current_revision_id d = Some r ->
    exists p, revision_categories db !! doc_current_revision_id d = Some p /\
      placement_path db p (rev_slug r) = Some (doc_current_slug d);
  wf_slug id d id' d' : documents db !! id = Some d -> documents db !! id' = Some d' ->
    doc_site_id d = doc_site_id d' -> doc_current_slug d = doc_current_slug d' -> id = id';
  wf_route site path r : routes db !! (site, path) = Some r ->
    exists d, documents db !! route_document_id r = Some d /\ doc_site_id d = site;
  wf_route_slug site path r id d : routes db !! (site, path) = Some r ->
    documents db !! id = Some d -> doc_site_id d = site -> doc_current_slug d = path ->
    route_document_id r = id;
  (** The canonical route of a document is the path of its published
      revision; a document that was never published has none. *)
  wf_canonical site path r d : routes db !! (site, path) = Some r -> route_is_canonical r = true ->
    documents db !! route_document_id r = Some d ->
    exists pid pr p, doc_published_revision_id d = Some pid /\ revisions db !! pid = Some pr /\
      revision_categories db !! pid = Some p /\ placement_path db p (rev_slug pr) = Some path;
  wf_canonical_exists id d pid pr : documents db !! id = Some d ->
    doc_published_revision_id d = Some pid -> revisions db !! pid = Some pr ->
    exists p path r, revision_categories db !! pid = Some p /\
      placement_path db p (rev_slug pr) = Some path /\
      routes db !! (doc_site_id d, path) = Some r /\
      route_document_id r = id /\ route_is_canonical r = true;
}.

(** Audits, categories and series. *)
Record wf_rest (db : DB) : Prop := {
  wf_audit rid a : ai_proposal_audits db !! rid = Some a ->
    exists r, revisions db !! rid = Some r /\ rev_document_id r = ad_document_id a;
  wf_audit_unique rid a rid' a' : ai_proposal_audits db !! rid = Some a ->
    ai_proposal_audits db !! rid' = Some a' ->
    ad_message_id a = ad_message_id a' \/ ad_idempotency_key a = ad_idempotency_key a' -> rid = rid';
  wf_category_slug id c : categories db !! id = Some c -> category_slug_checks (cat_slug c) = true;
  wf_category_unique id c id' c' : categories db !! id = Some c -> categories db !! id' = Some c' ->
    cat_site_id c = cat_site_id c' -> nocase_eqb (cat_slug c) (cat_slug c') = true -> id = id';
  wf_series id s : series db !! id = Some s -> (0 < se_home_position s)%Z /\
    exists c, categories db !! se_category_id s = Some c /\ cat_site_id c = se_site_id s;
  wf_series_unique id s id' s' : series db !! id = Some s -> series db !! id' = Some s' ->
    se_site_id s = se_site_id s' -> se_category_id s = se_category_id s' -> id = id';
  wf_item sid did i : series_items db !! (sid, did) = Some i -> (0 < si_position i)%Z /\
    (exists s, series db !! sid = Some s /\ se_site_id s = si_site_id i) /\
    (exists d, documents db !! did = Some d /\ doc_site_id d = si_site_id i);
  wf_comment id c : comments db !! id = Some c -> comment_ok db c;
  wf_pins : pins_ok db (home_pins db);
}.

Record wf (db : DB) : Prop := {
  wf_is_chain : wf_chain db;
  wf_is_paths : wf_paths db;
  wf_is_rest : wf_rest db;
}.

(** ** Preservation: the revision chain *)

Lemma placement_path_mono (db db' : DB) p slug path :
  (forall id c, categories db !! id = Some c -> exists c', categories db' !! id = Some c' /\ cat_slug c' = cat_slug c) ->
  placement_path db p slug = Some path -> placement_path db' p slug = Some path.
Proof.
  intros Hc. unfold placement_path. destruct (pl_category_id p) as [c|]; [|done].
  destruct (categories db !! c) as [row|] eqn:E; [|done]. cbn.
  destruct (Hc c row E) as (row' & -> & Es). cbn. by rewrite Es.
Qed.

(** A step that leaves [documents] and [revisions] alone keeps the chain. *)
Lemma wf_chain_frame db db' :
  documents db' = documents db -> revisions db' = revisions db -> wf_chain db -> wf_chain db'.
Proof. intros Ed Er []. constructor; rewrite ?Ed, ?Er; assumption. Qed.

(** Changing one document's row, keeping its revision pointers legal. *)
Lemma wf_chain_update db db' id d d' :
  wf_chain db -> documents db !! id = Some d ->
  documents db' = <[id := d']> (documents db) -> revisions db' = revisions db ->
  doc_current_revision_id d' = doc_current_revision_id d ->
  doc_status d' = status_of (doc_published_revision_id d') ->
  (forall p, doc_published_revision_id d' = Some p ->
     exists r, revisions db !! p = Some r /\ rev_document_id r = id) ->
  wf_chain db'.
Proof.
  intros Hwf Hd Ed Er Hcur Hst Hpub. constructor; rewrite ?Ed, ?Er; try apply Hwf.
  - intros id' d0 ?. case_rows; [|by eapply wf_current].
    rewrite Hcur. by eapply wf_current.
  - intros id' d0 q ? ?. case_rows; [by eapply Hpub|by eapply wf_published].
  - intros id' d0 ?. case_rows; [done|by eapply wf_status].
  - intros rid r Hr. destruct (wf_owner _ Hwf _ _ Hr) as [d0 ?].
    destruct (decide (rev_document_id r = id)) as [->|]; [rewrite lookup_insert_eq; eauto|].
    rewrite lookup_insert_ne by done. eauto.
Qed.

Lemma wf_chain_create db db' id d rid r s :
  wf_chain db -> documents db !! id = None -> revisions db !! rid = None ->
  doc_current_revision_id d = rid -> doc_published_revision_id d = None -> doc_status d = Draft ->
  rev_document_id r = id -> rev_number r = 1%N -> rev_parent_revision_id r = None ->
  row_stores rid r s -> key_fresh db (rev_idempotency_key r) ->
  documents db' = <[id := d]> (documents db) -> revisions db' = <[rid := r]> (revisions db) ->
  wf_chain db'.
Proof.
  intros Hwf Hd Hr Hcur Hpub Hst Hdoc Hnum Hpar Hs Hk Ed Er.
  assert (forall rid' r', revisions db !! rid' = Some r' -> rev_document_id r' <> id) as Hno.
  { intros rid' r' Hr' E. destruct (wf_owner _ Hwf _ _ Hr'). congruence. }
  assert (forall q r0, revisions db !! q = Some r0 -> <[rid := r]> (revisions db) !! q = Some r0) as Hmono.
  { intros q r0 Hq. rewrite lookup_insert_ne; [done|congruence]. }
  constructor; rewrite ?Ed, ?Er.
  - intros id' d0 ?. case_rows.
    + exists r. rewrite lookup_insert_eq. split_and!; [done..|].
      intros rid' r' ? ?. case_rows; [lia|]. by exfalso; eapply Hno.
    + destruct (wf_current _ Hwf id' d0) as (r0 & Hr0 & ? & Hmax); [done|].
      exists r0. split_and!; [by apply Hmono|done|]. intros rid' r' ? ?. case_rows. by eapply Hmax.
  - intros id' d0 q ? ?. case_rows.
    destruct (wf_published _ Hwf id' d0 q) as (r0 & Hr0 & ?); [done..|]. eauto.
  - intros id' d0 ?. case_rows; [|by eapply wf_status]. by rewrite Hpub.
  - intros rid' r' ?. case_rows; [rewrite lookup_insert_eq; eauto|].
    rewrite lookup_insert_is_Some'. right. by eapply wf_owner.
  - intros rid' r' ?. case_rows; [by rewrite Hpar|].
    pose proof (wf_parent _ Hwf rid' r' ltac:(done)) as Hp.
    destruct (rev_parent_revision_id r'); [|done]. destruct Hp as (r0 & ? & ? & ?). eauto.
  - intros rid1 r1 rid2 r2 ? ? ? ?. case_rows; [done| | |by eapply wf_number].
    + exfalso. by eapply Hno.
    + exfalso. by eapply Hno.
  - intros rid1 r1 rid2 r2 k ? ? ? ?. case_rows; [done| | |by eapply wf_key].
    + exfalso. by eapply Hk.
    + exfalso. by eapply Hk.
  - intros rid' r' ?. case_rows; [by exists s|by eapply wf_snapshot].
Qed.

Lemma wf_chain_revise db db' id d base rid r s path :
  wf_chain db -> documents db !! id = Some d ->
  revisions db !! doc_current_revision_id d = Some base -> revisions db !! rid = None ->
  rev_document_id r = id -> rev_number r = (rev_number base + 1)%N ->
  rev_parent_revision_id r = Some (doc_current_revision_id d) ->
  row_stores rid r s -> key_fresh db (rev_idempotency_key r) ->
  documents db' = <[id := advance_current rid path (rev_created_at r) d]> (documents db) ->
  revisions db' = <[rid := r]> (revisions db) ->
  wf_chain db'.
Proof.
  intros Hwf Hd Hbase Hr Hdoc Hnum Hpar Hs Hk Ed Er.
  assert (forall q r0, revisions db !! q = Some r0 -> <[rid := r]> (revisions db) !! q = Some r0) as Hmono.
  { intros q r0 Hq. rewrite lookup_insert_ne; [done|congruence]. }
  destruct (wf_current _ Hwf id d Hd) as (base' & Hb & Hbdoc & Hmax).
  rewrite Hbase in Hb. injection Hb as <-.
  assert (forall q r0, revisions db !! q = Some r0 -> rev_document_id r0 = id ->
            (rev_number r0 < rev_number r)%N) as Hlt.
  { intros q r0 Hq Hq'. pose proof (Hmax q r0 Hq Hq'). lia. }
  constructor; rewrite ?Ed, ?Er.
  - intros id' d0 ?. case_rows.
    + exists r. rewrite lookup_insert_eq. split_and!; [done..|].
      intros rid' r' ? ?. case_rows; [lia|]. apply N.lt_le_incl. by eapply Hlt.
    + destruct (wf_current _ Hwf id' d0) as (r0 & Hr0 & ? & Hm); [done|].
      exists r0. split_and!; [by apply Hmono|done|]. intros rid' r' ? ?. case_rows. by eapply Hm.
  - intros id' d0 q ? ?. case_rows.
    + destruct (wf_published _ Hwf (rev_document_id r) d q) as (r0 & Hr0 & ?); [done..|]. eauto.
    + destruct (wf_published _ Hwf id' d0 q) as (r0 & Hr0 & ?); [done..|]. eauto.
  - intros id' d0 ?. case_rows; [done|by eapply wf_status].
  - intros rid' r' ?. rewrite lookup_insert_is_Some'. case_rows; [by left|right].
    by eapply wf_owner.
  - intros rid' r' ?. case_rows.
    + rewrite Hpar. exists base. split_and!; [by apply Hmono|done..].
    + pose proof (wf_parent _ Hwf rid' r' ltac:(done)) as Hp.
      destruct (rev_parent_revision_id r'); [|done]. destruct Hp as (r0 & ? & ? & ?). eauto.
  - intros rid1 r1 rid2 r2 ? ? ? ?. case_rows; [done| | |by eapply wf_number].
    + match goal with X : revisions db !! ?q = Some ?r2 |- _ =>
        pose proof (Hlt q r2 X ltac:(congruence)); lia end.
    + match goal with X : revisions db !! ?q = Some ?r2 |- _ =>
        pose proof (Hlt q r2 X ltac:(congruence)); lia end.
  - intros rid1 r1 rid2 r2 k ? ? ? ?. case_rows; [done| | |by eapply wf_key].
    + exfalso. by eapply Hk.
    + exfalso. by eapply Hk.
  - intros rid' r' ?. case_rows; [by exists s|by eapply wf_snapshot].
Qed.

Lemma wf_chain_step db db' : wf_chain db -> content_step db db' -> wf_chain db'.
Proof.
  intros Hwf Hs.
  destruct Hs as [db' [id d rid r s p|id d base rid r s p path| | | | | | | | | | ]| |];
    try by apply (wf_chain_frame db).
  - by apply (wf_chain_create db _ id d rid r s).
  - by apply (wf_chain_revise db _ id d base rid r s path).
  - eapply wf_chain_update; [done|done|reflexivity..| |]; cbn.
    + by eapply wf_status.
    + intros q ?. by eapply wf_published.
  - eapply wf_chain_update; [done|done|reflexivity..|]. intros q [= <-]. eauto.
Qed.

(** ** Preservation: placements, paths and routes *)

(** The tables the path invariants read. *)
Lemma wf_paths_frame db db' :
  documents db' = documents db -> revisions db' = revisions db ->
  revision_categories db' = revision_categories db -> routes db' = routes db ->
  (forall id c, categories db !! id = Some c -> exists c', categories db' !! id = Some c' /\
     cat_slug c' = cat_slug c /\ cat_site_id c' = cat_site_id c) ->
  wf_paths db -> wf_paths db'.
Proof.
  intros Ed Er Ep Et Hc Hwf.
  assert (forall p slug path, placement_path db p slug = Some path ->
            placement_path db' p slug = Some path) as Hpath.
  { intros p slug path. apply placement_path_mono. intros id c (c' & ? & ? & ?)%Hc. eauto. }
  assert (forall site id p, placement_ok db site id p -> placement_ok db' site id p) as Hok.
  { intros site id p (? & ? & Hin). split_and!; [done..|].
    intros c (row & (row' & ? & ? & ?)%Hc & ?)%Hin. exists row'. split; [done|congruence]. }
  constructor; rewrite ?Ed, ?Er, ?Ep, ?Et; try apply Hwf.
  - intros rid r d Hr Hd. destruct (wf_placement _ Hwf rid r d Hr Hd) as (p & ? & ?). eauto.
  - intros id d r Hd Hr. destruct (wf_current_path _ Hwf id d r Hd Hr) as (p & ? & ?). eauto.
  - intros site path r d Hr Hcan Hd.
    destruct (wf_canonical _ Hwf site path r d Hr Hcan Hd) as (pid & pr & p & ? & ? & ? & ?). eauto 8.
  - intros id d pid pr Hd Hp Hr.
    destruct (wf_canonical_exists _ Hwf id d pid pr Hd Hp Hr) as (p & path & r & ? & ? & ? & ? & ?).
    exists p, path, r. eauto 8.
Qed.

(** A placement is checked against categories only. *)
Lemma placement_ok_same_categories db db' site id p :
  categories db' = categories db -> placement_ok db' site id p <-> placement_ok db site id p.
Proof. intros E. unfold placement_ok, category_in_site. by rewrite E. Qed.
Lemma placement_path_same_categories db db' p slug :
  categories db' = categories db -> placement_path db' p slug = placement_path db p slug.
Proof. intros E. unfold placement_path. by rewrite E. Qed.

Section append.
Context (db db' : DB) (id : Uuid) (d' : DocumentRow) (rid : Uuid) (r : RevisionRow) (p : PlacementRow).
Context (Hchain : wf_chain db) (Hpaths : wf_paths db).
Context (Hfresh : revisions db !! rid = None) (Hdoc : rev_document_id r = id)
  (Hcurrent : doc_current_revision_id d' = rid)
  (Hok : placement_ok db (doc_site_id d') id p)
  (Hpath : placement_path db p (rev_slug r) = Some (doc_current_slug d'))
  (Hfree : path_free db (doc_site_id d') id (doc_current_slug d'))
  (Hold : match documents db !! id with
          | None => doc_published_revision_id d' = None
          | Some d => doc_site_id d' = doc_site_id d /\
                      doc_published_revision_id d' = doc_published_revision_id d
          end).
Context (Ed : documents db' = <[id := d']> (documents db))
  (Er : revisions db' = <[rid := r]> (revisions db))
  (Ep : revision_categories db' = <[rid := p]> (revision_categories db))
  (Et : routes db' = routes db) (Ec : categories db' = categories db).

Lemma append_revision_mono q r0 : revisions db !! q = Some r0 -> revisions db' !! q = Some r0.
Proof. intros Hq. rewrite Er, lookup_insert_ne; [done|congruence]. Qed.
Lemma append_placement_mono q p0 :
  revision_categories db !! q = Some p0 -> revision_categories db' !! q = Some p0.
Proof.
  intros Hq. rewrite Ep, lookup_insert_ne; [done|].
  intros ->. destruct (wf_placed _ Hpaths _ _ Hq). congruence.
Qed.
Lemma append_site d : documents db !! id = Some d -> doc_site_id d' = doc_site_id d.
Proof. intros E. rewrite E in Hold. tauto. Qed.
Lemma append_published q : doc_published_revision_id d' = Some q ->
  exists d, documents db !! id = Some d /\ doc_published_revision_id d = Some q.
Proof. destruct (documents db !! id) as [d|]; [|congruence]. exists d. naive_solver congruence. Qed.
#[local] Hint Resolve append_revision_mono append_placement_mono : osb.

Lemma wf_paths_append : wf_paths db'.
Proof.
  pose proof (placement_ok_same_categories db db') as Hoks.
  pose proof (fun p slug => placement_path_same_categories db db' p slug Ec) as Hps.
  constructor.
  - intros rid' r' d0. rewrite Er, Ed, Ep. intros [[<- <-]|[??]]%lookup_insert_Some Hd0.
    + rewrite Hdoc, lookup_insert_eq in Hd0. rewrite lookup_insert_eq. injection Hd0 as <-. exists p. rewrite Hoks, Hdoc by done. eauto.
    + enough (exists d, documents db !! rev_document_id r' = Some d /\ doc_site_id d0 = doc_site_id d)
        as (d & Hd & ->).
      { destruct (wf_placement _ Hpaths rid' r' d) as (p0 & ? & ?); [done..|].
        exists p0. rewrite lookup_insert_ne, Hoks; done. }
      destruct (wf_owner _ Hchain rid' r') as [d Hd]; [done|]. exists d. split; [done|].
      apply lookup_insert_Some in Hd0 as [[? <-]|[??]]; [apply append_site|]; congruence.
  - intros rid' p'. rewrite Er, Ep, lookup_insert_is_Some'. intros [[<- _]|[? ?]]%lookup_insert_Some; [by left|right].
    by eapply wf_placed.
  - intros id' d0 r0. rewrite Ed, Er. intros [[<- <-]|[??]]%lookup_insert_Some Hr0.
    + rewrite Hcurrent, lookup_insert_eq in *. injection Hr0 as <-. exists p.
      rewrite Ep, lookup_insert_eq, Hps. done.
    + destruct (wf_current _ Hchain id' d0) as (r1 & Hr1 & _); [done|].
      rewrite lookup_insert_ne in Hr0 by congruence.
      destruct (wf_current_path _ Hpaths id' d0 r0) as (p0 & ? & ?); [done..|].
      exists p0. rewrite Hps. eauto with osb.
  - intros i1 d1 i2 d2. rewrite Ed.
    intros [[<- <-]|[??]]%lookup_insert_Some [[<- <-]|[??]]%lookup_insert_Some ??;
      [done| | |by eapply wf_slug].
    + symmetry. by eapply Hfree.
    + by eapply Hfree.
  - intros site path rt. rewrite Et, Ed. intros Hrt.
    destruct (wf_route _ Hpaths _ _ _ Hrt) as (d & Hd & <-).
    destruct (decide (id = route_document_id rt)) as [E|];
      [exists d'; rewrite <-E, lookup_insert_eq; split; [done|apply append_site; congruence]|].
    exists d. by rewrite lookup_insert_ne.
  - intros site path rt i d. rewrite Et, Ed.
    intros ? [[<- <-]|[??]]%lookup_insert_Some ??; subst site path.
    + by eapply Hfree.
    + by eapply wf_route_slug.
  - intros site path rt d0. rewrite Et, Ed. intros Hrt Hcan Hd0.
    enough (exists d, documents db !! route_document_id rt = Some d /\
              doc_published_revision_id d0 = doc_published_revision_id d) as (d & Hd & ->).
    { destruct (wf_canonical _ Hpaths site path rt d) as (pid & pr & p0 & ? & ? & ? & ?); [done..|].
      exists pid, pr, p0. rewrite Hps. split_and!; eauto with osb. }
    destruct (wf_route _ Hpaths _ _ _ Hrt) as (d & Hd & _). exists d. split; [done|].
    apply lookup_insert_Some in Hd0 as [[E <-]|[??]]; [|congruence]. rewrite E, Hd in Hold. tauto.
  - intros i d0 pid pr. rewrite Ed, Er, Ep, Et. intros Hd0 Hp Hpr.
    enough (exists d, documents db !! i = Some d /\ doc_site_id d0 = doc_site_id d /\
              doc_published_revision_id d = Some pid) as (d & Hd & -> & Hp').
    { destruct (wf_published _ Hchain i d pid Hd Hp') as (pr' & Hpr' & _).
      rewrite lookup_insert_ne in Hpr by congruence.
      destruct (wf_canonical_exists _ Hpaths i d pid pr)
        as (p0 & path & rt & Hpl & ? & ? & ? & ?); [done..|].
      apply append_placement_mono in Hpl. rewrite Ep in Hpl.
      exists p0, path, rt. rewrite Hps. done. }
    apply lookup_insert_Some in Hd0 as [[<- <-]|[??]]; [|by exists d0].
    apply append_published in Hp as (d & Hd & ?). exists d. split_and!; [done|by apply append_site|done].
Qed.
End append.

Lemma uncanonical_document id r : route_document_id (uncanonical id r) = route_document_id r.
Proof. unfold uncanonical. by destruct (route_document_id r =? id)%N. Qed.
Lemma uncanonical_true id r :
  route_is_canonical (uncanonical id r) = true <->
  route_is_canonical r = true /\ route_document_id r <> id.
Proof.
  unfold uncanonical. destruct (route_document_id r =? id)%N eqn:E; cbn.
  - apply N.eqb_eq in E. naive_solver.
  - apply N.eqb_neq in E. naive_solver.
Qed.
Lemma publish_routes_Some site path id now t k r :
  publish_routes site path id now t !! k = Some r ->
  (k = (site, path) /\ route_document_id r = id /\ route_is_canonical r = true) \/
  (k <> (site, path) /\ exists r0, t !! k = Some r0 /\ r = uncanonical id r0).
Proof.
  unfold publish_routes. intros [[<- <-]|[? Hk]]%lookup_insert_Some; [by left|right].
  rewrite lookup_fmap in Hk. destruct (t !! k) as [r0|]; [|done]. injection Hk as <-. eauto.
Qed.
Lemma publish_routes_mono site path id now t k r :
  t !! k = Some r -> (k = (site, path) -> route_document_id r = id) ->
  exists r', publish_routes site path id now t !! k = Some r' /\
    route_document_id r' = route_document_id r /\
    (route_document_id r <> id -> route_is_canonical r' = route_is_canonical r).
Proof.
  intros Hk Hid. unfold publish_routes. destruct (decide (k = (site, path))) as [->|Hne].
  - rewrite lookup_insert_eq. eexists. split_and!; [done|by rewrite Hid|]. by intros []; apply Hid.
  - rewrite lookup_insert_ne, lookup_fmap, Hk by done. eexists.
    split_and!; [done|by apply uncanonical_document|]. intros Hn. cbn. unfold uncanonical.
    by apply N.eqb_neq in Hn as ->.
Qed.

Lemma wf_paths_move db id d r p path now :
  wf_chain db -> wf_paths db -> documents db !! id = Some d ->
  revisions db !! doc_current_revision_id d = Some r ->
  doc_published_revision_id d <> Some (doc_current_revision_id d) ->
  placement_ok db (doc_site_id d) id p -> placement_path db p (rev_slug r) = Some path ->
  path_free db (doc_site_id d) id path ->
  wf_paths (set_placements (set_documents db (<[id := move_row path now d]> (documents db)))
             (<[doc_current_revision_id d := p]> (revision_categories db))).
Proof.
  intros Hchain Hpaths Hd Hr Hunpub Hok Hpath Hfree.
  destruct (wf_current _ Hchain id d Hd) as (r0 & Hr0 & Hrdoc & _). rewrite Hr in Hr0. injection Hr0 as <-.
  assert (forall i d0 q, documents db !! i = Some d0 -> doc_published_revision_id d0 = Some q ->
            q <> doc_current_revision_id d) as Hq.
  { intros i d0 q Hi Hp ->. destruct (wf_published _ Hchain i d0 _ Hi Hp) as (r1 & ? & ?). congruence. }
  constructor; cbn.
  - intros rid r1 d1 Hr1 Hd1. destruct (decide (rid = doc_current_revision_id d)) as [->|].
    + rewrite lookup_insert_eq. exists p. split; [done|].
      rewrite Hr in Hr1. injection Hr1 as <-. rewrite Hrdoc, lookup_insert_eq in Hd1.
      injection Hd1 as <-. by rewrite Hrdoc.
    + rewrite lookup_insert_ne by done.
      enough (exists d2, documents db !! rev_document_id r1 = Some d2 /\ doc_site_id d1 = doc_site_id d2)
        as (d2 & Hd2 & ->).
      { destruct (wf_placement _ Hpaths rid r1 d2) as (p0 & ? & ?); [done..|]. by exists p0. }
      apply lookup_insert_Some in Hd1 as [[<- <-]|[??]]; eauto.
  - intros rid p0 [[<- _]|[? ?]]%lookup_insert_Some; [by eauto|by eapply wf_placed].
  - intros i d0 r0 [[<- <-]|[? Hd0]]%lookup_insert_Some Hr0; cbn in *.
    + rewrite lookup_insert_eq. exists p. split; [done|]. rewrite Hr in Hr0. by injection Hr0 as <-.
    + rewrite lookup_insert_ne; [by apply (wf_current_path _ Hpaths i d0 r0)|].
      intros E. destruct (wf_current _ Hchain i d0 Hd0) as (? & ? & ? & _). congruence.
  - intros i1 d1 i2 d2 [[<- <-]|[??]]%lookup_insert_Some [[<- <-]|[??]]%lookup_insert_Some ??;
      cbn in *; [done| | |by eapply wf_slug].
    + symmetry. by eapply Hfree.
    + by eapply Hfree.
  - intros site q rt Hrt. destruct (wf_route _ Hpaths _ _ _ Hrt) as (d0 & Hd0 & <-).
    destruct (decide (id = route_document_id rt)) as [->|];
      [|rewrite lookup_insert_ne by done; by eauto].
    rewrite lookup_insert_eq. eexists; split; [done|]. cbn. congruence.
  - intros site q rt i d0 ? [[<- <-]|[??]]%lookup_insert_Some ??; cbn in *; subst.
    + by eapply Hfree.
    + by eapply wf_route_slug.
  - intros site q rt d0 Hrt Hcan Hd0.
    enough (exists d1, documents db !! route_document_id rt = Some d1 /\
              doc_published_revision_id d0 = doc_published_revision_id d1) as (d1 & Hd1 & ->).
    { destruct (wf_canonical _ Hpaths site q rt d1) as (pid & pr & p0 & Hpid & ? & ? & ?); [done..|].
      exists pid, pr, p0. rewrite lookup_insert_ne; [done|].
      intros E. by apply (Hq _ _ _ Hd1 Hpid). }
    apply lookup_insert_Some in Hd0 as [[<- <-]|[??]]; eauto.
  - intros i d0 pid pr Hd0 Hp Hpr.
    enough (exists d1, documents db !! i = Some d1 /\ doc_site_id d0 = doc_site_id d1 /\
              doc_published_revision_id d1 = Some pid) as (d1 & Hd1 & -> & Hp').
    { destruct (wf_canonical_exists _ Hpaths i d1 pid pr) as (p0 & q & rt & ? & ? & ? & ? & ?); [done..|].
      exists p0, q, rt. rewrite lookup_insert_ne; [done|]. intros E. by apply (Hq _ _ _ Hd1 Hp'). }
    apply lookup_insert_Some in Hd0 as [[<- <-]|[??]]; eauto.
Qed.

Lemma wf_paths_publish db id d rid r p path now :
  wf_chain db -> wf_paths db -> documents db !! id = Some d ->
  revisions db !! rid = Some r -> rev_document_id r = id ->
  revision_categories db !! rid = Some p -> placement_path db p (rev_slug r) = Some path ->
  path_free db (doc_site_id d) id path ->
  wf_paths (set_documents (set_routes db (publish_routes (doc_site_id d) path id now (routes db)))
             (<[id := mark_published rid now d]> (documents db))).
Proof.
  intros Hchain Hpaths Hd Hr Hdoc Hp Hpath Hfree.
  assert (forall i d0, <[id := mark_published rid now d]> (documents db) !! i = Some d0 ->
    exists d1, documents db !! i = Some d1 /\ doc_site_id d0 = doc_site_id d1 /\
      doc_current_revision_id d0 = doc_current_revision_id d1 /\
      doc_current_slug d0 = doc_current_slug d1 /\
      (i <> id -> doc_published_revision_id d0 = doc_published_revision_id d1)) as Hback.
  { intros i d0 [[<- <-]|[??]]%lookup_insert_Some; [exists d|exists d0]; by split_and!. }
  constructor; cbn.
  - intros rid' r' d0 Hr' (d1 & Hd1 & -> & _)%Hback.
    destruct (wf_placement _ Hpaths rid' r' d1) as (p0 & ? & ?); [done..|]. by exists p0.
  - apply Hpaths.
  - intros i d0 r0 (d1 & Hd1 & _ & -> & -> & _)%Hback Hr0.
    destruct (wf_current_path _ Hpaths i d1 r0) as (p0 & ? & ?); [done..|]. by exists p0.
  - intros i1 d1 i2 d2 (e1 & ? & -> & _ & -> & _)%Hback (e2 & ? & -> & _ & -> & _)%Hback ??.
    by eapply wf_slug.
  - intros site q rt Hrt. enough (exists d0, documents db !! route_document_id rt = Some d0 /\
      doc_site_id d0 = site) as (d0 & Hd0 & <-).
    { destruct (decide (id = route_document_id rt)) as [->|];
        [|rewrite lookup_insert_ne by done; by eauto].
      rewrite lookup_insert_eq. eexists; split; [done|]. cbn. congruence. }
    apply publish_routes_Some in Hrt as [([= -> ->] & -> & _)|(_ & rt0 & Hrt & ->)]; [by eauto|].
    rewrite uncanonical_document. by eapply wf_route.
  - intros site q rt i d0 Hrt (d1 & Hd1 & -> & _ & -> & _)%Hback Hs Hq. subst.
    apply publish_routes_Some in Hrt as [([= E1 E2] & E3 & _)|(_ & rt0 & Hrt & ->)].
    + rewrite E3. symmetry. by eapply Hfree.
    + rewrite uncanonical_document. by eapply wf_route_slug.
  - intros site q rt d0 Hrt Hcan Hd0.
    apply publish_routes_Some in Hrt as [([= -> ->] & E & _)|(Hne & rt0 & Hrt & ->)].
    + rewrite E, lookup_insert_eq in Hd0. injection Hd0 as <-. exists rid, r, p. done.
    + apply uncanonical_true in Hcan as [Hcan Hid]. rewrite uncanonical_document in Hd0.
      apply Hback in Hd0 as (d1 & Hd1 & _ & _ & _ & Hpub). rewrite (Hpub Hid).
      exact (wf_canonical _ Hpaths site q rt0 d1 Hrt Hcan Hd1).
  - intros i d0 pid pr Hd0 Hpid Hpr.
    apply lookup_insert_Some in Hd0 as [[<- <-]|[Hne Hd0]]; cbn in *.
    + injection Hpid as <-. rewrite Hr in Hpr. injection Hpr as <-.
      exists p, path. unfold publish_routes. rewrite lookup_insert_eq. by eexists.
    + destruct (wf_canonical_exists _ Hpaths i d0 pid pr)
        as (p0 & q & rt & Hp0 & Hq & Hrt & Hid & Hcan); [done..|].
      destruct (publish_routes_mono (doc_site_id d) path id now (routes db) _ rt Hrt)
        as (rt' & Hrt' & Hid' & Hcan').
      { intros [= E1 E2]. apply Hfree. congruence. }
      exists p0, q, rt'. split_and!; [done..|congruence|]. rewrite Hcan'; congruence.
Qed.

Lemma wf_paths_alias db id d path now :
  wf_paths db -> documents db !! id = Some d -> routes db !! (doc_site_id d, path) = None ->
  path_free db (doc_site_id d) id path ->
  wf_paths (set_routes db (<[(doc_site_id d, path) := {|
    route_document_id := id; route_is_canonical := false; route_created_at := now |}]> (routes db))).
Proof.
  intros Hpaths Hd Hnone Hfree. constructor; cbn; try apply Hpaths.
  - intros site q rt [[[= <- <-] <-]|[? Hrt]]%lookup_insert_Some; [by exists d|by eapply wf_route].
  - intros site q rt i d0 [[[= <- <-] <-]|[? Hrt]]%lookup_insert_Some Hd0 Hs Hq; cbn.
    + symmetry. by eapply Hfree.
    + by eapply wf_route_slug.
  - intros site q rt d0 [[[= <- <-] <-]|[? Hrt]]%lookup_insert_Some Hcan Hd0; [done|].
    exact (wf_canonical _ Hpaths site q rt d0 Hrt Hcan Hd0).
  - intros i d0 pid pr Hd0 Hpid Hpr.
    destruct (wf_canonical_exists _ Hpaths i d0 pid pr) as (p0 & q & rt & ? & ? & Hrt & ? & ?); [done..|].
    exists p0, q, rt. rewrite lookup_insert_ne; [done|congruence].
Qed.

Lemma wf_paths_step db db' : wf_chain db -> wf_paths db -> content_step db db' -> wf_paths db'.
Proof.
  intros Hchain Hwf Hs.
  destruct Hs as [db' [id d rid r s p|id d base rid r s p path|id d r p path now
    | |id row|id row row'| | | | | | ]|id d rid r p path now|id d path now].
  - apply (wf_paths_append db _ id d rid r p); try done.
    by match goal with X : documents db !! id = None |- _ => rewrite X end.
  - eapply (wf_paths_append db _ id (advance_current rid path (rev_created_at r) d) rid r p); try done.
    by match goal with X : documents db !! id = Some _ |- _ => rewrite X end.
  - by apply (wf_paths_move db id d r p path now).
  - apply (wf_paths_frame db); try done. by eauto.
  - apply (wf_paths_frame db); try done. intros i c Hc. exists c. cbn.
    rewrite lookup_insert_ne; [done|congruence].
  - apply (wf_paths_frame db); try done. intros i c Hc. cbn.
    destruct (decide (i = id)) as [->|];
      [rewrite lookup_insert_eq|rewrite lookup_insert_ne by done]; [|by eauto].
    exists row'. split_and!; congruence.
  - apply (wf_paths_frame db); try done. by eauto.
  - apply (wf_paths_frame db); try done. by eauto.
  - apply (wf_paths_frame db); try done. by eauto.
  - apply (wf_paths_frame db); try done. by eauto.
  - apply (wf_paths_frame db); try done. by eauto.
  - apply (wf_paths_frame db); try done. by eauto.
  - by apply (wf_paths_publish db id d rid r p path now).
  - by apply wf_paths_alias.
Qed.

(** ** What no step ever does *)

(** A later state keeps every revision and audit verbatim, keeps every
    document in its site, keeps every route pointing at the same document, and
    keeps the site and slug of every category. *)
Record extends (db db' : DB) : Prop := {
  ext_revisions : revisions db ⊆ revisions db';
  ext_audits : ai_proposal_audits db ⊆ ai_proposal_audits db';
  ext_comments : comments db ⊆ comments db';
  ext_documents id d : documents db !! id = Some d ->
    exists d', documents db' !! id = Some d' /\ doc_site_id d' = doc_site_id d /\
      doc_created_at d' = doc_created_at d;
  ext_routes k r : routes db !! k = Some r ->
    exists r', routes db' !! k = Some r' /\ route_document_id r' = route_document_id r;
  ext_categories id c : categories db !! id = Some c ->
    exists c', categories db' !! id = Some c' /\ cat_slug c' = cat_slug c /\ cat_site_id c' = cat_site_id c;
  ext_series id s : series db !! id = Some s ->
    exists s', series db' !! id = Some s' /\ se_site_id s' = se_site_id s /\
      se_category_id s' = se_category_id s;
  ext_published id d : documents db !! id = Some d -> is_Some (doc_published_revision_id d) ->
    exists d', documents db' !! id = Some d' /\ is_Some (doc_published_revision_id d');
}.

#[export] Instance extends_preorder : PreOrder extends.
Proof.
  split.
  - intros db. constructor; eauto.
  - intros db1 db2 db3 E1 E2. constructor.
    + etrans; [apply E1|apply E2].
    + etrans; [apply E1|apply E2].
    + etrans; [apply E1|apply E2].
    + intros id d (d1 & (d2 & ? & ? & ?)%(ext_documents _ _ E2) & ? & ?)%(ext_documents _ _ E1).
      exists d2. split_and!; congruence.
    + intros k r (r1 & (r2 & ? & ?)%(ext_routes _ _ E2) & ?)%(ext_routes _ _ E1).
      exists r2. split; congruence.
    + intros id d (d1 & (d2 & ? & ? & ?)%(ext_categories _ _ E2) & ? & ?)%(ext_categories _ _ E1).
      exists d2. split_and!; congruence.
    + intros id d (d1 & (d2 & ? & ? & ?)%(ext_series _ _ E2) & ? & ?)%(ext_series _ _ E1).
      exists d2. split_and!; congruence.
    + intros id d Hd (d1 & Hd1 & Hp)%(ext_published _ _ E1 id d Hd).
      by apply (ext_published _ _ E2 id d1 Hd1).
Qed.

(** Reading back a row of an updated table. *)
Lemma update_keeps {V} (t : gmap Uuid V) (P : V -> V -> Prop) k v' i x :
  (forall a, P a a) -> (forall w, t !! k = Some w -> P w v') ->
  t !! i = Some x -> exists x', <[k := v']> t !! i = Some x' /\ P x x'.
Proof.
  intros Hrefl Hk Hi. destruct (decide (k = i)) as [->|].
  - exists v'. rewrite lookup_insert_eq. eauto.
  - exists x. rewrite lookup_insert_ne by done. eauto.
Qed.

Lemma extends_frame db db' :
  documents db' = documents db -> revisions db' = revisions db ->
  ai_proposal_audits db' = ai_proposal_audits db -> comments db ⊆ comments db' ->
  (forall k r, routes db !! k = Some r ->
     exists r', routes db' !! k = Some r' /\ route_document_id r' = route_document_id r) ->
  (forall id c, categories db !! id = Some c -> exists c', categories db' !! id = Some c' /\
     cat_slug c' = cat_slug c /\ cat_site_id c' = cat_site_id c) ->
  (forall id s, series db !! id = Some s -> exists s', series db' !! id = Some s' /\
     se_site_id s' = se_site_id s /\ se_category_id s' = se_category_id s) ->
  extends db db'.
Proof. intros Ed Er Ea Eo Et Hc Hs. constructor; rewrite ?Ed, ?Er, ?Ea; eauto. Qed.

Lemma extends_documents db db' id d d' :
  documents db' = <[id := d']> (documents db) ->
  revisions db ⊆ revisions db' -> ai_proposal_audits db' = ai_proposal_audits db ->
  comments db' = comments db ->
  (forall k r, routes db !! k = Some r ->
     exists r', routes db' !! k = Some r' /\ route_document_id r' = route_document_id r) ->
  categories db' = categories db -> series db' = series db ->
  documents db !! id = Some d -> doc_site_id d' = doc_site_id d -> doc_created_at d' = doc_created_at d ->
  (is_Some (doc_published_revision_id d) -> is_Some (doc_published_revision_id d')) ->
  extends db db'.
Proof.
  intros Ed Er Ea Eo Et Ec Es Hd Hsite Hcr Hpub. constructor; rewrite ?Ed, ?Ea, ?Eo, ?Ec, ?Es; eauto.
  - intros i x Hi. destruct (decide (id = i)) as [<-|].
    + exists d'. rewrite lookup_insert_eq. split_and!; congruence.
    + exists x. by rewrite lookup_insert_ne.
  - intros i x Hi Hp. destruct (decide (id = i)) as [<-|].
    + exists d'. rewrite lookup_insert_eq. split; [done|]. apply Hpub. congruence.
    + exists x. by rewrite lookup_insert_ne.
Qed.

Lemma extends_step db db' : content_step db db' -> extends db db'.
Proof.
  intros Hs.
  destruct Hs as [db' [id d rid r s p|id d base rid r s p path|id d r p path now
    |rid r a|id row|id row row'|id row c|id row row'| | |id row| ]|id d rid r p path now|id d path now].
  - constructor; cbn; eauto.
    + by apply insert_subseteq.
    + intros i x Hi. exists x. rewrite lookup_insert_ne; [done|congruence].
    + intros i x Hi ?. exists x. rewrite lookup_insert_ne; [done|congruence].
  - eapply (extends_documents _ _ id d); cbn; eauto. by apply insert_subseteq.
  - eapply (extends_documents _ _ id d); cbn; eauto.
  - constructor; cbn; eauto. by apply insert_subseteq.
  - apply extends_frame; cbn; eauto. intros i x Hi. exists x.
    rewrite lookup_insert_ne; [done|congruence].
  - apply extends_frame; cbn; eauto. intros i x Hi.
    apply (update_keeps _ (fun a b => cat_slug b = cat_slug a /\ cat_site_id b = cat_site_id a) id row');
      try done. intros w Hw. split; congruence.
  - apply extends_frame; cbn; eauto. intros i x Hi. exists x.
    rewrite lookup_insert_ne; [done|congruence].
  - apply extends_frame; cbn; eauto. intros i x Hi.
    apply (update_keeps _ (fun a b => se_site_id b = se_site_id a /\ se_category_id b = se_category_id a)
      id row'); try done. intros w Hw. split; congruence.
  - apply extends_frame; cbn; eauto.
  - apply extends_frame; cbn; eauto.
  - apply extends_frame; cbn; eauto. by apply insert_subseteq.
  - apply extends_frame; cbn; eauto.
  - eapply (extends_documents _ _ id d); cbn; eauto.
    intros k rt Hrt. destruct (publish_routes_mono (doc_site_id d) path id now (routes db) k rt)
      as (r' & ? & ? & _); [done| |by exists r'].
    intros ->. match goal with X : path_free _ _ _ _ |- _ => by apply X end.
  - apply extends_frame; cbn; eauto. intros k rt Hrt. exists rt. split; [|done].
    rewrite lookup_insert_ne; [done|congruence].
Qed.

(** What readers of published content depend on. *)
Definition same_public (db db' : DB) : Prop :=
  routes db' = routes db /\ revisions db ⊆ revisions db' /\
  (forall id d, documents db !! id = Some d ->
  exists d', documents db' !! id = Some d' /\ doc_site_id d' = doc_site_id d /\
    doc_published_revision_id d' = doc_published_revision_id d /\
    doc_created_at d' = doc_created_at d) /\
  (forall id d', documents db' !! id = Some d' -> is_Some (doc_published_revision_id d') ->
  is_Some (documents db !! id)).

#[export] Instance same_public_preorder : PreOrder same_public.
Proof.
  split.
  - intros db. split_and!; eauto.
  - intros db1 db2 db3 (R1 & S1 & D1 & B1) (R2 & S2 & D2 & B2). split_and!.
    + congruence.
    + by etrans.
    + intros id d (d1 & (d2 & ? & ? & ? & ?)%D2 & ? & ? & ?)%D1. exists d2. split_and!; congruence.
    + intros id d3 Hd3 Hp. destruct (B2 id d3 Hd3 Hp) as [d2 Hd2].
      destruct (D2 id d2 Hd2) as (d3' & ? & _ & E & _). apply (B1 id d2 Hd2). congruence.
Qed.

Lemma same_public_update db db' id d d' :
  routes db' = routes db -> revisions db ⊆ revisions db' ->
  documents db' = <[id := d']> (documents db) -> documents db !! id = Some d ->
  doc_site_id d' = doc_site_id d -> doc_published_revision_id d' = doc_published_revision_id d ->
  doc_created_at d' = doc_created_at d -> same_public db db'.
Proof.
  intros Et Er Ed Hd Es Ep Ec. split_and!; [done|done| |].
  - intros i x Hi. rewrite Ed. destruct (decide (id = i)) as [<-|].
    + exists d'. rewrite lookup_insert_eq. split_and!; congruence.
    + exists x. by rewrite lookup_insert_ne.
  - intros i x. rewrite Ed. intros [[<- <-]|[??]]%lookup_insert_Some _; eauto.
Qed.

Lemma draft_step_public db db' : draft_step db db' -> same_public db db'.
Proof.
  intros [id d rid r s p|id d base rid r s p path|id d r p path now| | | | | | | | | ];
    try by (split_and!; cbn; eauto).
  - split_and!; cbn; [done|by apply insert_subseteq| |].
    + intros i x Hi. exists x. rewrite lookup_insert_ne; [done|congruence].
    + intros i x [[<- <-]|[??]]%lookup_insert_Some Hp; [|by eauto].
      match goal with X : doc_published_revision_id d = None |- _ => rewrite X in Hp end.
      by destruct Hp.
  - eapply (same_public_update _ _ id d); cbn; try done. by apply insert_subseteq.
  - by eapply (same_public_update _ _ id d).
Qed.
Lemma drafts_public db db' : rtc draft_step db db' -> same_public db db'.
Proof. induction 1 as [|db1 db2 db3 Hs _ IH]; [done|]. etrans; [by apply draft_step_public|done]. Qed.

(** ** Preservation: audits, categories and series *)

(** Rows that refer to other tables keep referring to them. *)
Lemma wf_rest_extends db db' :
  extends db db' -> wf_rest db ->
  ai_proposal_audits db' = ai_proposal_audits db -> categories db' = categories db ->
  series db' = series db -> series_items db' = series_items db -> comments db' = comments db ->
  home_pins db' = home_pins db -> wf_rest db'.
Proof.
  intros Hext Hwf Ea Ec Es Ei Eo Ep. constructor; rewrite ?Ea, ?Ec, ?Es, ?Ei, ?Eo, ?Ep; try apply Hwf.
  - intros rid a (r & Hr & ?)%(wf_audit _ Hwf). exists r. split; [|done].
    by apply (lookup_weaken _ _ _ _ Hr), Hext.
  - intros sid did i (? & ? & d & Hd & Hsite)%(wf_item _ Hwf). split_and!; [done..|].
    apply (ext_documents _ _ Hext) in Hd as (d' & ? & ? & _). exists d'. split; congruence.
  - intros id c (d & Hd & ?)%(wf_comment _ Hwf).
    apply (ext_documents _ _ Hext) in Hd as (d' & ? & ? & _). exists d'. split; congruence.
  - destruct (wf_pins _ Hwf) as [Hpin Hinj]. split; [|exact Hinj].
    intros slot p (Hslot & d & Hd & Hp)%Hpin. split; [done|]. by apply (ext_published _ _ Hext _ d).
Qed.

Lemma nocase_eqb_sym a b : nocase_eqb a b = nocase_eqb b a.
Proof.
  unfold nocase_eqb. apply eq_true_iff_eq. by rewrite !str_eqb_eq.
Qed.

Lemma wf_rest_step db db' : wf_rest db -> content_step db db' -> wf_rest db'.
Proof.
  intros Hwf Hs. pose proof (extends_step _ _ Hs) as Hext.
  destruct Hs as [db' [id d rid r s p|id d base rid r s p path|id d r p path now
    |rid r a|id row|id row row'|id row c|id row row'|sid did row s d|k row position|id row|pins]
    |id d rid r p path now|id d path now];
    try by apply (wf_rest_extends db).
  - constructor; cbn; try apply Hwf.
    + intros rid' a' [[<- <-]|[??]]%lookup_insert_Some; [by exists r|by eapply wf_audit].
    + intros r1 a1 r2 a2 [[<- <-]|[? Ha]]%lookup_insert_Some [[<- <-]|[? Hb]]%lookup_insert_Some Hor;
        [done| | |by eapply wf_audit_unique].
      * match goal with X : forall rid' a', _ |- _ => destruct (X _ _ Hb) end. naive_solver.
      * match goal with X : forall rid' a', _ |- _ => destruct (X _ _ Ha) end. naive_solver.
  - constructor; cbn; try apply Hwf.
    + intros i c [[<- <-]|[??]]%lookup_insert_Some; [done|by eapply wf_category_slug].
    + intros i1 c1 i2 c2 [[<- <-]|[? Ha]]%lookup_insert_Some [[<- <-]|[? Hb]]%lookup_insert_Some Hsite Hcase;
        [done| | |by eapply wf_category_unique].
      * rewrite nocase_eqb_sym in Hcase. naive_solver congruence.
      * naive_solver congruence.
    + intros i x (? & c & Hc & ?)%(wf_series _ Hwf). split; [done|]. exists c.
      rewrite lookup_insert_ne; [done|congruence].
  - constructor; cbn; try apply Hwf.
    + intros i c [[<- <-]|[??]]%lookup_insert_Some; [|by eapply wf_category_slug].
      match goal with X : cat_slug row' = _ |- _ => rewrite X end. by eapply wf_category_slug.
    + intros i1 c1 i2 c2 [[<- <-]|[? Ha]]%lookup_insert_Some [[<- <-]|[? Hb]]%lookup_insert_Some Hsite Hcase;
        [done| | |by eapply wf_category_unique].
      * eapply (wf_category_unique _ Hwf id row); [done..|congruence|congruence].
      * eapply (wf_category_unique _ Hwf _ c1 id row); [done..|congruence|congruence].
    + intros i x (? & Hc)%(wf_series _ Hwf). split; [done|]. destruct Hc as (c & Hc & Hsite).
      apply (ext_categories _ _ Hext) in Hc as (c' & ? & ? & ?). exists c'. split; [done|congruence].
  - constructor; cbn; try apply Hwf.
    + intros i x [[<- <-]|[??]]%lookup_insert_Some; [by eauto|by eapply wf_series].
    + intros i1 c1 i2 c2 [[<- <-]|[? Ha]]%lookup_insert_Some [[<- <-]|[? Hb]]%lookup_insert_Some Hsite Hcat;
        [done| | |by eapply wf_series_unique]; naive_solver congruence.
    + intros sid did i (? & (x & Hx & ?) & ?)%(wf_item _ Hwf). split_and!; [done| |done].
      exists x. rewrite lookup_insert_ne; [done|congruence].
  - constructor; cbn; try apply Hwf.
    + intros i x [[<- <-]|[??]]%lookup_insert_Some; [|by eapply wf_series]. split; [done|].
      destruct (wf_series _ Hwf id row) as (_ & c & ? & ?); [done|]. exists c. split; congruence.
    + intros i1 c1 i2 c2 [[<- <-]|[? Ha]]%lookup_insert_Some [[<- <-]|[? Hb]]%lookup_insert_Some Hsite Hcat;
        [done| | |by eapply wf_series_unique].
      * eapply (wf_series_unique _ Hwf id row); [done..|congruence|congruence].
      * eapply (wf_series_unique _ Hwf _ c1 id row); [done..|congruence|congruence].
    + intros sid did i (? & (x & Hx & ?) & ?)%(wf_item _ Hwf). split_and!; [done| |done].
      apply (ext_series _ _ Hext) in Hx as (x' & ? & ? & ?). exists x'. split; [done|congruence].
  - constructor; cbn; try apply Hwf.
    intros sid' did' i [[[= <- <-] <-]|[??]]%lookup_insert_Some; [by eauto 8|by eapply wf_item].
  - constructor; cbn; try apply Hwf.
    intros sid did i [[-> <-]|[??]]%lookup_insert_Some; [|by eapply wf_item]. cbn.
    split; [done|]. by eapply wf_item.
  - constructor; cbn; try apply Hwf.
    intros i x [[<- <-]|[? Hx]]%lookup_insert_Some; [done|exact (wf_comment _ Hwf i x Hx)].
  - constructor; cbn; try apply Hwf. done.
Qed.

(** ** The invariant holds forever *)

Lemma wf_step db db' : wf db -> content_step db db' -> wf db'.
Proof.
  intros [Hc Hp Hr] Hs. constructor.
  - by eapply wf_chain_step.
  - by eapply wf_paths_step.
  - by eapply wf_rest_step.
Qed.
Lemma wf_steps db db' : rtc content_step db db' -> wf db -> wf db'.
Proof. induction 1; eauto using wf_step. Qed.
Lemma extends_steps db db' : rtc content_step db db' -> extends db db'.
Proof. induction 1 as [|db1 db2 db3 Hs _ IH]; [done|]. etrans; [by apply extends_step|done]. Qed.

Lemma wf_deferred db : wf db -> deferred_fks_hold db = true.
Proof.
  intros [Hc _ _]. apply deferred_fks_hold_true. split.
  - intros id d Hd. split.
    + destruct (wf_current _ Hc id d Hd) as (r & -> & _). eauto.
    + intros q Hq. destruct (wf_published _ Hc id d q Hd Hq) as (r & -> & _). eauto.
  - intros rid r. apply (wf_owner _ Hc).
Qed.

(** A freshly migrated database, with any sites and users, is well formed. *)
Lemma wf_empty db :
  documents db = ∅ -> revisions db = ∅ -> routes db = ∅ -> ai_proposal_audits db = ∅ ->
  categories db = ∅ -> revision_categories db = ∅ -> series db = ∅ -> series_items db = ∅ ->
  comments db = ∅ -> home_pins db = ∅ -> wf db.
Proof.
  intros Ed Er Et Ea Ec Ep Es Ei Eo Eh.
  split; constructor; rewrite ?Ed, ?Er, ?Et, ?Ea, ?Ec, ?Ep, ?Es, ?Ei, ?Eo, ?Eh;
    try (split; intros *; rewrite ?lookup_empty; done); intros *; rewrite ?lookup_empty; done.
Qed.
End spec.
