(* ===== verification/Samples.v ===== *)
(** * Concrete values at which the theorems are instantiated

    A codec for the JSON layers that has the documented properties of
    [serde_json], and a small site with its owner, on which the storage
    operations evaluate. *)

From Stdlib Require Import Bool NArith ZArith Lia.
From stdpp Require Import countable.
From S2P Require Import Prelude Text Extern Content Ai2Ai StoreBase StoreTaxonomy StoreContent StoreSpec.
Import Toy.

(** ** An injective, NUL-free encoding of countable types *)

Fixpoint digits (p : positive) : list N :=
  match p with xH => [3%N] | xO p => 1%N :: digits p | xI p => 2%N :: digits p end.
Lemma digits_inj p q : digits p = digits q -> p = q.
Proof. revert q. induction p; intros []; cbn; intros [=]; f_equal; auto. Qed.
Lemma digits_nul_free p : 0%N ∉ digits p.
Proof.
  induction p as [p IH|p IH|]; cbn; intros [?|Hin]%elem_of_cons; try done.
  by apply not_elem_of_nil in Hin.
Qed.
Lemma digits_nonempty p : digits p <> [].
Proof. by destruct p. Qed.

Definition to_vec {A} `{Countable A} (a : A) : list N := digits (encode a).
#[export] Instance to_vec_inj {A} `{Countable A} : Inj (=) (=) (to_vec (A := A)).
Proof. intros a b E%digits_inj. by apply (inj encode). Qed.

(** ** Countability of the layers *)

#[export] Instance provenance_eq_dec : EqDecision Provenance.
Proof. solve_decision. Defined.
#[export] Instance provenance_countable : Countable Provenance.
Proof.
  refine (inj_countable' (fun p => (prov_origin p, prov_source_uri p, prov_actor_id p, prov_generated_by p))
    (fun '(a, b, c, d) => {| prov_origin := a; prov_source_uri := b; prov_actor_id := c;
                             prov_generated_by := d |}) _).
  by intros [].
Defined.
#[export] Instance intent_eq_dec : EqDecision IntentLayer.
Proof. solve_decision. Defined.
#[export] Instance intent_countable : Countable IntentLayer.
Proof.
  refine (inj_countable' (fun p => (il_format p, il_source_html p, il_renderer_hints p, il_provenance p))
    (fun '(a, b, c, d) => {| il_format := a; il_source_html := b; il_renderer_hints := c;
                             il_provenance := d |}) _).
  by intros [].
Defined.
#[export] Instance statement_eq_dec : EqDecision OntologyStatement.
Proof. solve_decision. Defined.
#[export] Instance statement_countable : Countable OntologyStatement.
Proof.
  refine (inj_countable' (fun p => (os_subject p, os_predicate p, os_object p, os_evidence p,
                                    os_confirmed_by_author p))
    (fun '(a, b, c, d, e) => {| os_subject := a; os_predicate := b; os_object := c; os_evidence := d;
                                os_confirmed_by_author := e |}) _).
  by intros [].
Defined.
#[export] Instance ontology_eq_dec : EqDecision OntologySidecar.
Proof. solve_decision. Defined.
#[export] Instance ontology_countable : Countable OntologySidecar.
Proof.
  refine (inj_countable' (fun p => (on_schema p, on_statements p))
    (fun '(a, b) => {| on_schema := a; on_statements := b |}) _).
  by intros [].
Defined.
#[export] Instance summary_provenance_eq_dec : EqDecision AiSummaryProvenance.
Proof. solve_decision. Defined.
#[export] Instance summary_eq_dec : EqDecision AiSummary.
Proof. solve_decision. Defined.
#[export] Instance summary_countable : Countable AiSummary.
Proof.
  refine (inj_countable' (fun s => let p := sum_provenance s in
      (sum_text s, sum_source_hash s, (sp_provider p, sp_model p, sp_prompt_version p, sp_generated_at p,
                                       sp_human_reviewed p)))
    (fun '(a, b, (c, d, e, f, g)) => {| sum_text := a; sum_source_hash := b; sum_provenance :=
       {| sp_provider := c; sp_model := d; sp_prompt_version := e; sp_generated_at := f;
          sp_human_reviewed := g |} |}) _).
  by intros [? ? []].
Defined.
#[export] Instance toy_url_countable : Countable toy_url.
Proof.
  refine (inj_countable' (fun u => (tu_text u, tu_scheme u, tu_host u, tu_path u))
    (fun '(a, b, c, d) => {| tu_text := a; tu_scheme := b; tu_host := c; tu_path := d |}) _).
  by intros [].
Defined.
#[export] Instance embed_eq_dec : EqDecision EmbedReference.
Proof. solve_decision. Defined.
#[export] Instance embed_countable : Countable EmbedReference.
Proof.
  refine (inj_countable' (fun e => (em_id e, em_provider e, em_resource_id e,
                                    (em_canonical_url e : toy_url), em_title e, em_consent_purpose_ids e))
    (fun '(a, b, c, d, e, f) => {| em_id := a; em_provider := b; em_resource_id := c;
       em_canonical_url := (d : @Url toy_url_lib); em_title := e; em_consent_purpose_ids := f |}) _).
  by intros [].
Defined.

#[export] Instance toy_layer_codec : LayerCodec := {
  embeds_to_vec := to_vec;
  intent_to_vec := to_vec;
  ontology_to_vec := to_vec;
  summary_to_vec := to_vec;
}.
Lemma toy_codec_faithful : codec_faithful.
Proof.
  split; intros; try apply digits_nul_free; try apply digits_nonempty; apply to_vec_inj.
Qed.

(** ** A store codec and a site *)

#[export] Instance toy_store_codec : StoreCodec := {
  Json := RevisionSnapshot + Ai2AiEnvelope;
  revision_to_json r := Some (inl r);
  revision_of_json j := match j with inl r => Some r | inr _ => None end;
  envelope_to_json e := Some (inr e);
  envelope_of_json j := match j with inr e => Some e | inl _ => None end;
}.
Lemma toy_codec_roundtrip : codec_roundtrip.
Proof. split; eauto. Qed.

(** Site 1 with owner 7 and writer 8. *)
Definition site_db : DB :=
  Build_DB ∅ ∅ ∅ ∅ ∅ ∅ ∅ ∅ ∅
    {[ (1, 7)%N := {| ms_role := Owner; ms_created_at := 0 |};
       (1, 8)%N := {| ms_role := Writer; ms_created_at := 0 |} ]}
    {[ 7%N; 8%N ]} {[ 1%N ]} (Some {| cp_primary_site_id := 1; cp_owner_user_id := 7 |}) ∅.

Definition author : RevisionActor :=
  {| ra_kind := Human; ra_id := lit "owner"; ra_display_name := None |}.
Definition sample_document (slug : rstr) : NewDocument := {|
  nd_site_id := 1; nd_title := lit "Title"; nd_slug := slug; nd_source_markdown := lit "# Body";
  nd_embeds := []; nd_intent := None; nd_ontology := None; nd_ai_summary := None;
  nd_authorship := default_authorship; nd_actor := author |}.
Definition sample_revision (id base : Uuid) (slug : rstr) (key : option rstr) : ProposedRevision := {|
  pr_document_id := id; pr_base_revision_id := base; pr_title := lit "Title 2"; pr_slug := slug;
  pr_source_markdown := lit "# Body 2"; pr_embeds := []; pr_intent := None; pr_ontology := None;
  pr_ai_summary := None; pr_authorship := default_authorship; pr_actor := author;
  pr_idempotency_key := key |}.
Definition sample_envelope (id base : Uuid) : Ai2AiEnvelope := {|
  env_spec_version := lit "1.0"; env_message_id := 900; env_idempotency_key := lit "msg-900";
  env_occurred_at := 0;
  env_actor := {| aa_kind := ActorAgent; aa_id := lit "agent-1"; aa_provider := Some (lit "local");
                  aa_model := Some (lit "model-1") |};
  env_intent := lit "improve the article"; env_proposal := sample_revision id base (lit "hello") None;
  env_policy := {| ap_data_boundary := ApprovedProviders; ap_allowed_provider_ids := [lit "local"];
                   ap_allowed_capabilities := []; ap_max_cost := None; ap_max_tokens := None |};
  env_context_receipts := []; env_provenance := [] |}.
