(* ===== verification/StoreRefine.v ===== *)
(** * The storage operations implement the abstract store

    Each operation of StoreTaxonomy.v and StoreContent.v that succeeds on a
    well-formed database is a sequence of [content_step]s, and of [draft_step]s
    unless it publishes; an operation that
    fails leaves the database as it was. *)

From Stdlib Require Import Bool NArith ZArith Lia.
From S2P Require Import Prelude Text Extern Content Ai2Ai StoreBase StoreTaxonomy StoreContent StoreSpec.

Section refine.
Context `{StoreCodec, Sha256Lib, !LayerCodec}.
Context (Hcodec : codec_roundtrip).

(** ** What the queries and statements establish *)

Lemma load_category_by_id_Ok site c db cat :
  load_category_by_id site c db = Ok cat <->
  exists row, categories db !! c = Some row /\ cat_site_id row = site /\ cat = parse_category_row c row.
Proof.
  unfold load_category_by_id. destruct (categories db !! c) as [row|]; [|naive_solver].
  destruct (cat_site_id row =? site)%N eqn:E; bool_simpl; naive_solver.
Qed.

Lemma path_free_iff site id path db u :
  ensure_document_route_available site id path db = Ok u <-> path_free db site id path.
Proof.
  unfold ensure_document_route_available, path_free, document_has_slug. destruct u.
  destruct (_ || _) eqn:E; bool_simpl.
  - split; [done|]. intros [Hd Hr]. apply orb_true_iff in E as [E|E].
    + apply any_row_true in E as (id' & d & Hd' & E). bool_simpl.
      match goal with X : str_eqb _ _ = true |- _ => apply str_eqb_eq in X end. naive_solver.
    + destruct (routes db !! (site, path)) as [r|]; [|done]. cbn in E. bool_simpl. naive_solver.
  - split; [intros _|done].
    match goal with X : any_row _ _ = false |- _ => rewrite any_row_false in X; rename X into Ha end.
    split.
    + intros id' d Hd <- <-. specialize (Ha id' d Hd). rewrite N.eqb_refl in Ha.
      rewrite (proj2 (str_eqb_eq _ _) eq_refl) in Ha. cbn in Ha. bool_simpl. done.
    + intros r Hr. rewrite Hr in *. cbn in *. bool_simpl. done.
Qed.

Lemma placement_Ok site id rid db pl :
  load_revision_category_placement site id rid db = Ok pl ->
  exists p, revision_categories db !! rid = Some p /\ pl_document_id p = id /\ pl_site_id p = site /\
    rcp_category_id pl = pl_category_id p.
Proof.
  unfold load_revision_category_placement.
  destruct (revision_categories db !! rid) as [p|]; [|done].
  destruct (_ && _) eqn:E; [|done]. intros [= <-]. bool_simpl. naive_solver.
Qed.

(** The path computed from a loaded category is the placement path. *)
Lemma route_path_placement site db p co category slug :
  pl_category_id p = co ->
  transpose_map (fun id => load_category_by_id site id db) co = Ok category ->
  placement_path db p slug = Some (category_route_path category slug).
Proof.
  intros Ep Hc. unfold placement_path. rewrite Ep. apply transpose_map_Ok in Hc.
  destruct co as [c|]; [|by subst].
  destruct Hc as (cat & (row & -> & _ & ->)%load_category_by_id_Ok & ->). done.
Qed.
Lemma transpose_category_in_site site db co category :
  transpose_map (fun id => load_category_by_id site id db) co = Ok category -> category_in_site db site co.
Proof.
  intros Hc c ->. apply transpose_map_Ok in Hc as (cat & (row & ? & ? & _)%load_category_by_id_Ok & _).
  eauto.
Qed.

Lemma revision_category_route_path_Ok site id rid slug active db path :
  revision_category_route_path site id rid slug active db = Ok path ->
  exists p, revision_categories db !! rid = Some p /\ pl_document_id p = id /\ pl_site_id p = site /\
    placement_path db p slug = Some path.
Proof.
  unfold revision_category_route_path. intros Hp. inv_ok.
  match goal with X : load_revision_category_placement _ _ _ _ = Ok _ |- _ =>
    apply placement_Ok in X as (p & ? & ? & ? & E) end.
  exists p. split_and!; [done..|]. by eapply route_path_placement.
Qed.

Lemma update_document_Ok id f db db' d :
  update_document id f db = Ok db' -> documents db !! id = Some d ->
  db' = set_documents db (<[id := f d]> (documents db)).
Proof. unfold update_document. intros Hu Hd. rewrite Hd in Hu. by inv_ok. Qed.

Lemma update_placement_Ok rid id site co actor now db db' :
  update_placement rid id site co actor now db = Ok (1%N, db') ->
  exists p, revision_categories db !! rid = Some p /\ pl_document_id p = id /\ pl_site_id p = site /\
    (forall d, documents db !! id = Some d -> doc_published_revision_id d <> Some rid) /\
    category_in_site db site co /\
    db' = set_placements db (<[rid := {| pl_document_id := id; pl_site_id := site; pl_category_id := co;
      pl_assigned_by_user_id := Some actor; pl_assigned_at := now |}]> (revision_categories db)).
Proof.
  unfold update_placement. destruct (revision_categories db !! rid) as [p|]; [|done].
  destruct ((pl_document_id p =? id)%N && (pl_site_id p =? site)%N) eqn:E; [|done].
  intros Hu. inv_ok. bool_simpl. subst. exists p. split_and!; [done..| | |done].
  - intros d Hd. rewrite Hd in *. cbn in *. by bool_simpl.
  - intros c ->. cbn in *. bool_simpl.
    destruct (categories db !! c) as [row|]; [|done]. cbn in *. bool_simpl. eauto.
Qed.

Lemma insert_document_Ok id row db db' :
  insert_document id row db = Ok db' ->
  documents db !! id = None /\ db' = set_documents db (<[id := row]> (documents db)).
Proof. unfold insert_document. intros Hi. inv_ok. by destruct (documents db !! id). Qed.

(** The placement given to a new revision by the trigger. *)
Definition inherited (db : DB) (d : DocumentRow) (row : RevisionRow) : PlacementRow := {|
  pl_document_id := rev_document_id row; pl_site_id := doc_site_id d;
  pl_category_id := parent ← rev_parent_revision_id row;
                    placement ← revision_categories db !! parent;
                    pl_category_id placement;
  pl_assigned_by_user_id := None; pl_assigned_at := rev_created_at row |}.

Lemma insert_revision_Ok s key db u db' d :
  insert_revision s key db = Ok (u, db') -> documents db !! rs_document_id s = Some d ->
  exists row, revisions db !! rs_id s = None /\ key_fresh db key /\
    revision_of_json (rev_snapshot_json row) = Some s /\
    rev_document_id row = rs_document_id s /\ rev_number row = rs_revision_number s /\
    rev_parent_revision_id row = rs_parent_revision_id s /\ rev_slug row = rs_slug s /\
    rev_idempotency_key row = key /\ rev_created_at row = rs_created_at s /\
    db' = set_placements (set_revisions db (<[rs_id s := row]> (revisions db)))
            (<[rs_id s := inherited db d row]> (revision_categories db)).
Proof.
  unfold insert_revision. intros Hi Hd. inv_tx. unfold insert_revision_row in *. inv_ok.
  unfold default_category_placement in *. cbn in *. rewrite Hd in *. inv_ok.
  match goal with X : revision_to_json s = Some ?j |- _ => rename X into Hj end.
  destruct (proj1 Hcodec s) as (j & Hj' & Hdec). rewrite Hj in Hj'. injection Hj' as <-.
  eexists {| rev_document_id := rs_document_id s |}. cbn. split_and!; try done.
  - by destruct (revisions db !! rs_id s).
  - intros k rid r -> Hr. cbn in *.
    match goal with X : any_row (fun _ r => bool_decide _) _ = false |- _ =>
      rewrite any_row_false in X; specialize (X _ _ Hr) end.
    by bool_simpl.
Qed.

Lemma with_computed_hash_stores rid row s :
  revision_of_json (rev_snapshot_json row) = Some (with_computed_hash s) ->
  rs_id s = rid -> rev_document_id row = rs_document_id s -> rev_number row = rs_revision_number s ->
  rev_parent_revision_id row = rs_parent_revision_id s -> rev_slug row = rs_slug s ->
  rev_created_at row = rs_created_at s -> row_stores rid row (with_computed_hash s).
Proof. intros. constructor; cbn; congruence. Qed.

(** The placement a revision inherits is one of its own document's. *)
Lemma inherited_ok db id d row :
  wf db -> documents db !! id = Some d -> rev_document_id row = id ->
  rev_parent_revision_id row = Some (doc_current_revision_id d) ->
  placement_ok db (doc_site_id d) id (inherited db d row).
Proof.
  intros Hwf Hd Hdoc Hpar. split_and!; [done..|]. cbn. rewrite Hpar. cbn.
  destruct (wf_current _ (wf_is_chain _ Hwf) id d Hd) as (r & Hr & Hrd & _).
  destruct (wf_placement _ (wf_is_paths _ Hwf) _ r d Hr) as (p & Hp & _ & _ & Hin); [congruence|].
  rewrite Hp. cbn. exact Hin.
Qed.

(** ** Assigning a category to a draft *)

Lemma revision_of_Some db id rid r :
  revision_of db id rid = Some r <-> revisions db !! rid = Some r /\ rev_document_id r = id.
Proof.
  unfold revision_of. destruct (revisions db !! rid) as [r0|]; cbn; [|naive_solver].
  destruct (rev_document_id r0 =? id)%N eqn:E; bool_simpl; naive_solver.
Qed.

Lemma document_in_site_Ok id site db d :
  match documents db !! id with
  | Some d => if (doc_site_id d =? site)%N then Ok d else Err NotFound
  | None => Err NotFound
  end = Ok d <-> documents db !! id = Some d /\ doc_site_id d = site.
Proof.
  destruct (documents db !! id) as [d0|]; [|naive_solver].
  destruct (doc_site_id d0 =? site)%N eqn:E; bool_simpl; naive_solver.
Qed.

Lemma set_slug_if_current_move path now d :
  set_slug_if_current (doc_site_id d) (doc_current_revision_id d) path now d = move_row path now d.
Proof. unfold set_slug_if_current. by rewrite !N.eqb_refl. Qed.

(** What [assign_revision_category_in_transaction] does to the tables. *)
Lemma assign_effect actor site id rid co now db pl db' :
  assign_revision_category_in_transaction actor site id rid co now db = Ok (pl, db') ->
  exists d r p path, documents db !! id = Some d /\ doc_site_id d = site /\
    doc_current_revision_id d = rid /\ doc_published_revision_id d <> Some rid /\
    revisions db !! rid = Some r /\ rev_document_id r = id /\
    placement_ok db site id p /\ pl_category_id p = co /\ pl_assigned_at p = now /\
    placement_path db p (rev_slug r) = Some path /\ path_free db site id path /\
    db' = set_placements (set_documents db (<[id := move_row path now d]> (documents db)))
            (<[rid := p]> (revision_categories db)).
Proof.
  unfold assign_revision_category_in_transaction. intros Ha. inv_tx.
  match goal with X : match documents db !! id with _ => _ end = Ok _ |- _ =>
    apply document_in_site_Ok in X as [Hd <-] end.
  bool_simpl. subst.
  match goal with X : revision_of _ _ _ = Some _ |- _ => apply revision_of_Some in X as [Hr Hrd] end.
  match goal with X : ensure_document_route_available _ _ _ _ = _ |- _ =>
    apply path_free_iff in X as Hfree end.
  match goal with X : update_placement _ _ _ _ _ _ _ = _ |- _ =>
    apply update_placement_Ok in X as (p0 & ? & ? & ? & Hnp & Hin & ->) end.
  match goal with X : update_document _ _ _ = _ |- _ => eapply update_document_Ok in X as ->; [|exact Hd] end.
  match goal with X : transpose_map _ co = _ |- _ => rename X into Hc end.
  match goal with X : documents db !! id = Some ?d, Y : revisions db !! _ = Some ?r |- _ =>
    exists d, r, {| pl_document_id := id; pl_site_id := doc_site_id d; pl_category_id := co;
                    pl_assigned_by_user_id := Some actor; pl_assigned_at := now |} end.
  eexists. split_and!; try done; [by eapply route_path_placement; [|eassumption]|].
  cbn. by rewrite set_slug_if_current_move.
Qed.

Lemma assign_steps actor site id rid co now db pl db' :
  assign_revision_category_in_transaction actor site id rid co now db = Ok (pl, db') ->
  draft_step db db'.
Proof.
  intros (d & r & p & path & Hd & <- & <- & ? & ? & ? & ? & _ & _ & ? & ? & ->)%assign_effect.
  by apply (step_move db id d r p path now).
Qed.

(** ** Creating a document *)

(** The snapshot holds the new document's content, unchanged. *)
Definition created_from (input : NewDocument) (id rid : Uuid) (now : DateTime) (s : RevisionSnapshot) : Prop :=
  s = with_computed_hash {|
    rs_schema_version := CONTENT_SCHEMA_VERSION; rs_id := rid; rs_document_id := id;
    rs_revision_number := 1; rs_parent_revision_id := None; rs_title := nd_title input;
    rs_slug := nd_slug input; rs_source_markdown := nd_source_markdown input;
    rs_embeds := nd_embeds input; rs_intent := nd_intent input; rs_ontology := nd_ontology input;
    rs_ai_summary := nd_ai_summary input; rs_authorship := nd_authorship input;
    rs_actor := nd_actor input; rs_content_hash := []; rs_created_at := now |}.

Definition draft_row (site rid : Uuid) (path : rstr) (now : DateTime) : DocumentRow := {|
  doc_site_id := site; doc_status := Draft; doc_current_revision_id := rid;
  doc_published_revision_id := None; doc_current_slug := path;
  doc_created_at := now; doc_updated_at := now |}.

(** What a successful creation did to the tables. *)
Lemma create_document_effect input id rid now ic key db snap db' :
  create_document_in_transaction input id rid now ic key db = Ok (snap, db') ->
  exists r p path, documents db !! id = None /\ revisions db !! rid = None /\
    rev_document_id r = id /\ rev_number r = 1%N /\ rev_parent_revision_id r = None /\
    rev_idempotency_key r = key /\ key_fresh db key /\
    row_stores rid r (ds_revision snap) /\ created_from input id rid now (ds_revision snap) /\
    placement_ok db (nd_site_id input) id p /\ pl_category_id p = snd <$> ic /\ pl_assigned_at p = now /\
    placement_path db p (rev_slug r) = Some path /\ path_free db (nd_site_id input) id path /\
    ds_id snap = id /\ ds_current_revision_id snap = rid /\
    db' = set_placements (set_revisions (set_documents db
            (<[id := draft_row (nd_site_id input) rid path now]> (documents db)))
            (<[rid := r]> (revisions db))) (<[rid := p]> (revision_categories db)).
Proof.
  unfold create_document_in_transaction. intros Hc. cbn zeta in Hc.
  match type of Hc with context [with_computed_hash ?s0] => set (rev := s0) in Hc end.
  assert (created_from input id rid now (with_computed_hash rev)) as Hfrom by done.
  assert (rs_id rev = rid /\ rs_document_id rev = id /\ rs_revision_number rev = 1%N /\
          rs_parent_revision_id rev = None /\ rs_created_at rev = now) as (Eid & Edoc & Enum & Epar & Ecr)
    by done.
  clearbody rev. inv_tx. cbn [with_computed_hash rs_slug rs_id ds_revision ds_id ds_current_revision_id] in *.
  match goal with X : ensure_document_route_available _ _ _ _ = _ |- _ =>
    apply path_free_iff in X as Hfree end.
  match goal with X : transpose_map _ ic = Ok ?c |- _ => rename X into Hcat; set (category := c) in * end.
  match goal with X : insert_document _ _ _ = _ |- _ => apply insert_document_Ok in X as [Hnew ->] end.
  match type of Hfree with path_free _ _ _ ?q => set (path := q) in * end.
  match goal with X : insert_revision _ _ _ = _ |- _ =>
    eapply insert_revision_Ok in X as (row & Hfresh & Hkey & Hdec & Hrd & Hrn & Hrp & Hrs & Hrk & Hrc & E);
      [|apply lookup_insert_eq] end.
  subst. cbn in *.
  match goal with X : match ic with _ => _ end _ = _ |- _ => rename X into Hassign end.
  fold (draft_row (nd_site_id input) (rs_id rev) path (rs_created_at rev)) in Hassign.
  set (d0 := draft_row (nd_site_id input) (rs_id rev) path (rs_created_at rev)) in *.
  enough (exists p, placement_ok db (nd_site_id input) (rs_document_id rev) p /\
            pl_category_id p = snd <$> ic /\ pl_assigned_at p = rs_created_at rev /\
            placement_path db p (rev_slug row) = Some path /\
            db' = set_placements (set_revisions (set_documents db
              (<[rs_document_id rev := d0]> (documents db))) (<[rs_id rev := row]> (revisions db)))
              (<[rs_id rev := p]> (revision_categories db))) as (p & Hok & Hpc & Hpa & Hpath & ->).
  { assert (row_stores (rs_id rev) row (with_computed_hash rev)) as Hstores.
    { apply with_computed_hash_stores; congruence. }
    exists row, p, path.
    split_and!; first [done|exact Hpath|exact Hfree|congruence]. }
  destruct ic as [[actor c]|]; inv_tx.
  - match goal with X : assign_revision_category_in_transaction _ _ _ _ _ _ _ = _ |- _ =>
      apply assign_effect in X as (d & r & p & q & Hd & _ & _ & _ & Hr & _ & Hok & Hpc & Hpa & Hq & _ & ->) end.
    cbn in Hd, Hr. rewrite lookup_insert_eq in Hd. rewrite lookup_insert_eq in Hr. injection Hd as <-. injection Hr as <-.
    exists p. assert (placement_path db p (rev_slug row) = Some path) as Hpath.
    { rewrite Hrs. eapply route_path_placement; [done|exact Hcat]. }
    assert (q = path) as ->.
    { change (placement_path db p (rev_slug row) = Some q) in Hq. congruence. }
    split_and!; [exact Hok|done..|]. cbn. rewrite insert_insert_eq.
    unfold set_placements. cbn. by rewrite insert_insert_eq.
  - exists (inherited (set_documents db (<[rs_document_id rev := d0]> (documents db))) d0 row).
    unfold inherited. rewrite Hrp, Epar.
    split_and!; [|done|done|by rewrite Hrs; cbn in *; injection Hcat as <-|done].
    split_and!; [done..|]. intros c; discriminate.
Qed.

Lemma create_document_steps input id rid now ic key db snap db' :
  create_document_in_transaction input id rid now ic key db = Ok (snap, db') ->
  draft_step db db' /\
  exists d r, documents db' !! id = Some d /\ doc_site_id d = nd_site_id input /\
    doc_current_revision_id d = rid /\ doc_published_revision_id d = None /\
    revisions db' !! rid = Some r /\ row_stores rid r (ds_revision snap).
Proof.
  intros (r & p & path & ? & ? & ? & ? & ? & <- & ? & ? & _ & ? & _ & _ & ? & ? & _ & _ & ->)%create_document_effect.
  split.
  - by apply (step_create db _ (draft_row (nd_site_id input) rid path now) _ r (ds_revision snap) p);
      try done; congruence.
  - exists (draft_row (nd_site_id input) rid path now), r. cbn. by rewrite !lookup_insert_eq.
Qed.

(** ** Appending a revision *)

Lemma current_revision_Some (db : DB) id d r :
  (d ← documents db !! id; r ← revisions db !! doc_current_revision_id d; Some (d, r)) = Some (d, r) <->
  documents db !! id = Some d /\ revisions db !! doc_current_revision_id d = Some r.
Proof.
  destruct (documents db !! id) as [d0|]; cbn; [|naive_solver].
  destruct (revisions db !! doc_current_revision_id d0) as [r0|] eqn:E; cbn; naive_solver.
Qed.

(** The revision holds the proposed content, unchanged. *)
Definition carries (input : ProposedRevision) (s : RevisionSnapshot) : Prop :=
  rs_title s = pr_title input /\ rs_slug s = pr_slug input /\
  rs_source_markdown s = pr_source_markdown input /\ rs_embeds s = pr_embeds input /\
  rs_intent s = pr_intent input /\ rs_ontology s = pr_ontology input /\
  rs_ai_summary s = pr_ai_summary input /\ rs_authorship s = pr_authorship input /\
  rs_actor s = pr_actor input.

(** What a successful append did to the tables. *)
Lemma append_effect input rid now ca db s db' :
  wf db ->
  append_revision_in_transaction_with_category input rid now ca db = Ok (s, db') ->
  let id := pr_document_id input in
  exists d base r p path, documents db !! id = Some d /\
    doc_current_revision_id d = pr_base_revision_id input /\
    revisions db !! doc_current_revision_id d = Some base /\
    revisions db !! rid = None /\ rev_document_id r = id /\
    rev_number r = (rev_number base + 1)%N /\
    rev_parent_revision_id r = Some (doc_current_revision_id d) /\
    rev_idempotency_key r = pr_idempotency_key input /\
    row_stores rid r s /\ key_fresh db (rev_idempotency_key r) /\
    placement_ok db (doc_site_id d) id p /\ placement_path db p (rev_slug r) = Some path /\
  path_free db (doc_site_id d) id path /\ carries input s /\
    db' = set_placements (set_revisions
            (set_documents db (<[id := advance_current rid path (rev_created_at r) d]> (documents db)))
            (<[rid := r]> (revisions db))) (<[rid := p]> (revision_categories db)).
Proof.
  intros Hwf. unfold append_revision_in_transaction_with_category. intros Ha. inv_tx.
  match goal with X : (let '(_, _) := ?x in _) _ = _ |- _ => destruct x as [d base] end. inv_tx.
  match goal with X : context [with_computed_hash ?s0] |- _ => set (rev := s0) in * end.
  assert (rs_id rev = rid /\ rs_document_id rev = pr_document_id input /\
        rs_revision_number rev = (rev_number base + 1)%N /\ carries input (with_computed_hash rev) /\
          rs_parent_revision_id rev = Some (pr_base_revision_id input) /\ rs_created_at rev = now)
    as (Eid & Edoc & Enum & Eslug & Epar & Ecr) by done.
  clearbody rev. cbn zeta. cbn [with_computed_hash rs_slug rs_id rs_created_at] in *. bool_simpl.
  match goal with X : documents db !! _ ≫= _ = _ |- _ => apply current_revision_Some in X as [Hd Hbase] end.
  match goal with X : insert_revision _ _ _ = _ |- _ =>
    eapply insert_revision_Ok in X as (row & Hfresh & Hkey & Hdec & Hrd & Hrn & Hrp & Hrs & Hrk & Hrc & E);
      [|cbn; rewrite Edoc; exact Hd] end.
  cbn in *. rewrite Eid in *. rewrite <-Hrk in Hkey.
  match goal with X : doc_current_revision_id d = _ |- _ => rename X into Hcur end.
  match goal with X : match ca with _ => _ end _ = Ok (_, ?d4) |- _ => rename X into Hca; rename d4 into db4 end.
  enough (exists p, placement_ok db (doc_site_id d) (pr_document_id input) p /\
            db4 = set_placements (set_revisions db (<[rid := row]> (revisions db)))
                    (<[rid := p]> (revision_categories db))) as (p & Hok & ->).
  { match goal with X : revision_category_route_path _ _ _ _ _ _ = _ |- _ =>
      apply revision_category_route_path_Ok in X as (p' & Hp' & _ & _ & Hpath) end.
    cbn in Hp'. rewrite lookup_insert_eq in Hp'. injection Hp' as <-.
    match goal with X : ensure_document_route_available _ _ _ _ = _ |- _ =>
      apply path_free_iff in X as Hfree end.
    match goal with X : update_document _ _ _ = _ |- _ =>
      eapply update_document_Ok in X as ->; [|exact Hd] end.
    assert (row_stores rid row (with_computed_hash rev)) as Hstores.
    { apply with_computed_hash_stores; congruence. }
    rewrite <-Hrs in Hpath. rewrite <-Hrc.
    exists d, base, row, p. eexists.
    do 14 (split; [first [done|exact Hpath|exact Hfree|congruence]|]). done. }
  subst x2. destruct ca as [[actor co]|]; inv_tx.
  - match goal with X : negb _ = false |- _ => apply negb_false_iff, N.eqb_eq in X as -> end.
    match goal with X : update_placement _ _ _ _ _ _ _ = _ |- _ =>
      apply update_placement_Ok in X as (p0 & _ & _ & _ & _ & Hin & ->) end.
    eexists. split; [|unfold set_placements; cbn; by rewrite insert_insert_eq].
    split_and!; [done..|exact Hin].
  - exists (inherited db d row). split; [|done]. apply inherited_ok; congruence.
Qed.

Lemma append_steps input rid now ca db s db' :
  wf db -> append_revision_in_transaction_with_category input rid now ca db = Ok (s, db') ->
  draft_step db db'.
Proof.
  intros Hwf (d & base & r & p & path & ? & _ & ? & ? & ? & ? & ? & _ & ? & ? & ? & ? & ? & _ & ->)%append_effect;
    [|done].
  by apply (step_revise db (pr_document_id input) d base rid r s p path).
Qed.

(** ** Series items *)

Lemma insert_series_item_Ok sid did row db db' :
  insert_series_item sid did row db = Ok db' ->
  series_items db !! (sid, did) = None /\ (0 < si_position row)%Z /\
  (exists s, series db !! sid = Some s /\ se_site_id s = si_site_id row) /\
  (exists d, documents db !! did = Some d /\ doc_site_id d = si_site_id row) /\
  db' = set_series_items db (<[(sid, did) := row]> (series_items db)).
Proof.
  unfold insert_series_item. intros Hi. inv_ok. bool_simpl.
  repeat match goal with X : is_some_and _ _ = true |- _ =>
    apply is_some_and_true in X as (? & ? & ?) end.
  bool_simpl. assert (series_items db !! (sid, did) = None) by by destruct (series_items db !! _).
  eauto 10.
Qed.

(** The item loop and the publication hook touch [series_items] only, and
    their steps are possible whatever the other tables hold. *)
Definition same_series (db db0 : DB) : Prop :=
  series db0 = series db /\ series_items db0 = series_items db /\
  forall id d, documents db !! id = Some d ->
    exists d', documents db0 !! id = Some d' /\ doc_site_id d' = doc_site_id d.
Definition items_steps (db db' : DB) : Prop :=
  exists items, series_items db ⊆ items /\ db' = set_series_items db items /\
  forall db0, same_series db db0 -> rtc draft_step db0 (set_series_items db0 items).

Lemma same_series_refl db : same_series db db.
Proof. split_and!; eauto. Qed.
Lemma set_series_items_same db db0 : same_series db db0 -> set_series_items db0 (series_items db) = db0.
Proof. intros (_ & <- & _). by destruct db0. Qed.

#[local] Instance items_steps_preorder : PreOrder items_steps.
Proof.
  split.
  - intros db. exists (series_items db). split_and!; [done|by destruct db|].
    intros db0 E. by rewrite (set_series_items_same db).
  - intros d1 d2 d3 (i1 & Hi1 & -> & H12) (i2 & Hi2 & -> & H23).
    exists i2. split_and!; [by etrans|done|].
    intros db0 E. etrans; [by apply H12|].
    apply (H23 (set_series_items db0 i1)). destruct E as (E1 & E2 & E3). by split_and!.
Qed.
Lemma items_steps_rtc db db' : items_steps db db' -> rtc draft_step db db'.
Proof. intros (items & _ & -> & Hs). apply Hs, same_series_refl. Qed.

Lemma insert_series_item_steps sid did row db db' :
  insert_series_item sid did row db = Ok db' -> items_steps db db'.
Proof.
  intros (Hnone & ? & (s & ? & ?) & (d & Hd & Hsite) & ->)%insert_series_item_Ok.
  eexists. split_and!; [by apply insert_subseteq|done|].
  intros db0 (E1 & E2 & E3). apply rtc_once. rewrite <-E2. destruct (E3 _ _ Hd) as (d' & ? & ?).
  apply (step_item db0 sid did row s d'); congruence.
Qed.

Lemma ensure_series_item_steps site id rid now db u db' :
  ensure_series_item_for_revision_in_transaction site id rid now db = Ok (u, db') -> items_steps db db'.
Proof.
  unfold ensure_series_item_for_revision_in_transaction. intros He. inv_tx.
  match goal with X : match ?o with _ => _ end _ = _ |- _ => destruct o as [sid|] end; inv_tx; [|done].
  match goal with X : (if ?b then _ else _) _ = _ |- _ => destruct b end; inv_tx; [done|].
  by eapply insert_series_item_steps.
Qed.

Lemma insert_series_items_steps index site sid t ids db u db' :
  insert_series_items_from index site sid t ids db = Ok (u, db') -> items_steps db db'.
Proof.
  revert index db. induction ids as [|id ids IH]; intros index db Hi; cbn in Hi; inv_tx; [done|].
  etrans; [by eapply insert_series_item_steps|by eapply IH].
Qed.

(** ** Publishing *)

Lemma upsert_route_Ok site path id now db db' rt :
  upsert_route site path id now (set_routes db (uncanonical id <$> routes db)) = Ok db' ->
  routes db' !! (site, path) = Some rt -> route_document_id rt = id ->
  db' = set_routes db (publish_routes site path id now (routes db)).
Proof.
  unfold upsert_route, publish_routes. cbn. intros Hu Hrt Hid.
  destruct ((uncanonical id <$> routes db) !! (site, path)) as [r|] eqn:E; inv_ok; cbn in *.
  - rewrite lookup_insert_eq in Hrt. injection Hrt as <-. cbn in *. subst. by rewrite N.eqb_refl.
  - done.
Qed.

(** What a successful publication did to the tables: the route, the published
    pointer and possibly a series item. *)
Lemma publish_effect id rid now db u db' :
  wf db -> publish_in_transaction_at id rid now db = Ok (u, db') ->
  exists d r s p path items, documents db !! id = Some d /\ revisions db !! rid = Some r /\
    rev_document_id r = id /\ row_stores rid r s /\ revision_categories db !! rid = Some p /\
    placement_path db p (rev_slug r) = Some path /\ path_free db (doc_site_id d) id path /\
  series_items db ⊆ items /\ rtc draft_step db (set_series_items db items) /\
    db' = set_documents (set_routes (set_series_items db items)
            (publish_routes (doc_site_id d) path id now (routes db)))
            (<[id := mark_published rid now d]> (documents db)).
Proof.
  intros Hwf. unfold publish_in_transaction_at, clear_canonical. intros Hp. inv_tx.
  match goal with X : revision_of _ _ _ = Some _ |- _ => apply revision_of_Some in X as [Hr Hrd] end.
  match goal with X : documents db !! id = Some ?d |- _ => rename X into Hd; rename d into d end.
  destruct (wf_snapshot _ (wf_is_chain _ Hwf) _ _ Hr) as [s Hs].
  match goal with X : revision_of_json _ = Some ?s1 |- _ =>
    rewrite (st_decodes _ _ _ Hs) in X; injection X as <- end.
  match goal with X : revision_category_route_path _ _ _ _ _ _ = _ |- _ =>
    apply revision_category_route_path_Ok in X as (p & Hp & _ & _ & Hpath) end.
  rewrite (st_slug _ _ _ Hs) in Hpath.
  match goal with X : ensure_document_route_available _ _ _ _ = _ |- _ =>
    apply path_free_iff in X as Hfree end.
  bool_simpl.
  match goal with X : upsert_route _ _ _ _ _ = _ |- _ =>
    eapply (upsert_route_Ok _ _ id now db) in X as ->; [|done|done] end.
  match goal with X : ensure_series_item_for_revision_in_transaction _ _ _ _ _ = _ |- _ => rename X into Hi end.
  apply ensure_series_item_steps in Hi as (items & Hsub & -> & Hsteps). cbn in *.
  match goal with X : update_document _ _ _ = _ |- _ => eapply update_document_Ok in X as ->; [|exact Hd] end.
  do 6 eexists. do 9 (split; [first [done|exact Hpath|exact Hfree|by apply Hsteps; split_and!; eauto]|]).
  done.
Qed.

Lemma publish_steps id rid now db u db' :
  wf db -> publish_in_transaction_at id rid now db = Ok (u, db') -> rtc content_step db db'.
Proof.
  intros Hwf (d & r & s & p & path & items & ? & ? & ? & ? & ? & ? & ? & ? & Hsteps & ->)%publish_effect;
    [|done].
  eapply rtc_r; [by apply draft_steps|].
  by apply (step_publish (set_series_items db items) id d rid r p path now).
Qed.

(** ** Proposal audits *)

Lemma insert_ai_proposal_steps rec db u db' :
  insert_ai_proposal rec db = Ok (u, db') -> draft_step db db'.
Proof.
  unfold insert_ai_proposal. intros Hi. inv_tx. unfold insert_audit in *. inv_ok. bool_simpl. cbn in *.
  repeat match goal with
  | X : is_some_and _ _ = true |- _ => apply is_some_and_true in X as (r & Hr & ?)
  | X : any_row (fun _ a => (_ =? _)%N) _ = false |- _ => rewrite any_row_false in X; rename X into Hm
  | X : any_row (fun _ a => str_eqb _ _) _ = false |- _ => rewrite any_row_false in X; rename X into Hk
  end.
  bool_simpl. eapply (step_audit db _ r); [|done|done|].
  - by destruct (ai_proposal_audits db !! au_accepted_revision_id rec).
  - intros rid' a' Ha'. specialize (Hm _ _ Ha'). specialize (Hk _ _ Ha'). cbn in *. bool_simpl.
    split; [done|]. intros E. rewrite E, (proj2 (str_eqb_eq _ _) eq_refl) in Hk. done.
Qed.

(** ** Categories *)

Lemma insert_category_steps id row db db' : insert_category id row db = Ok db' ->
  draft_step db db' /\ db' = set_categories db (<[id := row]> (categories db)).
Proof.
  unfold insert_category, category_has_slug. intros Hi. inv_ok. bool_simpl.
  match goal with X : any_row _ _ = false |- _ => rewrite any_row_false in X; rename X into Hu end.
  split; [|done]. apply step_category; [by destruct (categories db !! id)|done|].
  intros id' row' Hrow Hsite. specialize (Hu _ _ Hrow). apply andb_false_iff in Hu as [Hu|Hu]; [|done].
  bool_simpl. congruence.
Qed.

Lemma create_category_steps owner site input id now db cat db' :
  create_category_in_transaction owner site input id now db = Ok (cat, db') -> draft_step db db'.
Proof.
  unfold create_category_in_transaction. intros Hc. inv_tx.
  match goal with X : insert_category _ _ _ = _ |- _ => by apply insert_category_steps in X as [? _] end.
Qed.

(** An [UPDATE] of one row, if it exists. *)
Lemma alter_steps {V} (t : gmap Uuid V) (set : gmap Uuid V -> DB) f id :
  (forall v, t !! id = Some v -> draft_step (set t) (set (<[id := f v]> t))) ->
  rtc draft_step (set t) (set (alter f id t)).
Proof.
  intros Hs. destruct (t !! id) as [v|] eqn:E.
  - rewrite (proj2 (map_eq_iff (alter f id t) (<[id := f v]> t))); [by apply rtc_once, Hs|].
    intros i. destruct (decide (i = id)) as [->|].
    + by rewrite lookup_alter_eq, E, lookup_insert_eq.
    + by rewrite lookup_alter_ne, lookup_insert_ne.
  - rewrite (proj2 (map_eq_iff (alter f id t) t)); [done|].
    intros i. destruct (decide (i = id)) as [->|].
    + by rewrite lookup_alter_eq, E.
    + by rewrite lookup_alter_ne.
Qed.

Lemma set_categories_id db : set_categories db (categories db) = db.
Proof. by destruct db. Qed.
Lemma set_series_id db : set_series db (series db) = db.
Proof. by destruct db. Qed.

Lemma update_category_row_steps site id title description theme now db :
  rtc draft_step db (update_category_row site id title description theme now db).
Proof.
  rewrite <-(set_categories_id db) at 1.
  apply (alter_steps (categories db) (set_categories db)). intros c Hc. cbn.
  apply (step_category_edit (set_categories db (categories db)) id c); [done| |];
    by destruct (cat_site_id c =? site)%N.
Qed.
Lemma archive_category_row_steps site id now db :
  rtc draft_step db (archive_category_row site id now db).
Proof.
  rewrite <-(set_categories_id db) at 1.
  apply (alter_steps (categories db) (set_categories db)). intros c Hc. cbn.
  apply (step_category_edit (set_categories db (categories db)) id c); [done| |];
    by destruct (cat_site_id c =? site)%N.
Qed.

(** ** Series *)

Lemma insert_series_steps id row db db' : insert_series id row db = Ok db' -> draft_step db db'.
Proof.
  unfold insert_series. intros Hi. inv_ok. bool_simpl.
  match goal with X : any_row _ _ = false |- _ => rewrite any_row_false in X; rename X into Hu end.
  match goal with X : is_some_and _ _ = true |- _ => apply is_some_and_true in X as (c & Hc & ?) end.
  bool_simpl. apply (step_series db id row c); [by destruct (series db !! id)|done| |done|done].
  intros id' row' Hrow Hsite E. specialize (Hu _ _ Hrow). rewrite Hsite, E, !N.eqb_refl in Hu. done.
Qed.

Lemma create_series_steps owner site cid sid now db s db' :
  create_series_for_category_in_transaction owner site cid sid now db = Ok (s, db') ->
  rtc draft_step db db'.
Proof.
  unfold create_series_for_category_in_transaction, backfill_series_items_in_transaction. intros Hc. inv_tx.
  match goal with X : insert_series _ _ _ = _ |- _ => apply insert_series_steps in X end.
  match goal with X : insert_series_items_from _ _ _ _ _ _ = _ |- _ =>
    apply insert_series_items_steps, items_steps_rtc in X end.
  by eapply rtc_l.
Qed.

Lemma touch_series_steps site sid now db : wf db -> rtc draft_step db (touch_series site sid now db).
Proof.
  intros Hwf. rewrite <-(set_series_id db) at 1.
  apply (alter_steps (series db) (set_series db)). intros c Hc.
  destruct (wf_series _ (wf_is_rest _ Hwf) _ _ Hc) as [? _].
  apply (step_series_edit (set_series db (series db)) sid c); [done| | |];
    by destruct (se_site_id c =? site)%N.
Qed.

Lemma reorder_steps index site sid ids db u db' :
  reorder_from index site sid ids db = Ok (u, db') -> rtc draft_step db db'.
Proof.
  revert index db. induction ids as [|id ids IH]; intros index db Hr; cbn in Hr; inv_tx; [done|].
  etrans; [|by eapply IH].
  match goal with X : set_item_position _ _ _ _ _ = _ |- _ => rename X into Hset end.
  unfold set_item_position in Hset. destruct (series_items db !! (sid, id)) as [i|] eqn:Hi; [|by simplify_eq].
  destruct (si_site_id i =? site)%N; [|by simplify_eq]. inv_ok. bool_simpl.
  by apply rtc_once, step_item_move.
Qed.
End refine.
