(* ===== verification/FeedRefine.v ===== *)
(** * Comments, home pins and series editing implement the abstract store *)

From Stdlib Require Import Bool NArith ZArith Lia.
From S2P Require Import Prelude Text Extern Content Ai2Ai StoreBase StoreTaxonomy StoreContent StoreFeed StoreSpec StoreRefine.

Section feed.
Context `{StoreCodec, Sha256Lib, !LayerCodec}.

Lemma set_home_pins_twice (db : DB) a b : set_home_pins (set_home_pins db a) b = set_home_pins db b.
Proof. done. Qed.

Lemma is_public_published d : is_public d = true -> is_Some (doc_published_revision_id d).
Proof. unfold is_public. by destruct (doc_published_revision_id d). Qed.

Lemma ensure_pinnable_Ok db ids u : ensure_pinnable ids db = Ok u ->
  Forall (fun id => exists d, documents db !! id = Some d /\ is_Some (doc_published_revision_id d)) ids.
Proof.
  unfold ensure_pinnable. rewrite for_each_Ok. intros Hf. eapply Forall_impl; [exact Hf|].
  intros id Hid%ensure_Ok.
  apply is_some_and_true in Hid as (d & ? & ?%is_public_published). eauto.
Qed.

Lemma insert_home_pin_Ok slot row db db' : insert_home_pin slot row db = Ok db' ->
  (1 <= slot <= 3)%Z /\
  (forall slot' p, home_pins db !! slot' = Some p -> hp_document_id p <> hp_document_id row) /\
  db' = set_home_pins db (<[slot := row]> (home_pins db)).
Proof.
  unfold insert_home_pin. intros Hi. inv_ok. bool_simpl. split_and!; [lia..| |done].
  intros slot' p Hp E. match goal with X : any_row _ _ = false |- _ => rewrite any_row_false in X;
    specialize (X _ _ Hp) end. bool_simpl. done.
Qed.

(** Inserting the pins one by one. *)
Lemma insert_home_pins_effect slot admin now ids db u db' :
  insert_home_pins_from slot admin now ids db = Ok (u, db') -> pins_ok db (home_pins db) ->
  Forall (fun id => exists d, documents db !! id = Some d /\ is_Some (doc_published_revision_id d)) ids ->
  exists pins, db' = set_home_pins db pins /\ pins_ok db pins.
Proof.
  revert slot db. induction ids as [|id ids IH]; intros slot db Hi Hok Hids; cbn in Hi; inv_tx.
  { exists (home_pins db'). split; [by destruct db'|done]. }
  apply Forall_cons in Hids as [(d & Hd & Hpub) Hids].
  match goal with X : insert_home_pin _ _ _ = _ |- _ =>
    apply insert_home_pin_Ok in X as (Hslot & Hne & ->) end.
  match goal with X : insert_home_pins_from _ _ _ _ _ = _ |- _ =>
    apply IH in X as (pins & -> & Hpins); [by exists pins|..|done] end.
  destruct Hok as [Hpin Hinj]. split; cbn.
  - intros s p [[<- <-]|[? Hp]]%lookup_insert_Some; [by eauto|by eapply Hpin].
  - intros s p s' p' [[<- <-]|[? Hp]]%lookup_insert_Some [[<- <-]|[? Hp']]%lookup_insert_Some E;
      [done| | |by eapply Hinj].
    + exfalso. by eapply (Hne s' p').
    + exfalso. by eapply (Hne s p).
Qed.

Lemma replace_home_pins_steps slot admin ids now db u u' db' :
  ensure_pinnable ids db = Ok u ->
  insert_home_pins_from slot admin now ids (set_home_pins db ∅) = Ok (u', db') -> draft_step db db'.
Proof.
  intros Hp%ensure_pinnable_Ok Hi.
  apply insert_home_pins_effect in Hi as (pins & -> & Hpins); [exact (step_pins db pins Hpins)|done|done].
Qed.

Lemma insert_comment_steps id row db db' : insert_comment id row db = Ok db' ->
  draft_step db db' /\ db' = set_comments db (<[id := row]> (comments db)).
Proof.
  unfold insert_comment. intros Hi. inv_ok. bool_simpl. split; [|done].
  match goal with X : is_some_and _ _ = true |- _ => apply is_some_and_true in X as (d & Hd & ?) end.
  bool_simpl. apply step_comment; [by destruct (comments db !! id)|by exists d].
Qed.

Lemma update_series_steps site sid cid title description theme now db :
  wf db -> rtc draft_step db
    (touch_series site sid now (update_category_row site cid title description theme now db)).
Proof.
  intros Hwf. etrans; [apply update_category_row_steps|]. apply touch_series_steps.
  by eapply wf_steps; [apply draft_steps, update_category_row_steps|].
Qed.
Lemma archive_series_steps site sid cid now db :
  wf db -> rtc draft_step db (touch_series site sid now (archive_category_row site cid now db)).
Proof.
  intros Hwf. etrans; [apply archive_category_row_steps|]. apply touch_series_steps.
  by eapply wf_steps; [apply draft_steps, archive_category_row_steps|].
Qed.

(** A loaded series stays loadable. *)
Lemma load_series_by_id_Ok site id db :
  (exists s, load_series_by_id site id db = Ok s) <->
  exists row c, series db !! id = Some row /\ se_site_id row = site /\
    categories db !! se_category_id row = Some c /\ cat_site_id c = site.
Proof.
  unfold load_series_by_id. setoid_rewrite ok_or_Ok. split.
  - intros [s [Hin%list_elem_of_In Hs]%find_some]. unfold series_records in Hin.
    apply list_elem_of_omap in Hin as ([id' row] & Hrow%elem_of_map_to_list & Hsel). cbn in Hsel.
    unfold series_select in Hsel. destruct (categories db !! se_category_id row) as [c|] eqn:Hc; [|done].
    cbn in Hsel. destruct (cat_site_id c =? se_site_id row)%N eqn:E; [|done]. injection Hsel as <-.
    cbn in Hs. bool_simpl. subst. by exists row, c.
  - intros (row & c & Hrow & Hsite & Hc & Hcs).
    destruct (List.find _ _) as [s|] eqn:Hf; [by exists s|exfalso].
    assert (exists s, series_select db id row = Some s /\ sr_id s = id /\ sr_site_id s = site) as (s & Hsel & Ei & Es).
    { unfold series_select. rewrite Hc. cbn. rewrite Hcs, Hsite, N.eqb_refl. eexists. by split_and!. }
    assert (In s (series_records db)) as Hin.
    { apply list_elem_of_In, list_elem_of_omap. exists (id, row). by rewrite elem_of_map_to_list. }
    apply (find_none _ _ Hf) in Hin. by rewrite Ei, Es, !N.eqb_refl in Hin.
Qed.
Lemma load_series_extends db db' site id s : extends db db' -> load_series_by_id site id db = Ok s ->
  exists s', load_series_by_id site id db' = Ok s'.
Proof.
  intros Hext Hs. apply load_series_by_id_Ok.
  destruct (proj1 (load_series_by_id_Ok site id db)) as (row & c & Hrow & <- & Hc & Hcs); [by exists s|].
  apply (ext_series _ _ Hext) in Hrow as (row' & Hrow' & Hs' & Hcat).
  apply (ext_categories _ _ Hext) in Hc as (c' & Hc' & _ & Hcs'). exists row', c'. split_and!; congruence.
Qed.
End feed.
