(* ===== verification/ImportRefine.v ===== *)
(** * The offline import implements the abstract store

    An import is a sequence of [content_step]s; it keeps every row it finds
    ([keeps]); and the record it leaves of each post is the one a retry
    compares with ([post_imported]). *)

From Stdlib Require Import Bool NArith ZArith Lia.
From S2P Require Import Prelude Text Extern Content Ai2Ai StoreBase Accounts StoreTaxonomy StoreContent OfflineImport StoreSpec StoreRefine.

Section import.
Context `{StoreCodec, Sha256Lib, !LayerCodec}.
Context (Hcodec : codec_roundtrip).

(** ** Rows that stay as they are *)

Record keeps (db db' : DB) : Prop := {
  keeps_documents : documents db ⊆ documents db';
  keeps_revisions : revisions db ⊆ revisions db';
  keeps_placements : revision_categories db ⊆ revision_categories db';
  keeps_categories : categories db ⊆ categories db';
  keeps_routes : routes db ⊆ routes db';
  keeps_new_routes k r : routes db' !! k = Some r ->
    routes db !! k = Some r \/ documents db !! route_document_id r = None;
}.

#[export] Instance keeps_preorder : PreOrder keeps.
Proof.
  split.
  - intros db. constructor; eauto.
  - intros db1 db2 db3 [D1 R1 P1 C1 T1 N1] [D2 R2 P2 C2 T2 N2].
    constructor; [by etrans..|]. intros k r [Hr|Hr]%N2; [by apply N1|right].
    destruct (documents db1 !! route_document_id r) as [d|] eqn:Hd; [|done].
    apply (lookup_weaken _ _ _ _ Hd) in D1. congruence.
Qed.

(** ** What the queries of the import read *)

Lemma nocase_eqb_trans a b c : nocase_eqb a b = true -> nocase_eqb b c = true -> nocase_eqb a c = true.
Proof. unfold nocase_eqb. rewrite !str_eqb_eq. congruence. Qed.

Lemma category_by_slug_Ok site slug db cat : wf db ->
  load_category_by_slug site slug db = Ok cat <->
  exists id row, categories db !! id = Some row /\ category_has_slug site slug id row = true /\
    cat = parse_category_row id row.
Proof.
  intros Hwf. unfold load_category_by_slug.
  destruct (List.find _ _) as [[id row]|] eqn:Hf.
  - apply find_some in Hf as [Hin%list_elem_of_In%elem_of_map_to_list Hs]. cbn in Hs.
    split; [intros [= <-]; by exists id, row|]. intros (id' & row' & Hrow & Hs' & ->).
    unfold category_has_slug in *. bool_simpl.
    assert (id = id') as <-; [|congruence].
    eapply (wf_category_unique _ (wf_is_rest _ Hwf)); [done|done|congruence|].
    eapply nocase_eqb_trans; [done|]. by rewrite nocase_eqb_sym.
  - split; [done|]. intros (id & row & Hrow & Hs & _).
    pose proof (find_none _ _ Hf (id, row)) as Hn. cbn in Hn. rewrite Hs in Hn.
    discriminate Hn. by apply list_elem_of_In, elem_of_map_to_list.
Qed.

Lemma revision_with_key_Some key db did rid : wf_chain db ->
  revision_with_key key db = Ok (Some (did, rid)) <->
  exists r, revisions db !! rid = Some r /\ rev_idempotency_key r = Some key /\ rev_document_id r = did.
Proof.
  intros Hwf. unfold revision_with_key. destruct (List.find _ _) as [[q r]|] eqn:Hf; cbn.
  - apply find_some in Hf as [Hin%list_elem_of_In%elem_of_map_to_list Hk%bool_decide_eq_true]. cbn in Hk.
    split; [intros [= <- <-]; by exists r|]. intros (r' & Hr' & Hk' & <-).
    assert (q = rid) as <- by by eapply (wf_key _ Hwf). do 3 f_equal. congruence.
  - split; [done|]. intros (r & Hr & Hk & _).
    pose proof (find_none _ _ Hf (rid, r)) as Hn. cbn in Hn. rewrite Hk, bool_decide_true in Hn by done.
    discriminate Hn. by apply list_elem_of_In, elem_of_map_to_list.
Qed.

(** The route map of a document, entry by entry. *)
Definition route_entry (t : gmap (Uuid * rstr) RouteRow) (site id : Uuid) (path : rstr)
    : option (bool * DateTime) :=
  r ← t !! (site, path);
  if (route_document_id r =? id)%N then Some (route_is_canonical r, route_created_at r) else None.

Lemma routes_of_lookup db site id path : routes_of db site id !! path = route_entry (routes db) site id path.
Proof.
  apply option_eq. intros e. unfold routes_of, route_entry.
  assert (forall p x, (p, x) ∈ omap (fun kv : Uuid * rstr * RouteRow =>
      if (kv.1.1 =? site)%N && (route_document_id kv.2 =? id)%N
      then Some (kv.1.2, (route_is_canonical kv.2, route_created_at kv.2)) else None)
      (map_to_list (routes db)) <-> route_entry (routes db) site id p = Some x) as Hin.
  { intros p x. rewrite list_elem_of_omap. unfold route_entry. split.
    - intros ([[s q] r] & Hr%elem_of_map_to_list & E). cbn in E.
      destruct (_ && _) eqn:Eb; [|done]. injection E as <- <-. bool_simpl. subst. cbn.
      rewrite Hr. cbn. by rewrite N.eqb_refl.
    - destruct (routes db !! (site, p)) as [r|] eqn:Hr; [|done]. cbn.
      destruct (route_document_id r =? id)%N eqn:Eb; [|done]. intros [= <-].
      exists (site, p, r). rewrite elem_of_map_to_list. split; [done|]. cbn. by rewrite N.eqb_refl, Eb. }
  fold (route_entry (routes db) site id path). rewrite <-Hin. split.
  - apply elem_of_list_to_map_2.
  - intros Hx. apply elem_of_list_to_map_1'; [|done]. intros y Hy. apply Hin in Hx. apply Hin in Hy. congruence.
Qed.

Lemma routes_of_keeps db db' site id d : keeps db db' -> documents db !! id = Some d ->
  routes_of db' site id = routes_of db site id.
Proof.
  intros Hk Hd. apply map_eq. intros path. rewrite !routes_of_lookup. unfold route_entry.
  destruct (routes db !! (site, path)) as [r|] eqn:Hr.
  - by rewrite (lookup_weaken _ _ _ _ Hr (keeps_routes _ _ Hk)).
  - destruct (routes db' !! (site, path)) as [r|] eqn:Hr'; [|done]. cbn.
    destruct (keeps_new_routes _ _ Hk _ _ Hr') as [E|Hn]; [congruence|].
    destruct (route_document_id r =? id)%N eqn:E; [bool_simpl; congruence|done].
Qed.

(** ** Categories *)

(** The declaration [c] is stored, with the same metadata and active. *)
Definition category_imported (site : Uuid) (db : DB) (c : OfflineImportCategory) : Prop :=
  exists slug title description cat,
    normalize_new_category_slug (oic_slug c) = Ok slug /\
    validate_required_text (oic_title c) (lit "category title") 200 = Ok title /\
    validate_optional_text (oic_description c) (lit "category description") 2000 = Ok description /\
    load_category_by_slug site slug db = Ok cat /\
    cr_status cat = Active /\ cr_title cat = title /\ cr_description cat = description.

Lemma category_by_slug_keeps db db' site slug cat : wf db -> wf db' -> keeps db db' ->
  load_category_by_slug site slug db = Ok cat -> load_category_by_slug site slug db' = Ok cat.
Proof.
  intros Hwf Hwf' Hk. rewrite !category_by_slug_Ok by done. intros (id & row & Hrow & ? & ->).
  exists id, row. split_and!; [|done..].
  apply (lookup_weaken _ _ _ _ Hrow). apply (keeps_categories _ _ Hk).
Qed.
Lemma category_imported_keeps site db db' c : wf db -> wf db' -> keeps db db' ->
  category_imported site db c -> category_imported site db' c.
Proof.
  intros Hwf Hwf' Hk (slug & title & description & cat & ? & ? & ? & ? & ? & ? & ?).
  exists slug, title, description, cat. split_and!; try done. by apply (category_by_slug_keeps db).
Qed.

(** An import step: it evolves the store and keeps what it finds. *)
Definition import_step (db db' : DB) : Prop := rtc content_step db db' /\ keeps db db'.
#[export] Instance import_step_preorder : PreOrder import_step.
Proof.
  split; [by split|]. intros x y z [S1 K1] [S2 K2]. split; [by etrans|by etrans].
Qed.
Lemma import_step_wf db db' : wf db -> import_step db db' -> wf db'.
Proof. intros Hwf [Hs _]. by eapply wf_steps. Qed.

Lemma insert_category_step id row db db' : insert_category id row db = Ok db' ->
  import_step db db' /\ categories db' !! id = Some row.
Proof.
  intros Hi. pose proof (insert_category_steps _ _ _ _ Hi) as [Hs ->]. cbn.
  split; [|apply lookup_insert_eq]. split; [by apply rtc_once, step_draft|].
  unfold insert_category in Hi. inv_ok. constructor; cbn; eauto.
  apply insert_subseteq. by destruct (categories db !! id).
Qed.

Lemma import_category_effect owner site now id c db b db' : wf db ->
  import_category owner site now id c db = Ok (b, db') ->
  import_step db db' /\ category_imported site db' c.
Proof.
  intros Hwf. unfold import_category. intros Hi. inv_tx.
  match goal with X : match ?r with Ok _ => _ | Err _ => _ end _ = _ |- _ => destruct r as [cat|[]] eqn:Hload end;
    inv_tx; try (unfold raise in *; discriminate).
  - split; [done|]. unfold invalid in *. inv_ok. bool_simpl.
    match goal with X : str_eqb _ _ = true |- _ => apply str_eqb_eq in X end.
    eexists _, _, _, cat. by split_and!.
  - match goal with X : insert_category _ _ _ = _ |- _ => apply insert_category_step in X as [Hs Hrow] end.
    split; [done|]. eexists _, _, _, _. split_and!; try done.
    + apply category_by_slug_Ok; [by eapply import_step_wf|]. eexists _, _. split_and!; [done| |done].
      unfold category_has_slug, nocase_eqb. cbn. by rewrite N.eqb_refl, (proj2 (str_eqb_eq _ _) eq_refl).
    + done.
    + done.
    + done.
Qed.

Lemma import_categories_effect ids owner site now index cs db bs db' : wf db ->
  import_categories ids owner site now index cs db = Ok (bs, db') ->
  import_step db db' /\ Forall (category_imported site db') cs /\ length bs = length cs.
Proof.
  intros Hwf. revert index db bs Hwf. induction cs as [|c cs IH]; intros index db bs Hwf Hi; cbn in Hi; inv_tx.
  { by split_and!. }
  match goal with X : import_category _ _ _ _ _ _ = _ |- _ => apply import_category_effect in X as [Hs Hc]; [|done] end.
  pose proof (import_step_wf _ _ Hwf Hs) as Hwf1.
  match goal with X : import_categories _ _ _ _ _ _ _ = _ |- _ => apply IH in X as (Hs' & Hcs & Hl); [|done] end.
  split_and!; [by etrans|constructor; [|done]|by f_equal/=].
  eapply category_imported_keeps; [exact Hwf1|by eapply import_step_wf|apply Hs'|done].
Qed.

(** A stored declaration is reused. *)
Lemma import_category_again owner site now id c db : category_imported site db c ->
  import_category owner site now id c db = Ok (false, db).
Proof.
  intros (slug & title & description & cat & Hs & Ht & Hd & Hload & Ha & Et & Ed).
  unfold import_category, mbind, tx_bind, lift. rewrite Hs, Ht, Hd. cbn. rewrite Hload. cbn.
  rewrite Ha, Et, Ed. by rewrite !bool_decide_true, (proj2 (str_eqb_eq _ _) eq_refl).
Qed.
Lemma import_categories_again ids owner site now index cs db : Forall (category_imported site db) cs ->
  import_categories ids owner site now index cs db = Ok (replicate (length cs) false, db).
Proof.
  intros Hcs. revert index. induction Hcs as [|c cs Hc Hcs IH]; intros index; [done|]. cbn.
  unfold mbind, tx_bind. by rewrite import_category_again, IH.
Qed.

(** ** Historical routes *)

Definition agrees (t : gmap (Uuid * rstr) RouteRow) (site id : Uuid) (m : gmap rstr (bool * DateTime)) : Prop :=
  forall path, route_entry t site id path = m !! path.
Definition alias_entry (m : gmap rstr (bool * DateTime)) (a : OfflineImportAlias) : gmap rstr (bool * DateTime) :=
  <[oia_path a := (false, oia_created_at a)]> m.

Lemma agrees_insert t site id m path r : agrees t site id m -> route_document_id r = id ->
  agrees (<[(site, path) := r]> t) site id (<[path := (route_is_canonical r, route_created_at r)]> m).
Proof.
  intros Ha Hr q. unfold route_entry. destruct (decide (path = q)) as [->|Hne].
  - rewrite !lookup_insert_eq. cbn. by rewrite Hr, N.eqb_refl.
  - rewrite !lookup_insert_ne by congruence. apply Ha.
Qed.

(** What the routes added to a document change. *)
Definition adds_routes (db : DB) (id : Uuid) (db' : DB) : Prop :=
  exists t, db' = set_routes db t /\ routes db ⊆ t /\
    forall k r, t !! k = Some r -> routes db !! k = Some r \/ route_document_id r = id.

Lemma import_alias_effect site id a db u db' d m :
  documents db !! id = Some d -> doc_site_id d = site ->
  import_alias site id a db = Ok (u, db') -> agrees (routes db) site id m ->
  content_step db db' /\ adds_routes db id db' /\ agrees (routes db') site id (alias_entry m a).
Proof.
  intros Hd <- Hi Ha. unfold import_alias in Hi. inv_tx.
  match goal with X : ensure_document_route_available _ _ _ _ = _ |- _ => apply path_free_iff in X as Hfree end.
  unfold insert_alias in *. inv_ok.
  assert (routes db !! (doc_site_id d, oia_path a) = None) as Hnone by by destruct (routes db !! _).
  split_and!.
  - by apply (step_alias db id d).
  - eexists. split_and!; [done|by apply insert_subseteq|].
    intros k r [[<- <-]|[? Hr]]%lookup_insert_Some; [by right|by left].
  - by apply (agrees_insert (routes db) (doc_site_id d) id m (oia_path a) (Build_RouteRow id false (oia_created_at a))).
Qed.

Lemma adds_routes_refl db id : adds_routes db id db.
Proof. exists (routes db). split_and!; [by destruct db|done|by left]. Qed.
Lemma adds_routes_trans db1 db2 db3 id : adds_routes db1 id db2 -> adds_routes db2 id db3 -> adds_routes db1 id db3.
Proof.
  intros (t1 & -> & S1 & N1) (t2 & -> & S2 & N2). exists t2. split_and!; [done|by etrans|].
  intros k r [Hr|Hr]%N2; [by apply N1|by right].
Qed.

Lemma import_aliases_effect site id aliases db u db' d m :
  documents db !! id = Some d -> doc_site_id d = site ->
  import_aliases site id aliases db = Ok (u, db') -> agrees (routes db) site id m ->
  rtc content_step db db' /\ adds_routes db id db' /\
  agrees (routes db') site id (foldl alias_entry m aliases).
Proof.
  revert db m. induction aliases as [|a aliases IH]; intros db m Hd Hsite Hi Ha; cbn in Hi; inv_tx.
  { split_and!; [done|apply adds_routes_refl|done]. }
  match goal with X : import_alias _ _ _ _ = _ |- _ =>
    eapply import_alias_effect in X as (Hs & Hadd & Ha'); [|done..] end.
  match goal with X : import_aliases _ _ _ ?db1 = _ |- _ =>
    eapply IH in X as (Hs' & Hadd' & Ha''); [| |done|done] end.
  - split_and!; [by eapply rtc_l|by eapply adds_routes_trans|done].
  - destruct Hadd as (t & -> & _). done.
Qed.

(** ** Publishing a new document *)

Section new_document.
Context (db : DB) (id site : Uuid) (path : rstr) (now : DateTime).
Context (Hwf : wf db) (Hnew : documents db !! id = None) (Hfree : path_free db site id path).

Lemma no_route_of_new k r : routes db !! k = Some r -> route_document_id r <> id.
Proof. destruct k as [s q]. intros (d & Hd & _)%(wf_route _ (wf_is_paths _ Hwf)) E. congruence. Qed.
Lemma new_path_unrouted : routes db !! (site, path) = None.
Proof.
  destruct (routes db !! (site, path)) as [r|] eqn:Hr; [|done]. exfalso.
  apply (no_route_of_new _ _ Hr). by apply Hfree.
Qed.
Lemma cleared_is_same : uncanonical id <$> routes db = routes db.
Proof.
  apply map_eq. intros k. rewrite lookup_fmap. destruct (routes db !! k) as [r|] eqn:Hr; [|done]. cbn.
  unfold uncanonical. by rewrite (proj2 (N.eqb_neq _ _) (no_route_of_new _ _ Hr)).
Qed.
Lemma publish_routes_new : publish_routes site path id now (routes db) =
  <[(site, path) := {| route_document_id := id; route_is_canonical := true; route_created_at := now |}]> (routes db).
Proof. unfold publish_routes. by rewrite cleared_is_same, new_path_unrouted. Qed.
Lemma publish_routes_agree : agrees (publish_routes site path id now (routes db)) site id {[path := (true, now)]}.
Proof.
  rewrite publish_routes_new.
  apply (agrees_insert (routes db) site id ∅ path (Build_RouteRow id true now)); [|done].
  intros q. rewrite lookup_empty. unfold route_entry. destruct (routes db !! (site, q)) as [r|] eqn:Hr; [|done]. cbn.
  by rewrite (proj2 (N.eqb_neq _ _) (no_route_of_new _ _ Hr)).
Qed.
End new_document.

(** ** Posts *)

(** A post is stored exactly as the batch describes it. *)
Definition post_imported (site : Uuid) (source : rstr) (db : DB) (post : OfflineImportPost) : Prop :=
  exists slug cat key did rid,
    normalize_new_category_slug (oip_primary_category post) = Ok slug /\
    load_category_by_slug site slug db = Ok cat /\ cr_status cat = Active /\
    offline_import_idempotency_key site source (oip_source_id post) = Ok key /\
    revision_with_key key db = Ok (Some (did, rid)) /\
    ensure_offline_import_retry_matches site source post cat did rid db = Ok tt.

(** The record a retry expects. *)
Lemma retry_matches_intro site source post cat did rid db d s pl :
  load_document did Current db = Ok d -> load_revision_category_placement site did rid db = Ok pl ->
  created_from (offline_import_document site source post) did rid (oip_created_at post) s ->
  ds_revision d = s -> ds_site_id d = site -> ds_status d = Published -> ds_current_revision_id d = rid ->
  ds_published_revision_id d = Some rid -> ds_created_at d = oip_created_at post ->
  ds_updated_at d = oip_created_at post -> rcp_category_id pl = Some (cr_id cat) ->
  rcp_assigned_at pl = oip_created_at post ->
  agrees (routes db) site did (expected_routes (category_route_path (Some cat) (oip_slug post)) post) ->
  ensure_offline_import_retry_matches site source post cat did rid db = Ok tt.
Proof.
  intros Hl Hp Hs E1 E2 E3 E4 E5 E6 E7 E8 E9 Ha. unfold ensure_offline_import_retry_matches.
  rewrite Hl. cbn. rewrite Hp. cbn. rewrite E1, E2, E3, E4, E5, E6, E7, E8, E9, Hs. cbn.
  rewrite !N.eqb_refl, !Z.eqb_refl, !(proj2 (str_eqb_eq _ _) eq_refl), !bool_decide_true; try done.
  apply map_eq. intros q. by rewrite routes_of_lookup, Ha.
Qed.

(** ... stays what a retry expects while its rows are kept. *)
Lemma retry_matches_keeps site source post cat did rid db db' : keeps db db' ->
  ensure_offline_import_retry_matches site source post cat did rid db = Ok tt ->
  ensure_offline_import_retry_matches site source post cat did rid db' = Ok tt.
Proof.
  intros Hk Hm.
  assert (exists d, load_document did Current db = Ok d) as [d Hd].
  { unfold ensure_offline_import_retry_matches in Hm. destruct (load_document did Current db); [eauto|done]. }
  assert (exists row, documents db !! did = Some row) as [row Hrow].
  { unfold load_document in Hd. destruct (documents db !! did); [eauto|done]. }
  assert (load_document did Current db' = load_document did Current db) as Eload.
  { rewrite Hd. unfold load_document, revision_of in *. rewrite Hrow in Hd.
    rewrite (lookup_weaken _ _ _ _ Hrow (keeps_documents _ _ Hk)). cbn in *.
    destruct (revisions db !! doc_current_revision_id row) as [r|] eqn:Hr; [|done].
    by rewrite (lookup_weaken _ _ _ _ Hr (keeps_revisions _ _ Hk)). }
  assert (load_revision_category_placement site did rid db' = load_revision_category_placement site did rid db) as Epl.
  { unfold ensure_offline_import_retry_matches in Hm. rewrite Hd in Hm. cbn in Hm.
    unfold load_revision_category_placement in *.
    destruct (revision_categories db !! rid) as [p|] eqn:Hp; [|done].
    by rewrite (lookup_weaken _ _ _ _ Hp (keeps_placements _ _ Hk)). }
  rewrite <-Hm. unfold ensure_offline_import_retry_matches.
  by rewrite Eload, Epl, (routes_of_keeps db db' site did row).
Qed.

Lemma post_imported_keeps site source db db' post : wf db -> wf db' -> keeps db db' ->
  post_imported site source db post -> post_imported site source db' post.
Proof.
  intros Hwf Hwf' Hk (slug & cat & key & did & rid & ? & ? & ? & ? & Hkey & ?).
  exists slug, cat, key, did, rid. split_and!; try done.
  - by apply (category_by_slug_keeps db).
  - apply revision_with_key_Some in Hkey as (r & Hr & ? & ?); [|apply Hwf].
    apply revision_with_key_Some; [apply Hwf'|]. exists r. split; [|done].
    by apply (lookup_weaken _ _ _ _ Hr), keeps_revisions.
  - by apply (retry_matches_keeps _ _ _ _ _ _ db).
Qed.

(** The tables after a new document has been created and published. *)
Lemma create_and_publish_effect owner c input did rid now key db snap db1 u db2 : wf db ->
  create_document_in_transaction input did rid now (Some (owner, c)) (Some key) db = Ok (snap, db1) ->
  publish_in_transaction_at (ds_id snap) (ds_current_revision_id snap) now db1 = Ok (u, db2) ->
  let site := nd_site_id input in
  exists r p path items, documents db !! did = None /\ revisions db !! rid = None /\
    rev_document_id r = did /\ rev_idempotency_key r = Some key /\
    row_stores rid r (ds_revision snap) /\ created_from input did rid now (ds_revision snap) /\
    placement_ok db site did p /\ pl_category_id p = Some c /\ pl_assigned_at p = now /\
    placement_path db p (rev_slug r) = Some path /\ path_free db site did path /\ ds_id snap = did /\
    rtc content_step db db2 /\
    db2 = set_documents (set_routes (set_series_items (set_placements (set_revisions db
            (<[rid := r]> (revisions db))) (<[rid := p]> (revision_categories db))) items)
            (publish_routes site path did now (routes db)))
            (<[did := mark_published rid now (draft_row site rid path now)]> (documents db)).
Proof.
  intros Hwf Hc Hp. pose proof (create_document_steps Hcodec _ _ _ _ _ _ _ _ _ Hc) as [Hs1 _].
  pose proof (wf_step _ _ Hwf (step_draft _ _ Hs1)) as Hwf1.
  pose proof (publish_steps _ _ _ _ _ _ Hwf1 Hp) as Hs2.
  apply (create_document_effect Hcodec) in Hc as
    (r & p & path & Hnew & Hfresh & Hrd & _ & _ & Hrk & _ & Hst & Hfrom & Hok & Hpc & Hpa & Hpath & Hfree & Eid & Ecur & ->).
  rewrite Eid, Ecur in *.
  apply publish_effect in Hp as (d & r2 & s & p2 & path2 & items & Hd & Hr2 & _ & _ & Hp2 & Hpath2 & _ & _ & _ & ->);
    [|done]. cbn in *.
  rewrite lookup_insert_eq in Hd. rewrite lookup_insert_eq in Hr2. rewrite lookup_insert_eq in Hp2.
  injection Hd as <-. injection Hr2 as <-. injection Hp2 as <-.
  assert (path2 = path) as ->.
  { change (placement_path db p (rev_slug r) = Some path2) in Hpath2. congruence. }
  exists r, p, path, items. do 12 (split; [done|]).
  split; [by eapply rtc_l, Hs2; apply step_draft|].
  unfold set_documents. cbn. by rewrite insert_insert_eq.
Qed.

(** A new post is stored as described, and nothing else is touched. *)
Lemma import_new_post owner site source did rid post cat row key db snap db1 u db2 u' db3 :
  wf db -> categories db !! cr_id cat = Some row -> cr_slug cat = cat_slug row ->
  create_document_in_transaction (offline_import_document site source post) did rid
    (oip_created_at post) (Some (owner, cr_id cat)) (Some key) db = Ok (snap, db1) ->
  publish_in_transaction_at (ds_id snap) (ds_current_revision_id snap) (oip_created_at post) db1 = Ok (u, db2) ->
  import_aliases site (ds_id snap) (oip_aliases post) db2 = Ok (u', db3) ->
  import_step db db3 /\ revision_with_key key db3 = Ok (Some (did, rid)) /\
  ensure_offline_import_retry_matches site source post cat did rid db3 = Ok tt.
Proof.
  intros Hwf Hrow Hslug Hc Hp Ha.
  destruct (create_and_publish_effect _ _ _ _ _ _ _ _ _ _ _ _ Hwf Hc Hp) as
    (r & p & path & items & Hnew & Hfresh & Hrd & Hrk & Hst & Hfrom & (Hpd & Hps & _) & Hpc & Hpa & Hpath & Hfree & Eid & Hs & Edb).
  rewrite Eid in Ha. clear Hc Hp Eid. set (now := oip_created_at post) in *.
  assert (path = category_route_path (Some cat) (oip_slug post)) as Epath.
  { unfold placement_path in Hpath. rewrite Hpc in Hpath. cbn in Hpath. rewrite Hrow in Hpath. cbn in Hpath.
    rewrite <-(st_slug _ _ _ Hst), Hfrom in Hpath. cbn. rewrite Hslug. by injection Hpath. }
  cbn [nd_site_id offline_import_document] in *.
  eapply import_aliases_effect in Ha as (Hs' & (t & -> & Ht & Hnewt) & Hagree);
    [|rewrite Edb; apply lookup_insert_eq|done|rewrite Edb; by apply publish_routes_agree].
  assert (wf (set_routes db2 t)) as Hwf3 by (eapply wf_steps; [exact Hs'|]; by eapply wf_steps).
  assert (revision_categories db !! rid = None) as Hnop.
  { destruct (revision_categories db !! rid) as [p'|] eqn:Hp'; [|done].
    destruct (wf_placed _ (wf_is_paths _ Hwf) _ _ Hp'). congruence. }
  split_and!.
  - split; [by etrans|]. subst db2. constructor; cbn in *; try by apply insert_subseteq.
    + done.
    + rewrite (publish_routes_new db) in Ht by done. etrans; [|exact Ht]. apply insert_subseteq.
      by apply (new_path_unrouted db did).
    + intros k rt [Hrt|Hrt]%Hnewt; [|right; by rewrite Hrt].
      rewrite (publish_routes_new db) in Hrt by done.
      apply lookup_insert_Some in Hrt as [[<- <-]|[_ Hrt]]; [by right|by left].
  - apply revision_with_key_Some; [apply Hwf3|]. exists r. subst db2. split; [apply lookup_insert_eq|done].
  - rewrite Epath in Hagree. subst db2.
    eapply (retry_matches_intro _ _ _ _ _ _ _ {|
      ds_schema_version := CONTENT_SCHEMA_VERSION; ds_id := did; ds_site_id := site; ds_status := Published;
      ds_current_revision_id := rid; ds_published_revision_id := Some rid; ds_revision := ds_revision snap;
      ds_created_at := now; ds_updated_at := now |} _ {|
      rcp_revision_id := rid; rcp_document_id := did; rcp_site_id := site; rcp_category_id := pl_category_id p;
      rcp_assigned_by_user_id := pl_assigned_by_user_id p; rcp_assigned_at := pl_assigned_at p |});
      [| |exact Hfrom|reflexivity..|exact Hpc|exact Hpa|exact Hagree].
    + unfold load_document. cbn. rewrite lookup_insert_eq. cbn. unfold revision_of. cbn.
      rewrite lookup_insert_eq. cbn. rewrite Hrd, N.eqb_refl. cbn. rewrite (st_decodes _ _ _ Hst). reflexivity.
    + unfold load_revision_category_placement. cbn. by rewrite lookup_insert_eq, Hpd, Hps, !N.eqb_refl.
Qed.

#[local] Opaque create_document_in_transaction publish_in_transaction_at import_aliases.
Lemma import_post_effect owner site source did rid post db o db' : wf db ->
  import_post owner site source did rid post db = Ok (o, db') ->
  import_step db db' /\ post_imported site source db' post.
Proof.
  intros Hwf. unfold import_post, invalid. intros Hi. inv_tx. bool_simpl.
  match goal with X : match ?e with Some _ => _ | None => _ end _ = _ |- _ => destruct e as [[did0 rid0]|] end;
    inv_tx.
  - split; [done|]. eexists _, _, _, did0, rid0. split_and!; done.
  - match goal with X : load_category_by_slug _ _ _ = Ok ?c |- _ =>
      pose proof X as Hcat; apply category_by_slug_Ok in X as (cid & row & Hrow & _ & Ecat); [|done];
      assert (categories db !! cr_id c = Some row /\ cr_slug c = cat_slug row) as [? ?] by by subst c end.
    match goal with X : create_document_in_transaction _ _ _ _ _ _ _ = _, Y : publish_in_transaction_at _ _ _ _ = _,
      Z : import_aliases _ _ _ _ = _ |- _ =>
      eapply import_new_post in X as (Hs & Hkey & Hm); [|done..|exact Y|exact Z] end.
    split; [done|]. eexists _, _, _, did, rid. split_and!; try done.
    eapply category_by_slug_keeps; [exact Hwf|by eapply import_step_wf|apply Hs|done].
Qed.

Lemma import_posts_effect ids owner site source index posts db os db' : wf db ->
  import_posts ids owner site source index posts db = Ok (os, db') ->
  import_step db db' /\ Forall (post_imported site source db') posts /\ length os = length posts.
Proof.
  intros Hwf. revert index db os Hwf. induction posts as [|p posts IH]; intros index db os Hwf Hi; cbn in Hi; inv_tx.
  { by split_and!. }
  match goal with X : import_post _ _ _ _ _ _ _ = _ |- _ => apply import_post_effect in X as [Hs Hp]; [|done] end.
  pose proof (import_step_wf _ _ Hwf Hs) as Hwf1.
  match goal with X : import_posts _ _ _ _ _ _ _ = _ |- _ => apply IH in X as (Hs' & Hps & Hl); [|done] end.
  split_and!; [by etrans|constructor; [|done]|by f_equal/=].
  eapply post_imported_keeps; [exact Hwf1|by eapply import_step_wf|apply Hs'|done].
Qed.

(** A stored post is found unchanged. *)
Lemma import_post_again owner site source did rid post db : post_imported site source db post ->
  exists o, import_post owner site source did rid post db = Ok (o, db) /\ imported o = false.
Proof.
  intros (slug & cat & key & did0 & rid0 & Hslug & Hcat & Ha & Hkey & Hrev & Hm).
  unfold import_post, mbind, tx_bind, lift, read, invalid. rewrite Hslug.
  cbn -[revision_with_key]. rewrite Hcat. cbn -[revision_with_key]. rewrite Ha, bool_decide_true by done.
  cbn -[revision_with_key]. rewrite Hkey. cbn -[revision_with_key]. rewrite Hrev. cbn. rewrite Hm. by eexists.
Qed.
Lemma import_posts_again ids owner site source index posts db : Forall (post_imported site source db) posts ->
  exists os, import_posts ids owner site source index posts db = Ok (os, db) /\
    Forall (fun o => imported o = false) os /\ length os = length posts.
Proof.
  intros Hps. revert index. induction Hps as [|p posts Hp Hps IH]; intros index; [by exists []|].
  cbn. destruct (import_post_again owner site source (ids index).1 (ids index).2 p db Hp) as (o & Ho & ?).
  destruct (IH (index + 1)%N) as (os & Hos & ? & Hl). exists (o :: os).
  unfold mbind, tx_bind. rewrite Ho, Hos. split_and!; [done|by constructor|by f_equal/=].
Qed.

(** ** The whole import *)

Lemma import_content_effect ids post_ids owner site batch now db r db' : wf db ->
  import_content ids post_ids owner site batch now db = Ok (r, db') ->
  import_step db db' /\ Forall (category_imported site db') (oib_categories batch) /\
  Forall (post_imported site (oib_source batch) db') (oib_posts batch).
Proof.
  intros Hwf. unfold import_content. intros Hi. inv_tx.
  match goal with X : import_categories _ _ _ _ _ _ _ = _ |- _ =>
    apply import_categories_effect in X as (Hs & Hcs & _); [|done] end.
  pose proof (import_step_wf _ _ Hwf Hs) as Hwf1.
  match goal with X : import_posts _ _ _ _ _ _ _ = _ |- _ => apply import_posts_effect in X as (Hs' & Hps & _); [|done] end.
  split_and!; [by etrans| |done]. eapply Forall_impl; [exact Hcs|]. intros c Hc.
  eapply category_imported_keeps; [exact Hwf1|by eapply import_step_wf|apply Hs'|done].
Qed.

(** What a successful import did, or would do. *)
Lemma import_Ok ids post_ids owner site batch reserved dry_run now db accounts report state' :
  wf db ->
  import_offline_batch_with_reserved_roots ids post_ids owner site batch reserved dry_run now (db, accounts)
  = (Ok report, state') ->
  exists renamed accounts' created outcomes db',
    validate_offline_import_batch site batch reserved = Ok tt /\
    ensure_site_owner owner site db = Ok tt /\
    reconcile_owner_name owner (oib_owner_display_name batch) now accounts = Ok (renamed, accounts') /\
    import_content ids post_ids owner site batch now db = Ok ((created, outcomes), db') /\
    import_step db db' /\ wf db' /\
    report = import_report dry_run renamed created (oib_posts batch) outcomes /\
    state' = if dry_run then (db, accounts) else (db', accounts').
Proof.
  intros Hwf. unfold import_offline_batch_with_reserved_roots.
  match goal with |- (match ?m with _ => _ end) = _ -> _ => destruct m as [[report0 [db' accounts']]|] eqn:Em end;
    [|done].
  inv_ok. repeat match goal with X : (let '(_, _) := ?x in _) = Ok _ |- _ => destruct x; inv_ok end.
  match goal with X : import_content _ _ _ _ _ _ _ = Ok ((?c, ?o), ?d) |- _ =>
    pose proof (import_content_effect _ _ _ _ _ _ _ _ _ Hwf X) as (Hs & _ & _) end.
  pose proof (import_step_wf _ _ Hwf Hs) as Hwf'.
  unfold finish. cbn. rewrite (wf_deferred _ Hwf').
  intros Hf. do 5 eexists. split_and!; try done; by destruct dry_run; injection Hf.
Qed.

(** A refused import leaves everything as it was. *)
Lemma import_Err ids post_ids owner site batch reserved dry_run now state e state' :
  import_offline_batch_with_reserved_roots ids post_ids owner site batch reserved dry_run now state
  = (Err e, state') -> state' = state.
Proof.
  destruct state as [db accounts]. unfold import_offline_batch_with_reserved_roots, finish.
  match goal with |- (match ?m with _ => _ end) = _ -> _ => destruct m as [[report0 [db' accounts']]|] end;
    [|by intros [= _ <-]].
  destruct dry_run; [done|]. cbn. destruct (deferred_fks_hold db'); [done|by intros [= _ <-]].
Qed.
End import.

(** ** Validation reports validation errors only *)

Section validation.
Context `{StoreCodec, Sha256Lib, !LayerCodec}.

Definition validates {A} (r : result RepositoryError A) : Prop :=
  forall e, r = Err e -> exists message, e = Validation message.

Lemma validates_Ok {A} (a : A) : validates (Ok a).
Proof. done. Qed.
Lemma validates_bind {A B} (r : result RepositoryError A) (k : A -> result RepositoryError B) :
  validates r -> (forall a, validates (k a)) -> validates (r ≫= k).
Proof. intros Hr Hk e [He|(a & _ & He)]%bind_Err; [by apply Hr|by apply (Hk a)]. Qed.
Lemma validates_fail_if b m : validates (fail_if b (Validation m)).
Proof. intros e [_ <-]%fail_if_Err. eauto. Qed.
Lemma validates_map_err {E A} (f : E -> rstr) (r : result E A) : validates (map_err (fun e => Validation (f e)) r).
Proof. intros e (e0 & _ & <-)%map_err_Err. eauto. Qed.
Lemma validates_each {A} (f : A -> result RepositoryError unit) l :
  (forall a, validates (f a)) -> validates (for_each f l).
Proof. intros Hf. induction l as [|a l IH]; [done|]. by apply validates_bind. Qed.
Lemma validates_fold {S A} (f : S -> A -> result RepositoryError S) l s :
  (forall s a, validates (f s a)) -> validates (for_fold f s l).
Proof. intros Hf. revert s. induction l as [|a l IH]; intros s; [done|]. by apply validates_bind. Qed.
#[local] Hint Resolve validates_Ok validates_fail_if validates_map_err : osb.

Lemma validates_required v f n : validates (validate_required_text v f n).
Proof. apply validates_bind; eauto with osb. Qed.
Lemma validates_optional v f n : validates (validate_optional_text v f n).
Proof.
  unfold validate_optional_text. destruct (trim <$> v) as [t|]; [|done].
  destruct (is_empty t); [done|]. destruct (_ || _)%bool; [|done]. intros e [= <-]. eauto.
Qed.
Lemma validates_slug v : validates (normalize_new_category_slug v).
Proof.
  repeat (apply validates_bind; [|intros]); eauto with osb.
Qed.
Lemma validates_key site source id : validates (offline_import_idempotency_key site source id).
Proof. apply validates_bind; eauto with osb. Qed.
Lemma validates_claim claimed path id : validates (claim_offline_import_route claimed path id).
Proof. unfold claim_offline_import_route. destruct (claimed !! path); [|done]. intros e [= <-]. eauto. Qed.
#[local] Hint Resolve validates_required validates_optional validates_slug validates_key validates_claim : osb.

(** [by_validates]: walk through a chain of checks. *)
Ltac by_validates :=
  repeat (apply validates_bind; [|intros]); unfold invalid; eauto with osb.

Lemma validates_text v f n : validates (validate_offline_import_text v f n).
Proof. unfold validate_offline_import_text. by_validates. Qed.
Lemma validates_root_available root reserved : validates (ensure_offline_import_root_available root reserved).
Proof. unfold ensure_offline_import_root_available. by_validates. Qed.
Lemma validates_alias reserved post canonical claimed a : validates (check_import_alias reserved post canonical claimed a).
Proof. unfold check_import_alias, validate_offline_import_alias_path. by_validates. Qed.
#[local] Hint Resolve validates_text validates_root_available validates_alias : osb.

Lemma validates_post site source reserved st post : validates (check_import_post site source reserved st post).
Proof.
  destruct st as [ids claimed]. unfold check_import_post. by_validates. apply validates_fold; eauto with osb.
Qed.
Lemma validates_category reserved seen c : validates (check_import_category reserved seen c).
Proof. unfold check_import_category. by_validates. Qed.
#[local] Hint Resolve validates_post validates_category : osb.

Lemma import_validation_error site batch reserved : validates (validate_offline_import_batch site batch reserved).
Proof.
  unfold validate_offline_import_batch. by_validates; [|apply validates_fold; eauto with osb..].
  apply validates_each. intros root. unfold validate_offline_import_reserved_root. by_validates.
Qed.
End validation.
