(* ===== verification/Store.v ===== *)
(** * The storage crate as a state machine

    One constructor per public operation that writes content; [run] executes it
    and [runs] a sequence of them.  The theorems here hold of every sequence of
    operations, with any arguments, including operations that fail. *)

From Stdlib Require Import Bool NArith ZArith Lia.
From S2P Require Import Prelude Text Extern Content Ai2Ai Accounts StoreBase StoreTaxonomy StoreContent StoreFeed OfflineImport StoreSpec StoreRefine FeedRefine ImportRefine.

Section machine.
Context `{StoreCodec, Sha256Lib, !LayerCodec}.

Inductive op :=
| CreateDocument (input : NewDocument) (id rid : Uuid) (now : DateTime)
| AppendRevision (input : ProposedRevision) (rid : Uuid) (now : DateTime)
| AppendAiProposal (envelope : Ai2AiEnvelope) (rid : Uuid) (now : DateTime)
| PublishDocument (id rid : Uuid) (now : DateTime)
| CreateInOwnedSite (owner : Uuid) (input : NewDocument) (id rid : Uuid) (now : DateTime)
| CreateInWritableSite (actor : Uuid) (input : NewDocument) (category : option Uuid) (id rid : Uuid)
    (now : DateTime)
| ReviseInWritableSite (actor site : Uuid) (input : ProposedRevision)
    (selection : option (option Uuid)) (rid : Uuid) (now : DateTime)
| PublishInOwnedSite (owner site id rid : Uuid) (now : DateTime)
| AssignCategory (actor site id rid : Uuid) (category : option Uuid) (now : DateTime)
| CreateCategory (owner site : Uuid) (input : CreateCategoryInput) (id : Uuid) (now : DateTime)
| UpdateCategory (owner site id : Uuid) (input : UpdateCategoryInput) (now : DateTime)
| ArchiveCategory (owner site id : Uuid) (now : DateTime)
| CreateSeries (owner site : Uuid) (input : CreateCategoryInput) (cid sid : Uuid) (now : DateTime)
| PromoteCategory (owner site cid sid : Uuid) (now : DateTime)
| ReplaceSeriesOrder (owner site sid : Uuid) (ids : list Uuid) (now : DateTime)
| CreatePlainInWritableSite (actor : Uuid) (input : NewDocument) (id rid : Uuid) (now : DateTime)
| ReviseInOwnedSite (owner site : Uuid) (input : ProposedRevision) (rid : Uuid) (now : DateTime)
| RevisePlainInWritableSite (actor site : Uuid) (input : ProposedRevision) (rid : Uuid) (now : DateTime)
| UpdateSeries (owner site sid : Uuid) (input : UpdateCategoryInput) (now : DateTime)
| ArchiveSeries (owner site sid : Uuid) (now : DateTime)
| CreateComment (author site document : Uuid) (markdown : rstr) (id : Uuid) (now : DateTime)
| ReplaceHomePins (admin : Uuid) (ids : list Uuid) (now : DateTime)
| ImportOfflineBatch (ids : N -> Uuid) (post_ids : N -> Uuid * Uuid) (owner site : Uuid)
    (batch : OfflineImportBatch) (reserved : list rstr) (dry_run : bool) (now : DateTime)
    (accounts : AccountDB).

Definition outcome {A} (r : result RepositoryError A * DB) : option RepositoryError * DB :=
  match r with (Ok _, db) => (None, db) | (Err e, db) => (Some e, db) end.

(** The import also works on the account tables, which are an argument here. *)
Definition import_outcome (r : result RepositoryError OfflineImportReport * (DB * AccountDB))
    : option RepositoryError * DB := outcome (r.1, r.2.1).

(** The error reported, if any, and the database afterwards. *)
Definition run (o : op) (db : DB) : option RepositoryError * DB :=
  match o with
  | CreateDocument input id rid now => outcome (create_document input id rid now db)
  | AppendRevision input rid now => outcome (append_revision input rid now db)
  | AppendAiProposal e rid now => outcome (append_ai_proposal e rid now db)
| PublishDocument id rid now => outcome (publish id rid now db)
  | CreateInOwnedSite owner input id rid now =>
      outcome (create_document_in_owned_site owner input id rid now db)
  | CreateInWritableSite actor input category id rid now =>
      outcome (create_document_in_writable_site_with_category actor input category id rid now db)
  | ReviseInWritableSite actor site input selection rid now =>
      outcome (revise_document_in_writable_site_with_category actor site input selection rid now db)
  | PublishInOwnedSite owner site id rid now =>
      outcome (publish_document_in_owned_site owner site id rid now db)
  | AssignCategory actor site id rid category now =>
      outcome (assign_revision_category_in_writable_site actor site id rid category now db)
  | CreateCategory owner site input id now => outcome (create_category owner site input id now db)
  | UpdateCategory owner site id input now => outcome (update_category owner site id input now db)
  | ArchiveCategory owner site id now => outcome (archive_category owner site id now db)
  | CreateSeries owner site input cid sid now => outcome (create_series owner site input cid sid now db)
  | PromoteCategory owner site cid sid now =>
      outcome (promote_category_to_series owner site cid sid now db)
  | ReplaceSeriesOrder owner site sid ids now =>
      outcome (replace_series_order owner site sid ids now db)
  | CreatePlainInWritableSite actor input id rid now =>
      outcome (create_document_in_writable_site actor input id rid now db)
  | ReviseInOwnedSite owner site input rid now =>
      outcome (revise_document_in_owned_site owner site input rid now db)
  | RevisePlainInWritableSite actor site input rid now =>
      outcome (revise_document_in_writable_site actor site input rid now db)
  | UpdateSeries owner site sid input now => outcome (update_series owner site sid input now db)
  | ArchiveSeries owner site sid now => outcome (archive_series owner site sid now db)
  | CreateComment author site document markdown id now =>
      outcome (create_comment author site document markdown id now db)
  | ReplaceHomePins admin ids now => outcome (replace_home_pins admin ids now db)
  | ImportOfflineBatch ids post_ids owner site batch reserved dry_run now accounts =>
      import_outcome (import_offline_batch_with_reserved_roots ids post_ids owner site batch reserved
        dry_run now (db, accounts))
  end.

Definition runs (os : list op) (db : DB) : DB := fold_left (fun db o => (run o db).2) os db.

(** A database as the migrations leave it: sites, users and memberships may
    exist, content does not. *)
Definition no_content (db : DB) : Prop :=
  documents db = ∅ /\ revisions db = ∅ /\ routes db = ∅ /\ ai_proposal_audits db = ∅ /\
  categories db = ∅ /\ revision_categories db = ∅ /\ series db = ∅ /\ series_items db = ∅ /\
  comments db = ∅ /\ home_pins db = ∅.

Context (Hcodec : codec_roundtrip).

Lemma transaction_steps (R : relation DB) `{!Reflexive R} {A} (m : tx A) db :
  (forall a db', m db = Ok (a, db') -> R db db') -> R db (outcome (transaction m db)).2.
Proof.
  intros Hm. destruct (transaction m db) as [[a|e] db'] eqn:E; cbn.
  - apply transaction_Ok in E as [E _]. by eapply Hm.
  - by rewrite (transaction_error m db e db' E).
Qed.
Lemma then_load_db {A B} (r : result RepositoryError A * DB) (q : query B) :
  (outcome (then_load r q)).2 = (outcome r).2.
Proof. destruct r as [[a|e] db]; cbn; [by destruct (q db)|done]. Qed.

(** Use the [_steps] lemma of the body's final operation. *)
Ltac body_steps :=
  match goal with
  | X : create_document_in_transaction _ _ _ _ _ _ _ = _ |- _ =>
      apply (create_document_steps Hcodec) in X as [? _]; by apply rtc_once
  | X : append_revision_in_transaction_with_category _ _ _ _ _ = _ |- _ =>
      apply (append_steps Hcodec) in X; [by apply rtc_once|done]
  | X : publish_in_transaction_at _ _ _ _ = _ |- _ => by apply publish_steps in X
  | X : assign_revision_category_in_transaction _ _ _ _ _ _ _ = _ |- _ =>
      by apply assign_steps, rtc_once in X
  | X : create_category_in_transaction _ _ _ _ _ _ = _ |- _ =>
      by apply create_category_steps, rtc_once in X
  end.

Definition publishes (o : op) : bool :=
  match o with
  | PublishDocument _ _ _ | PublishInOwnedSite _ _ _ _ _ | ImportOfflineBatch _ _ _ _ _ _ _ _ _ => true
  | _ => false
  end.

Lemma run_drafts o db : wf db -> publishes o = false -> rtc draft_step db (run o db).2.
Proof.
  intros Hwf Hp. destruct o; try discriminate; cbn [run]; unfold create_document, append_revision,
    append_ai_proposal, create_document_in_owned_site, create_document_in_writable_site_with_category,
    revise_document_in_writable_site_with_category,
    assign_revision_category_in_writable_site, create_category, update_category, archive_category,
    create_series, promote_category_to_series, replace_series_order, append_revision_in_transaction,
    create_document_in_writable_site, revise_document_in_owned_site, revise_document_in_writable_site,
    update_series, archive_series, create_comment, replace_home_pins, append_revision_in_transaction.
  all: try destruct (_ || _)%bool; rewrite ?then_load_db; try done.
  all: apply (transaction_steps (rtc draft_step)); intros a db' Hm; inv_tx; try body_steps.
  - match goal with X : append_revision_in_transaction_with_category _ _ _ _ _ = _ |- _ =>
      apply (append_steps Hcodec) in X; [|done] end.
    match goal with X : insert_ai_proposal _ _ = _ |- _ => apply insert_ai_proposal_steps in X end.
    by eapply rtc_l, rtc_once.
  - apply update_category_row_steps.
  - match goal with X : (if ?b then _ else _) _ = _ |- _ => destruct b end; inv_tx; [|done].
    apply archive_category_row_steps.
  - match goal with X : create_category_in_transaction _ _ _ _ _ _ = _ |- _ =>
      apply create_category_steps in X end.
    match goal with X : create_series_for_category_in_transaction _ _ _ _ _ _ = _ |- _ =>
      apply create_series_steps in X end.
    by eapply rtc_l.
  - match goal with X : match ?o with _ => _ end _ = _ |- _ => destruct o as [s|[]] end; inv_tx; try done.
    by eapply create_series_steps.
  - match goal with X : reorder_from _ _ _ _ _ = _ |- _ => pose proof (reorder_steps _ _ _ _ _ _ _ X) end.
    etrans; [done|]. apply touch_series_steps. by eapply wf_steps; [apply draft_steps|].
  - by apply update_series_steps.
  - match goal with X : (if ?b then _ else _) _ = _ |- _ => destruct b end; inv_tx; [|done].
    by apply archive_series_steps.
  - match goal with X : insert_comment _ _ _ = _ |- _ => apply insert_comment_steps in X as [? _] end.
    by apply rtc_once.
  - by eapply rtc_once, replace_home_pins_steps.
Qed.

Lemma import_run_steps ids post_ids owner site batch reserved dry_run now accounts db : wf db ->
  rtc content_step db
    (import_outcome (import_offline_batch_with_reserved_roots ids post_ids owner site batch reserved
      dry_run now (db, accounts))).2.
Proof.
  intros Hwf. destruct (import_offline_batch_with_reserved_roots _ _ _ _ _ _ _ _ _) as [[report|e] [db' accounts']] eqn:E.
  - apply (import_Ok Hcodec) in E as (? & ? & ? & ? & db1 & _ & _ & _ & _ & [Hs _] & _ & _ & Es); [|done].
    cbn. destruct dry_run; by injection Es as -> ->.
  - by apply import_Err in E as [= -> ->].
Qed.

Lemma run_steps o db : wf db -> rtc content_step db (run o db).2.
Proof.
  intros Hwf. destruct (publishes o) eqn:E; [|by apply draft_steps, run_drafts].
  destruct o; try discriminate; cbn [run]; [..|by apply import_run_steps];
    unfold publish, publish_document_in_owned_site; rewrite then_load_db; apply (transaction_steps (rtc content_step)); intros a db' Hm; inv_tx; body_steps.
Qed.

Lemma run_wf o db : wf db -> wf (run o db).2.
Proof. intros Hwf. eapply wf_steps; [by apply run_steps|done]. Qed.
Lemma runs_wf os db : wf db -> wf (runs os db).
Proof. revert db. induction os as [|o os IH]; intros db Hwf; cbn; [done|]. by apply IH, run_wf. Qed.
Lemma runs_steps os db : wf db -> rtc content_step db (runs os db).
Proof.
  revert db. induction os as [|o os IH]; intros db Hwf; cbn; [done|].
  etrans; [by apply run_steps|]. by apply IH, run_wf.
Qed.
Lemma no_content_wf db : no_content db -> wf db.
Proof. intros (? & ? & ? & ? & ? & ? & ? & ? & ? & ?). by apply wf_empty. Qed.
End machine.
