(* ===== verification/StoreTheorems.v ===== *)
(** * What the content store guarantees

    The properties of the storage operations: of every reachable store, and of
    each operation on it. *)

From Stdlib Require Import Bool NArith ZArith Lia.
From S2P Require Import Prelude Text Extern Content Ai2Ai StoreBase StoreTaxonomy StoreContent StoreFeed OfflineImport StoreSpec StoreRefine FeedRefine ImportRefine Store Samples.

Section theorems.
Context `{StoreCodec, Sha256Lib, !LayerCodec}.

(** ** Loading from a well-formed store *)

Definition snapshot_of (id pid : Uuid) (d : DocumentRow) (s : RevisionSnapshot) (updated : DateTime)
    : DocumentSnapshot := {|
  ds_schema_version := CONTENT_SCHEMA_VERSION; ds_id := id; ds_site_id := doc_site_id d;
  ds_status := doc_status d; ds_current_revision_id := doc_current_revision_id d;
  ds_published_revision_id := doc_published_revision_id d; ds_revision := s;
  ds_created_at := doc_created_at d; ds_updated_at := updated |}.

Lemma is_public_wf db id d : wf db -> documents db !! id = Some d ->
  is_public d = is_some (doc_published_revision_id d).
Proof.
  intros Hwf Hd. unfold is_public. rewrite (wf_status _ (wf_is_chain _ Hwf) _ _ Hd).
  by destruct (doc_published_revision_id d).
Qed.

Lemma load_revision_row db id pid r s : row_stores pid r s -> revisions db !! pid = Some r ->
  rev_document_id r = id -> revision_of db id pid = Some r /\ revision_of_json (rev_snapshot_json r) = Some s.
Proof. intros Hs Hr Hd. split; [by apply revision_of_Some|by apply Hs]. Qed.

Lemma load_published db id d pid : wf db -> documents db !! id = Some d ->
  doc_published_revision_id d = Some pid ->
  exists r s, revisions db !! pid = Some r /\ rev_document_id r = id /\ row_stores pid r s /\
    load_document id PublishedRevision db = Ok (snapshot_of id pid d s (rev_created_at r)).
Proof.
  intros Hwf Hd Hp. destruct (wf_published _ (wf_is_chain _ Hwf) _ _ _ Hd Hp) as (r & Hr & Hrd).
  destruct (wf_snapshot _ (wf_is_chain _ Hwf) _ _ Hr) as [s Hs].
  destruct (load_revision_row db id pid r s) as [E1 E2]; [done..|].
  exists r, s. split_and!; [done..|]. unfold load_document, snapshot_of.
  rewrite Hd. cbn. rewrite (is_public_wf db id d), Hp by done. cbn. rewrite E1. cbn. rewrite E2. done.
Qed.
Lemma load_current db id d : wf db -> documents db !! id = Some d ->
  exists r s, revisions db !! doc_current_revision_id d = Some r /\ rev_document_id r = id /\
    row_stores (doc_current_revision_id d) r s /\
    load_document id Current db = Ok (snapshot_of id (doc_current_revision_id d) d s (doc_updated_at d)).
Proof.
  intros Hwf Hd. destruct (wf_current _ (wf_is_chain _ Hwf) _ _ Hd) as (r & Hr & Hrd & _).
  destruct (wf_snapshot _ (wf_is_chain _ Hwf) _ _ Hr) as [s Hs].
  destruct (load_revision_row db id (doc_current_revision_id d) r s) as [E1 E2]; [done..|].
  exists r, s. split_and!; [done..|]. unfold load_document, snapshot_of.
  rewrite Hd. cbn. rewrite E1. cbn. rewrite E2. done.
Qed.

(** [publish] on a well-formed store, from its transaction to its answer. *)
Lemma publish_published (Hcodec : codec_roundtrip) id rid now db u db' :
  wf db -> publish_in_transaction_at id rid now db = Ok (u, db') ->
  wf db' /\ exists d r s path rt, documents db' !! id = Some d /\ doc_status d = Published /\
    doc_published_revision_id d = Some rid /\ revisions db' !! rid = Some r /\ row_stores rid r s /\
    routes db' !! (doc_site_id d, path) = Some rt /\ route_document_id rt = id /\
    (exists p, revision_categories db' !! rid = Some p /\ placement_path db' p (rev_slug r) = Some path) /\
    load_document id PublishedRevision db' = Ok (snapshot_of id rid d s (rev_created_at r)).
Proof.
  intros Hwf Hp. assert (wf db') as Hwf' by (eapply wf_steps; [by eapply publish_steps|done]).
  split; [done|].
  apply (publish_effect) in Hp as (d & r & s & p & path & items & Hd & Hr & Hrd & Hs & Hpl & Hpath & _ & _ & _ & ->);
    [|done].
  set (db1 := set_documents _ _) in *.
  assert (documents db1 !! id = Some (mark_published rid now d)) as Hd1 by apply lookup_insert_eq.
  destruct (load_published db1 id _ rid Hwf' Hd1 eq_refl) as (r' & s' & Hr' & _ & Hs' & Hload).
  assert (r' = r) as -> by (change (revisions db !! rid = Some r') in Hr'; congruence).
  exists (mark_published rid now d), r, s', path. eexists. split_and!; try done.
  1: apply lookup_insert_eq. 1: done. by exists p.
Qed.

Lemma load_category_extends db db' site id cat :
  extends db db' -> load_category_by_id site id db = Ok cat ->
  exists cat', load_category_by_id site id db' = Ok cat'.
Proof.
  intros Hext (row & Hrow & Hsite & _)%load_category_by_id_Ok.
  apply (ext_categories _ _ Hext) in Hrow as (row' & Hrow' & _ & Hsite').
  exists (parse_category_row id row'). apply load_category_by_id_Ok. exists row'. split_and!; congruence.
Qed.

(** The read after [COMMIT] answers, so an error means nothing was written. *)
Lemma then_load_error {A B} (m : tx A) (q : query B) db e db' :
  (forall a db1, m db = Ok (a, db1) -> exists b, q db1 = Ok b) ->
  outcome (then_load (transaction m db) q) = (Some e, db') -> db' = db.
Proof.
  intros Hq. destruct (transaction m db) as [[a|e'] db1] eqn:E; cbn.
  - apply transaction_Ok in E as [E _]. destruct (Hq _ _ E) as [b ->]. done.
  - intros [= _ <-]. by eapply transaction_error.
Qed.
Lemma transaction_outcome_error {A} (m : tx A) db e db' :
  outcome (transaction m db) = (Some e, db') -> db' = db.
Proof.
  destruct (transaction m db) as [[a|e'] db1] eqn:E; [done|]. intros [= _ <-].
  by eapply transaction_error.
Qed.

Lemma run_error_unchanged (Hcodec : codec_roundtrip) o db e db' :
  wf db -> run o db = (Some e, db') -> db' = db.
Proof.
  intros Hwf. destruct o; cbn [run]; try apply transaction_outcome_error.
  - apply then_load_error. intros a db1 Hp.
    apply (publish_published Hcodec) in Hp as (_ & d & r & s & path & rt & ? & ? & ? & ? & ? & ? & ? & ? & Hl);
      eauto.
  - apply then_load_error. intros a db1 Hm. inv_tx.
    match goal with X : publish_in_transaction_at _ _ _ _ = _ |- _ =>
      apply (publish_published Hcodec) in X as (_ & d & r & s & path & rt & ? & ? & ? & ? & ? & ? & ? & ? & Hl);
      eauto end.
  - apply then_load_error. intros a db1 Hm. inv_tx.
    match goal with X : load_category_by_id _ _ _ = _ |- _ => eapply load_category_extends; [|exact X] end.
  apply extends_steps, draft_steps, update_category_row_steps.
  - apply then_load_error. intros a db1 Hm. inv_tx.
    match goal with X : load_category_by_id _ _ _ = _ |- _ => eapply load_category_extends; [|exact X] end.
    match goal with X : (if ?b then _ else _) _ = _ |- _ => destruct b end; inv_tx; [|done].
  apply extends_steps, draft_steps, archive_category_row_steps.
  - unfold replace_series_order. destruct (_ || _)%bool; [by intros [= _ <-]|].
    apply then_load_error. eauto.
  - apply then_load_error. intros a db1 Hm. inv_tx.
    match goal with X : load_series_by_id _ _ _ = _ |- _ => eapply load_series_extends; [|exact X] end.
    by apply extends_steps, draft_steps, update_series_steps.
  - apply then_load_error. intros a db1 Hm. inv_tx.
    match goal with X : load_series_by_id _ _ _ = _ |- _ => eapply load_series_extends; [|exact X] end.
    match goal with X : (if ?b then _ else _) _ = _ |- _ => destruct b end; inv_tx; [|done].
    by apply extends_steps, draft_steps, archive_series_steps.
  - apply then_load_error. intros a db1 Hm. inv_tx.
    match goal with X : insert_comment _ _ _ = _ |- _ => apply insert_comment_steps in X as [_ ->] end.
    unfold load_comment_by_id. cbn. rewrite lookup_insert_eq. cbn. eauto.
  - unfold replace_home_pins. destruct (_ || _)%bool; [by intros [= _ <-]|apply transaction_outcome_error].
  - unfold import_outcome.
    destruct (import_offline_batch_with_reserved_roots _ _ _ _ _ _ _ _ _) as [[report|e'] [db1 accounts1]] eqn:E;
      [done|]. apply import_Err in E as [= -> ->]. by intros [= _ <-].
Qed.
End theorems.

(** ** Every reachable store *)

Section reachable.
Context `{StoreCodec, Sha256Lib, !LayerCodec}.

Lemma runs_app os os' db : runs (os ++ os') db = runs os' (runs os db).
Proof. apply fold_left_app. Qed.

(** C1. The storage operations refine the abstract store: whatever sequence
  of them runs, with whatever arguments and failures, the database has
  evolved by guarded row steps and every invariant of [wf] holds: revision
  chains, placements, paths, routes, audits, categories and series. *)
Theorem store_refines_specification os db :
  codec_roundtrip -> no_content db ->
  rtc content_step db (runs os db) /\ wf (runs os db).
Proof.
  intros Hcodec Hdb%no_content_wf. split; [by apply runs_steps|by apply runs_wf].
Qed.

(** An operation that reports an error has not changed the database,
  including the operations that read back after they commit. *)
Theorem failed_operation_changes_nothing os db o e db' :
  codec_roundtrip -> no_content db -> run o (runs os db) = (Some e, db') -> db' = runs os db.
Proof.
  intros Hcodec Hdb%no_content_wf. apply run_error_unchanged; [done|]. by apply runs_wf.
Qed.

(** C6. History is append-only: operations run later never change or remove
  a stored revision, proposal audit or comment, never re-point a route to another
  document, and never rename a category. *)
Theorem history_is_append_only os os' db :
  codec_roundtrip -> no_content db ->
  let before := runs os db in
  let after := runs (os ++ os') db in
  revisions before ⊆ revisions after /\ ai_proposal_audits before ⊆ ai_proposal_audits after /\
  comments before ⊆ comments after /\
  (forall site path r, routes before !! (site, path) = Some r ->
   exists r', routes after !! (site, path) = Some r' /\ route_document_id r' = route_document_id r) /\
  (forall id c, categories before !! id = Some c ->
   exists c', categories after !! id = Some c' /\ cat_slug c' = cat_slug c).
Proof.
  intros Hcodec Hdb%no_content_wf. cbn zeta. rewrite runs_app.
  assert (extends (runs os db) (runs os' (runs os db))) as Hext.
  { apply extends_steps, runs_steps; [done|]. by apply runs_wf. }
  split_and!; [apply Hext..| |].
  - intros site path r Hr. by apply (ext_routes _ _ Hext).
  - intros id c Hc. apply (ext_categories _ _ Hext) in Hc as (c' & ? & ? & _). eauto.
Qed.

(** C5. A published document has exactly one canonical URL, in its own site:
  the category path of its published revision. *)
Theorem published_document_has_one_canonical_url os db id d rid :
  codec_roundtrip -> no_content db ->
  let s := runs os db in
  documents s !! id = Some d -> doc_published_revision_id d = Some rid ->
  exists r p path rt, revisions s !! rid = Some r /\ revision_categories s !! rid = Some p /\
  placement_path s p (rev_slug r) = Some path /\
  routes s !! (doc_site_id d, path) = Some rt /\ route_document_id rt = id /\
  route_is_canonical rt = true /\
  forall site' path' rt', routes s !! (site', path') = Some rt' -> route_document_id rt' = id ->
    route_is_canonical rt' = true -> site' = doc_site_id d /\ path' = path.
Proof.
  intros Hcodec Hdb%no_content_wf s Hd Hpub.
  pose proof (runs_wf Hcodec os db Hdb) as [Hc Hp _]. fold s in Hc, Hp.
  destruct (wf_published _ Hc _ _ _ Hd Hpub) as (r & Hr & _).
  destruct (wf_canonical_exists _ Hp _ _ _ _ Hd Hpub Hr) as (p & path & rt & Hpl & Hpath & Hrt & ? & ?).
  exists r, p, path, rt. split_and!; try done.
  intros site' path' rt' Hrt' Hid Hcan.
  destruct (wf_route _ Hp _ _ _ Hrt') as (d' & Hd' & Hsite). rewrite Hid in Hd'.
  assert (d' = d) as -> by congruence.
  destruct (wf_canonical _ Hp site' path' rt' d) as (pid' & r' & p' & Epub & Er & Epl & Epath);
    [done..|congruence|].
  rewrite Hpub in Epub. injection Epub as <-. split; congruence.
Qed.

(** ** Public reads *)

Definition public_view (s : DocumentSnapshot) :=
  (ds_id s, ds_site_id s, ds_status s, ds_published_revision_id s, ds_revision s,
 ds_created_at s, ds_updated_at s).

Lemma load_unpublished db id d selector : wf db -> documents db !! id = Some d ->
  doc_published_revision_id d = None -> selector = PublishedRevision -> load_document id selector db = Err NotFound.
Proof.
  intros Hwf Hd Hp ->. unfold load_document. rewrite Hd. cbn.
  rewrite (is_public_wf db id d), Hp by done. done.
Qed.

Lemma get_published_route db site path : wf db ->
  match routes db !! (site, path) with
  | Some r => get_published_by_slug site path db = load_document (route_document_id r) PublishedRevision db
  | None => get_published_by_slug site path db = Err NotFound
  end.
Proof.
  intros Hwf. unfold get_published_by_slug.
  destruct (routes db !! (site, path)) as [r|] eqn:Hr; [|done]. cbn.
  destruct (wf_route _ (wf_is_paths _ Hwf) _ _ _ Hr) as (d & Hd & <-).
  rewrite Hd. cbn. by rewrite N.eqb_refl.
Qed.

Lemma public_view_same db db' site path : wf db -> wf db' -> same_public db db' ->
  public_view <$> get_published_by_slug site path db' = public_view <$> get_published_by_slug site path db.
Proof.
  intros Hwf Hwf' (Er & Hrev & Hdocs & _).
  pose proof (get_published_route db site path Hwf) as E.
  pose proof (get_published_route db' site path Hwf') as E'. rewrite Er in E'.
  destruct (routes db !! (site, path)) as [rt|] eqn:Hrt; rewrite E, E'; [|done].
  destruct (wf_route _ (wf_is_paths _ Hwf) _ _ _ Hrt) as (d & Hd & _).
  destruct (Hdocs _ _ Hd) as (d' & Hd' & Esite & Epub & Ecr).
  destruct (doc_published_revision_id d) as [pid|] eqn:Hp.
  - destruct (load_published db _ d pid Hwf Hd Hp) as (r & s & Hr & _ & Hs & ->).
    destruct (load_published db' _ d' pid Hwf' Hd' Epub) as (r' & s' & Hr' & _ & Hs' & ->).
    apply (lookup_weaken _ _ _ _ Hr) in Hrev. rewrite Hrev in Hr'. injection Hr' as <-.
    pose proof (st_decodes _ _ _ Hs) as D. rewrite (st_decodes _ _ _ Hs') in D. injection D as ->.
    unfold public_view, snapshot_of. cbn.
    rewrite (wf_status _ (wf_is_chain _ Hwf) _ _ Hd), (wf_status _ (wf_is_chain _ Hwf') _ _ Hd').
    by rewrite Esite, Epub, Ecr, Hp.
  - by rewrite (load_unpublished db _ d), (load_unpublished db' _ d').
Qed.

(** C4. Nothing but a publication changes what readers see: after any other
  operation every public URL answers with the same document, published
  revision, content and dates, or with the same error. *)
Theorem only_publication_changes_the_public_view os db o site path :
  codec_roundtrip -> no_content db -> publishes o = false ->
  let before := runs os db in
  let after := (run o before).2 in
  public_view <$> get_published_by_slug site path after
  = public_view <$> get_published_by_slug site path before.
Proof.
  intros Hcodec Hdb%no_content_wf Hp. cbn zeta.
  pose proof (runs_wf Hcodec os db Hdb) as Hwf.
  apply public_view_same; [done|by apply run_wf|]. by apply drafts_public, run_drafts.
Qed.

(** C3. Publishing a revision makes it the answer at its canonical URL at
  once: the snapshot returned is the one stored, it is [Published], and
  fetching the document by its category path yields that snapshot. *)
Theorem published_revision_is_served os db id rid now snap db' :
  codec_roundtrip -> no_content db ->
  publish id rid now (runs os db) = (Ok snap, db') ->
  ds_id snap = id /\ ds_status snap = Published /\ ds_published_revision_id snap = Some rid /\
  rs_id (ds_revision snap) = rid /\
  exists r p path, revisions db' !! rid = Some r /\ revision_categories db' !! rid = Some p /\
  revisions (runs os db) !! rid = Some r /\
  placement_path db' p (rs_slug (ds_revision snap)) = Some path /\
  get_published_by_slug (ds_site_id snap) path db' = Ok snap.
Proof.
  intros Hcodec Hdb%no_content_wf. pose proof (runs_wf Hcodec os db Hdb) as Hwf.
  unfold publish. destruct (transaction _ _) as [[[]|] db1] eqn:E; [|done].
  apply transaction_Ok in E as [E _]. intros [= Hload <-].
  pose proof E as E'. apply (publish_published Hcodec) in E as
    (Hwf' & d & r & s & path & rt & Hd & Hst & Hpub & Hr & Hs & Hrt & Hid & (p & Hp & Hpath) & Hl);
    [|done].
  rewrite Hl in Hload. injection Hload as <-. cbn. split_and!; try done; [by apply Hs|].
  exists r, p, path. rewrite (st_slug _ _ _ Hs). split_and!; [done|done| |done|].
  - apply (publish_effect) in E' as (? & r0 & ? & ? & ? & ? & ? & Hr0 & ? & ? & ? & ? & ? & ? & ? & ->);
      [|done]. change (revisions (runs os db) !! rid = Some r) in Hr. done.
  - pose proof (get_published_route db1 (doc_site_id d) path Hwf') as G. rewrite Hrt, Hid in G.
    by rewrite G.
Qed.

(** Tenant isolation of public reads: what a site's URL serves is a
  published document of that same site, shown at its published revision. *)
Theorem public_reads_stay_in_their_site os db site path snap :
  codec_roundtrip -> no_content db ->
  get_published_by_slug site path (runs os db) = Ok snap ->
  ds_site_id snap = site /\ ds_status snap = Published /\
  ds_published_revision_id snap = Some (rs_id (ds_revision snap)) /\
  rs_document_id (ds_revision snap) = ds_id snap.
Proof.
  intros Hcodec Hdb%no_content_wf. pose proof (runs_wf Hcodec os db Hdb) as Hwf.
  pose proof (get_published_route _ site path Hwf) as G.
  destruct (routes _ !! (site, path)) as [rt|] eqn:Hrt; rewrite G; [|done].
  destruct (wf_route _ (wf_is_paths _ Hwf) _ _ _ Hrt) as (d & Hd & Hsite).
  destruct (doc_published_revision_id d) as [pid|] eqn:Hp.
  - destruct (load_published _ _ d pid Hwf Hd Hp) as (r & s & Hr & Hrd & Hs & ->). intros [= <-]. cbn.
    rewrite Hp, (st_id _ _ _ Hs), (st_document _ _ _ Hs). split_and!; try done.
    by rewrite (wf_status _ (wf_is_chain _ Hwf) _ _ Hd), Hp.
  - by rewrite (load_unpublished _ _ d).
Qed.

(** Every stored document loads, at the revision its row names, and the
  content hash it carries is the hash of the content it carries. *)
Theorem stored_documents_load_with_true_hashes os db id d :
  codec_roundtrip -> no_content db -> documents (runs os db) !! id = Some d ->
  exists snap, get_document id (runs os db) = Ok snap /\ ds_id snap = id /\
  ds_site_id snap = doc_site_id d /\
  let s := ds_revision snap in
  rs_id s = doc_current_revision_id d /\ rs_document_id s = id /\
  rs_content_hash s = content_hash_with_ai_summary (rs_title s) (rs_slug s) (rs_source_markdown s)
    (rs_embeds s) (rs_intent s) (rs_ontology s) (rs_ai_summary s).
Proof.
  intros Hcodec Hdb%no_content_wf Hd. pose proof (runs_wf Hcodec os db Hdb) as Hwf.
  destruct (load_current _ id d Hwf Hd) as (r & s & Hr & Hrd & Hs & Hl).
  eexists. split; [exact Hl|]. cbn. split_and!; try done; try apply Hs.
  by rewrite (st_document _ _ _ Hs).
Qed.
End reachable.

(** ** Writing revisions *)

Section writing.
Context `{StoreCodec, Sha256Lib, !LayerCodec}.

Lemma run_append_db input rid now db s db' :
  append_revision input rid now db = (Ok s, db') -> db' = runs [AppendRevision input rid now] db.
Proof. unfold runs. cbn. by intros ->. Qed.

Lemma transaction_lift_Err {A} (e : RepositoryError) (k : A -> tx A) db :
  transaction (lift (Err e) ≫= k) db = (Err e, db).
Proof. done. Qed.

(** The revision a successful append stored, and its parent. *)
Lemma append_revision_row (Hcodec : codec_roundtrip) input rid now db s db' :
  wf db -> append_revision input rid now db = (Ok s, db') ->
  wf db' /\ exists base r, revisions db !! pr_base_revision_id input = Some base /\
  revisions db' !! rid = Some r /\ rev_document_id r = pr_document_id input /\
  rev_document_id base = pr_document_id input /\
  rev_number r = (rev_number base + 1)%N /\ rev_idempotency_key r = pr_idempotency_key input /\
  revisions db' !! pr_base_revision_id input = Some base /\ row_stores rid r s.
Proof.
  intros Hwf Ha. pose proof Ha as Hrun. apply run_append_db in Hrun.
  split; [rewrite Hrun; by apply runs_wf|]. clear Hrun.
  unfold append_revision, append_revision_in_transaction in Ha.
  apply transaction_Ok in Ha as [Ha _]. inv_tx.
  match goal with X : append_revision_in_transaction_with_category _ _ _ _ _ = _ |- _ =>
    apply (append_effect Hcodec) in X as
    (d & base & r & p & path & Hd & Hcur & Hbase & Hnew & Hrd & Hnum & _ & Hkey & Hs & _ & _ & _ & _ & _ & E);
    [|done] end.
  destruct (wf_current _ (wf_is_chain _ Hwf) _ _ Hd) as (b & Hb & Hbd & _).
  rewrite Hbase in Hb. injection Hb as <-. rewrite Hcur in *. subst.
  exists base, r. cbn. rewrite lookup_insert_eq, lookup_insert_ne by congruence.
  split_and!; try done; apply Hs.
Qed.

(** [append_revision] fails with [RevisionConflict] on a base that is not the
  current revision of an existing document. *)
Lemma append_stale input rid now db d : ProposedRevision_validate input = Ok tt -> wf db ->
  documents db !! pr_document_id input = Some d ->
  doc_current_revision_id d <> pr_base_revision_id input ->
  append_revision input rid now db = (Err RevisionConflict, db).
Proof.
  intros Hv Hwf Hd Hne. destruct (wf_current _ (wf_is_chain _ Hwf) _ _ Hd) as (r & Hr & _ & _).
  unfold append_revision, append_revision_in_transaction, append_revision_in_transaction_with_category, transaction.
  unfold mbind, tx_bind, lift, read. rewrite !Hv. cbn. rewrite Hd. cbn. rewrite Hr. cbn.
  apply N.eqb_neq in Hne as ->. done.
Qed.

(** C2. No lost updates: once a revision has been appended on a base, every
  other append on that base is refused with [RevisionConflict] and changes
  nothing, now and after any further operations. *)
Theorem stale_base_is_refused_forever os db in1 rid1 t1 s1 db1 os' in2 rid2 t2 :
  codec_roundtrip -> no_content db ->
  append_revision in1 rid1 t1 (runs os db) = (Ok s1, db1) ->
  pr_document_id in2 = pr_document_id in1 -> pr_base_revision_id in2 = pr_base_revision_id in1 ->
  ProposedRevision_validate in2 = Ok tt ->
  append_revision in2 rid2 t2 (runs os' db1) = (Err RevisionConflict, runs os' db1).
Proof.
  intros Hcodec Hdb%no_content_wf Ha Ed Eb Hv. pose proof (runs_wf Hcodec os db Hdb) as Hwf.
  apply (append_revision_row Hcodec) in Ha as (Hwf1 & base & r & _ & Hr & Hrd & Hbd & Hnum & _ & Hbase & _);
    [|done].
  pose proof (extends_steps _ _ (runs_steps Hcodec os' db1 Hwf1)) as Hext.
  pose proof (runs_wf Hcodec os' db1 Hwf1) as Hwf2.
  destruct (wf_owner _ (wf_is_chain _ Hwf1) _ _ Hr) as [d1 Hd1]. rewrite Hrd in Hd1.
  apply (ext_documents _ _ Hext) in Hd1 as (d2 & Hd2 & _ & _).
  destruct (wf_current _ (wf_is_chain _ Hwf2) _ _ Hd2) as (cur & Hcur & _ & Hmax).
  pose proof (Hmax rid1 r (lookup_weaken _ _ _ _ Hr (ext_revisions _ _ Hext)) Hrd).
  apply append_stale with d2; [done|done|by rewrite Ed|].
  rewrite Eb. intros E. rewrite E in Hcur.
  rewrite (lookup_weaken _ _ _ _ Hbase (ext_revisions _ _ Hext)) in Hcur. injection Hcur as ->. lia.
Qed.

Lemma key_taken_any_row (db : DB) k rid r : revisions db !! rid = Some r -> rev_idempotency_key r = Some k ->
  any_row (fun _ r => bool_decide (rev_idempotency_key r = Some k)) (revisions db) = true.
Proof. intros Hr Hk. apply any_row_true. exists rid, r. by rewrite bool_decide_eq_true. Qed.

(** An idempotency key is consumed once: after an append with a key,
  every later append with the same key is refused and changes nothing; when
  it is otherwise acceptable the error is [DuplicateIdempotencyKey]. *)
Theorem idempotency_key_is_consumed_once os db in1 rid1 t1 s1 db1 k os' in2 rid2 t2 :
  codec_roundtrip -> no_content db ->
  append_revision in1 rid1 t1 (runs os db) = (Ok s1, db1) ->
  pr_idempotency_key in1 = Some k -> pr_idempotency_key in2 = Some k ->
  let later := runs os' db1 in
  exists e, append_revision in2 rid2 t2 later = (Err e, later) /\
  (ProposedRevision_validate in2 = Ok tt -> revisions later !! rid2 = None ->
   (exists d, documents later !! pr_document_id in2 = Some d /\
              doc_current_revision_id d = pr_base_revision_id in2) ->
   e = DuplicateIdempotencyKey).
Proof.
  intros Hcodec Hdb%no_content_wf Ha K1 K2. cbn zeta. pose proof (runs_wf Hcodec os db Hdb) as Hwf.
  apply (append_revision_row Hcodec) in Ha as (Hwf1 & base & r & _ & Hr & _ & _ & _ & Hk & _ & _); [|done].
  pose proof (extends_steps _ _ (runs_steps Hcodec os' db1 Hwf1)) as Hext.
  pose proof (runs_wf Hcodec os' db1 Hwf1) as Hwf2. set (later := runs os' db1) in *.
  assert (revisions later !! rid1 = Some r) as Hr2 by (eapply lookup_weaken; [exact Hr|apply Hext]).
  assert (forall s db2, append_revision in2 rid2 t2 later <> (Ok s, db2)) as Hno.
  { intros s2 db2 Ha. apply transaction_Ok in Ha as [Ha _]. unfold append_revision_in_transaction in Ha. inv_tx.
    match goal with X : append_revision_in_transaction_with_category _ _ _ _ _ = _ |- _ =>
      apply (append_effect Hcodec) in X as
      (d & ? & r2 & ? & ? & ? & ? & ? & ? & ? & ? & ? & Hkey & ? & Hfresh & _); [|done] end.
    apply (Hfresh k rid1 r); congruence. }
  destruct (append_revision in2 rid2 t2 later) as [[s2|e] db2] eqn:E; [by destruct (Hno s2 db2)|].
  assert (db2 = later) as -> by by eapply transaction_error.
  exists e. split; [done|]. intros Hv Hfree (d & Hd & Hcur).
  assert (append_revision in2 rid2 t2 later = (Err DuplicateIdempotencyKey, later)) as E'; [|congruence].
  destruct (wf_current _ (wf_is_chain _ Hwf2) _ _ Hd) as (cur & Hr3 & _ & _).
  unfold append_revision, append_revision_in_transaction, append_revision_in_transaction_with_category, transaction.
  unfold mbind, tx_bind, lift, read. rewrite !Hv. cbn. rewrite Hd. cbn. rewrite Hr3. cbn.
  rewrite Hcur, N.eqb_refl. cbn. unfold insert_revision, mbind, tx_bind, lift, execute, insert_revision_row. cbn.
  match goal with |- context [revision_to_json ?s] => destruct (proj1 Hcodec s) as (j & -> & _) end. cbn.
  rewrite Hfree, K2. cbn. rewrite (key_taken_any_row later k rid1 r) by congruence. done.
Qed.

Lemma revision_number_positive db rid r : wf_chain db -> revisions db !! rid = Some r -> (1 <= rev_number r)%N.
Proof.
  intros Hc Hr. pose proof (wf_parent _ Hc _ _ Hr) as Hp.
  destruct (rev_parent_revision_id r); [destruct Hp as (? & _ & _ & ->)|rewrite Hp]; lia.
Qed.

Lemma revision_ancestors db : wf_chain db -> forall n rid r, revisions db !! rid = Some r ->
  rev_number r = n -> forall k, (1 <= k <= n)%N ->
  exists rid' r', revisions db !! rid' = Some r' /\ rev_document_id r' = rev_document_id r /\ rev_number r' = k.
Proof.
  intros Hc n. induction n as [|n IH] using N.peano_ind; intros rid r Hr Hn k Hk; [lia|].
  destruct (decide (k = rev_number r)) as [->|]; [by exists rid, r|].
  pose proof (wf_parent _ Hc _ _ Hr) as Hp. destruct (rev_parent_revision_id r) as [q|]; [|lia].
  destruct Hp as (r0 & Hq & Hd & Hnum). rewrite <-Hd. eapply IH; [exact Hq|lia|lia].
Qed.

(** C9. The history of a document is one gap-free chain: its revisions are
  numbered 1 to [n] without repetition, the current revision is number [n],
  and the parent of each revision is the one numbered just before it. *)
Theorem revision_history_is_linear os db id d cur :
  codec_roundtrip -> no_content db ->
  let s := runs os db in
  documents s !! id = Some d -> revisions s !! doc_current_revision_id d = Some cur ->
  (forall rid r, revisions s !! rid = Some r -> rev_document_id r = id ->
   (1 <= rev_number r <= rev_number cur)%N) /\
  forall k, (1 <= k <= rev_number cur)%N -> exists rid r,
  revisions s !! rid = Some r /\ rev_document_id r = id /\ rev_number r = k /\
  (forall rid' r', revisions s !! rid' = Some r' -> rev_document_id r' = id -> rev_number r' = k -> rid' = rid) /\
  match rev_parent_revision_id r with
  | None => k = 1%N
  | Some q => exists rq, revisions s !! q = Some rq /\ rev_document_id rq = id /\ k = (rev_number rq + 1)%N
  end.
Proof.
  intros Hcodec Hdb%no_content_wf s Hd Hcur.
  pose proof (runs_wf Hcodec os db Hdb) as [Hc _ _]. fold s in Hc.
  destruct (wf_current _ Hc _ _ Hd) as (cur' & Hcur' & Hdoc & Hmax).
  assert (cur' = cur) as -> by congruence. split.
  - intros rid r Hr Hrd. split; [by eapply revision_number_positive|by eapply Hmax].
  - intros k Hk. destruct (revision_ancestors s Hc _ _ cur Hcur eq_refl k Hk) as (rid & r & Hr & Hrd & Hn).
    exists rid, r. split_and!; [done|congruence|done| |].
    + intros rid' r' Hr' Hrd' Hn'. eapply (wf_number _ Hc); [exact Hr'|exact Hr|congruence|congruence].
    + pose proof (wf_parent _ Hc _ _ Hr) as Hp. destruct (rev_parent_revision_id r); [|congruence].
      destruct Hp as (rq & ? & ? & ?). exists rq. split_and!; congruence.
Qed.

(** C8. An accepted AI proposal is attributed and never published: its
  envelope validates, the stored revision names the agent, is marked
  AI-generated and not human-reviewed, its audit record decodes to the very
  envelope, and no published revision of any document changed. *)
Theorem ai_proposal_is_attributed_and_unpublished os db e rid now s db' :
  codec_roundtrip -> no_content db ->
  append_ai_proposal e rid now (runs os db) = (Ok s, db') ->
  envelope_validate now e = Ok tt /\
  ra_kind (rs_actor s) = Agent /\ ra_id (rs_actor s) = aa_id (env_actor e) /\
  pa_kind (rs_authorship s) = AiGenerated /\ pa_human_reviewed (rs_authorship s) = false /\
  (exists a, ai_proposal_audits db' !! rid = Some a /\
   parse_audit (pr_document_id (env_proposal e)) (rid, a) =
     Ok {| au_schema_version := AI_PROPOSAL_AUDIT_SCHEMA_VERSION;
           au_document_id := pr_document_id (env_proposal e);
           au_accepted_revision_id := rid; au_received_at := now; au_envelope := e |}) /\
  (forall id d, documents (runs os db) !! id = Some d ->
   exists d', documents db' !! id = Some d' /\
     doc_published_revision_id d' = doc_published_revision_id d) /\
  routes db' = routes (runs os db).
Proof.
  intros Hcodec Hdb%no_content_wf Ha. pose proof (runs_wf Hcodec os db Hdb) as Hwf.
  set (before := runs os db) in *.
  assert (same_public before db') as (Hroutes & _ & Hdocs & _).
  { apply drafts_public. pose proof (run_drafts Hcodec (AppendAiProposal e rid now) before Hwf eq_refl) as Hr.
    cbn in Hr. by rewrite Ha in Hr. }
  apply transaction_Ok in Ha as [Ha _]. cbn zeta in Ha. inv_tx.
  match goal with X : append_revision_in_transaction _ _ _ _ = _ |- _ =>
    apply (append_effect Hcodec) in X as
    (d & base & r & p & path & _ & _ & _ & _ & Hrd & _ & _ & _ & Hs & _ & _ & _ & _ & Hcar & ->);
    [|done] end.
  destruct Hcar as (_ & _ & _ & _ & _ & _ & _ & Eauth & Eactor).
  match goal with X : insert_ai_proposal _ _ = _ |- _ => unfold insert_ai_proposal in X; inv_tx end.
  match goal with X : envelope_to_json _ = Some ?j |- _ =>
    destruct (proj2 Hcodec e) as (j' & Hj & Hdec); cbn in X; rewrite X in Hj; injection Hj as <- end.
  match goal with X : insert_audit _ _ _ = _ |- _ => unfold insert_audit in X; inv_ok end. cbn in *.
  rewrite Eauth, Eactor. split_and!; try done.
  - eexists. rewrite (st_id _ _ _ Hs), lookup_insert_eq. split; [done|].
    unfold parse_audit. cbn. rewrite Hdec. cbn.
    rewrite (st_document _ _ _ Hs), Hrd. cbn. rewrite !N.eqb_refl.
    by rewrite (proj2 (str_eqb_eq _ _) eq_refl).
  - intros id d0 Hd0. destruct (Hdocs _ _ Hd0) as (d' & ? & _ & ? & _). eauto.
Qed.
End writing.

(** ** Access control *)

Section access.
Context `{StoreCodec, Sha256Lib, !LayerCodec}.

Definition owns (db : DB) (user site : Uuid) : bool :=
  is_some_and (fun m => bool_decide (ms_role m = Owner)) (site_memberships db !! (site, user)).
Definition member (db : DB) (user site : Uuid) : bool := is_some (site_memberships db !! (site, user)).
Definition document_in (db : DB) (site id : Uuid) : bool :=
  is_some_and (fun d => (doc_site_id d =? site)%N) (documents db !! id).

Definition publicly_in (db : DB) (site id : Uuid) : bool :=
  is_some_and (fun d => (doc_site_id d =? site)%N && is_public d) (documents db !! id).

(** Who may run an operation: owners manage taxonomy, publish and import, any
  member drafts, and only documents of the named site are touched; any
  registered user comments on a published document of the named site; the
  administrator curates the home page.  The four [ContentRepository]
  operations carry no actor. *)
Definition authorized (o : op) (db : DB) : bool :=
  match o with
  | CreateDocument _ _ _ _ | AppendRevision _ _ _ | AppendAiProposal _ _ _ | PublishDocument _ _ _ => true
  | CreateInOwnedSite owner input _ _ _ => owns db owner (nd_site_id input)
  | CreateInWritableSite actor input _ _ _ _ => member db actor (nd_site_id input)
  | ReviseInWritableSite actor site input _ _ _ =>
    member db actor site && document_in db site (pr_document_id input)
  | PublishInOwnedSite owner site id _ _ => owns db owner site && document_in db site id
  | AssignCategory actor site id _ _ _ => member db actor site && document_in db site id
  | CreateCategory owner site _ _ _ | UpdateCategory owner site _ _ _ | ArchiveCategory owner site _ _
  | CreateSeries owner site _ _ _ _ | PromoteCategory owner site _ _ _
  | ReplaceSeriesOrder owner site _ _ _ | UpdateSeries owner site _ _ _ | ArchiveSeries owner site _ _
  | ImportOfflineBatch _ _ owner site _ _ _ _ _ => owns db owner site
  | CreatePlainInWritableSite actor input _ _ _ => member db actor (nd_site_id input)
  | ReviseInOwnedSite owner site input _ _ => owns db owner site && document_in db site (pr_document_id input)
  | RevisePlainInWritableSite actor site input _ _ =>
    member db actor site && document_in db site (pr_document_id input)
  | CreateComment author site document _ _ _ =>
    bool_decide (author ∈ users db) && publicly_in db site document
  | ReplaceHomePins admin _ _ =>
    is_some_and (fun c => (cp_owner_user_id c =? admin)%N) (admin_control_plane db)
  end.

Definition refusal (e : RepositoryError) : Prop := e = NotFound \/ exists m, e = Validation m.
Definition refused {A} (r : result RepositoryError A) : Prop := exists e, r = Err e /\ refusal e.

Lemma refused_lift {A B} (r : result RepositoryError A) (k : A -> tx B) db :
  (forall e, r = Err e -> refusal e) -> (forall a, r = Ok a -> refused (k a db)) ->
  refused ((lift r ≫= k) db).
Proof. intros He Hk. destruct r as [a|e]; cbn; [by apply Hk|]. exists e. auto. Qed.
Lemma refused_read {A B} (q : query A) (k : A -> tx B) db :
  (q db = Err NotFound \/ exists a, q db = Ok a /\ refused (k a db)) -> refused ((read q ≫= k) db).
Proof.
  intros [E|(a & E & Hk)]; unfold mbind, tx_bind, read; rewrite E; cbn; [|done].
  exists NotFound. split; [done|by left].
Qed.
Lemma refused_transaction {A} (m : tx A) db : refused (m db) ->
  exists e, outcome (transaction m db) = (Some e, db) /\ refusal e.
Proof.
  intros (e & E & He). exists e. split; [|done]. unfold transaction, mbind, tx_bind. by rewrite E.
Qed.
Lemma refused_then_load {A B} (m : tx A) (q : query B) db : refused (m db) ->
  exists e, outcome (then_load (transaction m db) q) = (Some e, db) /\ refusal e.
Proof.
  intros (e & E & He). exists e. split; [|done]. unfold transaction, mbind, tx_bind. by rewrite E.
Qed.

Lemma not_owner db user site : owns db user site = false -> ensure_site_owner user site db = Err NotFound.
Proof.
  unfold owns, ensure_site_owner, owns_site_in_connection.
  destruct (site_memberships db !! (site, user)) as [m|]; cbn; [|done]. by intros ->.
Qed.
Lemma writer_cases db user site :
  (member db user site = false /\ ensure_site_writer user site db = Err NotFound) \/
  (member db user site = true /\ exists r, ensure_site_writer user site db = Ok r).
Proof.
  unfold member, ensure_site_writer, load_site_membership.
  destruct (site_memberships db !! (site, user)) as [m|]; cbn; [right|by left].
  split; [done|]. destruct (ms_role m); cbn; eauto.
Qed.
Lemma owner_cases db user site :
  (owns db user site = false /\ ensure_site_owner user site db = Err NotFound) \/
  (owns db user site = true /\ ensure_site_owner user site db = Ok tt).
Proof.
  destruct (owns db user site) eqn:E; [right|left; by auto using not_owner]. split; [done|].
  unfold owns, ensure_site_owner, owns_site_in_connection in *.
  destruct (site_memberships db !! (site, user)) as [m|]; cbn in *; [|done]. by rewrite E.
Qed.
Lemma document_not_in db site id : document_in db site id = false ->
  ensure_document_in_site site id db = Err NotFound.
Proof.
  unfold document_in, ensure_document_in_site. destruct (documents db !! id) as [d|]; cbn; [|done].
  by intros ->.
Qed.

Lemma validation_refusal {A} (r : result ContentValidationError A) e : map_err validation_error r = Err e -> refusal e.
Proof. destruct r; [done|]. intros [= <-]. right. eexists. done. Qed.
Lemma required_text_refusal v f n e : validate_required_text v f n = Err e -> refusal e.
Proof.
  unfold validate_required_text, fail_if. destruct (_ || _)%bool; [|done]. intros [= <-]. right. eauto.
Qed.
Lemma optional_text_refusal v f n e : validate_optional_text v f n = Err e -> refusal e.
Proof.
  unfold validate_optional_text. destruct (trim <$> v) as [t|]; [|done]. destruct (is_empty t); [done|].
  destruct (_ || _)%bool; [|done]. intros [= <-]. right. eauto.
Qed.

Lemma comment_refusal v e : validate_comment_markdown v = Err e -> refusal e.
Proof.
  unfold validate_comment_markdown, fail_if. destruct (_ || _)%bool; [|done]. intros [= <-]. right. eauto.
Qed.
Lemma import_unauthorized ids post_ids owner site batch reserved dry_run now db accounts :
  ensure_site_owner owner site db = Err NotFound ->
  exists e, import_offline_batch_with_reserved_roots ids post_ids owner site batch reserved dry_run now
              (db, accounts) = (Err e, (db, accounts)) /\ refusal e.
Proof.
  intros Ho. unfold import_offline_batch_with_reserved_roots.
  destruct (validate_offline_import_batch site batch reserved) as [[]|e] eqn:Hv; cbn -[ensure_site_owner].
  - rewrite Ho. eexists. split; [done|by left].
  - exists e. split; [done|]. right. by apply import_validation_error in Hv.
Qed.

Lemma assign_outside db actor site id rid co now : document_in db site id = false ->
  refused (assign_revision_category_in_transaction actor site id rid co now db).
Proof.
  intros E. unfold assign_revision_category_in_transaction. apply refused_read. left.
  unfold document_in in E. destruct (documents db !! id) as [d|]; [|done]. cbn in E. by rewrite E.
Qed.

Lemma run_unauthorized o db :
  authorized o db = false ->
  exists e, run o db = (Some e, db) /\ (e = NotFound \/ exists message, e = Validation message).
Proof.
  intros Ha. destruct o; try discriminate; cbn [run authorized] in *.
  - apply refused_transaction, refused_lift; [apply validation_refusal|]. intros [] _.
    apply refused_read. left. by apply not_owner.
  - apply refused_transaction, refused_lift; [apply validation_refusal|]. intros [] _.
    apply refused_read. left. destruct (writer_cases db actor (nd_site_id input)) as [[_ ->]|[E _]]; congruence.
  - apply refused_transaction, refused_lift; [apply validation_refusal|]. intros [] _.
    apply refused_read. destruct (writer_cases db actor site) as [[_ ->]|[E [r ->]]]; [by left|right].
    exists r. split; [done|]. apply refused_read. left. apply document_not_in. by rewrite E in Ha.
  - apply refused_then_load, refused_read.
    destruct (owner_cases db owner site) as [[_ ->]|[E ->]]; [by left|right].
    eexists. split; [done|]. apply refused_read. left. apply document_not_in. by rewrite E in Ha.
  - apply refused_transaction, refused_read.
    destruct (writer_cases db actor site) as [[_ ->]|[E [r ->]]]; [by left|right].
    exists r. split; [done|]. apply assign_outside. by rewrite E in Ha.
  - apply refused_transaction, refused_read. left. by apply not_owner.
  - apply refused_then_load, refused_lift; [apply required_text_refusal|]. intros t _.
    apply refused_lift; [apply optional_text_refusal|]. intros d _.
    apply refused_read. left. by apply not_owner.
  - apply refused_then_load, refused_read. left. by apply not_owner.
  - apply refused_transaction, refused_read. left. by apply not_owner.
  - apply refused_transaction, refused_read. left. by apply not_owner.
  - unfold replace_series_order. destruct (_ || _)%bool; [by eexists; split; [|right; eauto]|].
    apply refused_then_load, refused_read. left. by apply not_owner.
  - apply refused_transaction, refused_lift; [apply validation_refusal|]. intros [] _.
    apply refused_read. left. destruct (writer_cases db actor (nd_site_id input)) as [[_ ->]|[E _]]; congruence.
  - apply refused_transaction, refused_lift; [apply validation_refusal|]. intros [] _.
    apply refused_read. destruct (owner_cases db owner site) as [[_ ->]|[E ->]]; [by left|right].
    eexists. split; [done|]. apply refused_read. left. apply document_not_in. by rewrite E in Ha.
  - apply refused_transaction, refused_lift; [apply validation_refusal|]. intros [] _.
    apply refused_read. destruct (writer_cases db actor site) as [[_ ->]|[E [r ->]]]; [by left|right].
    exists r. split; [done|]. apply refused_read. left. apply document_not_in. by rewrite E in Ha.
  - apply refused_then_load, refused_lift; [apply required_text_refusal|]. intros t _.
    apply refused_lift; [apply optional_text_refusal|]. intros d _.
    apply refused_read. left. by apply not_owner.
  - apply refused_then_load, refused_read. left. by apply not_owner.
  - apply refused_then_load, refused_lift; [apply comment_refusal|]. intros t _. apply refused_read.
    unfold ensure_user_exists, publicly_in in *. destruct (bool_decide (author ∈ users db)); [right|by left].
    eexists. split; [done|]. apply refused_read. left. unfold ensure_published_document_in_site.
    destruct (documents db !! document) as [d|]; [|done]. cbn in Ha. by rewrite Ha.
  - unfold replace_home_pins. destruct (_ || _)%bool; [by eexists; split; [|right; eauto]|].
    apply refused_transaction, refused_read. destruct (admin_control_plane db) as [c|]; [right|by left].
    eexists. split; [done|]. cbn in Ha. rewrite Ha. eexists. split; [done|by left].
  - destruct (import_unauthorized ids post_ids owner site batch reserved dry_run now db accounts)
      as (e & E & He); [by apply not_owner|].
    exists e. unfold import_outcome. rewrite E. split; [done|exact He].
Qed.

(** C7. Access control is enforced inside the transaction: an operation by
  somebody who is not an owner (or, for drafting, not a member) of the site,
  or on a document of another site, is refused with [NotFound] or a
  validation message and changes nothing. *)
Theorem unauthorized_operation_is_refused o db :
  authorized o db = false ->
  exists e, run o db = (Some e, db) /\ (e = NotFound \/ exists message, e = Validation message).
Proof. apply run_unauthorized. Qed.
End access.
