(* ===== verification/ImportTheorems.v ===== *)
(** * What the offline import guarantees

    Retries, dry runs and the identity of imported posts, for every store the
    operations can reach. *)

From Stdlib Require Import Bool NArith ZArith Lia.
From S2P Require Import Prelude Text Extern Content Ai2Ai Accounts StoreBase StoreTaxonomy StoreContent OfflineImport StoreSpec StoreRefine ImportRefine Store StoreTheorems.

Section theorems.
Context `{StoreCodec, Sha256Lib, !LayerCodec}.

Lemma count_if_all {A} (p : A -> bool) l : Forall (fun a => p a = true) l -> count_if p l = size_of l.
Proof.
  unfold count_if, size_of. induction 1 as [|a l Ha _ IH]; [done|]. cbn. rewrite Ha. cbn. lia.
Qed.
Lemma count_if_none {A} (p : A -> bool) l : Forall (fun a => p a = false) l -> count_if p l = 0%N.
Proof. unfold count_if, size_of. induction 1 as [|a l Ha _ IH]; [done|]. cbn. by rewrite Ha. Qed.

Lemma reconcile_again owner name now now2 accounts renamed accounts' :
  reconcile_owner_name owner name now accounts = Ok (renamed, accounts') ->
  reconcile_owner_name owner name now2 accounts' = Ok (false, accounts').
Proof.
  unfold reconcile_owner_name. intros Hr. inv_ok.
  match goal with X : validate_required_text _ _ _ = Ok ?n |- _ => rename X into Hn; rename n into n0 end.
  rewrite Hn. cbn. destruct (str_eqb _ n0) eqn:E; inv_ok.
  - match goal with X : user_table _ !! _ = _ |- _ => rewrite X end. cbn. by rewrite E.
  - cbn. rewrite lookup_insert_eq. cbn. by rewrite (proj2 (str_eqb_eq _ _) eq_refl).
Qed.

(** Content operations never touch the memberships. *)
Lemma step_members db db' : content_step db db' -> site_memberships db' = site_memberships db.
Proof. by intros [db1 []| |]. Qed.
Lemma steps_keep_owner owner site db db' : rtc content_step db db' ->
  ensure_site_owner owner site db' = ensure_site_owner owner site db.
Proof.
  induction 1 as [|db1 db2 db3 Hs%step_members _ IH]; [done|]. rewrite IH.
  unfold ensure_site_owner, owns_site_in_connection. by rewrite Hs.
Qed.

Lemma no_aliases_created posts outcomes : Forall (fun o => imported o = false) outcomes ->
  foldr N.add 0%N (zip_with (fun p o => if imported o then size_of (oip_aliases p) else 0%N) posts outcomes) = 0%N.
Proof.
  intros Ho. revert posts. induction Ho as [|o os Ho _ IH]; intros [|p posts]; try done.
  cbn [zip_with foldr]. by rewrite Ho, IH.
Qed.

(** C14. An import can be retried safely: once a batch has been imported, importing the
  same batch again, dry or not, at any later time and with any fresh identifiers,
  succeeds, changes nothing in the content or account tables, and reports
  every post unchanged, every category reused and nothing created. *)
Theorem exact_retry_changes_nothing os db accounts owner site batch reserved ids post_ids now report state :
  codec_roundtrip -> no_content db ->
  import_offline_batch_with_reserved_roots ids post_ids owner site batch reserved false now
    (runs os db, accounts) = (Ok report, state) ->
  forall ids' post_ids' now' dry_run, exists report',
    import_offline_batch_with_reserved_roots ids' post_ids' owner site batch reserved dry_run now' state
    = (Ok report', state) /\
    oir_owner_display_name_updated report' = false /\
    oir_categories_created report' = 0%N /\ oir_categories_reused report' = size_of (oib_categories batch) /\
    oir_posts_imported report' = 0%N /\ oir_posts_unchanged report' = size_of (oib_posts batch) /\
    oir_aliases_created report' = 0%N.
Proof.
  intros Hcodec Hdb%no_content_wf Hi. pose proof (runs_wf Hcodec os db Hdb) as Hwf.
  apply (import_Ok Hcodec) in Hi as (renamed & accounts' & created & outcomes & db' & Hv & Ho & Hr & Hc & _ & Hwf' & _ & ->);
    [|done].
  destruct (import_content_effect Hcodec _ _ _ _ _ _ _ _ _ Hwf Hc) as ([Hsteps _] & Hcs & Hps).
  intros ids' post_ids' now' dry_run.
  destruct (import_posts_again post_ids' owner site (oib_source batch) 0 _ _ Hps) as (os' & Hos & Hun & Hlen).
  exists (import_report dry_run false (replicate (length (oib_categories batch)) false) (oib_posts batch) os').
  split.
  - unfold import_offline_batch_with_reserved_roots. rewrite Hv. cbn -[ensure_site_owner].
    rewrite (steps_keep_owner owner site _ _ Hsteps), Ho. cbn. rewrite (reconcile_again _ _ _ _ _ _ _ Hr). cbn.
    unfold import_content, mbind, tx_bind. rewrite import_categories_again, Hos by done. cbn.
    unfold finish. cbn. rewrite (wf_deferred _ Hwf'). by destruct dry_run.
  - unfold import_report. cbn. assert (Forall (fun b => id b = false) (replicate (length (oib_categories batch)) false))
      as Hnone by by apply Forall_replicate.
    split_and!; [done|by apply count_if_none| |by apply count_if_none| |by apply no_aliases_created].
    + rewrite count_if_all; [unfold size_of; by rewrite length_replicate|by apply Forall_replicate].
    + rewrite count_if_all; [unfold size_of; by rewrite Hlen|].
      eapply Forall_impl; [exact Hun|]. by intros o ->.
Qed.

(** Everything a report says apart from the kind of run. *)
Definition report_body (r : OfflineImportReport) :=
  (oir_owner_display_name_updated r, oir_categories_created r, oir_categories_reused r,
   oir_posts_imported r, oir_posts_unchanged r, oir_aliases_created r, oir_posts r).

Lemma import_cases (Hcodec : codec_roundtrip) ids post_ids owner site batch reserved now db accounts : wf db ->
  (exists e, forall dry_run,
     import_offline_batch_with_reserved_roots ids post_ids owner site batch reserved dry_run now (db, accounts)
     = (Err e, (db, accounts))) \/
  (exists renamed created outcomes after, forall dry_run,
     import_offline_batch_with_reserved_roots ids post_ids owner site batch reserved dry_run now (db, accounts)
     = (Ok (import_report dry_run renamed created (oib_posts batch) outcomes),
        if dry_run then (db, accounts) else after)).
Proof.
  intros Hwf. unfold import_offline_batch_with_reserved_roots.
  destruct (validate_offline_import_batch site batch reserved) as [[]|e]; [|left; by exists e]. cbn -[ensure_site_owner].
  destruct (ensure_site_owner owner site db) as [[]|e]; [|left; by exists e]. cbn.
  destruct (reconcile_owner_name owner (oib_owner_display_name batch) now accounts) as [[renamed accounts']|e];
    [|left; by exists e]. cbn.
  destruct (import_content ids post_ids owner site batch now db) as [[[created outcomes] db']|e] eqn:Hc;
    [|left; by exists e]. cbn.
  destruct (import_content_effect Hcodec _ _ _ _ _ _ _ _ _ Hwf Hc) as ([Hs _] & _ & _).
  right. exists renamed, created, outcomes, (db', accounts'). intros dry_run.
  unfold finish. cbn. rewrite (wf_deferred db'); [by destruct dry_run|by eapply wf_steps].
Qed.

(** A dry run predicts the import: on every reachable store it leaves content and
  accounts as they are, fails exactly when the import fails, with the same
  error, and otherwise reports exactly what the import reports. *)
Theorem dry_run_predicts_import os db accounts owner site batch reserved ids post_ids now :
  codec_roundtrip -> no_content db ->
  let import dry_run := import_offline_batch_with_reserved_roots ids post_ids owner site batch reserved
    dry_run now (runs os db, accounts) in
  (import true).2 = (runs os db, accounts) /\
  report_body <$> (import true).1 = report_body <$> (import false).1.
Proof.
  intros Hcodec Hdb%no_content_wf. cbn zeta.
  destruct (import_cases Hcodec ids post_ids owner site batch reserved now _ accounts (runs_wf Hcodec os db Hdb))
    as [(e & E)|(renamed & created & outcomes & after & E)]; by rewrite !E.
Qed.

(** ** What readers see of an imported post *)

Lemma alias_fold_keys k m l : is_Some (m !! k) \/ k ∈ oia_path <$> l -> is_Some (foldl alias_entry m l !! k).
Proof.
  revert m. induction l as [|a l IH]; intros m; cbn; [by intros [?|?%not_elem_of_nil]|].
  rewrite elem_of_cons. intros Hk. apply IH. unfold alias_entry. rewrite lookup_insert_is_Some'.
  destruct Hk as [?|[->|?]]; auto.
Qed.

(** The paths at which an imported post is expected. *)
Definition post_paths (canonical : rstr) (post : OfflineImportPost) : list rstr :=
  canonical :: (oia_path <$> oip_aliases post).

Lemma expected_routes_keys canonical post path : path ∈ post_paths canonical post ->
  is_Some (expected_routes canonical post !! path).
Proof.
  intros Hp. apply alias_fold_keys. apply elem_of_cons in Hp as [->|?]; [left|by right].
  rewrite lookup_singleton_eq. eauto.
Qed.

(** The matched record, field by field. *)
Lemma retry_matches_elim site source post cat did rid db :
  ensure_offline_import_retry_matches site source post cat did rid db = Ok tt ->
  exists d, load_document did Current db = Ok d /\ ds_site_id d = site /\ ds_status d = Published /\
    ds_current_revision_id d = rid /\ ds_published_revision_id d = Some rid /\
    ds_created_at d = oip_created_at post /\ rs_revision_number (ds_revision d) = 1%N /\
    rs_title (ds_revision d) = oip_title post /\ rs_slug (ds_revision d) = oip_slug post /\
    rs_source_markdown (ds_revision d) = oip_source_markdown post /\
    rs_authorship (ds_revision d) = nd_authorship (offline_import_document site source post) /\
    rs_actor (ds_revision d) = nd_actor (offline_import_document site source post) /\
    rs_created_at (ds_revision d) = oip_created_at post /\
    routes_of db site did = expected_routes (category_route_path (Some cat) (oip_slug post)) post.
Proof.
  unfold ensure_offline_import_retry_matches, invalid. intros Hm. inv_ok. bool_simpl.
  match goal with X : load_document _ _ _ = Ok ?d |- _ => exists d end.
  repeat match goal with X : str_eqb _ _ = true |- _ => apply str_eqb_eq in X end.
  by split_and!.
Qed.

(** C15. Imported posts are served as described: after a batch has been imported, every
  post answers at its category path and at every alias with the same published
  document, whose first revision carries the batch's title, slug, Markdown,
  author, generator and review flag and whose dates are the batch's. *)
Theorem imported_posts_are_served os db accounts owner site batch reserved ids post_ids now report state post :
  codec_roundtrip -> no_content db ->
  import_offline_batch_with_reserved_roots ids post_ids owner site batch reserved false now
    (runs os db, accounts) = (Ok report, state) ->
  post ∈ oib_posts batch ->
  exists slug cat snap, normalize_new_category_slug (oip_primary_category post) = Ok slug /\
    load_category_by_slug site slug state.1 = Ok cat /\
    ds_status snap = Published /\ ds_created_at snap = oip_created_at post /\
    rs_revision_number (ds_revision snap) = 1%N /\
    rs_title (ds_revision snap) = oip_title post /\ rs_slug (ds_revision snap) = oip_slug post /\
    rs_source_markdown (ds_revision snap) = oip_source_markdown post /\
    rs_created_at (ds_revision snap) = oip_created_at post /\
    rs_authorship (ds_revision snap) = {| pa_kind := Imported; pa_generator := Some (oib_source batch);
      pa_human_reviewed := oip_human_reviewed post |} /\
    rs_actor (ds_revision snap) = {| ra_kind := Importer; ra_id := oip_author_id post;
      ra_display_name := Some (oip_author_display_name post) |} /\
    forall path, path ∈ post_paths (category_route_path (Some cat) (oip_slug post)) post ->
      get_published_by_slug site path state.1 = Ok snap.
Proof.
  intros Hcodec Hdb%no_content_wf Hi Hpost. pose proof (runs_wf Hcodec os db Hdb) as Hwf.
  apply (import_Ok Hcodec) in Hi as (renamed & accounts' & created & outcomes & db' & _ & _ & _ & Hc & _ & Hwf' & _ & ->);
    [|done].
  destruct (import_content_effect Hcodec _ _ _ _ _ _ _ _ _ Hwf Hc) as (_ & _ & Hps).
  rewrite Forall_forall in Hps.
  destruct (Hps post Hpost) as (slug & cat & key & did & rid & Hslug & Hcat & _ & _ & _ & Hm). cbn.
  apply retry_matches_elim in Hm as
    (d & Hd & Hsite & Hst & Hcur & Hpub & Hcr & Hn & Ht & Hs & Hmd & Hau & Hac & Hrc & Hroutes).
  assert (exists row, documents db' !! did = Some row) as [row Hrow].
  { unfold load_document in Hd. destruct (documents db' !! did); [eauto|done]. }
  destruct (load_current db' did row Hwf' Hrow) as (r & s & Hr & _ & Hrs & Hl).
  rewrite Hl in Hd. injection Hd as <-. cbn in *. rewrite Hcur in *.
  destruct (load_published db' did row rid Hwf' Hrow Hpub) as (r' & s' & Hr' & _ & Hrs' & Hl').
  assert (s' = s) as ->.
  { rewrite Hr in Hr'. injection Hr' as <-. pose proof (st_decodes _ _ _ Hrs) as E.
    rewrite (st_decodes _ _ _ Hrs') in E. by injection E. }
  exists slug, cat, (snapshot_of did rid row s (rev_created_at r')).
  cbn. rewrite Hau, Hac. do 11 (split; [done|]).
  intros path [e He]%(expected_routes_keys _ post). rewrite <-Hroutes, routes_of_lookup in He.
  unfold route_entry in He. pose proof (get_published_route db' site path Hwf') as G.
  destruct (routes db' !! (site, path)) as [rt|]; [|done]. cbn in He.
  destruct (route_document_id rt =? did)%N eqn:E; [|done]. bool_simpl. rewrite G, E. exact Hl'.
Qed.

(** ** Identity of imported posts *)

(** Two posts share an idempotency key only if they are the same post: the key
  determines the site, the import source and the post's identifier in it. *)
Theorem import_key_identifies_post site source id site' source' id' key :
  (site < 2 ^ 128)%N -> (site' < 2 ^ 128)%N ->
  offline_import_idempotency_key site source id = Ok key ->
  offline_import_idempotency_key site' source' id' = Ok key ->
  site = site' /\ source = source' /\ id = id'.
Proof.
  intros Hs Hs'. unfold offline_import_idempotency_key.
  assert (forall a b : rstr, @Ok RepositoryError _ a = Ok b -> a = b) as Ok_inj by (by intros a b [= ->]).
  intros (_ & _ & <-%Ok_inj)%bind_Ok (_ & _ & E%Ok_inj%eq_sym%app_inv_head)%bind_Ok.
  apply app_inj_1 in E as [E1 E]; [|by rewrite !uuid_hyphenated_length].
  apply app_inv_head, app_sep_inj in E as [E2%show_N_inj E]; [|by apply show_N_no_char..].
  apply app_str_len_inj in E as [-> E3]; [|done]. apply app_inv_head in E3 as ->.
  split_and!; [by apply uuid_hyphenated_inj|done..].
Qed.
End theorems.
