(* ===== verification/StoreSeries.v ===== *)
(** * The order of a series

    [replace_series_order] is a reader-visible permutation: the list read back
    after the commit is exactly the list the owner submitted. *)

From Stdlib Require Import Bool NArith ZArith Lia.
From S2P Require Import Prelude Text Extern Content Ai2Ai StoreBase StoreTaxonomy StoreContent StoreSpec StoreRefine Store Samples.

(** ** Positions *)

Lemma series_position_Ok index p : (0 <= index)%Z ->
  series_position index = Ok p <-> ((index + 1) * 1024 <= i64_max)%Z /\ p = ((index + 1) * 1024)%Z.
Proof.
  intros Hi. unfold series_position, SERIES_POSITION_STEP, i64_max, u64_max.
  destruct ((index + 1 <=? 2 ^ 64 - 1)%Z && ((index + 1) * 1024 <=? 2 ^ 64 - 1)%Z) eqn:E; cbn [mbind result_bind].
  - destruct (Z.leb_spec ((index + 1) * 1024) (2 ^ 63 - 1)); split; try done; intros; simplify_eq; naive_solver lia.
  - split; [done|]. intros [? _]. apply andb_false_iff in E as [E|E]; apply Z.leb_gt in E; lia.
Qed.

(** A list is strongly sorted when later entries are related to earlier ones. *)
Lemma StronglySorted_fmap_lookup {A} (R : A -> A -> Prop) (l : list A) :
  (forall m n a b, m < n -> l !! m = Some a -> l !! n = Some b -> R a b) -> StronglySorted R l.
Proof.
  induction l as [|x l IH]; intros Hl; constructor.
  - apply IH. intros m n a b Hmn Ha Hb. by apply (Hl (S m) (S n)); [lia| |].
  - apply Forall_forall. intros y Hy%list_elem_of_lookup. destruct Hy as [n Hn].
    by apply (Hl 0 (S n)); [lia| |].
Qed.

Section order.
Context `{StoreCodec, Sha256Lib, !LayerCodec}.

Lemma elem_of_public_items db site sid r :
  r ∈ public_items db site sid <->
  exists did i, series_items db !! (sid, did) = Some i /\ item_is_public db site sid (sid, did) i = true /\
  r = item_record ((sid, did), i).
Proof.
  unfold public_items. rewrite list_elem_of_fmap. split.
  - intros ([[s did] i] & -> & Hin). rewrite list_elem_of_In, filter_In, <-list_elem_of_In,
      elem_of_map_to_list in Hin. destruct Hin as [Hi Hp]. exists did, i.
    pose proof Hp as Hp'. unfold item_is_public in Hp'. bool_simpl. cbn in *. subst. done.
  - intros (did & i & Hi & Hp & ->). exists ((sid, did), i). split; [done|].
    by rewrite list_elem_of_In, filter_In, <-list_elem_of_In, elem_of_map_to_list.
Qed.

Lemma public_items_documents_NoDup db site sid : NoDup (sir_document_id <$> public_items db site sid).
Proof.
  unfold public_items. rewrite <-list_fmap_compose.
  assert (forall l : list ((Uuid * Uuid) * SeriesItemRow), NoDup (fst <$> l) ->
    NoDup (sir_document_id ∘ item_record <$>
    List.filter (fun kv => item_is_public db site sid kv.1 kv.2) l)) as Hf.
  { induction l as [|[[s did] i] l IH]; cbn; [constructor|]. rewrite NoDup_cons. intros [Hn Hl].
    destruct (item_is_public db site sid (s, did) i) eqn:Hp; [|by apply IH]. cbn.
    rewrite NoDup_cons. split; [|by apply IH].
    intros ([[s' did'] i'] & E & Hin)%list_elem_of_fmap. cbn in E. subst did'.
    rewrite list_elem_of_In, filter_In, <-list_elem_of_In in Hin. destruct Hin as [Hin Hp'].
    apply Hn. unfold item_is_public in Hp, Hp'. bool_simpl. cbn in *. subst.
    apply list_elem_of_fmap. by exists ((sid, did), i'). }
  apply Hf, NoDup_fst_map_to_list.
Qed.

Definition at_position (i : SeriesItemRow) (position : Z) : SeriesItemRow :=
  {| si_site_id := si_site_id i; si_position := position; si_added_at := si_added_at i |}.

Lemma reorder_effect index site sid ids db u db' :
  (0 <= index)%Z -> NoDup ids -> reorder_from index site sid ids db = Ok (u, db') ->
  exists items, db' = set_series_items db items /\
  (forall s did, s <> sid \/ did ∉ ids -> items !! (s, did) = series_items db !! (s, did)) /\
  (forall n did, ids !! n = Some did -> exists i, series_items db !! (sid, did) = Some i /\
     items !! (sid, did) = Some (at_position i ((index + Z.of_nat n + 1) * 1024))).
Proof.
  intros Hindex Hnd. revert index db Hindex. induction Hnd as [|did ids Hn Hnd IH]; intros index db Hindex Hr;
    cbn [reorder_from] in Hr; inv_tx.
  - exists (series_items db'). split_and!; [by destruct db'|done|by intros ??].
  - match goal with X : series_position _ = _ |- _ =>
      apply series_position_Ok in X as [_ ->]; [|done] end.
    match goal with X : set_item_position _ _ _ _ _ = Ok (?c, _) |- _ => rename X into Hset; assert (c = 1%N) as -> end.
    { match goal with X : negb _ = false |- _ => by apply negb_false_iff, N.eqb_eq in X end. }
    match goal with X : reorder_from _ _ _ _ _ = _ |- _ =>
      apply IH in X as (items & -> & Hother & Hin); [|lia] end.
    unfold set_item_position in Hset. destruct (series_items db !! (sid, did)) as [i|] eqn:Hi; [|by simplify_eq].
    destruct (si_site_id i =? site)%N; [|by simplify_eq]. inv_ok. cbn in *.
    exists items. split_and!; [done| |].
    + intros s d Hd. rewrite Hother by set_solver. rewrite lookup_insert_ne; [done|]. set_solver.
    + intros [|n] d Hd; cbn in Hd.
      * injection Hd as <-. exists i. split; [done|]. rewrite Hother by tauto.
        rewrite lookup_insert_eq. unfold at_position. do 3 f_equal. lia.
      * destruct (Hin n d Hd) as (i' & Hi' & E). exists i'.
        rewrite lookup_insert_ne in Hi'; [|intros [= <-]; by apply Hn, list_elem_of_lookup; exists n].
        split; [done|]. rewrite E. unfold at_position. do 2 f_equal. lia.
Qed.

(** Repositioning and touching a series leaves its members the same. *)
Lemma item_is_public_same db site sid now items k i i' :
  si_site_id i' = si_site_id i ->
  item_is_public (touch_series site sid now (set_series_items db items)) site sid k i'
  = item_is_public db site sid k i.
Proof.
  intros E. unfold item_is_public, touch_series. cbn. rewrite E.
  destruct (decide (k.1 = sid)) as [Hk|Hk].
  - rewrite Hk, lookup_alter_eq. destruct (series db !! sid) as [s|]; cbn; [|done].
    by destruct (se_site_id s =? site)%N.
  - by rewrite lookup_alter_ne.
Qed.

Definition listed (sid : Uuid) (items : gmap (Uuid * Uuid) SeriesItemRow) (did : Uuid) : SeriesItemRecord :=
  item_record ((sid, did), default {| si_site_id := 0; si_position := 0; si_added_at := 0 |} (items !! (sid, did))).

Lemma item_leb_total a b : item_leb a b = true \/ item_leb b a = true.
Proof.
  unfold item_leb. rewrite !orb_true_iff, !andb_true_iff, !Z.ltb_lt, !Z.eqb_eq, !N.leb_le. lia.
Qed.
Lemma item_leb_trans a b c : item_leb a b = true -> item_leb b c = true -> item_leb a c = true.
Proof.
  unfold item_leb. rewrite !orb_true_iff, !andb_true_iff, !Z.ltb_lt, !Z.eqb_eq, !N.leb_le. lia.
Qed.

Lemma as_set_size_NoDup ids : N.of_nat (size (as_set ids)) = size_of ids -> NoDup ids.
Proof.
  unfold size_of, as_set. intros E%Nat2N.inj. revert E. induction ids as [|id ids IH]; [constructor|].
  assert (forall l, size (list_to_set l : gset Uuid) <= length l) as Hle.
  { induction l as [|x l IHl]; cbn; [done|].
    pose proof (size_union_alt {[ x ]} (list_to_set l : gset Uuid)) as E. rewrite size_singleton in E.
    assert (size (list_to_set l ∖ {[ x ]} : gset Uuid) <= size (list_to_set l : gset Uuid))
      by (apply subseteq_size; set_solver). lia. }
  cbn. intros E. rewrite NoDup_cons.
  destruct (decide (id ∈ ids)) as [Hin|Hn].
  - exfalso. assert (({[ id ]} ∪ list_to_set ids : gset Uuid) = list_to_set ids) as Es.
    { apply set_eq. intros x. rewrite elem_of_union, elem_of_singleton, elem_of_list_to_set.
      split; [by intros [->|]|by right]. }
    rewrite Es in E. specialize (Hle ids). lia.
  - split; [done|]. apply IH. rewrite size_union in E; [rewrite size_singleton in E; lia|].
    apply disjoint_singleton_l. by rewrite elem_of_list_to_set.
Qed.

Lemma limit_all {A} n (l : list A) : (size_of (limit n l) < n)%N -> limit n l = l.
Proof.
  unfold limit, size_of. rewrite length_take. intros Hl. apply take_ge. lia.
Qed.
Lemma limit_id {A} n (l : list A) : (size_of l <= n)%N -> limit n l = l.
Proof. unfold limit, size_of. intros Hl. apply take_ge. lia. Qed.

Section reordered.
Context (db : DB) (site sid : Uuid) (now : DateTime) (items : gmap (Uuid * Uuid) SeriesItemRow)
  (ids : list Uuid) (Hnd : NoDup ids).
Context (Hset : forall did, did ∈ ids <-> did ∈ (sir_document_id <$> public_items db site sid))
  (Hother : forall s did, s <> sid \/ did ∉ ids -> items !! (s, did) = series_items db !! (s, did))
  (Hin : forall n did, ids !! n = Some did -> exists i, series_items db !! (sid, did) = Some i /\
 items !! (sid, did) = Some (at_position i ((0 + Z.of_nat n + 1) * 1024))).

Definition reordered_db : DB := touch_series site sid now (set_series_items db items).

Lemma listed_documents : sir_document_id <$> (listed sid items <$> ids) = ids.
Proof. rewrite <-list_fmap_compose. rewrite <-(list_fmap_id ids) at 2. by apply list_fmap_ext. Qed.
Lemma listed_position n r : (listed sid items <$> ids) !! n = Some r ->
  sir_position r = ((Z.of_nat n + 1) * 1024)%Z.
Proof.
  intros Hr. apply list_lookup_fmap_Some in Hr as (did & -> & Hd).
  destruct (Hin n did Hd) as (i & _ & E). unfold listed. rewrite E. done.
Qed.

Lemma reordered_members a : a ∈ public_items reordered_db site sid <-> a ∈ (listed sid items <$> ids).
Proof.
  rewrite elem_of_public_items, list_elem_of_fmap. split.
  - intros (did & i & Hi & Hp & ->). exists did. cbn in Hi. unfold listed. rewrite Hi. split; [done|].
    apply Hset, list_elem_of_fmap. unfold reordered_db in Hp.
    destruct (decide (did ∈ ids)) as [Hd|Hd].
    + apply list_elem_of_lookup in Hd as [m Hm]. destruct (Hin m did Hm) as (i0 & Hi0 & E).
      rewrite E in Hi. injection Hi as <-. rewrite (item_is_public_same _ _ _ _ _ _ i0) in Hp by done.
      exists (item_record ((sid, did), i0)). split; [done|]. apply elem_of_public_items. eauto 6.
    + rewrite Hother in Hi by by right. rewrite (item_is_public_same _ _ _ _ _ _ i) in Hp by done.
      exists (item_record ((sid, did), i)). split; [done|]. apply elem_of_public_items. eauto 6.
  - intros (did & -> & Hd). pose proof Hd as Hm. apply list_elem_of_lookup in Hm as [m Hm].
    destruct (Hin m did Hm) as (i0 & Hi0 & E). exists did. eexists. unfold listed. rewrite E. cbn.
    split_and!; [exact E| |done]. unfold reordered_db. rewrite (item_is_public_same _ _ _ _ _ _ i0) by done.
    apply Hset, list_elem_of_fmap in Hd as (r & Er & Hr).
    apply elem_of_public_items in Hr as (did' & i & Hi & Hp & ->). cbn in Er. subst did'.
    congruence.
Qed.

(** The list read after the repositioning of [ids]. *)
Lemma order_by_listed :
  order_by item_leb (public_items reordered_db site sid) = listed sid items <$> ids.
Proof.
  apply (StronglySorted_unique_strong (fun a b => item_leb a b = true)).
  - intros a b Ha Hb. rewrite elem_of_order_by, reordered_members in Ha.
    apply list_elem_of_lookup in Ha as [m Ha], Hb as [n Hb].
    pose proof (listed_position _ _ Ha). pose proof (listed_position _ _ Hb).
    unfold item_leb. rewrite !orb_true_iff, !andb_true_iff, !Z.ltb_lt, !Z.eqb_eq, !N.leb_le.
    intros ??. assert (m = n) as -> by lia. congruence.
  - apply order_by_StronglySorted; [apply item_leb_total|apply item_leb_trans].
  - apply StronglySorted_fmap_lookup. intros m n a b Hmn Ha Hb.
    pose proof (listed_position _ _ Ha). pose proof (listed_position _ _ Hb).
    unfold item_leb. rewrite orb_true_iff, Z.ltb_lt. lia.
  - rewrite order_by_Permutation. apply NoDup_Permutation.
    + eapply NoDup_fmap_1, public_items_documents_NoDup.
    + apply (NoDup_fmap_1 sir_document_id). by rewrite listed_documents.
    + apply reordered_members.
Qed.
End reordered.
End order.

Section series_properties.
Context `{StoreCodec, Sha256Lib, !LayerCodec}.

(** C10. A successful reorder is exactly the permutation the owner submitted:
  the list read back has the submitted documents in the submitted order, at
  positions 1024, 2048, ...; no member of the public series was added,
  dropped or repeated. *)
Theorem reorder_is_the_submitted_permutation owner site sid ids now db items db' :
  replace_series_order owner site sid ids now db = (Ok items, db') ->
  sir_document_id <$> items = ids /\
  ids ≡ₚ (sir_document_id <$> public_items db site sid) /\ NoDup ids /\
  forall n i, items !! n = Some i -> sir_position i = ((Z.of_nat n + 1) * 1024)%Z.
Proof.
  unfold replace_series_order. destruct (_ || _)%bool eqn:Eg; [done|]. bool_simpl.
  destruct (transaction _ db) as [[u|] db1] eqn:E; [|done]. intros [= <- <-].
  apply transaction_Ok in E as [E _]. inv_tx.
  match goal with X : N.of_nat _ = _ |- _ => apply as_set_size_NoDup in X as Hnd end.
  match goal with X : list_published_series_items_with_connection _ _ _ _ = _ |- _ =>
    unfold list_published_series_items_with_connection in X; injection X as <- end.
  match goal with X : reorder_from _ _ _ _ _ = _ |- _ =>
    apply reorder_effect in X as (items & -> & Hother & Hin); [|done|done] end.
  bool_simpl. rewrite limit_all in * by lia.
  set (public := public_items db site sid) in *.
  assert (forall did, did ∈ ids <-> did ∈ (sir_document_id <$> public)) as Hset.
  { intros did. match goal with X : as_set _ = as_set _ |- _ => rename X into Es end.
    rewrite <-(elem_of_list_to_set (C := gset Uuid) did ids). unfold as_set in Es. rewrite <-Es.
    rewrite elem_of_list_to_set. by rewrite order_by_Permutation. }
  pose proof (order_by_listed db site sid now items ids Hnd Hset Hother Hin) as Ho.
  unfold reordered_db in Ho. rewrite Ho, limit_id by (unfold size_of in *; rewrite length_fmap; lia).
  split_and!; [by apply listed_documents| |done|by eapply listed_position].
  apply NoDup_Permutation; [done|by apply public_items_documents_NoDup|done].
Qed.

(** A series position is the 1-based index times 1024, it is positive,
  and within the 500 documents a series may hold it always fits a signed
  64-bit column. *)
Theorem series_position_in_range index :
  (0 <= index < 500)%Z -> exists p, series_position index = Ok p /\
  p = ((index + 1) * SERIES_POSITION_STEP)%Z /\ (0 < p <= i64_max)%Z.
Proof.
  intros Hi. exists ((index + 1) * 1024)%Z. unfold SERIES_POSITION_STEP, i64_max.
  rewrite series_position_Ok by lia. unfold i64_max. lia.
Qed.
End series_properties.
