(* ===== verification/FeedTheorems.v ===== *)
(** * What the home feed guarantees

    On every reachable store the home page of an existing site loads: pins in
    slot order, then recent posts and sections, with no document repeated. *)

From Stdlib Require Import Bool NArith ZArith Lia.
From S2P Require Import Prelude Text Extern Content Ai2Ai StoreBase StoreTaxonomy StoreContent StoreFeed StoreSpec StoreRefine FeedRefine Store StoreTheorems StoreSeries.

(** ** Sublists *)

Lemma filter_sublist {A} (p : A -> bool) (l : list A) : List.filter p l `sublist_of` l.
Proof. induction l as [|a l IH]; [done|]. cbn. destruct (p a); by constructor. Qed.
Lemma limit_sublist {A} n (l : list A) : limit n l `sublist_of` l.
Proof. apply sublist_take. Qed.
Lemma limit_size {A} n (l : list A) : (size_of (limit n l) <= n)%N.
Proof. unfold size_of, limit. rewrite length_take. lia. Qed.
Lemma sublist_keys_NoDup {A B} (key : A -> B) l l' : l `sublist_of` l' -> NoDup (key <$> l') -> NoDup (key <$> l).
Proof. intros Hs Hn. eapply sublist_NoDup; [exact Hn|by apply fmap_sublist]. Qed.
Lemma omap_keys {A B K} (f : A -> option B) (key : B -> K) (key' : A -> K) l :
  (forall a b, f a = Some b -> key b = key' a) -> (key <$> omap f l) `sublist_of` (key' <$> l).
Proof.
  intros Hf. induction l as [|a l IH]; [done|]. cbn. destruct (f a) as [b|] eqn:E; cbn; [|by constructor].
  rewrite (Hf _ _ E). by constructor.
Qed.
Lemma sublist_Forall {A} (P : A -> Prop) l l' : l `sublist_of` l' -> Forall P l' -> Forall P l.
Proof. rewrite !Forall_forall. intros Hs Hf a Ha. apply Hf. by eapply elem_of_sublist. Qed.
Lemma traverse_fmap {E A B C} (g : A -> B) (f : B -> result E C) l :
  traverse f (g <$> l) = traverse (fun a => f (g a)) l.
Proof. induction l as [|a l IH]; [done|]. cbn. by rewrite IH. Qed.

Lemma concat_Forall {A} (P : A -> Prop) (ls : list (list A)) : Forall (Forall P) ls ->
  forall a, a ∈ concat ls -> P a.
Proof.
  intros Hf a Ha. apply list_elem_of_In, in_concat in Ha as (l & Hl%list_elem_of_In & Ha%list_elem_of_In).
  rewrite Forall_forall in Hf. specialize (Hf l Hl). rewrite Forall_forall in Hf. by apply Hf.
Qed.

Section feed.
Context `{StoreCodec, Sha256Lib, !LayerCodec}.

(** ** Loading published documents *)

Definition shown (db : DB) (snap : DocumentSnapshot) : Prop :=
  ds_status snap = Published /\ load_document (ds_id snap) PublishedRevision db = Ok snap.
Definition public_id (db : DB) (id : Uuid) : Prop :=
  exists d, documents db !! id = Some d /\ is_Some (doc_published_revision_id d).

Lemma load_public db id : wf db -> public_id db id ->
  exists snap, load_document id PublishedRevision db = Ok snap /\ ds_id snap = id /\ shown db snap.
Proof.
  intros Hwf (d & Hd & pid & Hp). destruct (load_published db id d pid Hwf Hd Hp) as (r & s & _ & _ & _ & Hl).
  eexists. split_and!; [exact Hl|done|]. split; [|exact Hl]. cbn.
  by rewrite (wf_status _ (wf_is_chain _ Hwf) _ _ Hd), Hp.
Qed.
Lemma load_public_ids db ids : wf db -> Forall (public_id db) ids ->
  exists snaps, traverse (fun id => load_document id PublishedRevision db) ids = Ok snaps /\
    ds_id <$> snaps = ids /\ Forall (shown db) snaps.
Proof.
  intros Hwf. induction 1 as [|id ids Hid _ (snaps & Hs & Hi & Hf)]; [by exists []|].
  destruct (load_public db id Hwf Hid) as (snap & Hl & <- & Hsn).
  exists (snap :: snaps). cbn. rewrite Hl. cbn. rewrite Hs. cbn. rewrite Hi. split_and!; [done..|by constructor].
Qed.

(** The category a reader finds the document in. *)
Definition shown_category (db : DB) (id : Uuid) : option Uuid :=
  d ← documents db !! id; r ← doc_published_revision_id d; p ← revision_categories db !! r; pl_category_id p.

Lemma published_in_public db site c id d : documents db !! id = Some d -> published_in db site c id d = true ->
  public_id db id /\ shown_category db id = Some c.
Proof.
  unfold published_in. intros Hd Hp. bool_simpl.
  match goal with X : is_public d = true |- _ => apply is_public_published in X end.
  split; [by exists d|]. unfold shown_category. rewrite Hd. cbn.
  destruct (doc_published_revision_id d) as [r|]; [|done]. cbn in *.
  destruct (revision_categories db !! r) as [p|]; [|done]. cbn in *. by bool_simpl.
Qed.

(** ** Pins *)

Lemma pin_record_Ok slot p : (1 <= slot <= 3)%Z ->
  pin_record (slot, p) = Ok {| pin_slot := Z.to_N slot; pin_document_id := hp_document_id p;
                               pin_pinned_at := hp_pinned_at p |}.
Proof.
  intros Hs. unfold pin_record. cbn [fst snd].
  by rewrite (proj2 (Z.leb_le 0 slot)), (proj2 (Z.leb_le slot 255)) by lia.
Qed.
Lemma pins_load db : pins_ok db (home_pins db) ->
  exists pins, load_home_pins db = Ok pins /\ NoDup (pin_document_id <$> pins) /\
    Forall (public_id db) (pin_document_id <$> pins).
Proof.
  intros [Hpin Hinj]. unfold load_home_pins. set (rows := order_by _ _).
  assert (forall kv, kv ∈ rows -> home_pins db !! kv.1 = Some kv.2) as Hrows.
  { intros [slot p] Hin%elem_of_order_by. by apply elem_of_map_to_list in Hin. }
  assert (NoDup (hp_document_id <$> rows.*2)) as Hnd.
  { rewrite <-list_fmap_compose. apply NoDup_fmap_2_strong.
    - intros [s p] [s' p'] Hs Hs' E. apply Hrows in Hs. apply Hrows in Hs'. cbn in *.
      assert (s = s') as <- by by eapply Hinj. congruence.
    - unfold rows. rewrite order_by_Permutation. apply NoDup_map_to_list. }
  enough (exists pins, traverse pin_record rows = Ok pins /\ pin_document_id <$> pins = hp_document_id <$> rows.*2)
    as (pins & Hl & E).
  { exists pins. rewrite E. split_and!; [done..|]. apply Forall_forall. intros id Hid.
    apply list_elem_of_fmap in Hid as (p & -> & ([slot p'] & -> & Hin)%list_elem_of_fmap).
    by apply Hrows, Hpin in Hin as [_ ?]. }
  clear Hnd. clearbody rows. induction rows as [|[slot p] rows IH]; [by exists []|].
  destruct IH as (pins & Hl & E); [by intros kv Hkv; apply Hrows; right|].
  destruct (Hpin slot p) as [Hslot _]; [by apply (Hrows (slot, p)); left|].
  eexists. cbn [traverse]. rewrite pin_record_Ok, Hl by done. split; [done|]. cbn. by rewrite E.
Qed.

Lemma load_pinned_all db pins : wf db -> Forall (public_id db) (pin_document_id <$> pins) ->
  exists snaps, load_pinned db pins = Ok snaps /\ ds_id <$> snaps = pin_document_id <$> pins /\
    Forall (shown db) snaps.
Proof.
  intros Hwf Hp. remember (pin_document_id <$> pins) as ids eqn:E. revert pins E.
  induction Hp as [|id ids Hid _ IH]; intros [|pin pins] E; try done; [by exists []|].
  injection E as -> E. destruct (IH pins E) as (snaps & Hs & Hi & Hf).
  destruct (load_public db _ Hwf Hid) as (snap & Hl & Hsid & Hsn).
  exists (snap :: snaps). cbn. rewrite Hl, Hs. cbn. destruct Hsn as [Hst Hsn]. rewrite Hst. cbn.
  rewrite Hsid, Hi. split_and!; [done..|]. by constructor.
Qed.

(** ** Recent posts *)

Lemma published_keys_public db p : wf db -> Forall (fun k => public_id db k.1) (published_keys db p).
Proof.
  intros Hwf. apply Forall_forall. intros k Hk. apply list_elem_of_omap in Hk as ([id d] & Hd%elem_of_map_to_list & E).
  cbn in E. destruct (is_public d && p id d) eqn:Eb; [|done]. bool_simpl.
  destruct (published_at db d); [|done]. injection E as <-. exists d. split; [done|by apply is_public_published].
Qed.
Lemma published_keys_NoDup db p : NoDup (published_keys db p).*1.
Proof.
  eapply sublist_NoDup; [apply (NoDup_fst_map_to_list (documents db))|]. apply omap_keys.
  intros [id d] k E. cbn in E. destruct (_ && _); [|done]. destruct (published_at db d); [|done]. by injection E as <-.
Qed.

Lemma list_across_sites db n : wf db -> exists snaps,
  list_documents_with_selector None n PublishedRevision db = Ok snaps /\
  NoDup (ds_id <$> snaps) /\ Forall (shown db) snaps.
Proof.
  intros Hwf. unfold list_documents_with_selector. set (keys := limit _ _).
  rewrite <-(traverse_fmap fst (fun id => load_document id PublishedRevision db)).
  assert (keys `sublist_of` order_by newest_leb (published_keys db (fun _ d =>
    bool_decide (doc_site_id d ∈ sites db) && is_none_or (fun s => (doc_site_id d =? s)%N) None))) as Hsub
    by apply limit_sublist.
  destruct (load_public_ids db keys.*1) as (snaps & Hl & Hi & Hf); [done| |].
  - apply Forall_fmap. eapply sublist_Forall; [exact Hsub|].
    rewrite order_by_Permutation. by apply published_keys_public.
  - exists snaps. rewrite Hi. split_and!; [done| |done].
    eapply sublist_keys_NoDup; [exact Hsub|]. rewrite order_by_Permutation. apply published_keys_NoDup.
Qed.

(** ** Sections *)

(** A section of category [c]: distinct published documents of that category. *)
Definition section_ok (db : DB) (c : Uuid) (docs : list DocumentSnapshot) : Prop :=
  NoDup (ds_id <$> docs) /\ Forall (fun d => shown db d /\ shown_category db (ds_id d) = Some c) docs.

Lemma load_section db c ids : wf db -> NoDup ids ->
  Forall (fun id => public_id db id /\ shown_category db id = Some c) ids ->
  exists docs, traverse (fun id => load_document id PublishedRevision db) ids = Ok docs /\ section_ok db c docs.
Proof.
  intros Hwf Hn [Hp Hc]%Forall_and. destruct (load_public_ids db ids Hwf Hp) as (docs & Hl & Hi & Hf).
  exists docs. split; [done|]. split; [by rewrite Hi|]. rewrite <-Hi, Forall_fmap in Hc. by apply Forall_and.
Qed.

Lemma series_section db site n s : wf db -> s ∈ series_records db -> exists docs,
  list_published_in_series_with_connection site (sr_id s) n db = Ok docs /\
  section_ok db (sr_category_id s) docs.
Proof.
  intros Hwf Hs. unfold list_published_in_series_with_connection, list_published_series_items_with_connection.
  cbn. rewrite <-(traverse_fmap sir_document_id (fun id => load_document id PublishedRevision db)).
  apply load_section; [done| |].
  - eapply sublist_keys_NoDup; [apply limit_sublist|]. rewrite order_by_Permutation.
    apply public_items_documents_NoDup.
  - apply Forall_fmap. eapply sublist_Forall; [apply limit_sublist|]. rewrite order_by_Permutation.
    apply Forall_forall. intros r (did & i & _ & Hp & ->)%elem_of_public_items. cbn.
    unfold item_is_public in Hp. cbn in Hp. bool_simpl.
    apply list_elem_of_omap in Hs as ([sid row] & Hrow%elem_of_map_to_list & Hsel). cbn in Hsel.
    unfold series_select in Hsel. destruct (categories db !! se_category_id row); [|done]. cbn in Hsel.
    destruct (_ =? _)%N in Hsel; [|done]. injection Hsel as <-. cbn in *. rewrite Hrow in *. cbn in *. bool_simpl.
    destruct (documents db !! did) as [d|] eqn:Hd; [|done]. cbn in *. by eapply published_in_public.
Qed.
Lemma category_section db site n c : wf db -> exists docs,
  list_published_in_category_with_connection site c n OldestFirst db = Ok docs /\ section_ok db c docs.
Proof.
  intros Hwf. unfold list_published_in_category_with_connection, published_members. apply load_section; [done| |].
  - eapply sublist_NoDup; [|apply limit_sublist]. rewrite order_by_Permutation.
    eapply sublist_NoDup; [apply (NoDup_fst_map_to_list (documents db))|]. apply fmap_sublist, filter_sublist.
  - eapply sublist_Forall; [apply limit_sublist|]. apply Forall_fmap. rewrite order_by_Permutation.
    apply Forall_forall. intros [id d] [Hd Hp]%list_elem_of_In%filter_In.
    apply list_elem_of_In, elem_of_map_to_list in Hd. by eapply published_in_public.
Qed.

Lemma without_pins_spec pinned n docs :
  without_pins pinned n docs `sublist_of` docs /\ (size_of (without_pins pinned n docs) <= n)%N /\
  Forall (fun d => ds_id d ∉ (ds_id <$> pinned)) (without_pins pinned n docs).
Proof.
  unfold without_pins. split_and!; [|apply limit_size|].
  - etrans; [apply limit_sublist|apply filter_sublist].
  - eapply sublist_Forall; [apply limit_sublist|]. apply Forall_forall.
    intros d [_ Hd%negb_true_iff]%list_elem_of_In%filter_In (p & E & Hp)%list_elem_of_fmap.
    apply not_true_iff_false in Hd. apply Hd. unfold is_pinned. apply existsb_exists.
    exists p. by rewrite <-list_elem_of_In, E, N.eqb_refl.
Qed.
Lemma section_ok_sublist db c docs docs' : docs `sublist_of` docs' -> section_ok db c docs' -> section_ok db c docs.
Proof. intros Hs [Hn Hf]. split; [by eapply sublist_keys_NoDup|by eapply sublist_Forall]. Qed.

(** A non-empty section of unpinned documents. *)
Definition good_section (db : DB) (pinned : list DocumentSnapshot) (c : Uuid) (items : list DocumentSnapshot) : Prop :=
  items <> [] /\ section_ok db c items /\ Forall (fun d => ds_id d ∉ (ds_id <$> pinned)) items.

Lemma feed_sections_spec {S} (cat : S -> Uuid) fetch db pinned remaining (sources : list S) :
  (forall s n, s ∈ sources -> exists docs, fetch s n = Ok docs /\ section_ok db (cat s) docs) ->
  exists sections budget, feed_sections fetch pinned remaining sources = Ok (sections, budget) /\
    (size_of (concat sections.*2) + budget = remaining)%N /\ sections.*1 `sublist_of` sources /\
    Forall (fun x => good_section db pinned (cat x.1) x.2) sections.
Proof.
  revert remaining. induction sources as [|source sources IH]; intros remaining Hf; [by exists [], remaining|].
  cbn. destruct (remaining =? 0)%N.
  { exists [], remaining. split_and!; [done|done|apply sublist_nil_l|done]. }
  destruct (Hf source (fetch_limit remaining pinned)) as (docs & -> & Hok); [by left|]. cbn.
  destruct (without_pins_spec pinned remaining docs) as (Hsub & Hsize & Hun).
  destruct (without_pins pinned remaining docs) as [|item items] eqn:Eitems.
  - destruct (IH remaining) as (sections & budget & -> & Hb & Hs & Hg); [by intros s n ?; apply Hf; right|].
    exists sections, budget. split_and!; try done. by constructor.
  - destruct (IH (remaining - size_of (item :: items))%N) as (sections & budget & -> & Hb & Hs & Hg);
      [by intros s n ?; apply Hf; right|].
    cbn -[size_of]. eexists _, _. split_and!; [done| |by constructor|].
    + cbn -[size_of app]. unfold size_of in *. rewrite length_app. lia.
    + constructor; [|done]. split_and!; [done|by eapply section_ok_sublist|done].
Qed.

(** Documents of different categories are different. *)
Lemma sections_NoDup db (l : list (Uuid * list DocumentSnapshot)) : NoDup l.*1 ->
  Forall (fun x => section_ok db x.1 x.2) l -> NoDup (ds_id <$> concat l.*2).
Proof.
  intros Hn Hf. induction Hf as [|[c docs] l [Hnd Hc] Hf IH]; [constructor|].
  cbn in *. apply NoDup_cons in Hn as [Hni Hn]. rewrite fmap_app. apply NoDup_app. split_and!; [done| |by apply IH].
  intros id (d & -> & Hd)%list_elem_of_fmap (d' & E & Hd')%list_elem_of_fmap. apply Hni.
  rewrite Forall_forall in Hc. destruct (Hc _ Hd) as [_ Ec].
  apply list_elem_of_In, in_concat in Hd' as (docs' & Hin%list_elem_of_In & Hd'%list_elem_of_In).
  apply list_elem_of_fmap in Hin as ([c' docs''] & -> & Hin).
  rewrite Forall_forall in Hf. destruct (Hf _ Hin) as [_ Hc']. rewrite Forall_forall in Hc'.
  destruct (Hc' _ Hd') as [_ Ec']. cbn in Ec'. rewrite <-E, Ec in Ec'. injection Ec' as ->.
  apply list_elem_of_fmap. by exists (c', docs'').
Qed.

(** ** The feed *)

(** The sections of a feed with the category each one shows. *)
Definition sections_of (feed : HomeFeedRecords) : list (Uuid * list DocumentSnapshot) :=
  ((fun s => (sr_category_id (hss_series s), hss_items s)) <$> hf_series_sections feed)
  ++ ((fun s => (cr_id (hcs_category s), hcs_items s)) <$> hf_category_sections feed).

Lemma series_records_row db s : s ∈ series_records db ->
  exists row c, series db !! sr_id s = Some row /\ categories db !! se_category_id row = Some c /\
    sr_site_id s = se_site_id row /\ sr_category_id s = se_category_id row /\ series_select db (sr_id s) row = Some s.
Proof.
  intros ([id row] & Hrow%elem_of_map_to_list & E)%list_elem_of_omap. cbn in E. pose proof E as Esel.
  unfold series_select in E. destruct (categories db !! se_category_id row) as [c|] eqn:Hc; [|done]. cbn in E.
  destruct (_ =? _)%N; [|done]. injection E as <-. cbn in *. by exists row, c.
Qed.
Lemma series_records_NoDup db : NoDup (series_records db).
Proof.
  eapply NoDup_fmap_1, (sublist_NoDup (sr_id <$> _)); [apply (NoDup_fst_map_to_list (series db))|].
  apply omap_keys. intros [id row] s E. cbn in E. unfold series_select in E.
  destruct (categories db !! se_category_id row); [|done]. cbn in E. destruct (_ =? _)%N; [by injection E as <-|done].
Qed.
Lemma series_records_categories db site l : wf db -> Forall (fun s => s ∈ series_records db) l ->
  Forall (fun s => sr_site_id s = site) l -> NoDup l -> NoDup (sr_category_id <$> l).
Proof.
  intros Hwf Hs Hsite Hn. rewrite Forall_forall in Hs. rewrite Forall_forall in Hsite. apply NoDup_fmap_2_strong; [|done].
  intros s1 s2 Hs1 Hs2 E. pose proof (Hsite _ Hs1) as E1. pose proof (Hsite _ Hs2) as E2.
  destruct (series_records_row db s1) as (r1 & _ & Hr1 & _ & ? & ? & Hsel1); [by apply Hs|].
  destruct (series_records_row db s2) as (r2 & _ & Hr2 & _ & ? & ? & Hsel2); [by apply Hs|].
  assert (sr_id s1 = sr_id s2) as Ei by (eapply (wf_series_unique _ (wf_is_rest _ Hwf)); [done|done|congruence..]).
  congruence.
Qed.

Definition plain (db : DB) (site : Uuid) (c : CategoryRecord) : Prop :=
  forall sid s, series db !! sid = Some s -> se_site_id s = site -> se_category_id s <> cr_id c.
Lemma plain_categories_spec db site :
  NoDup (cr_id <$> plain_categories db site) /\ Forall (plain db site) (plain_categories db site).
Proof.
  unfold plain_categories. set (rows := limit _ _).
  assert (rows `sublist_of` order_by oldest_category_leb (List.filter (fun kv => (cat_site_id kv.2 =? site)%N
    && bool_decide (cat_status kv.2 = Active)
    && negb (any_row (fun _ s => (se_site_id s =? cat_site_id kv.2)%N && (se_category_id s =? kv.1)%N) (series db)))
      (map_to_list (categories db)))) as Hsub by apply limit_sublist.
  split.
  - rewrite <-list_fmap_compose. change (NoDup rows.*1). eapply sublist_keys_NoDup; [exact Hsub|].
    rewrite order_by_Permutation. eapply sublist_keys_NoDup; [apply filter_sublist|]. apply NoDup_fst_map_to_list.
  - apply Forall_fmap. eapply sublist_Forall; [exact Hsub|]. rewrite order_by_Permutation. apply Forall_forall.
    intros [id row] [_ Hp]%list_elem_of_In%filter_In sid s Hs Hsite E. cbn in *. bool_simpl.
    match goal with X : any_row _ _ = false |- _ => rewrite any_row_false in X; specialize (X _ _ Hs);
      apply andb_false_iff in X as [X|X] end; bool_simpl; cbn in *; congruence.
Qed.

(** Simplify the binds of [home_feed], not its queries. *)
Ltac feed_cbn :=
  cbn -[feed_sections N.min list_series_with_connection list_published_in_series_with_connection
        list_published_in_category_with_connection].

Lemma listed_series db site n : wf db -> exists l, list_series_with_connection site false n db = Ok l /\
  Forall (fun s => s ∈ series_records db) l /\ Forall (fun s => sr_site_id s = site) l /\
  NoDup (sr_category_id <$> l).
Proof.
  intros Hwf. eexists. split; [reflexivity|]. set (l := limit _ _).
  assert (Forall (fun s => s ∈ series_records db /\ sr_site_id s = site) l) as Hf.
  { eapply sublist_Forall; [apply limit_sublist|]. rewrite order_by_Permutation.
    apply Forall_forall. intros s [Hin Hp]%list_elem_of_In%filter_In. bool_simpl.
    by split; [apply list_elem_of_In|]. }
  assert (NoDup l) as Hn.
  { eapply sublist_NoDup; [|apply limit_sublist]. rewrite order_by_Permutation.
    eapply sublist_NoDup; [apply series_records_NoDup|apply filter_sublist]. }
  apply Forall_and in Hf as [Hin Hsite]. split_and!; [done..|]. by eapply series_records_categories.
Qed.

(** C16. The home page of an existing site always loads, and curation wins: on every
  reachable store the feed shows exactly the pinned documents in slot order, then
  recent posts; no document is repeated among pins and recent posts, nor
  among pins and all sections together (recent posts and sections may
  overlap); everything shown is published and is the current public version; each section is non-empty and belongs to its own
  category, and both recent posts and sections respect the limit. *)
Theorem home_feed_is_curated os db site n :
  codec_roundtrip -> no_content db ->
  let s := runs os db in
  site ∈ sites s ->
  exists feed pins, home_feed site n s = Ok feed /\ load_home_pins s = Ok pins /\
    ds_id <$> hf_pinned feed = pin_document_id <$> pins /\
    NoDup (ds_id <$> hf_pinned feed ++ hf_recent feed) /\
    NoDup (ds_id <$> hf_pinned feed ++ concat (sections_of feed).*2) /\
    NoDup (sections_of feed).*1 /\
    Forall (shown s) (hf_pinned feed ++ hf_recent feed ++ concat (sections_of feed).*2) /\
    Forall (fun x => x.2 <> [] /\ Forall (fun d => shown_category s (ds_id d) = Some x.1) x.2) (sections_of feed) /\
    (size_of (hf_recent feed) <= N.min n 500)%N /\
    (size_of (concat (sections_of feed).*2) <= N.min n 500)%N.
Proof.
  intros Hcodec Hdb%no_content_wf s Hsite. pose proof (runs_wf Hcodec os db Hdb) as Hwf. fold s in Hwf.
  clearbody s. clear Hdb.
  destruct (pins_load s (wf_pins _ (wf_is_rest _ Hwf))) as (pins & Hpins & Hpn & Hpp).
  destruct (load_pinned_all s pins Hwf Hpp) as (pinned & Hpinned & Ep & Hps).
  destruct (list_across_sites s (fetch_limit n pinned) Hwf) as (recent & Hrecent & Hrn & Hrs).
  destruct (without_pins_spec pinned (N.min n 500) recent) as (Hrsub & Hrsize & Hrun).
  destruct (listed_series s site 500 Hwf) as (listed & Hlisted & Hlin & Hlsite & Hlnd).
  rewrite Forall_forall in Hlin.
  destruct (feed_sections_spec sr_category_id
    (fun r n => list_published_in_series_with_connection site (sr_id r) n s) s pinned (N.min n 500) listed)
    as (ssec & remaining & Hssec & Hsb & Hssub & Hsg).
  { intros r k Hr. apply series_section; [done|by apply Hlin]. }
  destruct (plain_categories_spec s site) as [Hcnd Hcp].
  destruct (feed_sections_spec cr_id
    (fun c n => list_published_in_category_with_connection site (cr_id c) n OldestFirst s) s pinned remaining
    (plain_categories s site)) as (csec & budget & Hcsec & Hcb & Hcsub & Hcg).
  { intros c k _. by apply category_section. }
  set (feed := {| hf_pinned := pinned; hf_recent := without_pins pinned (N.min n 500) recent;
    hf_category_sections := (fun s => {| hcs_category := s.1; hcs_items := s.2 |}) <$> csec;
    hf_series_sections := (fun s => {| hss_series := s.1; hss_items := s.2 |}) <$> ssec |}).
  assert (sections_of feed = ((fun x => (sr_category_id x.1, x.2)) <$> ssec)
    ++ ((fun x => (cr_id x.1, x.2)) <$> csec)) as Esec.
  { unfold sections_of. cbn. by rewrite <-!list_fmap_compose. }
  assert (Forall (fun x => good_section s pinned x.1 x.2) (sections_of feed)) as Hgood.
  { rewrite Esec. apply Forall_app. split; by apply Forall_fmap. }
  assert (NoDup (sections_of feed).*1) as Hcats.
  { rewrite Esec, fmap_app, <-!list_fmap_compose.
    change (NoDup ((sr_category_id ∘ fst <$> ssec) ++ (cr_id ∘ fst <$> csec))).
    rewrite !list_fmap_compose. apply NoDup_app. split_and!.
    - by eapply sublist_keys_NoDup.
    - intros id (r & -> & Hr)%list_elem_of_fmap (c & E & Hc)%list_elem_of_fmap.
      eapply elem_of_sublist in Hr; [|exact Hssub]. eapply elem_of_sublist in Hc; [|exact Hcsub].
      rewrite Forall_forall in Hcp. rewrite Forall_forall in Hlsite. pose proof (Hlsite _ Hr).
      destruct (series_records_row s r (Hlin _ Hr)) as (row & _ & Hrow & _ & ? & ? & _).
      apply (Hcp _ Hc _ _ Hrow); congruence.
    - by eapply sublist_keys_NoDup. }
  assert (Forall (Forall (fun d => ds_id d ∉ (ds_id <$> pinned))) (sections_of feed).*2) as Hun.
  { apply Forall_fmap. eapply Forall_impl; [exact Hgood|]. by intros x (_ & _ & ?). }
  assert (Forall (Forall (shown s)) (sections_of feed).*2) as Hshown.
  { apply Forall_fmap. eapply Forall_impl; [exact Hgood|]. intros x (_ & [_ Hx] & _). cbn.
    eapply Forall_impl; [exact Hx|]. by intros d [? _]. }
  exists feed, pins. split_and!; [|done|exact Ep| | |done| | |exact Hrsize|].
  - unfold home_feed, ensure_site_exists. rewrite bool_decide_true by done. feed_cbn.
    rewrite Hpins. feed_cbn. rewrite Hpinned. feed_cbn.
    rewrite Hrecent. feed_cbn. rewrite Hlisted. feed_cbn.
    rewrite Hssec. feed_cbn. by rewrite Hcsec.
  - cbn. rewrite fmap_app. apply NoDup_app. split_and!; [by rewrite Ep| |by eapply sublist_keys_NoDup].
    intros id Hid (d & -> & Hd)%list_elem_of_fmap. rewrite Forall_forall in Hrun. by apply (Hrun d).
  - rewrite fmap_app. apply NoDup_app. split_and!; [by cbn; rewrite Ep| |].
    + intros id Hid (d & -> & Hd)%list_elem_of_fmap. by apply (concat_Forall _ _ Hun) in Hd.
    + eapply (sections_NoDup s); [done|]. eapply Forall_impl; [exact Hgood|]. by intros x (_ & ? & _).
  - rewrite !Forall_app. split_and!; [done|by eapply sublist_Forall|].
    apply Forall_forall. intros d Hd. by apply (concat_Forall _ _ Hshown) in Hd.
  - eapply Forall_impl; [exact Hgood|]. intros x (? & [_ Hx] & _). split; [done|].
    eapply Forall_impl; [exact Hx|]. by intros d [_ ?].
  - rewrite Esec, fmap_app, <-!list_fmap_compose.
    change (size_of (concat ((snd <$> ssec) ++ (snd <$> csec))) <= N.min n 500)%N.
    rewrite concat_app. unfold size_of in *. rewrite length_app. lia.
Qed.

(** ** Comments *)

Lemma approved_comments_elem db site id c : c ∈ approved_comments db site id <->
  exists row, comments db !! com_id c = Some row /\ c = parse_comment_row (com_id c) row /\
    cm_site_id row = site /\ cm_document_id row = id /\ cm_status row = CommentApproved.
Proof.
  unfold approved_comments. rewrite list_elem_of_fmap. split.
  - intros ([cid row] & -> & Hin). apply list_elem_of_In, filter_In in Hin as [Hin Hp].
    apply list_elem_of_In, elem_of_map_to_list in Hin. unfold is_approved in Hp. cbn in *. bool_simpl. by exists row.
  - intros (row & Hrow & -> & <- & <- & Hst). exists (com_id c, row). split; [done|].
    apply list_elem_of_In, filter_In. rewrite <-list_elem_of_In, elem_of_map_to_list. split; [done|].
    unfold is_approved. cbn. by rewrite !N.eqb_refl, Hst.
Qed.

Lemma published_stays db db' site id : wf db -> wf db' -> extends db db' ->
  ensure_published_document_in_site site id db = Ok tt -> ensure_published_document_in_site site id db' = Ok tt.
Proof.
  intros Hwf Hwf' Hext. unfold ensure_published_document_in_site.
  destruct (documents db !! id) as [d|] eqn:Hd; [|done].
  destruct (_ && _) eqn:E; [|done]. intros _. bool_simpl.
  destruct (ext_documents _ _ Hext _ _ Hd) as (d' & Hd' & Hs & _).
  destruct (ext_published _ _ Hext id d Hd) as (d'' & Hd'' & Hp); [by apply is_public_published|].
  assert (d'' = d') as -> by congruence. rewrite Hd'.
  rewrite (is_public_wf db' id d' Hwf' Hd'). destruct Hp as [p ->]. rewrite Hs.
  match goal with X : doc_site_id d = site |- _ => by rewrite X, N.eqb_refl end.
Qed.

(** C17. A comment is public at once and for good: creating one stores the trimmed
  Markdown under its author, on a published document of the site, and in every
  continuation of the history it can be fetched, it is counted, and it is in
  the document's listing as long as the listing is not cut. *)
Theorem comment_stays_public os os' db author site document markdown id now c db' :
  codec_roundtrip -> no_content db ->
  create_comment author site document markdown id now (runs os db) = (Ok c, db') ->
  com_author_user_id c = author /\ com_source_markdown c = trim markdown /\ com_status c = CommentApproved /\
  let s := runs os' db' in
  get_comment id s = Ok c /\
  exists count, count_approved_comments site document s = Ok count /\
    forall n, (count <= N.min n 1000)%N -> exists l, list_approved_comments site document n s = Ok l /\
      c ∈ l /\ size_of l = count.
Proof.
  intros Hcodec Hdb%no_content_wf Hc. pose proof (runs_wf Hcodec os db Hdb) as Hwf.
  assert (wf db') as Hwf'.
  { pose proof (run_wf Hcodec (CreateComment author site document markdown id now) _ Hwf) as Hr.
    cbn in Hr. by rewrite Hc in Hr. }
  unfold create_comment in Hc. destruct (transaction _ _) as [[[]|] db1] eqn:E; [|done]. cbn in Hc.
  apply transaction_Ok in E as [E _]. injection Hc as Hl <-. inv_tx.
  match goal with X : validate_comment_markdown _ = Ok ?t |- _ =>
    assert (t = trim markdown) as -> by (unfold validate_comment_markdown in X; by inv_ok) end.
  match goal with X : insert_comment _ ?r _ = _ |- _ => set (row := r) in * end.
  match goal with X : insert_comment _ _ _ = _ |- _ =>
    destruct (insert_comment_steps _ _ _ _ X) as [Hstep Edb] end.
  assert (comments db1 !! id = Some row) as Hrow by (rewrite Edb; apply lookup_insert_eq).
  unfold load_comment_by_id in Hl. rewrite Hrow in Hl. cbn in Hl. injection Hl as <-.
  cbn zeta. pose proof (extends_steps _ _ (runs_steps Hcodec os' db1 Hwf')) as Hext. set (s := runs os' db1) in *.
  pose proof (lookup_weaken _ _ _ _ Hrow (ext_comments _ _ Hext)) as Hrow'.
  pose proof (published_stays (runs os db) s site document) as Hpub.
  split_and!; try done. { unfold get_comment, load_comment_by_id. rewrite Hrow'. done. }
  assert (ensure_published_document_in_site site document s = Ok tt) as Hens.
  { apply Hpub; [done|by apply runs_wf| |done]. etrans; [|exact Hext].
    by apply extends_steps, rtc_once, step_draft. }
  exists (size_of (approved_comments s site document)). unfold count_approved_comments, list_approved_comments.
  rewrite Hens. cbn -[N.min]. split; [done|]. intros n Hn. eexists. split; [done|].
  rewrite limit_id by (unfold size_of in *; by rewrite order_by_Permutation).
  split; [|unfold size_of; by rewrite order_by_Permutation].
  rewrite order_by_Permutation. apply approved_comments_elem. by exists row.
Qed.
End feed.
