(* ===== verification/StoreWitnesses.v ===== *)
(** * The storage theorems at concrete inputs

    Every hypothesis of a storage theorem holds of the sample site: its owner
    creates, publishes, revises and organises documents. *)

From Stdlib Require Import Bool NArith ZArith Lia.
From S2P Require Import Prelude Text Extern Content Ai2Ai StoreBase StoreTaxonomy StoreContent StoreSpec Samples StoreRefine Store StoreTheorems StoreSeries.
Import Toy.

(** The operations are evaluated by [vm_compute] only. *)
#[local] Opaque runs run publish append_revision append_ai_proposal replace_series_order
  get_published_by_slug get_document.

(** Refute the failing case by evaluating a boolean [f] of the result. *)
Definition answered {A} (p : result RepositoryError A * DB) : bool := is_ok p.1.
Ltac impossible f E := exfalso; apply (f_equal f) in E; vm_compute in E; discriminate E.
Ltac refuted E := exfalso; apply (f_equal answered) in E; vm_compute in E; discriminate E.

(** Document 10 is created and published, then drafted further. *)
Definition first_ops : list op :=
  [CreateDocument (sample_document (lit "hello")) 10 20 100; PublishDocument 10 20 110].
Definition draft : ProposedRevision := sample_revision 10 20 (lit "hello-again") (Some (lit "key-1")).
Definition draft_op : op := AppendRevision draft 21 120.
Definition guides : CreateCategoryInput :=
  {| cci_slug := lit "guides"; cci_title := lit "Guides"; cci_description := None; cci_theme_profile := None |}.
(** Two documents published in a series over category 50. *)
Definition series_ops : list op :=
  [CreateSeries 7 1 guides 50 60 90;
   CreateInWritableSite 7 (sample_document (lit "one")) (Some 50%N) 10 20 100;
   PublishInOwnedSite 7 1 10 20 110;
   CreateInWritableSite 7 (sample_document (lit "two")) (Some 50%N) 11 30 120;
   PublishInOwnedSite 7 1 11 30 130].

Lemma site_db_no_content : no_content site_db.
Proof. by split_and!. Qed.
#[local] Hint Resolve toy_codec_roundtrip site_db_no_content : core.

Lemma store_refines_specification_witness :
  rtc content_step site_db (runs series_ops site_db) /\ wf (runs series_ops site_db).
Proof. apply store_refines_specification; auto. Defined.

(** Publishing a revision that does not exist. *)
Lemma failed_operation_changes_nothing_witness :
  let s := runs first_ops site_db in
  let o := PublishDocument 10 99 130 in
  (run o s).1 = Some NotFound /\ (run o s).2 = s.
Proof.
  cbn zeta. split; [vm_compute; reflexivity|].
  set (s := runs first_ops site_db).
  destruct (run (PublishDocument 10 99 130) s) as [[e|] db'] eqn:E;
    [|impossible (fun p : option RepositoryError * DB => is_some (fst p)) E].
  apply (failed_operation_changes_nothing first_ops site_db (PublishDocument 10 99 130) e db'); auto.
Defined.

Lemma history_is_append_only_witness :
  revisions (runs first_ops site_db) ⊆ revisions (runs (first_ops ++ [draft_op]) site_db).
Proof.
  destruct (history_is_append_only first_ops [draft_op] site_db toy_codec_roundtrip site_db_no_content)
    as (Hsub & _). exact Hsub.
Defined.

Lemma published_document_has_one_canonical_url_witness :
  exists r p path rt, revisions (runs series_ops site_db) !! 20%N = Some r /\
    revision_categories (runs series_ops site_db) !! 20%N = Some p /\
    placement_path (runs series_ops site_db) p (rev_slug r) = Some path /\
    routes (runs series_ops site_db) !! (1%N, path) = Some rt.
Proof.
  destruct (documents (runs series_ops site_db) !! 10%N) as [d|] eqn:Hd; [|impossible (fun o : option DocumentRow => is_some o) Hd].
  assert (doc_published_revision_id d = Some 20%N /\ doc_site_id d = 1%N) as [Hp Hs].
  { split; [apply (f_equal (fmap doc_published_revision_id)) in Hd|apply (f_equal (fmap doc_site_id)) in Hd];
      vm_compute in Hd; by injection Hd. }
  destruct (published_document_has_one_canonical_url series_ops site_db 10 d 20 toy_codec_roundtrip
    site_db_no_content Hd Hp) as (r & p & path & rt & H1 & H2 & H3 & Hrt & _).
  rewrite Hs in Hrt. exists r, p, path, rt. exact (conj H1 (conj H2 (conj H3 Hrt))).
Defined.

Lemma only_publication_changes_the_public_view_witness :
  public_view <$> get_published_by_slug 1 (lit "hello") (run draft_op (runs first_ops site_db)).2
  = public_view <$> get_published_by_slug 1 (lit "hello") (runs first_ops site_db) /\
  is_ok (get_published_by_slug 1 (lit "hello") (runs first_ops site_db)) = true /\
  (run draft_op (runs first_ops site_db)).1 = None.
Proof.
  split; [|by vm_compute].
  exact (only_publication_changes_the_public_view first_ops site_db draft_op 1 (lit "hello")
    toy_codec_roundtrip site_db_no_content eq_refl).
Defined.

Lemma published_revision_is_served_witness :
  match publish 10 21 130 (runs (first_ops ++ [draft_op]) site_db) with
  | (Ok snap, db') =>
      ds_status snap = Published /\
      exists path, get_published_by_slug (ds_site_id snap) path db' = Ok snap
  | _ => False
  end.
Proof.
  destruct (publish 10 21 130 (runs (first_ops ++ [draft_op]) site_db)) as [[snap|e] db'] eqn:E;
    [|refuted E].
  destruct (published_revision_is_served _ _ _ _ _ _ _ toy_codec_roundtrip site_db_no_content E)
    as (_ & H1 & _ & _ & r & p & path & _ & _ & _ & _ & H2).
  exact (conj H1 (ex_intro _ path H2)).
Defined.

Lemma public_reads_stay_in_their_site_witness :
  match get_published_by_slug 1 (lit "guides/one") (runs series_ops site_db) with
  | Ok snap => ds_site_id snap = 1%N /\ ds_published_revision_id snap = Some (rs_id (ds_revision snap))
  | Err _ => False
  end.
Proof.
  destruct (get_published_by_slug 1 (lit "guides/one") (runs series_ops site_db)) as [snap|e] eqn:E;
    [|impossible (fun r : result RepositoryError DocumentSnapshot => is_ok r) E].
  destruct (public_reads_stay_in_their_site _ _ _ _ _ toy_codec_roundtrip site_db_no_content E)
    as (H1 & _ & H2 & _). exact (conj H1 H2).
Defined.

Lemma stored_documents_load_with_true_hashes_witness :
  exists snap, get_document 10 (runs first_ops site_db) = Ok snap /\ ds_id snap = 10%N.
Proof.
  destruct (documents (runs first_ops site_db) !! 10%N) as [d|] eqn:Hd; [|impossible (fun o : option DocumentRow => is_some o) Hd].
  destruct (stored_documents_load_with_true_hashes _ _ _ _ toy_codec_roundtrip site_db_no_content Hd)
    as (snap & H1 & H2 & _). exact (ex_intro _ snap (conj H1 H2)).
Defined.

(** A second editor still holding revision 20 is refused. *)
Lemma stale_base_is_refused_forever_witness :
  match append_revision draft 21 120 (runs first_ops site_db) with
  | (Ok _, db1) =>
      append_revision (sample_revision 10 20 (lit "other") None) 22 125 (runs [PublishDocument 10 21 122] db1)
      = (Err RevisionConflict, runs [PublishDocument 10 21 122] db1)
  | _ => False
  end.
Proof.
  destruct (append_revision draft 21 120 (runs first_ops site_db)) as [[s|e] db1] eqn:E;
    [|refuted E].
  exact (stale_base_is_refused_forever first_ops site_db draft 21 120 s db1 [PublishDocument 10 21 122]
    (sample_revision 10 20 (lit "other") None) 22 125 toy_codec_roundtrip site_db_no_content E
    eq_refl eq_refl eq_refl).
Defined.

Lemma idempotency_key_is_consumed_once_witness :
  match append_revision draft 21 120 (runs first_ops site_db) with
  | (Ok _, db1) => exists e,
      append_revision (sample_revision 10 21 (lit "third") (Some (lit "key-1"))) 22 125 db1 = (Err e, db1)
  | _ => False
  end.
Proof.
  destruct (append_revision draft 21 120 (runs first_ops site_db)) as [[s|e] db1] eqn:E;
    [|refuted E].
  destruct (idempotency_key_is_consumed_once _ _ _ _ _ _ _ (lit "key-1") []
    (sample_revision 10 21 (lit "third") (Some (lit "key-1"))) 22 125
    toy_codec_roundtrip site_db_no_content E eq_refl eq_refl) as (e & He & _). exact (ex_intro _ e He).
Defined.

Lemma revision_history_is_linear_witness :
  exists rid r, revisions (runs (first_ops ++ [draft_op]) site_db) !! rid = Some r /\ rev_number r = 1%N.
Proof.
  set (s := runs (first_ops ++ [draft_op]) site_db).
  destruct (documents s !! 10%N) as [d|] eqn:Hd; [|impossible (fun o : option DocumentRow => is_some o) Hd].
  destruct (revisions s !! doc_current_revision_id d) as [cur|] eqn:Hc;
    [|exfalso; assert (doc_current_revision_id d = 21%N) as E
        by (apply (f_equal (fmap doc_current_revision_id)) in Hd; vm_compute in Hd; by injection Hd);
      rewrite E in Hc; impossible (fun o : option RevisionRow => is_some o) Hc].
  destruct (revision_history_is_linear _ _ _ _ _ toy_codec_roundtrip site_db_no_content Hd Hc) as [_ Hk].
  destruct (Hk 1%N) as (rid & r & H1 & _ & H2 & _);
    [|exact (ex_intro _ rid (ex_intro _ r (conj H1 H2)))].
  split; [done|].
  assert (doc_current_revision_id d = 21%N) as E
    by (apply (f_equal (fmap doc_current_revision_id)) in Hd; vm_compute in Hd; by injection Hd).
  assert (Some (rev_number cur) = Some 2%N) as [= ->]; [|done].
  change (Some (rev_number cur)) with (rev_number <$> Some cur).
  rewrite <-Hc, E. vm_compute. reflexivity.
Defined.

Lemma ai_proposal_is_attributed_and_unpublished_witness :
  match append_ai_proposal (sample_envelope 10 20) 21 120 (runs first_ops site_db) with
  | (Ok s, db') => ra_kind (rs_actor s) = Agent /\ pa_human_reviewed (rs_authorship s) = false /\
      routes db' = routes (runs first_ops site_db)
  | _ => False
  end.
Proof.
  destruct (append_ai_proposal (sample_envelope 10 20) 21 120 (runs first_ops site_db)) as [[s|e] db'] eqn:E;
    [|refuted E].
  destruct (ai_proposal_is_attributed_and_unpublished _ _ _ _ _ _ _ toy_codec_roundtrip site_db_no_content E)
    as (_ & H1 & _ & _ & H2 & _ & _ & H3). exact (conj H1 (conj H2 H3)).
Defined.

(** The writer may not publish. *)
Lemma unauthorized_operation_is_refused_witness :
  exists e, run (PublishInOwnedSite 8 1 10 20 130) (runs first_ops site_db) = (Some e, runs first_ops site_db).
Proof.
  destruct (unauthorized_operation_is_refused (PublishInOwnedSite 8 1 10 20 130) (runs first_ops site_db))
    as (e & He & _); [vm_compute; reflexivity|]. exact (ex_intro _ e He).
Defined.

(** The two documents of the series are swapped. *)
Lemma reorder_is_the_submitted_permutation_witness :
  match replace_series_order 7 1 60 [11; 10]%N 140 (runs series_ops site_db) with
  | (Ok items, _) => sir_document_id <$> items = [11; 10]%N
  | _ => False
  end.
Proof.
  destruct (replace_series_order 7 1 60 [11; 10]%N 140 (runs series_ops site_db)) as [[items|e] db'] eqn:E;
    [|refuted E].
  destruct (reorder_is_the_submitted_permutation _ _ _ _ _ _ _ _ E) as (H1 & _). exact H1.
Defined.

Lemma series_position_in_range_witness :
  exists p, series_position 499 = Ok p /\ p = 512000%Z.
Proof.
  destruct (series_position_in_range 499) as (p & ? & -> & _); [lia|]. by eexists.
Defined.

Lemma new_category_slug_is_storable_witness :
  normalize_new_category_slug (lit " Guides-2 ") = Ok (lit "guides-2") /\
  category_slug_checks (lit "guides-2") = true.
Proof.
  split; [vm_compute; reflexivity|].
  apply (new_category_slug_is_storable (lit " Guides-2 ")). vm_compute. reflexivity.
Defined.
