(* ===== verification/FeedWitnesses.v ===== *)
(** * Imports, the home feed and comments at concrete inputs *)

From Stdlib Require Import Bool NArith ZArith Lia.
From S2P Require Import Prelude Text Extern Content Ai2Ai Accounts StoreBase StoreTaxonomy StoreContent StoreFeed OfflineImport StoreSpec Samples StoreRefine ImportRefine Store StoreTheorems ImportTheorems StoreSeries FeedTheorems StoreWitnesses.
Import Toy.

#[local] Opaque runs run import_offline_batch_with_reserved_roots create_comment get_published_by_slug.

(** The owner's account row, and a batch of two posts, one with an alias. *)
Definition owner_accounts : AccountDB :=
  Build_AccountDB {[ 7%N := {| us_email := lit "o@example.org"; us_handle := lit "owner";
    us_display_name := lit "Old name"; us_password_phc := []; us_created_at := 0; us_updated_at := 0 |} ]}
    ∅ ∅ ∅ ∅ None ∅.
Definition sample_post (id slug : rstr) (aliases : list OfflineImportAlias) : OfflineImportPost := {|
  oip_source_id := id; oip_title := lit "Old post"; oip_slug := slug; oip_source_markdown := lit "text";
  oip_created_at := 40; oip_author_id := lit "a1"; oip_author_display_name := lit "Ada";
  oip_primary_category := lit "guides"; oip_human_reviewed := true; oip_aliases := aliases |}.
Definition aliased_post : OfflineImportPost :=
  sample_post (lit "p1") (lit "one") [{| oia_path := lit "2019/one"; oia_created_at := 41 |}].
Definition sample_batch : OfflineImportBatch := {|
  oib_source := lit "wordpress"; oib_owner_display_name := lit "Ada L.";
  oib_categories := [{| oic_slug := lit "guides"; oic_title := lit "Guides"; oic_description := None |}];
  oib_posts := [aliased_post; sample_post (lit "p2") (lit "two") []] |}.
Definition post_ids (n : N) : Uuid * Uuid := (100 + n, 200 + n)%N.
Definition category_ids (n : N) : Uuid := (300 + n)%N.
Definition sample_import := import_offline_batch_with_reserved_roots category_ids post_ids 7 1 sample_batch
  [lit "blog"] false 500 (runs first_ops site_db, owner_accounts).

Example sample_import_report : match sample_import.1 with
  | Ok r => (oir_categories_created r, oir_posts_imported r, oir_aliases_created r, oir_owner_display_name_updated r)
            = (1, 2, 1, true)%N
  | Err _ => False
  end.
Proof. vm_compute. reflexivity. Qed.

(** Refute a failed import by evaluation. *)
Ltac refuted_import E := exfalso;
  apply (f_equal (fun p : result RepositoryError OfflineImportReport * (DB * AccountDB) => is_ok p.1)) in E;
  vm_compute in E; discriminate E.

Lemma exact_retry_changes_nothing_witness :
  exists report', import_offline_batch_with_reserved_roots (fun n => 900 + n)%N (fun n => (700 + n, 800 + n))%N 7 1
      sample_batch [lit "blog"] false 9000 sample_import.2 = (Ok report', sample_import.2) /\
    oir_posts_unchanged report' = 2%N.
Proof.
  destruct sample_import as [[report|e] state] eqn:E; [|refuted_import E].
  unfold sample_import in E.
  destruct (exact_retry_changes_nothing first_ops site_db owner_accounts 7 1 sample_batch [lit "blog"]
    category_ids post_ids 500 report state toy_codec_roundtrip site_db_no_content E
    (fun n => 900 + n)%N (fun n => (700 + n, 800 + n))%N 9000 false) as (report' & Er & _ & _ & _ & _ & Hu & _).
  exists report'. exact (conj Er Hu).
Defined.

Lemma imported_posts_are_served_witness :
  exists snap, get_published_by_slug 1 (lit "2019/one") sample_import.2.1 = Ok snap /\
    rs_title (ds_revision snap) = lit "Old post".
Proof.
  destruct sample_import as [[report|e] state] eqn:E; [|refuted_import E].
  unfold sample_import in E.
  destruct (imported_posts_are_served first_ops site_db owner_accounts 7 1 sample_batch [lit "blog"]
    category_ids post_ids 500 report state aliased_post toy_codec_roundtrip site_db_no_content E
    ltac:(apply list_elem_of_here)) as (slug & cat & snap & _ & _ & _ & _ & _ & Ht & _ & _ & _ & _ & _ & Hp).
  exists snap. split; [|exact Ht]. apply Hp. right. apply list_elem_of_here.
Defined.

(** Two published documents, the second one pinned. *)
Definition pinned_ops : list op := series_ops ++ [ReplaceHomePins 7 [11%N] 140].
Lemma home_feed_is_curated_witness :
  exists feed, home_feed 1 10 (runs pinned_ops site_db) = Ok feed /\
    NoDup (ds_id <$> hf_pinned feed ++ hf_recent feed).
Proof.
  destruct (home_feed_is_curated pinned_ops site_db 1 10 toy_codec_roundtrip site_db_no_content) as
    (feed & pins & Hf & _ & _ & Hn & _); [by vm_compute|]. exists feed. exact (conj Hf Hn).
Defined.
Example pinned_feed : match home_feed 1 10 (runs pinned_ops site_db) with
  | Ok feed => (map ds_id (hf_pinned feed), map ds_id (hf_recent feed),
                map (fun s => (s.1, map ds_id s.2)) (sections_of feed)) = ([11%N], [10%N], [(50%N, [10%N])])
  | Err _ => False
  end.
Proof. vm_compute. reflexivity. Qed.

Lemma comment_stays_public_witness :
  match create_comment 8 1 10 (lit " hi ") 70 150 (runs first_ops site_db) with
  | (Ok c, db') => com_source_markdown c = trim (lit " hi ") /\ get_comment 70 (runs [draft_op] db') = Ok c
  | _ => False
  end.
Proof.
  destruct (create_comment 8 1 10 (lit " hi ") 70 150 (runs first_ops site_db)) as [[c|e] db'] eqn:E.
  - destruct (comment_stays_public first_ops [draft_op] site_db 8 1 10 (lit " hi ") 70 150 c db'
      toy_codec_roundtrip site_db_no_content E) as (_ & Ht & _ & Hg & _). exact (conj Ht Hg).
  - exfalso. apply (f_equal (fun p : result RepositoryError CommentRecord * DB => is_ok p.1)) in E.
    vm_compute in E. discriminate E.
Defined.
