(* ===== verification/CoreWitnesses.v ===== *)
(** * The kernel theorems at concrete inputs *)

From Stdlib Require Import Bool NArith ZArith Lia.
From S2P Require Import Prelude Text Extern Policy Content Ai2Ai StoreBase StoreTaxonomy StoreContent StoreSpec Samples.
Import Toy.

Definition identity : VerifiedExternalIdentity := {|
  issuer := lit "https://id.example"; subject := lit "user-1";
  claims := {[ lit "roles" := lit "editor, admin,writer" ]} |}.
Definition mapping : IdentityMappingPolicy := {|
  allowed_issuers := [lit "https://id.example"]; role_claim := Some (lit "roles");
  role_allowlist := [lit "editor"; lit "writer"] |}.

Lemma map_verified_sound_witness :
  match map_verified mapping identity with
  | Ok p => roles p = [lit "editor"; lit "writer"] /\ capabilities p = []
  | Err _ => False
  end.
Proof.
  destruct (map_verified mapping identity) as [p|e] eqn:E; [|vm_compute in E; discriminate].
  destruct (map_verified_sound _ _ _ E) as (_ & _ & Hc & _). split; [|exact Hc].
  vm_compute in E. injection E as <-. reflexivity.
Defined.

(** A revision with a reviewed summary bound to its source. *)
Definition summary_for (title markdown : rstr) : AiSummary := {|
  sum_text := lit "Short summary."; sum_source_hash := ai_summary_source_hash title markdown;
  sum_provenance := {| sp_provider := lit "local"; sp_model := lit "model"; sp_prompt_version := lit "1";
                       sp_generated_at := 0; sp_human_reviewed := true |} |}.
Definition summarised : RevisionSnapshot := {|
  rs_schema_version := CONTENT_SCHEMA_VERSION; rs_id := 20; rs_document_id := 10; rs_revision_number := 1;
  rs_parent_revision_id := None; rs_title := lit "Title"; rs_slug := lit "hello";
  rs_source_markdown := lit "# Body"; rs_embeds := []; rs_intent := None; rs_ontology := None;
  rs_ai_summary := Some (summary_for (lit "Title") (lit "# Body")); rs_authorship := default_authorship;
  rs_actor := author; rs_content_hash := []; rs_created_at := 0 |}.

Lemma text_is_text x : forallb (fun c => c <? 1114112)%N x = true -> is_text x.
Proof. rewrite forallb_Forall. intros Hx. eapply Forall_impl; [exact Hx|]. intros c. apply N.ltb_lt. Qed.
Lemma no_nul x : contains_nul x = false -> 0%N ∉ x.
Proof. apply contains_char_false. Qed.

Lemma publishable_summary_binds_source_witness :
  publishable_ai_summary summarised = Some (summary_for (lit "Title") (lit "# Body")) /\
  sp_human_reviewed (sum_provenance (summary_for (lit "Title") (lit "# Body"))) = true.
Proof.
  assert (publishable_ai_summary summarised = Some (summary_for (lit "Title") (lit "# Body"))) as E
    by (vm_compute; reflexivity).
  split; [exact E|].
  assert (is_text (rs_title summarised) /\ is_text (rs_source_markdown summarised)) as [Ht Hm]
    by (split; apply text_is_text; vm_compute; reflexivity).
  assert (0%N ∉ rs_title summarised) as Hn by (apply no_nul; vm_compute; reflexivity).
  destruct (publishable_summary_binds_source summarised summarised _ Ht Ht Hm Hm Hn Hn E E)
    as ((Hr & _) & _). exact Hr.
Defined.

Lemma content_hash_covers_every_field_witness :
  (lit "T" = lit "T" /\ @None AiSummary = None) \/ sha256_collision.
Proof.
  destruct (content_hash_covers_every_field (lit "T") (lit "s") (lit "m") [] None None None
    (lit "T") (lit "s") (lit "m") [] None None None toy_codec_faithful) as [(H1 & _ & _ & _ & _ & _ & H2)|Hc].
  - repeat constructor; by apply text_is_text.
  - repeat constructor; by apply no_nul.
  - reflexivity.
  - left. exact (conj H1 H2).
  - right. exact Hc.
Defined.

Lemma envelope_validate_sound_witness :
  envelope_validate 0 (sample_envelope 10 20) = Ok tt /\
  exists p, aa_provider (env_actor (sample_envelope 10 20)) = Some p /\
    p ∈ ap_allowed_provider_ids (env_policy (sample_envelope 10 20)).
Proof.
  assert (envelope_validate 0 (sample_envelope 10 20) = Ok tt) as E by (vm_compute; reflexivity).
  split; [exact E|].
  destruct (envelope_validate_sound _ _ E) as (_ & _ & _ & _ & Hp & _). exact Hp.
Defined.
