(* ===== verification/Monetization.v ===== *)
(** * Advertising: [features/monetization-policy]

    The consent gate in front of third-party resources ([lib.rs]) and the
    static first-party advertisement, with the markup it renders to
    ([first_party_ad.rs]). *)

From Stdlib Require Import Bool NArith ZArith Lia.
From S2P Require Import Prelude Text Markup Extern.

Inductive GateError :=
| InvalidDeclaration
| UndeclaredResource
| ConsentRequired
| UnconfirmedException
| MissingDisclosure
| InvalidStaticAd (reason : rstr)
| RestrictedStaticDelivery (capability : rstr).
#[export] Instance GateError_eq_dec : EqDecision GateError.
Proof. solve_decision. Defined.

(** ** The resource gate *)

Inductive ConsentDecision := Granted | Denied.
#[export] Instance ConsentDecision_eq_dec : EqDecision ConsentDecision.
Proof. solve_decision. Defined.
Inductive TerminalAccessBasis := Consent | TransmissionException | RequestedServiceException.

Record ConsentSnapshot := {
  cs_policy_version : rstr;
  cs_decisions : gmap rstr ConsentDecision;
}.
Record AdDisclosure := {
  di_ad_id : rstr;
  di_slot_id : rstr;
  di_visible_label : rstr;
  di_on_behalf_of : rstr;
  di_paid_by : option rstr;
  di_targeting_mode : rstr;
  di_main_targeting_parameters : list rstr;
  di_data_processing_purpose_ids : list rstr;
}.
Definition AdDisclosure_validate (self : AdDisclosure) : result GateError unit :=
  fail_if (is_empty (trim (di_ad_id self)) || is_empty (trim (di_slot_id self))
           || is_empty (trim (di_visible_label self)) || is_empty (trim (di_on_behalf_of self))) MissingDisclosure.

Section gate.
Context `{UrlLib}.

Record ResourceDeclaration := {
  dc_id : rstr;
  dc_url : Url;
  dc_kind : rstr;
  dc_purpose_ids : gset rstr;
  dc_terminal_access_basis : TerminalAccessBasis;
  dc_operator_confirmed : bool;
  dc_rationale : option rstr;
}.
(** [ResourceGate]: the declared resources. *)
Abbreviation ResourceGate := (gmap rstr ResourceDeclaration).

(** One turn of the loop of [ResourceGate::new]. *)
Definition declare (declared : ResourceGate) (r : ResourceDeclaration) : result GateError ResourceGate :=
  fail_if (is_empty (trim (dc_id r)) || is_empty (trim (dc_kind r))
           || negb (str_eqb (url_scheme (dc_url r)) (lit "https"))
           || is_some (declared !! dc_id r)) InvalidDeclaration;;
  Ok (<[dc_id r := r]> declared).
Definition ResourceGate_new (resources : list ResourceDeclaration) : result GateError ResourceGate :=
  for_fold declare ∅ resources.

Definition authorize (self : ResourceGate) (resource_id : rstr) (consent : option ConsentSnapshot)
    : result GateError ResourceDeclaration :=
  resource ← ok_or (self !! resource_id) UndeclaredResource;
  match dc_terminal_access_basis resource with
  | Consent =>
      consent ← ok_or consent ConsentRequired;
      let all_granted :=
        negb (bool_decide (dc_purpose_ids resource = ∅))
        && forallb (fun purpose => bool_decide (cs_decisions consent !! purpose = Some Granted))
             (elements (dc_purpose_ids resource)) in
      ensure all_granted ConsentRequired
  | TransmissionException | RequestedServiceException =>
      fail_if (negb (dc_operator_confirmed resource)
               || is_none_or (fun value => is_empty (trim value)) (dc_rationale resource)) UnconfirmedException
  end;;
  Ok resource.
End gate.

(** ** The static advertisement *)

Inductive FirstPartyAdKind := HouseAd | DirectSponsor.
Inductive NamedAdSlot := ArticleFooter.
Definition NamedAdSlot_as_str (self : NamedAdSlot) : rstr :=
  match self with ArticleFooter => lit "article_footer" end.
Inductive DisclosureLabel := Advertisement | Sponsored.
#[export] Instance DisclosureLabel_eq_dec : EqDecision DisclosureLabel.
Proof. solve_decision. Defined.
Definition DisclosureLabel_as_str (self : DisclosureLabel) : rstr :=
  match self with Advertisement => lit "Advertisement" | Sponsored => lit "Sponsored" end.

Definition FIRST_PARTY_AD_SCHEMA_VERSION : rstr := lit "1.0".
Definition MEDIA_PATH_PREFIX : rstr := lit "/media/".
Definition MAX_CLICK_URL_LENGTH : N := 2048.
Definition MAX_SPONSOR_NAME_LENGTH : N := 200.
Definition MAX_BODY_TEXT_LENGTH : N := 2000.
Definition MAX_ALT_TEXT_LENGTH : N := 300.

Definition invalid_ad (b : bool) (reason : string) : result GateError unit := fail_if b (InvalidStaticAd (lit reason)).

Definition stable_id_byte (b : N) : bool := is_ascii_lowercase b || is_ascii_digit b || one_of "._:-" b.
Definition validate_stable_id (value : rstr) : result GateError unit :=
  let valid := negb (is_empty value) && (str_len value <=? 128)%N
               && is_some_and (fun b => is_ascii_lowercase b || is_ascii_digit b) (head (bytes value))
               && forallb stable_id_byte (bytes value) in
  invalid_ad (negb valid) "ad id is invalid".
Definition validate_plain_text (value : rstr) (max_length : N) (length_error : string) : result GateError unit :=
  invalid_ad (is_empty (trim value) || (max_length <? char_count value)%N) length_error;;
  invalid_ad (existsb (fun c => is_control c && negb ((c =? 10)%N || (c =? 9)%N)) value)
    "plain text contains a restricted control character".
Definition media_digest_byte (b : N) : bool := is_ascii_digit b || in_range 97 102 b.
Definition validate_media_path (value : rstr) : result GateError unit :=
  digest ← ok_or (strip_prefix MEDIA_PATH_PREFIX value) (InvalidStaticAd (lit "image must use a first-party media path"));
  invalid_ad (negb (str_len digest =? 64)%N || negb (forallb media_digest_byte (bytes digest)))
    "image media path must contain a lowercase SHA-256 digest".

Record FirstPartyImage := {
  im_media_path : rstr;
  im_alt_text : rstr;
}.
(** [&self.media_path[MEDIA_PATH_PREFIX.len()..]] *)
Definition FirstPartyImage_digest (self : FirstPartyImage) : result GateError rstr :=
  validate_media_path (im_media_path self);;
  Ok (drop (length MEDIA_PATH_PREFIX) (im_media_path self)).
Definition FirstPartyImage_validate (self : FirstPartyImage) : result GateError unit :=
  validate_media_path (im_media_path self);;
  validate_plain_text (im_alt_text self) MAX_ALT_TEXT_LENGTH "image alt text is empty or too long".

Record StaticDeliveryPolicy := {
  sp_third_party_fetches : bool;
  sp_scripts : bool;
  sp_tracking_pixels : bool;
  sp_raw_html : bool;
  sp_personalization : bool;
  sp_browser_storage : bool;
  sp_identifiers : bool;
  sp_measurement : bool;
}.
Definition restrictions (self : StaticDeliveryPolicy) : list (rstr * bool) := [
  (lit "third_party_fetches", sp_third_party_fetches self); (lit "scripts", sp_scripts self);
  (lit "tracking_pixels", sp_tracking_pixels self); (lit "raw_html", sp_raw_html self);
  (lit "personalization", sp_personalization self); (lit "browser_storage", sp_browser_storage self);
  (lit "identifiers", sp_identifiers self); (lit "measurement", sp_measurement self)].
Definition StaticDeliveryPolicy_validate (self : StaticDeliveryPolicy) : result GateError unit :=
  match find snd (restrictions self) with
  | Some (capability, _) => Err (RestrictedStaticDelivery capability)
  | None => Ok tt
  end.

Section ad.
Context `{UrlLib}.

Record FirstPartyAd := {
  fa_schema_version : rstr;
  fa_ad_id : rstr;
  fa_kind : FirstPartyAdKind;
  fa_slot : NamedAdSlot;
  fa_disclosure : DisclosureLabel;
  fa_sponsor_name : rstr;
  fa_body_text : rstr;
  fa_click_url : option Url;
  fa_image : option FirstPartyImage;
  fa_delivery : StaticDeliveryPolicy;
}.
Record StaticAdRenderPlan := {
  ar_ad_id : rstr;
  ar_slot : NamedAdSlot;
  ar_disclosure : DisclosureLabel;
  ar_sponsor_name : rstr;
  ar_body_text : rstr;
  ar_click_url : option Url;
  ar_image : option FirstPartyImage;
}.

Definition validate_click_url (url : Url) : result GateError unit :=
  invalid_ad ((MAX_CLICK_URL_LENGTH <? str_len (url_as_str url))%N || negb (str_eqb (url_scheme url) (lit "https"))
              || url_cannot_be_a_base url || is_none (url_host_str url) || negb (is_empty (url_username url))
              || is_some (url_password url) || is_some (url_fragment url))
    "click URL must be credential-free HTTPS without a fragment".

Definition FirstPartyAd_validate (self : FirstPartyAd) : result GateError unit :=
  invalid_ad (negb (str_eqb (fa_schema_version self) FIRST_PARTY_AD_SCHEMA_VERSION)) "unsupported schema version";;
  validate_stable_id (fa_ad_id self);;
  let expected_disclosure := match fa_kind self with HouseAd => Advertisement | DirectSponsor => Sponsored end in
  invalid_ad (negb (bool_decide (fa_disclosure self = expected_disclosure))) "disclosure does not match the ad kind";;
  validate_plain_text (fa_sponsor_name self) MAX_SPONSOR_NAME_LENGTH "sponsor name is empty or too long";;
  validate_plain_text (fa_body_text self) MAX_BODY_TEXT_LENGTH "body text is empty or too long";;
  match fa_click_url self with Some url => validate_click_url url | None => Ok tt end;;
  match fa_image self with Some image => FirstPartyImage_validate image | None => Ok tt end;;
  StaticDeliveryPolicy_validate (fa_delivery self).

(** [AuthorizedFirstPartyAd]: a wrapper only [authorize_without_consent]
    builds. *)
Record AuthorizedFirstPartyAd := { au_ad : FirstPartyAd }.
Definition authorize_without_consent (self : FirstPartyAd) : result GateError AuthorizedFirstPartyAd :=
  FirstPartyAd_validate self;; Ok {| au_ad := self |}.
Definition render_plan (self : AuthorizedFirstPartyAd) : StaticAdRenderPlan := {|
  ar_ad_id := fa_ad_id (au_ad self); ar_slot := fa_slot (au_ad self); ar_disclosure := fa_disclosure (au_ad self);
  ar_sponsor_name := fa_sponsor_name (au_ad self); ar_body_text := fa_body_text (au_ad self);
  ar_click_url := fa_click_url (au_ad self); ar_image := fa_image (au_ad self) |}.

Definition render_plan_as_html (plan : StaticAdRenderPlan) : rstr :=
  let out := html "<aside class=`osb-static-ad` data-osb-ad-id=`" in
  let out := push_escaped_html out (ar_ad_id plan) in
  let out := out ++ html "` data-osb-slot=`" ++ NamedAdSlot_as_str (ar_slot plan) ++ html "` aria-label=`"
             ++ DisclosureLabel_as_str (ar_disclosure plan) ++ html "`><strong class=`osb-static-ad__disclosure`>"
             ++ DisclosureLabel_as_str (ar_disclosure plan)
             ++ html "</strong><p class=`osb-static-ad__sponsor`>" in
  let out := push_escaped_html out (ar_sponsor_name plan) in
  let out := out ++ html "</p>" in
  let out := match ar_image plan with
             | Some image =>
                 let out := out ++ html "<img class=`osb-static-ad__image` src=`" in
                 let out := push_escaped_html out (im_media_path image) in
                 let out := out ++ html "` alt=`" in
                 let out := push_escaped_html out (im_alt_text image) in
                 out ++ html "` loading=`lazy` decoding=`async`>"
             | None => out
             end in
  let out := out ++ html "<p class=`osb-static-ad__body`>" in
  let out := push_escaped_html out (ar_body_text plan) in
  let out := out ++ html "</p>" in
  let out := match ar_click_url plan with
             | Some url =>
                 let out := out ++ html "<a class=`osb-static-ad__link` href=`" in
                 let out := push_escaped_html out (url_as_str url) in
                 out ++ html "` rel=`nofollow sponsored noopener noreferrer` referrerpolicy=`no-referrer`>Visit sponsor</a>"
             | None => out
             end in
  out ++ html "</aside>".
Definition render_safe_html (self : AuthorizedFirstPartyAd) : rstr := render_plan_as_html (render_plan self).
End ad.

(** ** What the markup of an advertisement reads as *)

Section render.
Context `{UrlLib}.

Definition image_html (image : FirstPartyImage) : rstr :=
  html "<img class=`osb-static-ad__image` src=`" ++ (escape (im_media_path image) ++ [34%N]) ++ html " alt=`"
  ++ (escape (im_alt_text image) ++ [34%N]) ++ html " loading=`lazy` decoding=`async`>".
Definition link_html (url : Url) : rstr :=
  html "<a class=`osb-static-ad__link` href=`" ++ (escape (url_as_str url) ++ [34%N])
  ++ html " rel=`nofollow sponsored noopener noreferrer` referrerpolicy=`no-referrer`>Visit sponsor</a>".
Lemma render_pieces plan : render_plan_as_html plan =
  html "<aside class=`osb-static-ad` data-osb-ad-id=`" ++ (escape (ar_ad_id plan) ++ [34%N])
  ++ (html " data-osb-slot=`" ++ NamedAdSlot_as_str (ar_slot plan) ++ html "` aria-label=`"
      ++ DisclosureLabel_as_str (ar_disclosure plan) ++ html "`><strong class=`osb-static-ad__disclosure`>"
      ++ DisclosureLabel_as_str (ar_disclosure plan) ++ html "</strong><p class=`osb-static-ad__sponsor`>")
  ++ (escape (ar_sponsor_name plan) ++ [60%N]) ++ html "/p>"
  ++ from_option image_html [] (ar_image plan)
  ++ html "<p class=`osb-static-ad__body`>" ++ (escape (ar_body_text plan) ++ [60%N]) ++ html "/p>"
  ++ from_option link_html [] (ar_click_url plan) ++ html "</aside>".
Proof.
  unfold render_plan_as_html, image_html, link_html. rewrite !push_escaped.
  destruct (ar_image plan), (ar_click_url plan); cbn [from_option]; rewrite ?push_escaped, <-?app_assoc; reflexivity.
Qed.

Lemma reads_image image : reads InText (image_html image) (html "<img class=`` src=`` alt=`` loading=`` decoding=``>")
  [lit "osb-static-ad__image"; im_media_path image; im_alt_text image; lit "lazy"; lit "async"] InText.
Proof.
  eapply reads_eq.
  - repeat (eapply reads_app; [first [apply reads_value|literal]|]). literal.
  - reflexivity.
  - reflexivity.
Qed.

Lemma reads_link url : reads InText (link_html url) (html "<a class=`` href=`` rel=`` referrerpolicy=``></a>")
  [lit "osb-static-ad__link"; url_as_str url; lit "nofollow sponsored noopener noreferrer"; lit "no-referrer";
   lit "Visit sponsor"] InText.
Proof.
  eapply reads_eq.
  - repeat (eapply reads_app; [first [apply reads_value|literal]|]). literal.
  - reflexivity.
  - reflexivity.
Qed.

(** What the advertisement shows, in the order of the markup. *)
Definition ad_markup (plan : StaticAdRenderPlan) : rstr :=
  html "<aside class=`` data-osb-ad-id=`` data-osb-slot=`` aria-label=``><strong class=``></strong><p class=``></p>"
  ++ (if is_some (ar_image plan) then html "<img class=`` src=`` alt=`` loading=`` decoding=``>" else [])
  ++ html "<p class=``></p>"
  ++ (if is_some (ar_click_url plan) then html "<a class=`` href=`` rel=`` referrerpolicy=``></a>" else [])
  ++ html "</aside>".
Definition ad_data (plan : StaticAdRenderPlan) : list rstr :=
  [lit "osb-static-ad"; ar_ad_id plan; NamedAdSlot_as_str (ar_slot plan);
   DisclosureLabel_as_str (ar_disclosure plan); lit "osb-static-ad__disclosure";
   DisclosureLabel_as_str (ar_disclosure plan); lit "osb-static-ad__sponsor"; ar_sponsor_name plan]
  ++ from_option (fun image => [lit "osb-static-ad__image"; im_media_path image; im_alt_text image;
                                lit "lazy"; lit "async"]) [] (ar_image plan)
  ++ [lit "osb-static-ad__body"; ar_body_text plan]
  ++ from_option (fun url => [lit "osb-static-ad__link"; url_as_str url;
                              lit "nofollow sponsored noopener noreferrer"; lit "no-referrer"; lit "Visit sponsor"])
       [] (ar_click_url plan).

Lemma reads_plan plan : ar_sponsor_name plan <> [] -> ar_body_text plan <> [] ->
  reads InText (render_plan_as_html plan) (ad_markup plan) (ad_data plan) InText.
Proof.
  intros Hs Hb. rewrite render_pieces. unfold ad_data.
  destruct (ar_slot plan), (ar_disclosure plan); eapply reads_eq.
  all: try (eapply reads_app; [literal|]; eapply reads_app; [apply reads_value|];
    eapply reads_app; [literal|]; eapply reads_app; [by apply reads_text|]; eapply reads_app; [literal|];
    eapply reads_app; [apply reads_optional, reads_image|]; eapply reads_app; [literal|];
    eapply reads_app; [by apply reads_text|]; eapply reads_app; [literal|];
    eapply reads_app; [apply reads_optional, reads_link|]; literal).
  all: try (unfold ad_markup; destruct (ar_image plan), (ar_click_url plan); reflexivity).
Qed.

Lemma plain_text_nonempty v n reason u : validate_plain_text v n reason = Ok u -> v <> [].
Proof. unfold validate_plain_text, invalid_ad. intros Hv ->. by inv_ok; bool_simpl. Qed.
Lemma media_path_digest v u : validate_media_path v = Ok u ->
  exists digest, v = MEDIA_PATH_PREFIX ++ digest /\ length digest = 64 /\ Forall (fun b => media_digest_byte b = true) digest.
Proof.
  unfold validate_media_path, invalid_ad. intros Hv. inv_ok. bool_simpl.
  match goal with E : strip_prefix _ _ = Some ?d |- _ => apply strip_prefix_Some in E; exists d end.
  assert (ascii_only media_digest_byte) as Ha.
  { intros b. unfold media_digest_byte, is_ascii_digit, in_range. rewrite orb_true_iff, !andb_true_iff, !N.leb_le. lia. }
  match goal with X : forallb _ (bytes _) = true |- _ => apply (bytes_ascii_all _ _ Ha) in X; rename X into Hall end.
  match goal with X : str_len _ = _ |- _ => rename X into Hlen end.
  unfold str_len in Hlen. rewrite bytes_of_ascii in Hlen by (eapply Forall_impl; [exact Hall|apply Ha]).
  unfold size_of in Hlen.
  split; [done|]. split; [lia|done].
Qed.

(** C13. An authorized advertisement shows what was authorized and does nothing
    else.  Read back by a browser's rules, its markup is one of four fixed tag
    sequences (with or without an image and a link), none of them a script,
    whatever the texts contain; its texts and attribute values are exactly the
    fields of the advertisement; its link is credential-free HTTPS, its image a
    first-party content address, and no restricted capability is requested. *)
Theorem authorized_ad_shows_what_was_authorized ad a (Ha : authorize_without_consent ad = Ok a) :
  au_ad a = ad /\
  markup (render_safe_html a) = ad_markup (render_plan a) /\
  data (render_safe_html a) = ad_data (render_plan a) /\
  (forall url, fa_click_url ad = Some url ->
     url_scheme url = lit "https" /\ url_username url = [] /\ url_password url = None) /\
  (forall image, fa_image ad = Some image -> exists digest, FirstPartyImage_digest image = Ok digest /\
     im_media_path image = lit "/media/" ++ digest /\ Forall (fun b => media_digest_byte b = true) digest) /\
  Forall (fun capability => capability.2 = false) (restrictions (fa_delivery ad)).
Proof.
  unfold authorize_without_consent, FirstPartyAd_validate, invalid_ad in Ha. inv_ok.
  split; [done|].
  assert (scan InText [] (render_safe_html {| au_ad := ad |}) =
    (ad_markup (render_plan {| au_ad := ad |}), ad_data (render_plan {| au_ad := ad |}))) as E.
  { pose proof (reads_plan (render_plan {| au_ad := ad |})) as Hr.
    rewrite <-(app_nil_r (render_safe_html _)), Hr by (cbn; by eapply plain_text_nonempty).
    cbn [scan fst snd text_run is_empty]. by rewrite !app_nil_r. }
  unfold markup, data. rewrite E. split; [done|]. split; [done|]. split_and!.
  - intros url Hu. rewrite Hu in *. unfold validate_click_url, invalid_ad in *. inv_ok. bool_simpl.
    match goal with X : str_eqb _ _ = true |- _ => apply str_eqb_eq in X end.
    split; [done|]. split; [by destruct (url_username url)|by destruct (url_password url)].
  - intros image Hi. rewrite Hi in *. unfold FirstPartyImage_validate in *. inv_ok.
    match goal with X : validate_media_path _ = Ok _ |- _ => rename X into Hm end.
    destruct (media_path_digest _ _ Hm) as (digest & Ed & _ & Hall). exists digest. split; [|done].
    unfold FirstPartyImage_digest. rewrite Hm. cbn [mbind result_bind]. by rewrite Ed, drop_app_length.
  - unfold StaticDeliveryPolicy_validate in *. destruct (find snd _) as [[]|] eqn:Ef; [done|].
    apply Forall_forall. intros c Hc. apply list_elem_of_In in Hc. by apply (find_none _ _ Ef).
Qed.

Lemma declared_resources resources : forall declared gate, for_fold declare declared resources = Ok gate ->
  (forall id r, declared !! id = Some r -> dc_id r = id /\ url_scheme (dc_url r) = lit "https") ->
  (forall id r, gate !! id = Some r -> dc_id r = id /\ url_scheme (dc_url r) = lit "https") /\
  (forall id r, gate !! id = Some r <-> declared !! id = Some r \/ (r ∈ resources /\ dc_id r = id)).
Proof.
  induction resources as [|r resources IH]; intros declared gate; cbn [for_fold].
  { intros [= <-] Hd. split; [done|]. intros id r. split; [by left|]. intros [?|[[]%not_elem_of_nil _]]; done. }
  intros (x & H1 & Hl)%bind_Ok Hd. unfold declare in H1. inv_ok. bool_simpl.
  match goal with X : str_eqb _ _ = true |- _ => apply str_eqb_eq in X end.
  match goal with X : is_some _ = false |- _ => rename X into Hnew end.
  destruct (IH _ _ Hl) as [Hs Hi].
  { intros id q [[<- <-]|[_ Hq]]%lookup_insert_Some; [done|by apply Hd]. }
  split; [done|]. intros id q. rewrite Hi, lookup_insert_Some, elem_of_cons. split.
  - intros [[[<- <-]|[_ ?]]|[? ?]]; auto.
  - intros [Hq|[[->|Hq] <-]]; auto. left. right. split; [|done]. intros <-. by rewrite Hq in Hnew.
Qed.

(** The gate opens for declared resources only, and only with complete
    consent: [authorize] returns a resource exactly if it was declared under
    that identifier and every one of its purposes, of which there is at least
    one, is granted in the snapshot at hand, or its exception was confirmed by
    the operator and justified; and every such resource is HTTPS. *)
Theorem gate_opens_exactly_with_consent resources gate id consent r
    (Hn : ResourceGate_new resources = Ok gate) :
  (authorize gate id consent = Ok r <->
   (r ∈ resources /\ dc_id r = id) /\
   match dc_terminal_access_basis r with
   | Consent => exists snapshot, consent = Some snapshot /\ dc_purpose_ids r <> ∅ /\
       forall purpose, purpose ∈ dc_purpose_ids r -> cs_decisions snapshot !! purpose = Some Granted
   | _ => dc_operator_confirmed r = true /\ exists rationale, dc_rationale r = Some rationale /\ trim rationale <> []
   end) /\
  (authorize gate id consent = Ok r -> url_scheme (dc_url r) = lit "https").
Proof.
  destruct (declared_resources resources ∅ gate Hn) as [Hs Hi]; [intros ? ?; by rewrite lookup_empty|].
  assert (gate !! id = Some r <-> r ∈ resources /\ dc_id r = id) as Hin.
  { rewrite Hi, lookup_empty. naive_solver. }
  split; [|unfold authorize; intros Ha; inv_ok; by eapply Hs].
  rewrite <-Hin. unfold authorize. split.
  - intros Ha. inv_ok. split; [done|]. destruct (dc_terminal_access_basis r); inv_ok; bool_simpl.
    + eexists. split; [done|]. split; [done|]. intros purpose Hp.
      match goal with X : forallb _ _ = true |- _ => rewrite forallb_forall in X; rename X into Hall end.
      specialize (Hall purpose (proj1 (list_elem_of_In _ _) (proj2 (elem_of_elements _ _) Hp))). by bool_simpl.
    + destruct (dc_rationale r) as [v|]; [|done]. split; [done|]. exists v. split; [done|]. cbn in *.
      intros E. by rewrite E in *.
    + destruct (dc_rationale r) as [v|]; [|done]. split; [done|]. exists v. split; [done|]. cbn in *.
      intros E. by rewrite E in *.
  - intros [-> Hb]. cbn [ok_or mbind result_bind]. destruct (dc_terminal_access_basis r).
    + destruct Hb as (s & -> & Hne & Hall). cbn [ok_or mbind result_bind].
      rewrite (bool_decide_eq_false_2 _ Hne).
      assert (forallb (fun purpose => bool_decide (cs_decisions s !! purpose = Some Granted))
        (elements (dc_purpose_ids r)) = true) as ->; [|done].
      apply forallb_forall. intros p Hp. apply bool_decide_eq_true, Hall, elem_of_elements. by apply list_elem_of_In.
    + destruct Hb as (-> & v & -> & Hv). cbn. by destruct (trim v).
    + destruct Hb as (-> & v & -> & Hv). cbn. by destruct (trim v).
Qed.
End render.

(** ** At concrete inputs *)

Import Toy.
Definition sample_url : toy_url :=
  {| tu_text := lit "https://sponsor.example/a&b"; tu_scheme := lit "https"; tu_host := lit "sponsor.example";
     tu_path := lit "/a&b" |}.
Definition sample_ad : FirstPartyAd := {|
  fa_schema_version := lit "1.0"; fa_ad_id := lit "summer-1"; fa_kind := DirectSponsor; fa_slot := ArticleFooter;
  fa_disclosure := Sponsored; fa_sponsor_name := lit "Example & Sons";
  fa_body_text := lit "</p><script>alert('x')</script>"; fa_click_url := Some sample_url;
  fa_image := Some {| im_media_path := lit "/media/" ++ toy_hex [1%N]; im_alt_text := html "` onload=`alert(2)" |};
  fa_delivery := {| sp_third_party_fetches := false; sp_scripts := false; sp_tracking_pixels := false;
                    sp_raw_html := false; sp_personalization := false; sp_browser_storage := false;
                    sp_identifiers := false; sp_measurement := false |} |}.
Lemma sample_ad_authorized : authorize_without_consent sample_ad = Ok {| au_ad := sample_ad |}.
Proof. vm_compute. reflexivity. Qed.
Lemma authorized_ad_shows_what_was_authorized_witness :
  markup (render_safe_html {| au_ad := sample_ad |}) = ad_markup (render_plan {| au_ad := sample_ad |}) /\
  lit "</p><script>alert('x')</script>" ∈ data (render_safe_html {| au_ad := sample_ad |}).
Proof.
  destruct (authorized_ad_shows_what_was_authorized sample_ad _ sample_ad_authorized) as (_ & Hm & Hd & _).
  split; [exact Hm|]. rewrite Hd. apply (bool_decide_unpack _). vm_compute. exact I.
Defined.

Definition sample_resource : ResourceDeclaration := {|
  dc_id := lit "provider"; dc_url := sample_url; dc_kind := lit "script";
  dc_purpose_ids := {[ lit "ads"; lit "measurement" ]}; dc_terminal_access_basis := Consent;
  dc_operator_confirmed := false; dc_rationale := None |}.
Definition sample_gate : gmap rstr ResourceDeclaration := <[lit "provider" := sample_resource]> ∅.
Lemma sample_gate_built : ResourceGate_new [sample_resource] = Ok sample_gate.
Proof. reflexivity. Qed.
Lemma gate_opens_exactly_with_consent_witness :
  ~ (authorize sample_gate (lit "provider") (Some {| cs_policy_version := lit "1";
       cs_decisions := {[ lit "ads" := Granted ]} |}) = Ok sample_resource).
Proof.
  intros Ha. apply (proj1 (gate_opens_exactly_with_consent _ _ _ _ _ sample_gate_built)) in Ha as [_ (s & [= <-] & _ & Hall)].
  specialize (Hall (lit "measurement") ltac:(apply (bool_decide_unpack _); vm_compute; exact I)).
  vm_compute in Hall. discriminate Hall.
Defined.
