(* ===== verification/Replace.v ===== *)
(** * The three-file transaction: [transactional_replace]

    How a lifecycle command ([apps/cli/src/bootstrap/dlc_lifecycle.rs])
    replaces the intent, the lock and the environment file: staged next to
    their targets, renamed into place one by one, and renamed back on failure.

    The file system is a finite map; each operation may fail, at the will of an
    oracle indexed by a clock that every operation advances.  A failed write may
    leave a partial new file; a failed rename or removal changes nothing.  An
    oracle that fails everything from some instant on is a crash. *)

From Stdlib Require Import Bool NArith ZArith Lia.
From S2P Require Import Prelude Text.

(** A directory and a file name in it; the names are UTF-8. *)
Definition Path : Type := rstr * rstr.
#[export] Instance Path_eq_dec : EqDecision Path := _.
#[export] Instance Path_countable : Countable Path := _.
Abbreviation Files := (gmap Path (list N)).

Inductive ReplaceError :=
| NoTargets
| Io
| TargetChanged
| AfterReplace
| RolledBack (cause : ReplaceError)
| RollbackFailed (cause rollback : ReplaceError)
| RollbackMismatch.

Record Replacement := {
  fr_path : Path;
  fr_original : list N;
  fr_replacement : list N;
}.
Record PreparedReplacement := {
  fp_path : Path;
  fp_stage : Path;
  fp_backup : Path;
  fp_original : list N;
}.

(** ** File operations *)

Record World := {
  w_files : Files;
  w_clock : nat;
}.
Definition IO (A : Type) : Type := World -> result ReplaceError A * World.
#[export] Instance io_ret : MRet IO := fun A a w => (Ok a, w).
#[export] Instance io_bind : MBind IO := fun A B f m w =>
  match m w with
  | (Ok a, w) => f a w
  | (Err e, w) => (Err e, w)
  end.
Definition raise {A} (e : ReplaceError) : IO A := fun w => (Err e, w).
Definition guard_io (b : bool) (e : ReplaceError) : IO unit := if b then mret tt else raise e.
(** [let _ = m;] *)
Definition ignore (m : IO unit) : IO unit := fun w => (Ok tt, (m w).2).
(** [match m { Ok(a) => .., Err(e) => .. }] *)
Definition catch {A B} (m : IO A) (on_ok : A -> IO B) (on_err : ReplaceError -> IO B) : IO B := fun w =>
  match m w with
  | (Ok a, w) => on_ok a w
  | (Err e, w) => on_err e w
  end.
Fixpoint io_each {A} (f : A -> IO unit) (l : list A) : IO unit :=
  match l with
  | [] => mret tt
  | a :: l => f a;; io_each f l
  end.

(** The loop may stop early: what it pushed to the vector survives the error. *)
Definition Pushed (A : Type) : Type := World -> (list A * result ReplaceError unit) * World.
Fixpoint push_each {A B} (f : A -> IO B) (l : list A) (pushed : list B) : Pushed B := fun w =>
  match l with
  | [] => ((pushed, Ok tt), w)
  | a :: l => match f a w with
              | (Ok b, w) => push_each f l (pushed ++ [b]) w
              | (Err e, w) => ((pushed, Err e), w)
              end
  end.

Section transaction.
(** Which operations fail, and what a failed write leaves. *)
Context (fault : nat -> bool) (wreck : nat -> option (list N)).

Definition operation {A} (f : Files -> option (A * Files)) (broken : nat -> Files -> Files) : IO A := fun w =>
  let tick files := {| w_files := files; w_clock := S (w_clock w) |} in
  if fault (w_clock w) then (Err Io, tick (broken (w_clock w) (w_files w)))
  else match f (w_files w) with
       | Some (a, files) => (Ok a, tick files)
       | None => (Err Io, tick (w_files w))
       end.
Definition unbroken (_ : nat) (files : Files) : Files := files.

Definition fs_read (path : Path) : IO (list N) :=
  operation (fun files => content ← files !! path; Some (content, files)) unbroken.
Definition fs_rename (from to : Path) : IO unit :=
  operation (fun files => content ← files !! from; Some (tt, <[to := content]> (delete from files))) unbroken.
Definition fs_remove_file (path : Path) : IO unit :=
  operation (fun files => _ ← files !! path; Some (tt, delete path files)) unbroken.
Definition fs_sync : IO unit := operation (fun files => Some (tt, files)) unbroken.
(** [create_new(true)], [write_all], [sync_all], [set_permissions] *)
Definition write_staged (path : Path) (content : list N) : IO unit :=
  operation (fun files => match files !! path with
                          | None => Some (tt, <[path := content]> files)
                          | Some _ => None
                          end)
            (fun t files => match files !! path, wreck t with
                            | None, Some partial => <[path := partial]> files
                            | _, _ => files
                            end).

Definition read_regular_bounded (path : Path) (limit : N) : IO (list N) :=
  content ← fs_read path;
  guard_io (size_of content <=? limit)%N Io;;
  mret content.

(** ** The transaction *)

Definition temporary (nonce : rstr) (extension : string) (path : Path) : Path :=
  (path.1, lit "." ++ path.2 ++ lit "." ++ nonce ++ lit extension).
Definition stage_of (nonce : rstr) : Path -> Path := temporary nonce ".stage".
Definition backup_of (nonce : rstr) : Path -> Path := temporary nonce ".backup".

Definition prepare_one (nonce : rstr) (r : Replacement) : IO PreparedReplacement :=
  current ← read_regular_bounded (fr_path r) (size_of (fr_original r) + 1);
  guard_io (bool_decide (current = fr_original r)) TargetChanged;;
  let stage := stage_of nonce (fr_path r) in
  let backup := backup_of nonce (fr_path r) in
  write_staged stage (fr_replacement r);;
  catch (write_staged backup (fr_original r)) mret
    (fun e => ignore (fs_remove_file stage);; raise e);;
  mret {| fp_path := fr_path r; fp_stage := stage; fp_backup := backup; fp_original := fr_original r |}.

Definition cleanup_transaction_files (prepared : list PreparedReplacement) : IO unit :=
  io_each (fun item => ignore (fs_remove_file (fp_stage item));; ignore (fs_remove_file (fp_backup item))) prepared.

(** One directory synced per distinct parent. *)
Definition sync_parent_directories (paths : list Path) : IO unit :=
  io_each (fun _ => fs_sync) (elements (list_to_set (fst <$> paths) : gset rstr)).

Definition rollback_transaction (prepared : list PreparedReplacement) (committed : nat) : IO unit :=
  io_each (fun item => fs_rename (fp_backup item) (fp_path item)) (take committed prepared);;
  sync_parent_directories (fp_path <$> take committed prepared);;
  io_each (fun item => content ← fs_read (fp_path item);
                       guard_io (bool_decide (content = fp_original item)) RollbackMismatch)
    (take committed prepared);;
  cleanup_transaction_files prepared.

(** The commit loop counts the renamed targets; the callback sees the count. *)
Fixpoint commit_each (after_replace : nat -> bool) (prepared : list PreparedReplacement) (committed : nat)
    : World -> (nat * result ReplaceError unit) * World := fun w =>
  match prepared with
  | [] => ((committed, Ok tt), w)
  | item :: prepared =>
      match fs_rename (fp_stage item) (fp_path item) w with
      | (Ok _, w) => if after_replace (S committed) then commit_each after_replace prepared (S committed) w
                     else ((S committed, Err AfterReplace), w)
      | (Err e, w) => ((committed, Err e), w)
      end
  end.
Definition commit_all (after_replace : nat -> bool) (prepared : list PreparedReplacement)
    : World -> (nat * result ReplaceError unit) * World := fun w =>
  match commit_each after_replace prepared 0 w with
  | ((committed, Ok _), w) =>
      let '(r, w) := sync_parent_directories (fp_path <$> prepared) w in ((committed, r), w)
  | failed => failed
  end.
Definition prepare_all (nonce : rstr) (replacements : list Replacement)
    : World -> (list PreparedReplacement * result ReplaceError unit) * World := fun w =>
  match push_each (prepare_one nonce) replacements [] w with
  | ((prepared, Ok _), w) =>
      let '(r, w) := sync_parent_directories (flat_map (fun item => [fp_stage item; fp_backup item]) prepared) w in
      ((prepared, r), w)
  | failed => failed
  end.

Definition transactional_replace (nonce : rstr) (after_replace : nat -> bool) (replacements : list Replacement)
    : IO unit :=
  guard_io (negb (is_empty_list replacements)) NoTargets;;
  ((fun w =>
    let '((prepared, r), w) := prepare_all nonce replacements w in
    match r with
    | Err e => (cleanup_transaction_files prepared;; raise e) w
    | Ok _ =>
        let '((committed, r), w) := commit_all after_replace prepared w in
        match r with
        | Err e => catch (rollback_transaction prepared committed)
                     (fun _ => raise (RolledBack e)) (fun e' => raise (RollbackFailed e e')) w
        | Ok _ => (cleanup_transaction_files prepared;;
                   ignore (sync_parent_directories (fp_path <$> prepared))) w
        end
    end) : IO unit).
End transaction.

(** ** A program logic for file operations

    [triple P m Q X]: from files satisfying [P], success ends in [Q] and
    failure in [X]. *)

Definition triple {A} (P : Files -> Prop) (m : IO A) (Q : A -> Files -> Prop) (X : Files -> Prop) : Prop :=
  forall w, P (w_files w) ->
  match m w with (Ok a, w') => Q a (w_files w') | (Err _, w') => X (w_files w') end.

Section logic.
Context (fault : nat -> bool) (wreck : nat -> option (list N)).
Implicit Types P X : Files -> Prop.

Lemma triple_ret {A} (a : A) P (Q : A -> Files -> Prop) X : (forall F, P F -> Q a F) -> triple P (mret a) Q X.
Proof. intros Hq w Hw. by apply Hq. Qed.
Lemma triple_raise {A} e P (Q : A -> Files -> Prop) X : (forall F, P F -> X F) -> triple P (raise e) Q X.
Proof. intros Hx w Hw. by apply Hx. Qed.
Lemma triple_bind {A B} (m : IO A) (k : A -> IO B) P Q R X :
  triple P m Q X -> (forall a, triple (Q a) (k a) R X) -> triple P (m ≫= k) R X.
Proof.
  intros Hm Hk w Hw. specialize (Hm w Hw). unfold mbind, io_bind.
  destruct (m w) as [[a|e] w']; [by apply Hk|done].
Qed.
Lemma triple_weaken {A} (m : IO A) P P' (Q Q' : A -> Files -> Prop) X X' :
  triple P m Q X -> (forall F, P' F -> P F) -> (forall a F, Q a F -> Q' a F) -> (forall F, X F -> X' F) ->
  triple P' m Q' X'.
Proof.
  intros Hm Hp Hq Hx w Hw. specialize (Hm w (Hp _ Hw)). destruct (m w) as [[a|e] w']; [by apply Hq|by apply Hx].
Qed.
Lemma triple_guard b e P X : (forall F, P F -> X F) -> triple P (guard_io b e) (fun _ F => P F /\ b = true) X.
Proof. intros Hx w Hw. destruct b; cbn; auto. Qed.
Lemma triple_check b e P (Q : unit -> Files -> Prop) X : (forall F, P F -> X F) ->
  (forall F, P F -> b = true -> Q tt F) -> triple P (guard_io b e) Q X.
Proof. intros Hx Hq w Hw. destruct b; cbn; auto. Qed.
Lemma triple_ignore m P X : triple P m (fun _ => P) P -> triple P (ignore m) (fun _ => P) X.
Proof. intros Hm w Hw. specialize (Hm w Hw). unfold ignore. by destruct (m w) as [[a|e] w']. Qed.
Lemma triple_catch {A B} (m : IO A) (f : A -> IO B) (g : ReplaceError -> IO B) P Q R X X' :
  triple P m Q X' -> (forall a, triple (Q a) (f a) R X) -> (forall e, triple X' (g e) R X) ->
  triple P (catch m f g) R X.
Proof.
  intros Hm Hf Hg w Hw. specialize (Hm w Hw). unfold catch. destruct (m w) as [[a|e] w']; [by apply Hf|by apply Hg].
Qed.
Lemma triple_each {A} (f : A -> IO unit) l P X :
  (forall a, a ∈ l -> triple P (f a) (fun _ => P) X) -> triple P (io_each f l) (fun _ => P) X.
Proof.
  induction l as [|a l IH]; intros Hf; [by intros w Hw|]. cbn [io_each]. eapply triple_bind; [apply Hf; left|].
  intros []. apply IH. intros b Hb. apply Hf. by right.
Qed.

Lemma triple_operation {A} (f : Files -> option (A * Files)) broken P (Q : A -> Files -> Prop) X :
  (forall F a F', P F -> f F = Some (a, F') -> Q a F') -> (forall F, P F -> X F) ->
  (forall t F, P F -> X (broken t F)) -> triple P (operation fault f broken) Q X.
Proof.
  intros Hf Hx Hb w Hw. unfold operation. destruct (fault (w_clock w)); cbn; [by apply Hb|].
  destruct (f (w_files w)) as [[a F]|] eqn:E; cbn; [by eapply Hf|by apply Hx].
Qed.
Lemma triple_read path P X : (forall F, P F -> X F) ->
  triple P (fs_read fault path) (fun c F => P F /\ F !! path = Some c) X.
Proof.
  intros Hx. apply triple_operation; [|done|done]. intros F c F' HF E.
  destruct (F !! path) as [c'|] eqn:E'; [|done]. injection E as <- <-. done.
Qed.
Lemma triple_read_bounded path limit P X : (forall F, P F -> X F) ->
  triple P (read_regular_bounded fault path limit) (fun c F => P F /\ F !! path = Some c) X.
Proof.
  intros Hx. eapply triple_bind; [by apply triple_read|]. intros c.
  eapply triple_bind; [apply triple_guard; by intros F [HF _]; apply Hx|]. intros [].
  apply triple_ret. by intros F [HF _].
Qed.
Lemma triple_rename from to P (Q : unit -> Files -> Prop) X : (forall F, P F -> X F) ->
  (forall F c, P F -> F !! from = Some c -> Q tt (<[to := c]> (delete from F))) ->
  triple P (fs_rename fault from to) Q X.
Proof.
  intros Hx Hq. apply triple_operation; [|done|done]. intros F [] F' HF E.
  destruct (F !! from) as [c|] eqn:E'; [|done]. injection E as <-. by apply Hq.
Qed.
Lemma triple_remove path P X : (forall F, P F -> P (delete path F)) ->
  triple P (ignore (fs_remove_file fault path)) (fun _ => P) X.
Proof.
  intros Hd. apply triple_ignore, triple_operation; [|done|done]. intros F [] F' HF E.
  destruct (F !! path) as [c|]; [|done]. injection E as <-. by apply Hd.
Qed.
Lemma triple_sync P X (paths : list Path) : (forall F, P F -> X F) ->
  triple P (sync_parent_directories fault paths) (fun _ => P) X.
Proof.
  intros Hx. apply triple_each. intros _ _. apply triple_operation; [|done|done].
  intros F [] F' HF E. by injection E as <-.
Qed.
Lemma triple_write path content P (Q : unit -> Files -> Prop) X : (forall F, P F -> X F) ->
  (forall F, P F -> F !! path = None -> Q tt (<[path := content]> F)) ->
  (forall F partial, P F -> F !! path = None -> X (<[path := partial]> F)) ->
  triple P (write_staged fault wreck path content) Q X.
Proof.
  intros Hx Hq Hw. apply triple_operation; [|done|].
  - intros F [] F' HF E. destruct (F !! path) eqn:E'; [done|]. injection E as <-. by apply Hq.
  - intros t F HF. destruct (F !! path) eqn:E; [by apply Hx|]. destruct (wreck t); [by apply Hw|by apply Hx].
Qed.
End logic.

(** ** The phases of a transaction *)

Lemma temporary_inj nonce extension p q : temporary nonce extension p = temporary nonce extension q -> p = q.
Proof.
  unfold temporary. destruct p as [d n], q as [d' n']. cbn. intros [= -> E]. f_equal.
  by apply app_inv_tail in E.
Qed.
Lemma temporary_last nonce extension p c : last (lit extension) = Some c ->
  last (temporary nonce extension p).2 = Some c.
Proof. intros E. unfold temporary. cbn [snd]. by rewrite !app_assoc, last_app, E. Qed.
Lemma stage_backup nonce p q : stage_of nonce p <> backup_of nonce q.
Proof.
  intros E%(f_equal (fun p => last p.2)). unfold stage_of, backup_of in E.
  by rewrite (temporary_last nonce ".stage" p 101 eq_refl), (temporary_last nonce ".backup" q 112 eq_refl) in E.
Qed.
Lemma temporary_contains nonce extension p : contains nonce (temporary nonce extension p).2 = true.
Proof.
  apply contains_true. exists (lit "." ++ p.2 ++ lit "."), (lit extension). unfold temporary. cbn [snd]. by rewrite <-!app_assoc.
Qed.

Section phases.
Context (fault : nat -> bool) (wreck : nat -> option (list N)).
Context (nonce : rstr) (F0 : Files) (rs : list Replacement).
(** The nonce is in no name; the targets are distinct. *)
Context (Hdistinct : NoDup (fr_path <$> rs)).
Context (Hfresh : forall r, r ∈ rs -> contains nonce (fr_path r).2 = false).

Definition durable (p : Path) : Prop := contains nonce p.2 = false.
Definition item_of (r : Replacement) : PreparedReplacement := {|
  fp_path := fr_path r; fp_stage := stage_of nonce (fr_path r); fp_backup := backup_of nonce (fr_path r);
  fp_original := fr_original r |}.
Definition staged (F : Files) (r : Replacement) : Prop :=
  F !! stage_of nonce (fr_path r) = Some (fr_replacement r).
Definition backed_up (F : Files) (r : Replacement) : Prop :=
  F !! backup_of nonce (fr_path r) = Some (fr_original r).
Definition holds (F : Files) (r : Replacement) : Prop := F !! fr_path r = Some (fr_replacement r).

(** Only the targets of [changed] differ. *)
Definition same_but (changed : list Replacement) (F : Files) : Prop :=
  forall p, durable p -> p ∉ fr_path <$> changed -> F !! p = F0 !! p.

Lemma stage_not_durable p : ~ durable (stage_of nonce p).
Proof. unfold durable, stage_of, backup_of. by rewrite temporary_contains. Qed.
Lemma backup_not_durable p : ~ durable (backup_of nonce p).
Proof. unfold durable, stage_of, backup_of. by rewrite temporary_contains. Qed.
Hint Resolve stage_not_durable backup_not_durable : core.

Lemma same_but_insert changed F p c : ~ durable p -> same_but changed F -> same_but changed (<[p := c]> F).
Proof. intros Hp Hs q Hq Hn. rewrite lookup_insert_ne by (intros ->; done). by apply Hs. Qed.
Lemma same_but_delete changed F p : ~ durable p -> same_but changed F -> same_but changed (delete p F).
Proof. intros Hp Hs q Hq Hn. rewrite lookup_delete_ne by (intros ->; done). by apply Hs. Qed.
Lemma lookup_insert_new (F : Files) p c q x : F !! p = None -> F !! q = Some x -> <[p := c]> F !! q = Some x.
Proof. intros Hp Hq. by rewrite lookup_insert_ne by congruence. Qed.

(** *** Preparing *)

Definition ready (l : list Replacement) (F : Files) : Prop :=
  same_but [] F /\ forall r, r ∈ l -> F0 !! fr_path r = Some (fr_original r) /\ staged F r /\ backed_up F r.
Lemma ready_insert l F p c : ~ durable p -> F !! p = None -> ready l F -> ready l (<[p := c]> F).
Proof.
  intros Hp Hn [Hs Hr]. split; [by apply same_but_insert|]. intros r Hin. destruct (Hr r Hin) as (? & ? & ?).
  split_and!; [done|by apply lookup_insert_new..].
Qed.

Lemma prepare_one_ready l r : r ∈ rs ->
  triple (ready l) (prepare_one fault wreck nonce r)
    (fun item F => item = item_of r /\ ready (l ++ [r]) F) (same_but []).
Proof.
  intros Hin. assert (forall F, ready l F -> same_but [] F) as Hx by (intros F HF; apply HF).
  eapply triple_bind; [apply triple_read_bounded, Hx|].
  intros c. eapply triple_bind; [apply triple_guard; by intros F [HF _]; apply Hx|].
  intros []. eapply triple_bind.
  { apply triple_write with
      (Q := fun _ F => ready l F /\ F0 !! fr_path r = Some (fr_original r) /\ staged F r).
    - by intros F [[HF _] _]; apply Hx.
    - intros F [[HF Hcur] Hc] Hnone. bool_simpl. subst c. split; [by apply ready_insert|].
      rewrite <-(proj1 HF) by (by apply Hfresh || by apply not_elem_of_nil). split; [done|].
      unfold staged. by rewrite lookup_insert_eq.
    - intros F partial [[HF _] _] _. apply same_but_insert; [done|by apply Hx]. }
  intros []. eapply triple_bind.
  { apply triple_catch with (Q := fun _ F => ready (l ++ [r]) F) (X' := same_but []); [|intros a; apply triple_ret with (Q := fun _ F => ready (l ++ [r]) F); by intros F HF|].
    - apply triple_write with (Q := fun _ F => ready (l ++ [r]) F).
      + by intros F [HF _]; apply Hx.
      + intros F (HF & Horig & Hst) Hnone. destruct (ready_insert l F _ (fr_original r) (backup_not_durable _) Hnone HF) as [Hs Hr].
        split; [exact Hs|]. intros q [Hq|Hq]%elem_of_app; [by apply Hr|]. apply list_elem_of_singleton in Hq as ->.
        split; [done|]. split; [by apply lookup_insert_new|]. unfold backed_up. by rewrite lookup_insert_eq.
      + intros F partial [HF _] _. apply same_but_insert; [done|by apply Hx].
    - intros e. eapply triple_bind; [apply triple_remove; intros F HF; by apply same_but_delete|].
      intros []. by apply triple_raise. }
  intros []. apply triple_ret. by intros F HF.
Qed.

(** Every item pushed so far has temporary names. *)
Definition scratch (item : PreparedReplacement) : Prop := ~ durable (fp_stage item) /\ ~ durable (fp_backup item).
Lemma item_scratch r : scratch (item_of r).
Proof. by split; cbn. Qed.
Lemma items_scratch l : Forall scratch (item_of <$> l).
Proof. apply Forall_fmap, Forall_true. apply item_scratch. Qed.

Lemma prepare_loop todo : forall l w, todo ⊆ rs -> ready l (w_files w) ->
  match push_each (prepare_one fault wreck nonce) todo (item_of <$> l) w with
  | ((prepared, Ok _), w') => prepared = item_of <$> (l ++ todo) /\ ready (l ++ todo) (w_files w')
  | ((prepared, Err _), w') => Forall scratch prepared /\ same_but [] (w_files w')
  end.
Proof.
  induction todo as [|r todo IH]; intros l w Hsub Hw; cbn [push_each]; [by rewrite app_nil_r|].
  pose proof (prepare_one_ready l r (Hsub r (list_elem_of_here _ _)) w Hw) as H1.
  destruct (prepare_one fault wreck nonce r w) as [[item|e] w']; [|split; [apply items_scratch|done]].
  destruct H1 as [-> Hr]. specialize (IH (l ++ [r]) w' (fun q Hq => Hsub q (list_elem_of_further _ _ _ Hq)) Hr).
  rewrite fmap_app, <-app_assoc in IH. exact IH.
Qed.
Lemma prepare_all_ready w : w_files w = F0 ->
  match prepare_all fault wreck nonce rs w with
  | ((prepared, Ok _), w') => prepared = item_of <$> rs /\ ready rs (w_files w')
  | ((prepared, Err _), w') => Forall scratch prepared /\ same_but [] (w_files w')
  end.
Proof.
  intros Hw. unfold prepare_all.
  pose proof (prepare_loop rs [] w (fun _ H => H)) as Hl. cbn [fmap list_fmap app] in Hl.
  destruct (push_each _ rs [] w) as [[prepared [u|e]] w1]; [|apply Hl].
  - destruct Hl as [-> Hr]; [|]. { split; [by intros p _ _; rewrite Hw|]. intros r Hr. by apply not_elem_of_nil in Hr. }
    pose proof (triple_sync fault (ready rs) (same_but [])
      (flat_map (fun item => [fp_stage item; fp_backup item]) (item_of <$> rs)) ltac:(by intros F HF; apply HF) w1 Hr) as Hs.
    destruct (sync_parent_directories _ _ w1) as [[u'|e] w2]; [done|]. split; [apply items_scratch|done].
  - split; [by intros p _ _; rewrite Hw|]. intros r Hr. by apply not_elem_of_nil in Hr.
Qed.

(** *** Committing *)

Definition backed (l : list Replacement) (F : Files) : Prop :=
  forall r, r ∈ l -> F0 !! fr_path r = Some (fr_original r) /\ backed_up F r.
(** [finished] hold their replacements, [todo] are staged. *)
Definition committing (finished todo : list Replacement) (F : Files) : Prop :=
  same_but finished F /\ (forall r, r ∈ finished -> holds F r) /\ (forall r, r ∈ todo -> staged F r) /\
  backed (finished ++ todo) F.

Lemma target_eq r q : r ∈ rs -> q ∈ rs -> fr_path r = fr_path q -> r = q.
Proof. by apply nodup_key. Qed.
Lemma target_temporary r q ext : r ∈ rs -> fr_path r <> temporary nonce ext q.
Proof. intros Hr E. specialize (Hfresh r Hr). by rewrite E, temporary_contains in Hfresh. Qed.

Lemma commit_step finished r todo F c : rs = finished ++ r :: todo -> committing finished (r :: todo) F ->
  F !! stage_of nonce (fr_path r) = Some c ->
  committing (finished ++ [r]) todo (<[fr_path r := c]> (delete (stage_of nonce (fr_path r)) F)).
Proof.
  intros Ers (Hs & Hd & Ht & Hb) Hc.
  assert (forall q, q ∈ finished ++ r :: todo -> q ∈ rs) as Hin by (by rewrite Ers).
  assert (r ∈ rs) as Hr by (apply Hin, elem_of_app; right; left).
  assert (c = fr_replacement r) as -> by (specialize (Ht r (list_elem_of_here _ _)); unfold staged in Ht; congruence).
  assert (forall ext q, <[fr_path r := fr_replacement r]> (delete (stage_of nonce (fr_path r)) F) !! temporary nonce ext q =
    delete (stage_of nonce (fr_path r)) F !! temporary nonce ext q) as Htemp
    by (intros ext q; by apply lookup_insert_ne, target_temporary).
  split_and!.
  - intros p Hp Hn. rewrite fmap_app, not_elem_of_app in Hn. destruct Hn as [Hn Hne].
    rewrite lookup_insert_ne by (intros E; apply Hne; rewrite <-E; left).
    rewrite lookup_delete_ne by (intros <-; by apply (stage_not_durable _ Hp)). by apply Hs.
  - intros q [Hq|Hq%list_elem_of_singleton]%elem_of_app; unfold holds; [|subst q; by rewrite lookup_insert_eq].
    assert (q ∈ rs) as Hqr by (apply Hin, elem_of_app; by left).
    destruct (decide (fr_path r = fr_path q)) as [E|Hne].
    { rewrite <-(target_eq r q Hr Hqr E). by rewrite lookup_insert_eq. }
    rewrite lookup_insert_ne by done.
    rewrite lookup_delete_ne by (intros E; by apply (target_temporary q (fr_path r) ".stage")). by apply Hd.
  - intros q Hq. unfold staged, stage_of. rewrite Htemp. rewrite lookup_delete_ne; [by apply Ht; right|].
    intros E. apply temporary_inj in E. assert (NoDup (fr_path <$> rs)) as Hnd by done.
    rewrite Ers, fmap_app in Hnd. apply NoDup_app in Hnd as (_ & _ & Hnd). cbn in Hnd.
    apply NoDup_cons in Hnd as [Hnd _]. apply Hnd, list_elem_of_fmap. by exists q.
  - intros q Hq. rewrite <-app_assoc in Hq. destruct (Hb q Hq) as [? Hbq]. split; [done|].
    unfold backed_up, backup_of. rewrite Htemp. rewrite lookup_delete_ne; [exact Hbq|]. apply stage_backup.
Qed.

Lemma commit_loop after todo : forall finished w, rs = finished ++ todo -> committing finished todo (w_files w) ->
  match commit_each fault after (item_of <$> todo) (length finished) w with
  | ((committed, Ok _), w') => committed = length rs /\ committing rs [] (w_files w')
  | ((committed, Err _), w') => exists finished todo, rs = finished ++ todo /\ committed = length finished /\
      committing finished todo (w_files w')
  end.
Proof.
  induction todo as [|r todo IH]; intros finished w Ers Hw; cbn [fmap list_fmap commit_each].
  { rewrite app_nil_r in Ers. by subst finished. }
  pose proof (triple_rename fault (stage_of nonce (fr_path r)) (fr_path r) (committing finished (r :: todo))
    (fun _ => committing (finished ++ [r]) todo) (committing finished (r :: todo)) (fun _ HF => HF)
    (fun F c HF Hc => commit_step finished r todo F c Ers HF Hc) w Hw) as Hr.
  cbn [item_of fp_stage fp_path]. destruct (fs_rename _ _ _ w) as [[u|e] w']; [|by exists finished, (r :: todo)].
  assert (S (length finished) = length (finished ++ [r])) as -> by (rewrite length_app; cbn; lia).
  assert (rs = (finished ++ [r]) ++ todo) as Ers' by (by rewrite <-app_assoc).
  destruct (after _); [by apply IH|by exists (finished ++ [r]), todo].
Qed.
Lemma ready_committing F : ready rs F -> committing [] rs F.
Proof.
  intros [Hs Hr]. split_and!; [done|by intros r ?%not_elem_of_nil|..]; intros r Hin; destruct (Hr r Hin) as (? & ? & ?);
    done || by split.
Qed.
Lemma commit_all_committing after w : ready rs (w_files w) ->
  match commit_all fault after (item_of <$> rs) w with
  | ((_, Ok _), w') => committing rs [] (w_files w')
  | ((committed, Err _), w') => exists finished todo, rs = finished ++ todo /\ committed = length finished /\
      committing finished todo (w_files w')
  end.
Proof.
  intros Hr%ready_committing. unfold commit_all.
  pose proof (commit_loop after rs [] w eq_refl Hr) as Hl. cbn [length] in Hl.
  destruct (commit_each _ _ _ 0 w) as [[k [u|e]] w1]; [|done]. destruct Hl as [-> Hc].
  pose proof (triple_sync fault (committing rs []) (committing rs []) (fp_path <$> (item_of <$> rs)) (fun _ H => H) w1 Hc) as Hy.
  destruct (sync_parent_directories _ _ w1) as [[u'|e] w2]; [done|]. exists rs, []. by rewrite app_nil_r.
Qed.

(** *** Cleaning up and rolling back *)

Lemma triple_cleanup (P X : Files -> Prop) prepared : Forall scratch prepared ->
  (forall F p, ~ durable p -> P F -> P (delete p F)) ->
  triple P (cleanup_transaction_files fault prepared) (fun _ => P) X.
Proof.
  intros Hs Hd. rewrite Forall_forall in Hs. apply triple_each. intros item Hin.
  destruct (Hs item Hin) as [? ?]. eapply triple_bind; [apply triple_remove; intros F; by apply Hd|].
  intros []. apply triple_remove. intros F. by apply Hd.
Qed.

(** [pending] still hold their replacements, and their backups the originals. *)
Definition restoring (pending : list Replacement) (F : Files) : Prop :=
  same_but pending F /\ forall r, r ∈ pending -> holds F r /\ backed_up F r.
Definition recoverable (F : Files) : Prop := exists pending, pending ⊆ rs /\ restoring pending F.

Lemma restore_step r pending F c : NoDup (fr_path <$> r :: pending) -> r :: pending ⊆ rs ->
  F0 !! fr_path r = Some (fr_original r) -> restoring (r :: pending) F ->
  F !! backup_of nonce (fr_path r) = Some c ->
  restoring pending (<[fr_path r := c]> (delete (backup_of nonce (fr_path r)) F)).
Proof.
  intros [Hn _]%NoDup_cons Hsub Horig [Hs Hp] Hc.
  assert (r ∈ rs) as Hr by (apply Hsub; left).
  assert (c = fr_original r) as -> by (destruct (Hp r (list_elem_of_here _ _)) as [_ Hb]; unfold backed_up in Hb; congruence).
  split.
  - intros p Hd Hnp. destruct (decide (fr_path r = p)) as [<-|Hne]; [by rewrite lookup_insert_eq|].
    rewrite lookup_insert_ne by done. rewrite lookup_delete_ne by (intros <-; by apply (backup_not_durable _ Hd)).
    apply Hs; [done|]. cbn. by rewrite not_elem_of_cons.
  - intros q Hq. destruct (Hp q (list_elem_of_further _ _ _ Hq)) as [Hh Hb].
    assert (fr_path r <> fr_path q) as Hne by (intros E; apply Hn; rewrite E; by apply list_elem_of_fmap_2).
    assert (q ∈ rs) as Hqr by (apply Hsub; by right). unfold holds, backed_up. split.
    + rewrite lookup_insert_ne by done.
      by rewrite lookup_delete_ne by (intros E; by apply (target_temporary q (fr_path r) ".backup")).
    + rewrite lookup_insert_ne by (by apply target_temporary).
      by rewrite lookup_delete_ne by (intros E%temporary_inj; done).
Qed.
Lemma restore_loop pending : NoDup (fr_path <$> pending) -> pending ⊆ rs ->
  (forall r, r ∈ pending -> F0 !! fr_path r = Some (fr_original r)) ->
  triple (restoring pending)
    (io_each (fun item => fs_rename fault (fp_backup item) (fp_path item)) (item_of <$> pending))
    (fun _ => restoring []) recoverable.
Proof.
  induction pending as [|r pending IH]; intros Hnd Hsub Ho; cbn [fmap list_fmap io_each].
  { apply triple_ret. done. }
  eapply triple_bind.
  - apply triple_rename with (Q := fun _ => restoring pending); [intros F HF; by exists (r :: pending)|].
    intros F c HF Hc. apply restore_step; [done|done|apply Ho; left|done|done].
  - intros []. apply IH; [by apply NoDup_cons in Hnd as [_ ?]|intros q Hq; apply Hsub; by right|].
    intros q Hq. apply Ho. by right.
Qed.
Lemma rollback_restores finished : finished ⊆ rs -> NoDup (fr_path <$> finished) -> finished `prefix_of` rs ->
  (forall r, r ∈ finished -> F0 !! fr_path r = Some (fr_original r)) ->
  triple (restoring finished) (rollback_transaction fault (item_of <$> rs) (length finished))
    (fun _ => restoring []) recoverable.
Proof.
  intros Hsub Hnd [todo Ers] Ho.
  assert (take (length finished) (item_of <$> rs) = item_of <$> finished) as E
    by (rewrite Ers, fmap_app; apply take_app_length'; by rewrite length_fmap).
  assert (forall F, restoring [] F -> recoverable F) as Hx
    by (intros F HF; exists []; split; [intros r Hr; by apply not_elem_of_nil in Hr|done]).
  unfold rollback_transaction. rewrite E.
  eapply triple_bind; [by apply restore_loop|]. intros [].
  eapply triple_bind; [by apply triple_sync|]. intros [].
  eapply triple_bind with (Q := fun _ => restoring []).
  { apply triple_each. intros item _. eapply triple_bind; [by apply triple_read|]. intros c.
    apply triple_check; intros F [HF _]; [by apply Hx|done]. }
  intros []. apply triple_cleanup; [apply items_scratch|].
  intros F p Hp [Hs _]. split; [by apply same_but_delete|]. by intros r ?%not_elem_of_nil.
Qed.
End phases.

(** ** The transaction *)

Definition outcome (nonce : rstr) (F0 : Files) (rs : list Replacement) (r : result ReplaceError unit) (F : Files) : Prop :=
  match r with
  | Ok _ => same_but nonce F0 rs F /\ forall x, x ∈ rs -> holds F x
  | Err (RollbackFailed _ _) => same_but nonce F0 [] F \/
      exists l, l ⊆ rs /\ restoring nonce F0 l F /\ forall x, x ∈ l -> F0 !! fr_path x = Some (fr_original x)
  | Err _ => same_but nonce F0 [] F
  end.

(** Cleaning up, then syncing, after a completed commit. *)
Lemma cleanup_keeps fault nonce F0 rs w :
  (forall x, x ∈ rs -> contains nonce (fr_path x).2 = false) ->
  same_but nonce F0 rs (w_files w) -> (forall x, x ∈ rs -> holds (w_files w) x) ->
  let (r, w') := (cleanup_transaction_files fault (item_of nonce <$> rs);;
                  ignore (sync_parent_directories fault (fp_path <$> (item_of nonce <$> rs)))) w in
  outcome nonce F0 rs r (w_files w').
Proof.
  intros Hf Hs Hh. set (P F := same_but nonce F0 rs F /\ forall x, x ∈ rs -> holds F x).
  assert (forall F p, ~ durable nonce p -> P F -> P (delete p F)) as Hdel.
  { intros F p Hp [H1 H2]. split; [by apply same_but_delete|]. intros x Hx. unfold holds.
    rewrite lookup_delete_ne; [by apply H2|]. intros ->. by apply Hp, Hf. }
  assert (triple P (cleanup_transaction_files fault (item_of nonce <$> rs);;
    ignore (sync_parent_directories fault (fp_path <$> (item_of nonce <$> rs)))) (fun _ => P) (fun _ => False)) as Ht.
  { eapply triple_bind; [apply triple_cleanup with (nonce := nonce); [apply items_scratch|exact Hdel]|].
    intros []. apply triple_ignore. by apply triple_sync. }
  specialize (Ht w (conj Hs Hh)). revert Ht.
  match goal with |- match ?m with _ => _ end -> _ => destruct m as [[u|e] w'] end; done.
Qed.

Lemma transaction_outcome fault wreck nonce after rs w : NoDup (fr_path <$> rs) ->
  (forall x, x ∈ rs -> contains nonce (fr_path x).2 = false) ->
  let (r, w') := transactional_replace fault wreck nonce after rs w in
  outcome nonce (w_files w) rs r (w_files w').
Proof.
  intros Hd Hf. set (F0 := w_files w).
  assert (forall e F, same_but nonce F0 [] F -> outcome nonce F0 rs (Err e) F) as Hsame
    by (intros e F Hs; destruct e; try done; by left).
  unfold transactional_replace, guard_io, mbind, io_bind. destruct (negb _); [|by apply Hsame]. unfold mret, io_ret.
  pose proof (prepare_all_ready fault wreck nonce F0 rs Hf w eq_refl) as Hp.
  destruct (prepare_all fault wreck nonce rs w) as [[prepared [u|e]] w1].
  2:{ destruct Hp as [Hs Hw]. pose proof (triple_cleanup fault nonce (same_but nonce F0 []) (same_but nonce F0 [])
        prepared Hs (fun F p => same_but_delete nonce F0 [] F p) w1 Hw) as Hc.
      destruct (cleanup_transaction_files fault prepared w1) as [[u|e'] w2]; by apply Hsame. }
  destruct Hp as [-> Hr]. pose proof (commit_all_committing fault nonce F0 rs Hd Hf after w1 Hr) as Hc.
  destruct (commit_all fault after (item_of nonce <$> rs) w1) as [[k [u'|e]] w2].
  - destruct Hc as (Hs & Hh & _ & _). by apply cleanup_keeps.
  - destruct Hc as (finished & todo & Ers & -> & Hs & Hh & _ & Hb).
    assert (finished ⊆ rs) as Hsub by (intros x Hx; rewrite Ers; apply elem_of_app; by left).
    assert (forall x, x ∈ finished -> F0 !! fr_path x = Some (fr_original x) /\ backed_up nonce (w_files w2) x) as Hb'
      by (intros x Hx; apply Hb, elem_of_app; by left).
    assert (NoDup (fr_path <$> finished)) as Hnd
      by (clear -Hd Ers; subst rs; rewrite fmap_app in Hd; by apply NoDup_app in Hd as [? _]).
    pose proof (rollback_restores fault nonce F0 rs Hf finished Hsub Hnd ltac:(by exists todo)
      (fun x Hx => proj1 (Hb' x Hx)) w2) as Hrb. unfold catch.
    destruct (rollback_transaction _ _ _ w2) as [[u'|e'] w3].
    + apply Hsame, Hrb. split; [done|]. intros x Hx. split; [by apply Hh|by apply Hb'].
    + destruct Hrb as (l & Hl & Hr').
      { split; [done|]. intros x Hx. split; [by apply Hh|by apply Hb']. }
      right. exists l. split; [exact Hl|]. split; [exact Hr'|]. intros x Hx. by apply Hr, Hl.
Qed.

(** C12. Replacing the control files is all or nothing.  Whatever fails, and
    whenever: on success every target holds its replacement; after an error
    that was rolled back, or raised before the first rename, every target holds
    what it held; and when the rollback fails too, each target holds either
    that or its replacement with the original in the backup next to it.  No
    other file changes, temporaries aside. *)
Theorem replacement_is_all_or_nothing fault wreck nonce after rs w r w'
    (Hd : NoDup (fr_path <$> rs)) (Hf : forall x, x ∈ rs -> contains nonce (fr_path x).2 = false)
    (E : transactional_replace fault wreck nonce after rs w = (r, w')) :
  match r with
  | Ok _ => forall x, x ∈ rs -> w_files w' !! fr_path x = Some (fr_replacement x)
  | Err (RollbackFailed _ _) => forall x, x ∈ rs ->
      w_files w' !! fr_path x = w_files w !! fr_path x \/
      (w_files w' !! fr_path x = Some (fr_replacement x) /\
       w_files w' !! backup_of nonce (fr_path x) = w_files w !! fr_path x)
  | Err _ => forall x, x ∈ rs -> w_files w' !! fr_path x = w_files w !! fr_path x
  end /\
  forall p, contains nonce p.2 = false -> p ∉ fr_path <$> rs -> w_files w' !! p = w_files w !! p.
Proof.
  pose proof (transaction_outcome fault wreck nonce after rs w Hd Hf) as H. rewrite E in H.
  assert (same_but nonce (w_files w) [] (w_files w') ->
    (forall x, x ∈ rs -> w_files w' !! fr_path x = w_files w !! fr_path x) /\
    forall p, contains nonce p.2 = false -> p ∉ fr_path <$> rs -> w_files w' !! p = w_files w !! p) as Hsame.
  { intros Hs. split; [intros x Hx|intros p Hp _]; (apply Hs; [|apply not_elem_of_nil]); [by apply Hf|done]. }
  destruct r as [u|e]; [destruct H as [Hs Hh]; split; [done|]; intros p Hp Hn; by apply Hs|].
  destruct e; try (by apply Hsame). destruct H as [H|(l & Hl & [Hs Hr] & Hb)].
  { destruct (Hsame H) as [H1 H2]. split; [|done]. intros x Hx. left. by apply H1. }
  split; [intros x Hx|intros p Hp Hn; apply Hs; [done|]; intros (y & -> & Hy)%list_elem_of_fmap;
    by apply Hn, list_elem_of_fmap_2, Hl].
  destruct (decide (fr_path x ∈ fr_path <$> l)) as [(y & Exy & Hy)%list_elem_of_fmap|Hn].
  - right. assert (x = y) as -> by (by apply (nodup_key fr_path rs); [..|apply Hl|]).
    destruct (Hr y Hy) as [? ?]. by rewrite (Hb y Hy).
  - left. apply Hs; [by apply Hf|done].
Qed.

(** ** At a concrete transaction

    The second rename fails; the first target is restored. *)

Definition sample_replacement (name : string) (n : N) : Replacement :=
  {| fr_path := (lit "site", lit name); fr_original := [n]; fr_replacement := [n; n] |}.
Definition sample_replacements : list Replacement :=
  [sample_replacement "osb.install.toml" 1; sample_replacement "osb.lock.json" 2; sample_replacement ".env" 3].
Definition sample_world : World := {|
  w_files := list_to_map ((lit "site", lit "post.md", [9%N])
                          :: ((fun r => (fr_path r, fr_original r)) <$> sample_replacements));
  w_clock := 0 |}.
Definition sample_run (failing : nat) : result ReplaceError unit * World :=
  transactional_replace (Nat.eqb failing) (fun _ => None) (lit "01JN") (fun _ => true) sample_replacements sample_world.

Lemma sample_distinct : NoDup (fr_path <$> sample_replacements).
Proof. apply (bool_decide_unpack _). vm_compute. exact I. Qed.
Lemma sample_nonce_fresh x : x ∈ sample_replacements -> contains (lit "01JN") (fr_path x).2 = false.
Proof.
  revert x. apply Forall_forall. unfold sample_replacements. repeat (apply Forall_cons; split; [vm_compute; reflexivity|]).
  by apply Forall_nil.
Qed.
Lemma undisturbed_run_commits : (sample_run 100).1 = Ok tt /\
  map_to_list (w_files (sample_run 100).2) ≡ₚ
    (lit "site", lit "post.md", [9%N]) :: ((fun r => (fr_path r, fr_replacement r)) <$> sample_replacements).
Proof. split; [vm_compute; reflexivity|]. apply (bool_decide_unpack _). vm_compute. exact I. Qed.

Lemma replacement_is_all_or_nothing_witness :
  (sample_run 11).1 = Err (RolledBack Io) /\
  forall x, x ∈ sample_replacements -> w_files (sample_run 11).2 !! fr_path x = w_files sample_world !! fr_path x.
Proof.
  assert ((sample_run 11).1 = Err (RolledBack Io)) as E by (vm_compute; reflexivity).
  split; [exact E|].
  pose proof (replacement_is_all_or_nothing (Nat.eqb 11) (fun _ => None) (lit "01JN") (fun _ => true)
    sample_replacements sample_world (Err (RolledBack Io)) (sample_run 11).2 sample_distinct sample_nonce_fresh) as H.
  apply H. rewrite <-E. apply surjective_pairing.
Defined.
