(* ===== verification/Admission.v ===== *)
(** * Admission control: [apps/server/src/admission.rs]

    The per-identity sliding-window limiter in front of sign-in, invitations
    and public mutations.  An [Instant] and a [Duration] are numbers of
    nanoseconds; the key is the caller's 32-byte hash.  The iteration order of
    a [HashMap] is unspecified and may change between calls, so each call
    carries the order it meets. *)

From Stdlib Require Import Bool NArith ZArith Lia.
From S2P Require Import Prelude.

Definition Key := list N.

Record AttemptBucket := {
  ab_attempts : list N;
  ab_last_seen : N;
}.
Record KeyedRateLimiter := {
  kl_buckets : gmap Key AttemptBucket;
  kl_maximum_buckets : N;
  kl_attempts_per_window : N;
  kl_window : N;
}.
Definition with_buckets (buckets : gmap Key AttemptBucket) (self : KeyedRateLimiter) : KeyedRateLimiter := {|
  kl_buckets := buckets; kl_maximum_buckets := kl_maximum_buckets self;
  kl_attempts_per_window := kl_attempts_per_window self; kl_window := kl_window self |}.

(** [None] is a failed assertion. *)
Definition new (maximum_buckets attempts_per_window window : N) : option KeyedRateLimiter :=
  if (0 <? maximum_buckets)%N && (0 <? attempts_per_window)%N && (0 <? window)%N
  then Some {| kl_buckets := ∅; kl_maximum_buckets := maximum_buckets;
               kl_attempts_per_window := attempts_per_window; kl_window := window |}
  else None.

(** [now.saturating_duration_since(earlier)] *)
Definition saturating_duration_since (now earlier : N) : N := now - earlier.

(** [Iterator::min_by_key]: the first of the least elements. *)
Fixpoint min_by_key {A} (key : A -> N) (l : list A) : option A :=
  match l with
  | [] => None
  | a :: l => match min_by_key key l with
              | Some b => if (key b <? key a)%N then Some b else Some a
              | None => Some a
              end
  end.

Definition Order := gmap Key AttemptBucket -> list (Key * AttemptBucket).

(** A new identity: stale buckets go, and the oldest one if there is no room. *)
Definition make_room (iter : Order) (now : N) (self : KeyedRateLimiter) : gmap Key AttemptBucket :=
  let retained := filter (fun kb => (saturating_duration_since now (ab_last_seen kb.2) < kl_window self)%N)
                    (kl_buckets self) in
  if (kl_maximum_buckets self <=? N.of_nat (size retained))%N
  then match min_by_key (fun kb => ab_last_seen kb.2) (iter retained) with
       | Some (oldest, _) => delete oldest retained
       | None => retained
       end
  else retained.

(** [while front is expired { pop_front }] *)
Fixpoint expire (window now : N) (attempts : list N) : list N :=
  match attempts with
  | [] => []
  | attempt :: rest =>
      if (window <=? saturating_duration_since now attempt)%N then expire window now rest else attempts
  end.

Definition admit_at (iter : Order) (key : Key) (now : N) (self : KeyedRateLimiter) : bool * KeyedRateLimiter :=
  let buckets := match kl_buckets self !! key with
                 | Some _ => kl_buckets self
                 | None => make_room iter now self
                 end in
  let bucket := default {| ab_attempts := []; ab_last_seen := now |} (buckets !! key) in
  let attempts := expire (kl_window self) now (ab_attempts bucket) in
  let full := (kl_attempts_per_window self <=? size_of attempts)%N in
  (negb full,
   with_buckets (<[key := {| ab_attempts := if full then attempts else attempts ++ [now]; ab_last_seen := now |}]>
                   buckets) self).
Definition forget (key : Key) (self : KeyedRateLimiter) : KeyedRateLimiter :=
  with_buckets (delete key (kl_buckets self)) self.

(** ** Runs *)

Inductive Call :=
| Admit (key : Key) (now : N) (iter : Order)
| Forget (key : Key).

(** The calls, in the order in which they hold the lock, with their answers. *)
Fixpoint serve (self : KeyedRateLimiter) (calls : list Call) : list (Call * bool) * KeyedRateLimiter :=
  match calls with
  | [] => ([], self)
  | Admit key now iter as c :: calls =>
      let '(admitted, self) := admit_at iter key now self in
      let '(answers, self) := serve self calls in ((c, admitted) :: answers, self)
  | Forget key as c :: calls =>
      let '(answers, self) := serve (forget key self) calls in ((c, true) :: answers, self)
  end.

(** The instants at which an identity was admitted. *)
Definition admitted (key : Key) (answers : list (Call * bool)) : list N :=
  omap (fun '(c, b) => match c with
                       | Admit k now _ => if decide (k = key) then if b : bool then Some now else None else None
                       | Forget _ => None
                       end) answers.

(** Every order met is an order of that map. *)
Definition fair (c : Call) : Prop :=
  match c with Admit _ _ iter => forall m, iter m ≡ₚ map_to_list m | Forget _ => True end.
(** The clock is monotonic. *)
Fixpoint ordered (time : N) (calls : list Call) : Prop :=
  match calls with
  | [] => True
  | Admit _ now _ :: calls => (time <= now)%N /\ ordered now calls
  | Forget _ :: calls => ordered time calls
  end.

(** ** The ideal limiter

    It remembers every admitted attempt and counts those of the last window. *)

Definition Log := list (Key * N).
Definition attempts_of (key : Key) (log : Log) : list N :=
  omap (fun '(k, t) => if decide (k = key) then Some t else None) log.
Definition recent (window now : N) (attempts : list N) : list N :=
  List.filter (fun t => (now - t <? window)%N) attempts.
Fixpoint ideal (limit window : N) (log : Log) (calls : list Call) : list (Call * bool) :=
  match calls with
  | [] => []
  | Admit key now _ as c :: calls =>
      if (size_of (recent window now (attempts_of key log)) <? limit)%N
      then (c, true) :: ideal limit window (log ++ [(key, now)]) calls
      else (c, false) :: ideal limit window log calls
  | Forget key as c :: calls =>
      (c, true) :: ideal limit window (List.filter (fun kt => negb (bool_decide (kt.1 = key))) log) calls
  end.

(** The identities that called within the last window. *)
Definition busy (window now : N) (calls : list Call) : gset Key :=
  list_to_set (omap (fun c => match c with
                              | Admit k t _ => if (now - t <? window)%N then Some k else None
                              | Forget _ => None
                              end) calls).
(** There is room for every identity that calls within one window. *)
Fixpoint uncrowded (maximum window : N) (earlier calls : list Call) : Prop :=
  match calls with
  | [] => True
  | c :: calls =>
      match c with
      | Admit key now _ => (N.of_nat (size ({[ key ]} ∪ busy window now earlier)) <= maximum)%N
      | Forget _ => True
      end /\ uncrowded maximum window (earlier ++ [c]) calls
  end.

(** ** One step *)

Lemma min_by_key_in {A} (key : A -> N) l a : min_by_key key l = Some a -> a ∈ l.
Proof.
  revert a. induction l as [|b l IH]; intros a; cbn; [done|].
  destruct (min_by_key key l) as [c|]; [destruct (key c <? key b)%N|]; intros [= <-];
    rewrite elem_of_cons; auto.
Qed.
Lemma min_by_key_None {A} (key : A -> N) l : min_by_key key l = None -> l = [].
Proof. destruct l as [|b l]; cbn; [done|]. by destruct (min_by_key key l) as [c|]; [destruct (key c <? key b)%N|]. Qed.

Lemma make_room_subseteq iter now self : make_room iter now self ⊆ kl_buckets self.
Proof.
  unfold make_room. set (retained := filter _ (kl_buckets self)).
  assert (retained ⊆ kl_buckets self) as Hr by apply map_filter_subseteq.
  destruct (_ <=? _)%N; [|done]. destruct (min_by_key _ _) as [[oldest b]|]; [|done].
  etrans; [apply delete_subseteq|exact Hr].
Qed.
Lemma make_room_size iter now self : (forall m, iter m ≡ₚ map_to_list m) -> (0 < kl_maximum_buckets self)%N ->
  (N.of_nat (size (kl_buckets self)) <= kl_maximum_buckets self)%N ->
  (N.of_nat (size (make_room iter now self)) < kl_maximum_buckets self)%N.
Proof.
  intros Hi Hm Hs. unfold make_room. set (retained := filter _ (kl_buckets self)).
  assert (size retained <= size (kl_buckets self)) as Hr by apply map_subseteq_size, map_filter_subseteq.
  destruct (N.leb_spec (kl_maximum_buckets self) (N.of_nat (size retained))) as [Hfull|]; [|done].
  destruct (min_by_key _ _) as [[oldest b]|] eqn:E.
  - apply min_by_key_in in E. rewrite Hi in E. apply elem_of_map_to_list in E.
    rewrite map_size_delete_Some by done. lia.
  - apply min_by_key_None in E.
    assert (map_to_list retained = []) as Hn by (apply Permutation_nil_r; by rewrite <-Hi, E).
    apply map_to_list_empty_iff in Hn. rewrite Hn, map_size_empty in Hfull. lia.
Qed.

Lemma expire_suffix window now l : exists gone, l = gone ++ expire window now l /\
  Forall (fun t => (window <= now - t)%N) gone.
Proof.
  induction l as [|t l (gone & IH & Hg)]; [by exists []|]. cbn. unfold saturating_duration_since.
  destruct (N.leb_spec window (now - t)); [|by exists []].
  exists (t :: gone). split; [cbn; by rewrite <-IH|by constructor].
Qed.
Lemma expire_expired window now l : Forall (fun t => (window <= now - t)%N) l -> expire window now l = [].
Proof.
  induction 1 as [|t l Ht _ IH]; [done|]. cbn. unfold saturating_duration_since.
  by rewrite (proj2 (N.leb_le _ _) Ht).
Qed.

(** Nothing but the configuration survives every call. *)
Definition configured (self self' : KeyedRateLimiter) : Prop :=
  kl_maximum_buckets self' = kl_maximum_buckets self /\
  kl_attempts_per_window self' = kl_attempts_per_window self /\ kl_window self' = kl_window self.

(** ** Memory *)

Definition bounded (self : KeyedRateLimiter) : Prop :=
  (0 < kl_maximum_buckets self)%N /\
  (N.of_nat (size (kl_buckets self)) <= kl_maximum_buckets self)%N /\
  forall key bucket, kl_buckets self !! key = Some bucket ->
    (size_of (ab_attempts bucket) <= kl_attempts_per_window self)%N.

Lemma expire_size window now l : (size_of (expire window now l) <= size_of l)%N.
Proof.
  destruct (expire_suffix window now l) as (gone & E & _).
  assert (length l = length gone + length (expire window now l)) by (rewrite <-length_app; by f_equal).
  unfold size_of. lia.
Qed.

Lemma admit_bounded iter key now self : (forall m, iter m ≡ₚ map_to_list m) -> bounded self ->
  bounded (admit_at iter key now self).2.
Proof.
  intros Hi (Hm & Hs & Ha). unfold admit_at, bounded. cbn [snd with_buckets kl_buckets kl_maximum_buckets kl_attempts_per_window].
  set (buckets := match kl_buckets self !! key with Some _ => _ | None => _ end).
  assert (buckets ⊆ kl_buckets self) as Hsub by (unfold buckets; case_match; [done|apply make_room_subseteq]).
  split; [done|]. split.
  - destruct (kl_buckets self !! key) as [b|] eqn:E.
    + unfold buckets. by rewrite map_size_insert_Some by (by eexists).
    + rewrite map_size_insert_None.
      * pose proof (make_room_size iter now self Hi Hm Hs). unfold buckets. lia.
      * by eapply lookup_weaken_None.
  - intros k b [[<- <-]|[Hne Hk]]%lookup_insert_Some; cbn [ab_attempts]; [|by apply (Ha k), (lookup_weaken buckets)].
    set (attempts := expire _ _ _).
    destruct (N.leb_spec (kl_attempts_per_window self) (size_of attempts)) as [|Hlt].
    + etrans; [apply expire_size|]. destruct (buckets !! key) as [b|] eqn:E; cbn; [|unfold size_of; cbn; lia].
      by apply (Ha key), (lookup_weaken buckets).
    + unfold size_of in *. rewrite length_app. cbn [length]. lia.
Qed.

(** [serve] one call at a time. *)
Definition step (self : KeyedRateLimiter) (c : Call) : bool * KeyedRateLimiter :=
  match c with
  | Admit key now iter => admit_at iter key now self
  | Forget key => (true, forget key self)
  end.
Lemma serve_cons self c calls : serve self (c :: calls) =
  ((c, (step self c).1) :: (serve (step self c).2 calls).1, (serve (step self c).2 calls).2).
Proof.
  destruct c as [key now iter|key]; cbn [serve step].
  - destruct (admit_at iter key now self) as [b s]. cbn. by destruct (serve s calls).
  - cbn. by destruct (serve (forget key self) calls).
Qed.
Lemma step_configured self c : configured self (step self c).2.
Proof. by destruct c. Qed.

(** An invariant of every call, given what was answered before. *)
Lemma serve_invariant (I : KeyedRateLimiter -> list (Call * bool) -> Prop) (P : Call -> Prop) calls :
  (forall self acc c, P c -> I self acc -> I (step self c).2 (acc ++ [(c, (step self c).1)])) ->
  forall self acc, Forall P calls -> I self acc -> I (serve self calls).2 (acc ++ (serve self calls).1).
Proof.
  intros Hstep. induction calls as [|c calls IH]; intros self acc Hp Hi; [by rewrite app_nil_r|].
  apply Forall_cons in Hp as [Hc Hp]. rewrite serve_cons. cbn [fst snd].
  specialize (IH _ (acc ++ [(c, (step self c).1)]) Hp (Hstep _ _ _ Hc Hi)). by rewrite <-app_assoc in IH.
Qed.

Lemma new_Some maximum attempts window self : new maximum attempts window = Some self ->
  (0 < maximum)%N /\ (0 < attempts)%N /\ (0 < window)%N /\
  self = {| kl_buckets := ∅; kl_maximum_buckets := maximum; kl_attempts_per_window := attempts; kl_window := window |}.
Proof. unfold new. destruct (_ && _)%bool eqn:E; [|done]. intros [= <-]. by bool_simpl. Qed.

Lemma serve_configured self calls : configured self (serve self calls).2.
Proof.
  revert self. induction calls as [|c calls IH]; intros self; [done|]. rewrite serve_cons. cbn [snd].
  destruct (step_configured self c) as (E1 & E2 & E3). destruct (IH (step self c).2) as (F1 & F2 & F3).
  by split_and!; congruence.
Qed.

(** The memory of the limiter is bounded whoever calls it: however many
    identities try, at most [maximum_buckets] are remembered, each with at most
    [attempts_per_window] instants. *)
Theorem admission_memory_is_bounded maximum attempts window self calls
    (Hn : new maximum attempts window = Some self) (Hf : Forall fair calls) :
  let buckets := kl_buckets (serve self calls).2 in
  (N.of_nat (size buckets) <= maximum)%N /\
  forall key bucket, buckets !! key = Some bucket -> (size_of (ab_attempts bucket) <= attempts)%N.
Proof.
  apply new_Some in Hn as (Hm & Ha & Hw & ->).
  match goal with |- context [serve ?s calls] => set (self := s) end.
  assert (bounded (serve self calls).2) as (_ & Hs & Hb).
  { apply (serve_invariant (fun self _ => bounded self) fair calls) with (acc := []); [|done|].
    - intros s _ [key now iter|key] Hc Hi; cbn [step snd]; [by apply admit_bounded|].
      destruct Hi as (? & Hs & Hb). split; [done|]. cbn [forget with_buckets kl_buckets kl_maximum_buckets].
      split; [|by intros k b [_ ?]%lookup_delete_Some; apply (Hb k)].
      etrans; [|exact Hs]. assert (size (delete key (kl_buckets s)) <= size (kl_buckets s));
        [apply map_subseteq_size, delete_subseteq|lia].
    - split; [done|]. split; [unfold self; cbn [kl_buckets]; rewrite map_size_empty; lia|].
      intros k b Hk. cbn in Hk. by rewrite lookup_empty in Hk. }
  destruct (serve_configured self calls) as (E1 & E2 & _). rewrite E1 in Hs. cbn zeta. split; [exact Hs|].
  intros key bucket Hk. specialize (Hb key bucket Hk). by rewrite E2 in Hb.
Qed.

(** ** Liveness *)

(** Every remembered instant is one at which the identity was admitted. *)
Definition remembered (self : KeyedRateLimiter) (answers : list (Call * bool)) : Prop :=
  forall key bucket t, kl_buckets self !! key = Some bucket -> t ∈ ab_attempts bucket -> t ∈ admitted key answers.

Lemma admitted_app key a b : admitted key (a ++ b) = admitted key a ++ admitted key b.
Proof. apply omap_app. Qed.
Lemma admit_buckets iter key now self k b : kl_buckets (admit_at iter key now self).2 !! k = Some b ->
  (k <> key /\ kl_buckets self !! k = Some b) \/
  (k = key /\ forall t, t ∈ ab_attempts b ->
     (exists b0, kl_buckets self !! k = Some b0 /\ t ∈ ab_attempts b0) \/
     ((admit_at iter key now self).1 = true /\ t = now)).
Proof.
  unfold admit_at. cbn [fst snd with_buckets kl_buckets].
  set (buckets := match kl_buckets self !! key with Some _ => _ | None => _ end).
  assert (buckets ⊆ kl_buckets self) as Hsub by (unfold buckets; case_match; [done|apply make_room_subseteq]).
  intros [[<- <-]|[Hne Hk]]%lookup_insert_Some; [right|left; split; [done|by apply (lookup_weaken buckets)]].
  split; [done|]. cbn [ab_attempts]. set (attempts := expire _ _ _).
  assert (forall t, t ∈ attempts -> exists b0, kl_buckets self !! key = Some b0 /\ t ∈ ab_attempts b0) as Hin.
  { intros t Ht. unfold attempts in Ht. destruct (buckets !! key) as [b0|] eqn:E; [|by apply not_elem_of_nil in Ht].
    exists b0. split; [by apply (lookup_weaken buckets)|]. cbn [default] in Ht.
    destruct (expire_suffix (kl_window self) now (ab_attempts b0)) as (gone & -> & _). apply elem_of_app. by right. }
  intros t Ht. destruct (_ <=? _)%N; [by left; apply Hin|].
  apply elem_of_app in Ht as [Ht|Ht%list_elem_of_singleton]; [by left; apply Hin|by right].
Qed.
Lemma step_remembered self acc c : remembered self acc ->
  remembered (step self c).2 (acc ++ [(c, (step self c).1)]).
Proof.
  intros Hr k b t Hk Ht. rewrite admitted_app, elem_of_app. destruct c as [key now iter|key]; cbn [step] in *.
  - apply admit_buckets in Hk as [[_ Hk]|[-> Hb]]; [left; by eapply Hr|].
    destruct (Hb t Ht) as [(b0 & Hk0 & Ht0)|[E ->]]; [left; by eapply Hr|right].
    rewrite E. cbn. rewrite decide_True by done. by apply list_elem_of_singleton.
  - left. cbn in Hk. apply lookup_delete_Some in Hk as [_ Hk]. by eapply Hr.
Qed.

(** Nobody is locked out for longer than one window: an identity that was
    not admitted within the last window is admitted, whatever the others did
    and however often it was refused meanwhile. *)
Theorem quiet_identity_is_admitted maximum attempts window self calls key now iter
    (Hn : new maximum attempts window = Some self)
    (Hq : forall t, t ∈ admitted key (serve self calls).1 -> (t + window <= now)%N) :
  (admit_at iter key now (serve self calls).2).1 = true.
Proof.
  apply new_Some in Hn as (Hm & Ha & Hw & ->). revert Hq.
  match goal with |- context [serve ?s calls] => set (self := s) end. intros Hq.
  assert (remembered (serve self calls).2 (serve self calls).1) as Hr.
  { apply (serve_invariant remembered (fun _ => True) calls) with (acc := []);
      [intros; by apply step_remembered|by apply Forall_true|].
    intros k b t Hk. cbn in Hk. by rewrite lookup_empty in Hk. }
  destruct (serve_configured self calls) as (_ & E2 & E3). cbn in E2, E3.
  destruct (serve self calls) as [answers s]. cbn [fst snd] in *.
  unfold admit_at. cbn [fst]. apply negb_true_iff, N.leb_gt. rewrite E2, E3.
  rewrite expire_expired; [unfold size_of; cbn; lia|].
  set (buckets := match kl_buckets s !! key with Some _ => _ | None => _ end).
  assert (buckets ⊆ kl_buckets s) as Hsub by (unfold buckets; case_match; [done|apply make_room_subseteq]).
  destruct (buckets !! key) as [b|] eqn:E; cbn [default]; [|constructor].
  apply Forall_forall. intros t Ht. specialize (Hq t (Hr key b t (lookup_weaken _ _ _ _ E Hsub) Ht)). lia.
Qed.

(** ** Refinement of the ideal limiter *)

Lemma attempts_of_app key a b : attempts_of key (a ++ b) = attempts_of key a ++ attempts_of key b.
Proof. apply omap_app. Qed.
Lemma attempts_of_snoc key k t log :
  attempts_of key (log ++ [(k, t)]) = attempts_of key log ++ (if decide (k = key) then [t] else []).
Proof. rewrite attempts_of_app. cbn. by destruct (decide (k = key)). Qed.
Lemma attempts_of_forget key k log :
  attempts_of key (List.filter (fun kt => negb (bool_decide (kt.1 = k))) log) =
  if decide (k = key) then [] else attempts_of key log.
Proof.
  induction log as [|[k' t] log IH]; [by destruct (decide (k = key))|]. cbn [List.filter fst].
  destruct (decide (k' = k)) as [->|Hne].
  - rewrite bool_decide_eq_true_2 by done. cbn [negb]. rewrite IH.
    destruct (decide (k = key)) as [|Hk]; [done|]. cbn. by rewrite decide_False.
  - rewrite bool_decide_eq_false_2 by done. cbn [negb].
    change (attempts_of key ((k', t) :: List.filter (fun kt => negb (bool_decide (kt.1 = k))) log))
      with (attempts_of key ([(k', t)] ++ List.filter (fun kt => negb (bool_decide (kt.1 = k))) log)).
    change ((k', t) :: log) with ([(k', t)] ++ log). rewrite !attempts_of_app, IH.
    destruct (decide (k = key)) as [->|]; [|done]. cbn. by rewrite decide_False.
Qed.

Lemma recent_app window now a b : recent window now (a ++ b) = recent window now a ++ recent window now b.
Proof. apply List.filter_app. Qed.
Lemma recent_expired window now l : Forall (fun t => (window <= now - t)%N) l -> recent window now l = [].
Proof. induction 1 as [|t l Ht _ IH]; [done|]. cbn. by rewrite (proj2 (N.ltb_ge _ _) Ht). Qed.
Lemma expire_recent window now l : StronglySorted N.le l -> expire window now l = recent window now l.
Proof.
  induction 1 as [|t l _ IH Ht]; [done|]. cbn. unfold saturating_duration_since.
  destruct (N.leb_spec window (now - t)) as [Hle|Hlt].
  - by rewrite (proj2 (N.ltb_ge _ _) Hle).
  - rewrite (proj2 (N.ltb_lt _ _) Hlt). f_equal. unfold recent in IH; rewrite <-IH. symmetry.
    destruct l as [|u l]; [done|]. cbn. unfold saturating_duration_since.
    apply Forall_cons in Ht as [Hu _]. by rewrite (proj2 (N.leb_gt _ _)) by lia.
Qed.
Lemma expired_later window now now' l : (now <= now')%N ->
  Forall (fun t => (window <= now - t)%N) l -> Forall (fun t => (window <= now' - t)%N) l.
Proof. intros Hle Hl. eapply Forall_impl; [exact Hl|]. cbn. lia. Qed.

(** What a bucket, or its absence, says about the log. *)
Definition agrees (window time : N) (times : list N) (bucket : option AttemptBucket) : Prop :=
  match bucket with
  | Some b => Forall (fun t => (t <= ab_last_seen b)%N) times /\
      exists gone, times = gone ++ ab_attempts b /\ Forall (fun t => (window <= time - t)%N) gone
  | None => Forall (fun t => (window <= time - t)%N) times
  end.
Record tracks (window time : N) (earlier : list Call) (log : Log) (buckets : gmap Key AttemptBucket) : Prop := {
  tr_sorted : forall key, StronglySorted N.le (attempts_of key log);
  tr_past : forall key, Forall (fun t => (t <= time)%N) (attempts_of key log);
  tr_agrees : forall key, agrees window time (attempts_of key log) (buckets !! key);
  tr_called : forall key bucket, buckets !! key = Some bucket -> exists iter, Admit key (ab_last_seen bucket) iter ∈ earlier;
}.

Lemma agrees_later window time time' times bucket : (time <= time')%N ->
  agrees window time times bucket -> agrees window time' times bucket.
Proof.
  intros Hle. destruct bucket as [b|]; cbn; [|by apply expired_later].
  intros (Hl & gone & -> & Hg). split; [done|]. exists gone. split; [done|]. by eapply expired_later.
Qed.
Lemma agrees_recent window now times bucket : StronglySorted N.le times -> agrees window now times bucket ->
  recent window now times = expire window now (match bucket with Some b => ab_attempts b | None => [] end).
Proof.
  intros Hs. destruct bucket as [b|]; cbn; [|by apply recent_expired].
  intros (_ & gone & -> & Hg). rewrite recent_app, recent_expired by done. cbn. symmetry. apply expire_recent.
  clear Hg. induction gone as [|t gone IH]; [done|]. inversion Hs; auto.
Qed.

(** With room for every active identity, making room only drops expired
    buckets. *)
Lemma make_room_filters iter key now self time earlier log : (time <= now)%N ->
  tracks (kl_window self) time earlier log (kl_buckets self) -> kl_buckets self !! key = None ->
  (N.of_nat (size ({[ key ]} ∪ busy (kl_window self) now earlier)) <= kl_maximum_buckets self)%N ->
  make_room iter now self =
    filter (fun kb => (saturating_duration_since now (ab_last_seen kb.2) < kl_window self)%N) (kl_buckets self).
Proof.
  intros Hle Ht Hk Hc. unfold make_room. set (retained := filter _ (kl_buckets self)).
  enough (size retained < size ({[ key ]} ∪ busy (kl_window self) now earlier)) as Hlt.
  { by rewrite (proj2 (N.leb_gt _ _)) by lia. }
  rewrite <-(size_dom (D := gset Key) retained). apply subset_size. split.
  - intros k (b & [Hb Hrec]%map_lookup_filter_Some)%elem_of_dom. apply elem_of_union_r.
    destruct (tr_called _ _ _ _ _ Ht k b Hb) as (it & Hin). apply elem_of_list_to_set, list_elem_of_omap.
    exists (Admit k (ab_last_seen b) it). split; [done|]. unfold saturating_duration_since in Hrec. cbn in Hrec.
    by rewrite (proj2 (N.ltb_lt _ _) Hrec).
  - intros Hsub. assert (key ∈ dom retained) as (b & [Hb _]%map_lookup_filter_Some)%elem_of_dom
      by (apply Hsub, elem_of_union_l, elem_of_singleton_2; done).
    congruence.
Qed.

Lemma agrees_split window now times bucket : agrees window now times bucket ->
  exists gone, times = gone ++ expire window now (match bucket with Some b => ab_attempts b | None => [] end) /\
    Forall (fun t => (window <= now - t)%N) gone.
Proof.
  destruct bucket as [b|]; cbn; [|intros Hn; exists times; by rewrite app_nil_r].
  intros (_ & gone & -> & Hg). destruct (expire_suffix window now (ab_attempts b)) as (gone' & E & Hg').
  exists (gone ++ gone'). split; [by rewrite <-app_assoc, <-E|]. by apply Forall_app.
Qed.
Lemma sorted_snoc l t : StronglySorted N.le l -> Forall (fun u => (u <= t)%N) l -> StronglySorted N.le (l ++ [t]).
Proof.
  induction 1 as [|u l _ IH Hu]; [by repeat constructor|]. intros [Hut Hl]%Forall_cons. cbn.
  constructor; [by apply IH|]. apply Forall_app. split; [done|by constructor].
Qed.

(** The bucket of an identity after its call. *)
Lemma tracks_admit window time now key iter (full : bool) attempts earlier log buckets buckets' :
  (time <= now)%N -> tracks window time earlier log buckets ->
  (exists gone, attempts_of key log = gone ++ attempts /\ Forall (fun t => (window <= now - t)%N) gone) ->
  (forall k, k <> key -> agrees window now (attempts_of k log) (buckets' !! k)) -> buckets' ⊆ buckets ->
  tracks window now (earlier ++ [Admit key now iter]) (if negb full then log ++ [(key, now)] else log)
    (<[key := {| ab_attempts := if full then attempts else attempts ++ [now]; ab_last_seen := now |}]> buckets').
Proof.
  intros Hle Ht (gone & Hgone & Hexp) Hother Hsub.
  assert (forall k, attempts_of k (if negb full then log ++ [(key, now)] else log) =
    attempts_of k log ++ (if negb full then if decide (key = k) then [now] else [] else [])) as Hlog.
  { intros k. destruct full; cbn [negb]; [by rewrite app_nil_r|apply attempts_of_snoc]. }
  assert (forall k, Forall (fun t => (t <= now)%N) (attempts_of k log)) as Hpast
    by (intros k; eapply Forall_impl; [apply (tr_past _ _ _ _ _ Ht)|]; cbn; lia).
  assert (forall k, Forall (fun t => (t <= now)%N) (if negb full then if decide (key = k) then [now] else [] else []))
    as Hnew by (intros k; destruct full; cbn; [|destruct (decide _)]; by repeat constructor).
  split; intros k; rewrite ?Hlog.
  - destruct full; cbn [negb]; [rewrite app_nil_r; apply Ht|]. destruct (decide (key = k)) as [->|].
    + apply sorted_snoc; [apply Ht|apply Hpast].
    + rewrite app_nil_r. apply Ht.
  - by apply Forall_app.
  - destruct (decide (k = key)) as [->|Hne].
    + rewrite lookup_insert_eq. cbn [agrees ab_last_seen ab_attempts]. split; [by apply Forall_app|].
      exists gone. split; [|done]. rewrite Hgone, decide_True by done.
      destruct full; cbn [negb]; by rewrite ?app_nil_r, <-?app_assoc.
    + rewrite lookup_insert_ne by done. rewrite decide_False by done. destruct (negb full); rewrite app_nil_r; auto.
  - intros b [[<- <-]|[_ Hb]]%lookup_insert_Some.
    + exists iter. apply elem_of_app. right. by apply list_elem_of_singleton.
    + destruct (tr_called _ _ _ _ _ Ht k b (lookup_weaken _ _ _ _ Hb Hsub)) as (it & Hin).
      exists it. apply elem_of_app. by left.
Qed.

(** The buckets the call finds, and what it answers. *)
Lemma admit_tracks iter key now self time earlier log :
  (time <= now)%N -> tracks (kl_window self) time earlier log (kl_buckets self) ->
  (N.of_nat (size ({[ key ]} ∪ busy (kl_window self) now earlier)) <= kl_maximum_buckets self)%N ->
  let limit := kl_attempts_per_window self in
  let admits := (size_of (recent (kl_window self) now (attempts_of key log)) <? limit)%N in
  (admit_at iter key now self).1 = admits /\
  tracks (kl_window self) now (earlier ++ [Admit key now iter])
    (if admits then log ++ [(key, now)] else log) (kl_buckets (admit_at iter key now self).2).
Proof.
  intros Hle Ht Hc. cbn zeta. unfold admit_at.
  set (buckets := match kl_buckets self !! key with Some _ => _ | None => _ end).
  assert (buckets !! key = kl_buckets self !! key /\
    forall k, k <> key -> agrees (kl_window self) now (attempts_of k log) (buckets !! k)) as [Hkey Hother].
  { unfold buckets. destruct (kl_buckets self !! key) as [b|] eqn:E.
    { split; [done|]. intros k _. eapply agrees_later; [exact Hle|]. apply Ht. }
    rewrite (make_room_filters iter key now self time earlier log Hle Ht E Hc). split.
    - apply map_lookup_filter_None. by left.
    - intros k _. pose proof (agrees_later _ _ _ _ _ Hle (tr_agrees _ _ _ _ _ Ht k)) as Ha.
      destruct (filter _ (kl_buckets self) !! k) as [b|] eqn:Ek.
      + apply map_lookup_filter_Some in Ek as [Ek _]. by rewrite Ek in Ha.
      + apply map_lookup_filter_None in Ek as [Ek|Hold]; [by rewrite Ek in Ha|].
        destruct (kl_buckets self !! k) as [b|] eqn:Ek; [|done]. destruct Ha as [Hlast _].
        specialize (Hold b eq_refl). unfold saturating_duration_since in Hold. cbn in Hold.
        eapply Forall_impl; [exact Hlast|]. cbn. lia. }
  set (b := default {| ab_attempts := []; ab_last_seen := now |} (buckets !! key)).
  assert (agrees (kl_window self) now (attempts_of key log) (buckets !! key)) as Ha
    by (rewrite Hkey; eapply agrees_later; [exact Hle|apply Ht]).
  assert (ab_attempts b = match buckets !! key with Some b => ab_attempts b | None => [] end) as Eb
    by (unfold b; by destruct (buckets !! key)).
  pose proof (agrees_recent _ now _ _ (tr_sorted _ _ _ _ _ Ht key) Ha) as Hrec. rewrite <-Eb in Hrec.
  rewrite Hrec, N.ltb_antisym. split; [done|]. cbn [snd with_buckets kl_buckets].
  eapply (tracks_admit _ time); [done|done|rewrite Eb; by apply agrees_split|done|].
  unfold buckets. destruct (kl_buckets self !! key); [reflexivity|apply make_room_subseteq].
Qed.

Lemma forget_tracks window time key earlier log buckets : tracks window time earlier log buckets ->
  tracks window time (earlier ++ [Forget key]) (List.filter (fun kt => negb (bool_decide (kt.1 = key))) log)
    (delete key buckets).
Proof.
  intros Ht. split; intros k; rewrite ?attempts_of_forget; try (case_decide; [by constructor|apply Ht]).
  - case_decide as E; [subst k; by rewrite lookup_delete_eq; constructor|].
    rewrite lookup_delete_ne by done. apply Ht.
  - intros b [_ Hb]%lookup_delete_Some. destruct (tr_called _ _ _ _ _ Ht k b Hb) as (it & Hin).
    exists it. apply elem_of_app. by left.
Qed.

Lemma serve_ideal calls : forall self time earlier log, ordered time calls ->
  uncrowded (kl_maximum_buckets self) (kl_window self) earlier calls ->
  tracks (kl_window self) time earlier log (kl_buckets self) ->
  (serve self calls).1 = ideal (kl_attempts_per_window self) (kl_window self) log calls.
Proof.
  induction calls as [|c calls IH]; intros self time earlier log Ho Hu Ht; [done|].
  rewrite serve_cons. cbn [fst]. destruct Hu as [Hc Hu]. destruct c as [key now iter|key]; cbn [ideal step] in *.
  - destruct Ho as [Hle Ho]. destruct (admit_tracks iter key now self time earlier log Hle Ht Hc) as [-> Ht'].
    destruct (_ <? _)%N; f_equal; by eapply (IH (admit_at iter key now self).2).
  - f_equal. eapply (IH (forget key self)); [done|done|]. by apply forget_tracks.
Qed.
Lemma serve_new maximum attempts window self calls : new maximum attempts window = Some self ->
  ordered 0 calls -> uncrowded maximum window [] calls ->
  (serve self calls).1 = ideal attempts window [] calls.
Proof.
  intros (_ & _ & _ & ->)%new_Some Ho Hu. match goal with |- (serve ?s _).1 = _ => apply (serve_ideal calls s 0 [] [] Ho Hu) end.
  split; intros k; cbn; rewrite ?lookup_empty; try constructor. done.
Qed.

(** C37. The limiter is the ideal one.  While there is room for the identities
    that call within one window, the bounded map of buckets gives every call
    the answer of the limiter that keeps all admitted attempts forever and
    counts those of the last window. *)
Theorem limiter_refines_sliding_window maximum attempts window self calls
    (Hn : new maximum attempts window = Some self) (Ho : ordered 0 calls) (Hu : uncrowded maximum window [] calls) :
  (serve self calls).1 = ideal attempts window [] calls.
Proof. by eapply serve_new. Qed.

(** ** At most [attempts_per_window] in any window *)

Definition spaced (limit : nat) (window : N) (times : list N) : Prop :=
  forall i t t', times !! i = Some t -> times !! (i + limit) = Some t' -> (t + window <= t')%N.

Lemma recent_tail window now l i t : StronglySorted N.le l -> l !! i = Some t -> (now - t < window)%N ->
  length l - i <= length (recent window now l).
Proof.
  intros Hs Hi Hr.
  assert (recent window now (drop i l) = drop i l) as E.
  { apply List.forallb_filter_id, forallb_forall. intros u Hu. apply list_elem_of_In in Hu. apply N.ltb_lt.
    enough (t <= u)%N by lia. clear Hr. revert i Hi Hu. induction Hs as [|v l _ IH Hv]; intros [|i]; cbn; [done..| |by eauto].
    intros [= ->] [->|Hu]%elem_of_cons; [done|]. rewrite Forall_forall in Hv. by apply Hv. }
  rewrite <-(take_drop i l) at 2. rewrite recent_app, length_app, E, length_drop. lia.
Qed.
Lemma spaced_snoc limit window times now : 0 < limit -> StronglySorted N.le times ->
  Forall (fun t => (t <= now)%N) times -> length (recent window now times) < limit ->
  spaced limit window times -> spaced limit window (times ++ [now]).
Proof.
  intros Hl Hs Hp Hr Hsp i t t' Hi Hj.
  destruct (decide (i + limit < length times)) as [Hlt|Hge].
  { rewrite lookup_app_l in Hi, Hj by lia. by eapply Hsp. }
  rewrite lookup_app_r in Hj by lia. apply list_lookup_singleton_Some in Hj as [Hlen <-].
  rewrite lookup_app_l in Hi by lia. apply N.le_ngt. intros Hlt.
  assert (t <= now)%N as Htn by (eapply Forall_forall in Hp; [exact Hp|by eapply list_elem_of_lookup_2]).
  pose proof (recent_tail window now times i t Hs Hi ltac:(lia)). lia.
Qed.

Lemma ideal_spaced limit window key calls : (0 < limit)%N -> Forget key ∉ calls -> forall time log,
  ordered time calls -> StronglySorted N.le (attempts_of key log) ->
  Forall (fun t => (t <= time)%N) (attempts_of key log) ->
  spaced (N.to_nat limit) window (attempts_of key log) ->
  spaced (N.to_nat limit) window (attempts_of key log ++ admitted key (ideal limit window log calls)).
Proof.
  intros Hl. induction calls as [|c calls IH]; intros Hnf time log Ho Hs Hp Hsp; [by rewrite app_nil_r|].
  apply not_elem_of_cons in Hnf as [Hc Hnf]. destruct c as [k now iter|k]; cbn [ideal].
  - destruct Ho as [Hle Ho].
    assert (Forall (fun t => (t <= now)%N) (attempts_of key log)) as Hp' by (eapply Forall_impl; [exact Hp|]; cbn; lia).
    destruct (N.ltb_spec (size_of (recent window now (attempts_of k log))) limit) as [Hr|_].
    + specialize (IH Hnf now (log ++ [(k, now)]) Ho). rewrite attempts_of_snoc in IH.
      cbn [admitted omap list_omap]. destruct (decide (k = key)) as [->|Hne]; [|rewrite app_nil_r in IH; by apply IH].
      rewrite <-app_assoc in IH. apply IH; [by apply sorted_snoc|by apply Forall_app; split; [|constructor]|].
      apply spaced_snoc; [lia|done|done| |done]. unfold size_of in Hr. lia.
    + cbn [admitted omap list_omap]. replace (if decide (k = key) then None else None) with (@None N) by (by case_decide).
      by apply (IH Hnf now log).
  - change (admitted key ((Forget k, true) :: ?l)) with (admitted key l).
    pose proof (IH Hnf time (List.filter (fun kt => negb (bool_decide (kt.1 = k))) log) Ho) as IH'.
    rewrite attempts_of_forget, decide_False in IH' by congruence. by apply IH'.
Qed.

(** No identity gets more than [attempts_per_window] admissions in one
    window: between an admitted attempt and the one that many admissions later
    lies at least a window, while nothing forgets the identity and there is
    room for the identities that call within one window. *)
Theorem admissions_are_spaced maximum attempts window self calls key i t t'
    (Hn : new maximum attempts window = Some self) (Ho : ordered 0 calls) (Hu : uncrowded maximum window [] calls)
    (Hnf : Forget key ∉ calls) (Hi : admitted key (serve self calls).1 !! i = Some t)
    (Hj : admitted key (serve self calls).1 !! (i + N.to_nat attempts) = Some t') :
  (t + window <= t')%N.
Proof.
  rewrite (serve_new _ _ _ _ calls Hn Ho Hu) in Hi, Hj. apply new_Some in Hn as (_ & Ha & _ & _).
  apply (ideal_spaced attempts window key calls Ha Hnf 0 [] Ho) with (i := i); cbn; try constructor; done.
Qed.

(** ** At a concrete run

    Two identities, two attempts in ten nanoseconds, room for both. *)

Definition sample_limiter : KeyedRateLimiter :=
  {| kl_buckets := ∅; kl_maximum_buckets := 2; kl_attempts_per_window := 2; kl_window := 10 |}.
Definition sample_new : new 2 2 10 = Some sample_limiter := eq_refl.
Definition sample_calls : list Call :=
  [Admit [1%N] 1 map_to_list; Admit [1%N] 2 map_to_list; Admit [1%N] 3 map_to_list; Admit [2%N] 4 map_to_list;
   Forget [2%N]; Admit [1%N] 11 map_to_list].
Lemma sample_answers : (serve sample_limiter sample_calls).1.*2 = [true; true; false; true; true; true].
Proof. vm_compute. reflexivity. Qed.
Lemma sample_fair : Forall fair sample_calls.
Proof. unfold sample_calls. repeat (apply Forall_cons; split; [cbn; try exact I; intros m; reflexivity|]). by apply Forall_nil. Qed.
Lemma sample_ordered : ordered 0 sample_calls.
Proof. cbn. lia. Qed.
Lemma sample_uncrowded : uncrowded 2 10 [] sample_calls.
Proof. repeat split; by vm_compute. Qed.

Lemma admission_memory_is_bounded_witness :
  (N.of_nat (size (kl_buckets (serve sample_limiter sample_calls).2)) <= 2)%N.
Proof. exact (proj1 (admission_memory_is_bounded 2 2 10 sample_limiter sample_calls sample_new sample_fair)). Defined.
Lemma quiet_identity_is_admitted_witness :
  (admit_at map_to_list [1%N] 21 (serve sample_limiter sample_calls).2).1 = true.
Proof.
  apply (quiet_identity_is_admitted 2 2 10 sample_limiter sample_calls [1%N] 21 map_to_list sample_new).
  assert (admitted [1%N] (serve sample_limiter sample_calls).1 = [1; 2; 11]%N) as -> by (vm_compute; reflexivity).
  apply Forall_forall. repeat constructor; vm_compute; discriminate.
Defined.
Lemma limiter_refines_sliding_window_witness :
  (serve sample_limiter sample_calls).1 = ideal 2 10 [] sample_calls.
Proof.
  exact (limiter_refines_sliding_window 2 2 10 sample_limiter sample_calls sample_new sample_ordered sample_uncrowded).
Defined.
Lemma admissions_are_spaced_witness : (1 + 10 <= 11)%N.
Proof.
  apply (admissions_are_spaced 2 2 10 sample_limiter sample_calls [1%N] 0 1 11 sample_new sample_ordered sample_uncrowded);
    [|vm_compute; reflexivity..].
  unfold sample_calls. rewrite !not_elem_of_cons. split_and!; try discriminate. apply not_elem_of_nil.
Defined.
