(* ===== verification/Cache.v ===== *)
(** * The coherence protocol of the response cache

    [apps/server/src/cache.rs] and the middleware of [apps/server/src/main.rs]
    that uses it.  Any number of requests run concurrently; each is a [Task]
    whose constructor is its next atomic action: one atomic operation on the
    process state, or one command the Redis server executes.  [action] executes
    that action.  Tasks interleave arbitrarily, may be cancelled at any await
    point, and Redis may refuse a command, lose a reply or evict any key.

    Canonical content is a version number that every committed mutation
    increments, and a cached response remembers the version it was rendered
    from; both are bookkeeping of the model.  The Redis server executes each
    command at most once, one at a time, and does not lose acknowledged writes
    other than by eviction. *)

From Stdlib Require Import Bool NArith ZArith Lia.
From stdpp Require Import relations gmap list.
From S2P Require Import Prelude Text Extern.

(** ** Redis scripts *)

(** [fresh_generation]: a UUIDv7, never repeated. *)
Abbreviation Generation := N (only parsing).

Record Entry := {
  en_version : N;
  en_bytes : list N;
}.
Record Redis := {
  epoch : option Generation;
  entries : gmap (Generation * rstr) Entry;
}.
Definition MAX_CACHE_VALUE_BYTES : N := 86 * 1024 * 1024.

(** [LOOKUP_SCRIPT] *)
Definition lookup_script (fresh : Generation) (route_hash : rstr) (r : Redis)
    : (Generation * option Entry) * Redis :=
  let generation := default fresh (epoch r) in
  let value := v ← entries r !! (generation, route_hash);
               if (size_of (en_bytes v) <=? MAX_CACHE_VALUE_BYTES)%N then Some v else None in
  ((generation, value), {| epoch := Some generation; entries := entries r |}).

(** [STORE_SCRIPT] *)
Definition store_script (lookup_epoch : Generation) (route_hash : rstr) (value : Entry) (r : Redis)
    : bool * Redis :=
  if bool_decide (epoch r = Some lookup_epoch)
  then (true, {| epoch := epoch r; entries := <[(lookup_epoch, route_hash) := value]> (entries r) |})
  else (false, r).

(** [SET epoch_key generation] *)
Definition set_generation (generation : Generation) (r : Redis) : Redis :=
  {| epoch := Some generation; entries := entries r |}.

(** ** The atomics *)

Definition u64 (n : N) : N := (n mod 2 ^ 64)%N.

Definition mark_coherence_dirty (current : N) : N :=
  let sequence := u64 (N.shiftr current 1 + 1) in
  N.lor (u64 (N.shiftl sequence 1)) 1.

(** The compare-exchange: the new value when it succeeds. *)
Definition publish_coherence_generation (coherence ticket : N) : option N :=
  if (coherence =? ticket)%N then Some (u64 (ticket + 1)) else None.

Definition dirty (coherence : N) : bool := negb (N.land coherence 1 =? 0)%N.

(** ** Tasks *)

(** What happens once coherence has been repaired. *)
Inductive After :=
| ThenLookup (route_hash : rstr) (since : N)
| ThenFinish.

Inductive Task :=
(* lookup, and the request around it *)
| Lookup (route_hash : rstr)
| LookupSafe (route_hash : rstr) (since : N)
| Eval (route_hash : rstr) (since : N)
| Found (route_hash : rstr) (since : N) (generation : Generation) (value : option Entry)
| Render (route_hash : rstr) (generation : Generation)
| Fill (route_hash : rstr) (generation : Generation) (version : N)
(* ping *)
| Ping
| PingSafe
(* repair_coherence *)
| Repair (k : After)
| RepairSafe (k : After)
| RepairLock (k : After)
| RepairRecheck (k : After)
(* complete_mutation *)
| Complete
| CompleteLock
| CompleteRecheck
(* rotate_until_safe, holding generation_change *)
| RotateCheck (k : After)
| RotateLoad (k : After)
| RotateSet (k : After) (ticket : N)
| RotatePublish (k : After) (ticket : N)
(* begin_mutation, the canonical mutation, and the guard's drop *)
| MutationBegin
| MutationMark
| MutationOpen
| MutationDrop
| MutationRelease
(* commands whose sender no longer waits: Redis may still execute them *)
| SentLookup (route_hash : rstr)
| SentFill (route_hash : rstr) (generation : Generation) (version : N)
| SentSet.

Record Shared := {
  redis : Redis;
  active_mutations : N;
  coherence : N;
  generation_change : bool;
  canonical : N;
  (* bookkeeping of the model *)
  born : gmap Generation N;
  settled : N;
  marks : N;
}.
Definition with_redis (s : Shared) (r : Redis) (b : gmap Generation N) := Build_Shared r (active_mutations s)
  (coherence s) (generation_change s) (canonical s) b (settled s) (marks s).
Definition with_active (s : Shared) (n : N) := Build_Shared (redis s) n
  (coherence s) (generation_change s) (canonical s) (born s) (settled s) (marks s).
Definition with_lock (s : Shared) (b : bool) := Build_Shared (redis s) (active_mutations s)
  (coherence s) b (canonical s) (born s) (settled s) (marks s).
Definition with_coherence (s : Shared) (n : N) := Build_Shared (redis s) (active_mutations s)
  n (generation_change s) (canonical s) (born s) (settled s) (marks s).
Definition with_commit (s : Shared) := Build_Shared (redis s) (active_mutations s)
  (coherence s) (generation_change s) (canonical s + 1) (born s) (settled s) (marks s).

(** [mark_dirty]; the version it settles is recorded. *)
Definition mark_dirty (s : Shared) : Shared := Build_Shared (redis s) (active_mutations s)
  (mark_coherence_dirty (coherence s)) (generation_change s) (canonical s) (born s) (canonical s) (marks s + 1).

Definition reads_safe (s : Shared) : bool := negb (dirty (coherence s)).
Definition no_active_mutations (s : Shared) : bool := (active_mutations s =? 0)%N.

(** How a Redis command ends for its sender; after [ReplyLost] the command may
    still be executed at any later time. *)
Inductive Reply := Answered | ReplyLost | Refused.
(** What is not determined by the state. *)
Record Choice := {
  fresh : Generation;
  reply : Reply;
  entry_is_valid : bool;
  commits : bool;
  encoded : list N;
}.

Definition continue_with (k : After) : option Task :=
  match k with ThenLookup h since => Some (Eval h since) | ThenFinish => None end.
Definition unlock (s : Shared) : Shared := with_lock s false.

(** The commands, as seen by the task that sends them. *)
Definition rotate (c : Choice) (s : Shared) : Shared :=
  with_redis s (set_generation (fresh c) (redis s)) (<[fresh c := canonical s]> (born s)).
Definition evaluate_lookup (c : Choice) (h : rstr) (s : Shared) : (Generation * option Entry) * Shared :=
  let '(answer, r) := lookup_script (fresh c) h (redis s) in
  (answer, with_redis s r (match epoch (redis s) with
                           | Some _ => born s
                           | None => <[fresh c := canonical s]> (born s)
                           end)).

Definition fill (c : Choice) (h : rstr) (generation : Generation) (version : N) (s : Shared) : Shared :=
  with_redis s (store_script generation h {| en_version := version; en_bytes := encoded c |} (redis s)).2 (born s).

(** One atomic action of a task: the shared state afterwards and what remains
    of the task. *)
Definition action (c : Choice) (t : Task) (s : Shared) : Shared * option Task :=
  match t with
  | Lookup h => if no_active_mutations s then (s, Some (LookupSafe h (canonical s))) else (s, None)
  | LookupSafe h since =>
      if reads_safe s then (s, Some (Eval h since)) else (s, Some (Repair (ThenLookup h since)))
  | Eval h since =>
      match reply c with
      | Refused => (s, None)
      | ReplyLost => (s, Some (SentLookup h))
      | Answered => let '((generation, value), s') := evaluate_lookup c h s in
                    (s', Some (Found h since generation value))
      end
  | Found h since generation value =>
      if is_some value && entry_is_valid c then (s, None) else (s, Some (Render h generation))
  | Render h generation => (s, Some (Fill h generation (canonical s)))
  | Fill h generation version =>
      match reply c with
      | Refused => (s, None)
      | ReplyLost => (s, Some (SentFill h generation version))
      | Answered => (fill c h generation version s, None)
      end
  | Ping => if no_active_mutations s then (s, Some PingSafe) else (s, None)
  | PingSafe => if reads_safe s then (s, None) else (s, Some (Repair ThenFinish))
  | Repair k => if no_active_mutations s then (s, Some (RepairSafe k)) else (s, None)
  | RepairSafe k => if reads_safe s then (s, continue_with k) else (s, Some (RepairLock k))
  | RepairLock k => if generation_change s then (s, Some (RepairLock k)) else (with_lock s true, Some (RepairRecheck k))
  | RepairRecheck k => if no_active_mutations s then (s, Some (RotateCheck k)) else (unlock s, None)
  | Complete => if no_active_mutations s then (s, Some CompleteLock) else (s, None)
  | CompleteLock => if generation_change s then (s, Some CompleteLock) else (with_lock s true, Some CompleteRecheck)
  | CompleteRecheck => if no_active_mutations s then (s, Some (RotateCheck ThenFinish)) else (unlock s, None)
  | RotateCheck k => if no_active_mutations s then (s, Some (RotateLoad k)) else (unlock s, None)
  | RotateLoad k =>
      if dirty (coherence s) then (s, Some (RotateSet k (coherence s))) else (unlock s, continue_with k)
  | RotateSet k ticket =>
      match reply c with
      | Refused => (unlock s, None)
      | ReplyLost => (unlock s, Some SentSet)
      | Answered => (rotate c s, Some (RotatePublish k ticket))
      end
  | RotatePublish k ticket =>
      match publish_coherence_generation (coherence s) ticket with
      | Some next => (unlock (with_coherence s next), continue_with k)
      | None => (s, Some (RotateCheck k))
      end
  | MutationBegin => (with_active s (u64 (active_mutations s + 1)), Some MutationMark)
  | MutationMark => (mark_dirty s, Some MutationOpen)
  | MutationOpen => if commits c then (with_commit s, Some MutationOpen) else (s, Some MutationDrop)
  | MutationDrop => (mark_dirty s, Some MutationRelease)
  | MutationRelease => (with_active s (u64 (active_mutations s + (2 ^ 64 - 1))), Some Complete)
  | SentLookup h => ((evaluate_lookup c h s).2, None)
  | SentFill h generation version => (fill c h generation version s, None)
  | SentSet => (rotate c s, None)
  end.

(** ** The system *)

(** Tasks whose next action runs under the guard of [generation_change]. *)
Definition holds (t : Task) : bool :=
  match t with
  | RepairRecheck _ | CompleteRecheck | RotateCheck _ | RotateLoad _ | RotateSet _ _ | RotatePublish _ _ => true
  | _ => false
  end.

(** Dropping the future of a task at an await point: [None] where it has none.
    A lock guard it owns is dropped with it, the mutation guard runs its
    [drop], and a command that was sent stays sent. *)
Definition abandon (t : Task) : option (option Task) :=
  match t with
  | MutationBegin | MutationMark | MutationDrop | MutationRelease | RotatePublish _ _ => None
  | MutationOpen => Some (Some MutationDrop)
  | Eval h _ => Some (Some (SentLookup h))
  | Fill h generation version => Some (Some (SentFill h generation version))
  | RotateSet _ _ => Some (Some SentSet)
  | _ => Some None
  end.

(** How a request or the readiness probe enters. *)
Definition enters (t : Task) : bool :=
  match t with Lookup _ | Ping | Complete | MutationBegin => true | _ => false end.

Definition TASK_LIMIT : N := 2 ^ 63.

Record System := {
  shared : Shared;
  tasks : list Task;
}.

Inductive step : System -> System -> Prop :=
| step_action c s pre t post :
    born s !! fresh c = None ->
    step (Build_System s (pre ++ t :: post))
         (Build_System (action c t s).1 (pre ++ option_list (action c t s).2 ++ post))
| step_enter s ts t :
    enters t = true -> (N.of_nat (length ts) < TASK_LIMIT)%N ->
    step (Build_System s ts) (Build_System s (t :: ts))
| step_abandon s pre t post rest :
    abandon t = Some rest ->
    step (Build_System s (pre ++ t :: post))
         (Build_System (if holds t then unlock s else s) (pre ++ option_list rest ++ post))
| step_evict_epoch s ts :
    step (Build_System s ts)
         (Build_System (with_redis s {| epoch := None; entries := entries (redis s) |} (born s)) ts)
| step_evict_entry s ts k :
    step (Build_System s ts)
         (Build_System (with_redis s {| epoch := epoch (redis s); entries := delete k (entries (redis s)) |} (born s)) ts).

(** [SemanticCache::connect]: the counters of a new process, against whatever
    an earlier process left in Redis. *)
Definition connected (s : System) : Prop :=
  tasks s = [] /\ coherence (shared s) = 1%N /\ active_mutations (shared s) = 0%N
  /\ generation_change (shared s) = false /\ marks (shared s) = 0%N
  /\ settled (shared s) = canonical (shared s)
  /\ (forall g, epoch (redis (shared s)) = Some g -> born (shared s) !! g = Some 0%N)
  /\ (forall g h e, entries (redis (shared s)) !! (g, h) = Some e -> born (shared s) !! g = Some 0%N)
  /\ (forall g n, born (shared s) !! g = Some n -> n = 0%N).
Definition reachable (s : System) : Prop := exists s0, connected s0 /\ rtc step s0 s.

(** Fewer begun and finished mutations than would wrap [coherence]. *)
Definition MARK_LIMIT : N := 2 ^ 62 - 1.
