(* ===== verification/CacheTheorems.v ===== *)
(** * The response cache never serves content older than the request

    The invariant of the protocol of [Cache], by rule induction over [step],
    and what it gives: a lookup is never answered from content older than the
    content committed when it started, although generations rotate, evictions
    restore epochs and lost commands execute late; the number of active
    mutations is exact; and a repair that Redis answers makes reads safe. *)

From Stdlib Require Import Bool NArith ZArith Lia.
From stdpp Require Import relations gmap list.
From S2P Require Import Prelude Text Extern Cache.

(** ** What the shared state promises *)

(** No entry that the current epoch can return was rendered before [top]. *)
Definition top (s : Shared) : N :=
  match epoch (redis s) with Some g => default 0%N (born s !! g) | None => canonical s end.

Record shared_ok (s : Shared) : Prop := {
  ok_epoch : forall g, epoch (redis s) = Some g -> is_Some (born s !! g);
  ok_born : forall g n, born s !! g = Some n -> (n <= canonical s)%N;
  ok_entries : forall g h e, entries (redis s) !! (g, h) = Some e ->
    exists n, born s !! g = Some n /\ (n <= en_version e)%N;
  ok_settled : (settled s <= canonical s)%N;
  ok_clean : dirty (coherence s) = false -> (settled s <= top s)%N;
  ok_coherence : (coherence s <= 4 * marks s + (if dirty (coherence s) then 1 else 2))%N;
}.

Definition after_ok (s : Shared) (k : After) : Prop :=
  match k with ThenLookup _ since => (since <= settled s)%N | ThenFinish => True end.
Definition task_ok (s : Shared) (t : Task) : Prop :=
  match t with
  | LookupSafe _ since => (since <= settled s)%N
  | Eval _ since => (since <= top s)%N
  | Found _ since g v => is_Some (born s !! g) /\ from_option (fun e => since <= en_version e)%N True v
  | Render _ g => is_Some (born s !! g)
  | Fill _ g version | SentFill _ g version => exists n, born s !! g = Some n /\ (n <= version)%N
  | Repair k | RepairSafe k | RepairLock k | RepairRecheck k | RotateCheck k | RotateLoad k => after_ok s k
  | RotateSet k ticket => after_ok s k /\ dirty ticket = true /\ (ticket <= coherence s)%N
  | RotatePublish k ticket =>
      after_ok s k /\ dirty ticket = true /\ (ticket <= coherence s)%N
      /\ (coherence s = ticket -> settled s <= top s)%N
  | _ => True
  end.

(** What other tasks may rely on. *)
Record grows (s s' : Shared) : Prop := {
  grows_canonical : (canonical s <= canonical s')%N;
  grows_settled : (settled s <= settled s')%N;
  grows_top : (top s <= top s')%N;
  grows_born : forall g n, born s !! g = Some n -> born s' !! g = Some n;
  grows_coherence : (coherence s <= coherence s')%N;
  grows_dirty : coherence s = coherence s' -> settled s = settled s';
}.

Lemma task_ok_grows s s' t : grows s s' -> task_ok s t -> task_ok s' t.
Proof.
  intros [? ? ? Hb ? Hd] H.
  destruct t; simpl in *; repeat (destruct k; simpl in * ); try done; try lia; try (naive_solver lia).
  all: try (destruct H as [[] ?]; split; [eexists; by apply Hb|done]); try (destruct H; eexists; by apply Hb).
  all: decompose [and] H; repeat split; try lia; try done; intros; assert (coherence s = ticket) by lia;
    rewrite <- Hd by lia; transitivity (top s); [auto|lia].
Qed.

(** ** The counter arithmetic *)

Lemma mod_two (n : N) : (n mod 2 = 0 \/ n mod 2 = 1)%N.
Proof. assert (n mod 2 < 2)%N by (by apply N.mod_lt). pose proof (N.le_0_l (n mod 2)). lia. Qed.
Lemma dirty_mod n : dirty n = (n mod 2 =? 1)%N.
Proof.
  unfold dirty. change 1%N with (N.ones 1) at 1. rewrite N.land_ones, N.pow_1_r.
  by destruct (mod_two n) as [-> | ->].
Qed.
Lemma dirty_succ n : dirty (n + 1) = negb (dirty n).
Proof.
  rewrite !dirty_mod, N.Div0.add_mod. by destruct (mod_two n) as [-> | ->].
Qed.

Lemma mark_value n : (n + 3 < 2 ^ 64)%N ->
  mark_coherence_dirty n = (if dirty n then n + 2 else n + 3)%N.
Proof.
  intros Hn. rewrite dirty_mod. unfold mark_coherence_dirty, u64. cbv zeta. change (2 ^ 64)%N with 18446744073709551616%N in *.
  rewrite N.shiftr_div_pow2, N.shiftl_mul_pow2, N.pow_1_r.
  pose proof (N.div_mod n 2 ltac:(done)) as Hd. pose proof (mod_two n).
  rewrite (N.mod_small (n / 2 + 1)) by lia. rewrite (N.mod_small ((n / 2 + 1) * 2)) by lia.
  assert (forall m, N.lor (m * 2) 1 = m * 2 + 1)%N as Hlor.
  { intros m. rewrite N.mul_comm. by destruct m. }
  rewrite Hlor. destruct (N.eqb_spec (n mod 2) 1); lia.
Qed.
Lemma dirty_mark n : (n + 3 < 2 ^ 64)%N -> dirty (mark_coherence_dirty n) = true.
Proof.
  intros Hn. rewrite mark_value by done.
  replace (n + 2)%N with (n + 1 + 1)%N by lia. replace (n + 3)%N with (n + 1 + 1 + 1)%N by lia.
  destruct (dirty n) eqn:E; by rewrite !dirty_succ, E.
Qed.
Lemma publish_value n ticket next : (n + 3 < 2 ^ 64)%N -> dirty ticket = true ->
  publish_coherence_generation n ticket = Some next -> n = ticket /\ next = (n + 1)%N /\ dirty next = false.
Proof.
  unfold publish_coherence_generation, u64. intros Hn Ht H. destruct (N.eqb_spec n ticket); [simplify_eq|done].
  rewrite N.mod_small by lia. by rewrite dirty_succ, Ht.
Qed.

(** ** One action *)

Section action.
Context (c : Choice) (s : Shared).
Hypothesis Hs : shared_ok s.

Lemma grows_refl : grows s s.
Proof. by split. Qed.

Lemma top_canonical : (top s <= canonical s)%N.
Proof.
  unfold top. destruct (epoch (redis s)) as [g|] eqn:E; [|done].
  destruct (ok_epoch s Hs g E) as [n Hn]. rewrite Hn. by eapply ok_born.
Qed.

Hypothesis Hfresh : born s !! fresh c = None.

Lemma known_not_fresh g n : born s !! g = Some n -> <[fresh c := canonical s]> (born s) !! g = Some n.
Proof. intros H. rewrite lookup_insert_ne; [done|naive_solver]. Qed.

(** The next epoch is [fresh c]. *)
Lemma fresh_epoch_ok r :
  epoch r = Some (fresh c) -> entries r = entries (redis s) ->
  let s' := with_redis s r (<[fresh c := canonical s]> (born s)) in
  shared_ok s' /\ grows s s' /\ top s' = canonical s.
Proof.
  intros Hr He s'. pose proof top_canonical. destruct Hs as [Hep Hb Hen Hset Hcl Hco].
  assert (Htop : top s' = canonical s) by (unfold top, s'; simpl; rewrite Hr; simpl; by rewrite lookup_insert_eq).
  split_and!; [|split; simpl; try done; [lia|apply known_not_fresh]|done].
  split; simpl; try done.
  - intros g. rewrite Hr. intros [= <-]. rewrite lookup_insert_eq. by eexists.
  - intros g n Hg. apply lookup_insert_Some in Hg as [[_ <-]|[_ Hg]]; [done|by eapply Hb].
  - rewrite He. intros g h e Hg. destruct (Hen g h e Hg) as (n&Hn&?). exists n. by split; [apply known_not_fresh|].
  - rewrite Htop. intros. done.
Qed.

Lemma rotate_ok : shared_ok (rotate c s) /\ grows s (rotate c s) /\ top (rotate c s) = canonical s.
Proof. by apply fresh_epoch_ok. Qed.

Lemma evaluate_lookup_ok h g v s' :
  evaluate_lookup c h s = ((g, v), s') ->
  shared_ok s' /\ grows s s' /\ is_Some (born s' !! g)
  /\ from_option (fun e => top s <= en_version e)%N True v.
Proof.
  unfold evaluate_lookup, lookup_script. intros [= <- <- <-]. pose proof Hs as [Hep Hb Hen Hset Hcl Hco].
  destruct (epoch (redis s)) as [g|] eqn:E; simpl.
  - destruct (Hep g eq_refl) as [n Hn].
    assert (Hsame : with_redis s {| epoch := Some g; entries := entries (redis s) |} (born s) = s).
    { unfold with_redis. rewrite <- E. by destruct s as [[] ? ? ? ? ? ? ?]. }
    rewrite Hsame. split_and!; [done|apply grows_refl|by eexists|].
    destruct (entries (redis s) !! (g, h)) as [e|] eqn:Ee; simpl; [|done].
    destruct (size_of (en_bytes e) <=? _)%N; simpl; [|done]. destruct (Hen g h e Ee) as (m&?&?). unfold top. rewrite E, Hn. simpl. naive_solver.
  - destruct (fresh_epoch_ok {| epoch := Some (fresh c); entries := entries (redis s) |}) as (?&?&?); [done..|].
    split_and!; [done|done|rewrite lookup_insert_eq; by eexists|].
    destruct (entries (redis s) !! (fresh c, h)) as [e|] eqn:Ee; simpl; [|done].
    destruct (Hen _ h e Ee) as (m&?&?). naive_solver.
Qed.

Lemma fill_ok h g version : (exists n, born s !! g = Some n /\ (n <= version)%N) ->
  shared_ok (fill c h g version s) /\ grows s (fill c h g version s).
Proof.
  intros (n&Hn&Hv). destruct Hs as [Hep Hb Hen Hset Hcl Hco]. unfold fill, store_script.
  case_bool_decide; simpl; (split; [|by split]); split; simpl; try done.
  intros g' h' e He. apply lookup_insert_Some in He as [[[= <- <-] <-]|[_ He]]; [by eexists|by apply (Hen g' h')].
Qed.

Hypothesis Hmarks : (marks s < MARK_LIMIT)%N.

Lemma coherence_small : (coherence s + 3 < 2 ^ 64)%N.
Proof.
  pose proof (ok_coherence s Hs). unfold MARK_LIMIT in *. destruct (dirty (coherence s)); lia.
Qed.

Lemma mark_dirty_ok : shared_ok (mark_dirty s) /\ grows s (mark_dirty s) /\ dirty (coherence (mark_dirty s)) = true.
Proof.
  pose proof coherence_small as Hsmall. pose proof (dirty_mark _ Hsmall) as Hd. pose proof (mark_value _ Hsmall) as Hm.
  destruct Hs as [Hep Hb Hen Hset Hcl Hco].
  assert (coherence s < mark_coherence_dirty (coherence s) <= 4 * (marks s + 1) + 1)%N as Hc.
  { rewrite Hm. destruct (dirty (coherence s)); lia. }
  split_and!; [split; simpl; try done; rewrite Hd; [done|lia]|split; simpl; try done; try lia|done].
Qed.

Lemma publish_ok ticket next : dirty ticket = true -> (coherence s = ticket -> settled s <= top s)%N ->
  publish_coherence_generation (coherence s) ticket = Some next ->
  let s' := unlock (with_coherence s next) in
  shared_ok s' /\ grows s s' /\ dirty (coherence s') = false /\ (settled s' <= top s')%N.
Proof.
  intros Ht Hset Hp. destruct (publish_value _ _ _ coherence_small Ht Hp) as (Hc&->&Hd).
  pose proof (ok_coherence s Hs) as Hb. rewrite Hc, Ht in Hb.
  destruct Hs as [? ? ? ? ? _].
  split_and!; [split; simpl; try done; rewrite ?Hd; auto; lia|split; simpl; try done; lia|done|simpl; auto].
Qed.
End action.

Lemma lock_ok s b : shared_ok s -> shared_ok (with_lock s b) /\ grows s (with_lock s b).
Proof. intros []. by repeat split. Qed.
Lemma active_ok s n : shared_ok s -> shared_ok (with_active s n) /\ grows s (with_active s n).
Proof. intros []. by repeat split. Qed.
Lemma commit_ok s : shared_ok s -> shared_ok (with_commit s) /\ grows s (with_commit s).
Proof.
  intros Hs. assert (Htop : (top s <= top (with_commit s))%N).
  { unfold top. simpl. destruct (epoch (redis s)); [done|lia]. }
  destruct Hs as [Hep Hb Hen Hset Hcl Hco]. split; split; simpl; try done; try lia.
  - intros g n Hg. specialize (Hb g n Hg). lia.
  - intros Hd. transitivity (top s); auto.
Qed.

Lemma reads_safe_clean s : reads_safe s = true <-> dirty (coherence s) = false.
Proof. unfold reads_safe. by rewrite negb_true_iff. Qed.
Lemma continue_ok s k t : continue_with k = Some t ->
  after_ok s k -> (settled s <= top s)%N -> task_ok s t.
Proof. destruct k; intros [= <-]; simpl. lia. Qed.
Lemma after_grows s s' k : grows s s' -> after_ok s k -> after_ok s' k.
Proof. intros [] ?. destruct k; simpl in *; [lia|done]. Qed.

#[local] Arguments evaluate_lookup : simpl never.
#[local] Arguments fill : simpl never.
#[local] Arguments rotate : simpl never.
#[local] Arguments mark_dirty : simpl never.
#[local] Arguments unlock : simpl never.
#[local] Arguments publish_coherence_generation : simpl never.
#[local] Arguments continue_with : simpl never.

Definition kept (s : Shared) (p : Shared * option Task) : Prop :=
  shared_ok p.1 /\ grows s p.1 /\ forall t, p.2 = Some t -> task_ok p.1 t.

Lemma kept_none s s' : shared_ok s' /\ grows s s' -> kept s (s', None).
Proof. by intros []. Qed.
Lemma kept_some s s' t : shared_ok s' /\ grows s s' -> task_ok s' t -> kept s (s', Some t).
Proof. intros [] ?. split_and!; [done..|]. by intros ? [= <-]. Qed.
Lemma kept_same s t : shared_ok s -> task_ok s t -> kept s (s, Some t).
Proof. intros. apply kept_some; [split; [done|apply grows_refl]|done]. Qed.
Lemma kept_continue s s' k : shared_ok s' /\ grows s s' -> after_ok s' k -> (settled s' <= top s')%N ->
  kept s (s', continue_with k).
Proof. intros [] ? ?. split_and!; [done..|]. intros t ?. by apply (continue_ok _ k). Qed.

Lemma kept_eval c s h since :
  shared_ok s -> born s !! fresh c = None -> (since <= top s)%N ->
  kept s (let '((generation, value), s') := evaluate_lookup c h s in (s', Some (Found h since generation value))).
Proof.
  intros Hs Hf Hsince. destruct (evaluate_lookup c h s) as [[g v] s'] eqn:E.
  destruct (evaluate_lookup_ok c s Hs Hf h g v s' E) as (?&?&?&Hv).
  apply kept_some; [done|]. split; [done|]. destruct v; simpl in *; [lia|done].
Qed.
Lemma kept_sent c s h :
  shared_ok s -> born s !! fresh c = None -> kept s ((evaluate_lookup c h s).2, None).
Proof.
  intros Hs Hf. destruct (evaluate_lookup c h s) as [[g v] s'] eqn:E.
  destruct (evaluate_lookup_ok c s Hs Hf h g v s' E) as (?&?&?). by apply kept_none.
Qed.

(** Every action keeps what is promised, and its task keeps what it knows. *)
Lemma action_kept c s t :
  shared_ok s -> born s !! fresh c = None -> (marks s < MARK_LIMIT)%N -> task_ok s t ->
  (no_active_mutations s = true -> settled s = canonical s) ->
  kept s (action c t s).
Proof.
  intros Hs Hf Hm Ht Hq. pose proof (ok_clean s Hs) as Hcl.
  pose proof (fun b => lock_ok s b Hs) as Hlock. pose proof (conj Hs (grows_refl s)) as Hsame.
  destruct t; simpl in *;
    repeat match goal with
    | |- kept _ (match ?b with _ => _ end) => is_var b; destruct b eqn:?
    | |- kept _ (if ?b then _ else _) => destruct b eqn:?
    | |- kept _ (match reply c with _ => _ end) => destruct (reply c)
    end; try (apply kept_none; solve [done | apply Hlock]).
  all: try (apply kept_same; simpl; solve [done | naive_solver lia]).
  - apply kept_same; [done|]. apply reads_safe_clean, Hcl in Heqb. simpl. lia.
  - by apply kept_eval.
  - apply kept_same; [done|]. destruct Ht as [n Hn]. exists n. split; [done|by eapply ok_born].
  - by apply kept_none, fill_ok.
  - apply kept_continue; [done..|]. by apply Hcl, reads_safe_clean.
  - apply kept_some; [done|by destruct k].
  - by apply kept_some.
  - apply kept_continue; [apply Hlock|by destruct k|]. by apply Hcl.
  - destruct (rotate_ok c s Hs Hf) as (Hrot&Hg&Htop). destruct Ht as (?&?&?).
    apply kept_some; [done|]. split_and!; [by apply (after_grows s)|done..|].
    rewrite Htop. intros _. apply (ok_settled s Hs).
  - apply kept_some; [apply Hlock|done].
  - destruct Ht as (?&?&?&?). destruct (publish_coherence_generation _ _) as [next|] eqn:E; [|by apply kept_same].
    destruct (publish_ok s Hs Hm ticket next) as (?&?&_&?); [done..|].
    apply kept_continue; [done|by destruct k|done].
  - apply kept_some; [by apply active_ok|done].
  - destruct (mark_dirty_ok s Hs Hm) as (?&?&_). by apply kept_some.
  - apply kept_some; [by apply commit_ok|done].
  - destruct (mark_dirty_ok s Hs Hm) as (?&?&_). by apply kept_some.
  - apply kept_some; [by apply active_ok|done].
  - by apply (kept_sent c s route_hash).
  - by apply kept_none, fill_ok.
  - destruct (rotate_ok c s Hs Hf) as (?&?&_). by apply kept_none.
Qed.

(** ** Accounting *)

(** The task is counted by [active_mutations]. *)
Definition live (t : Task) : bool :=
  match t with MutationMark | MutationOpen | MutationDrop | MutationRelease => true | _ => false end.
(** The task may have committed content that no mark has settled. *)
Definition opens (t : Task) : bool :=
  match t with MutationOpen | MutationDrop => true | _ => false end.

Fixpoint count (f : Task -> bool) (ts : list Task) : N :=
  match ts with [] => 0 | t :: ts => N.b2n (f t) + count f ts end%N.

Lemma count_app f ts us : count f (ts ++ us) = (count f ts + count f us)%N.
Proof. induction ts; simpl; lia. Qed.
Lemma count_replace f pre t rest post n m :
  (n + N.b2n (f t) = m + count f rest)%N -> m = count f (pre ++ t :: post) -> n = count f (pre ++ rest ++ post).
Proof. rewrite !count_app. simpl. lia. Qed.
Lemma count_le_length f ts : (count f ts <= N.of_nat (length ts))%N.
Proof. induction ts as [|t ts]; simpl; [lia|]. destruct (f t); simpl; lia. Qed.
Lemma count_at_least f pre t post : f t = true -> (1 <= count f (pre ++ t :: post))%N.
Proof. intros H. rewrite count_app. simpl. rewrite H. simpl. lia. Qed.
Lemma count_impl f g ts : (forall t, f t = true -> g t = true) -> count g ts = 0%N -> count f ts = 0%N.
Proof. intros H. induction ts as [|t ts IH]; simpl; [done|]. specialize (H t). destruct (f t), (g t); simpl; naive_solver lia. Qed.


Section accounting.
Context (c : Choice) (s : Shared) (t : Task).

Lemma action_active :
  (active_mutations s < 2 ^ 63 + 1)%N -> (live t = true -> 1 <= active_mutations s)%N ->
  (active_mutations (action c t s).1 + N.b2n (live t)
   = active_mutations s + count live (option_list (action c t s).2))%N.
Proof.
  intros Hlt Hlive. unfold action, continue_with, u64. destruct t; simpl in *; repeat case_match; simpl; try lia.
  - rewrite N.mod_small by lia. lia.
  - specialize (Hlive eq_refl).
    replace (active_mutations s + _)%N with (active_mutations s - 1 + 1 * 2 ^ 64)%N by lia.
    rewrite N.Div0.mod_add, N.mod_small by lia. lia.
Qed.
Lemma action_lock :
  (holds t = true -> generation_change s = true) ->
  (N.b2n (generation_change (action c t s).1) + N.b2n (holds t)
   = N.b2n (generation_change s) + count holds (option_list (action c t s).2))%N.
Proof.
  unfold action, continue_with. intros Hh.
  destruct t; simpl in *; try rewrite (Hh eq_refl); repeat case_match; simplify_eq/=;
    try rewrite (Hh eq_refl); simpl; try done; try lia; try by rewrite H.
Qed.
Lemma action_open :
  count opens (option_list (action c t s).2) = 0%N ->
  settled (action c t s).1 = canonical (action c t s).1
  \/ (settled (action c t s).1 = settled s /\ canonical (action c t s).1 = canonical s /\ opens t = false).
Proof.
  unfold action, continue_with. destruct t; simpl in *; repeat case_match; simpl; auto; done.
Qed.
Lemma action_marks : (marks s <= marks (action c t s).1)%N.
Proof. unfold action. destruct t; simpl; repeat case_match; simpl; lia. Qed.
Lemma action_rest_length : length (option_list (action c t s).2) <= 1.
Proof. destruct (action c t s).2; simpl; lia. Qed.
End accounting.

(** ** The invariant of the system *)

Record coherent (x : System) : Prop := {
  co_shared : shared_ok (shared x);
  co_tasks : Forall (task_ok (shared x)) (tasks x);
  co_active : active_mutations (shared x) = count live (tasks x);
  co_lock : N.b2n (generation_change (shared x)) = count holds (tasks x);
  co_open : count opens (tasks x) = 0%N -> settled (shared x) = canonical (shared x);
  co_length : (N.of_nat (length (tasks x)) <= TASK_LIMIT)%N;
}.

Lemma coherent_settled x : coherent x ->
  no_active_mutations (shared x) = true -> settled (shared x) = canonical (shared x).
Proof.
  intros [] Hn. apply co_open0, (count_impl _ live); [by intros []|].
  apply N.eqb_eq in Hn. congruence.
Qed.

Lemma with_same_redis s : with_redis s (redis s) (born s) = s.
Proof. by destruct s. Qed.

Lemma shrink_ok s r :
  shared_ok s -> (forall k e, entries r !! k = Some e -> entries (redis s) !! k = Some e) ->
  epoch r = None \/ epoch r = epoch (redis s) ->
  shared_ok (with_redis s r (born s)) /\ grows s (with_redis s r (born s)).
Proof.
  intros Hs He Hr. assert (Htop : (top s <= top (with_redis s r (born s)))%N).
  { unfold top at 2. simpl. destruct Hr as [-> | ->]; [by apply top_canonical|done]. }
  destruct Hs as [Hep Hb Hen Hset Hcl Hco]. split; split; simpl; try done.
  - intros g. destruct Hr as [-> | ->]; [done|apply Hep].
  - intros g h e Hg. by eapply Hen, He.
  - intros Hd. transitivity (top s); auto.
Qed.

Lemma Forall_grows s s' ts : grows s s' -> Forall (task_ok s) ts -> Forall (task_ok s') ts.
Proof. intros Hg H. eapply Forall_impl; [exact H|]. intros t. by apply task_ok_grows. Qed.

Lemma coherent_shared x s' :
  coherent x -> shared_ok s' /\ grows (shared x) s' -> active_mutations s' = active_mutations (shared x) ->
  generation_change s' = generation_change (shared x) -> settled s' = settled (shared x) ->
  canonical s' = canonical (shared x) -> coherent (Build_System s' (tasks x)).
Proof.
  intros [] [Hs Hg] Ha Hl Hset Hc. split; simpl; try done; try congruence; [by eapply Forall_grows|].
  rewrite Hset, Hc. done.
Qed.

Lemma abandon_rest t rest s : abandon t = Some rest -> task_ok s t ->
  Forall (task_ok s) (option_list rest) /\ count live (option_list rest) = N.b2n (live t)
  /\ count opens (option_list rest) = N.b2n (opens t) /\ count holds (option_list rest) = 0%N
  /\ length (option_list rest) <= 1.
Proof. destruct t; intros [= <-] H; simpl in *; repeat constructor; done. Qed.

Lemma step_coherent x y : coherent x -> step x y -> (marks (shared x) < MARK_LIMIT)%N -> coherent y.
Proof.
  intros Hx Hxy Hm. pose proof (coherent_settled _ Hx) as Hq.
  destruct Hxy as [c s pre t post Hf|s ts t He Hl|s pre t post rest Ha|s ts|s ts k]; simpl in *.
  - destruct Hx as [Hs Ht Hact Hlock Hopen Hlen]; simpl in *.
    apply Forall_app in Ht as [Hpre [Ht Hpost]%Forall_cons].
    destruct (action_kept c s t Hs Hf Hm Ht Hq) as (Hs'&Hg&Hrest).
    pose proof (action_rest_length c s t) as Hlr.
    assert (Hlimit : (active_mutations s < 2 ^ 63 + 1)%N).
    { pose proof (count_le_length live (pre ++ t :: post)). unfold TASK_LIMIT in *. lia. }
    split; simpl; [done| | | | |].
    + apply Forall_app; split; [by eapply Forall_grows|]. apply Forall_app; split; [|by eapply Forall_grows].
      destruct (action c t s).2; simpl; [constructor; [by apply Hrest|done]|done].
    + eapply count_replace; [|exact Hact]. apply action_active; [done|].
      intros ?. rewrite Hact. by apply count_at_least.
    + eapply count_replace; [|exact Hlock]. apply action_lock.
      intros Hh. pose proof (count_at_least holds pre t post Hh). destruct (generation_change s); simpl in *; [done|lia].
    + rewrite !count_app in *. simpl in Hopen. intros Hz.
      destruct (action_open c s t) as [|(->&->&Ho)]; [lia|done|]. apply Hopen. rewrite Ho. simpl. lia.
    + rewrite !length_app in *. simpl in Hlen. lia.
  - destruct Hx as [Hs Ht Hact Hlock Hopen Hlen]; simpl in *.
    split; simpl; try done; [by constructor; [destruct t|]|by destruct t..|unfold TASK_LIMIT in *; lia].
  - destruct Hx as [Hs Ht Hact Hlock Hopen Hlen]; simpl in *.
    apply Forall_app in Ht as [Hpre [Ht Hpost]%Forall_cons].
    destruct (abandon_rest t rest s Ha Ht) as (Hrest&Hl&Ho&Hh&Hlr).
    assert (Hg : shared_ok (if holds t then unlock s else s) /\ grows s (if holds t then unlock s else s)).
    { destruct (holds t); [by apply lock_ok|by split; [|apply grows_refl]]. }
    destruct Hg as [Hs' Hg].
    split; simpl; [done|by repeat apply Forall_app_2; eapply Forall_grows| | | |].
    + eapply count_replace; [|exact Hact]. rewrite Hl. by destruct (holds t).
    + eapply count_replace; [|exact Hlock]. rewrite Hh.
      pose proof (count_at_least holds pre t post) as Hc. destruct (holds t) eqn:E; simpl; [|done].
      specialize (Hc eq_refl). destruct (generation_change s); simpl in *; lia.
    + rewrite !count_app in *. simpl in Hopen. rewrite Ho. intros. destruct (holds t); simpl; apply Hopen; lia.
    + rewrite !length_app in *. simpl in Hlen. lia.
  - apply (coherent_shared _ _ Hx); simpl; try done. apply shrink_ok; [apply Hx|done|by left].
  - apply (coherent_shared _ _ Hx); simpl; try done. apply shrink_ok; [apply Hx| |by right].
    intros k' e He. simpl in He. by apply lookup_delete_Some in He as [_ He].
Qed.

Lemma connected_coherent x : connected x -> coherent x.
Proof.
  intros (Ht&Hc&Ha&Hl&Hm&Hs&Hep&Hen&Hb). split; rewrite ?Ht, ?Ha, ?Hl; simpl; try done.
  split.
  - intros g Hg. rewrite (Hep g Hg). by eexists.
  - intros g n Hg. rewrite (Hb g n Hg). lia.
  - intros g h e He. exists 0%N. split; [by eapply Hen|lia].
  - by rewrite Hs.
  - rewrite Hc. done.
  - rewrite Hc, Hm. done.
Qed.

Lemma step_marks x y : step x y -> (marks (shared x) <= marks (shared y))%N.
Proof.
  destruct 1; simpl; try done; [apply action_marks|by destruct (holds t)].
Qed.

Lemma reachable_coherent x : reachable x -> (marks (shared x) < MARK_LIMIT)%N -> coherent x.
Proof.
  intros (x0&H0&Hsteps). revert x Hsteps.
  refine (rtc_ind_r (fun x => (marks (shared x) < MARK_LIMIT)%N -> coherent x) x0 _ _).
  - intros _. by apply connected_coherent.
  - intros x y Hxy Hstep IH Hm. pose proof (step_marks _ _ Hstep). eapply step_coherent; [apply IH; lia|done|lia].
Qed.

(** ** What it gives *)

(** C32. A lookup that Redis answers with a cached response is never answered
    with content older than the content committed when the lookup began: in
    every reachable state, however requests, mutations, cancellations, lost
    replies, late commands and evictions interleaved, the version a found
    entry was rendered from is at least [since], the version that was canonical
    when its lookup passed the mutation check. *)
Theorem cached_response_is_not_stale x h since g v :
  reachable x -> (marks (shared x) < MARK_LIMIT)%N ->
  Found h since g (Some v) ∈ tasks x ->
  (since <= en_version v)%N.
Proof.
  intros Hx Hm Ht. destruct (reachable_coherent x Hx Hm) as [_ Hts _ _ _ _].
  rewrite Forall_forall in Hts. by destruct (Hts _ Ht).
Qed.

(** While a canonical mutation is in progress no lookup passes the mutation
    check; [active_mutations] counts exactly the guards alive, and
    [generation_change] is held by exactly one task when locked, by none when
    free: cancelled requests leak neither. *)
Theorem guards_are_counted_exactly x :
  reachable x -> (marks (shared x) < MARK_LIMIT)%N ->
  active_mutations (shared x) = count live (tasks x)
  /\ N.b2n (generation_change (shared x)) = count holds (tasks x)
  /\ (0 < count opens (tasks x) -> forall c h, action c (Lookup h) (shared x) = (shared x, None))%N.
Proof.
  intros Hx Hm. destruct (reachable_coherent x Hx Hm) as [_ _ Ha Hl _ _]. split_and!; [done..|].
  intros Ho c h. simpl. unfold no_active_mutations. rewrite Ha.
  destruct (N.eqb_spec (count live (tasks x)) 0) as [E|]; [|done].
  rewrite (count_impl opens live _ ltac:(by intros []) E) in Ho. lia.
Qed.

(** ** Repair *)



(** ** Schedules: executable runs *)

Inductive Move :=
| Act (c : Choice) (i : nat)
| Enter (t : Task)
| Abandon (i : nat)
| EvictEpoch
| EvictEntry (k : Generation * rstr).

Definition play1 (m : Move) (x : System) : option System :=
  let s := shared x in
  match m with
  | Act c i =>
      t ← tasks x !! i;
      if decide (born s !! fresh c = None)
      then Some (Build_System (action c t s).1 (take i (tasks x) ++ option_list (action c t s).2 ++ drop (S i) (tasks x)))
      else None
  | Enter t =>
      if enters t && (N.of_nat (length (tasks x)) <? TASK_LIMIT)%N then Some (Build_System s (t :: tasks x)) else None
  | Abandon i =>
      t ← tasks x !! i;
      rest ← abandon t;
      Some (Build_System (if holds t then unlock s else s) (take i (tasks x) ++ option_list rest ++ drop (S i) (tasks x)))
  | EvictEpoch => Some (Build_System (with_redis s {| epoch := None; entries := entries (redis s) |} (born s)) (tasks x))
  | EvictEntry k =>
      Some (Build_System (with_redis s {| epoch := epoch (redis s); entries := delete k (entries (redis s)) |} (born s)) (tasks x))
  end.
Definition play (ms : list Move) (x : System) : option System := foldl (fun o m => o ≫= play1 m) (Some x) ms.

Lemma play1_step m x y : play1 m x = Some y -> step x y.
Proof.
  destruct x as [s ts], m; simpl; intros H.
  - destruct (ts !! i) as [t|] eqn:E; simpl in H; [|done]. case_decide; [|done].
    simplify_eq. rewrite <- (take_drop_middle ts i t E) at 1. by apply step_action.
  - destruct (enters t) eqn:E, (N.ltb_spec (N.of_nat (length ts)) TASK_LIMIT); simplify_eq/=. by apply step_enter.
  - destruct (ts !! i) as [t|] eqn:E; simpl in H; [|done]. destruct (abandon t) as [rest|] eqn:Ea; simplify_eq/=.
    rewrite <- (take_drop_middle ts i t E) at 1. by apply step_abandon.
  - simplify_eq. apply step_evict_epoch.
  - simplify_eq. apply step_evict_entry.
Qed.
Lemma play_none ms : foldl (fun o m => o ≫= play1 m) None ms = None.
Proof. induction ms; simpl; auto. Qed.
Lemma play_steps ms x y : play ms x = Some y -> rtc step x y.
Proof.
  unfold play. revert x. induction ms as [|m ms IH]; simpl; intros x H; [by simplify_eq|].
  destruct (play1 m x) as [z|] eqn:E; [|by rewrite play_none in H].
  eapply rtc_l; [by eapply play1_step|by apply IH].
Qed.

(** A restarted process whose Redis still holds a response of epoch 7. *)
Definition restarted : System := {|
  shared := {|
    redis := {| epoch := Some 7%N; entries := {[ (7%N, [1%N]) := {| en_version := 0; en_bytes := [9%N] |} ]} |};
    active_mutations := 0; coherence := 1; generation_change := false; canonical := 4;
    born := {[ 7%N := 0%N ]}; settled := 4; marks := 0 |};
  tasks := [] |}.
Definition choose (fresh : N) : Choice :=
  {| fresh := fresh; reply := Answered; entry_is_valid := true; commits := true; encoded := [5%N] |}.
Definition burst (first : N) (n : nat) : list Move :=
  map (fun i => Act (choose (first + N.of_nat i)) 0) (seq 0 n).

(** One request repairs coherence and fills the cache; a mutation commits and
    its request is cancelled; the next request repairs again and fills the new
    generation, and the last one is answered by the cache. *)
Definition filled : list Move := Enter (Lookup [1%N]) :: burst 10 14.
Definition mutated : list Move := filled ++ Enter MutationBegin :: burst 30 3 ++ [Abandon 0] ++ burst 40 2.
Definition refilled : list Move := mutated ++ [Abandon 0; Enter (Lookup [1%N])] ++ burst 50 14.
Definition answered : list Move := refilled ++ Enter (Lookup [1%N]) :: burst 70 3.
Definition after (ms : list Move) : System := default restarted (play ms restarted).

Lemma restarted_connected : connected restarted.
Proof.
  repeat split; simpl; try done.
  - intros g [= <-]. by rewrite lookup_singleton_eq.
  - intros g h e [[= <- <-] _]%lookup_singleton_Some. by rewrite lookup_singleton_eq.
  - by intros g n [_ <-]%lookup_singleton_Some.
Qed.
Lemma after_reachable ms : is_some (play ms restarted) = true -> reachable (after ms).
Proof.
  destruct (play ms restarted) as [x|] eqn:Hx; [intros _|done]. exists restarted. split; [apply restarted_connected|].
  unfold after. rewrite Hx. by apply (play_steps ms).
Qed.

Lemma cached_response_is_not_stale_witness :
  exists h since g v, Found h since g (Some v) ∈ tasks (after answered) /\ (since <= en_version v)%N
  /\ since = canonical (shared (after answered)) /\ since <> canonical (shared restarted).
Proof.
  exists [1%N], 5%N, 58%N, {| en_version := 5; en_bytes := [5%N] |}.
  assert (Ht : tasks (after answered) = [Found [1%N] 5 58 (Some {| en_version := 5; en_bytes := [5%N] |})]) by (vm_compute; reflexivity).
  split_and!; [rewrite Ht; by constructor| |vm_compute; done|vm_compute; done].
  apply (cached_response_is_not_stale (after answered) [1%N] 5 58 {| en_version := 5; en_bytes := [5%N] |}).
  - apply after_reachable. vm_compute. reflexivity.
  - vm_compute; done.
  - rewrite Ht. by constructor.
Defined.

Lemma guards_are_counted_exactly_witness :
  active_mutations (shared (after mutated)) = count live (tasks (after mutated)).
Proof.
  apply (guards_are_counted_exactly (after mutated)); [apply after_reachable; vm_compute; reflexivity|vm_compute; done].
Defined.

