(* ===== verification/Signing.v ===== *)
(** * Signed browser and cache state: the shared cryptographic helpers

    [hmac_sha256] of [apps/server/src/main.rs] (which
    [apps/server/src/admin_auth.rs] repeats), over the parameters it is built
    on: [sha2], [base64] and [serde_json].  A signature that covers a message
    identifies it, or two different inputs of SHA-256 collide; the theorems of
    [CacheHttp] and [AdminAuth] are stated relative to that. *)

From Stdlib Require Import Bool NArith ZArith Lia.
From S2P Require Import Prelude Text Extern.

(** ** Third-party code *)

(** [Sha256::digest]: the 32 bytes. *)
Class DigestLib := sha256 : list N -> list N.

(** A [base64] engine: [encode] and [decode]. *)
Class Base64Engine := {
  b64_encode : list N -> rstr;
  b64_decode : rstr -> option (list N);
}.

(** [serde_json::to_vec] and [from_slice] on the value that is written or read;
    an object lists its entries in document order. *)
Class SerdeJson := {
  to_vec : Value -> list N;
  from_slice : list N -> option Value;
}.

(** The URL-safe Base64 alphabet. *)
Definition url_safe_char (c : N) : bool := is_ascii_alphanumeric c || (c =? 45)%N || (c =? 95)%N.
Definition is_bytes (l : list N) : Prop := Forall (fun b => (b < 256)%N) l.

Section digest.
Context `{DigestLib}.

Definition sha256_collides : Prop := exists x y, x <> y /\ sha256 x = sha256 y.

Lemma sha256_inj x y : sha256 x = sha256 y -> x = y \/ sha256_collides.
Proof. intros E. destruct (decide (x = y)) as [|Hne]; [by left|right; by exists x, y]. Qed.

(** ** HMAC *)

Definition BLOCK_SIZE : nat := 64.
(** [pad[index] ^= key_byte] over the bytes of the key. *)
Definition pad (byte : N) (key : list N) : list N :=
  (N.lxor byte <$> key) ++ replicate (BLOCK_SIZE - length key) byte.
Definition hmac_sha256 (key message : list N) : list N :=
  let inner_digest := sha256 (pad 54 key ++ message) in
  sha256 (pad 92 key ++ inner_digest).

Lemma lxor_inj b x y : N.lxor b x = N.lxor b y -> x = y.
Proof.
  intros E. apply (f_equal (N.lxor b)) in E. by rewrite <- !N.lxor_assoc, N.lxor_nilpotent, !N.lxor_0_l in E.
Qed.
Lemma pad_inj b k k' : length k = length k' -> pad b k = pad b k' -> k = k'.
Proof.
  unfold pad. intros Hl E. apply app_inj_1 in E as [E _]; [|by rewrite !length_fmap].
  clear Hl. revert k' E. induction k as [|x k IH]; intros [|y k'] [=]; [done|]. f_equal; [by apply (lxor_inj b)|by apply IH].
Qed.
Lemma pad_length b k : length k = 32 -> length (pad b k) = BLOCK_SIZE.
Proof. intros Hk. unfold pad. rewrite length_app, length_fmap, length_replicate, Hk. done. Qed.

(** An authentication code identifies the key and the message. *)
Lemma hmac_inj k k' m m' : length k = 32 -> length k' = 32 ->
  hmac_sha256 k m = hmac_sha256 k' m' -> (k = k' /\ m = m') \/ sha256_collides.
Proof.
  intros Hk Hk' E. apply sha256_inj in E as [E|]; [|by right].
  apply app_inj_1 in E as [_ E]; [|by rewrite !pad_length].
  apply sha256_inj in E as [E|]; [left|by right].
  apply app_inj_1 in E as [E ->]; [|by rewrite !pad_length]. split; [|done].
  apply (pad_inj 54); [congruence|done].
Qed.
End digest.

(** ** [BTreeMap<String, String>]: the entries in key order *)

Section btree.
Context {V : Type}.
Implicit Types l : list (rstr * V).

Fixpoint btree_insert (k : rstr) (v : V) l : list (rstr * V) :=
  match l with
  | [] => [(k, v)]
  | (k', v') :: rest =>
      if str_ltb k k' then (k, v) :: l
      else if str_eqb k k' then (k, v) :: rest
      else (k', v') :: btree_insert k v rest
  end.
Fixpoint btree_get (k : rstr) l : option V :=
  match l with
  | [] => None
  | (k', v) :: rest => if str_eqb k k' then Some v else btree_get k rest
  end.

Lemma btree_get_insert k v l : btree_get k (btree_insert k v l) = Some v.
Proof.
  assert (Hr : str_eqb k k = true) by by apply str_eqb_eq.
  induction l as [|[k' v'] l IH]; simpl; [by rewrite Hr|].
  destruct (str_ltb k k') eqn:?; simpl; [by rewrite Hr|].
  destruct (str_eqb k k') eqn:E; simpl; [by rewrite Hr|]. by rewrite E.
Qed.
Lemma btree_get_insert_ne k k' v l : k <> k' -> btree_get k (btree_insert k' v l) = btree_get k l.
Proof.
  intros Hne. assert (Hf : str_eqb k k' = false) by by apply bool_decide_eq_false_2.
  induction l as [|[k2 v2] l IH]; simpl; [by rewrite Hf|].
  destruct (str_ltb k' k2) eqn:?; simpl; [by rewrite Hf|].
  destruct (str_eqb k' k2) eqn:E; simpl.
  - apply str_eqb_eq in E as ->. by rewrite Hf.
  - by destruct (str_eqb k k2).
Qed.

(** The keys are strictly increasing. *)
Fixpoint btree_sorted l : Prop :=
  match l with
  | [] => True
  | (k, _) :: rest => Forall (fun kv => str_ltb k kv.1 = true) rest /\ btree_sorted rest
  end.

Lemma btree_insert_above k0 k v l :
  str_ltb k0 k = true -> Forall (fun kv => str_ltb k0 kv.1 = true) l ->
  Forall (fun kv => str_ltb k0 kv.1 = true) (btree_insert k v l).
Proof.
  intros Hk. induction 1 as [|[k' v'] l Hk' Hl IH]; simpl; [by repeat constructor|].
  destruct (str_ltb k k'); [by repeat constructor|]. destruct (str_eqb k k'); by constructor.
Qed.
Lemma btree_insert_sorted k v l : btree_sorted l -> btree_sorted (btree_insert k v l).
Proof.
  induction l as [|[k' v'] l IH]; simpl; [by repeat constructor|]. intros [Hk' Hl].
  destruct (str_ltb k k') eqn:E; simpl.
  - split_and!; [constructor; [done|]|done..]. eapply Forall_impl; [exact Hk'|]. intros kv ?. by eapply str_ltb_trans.
  - destruct (str_eqb k k') eqn:Ee; simpl.
    + apply str_eqb_eq in Ee as ->. done.
    + split; [|by apply IH]. apply btree_insert_above; [|done].
      destruct (str_ltb_total k k') as [|[->|]]; [congruence| |done].
      by rewrite (proj2 (str_eqb_eq _ _) eq_refl) in Ee.
Qed.
Lemma btree_insert_last k v l : Forall (fun kv => str_ltb kv.1 k = true) l -> btree_insert k v l = l ++ [(k, v)].
Proof.
  induction 1 as [|[k' v'] l Hk Hl IH]; simpl in *; [done|].
  destruct (str_ltb k k') eqn:E.
  - pose proof (str_ltb_trans _ _ _ E Hk) as F. by rewrite str_ltb_irrefl in F.
  - destruct (str_eqb k k') eqn:Ee; [|by f_equal].
    apply str_eqb_eq in Ee as ->. by rewrite str_ltb_irrefl in Hk.
Qed.
End btree.

(** ** Small concrete instances *)

Module ToySigning.
(** Not collision-free, as no concrete function is. *)
#[export] Instance toy_digest : DigestLib := fun data =>
  let h := Toy.toy_checksum data in (fun i => (h / 2 ^ (8 * (N.of_nat i mod 2)) mod 256)%N) <$> seq 0 32.

(** The URL-safe alphabet, without padding. *)
Definition sextet_char (v : N) : N :=
  (if v <? 26 then 65 + v else if v <? 52 then 71 + v else if v <? 62 then v - 4 else if v =? 62 then 45 else 95)%N.
Definition char_sextet (c : N) : option N :=
  if in_range 65 90 c then Some (c - 65)%N else if in_range 97 122 c then Some (c - 71)%N
  else if in_range 48 57 c then Some (c + 4)%N else if (c =? 45)%N then Some 62%N
  else if (c =? 95)%N then Some 63%N else None.
Fixpoint url_safe_encode (l : list N) : rstr :=
  match l with
  | a :: b :: c :: rest =>
      map sextet_char [a / 4; (a mod 4) * 16 + b / 16; (b mod 16) * 4 + c / 64; c mod 64]%N ++ url_safe_encode rest
  | [a; b] => map sextet_char [a / 4; (a mod 4) * 16 + b / 16; (b mod 16) * 4]%N
  | [a] => map sextet_char [a / 4; (a mod 4) * 16]%N
  | [] => []
  end.
Fixpoint sextets (s : list N) : option (list N) :=
  match s with
  | w :: x :: y :: z :: rest =>
      app [w * 4 + x / 16; (x mod 16) * 16 + y / 4; (y mod 4) * 64 + z]%N <$> sextets rest
  | [w; x; y] => Some [w * 4 + x / 16; (x mod 16) * 16 + y / 4]%N
  | [w; x] => Some [w * 4 + x / 16]%N
  | [] => Some []
  | _ => None
  end.
Definition url_safe_decode (s : rstr) : option (list N) := mapM char_sextet s ≫= sextets.
#[export] Instance toy_base64 : Base64Engine := { b64_encode := url_safe_encode; b64_decode := url_safe_decode }.

Fixpoint raw_sextets (l : list N) : list N :=
  match l with
  | a :: b :: c :: rest => [a / 4; (a mod 4) * 16 + b / 16; (b mod 16) * 4 + c / 64; c mod 64]%N ++ raw_sextets rest
  | [a; b] => [a / 4; (a mod 4) * 16 + b / 16; (b mod 16) * 4]%N
  | [a] => [a / 4; (a mod 4) * 16]%N
  | [] => []
  end.

(** Induction three bytes at a time. *)
Lemma bytes_ind (P : list N -> Prop) :
  P [] -> (forall a, P [a]) -> (forall a b, P [a; b]) -> (forall a b c l, P l -> P (a :: b :: c :: l)) -> forall l, P l.
Proof.
  intros H0 H1 H2 H3. fix IH 1. intros [|a [|b [|c l]]]; [exact H0|apply H1|apply H2|apply H3, IH].
Qed.

#[local] Ltac Zify.zify_post_hook ::= Z.to_euclidean_division_equations.

Lemma raw_encode l : url_safe_encode l = map sextet_char (raw_sextets l).
Proof. induction l as [|a|a b|a b c l IH] using bytes_ind; [done..|]. simpl. by rewrite IH. Qed.
Lemma raw_small l : is_bytes l -> Forall (fun v => (v < 64)%N) (raw_sextets l).
Proof.
  unfold is_bytes. induction l as [|a|a b|a b c l IH] using bytes_ind; rewrite ?Forall_cons; simpl; intros Hb;
    repeat constructor; try lia. apply IH. naive_solver.
Qed.
Lemma raw_round_trip l : is_bytes l -> sextets (raw_sextets l) = Some l.
Proof.
  unfold is_bytes. induction l as [|a|a b|a b c l IH] using bytes_ind; rewrite ?Forall_cons; simpl; intros Hb;
    [done|repeat f_equal; lia..|].
  rewrite IH by naive_solver. simpl. repeat f_equal; lia.
Qed.
Lemma below_64 (p : N -> bool) v : forallb p (N.of_nat <$> seq 0 64) = true -> (v < 64)%N -> p v = true.
Proof.
  rewrite forallb_forall. intros Hp Hv. apply Hp, list_elem_of_In, list_elem_of_fmap.
  exists (N.to_nat v). split; [lia|]. apply elem_of_seq. lia.
Qed.
Lemma char_sextet_char v : (v < 64)%N -> char_sextet (sextet_char v) = Some v.
Proof.
  intros Hv. pose proof (below_64 (fun v => bool_decide (char_sextet (sextet_char v) = Some v)) v ltac:(by vm_compute) Hv) as H.
  by apply bool_decide_eq_true in H.
Qed.
Lemma b64_round_trip l : is_bytes l -> b64_decode (b64_encode l) = Some l.
Proof.
  intros Hl. simpl. unfold url_safe_decode. rewrite raw_encode.
  assert (mapM char_sextet (map sextet_char (raw_sextets l)) = Some (raw_sextets l)) as ->.
  { apply mapM_Some_2. apply raw_small in Hl. induction Hl; simpl; constructor; [by apply char_sextet_char|done]. }
  simpl. by apply raw_round_trip.
Qed.

Lemma b64_alphabet l : is_bytes l -> Forall (fun c => url_safe_char c = true) (b64_encode l).
Proof.
  intros Hl. simpl. rewrite raw_encode. apply raw_small in Hl. apply Forall_map. eapply Forall_impl; [exact Hl|].
  intros v Hv. by apply (below_64 (fun v => url_safe_char (sextet_char v)) v ltac:(by vm_compute)).
Qed.

(** Four characters for three bytes. *)
Lemma sextet_ascii v : (sextet_char v < 128)%N.
Proof.
  unfold sextet_char. repeat match goal with
  | |- context [(?a <? ?b)%N] => destruct (N.ltb_spec a b)
  | |- context [(?a =? ?b)%N] => destruct (N.eqb_spec a b)
  end; lia.
Qed.
Lemma b64_length l : (str_len (b64_encode l) <= (size_of l + 3 - 1) / 3 * 4)%N.
Proof.
  assert (str_len (b64_encode l) = size_of (raw_sextets l)) as ->.
  { unfold str_len, size_of. simpl. rewrite raw_encode, bytes_of_ascii; [by rewrite length_map|].
    apply Forall_map, Forall_forall. intros v _. apply sextet_ascii. }
  unfold size_of. induction l as [|a|a b|a b c l IH] using bytes_ind; simpl raw_sextets; rewrite ?length_app; simpl length; lia.
Qed.

(** JSON text as the base-256 digits of a number that names the value. *)
Fixpoint digits (fuel : nat) (n : N) : list N :=
  match fuel with
  | O => []
  | S fuel => if (n =? 0)%N then [] else (n mod 256)%N :: digits fuel (n / 256)
  end.
Definition of_digits (l : list N) : N := foldr (fun d n => d + 256 * n)%N 0%N l.
#[export] Instance toy_json : SerdeJson := {
  to_vec v := digits (Pos.size_nat (encode v)) (Npos (encode v));
  from_slice l := match of_digits l with Npos p => decode p | N0 => None end;
}.
Lemma of_digits_digits fuel n : (n < 2 ^ N.of_nat fuel)%N -> of_digits (digits fuel n) = n.
Proof.
  revert n. induction fuel as [|fuel IH]; intros n Hn; [cbn in *; lia|]. cbn [digits].
  destruct (N.eqb_spec n 0) as [->|Hne]; [done|]. cbn [of_digits foldr]. fold (of_digits (digits fuel (n / 256))).
  rewrite Nat2N.inj_succ, N.pow_succ_r' in Hn. rewrite IH by lia. lia.
Qed.
Lemma digits_bytes fuel n : is_bytes (digits fuel n).
Proof.
  revert n. induction fuel as [|fuel IH]; intros n; cbn; [constructor|].
  destruct (n =? 0)%N; constructor; [by apply N.mod_lt|apply IH].
Qed.
Lemma json_bytes v : is_bytes (to_vec v).
Proof. apply digits_bytes. Qed.
Lemma size_bound p : (Npos p < 2 ^ N.of_nat (Pos.size_nat p))%N.
Proof.
  induction p as [p IH|p IH|]; cbn [Pos.size_nat]; [..|done];
    rewrite Nat2N.inj_succ, N.pow_succ_r'; lia.
Qed.
Lemma json_round_trip v : from_slice (to_vec v) = Some v.
Proof.
  cbn [from_slice to_vec toy_json]. rewrite of_digits_digits by apply size_bound. apply decode_encode.
Qed.
End ToySigning.
