(* ===== verification/CacheHttp.v ===== *)
(** * The response cache at the HTTP boundary

    [apps/server/src/main.rs]: what the semantic-cache middleware stores, how
    an entry is signed, checked and turned back into a response, and which
    paths are cacheable at all.  The protocol that decides when an entry may be
    read is [Cache]. *)

From Stdlib Require Import Bool NArith ZArith Lia.
From S2P Require Import Prelude Text Extern Signing.

(** ** Responses *)

Record Response := {
  status : N;
  headers : list (rstr * list N);
  body : list N;
}.
Definition CONTENT_TYPE : rstr := lit "content-type".
Definition CACHE_CONTROL : rstr := lit "cache-control".
Definition ETAG : rstr := lit "etag".
Definition CONTENT_LANGUAGE : rstr := lit "content-language".
Definition VARY : rstr := lit "vary".
(** The allowlist, in the order both loops use. *)
Definition cached_names : list rstr := [CONTENT_TYPE; CACHE_CONTROL; ETAG; CONTENT_LANGUAGE; VARY].

(** [http::HeaderValue]: [to_str] and [try_from]. *)
Class HeaderLib := {
  header_to_str : list N -> option rstr;
  header_try_from : rstr -> option (list N);
}.
(** [HeaderMap::get]: the first value of the name. *)
Fixpoint header_get (name : rstr) (hs : list (rstr * list N)) : option (list N) :=
  match hs with
  | [] => None
  | (n, v) :: hs => if str_eqb name n then Some v else header_get name hs
  end.

Record CachedPublicResponse := {
  cp_schema_version : rstr;
  cp_headers : list (rstr * rstr);
  cp_body_base64 : rstr;
  cp_signature : rstr;
}.
Definition MAX_PUBLIC_RESPONSE_BYTES : N := 64 * 1024 * 1024.
Definition MAX_CACHED_ENTRY_BYTES : N := 86 * 1024 * 1024.
Definition cache_schema : rstr := lit "open-soverign-blog-http-cache/4".

(** ** The derived [serde] code *)

Definition headers_value (hs : list (rstr * rstr)) : Value := JObject ((fun kv => (kv.1, JString kv.2)) <$> hs).
Definition cached_serialize (c : CachedPublicResponse) : Value :=
  JObject [(lit "schemaVersion", JString (cp_schema_version c)); (lit "headers", headers_value (cp_headers c));
           (lit "bodyBase64", JString (cp_body_base64 c)); (lit "signature", JString (cp_signature c))].
Definition signature_payload (route_hash generation : rstr) (c : CachedPublicResponse) : Value :=
  JObject [(lit "routeHash", JString route_hash); (lit "generation", JString generation);
           (lit "schemaVersion", JString (cp_schema_version c)); (lit "headers", headers_value (cp_headers c));
           (lit "bodyBase64", JString (cp_body_base64 c))].

Definition string_of (v : Value) : option rstr := match v with JString s => Some s | _ => None end.
Fixpoint headers_of_entries (l : list (rstr * Value)) (acc : list (rstr * rstr)) : option (list (rstr * rstr)) :=
  match l with
  | [] => Some acc
  | (k, v) :: l => s ← string_of v; headers_of_entries l (btree_insert k s acc)
  end.
Definition headers_of (v : Value) : option (list (rstr * rstr)) :=
  match v with JObject l => headers_of_entries l [] | _ => None end.
(** A field is present exactly once; unknown fields are ignored. *)
Definition one_field (name : string) (l : list (rstr * Value)) : option Value :=
  match List.filter (fun kv => str_eqb kv.1 (lit name)) l with
  | [(_, v)] => Some v
  | _ => None
  end.
Definition cached_of_value (v : Value) : option CachedPublicResponse :=
  match v with
  | JObject l =>
      schema_version ← one_field "schemaVersion" l ≫= string_of;
      hs ← one_field "headers" l ≫= headers_of;
      body_base64 ← one_field "bodyBase64" l ≫= string_of;
      signature ← one_field "signature" l ≫= string_of;
      Some {| cp_schema_version := schema_version; cp_headers := hs; cp_body_base64 := body_base64;
              cp_signature := signature |}
  | _ => None
  end.

(** ** Signing, storing and serving *)

Section http.
Context `{DigestLib, Base64Engine, SerdeJson, HeaderLib}.

Definition sign_cached_response (c : CachedPublicResponse) (signing_key : list N) (route_hash generation : rstr) : rstr :=
  b64_encode (hmac_sha256 signing_key (to_vec (signature_payload route_hash generation c))).
(** [ct_eq] compares the bytes. *)
Definition verify_cached_response (c : CachedPublicResponse) (signing_key : list N) (route_hash generation : rstr) : bool :=
  match b64_decode (cp_signature c), b64_decode (sign_cached_response c signing_key route_hash generation) with
  | Some provided, Some expected => bool_decide (provided = expected)
  | _, _ => false
  end.

(** The loop that keeps the readable headers of the allowlist. *)
Definition collect_headers (hs : list (rstr * list N)) : list (rstr * rstr) :=
  fold_left (fun acc name => match header_get name hs ≫= header_to_str with
                             | Some v => btree_insert name v acc
                             | None => acc
                             end) cached_names [].
(** The entry the middleware stores for an origin response. *)
Definition cache_entry (hs : list (rstr * list N)) (bytes : list N) (signing_key : list N)
    (route_hash generation : rstr) : CachedPublicResponse :=
  let cached := {| cp_schema_version := cache_schema; cp_headers := collect_headers hs;
                   cp_body_base64 := b64_encode bytes; cp_signature := [] |} in
  {| cp_schema_version := cp_schema_version cached; cp_headers := cp_headers cached;
     cp_body_base64 := cp_body_base64 cached;
     cp_signature := sign_cached_response cached signing_key route_hash generation |}.

(** [builder.header(name, HeaderValue::try_from(value).ok()?)] *)
Fixpoint restore_headers (names : list rstr) (hs : list (rstr * rstr)) : option (list (rstr * list N)) :=
  match names with
  | [] => Some []
  | name :: names =>
      match btree_get name hs with
      | Some value => v ← header_try_from value; rest ← restore_headers names hs; Some ((name, v) :: rest)
      | None => restore_headers names hs
      end
  end.
Definition not_modified (hs : list (rstr * rstr)) (if_none_match : option rstr) : bool :=
  is_some_and (fun etag =>
    is_some_and (fun candidates =>
      existsb (fun candidate => str_eqb candidate etag || str_eqb candidate (lit "*")) (trim <$> split 44 candidates))
      if_none_match) (btree_get ETAG hs).
Definition div_ceil (a b : N) : N := (a + b - 1) / b.
Definition cached_response (c : CachedPublicResponse) (if_none_match : option rstr) (signing_key : list N)
    (route_hash generation : rstr) : option Response :=
  if negb (verify_cached_response c signing_key route_hash generation) then None
  else
    let unchanged := not_modified (cp_headers c) if_none_match in
    hs ← restore_headers cached_names (cp_headers c);
    body ← (if unchanged then Some []
            else if (div_ceil MAX_PUBLIC_RESPONSE_BYTES 3 * 4 <? str_len (cp_body_base64 c))%N then None
            else decoded ← b64_decode (cp_body_base64 c);
                 if (MAX_PUBLIC_RESPONSE_BYTES <? size_of decoded)%N then None else Some decoded);
    Some {| status := if unchanged then 304 else 200; headers := hs; body := body |}.

(** What the middleware does with the bytes a lookup found: [None] renders the
    origin. *)
Definition serve_hit (value : list N) (if_none_match : option rstr) (signing_key : list N)
    (route_hash generation : rstr) : option Response :=
  if (size_of value <=? MAX_CACHED_ENTRY_BYTES)%N
  then c ← from_slice value ≫= cached_of_value;
       if str_eqb (cp_schema_version c) cache_schema
       then cached_response c if_none_match signing_key route_hash generation else None
  else None.
End http.

(** ** Which paths may be cached *)

(** What the path predicates read of the application state. *)
Record PathState := {
  ps_article_base_path : rstr;
  ps_references : bool;
}.

Definition RESERVED_CATEGORIES : list rstr :=
  lit <$> ["api"; "assets"; "blog"; "docs"; "healthz"; "livez"; "login"; "media"; "onboarding"; "openapi";
           "providers"; "readyz"; "schemas"; "studio"; "vendor"]%string.
Definition member (s : rstr) (l : list rstr) : bool := existsb (str_eqb s) l.
Definition first_segment (path : rstr) : rstr := default [] (head (split 47 (trim_matches 47 path))).

(** [strip_suffix('/').unwrap_or(path)] *)
Definition strip_slash (path : rstr) : rstr :=
  match rev path with 47%N :: rest => rev rest | _ => path end.
Definition category_segment (st : PathState) (category : rstr) : bool :=
  negb (member category RESERVED_CATEGORIES
        || (ps_references st && str_eqb category (lit "references"))
        || str_eqb category (first_segment (ps_article_base_path st))
        || negb (within 1 40 (str_len category))
        || starts_with (lit "-") category || ends_with (lit "-") category)
  && forallb (fun c => is_ascii_lowercase c || is_ascii_digit c || (c =? 45)%N) category.
Definition primary_category_public_path (st : PathState) (path : rstr) : bool :=
  match strip_prefix (lit "/") path with
  | None => false
  | Some path =>
      match split 47 (strip_slash path) with
      | [category] => category_segment st category
      | [category; post] => negb (is_empty post || (720 <? str_len post)%N) && category_segment st category
      | _ => false
      end
  end.
Definition public_cache_path (st : PathState) (path : rstr) : bool :=
  starts_with (lit "/@") path
  || primary_category_public_path st path
  || str_eqb path (lit "/api/v1/home")
  || str_eqb path (lit "/api/v1/references")
  || (ps_references st && member path [lit "/references"; lit "/references/"])
  || str_eqb path (lit "/api/v1/feed")
  || str_eqb path (lit "/api/v1/blogs")
  || starts_with (lit "/api/v1/blogs/") path
  || str_eqb path (lit "/api/v1/primary/categories")
  || starts_with (lit "/api/v1/primary/categories/") path
  || str_eqb path (lit "/api/v1/primary/series")
  || starts_with (lit "/api/v1/primary/series/") path
  || starts_with (lit "/api/v1/posts/") path
  || str_eqb path (lit "/api/v1/posts")
  || str_eqb path (lit "/robots.txt")
  || str_eqb path (lit "/sitemap.xml")
  || str_eqb path (lit "/agent.txt")
  || str_eqb path (lit "/agents.txt")
  || str_eqb path (lit "/llms.txt")
  || starts_with (lit "/" ++ trim_matches 47 (ps_article_base_path st) ++ lit "/") path.

Inductive Method := GET | HEAD | POST | PUT | PATCH | DELETE | OtherMethod.
#[export] Instance method_eq_dec : EqDecision Method.
Proof. solve_decision. Defined.
Definition mutation_changes_public (method : Method) (path : rstr) : bool :=
  match method with
  | POST | PUT | PATCH | DELETE =>
      member path (lit <$> ["/api/v1/blogs"; "/api/v1/posts"; "/api/v1/admin/home/pins"; "/api/v1/studio/settings";
                            "/api/v1/studio/categories"; "/api/v1/studio/series"; "/api/v1/studio/series/promote"]%string)
      || (starts_with (lit "/api/v1/studio/categories/") path
          && (ends_with (lit "/archive") path || bool_decide (method = PUT)))
      || (starts_with (lit "/api/v1/studio/series/") path
          && (ends_with (lit "/archive") path || ends_with (lit "/items") path || bool_decide (method = PUT)))
      || ends_with (lit "/publish") path
      || (starts_with (lit "/api/v1/posts/") path && ends_with (lit "/comments") path)
  | _ => false
  end.

(** [request_accepts_html], of the [Accept] header as text; [None] in the outer
    option is an absent header, in the inner one an unreadable one. *)
Definition request_accepts_html (accept : option (option rstr)) : bool :=
  match accept with
  | None => true
  | Some value =>
      is_some_and (fun value =>
        existsb (fun item =>
          let media_range := default [] (trim <$> head (split 59 item)) in
          str_eqb (to_ascii_lowercase media_range) (lit "text/html") || str_eqb media_range (lit "*/*"))
          (split 44 value)) value
  end.

(** [validate_article_base_path] of [apps/server/src/config.rs]. *)
Definition RESERVED_ROOTS : list rstr :=
  lit <$> [".well-known"; "agent.txt"; "agents.txt"; "api"; "assets"; "custom.css"; "docs"; "login"; "llms.txt"; "media";
           "onboarding"; "openapi"; "providers"; "robots.txt"; "schemas"; "sitemap.xml"; "studio"; "vendor"]%string.
Definition validate_article_base_path (value : rstr) (references_enabled : bool) : bool :=
  negb (member (first_segment value) RESERVED_ROOTS
        || (references_enabled && str_eqb (first_segment value) (lit "references"))).

(** ** An entry is bound to its route and generation *)

Section binding.
Context `{DigestLib, Base64Engine, SerdeJson, HeaderLib}.
(** [base64]: what is encoded decodes to itself. *)
Hypothesis b64_round_trip : forall l, is_bytes l -> b64_decode (b64_encode l) = Some l.
(** [sha2]: a digest is bytes. *)
Hypothesis digest_bytes : forall m, is_bytes (sha256 m).

Lemma headers_value_inj hs hs' : headers_value hs = headers_value hs' -> hs = hs'.
Proof.
  unfold headers_value. intros [= E]. revert hs' E.
  induction hs as [|[n v] hs IH]; intros [|[n' v'] hs'] [=]; [done|]. subst. f_equal. by apply IH.
Qed.

Lemma hmac_decodes k m : b64_decode (b64_encode (hmac_sha256 k m)) = Some (hmac_sha256 k m).
Proof. apply b64_round_trip, digest_bytes. Qed.

(** C19. A cached response is served only under the signature the server made
    for exactly that response: if an entry is accepted for a route and a
    generation while carrying a signature the server once made, then that
    signature was made with the same key for the same route, generation,
    schema, headers and body, or two inputs of SHA-256 collide.  Moving an
    entry to another route or to a later generation, or changing any field of
    it, is refused. *)
Theorem cached_entry_is_bound c k route generation c0 k0 route0 generation0
  (json_inj : to_vec (signature_payload route generation c) = to_vec (signature_payload route0 generation0 c0) ->
              signature_payload route generation c = signature_payload route0 generation0 c0) :
  length k = 32 -> length k0 = 32 ->
  verify_cached_response c k route generation = true ->
  cp_signature c = sign_cached_response c0 k0 route0 generation0 ->
  (k = k0 /\ route = route0 /\ generation = generation0 /\ cp_schema_version c = cp_schema_version c0
   /\ cp_headers c = cp_headers c0 /\ cp_body_base64 c = cp_body_base64 c0) \/ sha256_collides.
Proof.
  intros Hk Hk0 Hv Hs. unfold verify_cached_response, sign_cached_response in *.
  rewrite Hs, !hmac_decodes in Hv. apply bool_decide_eq_true in Hv. symmetry in Hv.
  apply hmac_inj in Hv as [[-> Hm]|]; [left|by right|done..].
  apply json_inj in Hm. unfold signature_payload in Hm. injection Hm as -> -> -> Hh ->.
  apply (f_equal JObject), headers_value_inj in Hh. done.
Qed.

Lemma signed_entry_verifies hs bytes k route generation :
  verify_cached_response (cache_entry hs bytes k route generation) k route generation = true.
Proof.
  unfold verify_cached_response. simpl. unfold sign_cached_response, signature_payload. simpl.
  rewrite !hmac_decodes. by apply bool_decide_eq_true.
Qed.

(** ** A hit replays the origin *)

(** [http]: a readable header value is accepted back as it was. *)
Hypothesis header_round_trip : forall v s, header_to_str v = Some s -> header_try_from s = Some v.
(** [serde_json]: what is written is read. *)
Hypothesis json_round_trip : forall v, from_slice (to_vec v) = Some v.
(** [base64]: four ASCII characters for three bytes, rounded up. *)
Hypothesis b64_length : forall l, (str_len (b64_encode l) <= div_ceil (size_of l) 3 * 4)%N.

Definition readable (hs : list (rstr * list N)) (name : rstr) : option (rstr * list N) :=
  v ← header_get name hs; _ ← header_to_str v; Some (name, v).

Definition collect (hs : list (rstr * list N)) names acc : list (rstr * rstr) :=
  fold_left (fun acc name => match header_get name hs ≫= header_to_str with
                             | Some v => btree_insert name v acc
                             | None => acc
                             end) names acc.

Lemma collect_get hs names name acc : NoDup names ->
  btree_get name (collect hs names acc)
  = if bool_decide (name ∈ names) then match header_get name hs ≫= header_to_str with
                                       | Some v => Some v
                                       | None => btree_get name acc
                                       end
    else btree_get name acc.
Proof.
  intros Hnd. revert acc. induction Hnd as [|n names Hn Hnd IH]; intros acc; simpl; [done|].
  rewrite IH. destruct (decide (name = n)) as [->|Hne].
  - rewrite bool_decide_eq_false_2, bool_decide_eq_true_2 by (done || by constructor).
    destruct (header_get n hs ≫= header_to_str); [apply btree_get_insert|done].
  - assert (Hb : bool_decide (name ∈ n :: names) = bool_decide (name ∈ names)).
    { apply bool_decide_ext. rewrite elem_of_cons. naive_solver. }
    rewrite Hb. destruct (header_get n hs ≫= header_to_str) eqn:E; [|done].
    by rewrite !btree_get_insert_ne by done.
Qed.

#[local] Arguments collect : simpl never.
#[local] Arguments collect_headers : simpl never.

Lemma restore_collected hs names : (forall n, n ∈ names -> n ∈ cached_names) ->
  restore_headers names (collect_headers hs) = Some (omap (readable hs) names).
Proof.
  change (collect_headers hs) with (collect hs cached_names []).
  intros Hin. induction names as [|n names IH]; simpl; [done|]. rewrite collect_get.
  2:{ unfold cached_names. repeat constructor; rewrite ?elem_of_cons, ?elem_of_nil; by vm_compute; naive_solver. }
  rewrite bool_decide_eq_true_2 by (apply Hin; by constructor).
  unfold readable at 1. specialize (IH (fun n' Hn' => Hin n' (list_elem_of_further _ _ _ Hn'))).
  destruct (header_get n hs) as [v|]; simpl; [|done].
  destruct (header_to_str v) as [x|] eqn:E; simpl; [|done]. rewrite (header_round_trip _ _ E). simpl. by rewrite IH.
Qed.

Lemma collect_sorted hs names acc : btree_sorted acc -> btree_sorted (collect hs names acc).
Proof.
  revert acc. induction names as [|n names IH]; intros acc Ha; [done|].
  change (btree_sorted (collect hs names (match header_get n hs ≫= header_to_str with
                                          | Some v => btree_insert n v acc | None => acc end))).
  apply IH. destruct (header_get n hs ≫= header_to_str); [by apply btree_insert_sorted|done].
Qed.

Lemma headers_read_back l acc :
  btree_sorted l -> Forall (fun kv => Forall (fun kv' => str_ltb kv.1 kv'.1 = true) l) acc ->
  headers_of_entries ((fun kv => (kv.1, JString kv.2)) <$> l) acc = Some (acc ++ l).
Proof.
  revert acc. induction l as [|[k v] l IH]; intros acc Hs Hacc; simpl; [by rewrite app_nil_r|].
  destruct Hs as [Hk Hs]. rewrite btree_insert_last.
  2:{ eapply Forall_impl; [exact Hacc|]. intros kv Hkv. by apply Forall_cons in Hkv as [Hkv _]. }
  rewrite IH; [by rewrite <- app_assoc|done|].
  apply Forall_app; split; [|by repeat constructor].
  eapply Forall_impl; [exact Hacc|]. intros kv Hkv. by apply Forall_cons in Hkv as [_ Hkv].
Qed.

Lemma entry_reads_back hs bytes k route generation :
  let c := cache_entry hs bytes k route generation in
  cached_of_value (cached_serialize c) = Some c.
Proof.
  unfold cached_of_value, cached_serialize, one_field. simpl.
  change (collect_headers hs) with (collect hs cached_names []).
  rewrite headers_read_back by (by apply collect_sorted || constructor). done.
Qed.

(** Filling and hitting the cache is transparent: an entry stored for an
    origin response with status 200 is served, for the same route, generation
    and key, with exactly the readable allowlisted headers of the origin, in
    the fixed order, and with the origin's body and status 200, or with an
    empty body and status 304 when the request's If-None-Match names the
    entity tag. *)
Theorem cached_hit_replays_the_origin hs bytes k route generation if_none_match :
  let c := cache_entry hs bytes k route generation in
  let value := to_vec (cached_serialize c) in
  let unchanged := not_modified (collect_headers hs) if_none_match in
  is_bytes bytes -> (size_of bytes <= MAX_PUBLIC_RESPONSE_BYTES)%N -> (size_of value <= MAX_CACHED_ENTRY_BYTES)%N ->
  serve_hit value if_none_match k route generation
  = Some {| status := if unchanged then 304 else 200; headers := omap (readable hs) cached_names;
            body := if unchanged then [] else bytes |}.
Proof.
  intros c value unchanged Hb Hsize Hvalue. unfold serve_hit.
  rewrite (proj2 (N.leb_le _ _) Hvalue). unfold value. rewrite json_round_trip. cbn [mbind option_bind].
  rewrite (entry_reads_back hs bytes k route generation : cached_of_value (cached_serialize c) = Some c).
  cbn [mbind option_bind].
  rewrite (proj2 (str_eqb_eq (cp_schema_version c) cache_schema) eq_refl). unfold cached_response.
  rewrite (signed_entry_verifies hs bytes k route generation : verify_cached_response c k route generation = true).
  change (cp_headers c) with (collect_headers hs). change (cp_body_base64 c) with (b64_encode bytes).
  rewrite restore_collected by done. fold unchanged. cbn. destruct unchanged; [done|].
  rewrite (proj2 (N.ltb_ge _ _)).
  2:{ etransitivity; [apply b64_length|]. apply N.mul_le_mono_r. unfold div_ceil. apply N.Div0.div_le_mono. lia. }
  rewrite b64_round_trip by done. cbn. by rewrite (proj2 (N.ltb_ge _ _)).
Qed.
End binding.

(** ** What is never cached *)

(** The routers of administration, studio, sessions and credentials, the
    uploads, and the client-side pages behind a session. *)
Definition private_roots : list rstr :=
  lit <$> ["/api/v1/admin"; "/api/v1/studio"; "/api/v1/session"; "/api/v1/auth"; "/api/v1/documents"; "/api/v1/ai2ai";
           "/api/v1/code-runner"; "/api/v1/assets"; "/studio"; "/login"; "/onboarding"; "/media"; "/assets"]%string.
Definition under (root path : rstr) : bool := str_eqb path root || starts_with (root ++ lit "/") path.

Lemma split_head d s r : head (split d (s ++ d :: r)) = head (split d s).
Proof.
  induction s as [|c s IH]; simpl; [by rewrite N.eqb_refl|].
  destruct (c =? d)%N; [done|]. destruct (split d (s ++ d :: r)), (split d s); simpl in *; congruence.
Qed.
Lemma strip_slash_head s : head (split 47 (strip_slash s)) = head (split 47 s).
Proof.
  unfold strip_slash. destruct (rev s) as [|c r] eqn:E; [done|].
  destruct (decide (c = 47%N)) as [->|Hne].
  - apply (f_equal (@rev _)) in E. rewrite rev_involutive in E. simpl in E. by rewrite E, split_head.
  - by repeat case_match; simplify_eq.
Qed.

Lemma member_true s l : member s l = true <-> s ∈ l.
Proof.
  unfold member. rewrite existsb_exists, list_elem_of_In. setoid_rewrite str_eqb_eq.
  split; [by intros (x&?&->)|by exists s].
Qed.
Lemma comparable_prefixes p q s : starts_with p s = true -> starts_with q s = true -> starts_with p q || starts_with q p = true.
Proof.
  intros [a ->]%starts_with_true [b E]%starts_with_true. apply orb_true_iff.
  apply app_eq_inv in E as [[k [-> ->]]|[k [-> ->]]]; [right|left]; apply starts_with_true; by eexists.
Qed.
Lemma under_starts root path : under root path = true -> starts_with root path = true.
Proof.
  unfold under. rewrite orb_true_iff. intros [->%str_eqb_eq|[r ->]%starts_with_true]; apply starts_with_true.
  - exists []. by rewrite app_nil_r.
  - rewrite <- app_assoc. by eexists.
Qed.

(** The segment that a private root fixes. *)
Lemma under_segment root path : root ∈ private_roots -> under root path = true ->
  exists rest seg, path = 47%N :: rest /\ head (split 47 rest) = Some seg
    /\ member seg RESERVED_CATEGORIES = true /\ member seg RESERVED_ROOTS = true.
Proof.
  intros Hr Hu.
  assert (Hroot : exists rest seg, root = 47%N :: rest /\ head (split 47 rest) = Some seg
    /\ member seg RESERVED_CATEGORIES = true /\ member seg RESERVED_ROOTS = true).
  { revert root Hr Hu. assert (Forall (fun root => exists rest seg, root = 47%N :: rest /\ head (split 47 rest) = Some seg
      /\ member seg RESERVED_CATEGORIES = true /\ member seg RESERVED_ROOTS = true) private_roots) as HF.
    { unfold private_roots. repeat (constructor; [eexists _, _; by vm_compute|]). constructor. }
    intros root Hr _. by rewrite Forall_forall in HF; apply HF. }
  destruct Hroot as (rest&seg&->&Hh&?&?).
  unfold under in Hu. apply orb_true_iff in Hu as [->%str_eqb_eq|[r ->]%starts_with_true]; [by eauto 10|].
  exists (rest ++ 47%N :: r), seg. split_and!; [|by rewrite split_head|done..].
  by rewrite <- app_assoc.
Qed.

(** The paths named in the predicate itself. *)
Definition named_paths : list rstr :=
  lit <$> ["/@"; "/api/v1/home"; "/api/v1/references"; "/references"; "/references/"; "/api/v1/feed"; "/api/v1/blogs";
           "/api/v1/blogs/"; "/api/v1/primary/categories"; "/api/v1/primary/categories/"; "/api/v1/primary/series";
           "/api/v1/primary/series/"; "/api/v1/posts/"; "/api/v1/posts"; "/robots.txt"; "/sitemap.xml"; "/agent.txt";
           "/agents.txt"; "/llms.txt"]%string.
Lemma named_not_under q root path : q ∈ named_paths -> root ∈ private_roots ->
  starts_with q path = true -> under root path = false.
Proof.
  intros Hq Hr Hs. destruct (under root path) eqn:E; [|done]. apply under_starts in E.
  pose proof (comparable_prefixes _ _ _ Hs E) as Hc.
  assert (Hall : forallb (fun q => forallb (fun r => negb (starts_with q r || starts_with r q)) private_roots) named_paths = true)
    by by vm_compute.
  rewrite forallb_forall in Hall. specialize (Hall q (proj1 (list_elem_of_In _ _) Hq)).
  rewrite forallb_forall in Hall. specialize (Hall root (proj1 (list_elem_of_In _ _) Hr)).
  by rewrite Hc in Hall.
Qed.
Lemma str_eqb_starts path q : str_eqb path q = true -> starts_with q path = true.
Proof. intros ->%str_eqb_eq. apply starts_with_true. exists []. by rewrite app_nil_r. Qed.

Lemma category_not_reserved st seg : category_segment st seg = true -> member seg RESERVED_CATEGORIES = false.
Proof.
  unfold category_segment. intros [H _]%andb_true_iff. apply negb_true_iff in H.
  do 5 apply orb_false_iff in H as [H _]. exact H.
Qed.
Lemma category_path_segment st path seg :
  primary_category_public_path st (47%N :: path) = true -> head (split 47 path) = Some seg -> category_segment st seg = true.
Proof.
  unfold primary_category_public_path. change (strip_prefix (lit "/") (47%N :: path)) with (Some path).
  rewrite <- (strip_slash_head path).
  destruct (split 47 (strip_slash path)) as [|c [|q [|]]]; try done; simpl; intros H [= <-]; [done|].
  by apply andb_true_iff in H as [_ H].
Qed.

(** C20. No private path is cacheable: under a configuration whose article base
    path passed validation, no path of the administration, studio, session,
    authentication, proposal, code-runner or upload routes, nor of the login,
    onboarding and studio pages, is accepted by the cacheability test, which the
    middleware asks before it looks a response up in the shared cache or writes
    one to it. *)
Theorem private_paths_are_never_cached st root path :
  validate_article_base_path (ps_article_base_path st) (ps_references st) = true ->
  root ∈ private_roots -> under root path = true ->
  public_cache_path st path = false.
Proof.
  intros Hv Hr Hu. destruct (public_cache_path st path) eqn:Hp; [|done]. exfalso.
  assert (Hnamed : forall q, starts_with q path = true -> member q named_paths = true -> False).
  { intros q Hs Hq%member_true. by rewrite (named_not_under q root path Hq Hr Hs) in Hu. }
  destruct (under_segment root path Hr Hu) as (rest&seg&->&Hseg&Hcat&Hroot).
  unfold public_cache_path in Hp.
  repeat (apply orb_true_iff in Hp as [Hp|Hp];
    [|first [ by apply (Hnamed _ (str_eqb_starts _ _ Hp)) | by apply (Hnamed _ Hp) | idtac ]]).
  - by apply (Hnamed _ Hp).
  - pose proof (category_not_reserved st seg (category_path_segment st rest seg Hp Hseg)). congruence.
  - apply andb_true_iff in Hp as [_ Hp]. apply member_true in Hp.
    repeat (apply elem_of_cons in Hp as [Hp|Hp]; [by apply (Hnamed _ (str_eqb_starts _ _ (proj2 (str_eqb_eq _ _) Hp)))|]).
    by apply elem_of_nil in Hp.
  - apply starts_with_true in Hp as [r E]. injection E as E. rewrite <- app_assoc in E.
    change (lit "/" ++ r) with (47%N :: r) in E. rewrite E, split_head in Hseg.
    unfold validate_article_base_path, first_segment in Hv. rewrite Hseg in Hv. simpl default in Hv. by rewrite Hroot in Hv.
Qed.

(** ** At concrete inputs *)

Module ToyHttp.
#[export] Instance toy_headers : HeaderLib := {
  header_to_str v := if forallb (fun b => b <? 128)%N v then Some v else None;
  header_try_from s := Some s;
}.
Definition key : list N := repeat 7%N 32.
Definition origin : list (rstr * list N) :=
  [(ETAG, lit "v1"); (lit "set-cookie", lit "s=1"); (CONTENT_TYPE, lit "text/html"); (VARY, lit "Accept")].
Definition page : list N := bytes (lit "<h1>Hello</h1>").
Definition blog : PathState := {| ps_article_base_path := lit "blog/posts"; ps_references := true |}.
End ToyHttp.
Import ToyHttp.
Import ToySigning.

Lemma toy_digest_bytes m : is_bytes (sha256 m).
Proof. apply Forall_fmap, Forall_forall. intros i _. by apply N.mod_lt. Qed.

Lemma cached_entry_is_bound_witness :
  let c := cache_entry origin page key (lit "route") (lit "epoch") in
  verify_cached_response c key (lit "route") (lit "epoch") = true
  /\ verify_cached_response c key (lit "route") (lit "next") = false
  /\ ((key = key /\ lit "route" = lit "route" /\ lit "epoch" = lit "epoch" /\ cp_schema_version c = cp_schema_version c
       /\ cp_headers c = cp_headers c /\ cp_body_base64 c = cp_body_base64 c) \/ sha256_collides).
Proof.
  split_and!; [vm_compute; reflexivity..|].
  apply (cached_entry_is_bound b64_round_trip toy_digest_bytes); [done..|vm_compute; reflexivity|vm_compute; reflexivity].
Defined.

Lemma cached_hit_replays_the_origin_witness :
  serve_hit (to_vec (cached_serialize (cache_entry origin page key (lit "route") (lit "epoch")))) (Some (lit "v0")) key
    (lit "route") (lit "epoch")
  = Some {| status := 200; headers := [(CONTENT_TYPE, lit "text/html"); (ETAG, lit "v1"); (VARY, lit "Accept")];
            body := page |}.
Proof.
  assert (Hh : forall v s, header_to_str v = Some s -> header_try_from s = Some v).
  { simpl. intros v s. by destruct (forallb _ _); intros [= <-]. }
  exact (cached_hit_replays_the_origin b64_round_trip toy_digest_bytes Hh json_round_trip b64_length
    origin page key (lit "route") (lit "epoch") (Some (lit "v0"))
    ltac:(repeat constructor) ltac:(by vm_compute) ltac:(by vm_compute)).
Defined.

Lemma private_paths_are_never_cached_witness :
  validate_article_base_path (ps_article_base_path blog) (ps_references blog) = true
  /\ public_cache_path blog (lit "/blog/posts/hello") = true /\ public_cache_path blog (lit "/notes/hello") = true
  /\ public_cache_path blog (lit "/api/v1/studio/documents") = false.
Proof.
  split_and!; [vm_compute; reflexivity..|].
  apply (private_paths_are_never_cached blog (lit "/api/v1/studio")); [vm_compute; reflexivity| |vm_compute; reflexivity].
  apply member_true. vm_compute. reflexivity.
Defined.
