(* ===== verification/Auth.v ===== *)
(** * Authentication at the HTTP boundary

    [apps/server/src/admin_auth.rs], the account handlers of
    [apps/server/src/community.rs] and the administrator guard of
    [apps/server/src/main.rs]: how a credential becomes a session cookie, how a
    cookie becomes a user, and who may administer the installation.  The
    handlers run the operations of [Accounts] and the limiters of [Admission].

    A handler is a state transformer that keeps its state on errors.  What the
    outside decides (the clock, fresh identifiers and random bytes, free worker
    slots, Redis, the identity provider) is the [Env] of a request. *)

From Stdlib Require Import Bool NArith ZArith Lia.
From S2P Require Import Prelude Text Extern StoreBase StoreTaxonomy Accounts Admission Signing CacheHttp.

(** ** Third-party code *)

(** [argon2]: [PasswordHash::new] and [verify_password]; [None] is a hash that
    does not parse. *)
Class Argon2Lib := {
  argon2_verify : rstr -> list N -> option bool;
  argon2_hash : rstr -> list N -> option rstr;
}.
(** [url]: [origin().ascii_serialization()]. *)
Class OriginLib `{UrlLib} := url_origin : Url -> rstr.

(** ** Configuration and state *)

Record ExternalAdminSettings := {
  ex_adapter : rstr;
  ex_issuer_url : rstr;
  ex_client_id : rstr;
  ex_client_secret : option rstr;
  ex_owner_subject : rstr;
  ex_label : rstr;
}.
Inductive AdminAuthRuntime :=
| AccessKey (phc : rstr) (session_days : Z)
| External (settings : ExternalAdminSettings) (session_days : Z)
| Disabled.

Section auth.
Context `{!UrlLib, !OriginLib, !DigestLib, !Base64Engine, !SerdeJson, !HeaderLib, !Argon2Lib}.

(** The part of [AppState] that authentication reads. *)
Record AppState := {
  as_admin_auth : AdminAuthRuntime;
  as_site_id : Uuid;
  as_public_url : Url;
  as_delivery_only : bool;
  as_registration_open : bool;
  as_local_auth_enabled : bool;
  as_collaboration_enabled : bool;
  as_secure_session_cookie : bool;
  as_cache : bool;
  as_cache_signing_key : list N;
  as_mcp_token_hash : option (list N);
}.

(** Process state: the store and the two credential limiters. *)
Record Server := {
  sv_accounts : AccountDB;
  sv_access_key_attempts : KeyedRateLimiter;
  sv_member_attempts : KeyedRateLimiter;
}.

(** What the identity provider and its client library answer. *)
Inductive OidcReply :=
| ClientUnavailable
| ExchangeRefused
| NoValidIdToken
| VerifiedIdToken (issuer subject : rstr) (access_token_matches : bool).

Record Env := {
  ev_now : nat -> DateTime;
  ev_unix_time : option N;
  ev_instant : N;
  ev_order : Order;
  ev_permit : bool;
  ev_redis : option bool;
  ev_raw_token : list N;
  ev_salt : rstr;
  ev_id : Uuid;
  ev_oidc : rstr -> rstr -> rstr -> OidcReply;
}.

Definition Headers := list (rstr * list N).
Definition COOKIE : rstr := lit "cookie".
Definition ORIGIN : rstr := lit "origin".
Definition AUTHORIZATION : rstr := lit "authorization".

(** ** The binding *)

Definition mode (r : AdminAuthRuntime) : AdminAuthMode :=
  match r with AccessKey _ _ => ModeAccessKey | External _ _ => ModeExternal | Disabled => ModeDisabled end.
Definition binding_message (r : AdminAuthRuntime) : list N :=
  bytes (lit "open-soverign-blog/admin-binding/v1") ++ [0%N] ++
  match r with
  | AccessKey phc _ => bytes (lit "access_key") ++ [0%N] ++ bytes phc
  | External s _ =>
      bytes (lit "external") ++ [0%N] ++
      mjoin ((fun part => bytes part ++ [0%N]) <$>
        [ex_adapter s; ex_issuer_url s; ex_client_id s; ex_owner_subject s; default [] (ex_client_secret s)])
  | Disabled => bytes (lit "disabled") ++ [0%N]
  end.
Definition binding_fingerprint (r : AdminAuthRuntime) : list N := sha256 (binding_message r).

(** ** Origins and cookies *)

Inductive AdminAuthError := InvalidCredential | RateLimited | Unavailable | AuthNotFound | AuthInternal.

Definition verify_origin (st : AppState) (hs : Headers) : result AdminAuthError unit :=
  match header_get ORIGIN hs with
  | None => Ok tt
  | Some origin =>
      origin ← ok_or (header_to_str origin) InvalidCredential;
      ensure (str_eqb origin (url_origin (as_public_url st))) InvalidCredential
  end.
Definition request_origin_is_valid (st : AppState) (hs : Headers) : bool := is_ok (verify_origin st hs).

Definition trim_end_matches (d : N) (s : rstr) : rstr := rev (drop_char d (rev s)).
Definition base_path (st : AppState) : rstr := trim_end_matches 47 (url_path (as_public_url st)).
Definition application_path (st : AppState) (page : string) : rstr := base_path st ++ lit "/" ++ lit page.

(** [cookie.split(';')], trimmed and split at the first '='. *)
Definition cookie_pairs (value : rstr) : list (rstr * rstr) :=
  omap (fun part => split_once 61 (trim part)) (split 59 value).
Fixpoint find_pair (name : rstr) (l : list (rstr * rstr)) : option rstr :=
  match l with
  | [] => None
  | (n, v) :: l => if str_eqb n name then Some v else find_pair name l
  end.
(** Over every [Cookie] header. *)
Definition request_cookie (hs : Headers) (name : rstr) : option rstr :=
  find_pair name (mjoin (cookie_pairs <$>
    omap (fun h => if str_eqb h.1 COOKIE then header_to_str h.2 else None) hs)).

Definition SESSION_COOKIE : rstr := lit "osb_session".
Definition OIDC_STATE_COOKIE : rstr := lit "osb_oidc_state".
(** Over the first [Cookie] header. *)
Definition session_hash_from_headers (hs : Headers) : option (list N) :=
  cookie ← header_get COOKIE hs;
  value ← header_to_str cookie;
  encoded ← find_pair SESSION_COOKIE (cookie_pairs value);
  decoded ← b64_decode encoded;
  if (size_of decoded =? 32)%N then Some (sha256 decoded) else None.

Definition secure_attribute (st : AppState) : rstr := if as_secure_session_cookie st then lit "; Secure" else [].
Definition session_cookie_path (st : AppState) : rstr :=
  if is_empty (base_path st) then lit "/" else base_path st.
Definition show_Z (z : Z) : rstr := if (z <? 0)%Z then lit "-" ++ show_N (Z.abs_N z) else show_N (Z.abs_N z).
Definition session_cookie (st : AppState) (token : rstr) (max_age_seconds : Z) : rstr :=
  SESSION_COOKIE ++ lit "=" ++ token ++ lit "; HttpOnly; SameSite=Lax; Path=" ++ session_cookie_path st
  ++ lit "; Max-Age=" ++ show_Z max_age_seconds ++ secure_attribute st.
Definition clear_session_cookie (st : AppState) : rstr :=
  SESSION_COOKIE ++ lit "=; HttpOnly; SameSite=Lax; Path=" ++ session_cookie_path st
  ++ lit "; Max-Age=0; Expires=Thu, 01 Jan 1970 00:00:00 GMT" ++ secure_attribute st.

(** ** The signed browser state of an external login *)

Record OidcBrowserState := {
  ob_state : rstr;
  ob_nonce : rstr;
  ob_pkce_verifier : rstr;
  ob_issued_at_unix : N;
}.
Definition oidc_serialize (b : OidcBrowserState) : Value :=
  JObject [(lit "state", JString (ob_state b)); (lit "nonce", JString (ob_nonce b));
           (lit "pkceVerifier", JString (ob_pkce_verifier b)); (lit "issuedAtUnix", JNumber (show_N (ob_issued_at_unix b)))].
(** [u64] from a JSON number. *)
Definition u64_of (v : Value) : option N :=
  match v with
  | JNumber t => if negb (is_empty t) && forallb is_ascii_digit t && (decimal t <? 2 ^ 64)%N then Some (decimal t) else None
  | _ => None
  end.
(** [deny_unknown_fields], each field exactly once. *)
Definition oidc_of_value (v : Value) : option OidcBrowserState :=
  match v with
  | JObject l =>
      if forallb (fun kv => member kv.1 (lit <$> ["state"; "nonce"; "pkceVerifier"; "issuedAtUnix"]%string)) l
      then state ← one_field "state" l ≫= string_of;
           nonce ← one_field "nonce" l ≫= string_of;
           pkce_verifier ← one_field "pkceVerifier" l ≫= string_of;
           issued_at_unix ← one_field "issuedAtUnix" l ≫= u64_of;
           Some {| ob_state := state; ob_nonce := nonce; ob_pkce_verifier := pkce_verifier;
                   ob_issued_at_unix := issued_at_unix |}
      else None
  | _ => None
  end.

Definition OIDC_STATE_LIFETIME : N := 10 * 60.
Definition oidc_state_message (fingerprint payload : list N) : list N :=
  bytes (lit "open-soverign-blog/oidc-browser-state/v1") ++ [0%N] ++ fingerprint ++ payload.
Definition oidc_state_signature (key fingerprint payload : list N) : list N :=
  hmac_sha256 key (oidc_state_message fingerprint payload).
Definition encode_oidc_browser_state (key fingerprint : list N) (b : OidcBrowserState) : result AdminAuthError rstr :=
  let payload := to_vec (oidc_serialize b) in
  if (2048 <? size_of payload)%N then Err Unavailable
  else let encoded := b64_encode payload in
       Ok (encoded ++ lit "." ++ b64_encode (oidc_state_signature key fingerprint (bytes encoded))).
Definition oidc_bounded (b : OidcBrowserState) : bool :=
  within 1 1024 (str_len (ob_state b)) && within 1 512 (str_len (ob_nonce b))
  && within 43 128 (str_len (ob_pkce_verifier b))
  && forallb (fun v => negb (existsb is_control v)) [ob_state b; ob_nonce b; ob_pkce_verifier b].
(** [issued <= now.saturating_add(30) && now.saturating_sub(issued) <= lifetime] *)
Definition oidc_fresh (now : N) (b : OidcBrowserState) : bool :=
  (ob_issued_at_unix b <=? N.min (now + 30) (2 ^ 64 - 1))%N && (now - ob_issued_at_unix b <=? OIDC_STATE_LIFETIME)%N.
Definition decode_oidc_browser_state_at (key fingerprint : list N) (signed : rstr) (now : N)
    : result AdminAuthError OidcBrowserState :=
  match split_once 46 signed with
  | None => Err InvalidCredential
  | Some (encoded, encoded_signature) =>
      fail_if (contains_char 46 encoded_signature) InvalidCredential;;
      provided ← ok_or (b64_decode encoded_signature) InvalidCredential;
      ensure (size_of provided =? 32)%N InvalidCredential;;
      ensure (bool_decide (provided = oidc_state_signature key fingerprint (bytes encoded))) InvalidCredential;;
      payload ← ok_or (b64_decode encoded) InvalidCredential;
      fail_if (2048 <? size_of payload)%N InvalidCredential;;
      b ← ok_or (from_slice payload ≫= oidc_of_value) InvalidCredential;
      ensure (oidc_bounded b && oidc_fresh now b) InvalidCredential;;
      Ok b
  end.
Definition decode_oidc_browser_state (st : AppState) (env : Env) (hs : Headers) : result AdminAuthError OidcBrowserState :=
  signed ← ok_or (s ← request_cookie hs OIDC_STATE_COOKIE; if (str_len s <=? 4096)%N then Some s else None) InvalidCredential;
  now ← ok_or (ev_unix_time env) Unavailable;
  decode_oidc_browser_state_at (as_cache_signing_key st) (binding_fingerprint (as_admin_auth st)) signed now.

Definition oidc_cookie_path (st : AppState) : rstr := base_path st ++ lit "/api/v1/auth/external/callback".
Definition oidc_state_cookie (st : AppState) (value : rstr) : rstr :=
  OIDC_STATE_COOKIE ++ lit "=" ++ value ++ lit "; HttpOnly; SameSite=Lax; Path=" ++ oidc_cookie_path st
  ++ lit "; Max-Age=" ++ show_N OIDC_STATE_LIFETIME ++ secure_attribute st.
Definition clear_oidc_state_cookie (st : AppState) : rstr :=
  OIDC_STATE_COOKIE ++ lit "=; HttpOnly; SameSite=Lax; Path=" ++ oidc_cookie_path st
  ++ lit "; Max-Age=0; Expires=Thu, 01 Jan 1970 00:00:00 GMT" ++ secure_attribute st.

(** ** Handlers *)

Inductive CommunityApiError :=
| Unauthorized
| Forbidden
| InvalidLogin
| CommunityRateLimited
| RegistrationClosed
| ReadOnly
| CommunityNotFound
| Conflict
| BadRequest
| PayloadTooLarge
| UnsupportedMediaType
| AiSummaryRateLimited
| AiSummaryTimeout
| AiSummaryProviderFailed (code : rstr)
| AiSummaryUnavailable
| CommunityInternal.
(** [From<RepositoryError>] *)
Definition community_error (e : RepositoryError) : CommunityApiError :=
  match e with
  | NotFound => CommunityNotFound
  | DuplicateSlug | RevisionConflict | DuplicateIdempotencyKey => Conflict
  | Validation _ => BadRequest
  | Storage _ => CommunityInternal
  end.

Definition handler (E A : Type) : Type := Server -> result E A * Server.
#[export] Instance handler_ret {E} : MRet (handler E) := fun A a s => (Ok a, s).
#[export] Instance handler_bind {E} : MBind (handler E) := fun A B k m s =>
  match m s with (Ok a, s') => k a s' | (Err e, s') => (Err e, s') end.
Definition lift {E A} (r : result E A) : handler E A := fun s => (r, s).
Definition handler_map_err {E F A} (f : E -> F) (m : handler E A) : handler F A :=
  fun s => (map_err f (m s).1, (m s).2).

Definition with_accounts (s : Server) (db : AccountDB) : Server :=
  {| sv_accounts := db; sv_access_key_attempts := sv_access_key_attempts s; sv_member_attempts := sv_member_attempts s |}.
Definition with_key_attempts (s : Server) (l : KeyedRateLimiter) : Server :=
  {| sv_accounts := sv_accounts s; sv_access_key_attempts := l; sv_member_attempts := sv_member_attempts s |}.
Definition with_member_attempts (s : Server) (l : KeyedRateLimiter) : Server :=
  {| sv_accounts := sv_accounts s; sv_access_key_attempts := sv_access_key_attempts s; sv_member_attempts := l |}.

(** [repository_task] and [repository_optional] *)
Definition store {A} (f : AccountDB -> result RepositoryError A * AccountDB) : handler CommunityApiError A :=
  fun s => let '(r, db) := f (sv_accounts s) in (map_err community_error r, with_accounts s db).
Definition query {A} (f : AccountDB -> result RepositoryError A) : handler CommunityApiError A :=
  fun s => (map_err community_error (f (sv_accounts s)), s).
Definition query_optional {A} (f : AccountDB -> result RepositoryError A) : handler CommunityApiError (option A) :=
  fun s => (match f (sv_accounts s) with
            | Ok a => Ok (Some a)
            | Err NotFound => Ok None
            | Err e => Err (community_error e)
            end, s).

Definition credential_admit (env : Env) (key : Key) : handler AdminAuthError unit :=
  fun s => let '(admitted, l) := admit_at (ev_order env) key (ev_instant env) (sv_access_key_attempts s) in
           (ensure admitted RateLimited, with_key_attempts s l).
Definition member_admit (env : Env) (key : Key) : handler CommunityApiError unit :=
  fun s => let '(admitted, l) := admit_at (ev_order env) key (ev_instant env) (sv_member_attempts s) in
           (ensure admitted CommunityRateLimited, with_member_attempts s l).
Definition credential_forget (key : Key) : handler AdminAuthError unit :=
  fun s => (Ok tt, with_key_attempts s (forget key (sv_access_key_attempts s))).
Definition member_forget (key : Key) : handler CommunityApiError unit :=
  fun s => (Ok tt, with_member_attempts s (forget key (sv_member_attempts s))).

(** ** Who is signed in *)

Record UserSummary := { um_id : Uuid; um_handle : rstr; um_display_name : rstr; um_avatar_url : option rstr }.
Record BlogSummary := {
  bs_id : Uuid; bs_handle : rstr; bs_title : rstr; bs_description : option rstr; bs_owner : UserSummary;
  bs_preset_id : ThemeProfile; bs_custom_css_url : option rstr; bs_is_primary : bool; bs_created_at : option DateTime }.
Definition user_summary (u : UserRecord) : UserSummary :=
  {| um_id := ur_id u; um_handle := ur_handle u; um_display_name := ur_display_name u; um_avatar_url := None |}.
Definition blog_summary (site : SiteRecord) (owner : UserRecord) (primary_site_id : Uuid) : BlogSummary := {|
  bs_id := sit_id site; bs_handle := sit_handle site; bs_title := sit_title site; bs_description := sit_description site;
  bs_owner := user_summary owner; bs_preset_id := sit_theme_profile site; bs_custom_css_url := None;
  bs_is_primary := (sit_id site =? primary_site_id)%N; bs_created_at := Some (sit_created_at site) |}.
Inductive SessionPayload :=
| Anonymous (registration_open : bool)
| Authenticated (registration_open : bool) (user : UserSummary) (blog : option BlogSummary)
    (membership_role : option SiteMembershipRole) (instance_administrator : bool).
Record ResolvedSession := { rs_user : UserRecord; rs_instance_administrator : bool }.

Definition session_blog (st : AppState) (user_id : Uuid) (db : AccountDB)
    : result RepositoryError (option BlogSummary * option SiteMembershipRole) :=
  let listed :=
    sites ← (if as_collaboration_enabled st then list_accessible_sites user_id 1 db else list_owned_sites user_id 1 db);
    match sites with
    | [] => Ok (None, None)
    | site :: _ =>
        membership ← get_site_membership user_id (sit_id site) db;
        owner ← get_user_by_id (sit_owner_user_id site) db;
        Ok (Some (blog_summary site owner (as_site_id st)), Some (mr_role membership))
    end in
  match get_admin_control_plane db with
  | Ok control => if (cp_owner_user control =? user_id)%N && negb (cp_setup_complete control) then Ok (None, None) else listed
  | Err NotFound => listed
  | Err e => Err e
  end.
Definition session_payload (st : AppState) (session : option ResolvedSession) : handler CommunityApiError SessionPayload :=
  match session with
  | Some rs =>
      if as_delivery_only st then mret (Anonymous (as_registration_open st && negb (as_delivery_only st)))
      else '(blog, role) ← query (session_blog st (ur_id (rs_user rs)));
           mret (Authenticated (as_registration_open st) (user_summary (rs_user rs)) blog role (rs_instance_administrator rs))
  | None => mret (Anonymous (as_registration_open st && negb (as_delivery_only st)))
  end.

(** The cookie's session belongs to an authentication method that is on. *)
Definition method_enabled (st : AppState) (m : SessionAuthMethod) : bool :=
  match m with
  | Legacy => as_local_auth_enabled st
  | MethodAccessKey => bool_decide (mode (as_admin_auth st) = ModeAccessKey)
  | MethodExternal => bool_decide (mode (as_admin_auth st) = ModeExternal)
  end.
Definition resolve_session_user (st : AppState) (env : Env) (hs : Headers) : handler CommunityApiError (option ResolvedSession) :=
  if as_delivery_only st then mret None
  else match session_hash_from_headers hs with
       | None => mret None
       | Some token_hash =>
           query_optional (fun db =>
             session ← get_session token_hash (ev_now env 0) db;
             ensure (method_enabled st (sn_auth_method session)) NotFound;;
             user ← get_user_by_id (sn_user_id session) db;
             Ok {| rs_user := user; rs_instance_administrator := negb (bool_decide (sn_auth_method session = Legacy)) |})
       end.
Definition ensure_mutable (st : AppState) : result CommunityApiError unit := fail_if (as_delivery_only st) ReadOnly.
Definition require_user (st : AppState) (env : Env) (hs : Headers) : handler CommunityApiError UserRecord :=
  lift (ensure_mutable st);;
  session ← resolve_session_user st env hs;
  lift (ok_or (rs_user <$> session) Unauthorized).
Definition require_instance_administrator (st : AppState) (env : Env) (hs : Headers) : handler CommunityApiError UserRecord :=
  lift (ensure_mutable st);;
  token_hash ← lift (ok_or (session_hash_from_headers hs) Unauthorized);
  handler_map_err (fun e => match e with CommunityNotFound => Unauthorized | e => e end)
    (query (fun db =>
       session ← get_session token_hash (ev_now env 0) db;
       control ← get_admin_control_plane db;
       expected_method ← ok_or (session_method (cp_auth_mode control)) NotFound;
       ensure ((sn_user_id session =? cp_owner_user control)%N && bool_decide (sn_auth_method session = expected_method)) NotFound;;
       get_user_by_id (sn_user_id session) db)).

(** ** Issuing sessions *)

Record Reply := {
  rp_status : N;
  rp_location : option rstr;
  rp_set_cookies : list rstr;
  rp_payload : option SessionPayload;
}.
Definition days (n : Z) : Z := (n * 24 * 60 * 60 * 1000000000)%Z.
Definition SESSION_LIFETIME_DAYS : Z := 30.

Definition authenticated_response (st : AppState) (env : Env) (user : UserRecord) (status : N) : handler CommunityApiError Reply :=
  let token_hash := sha256 (ev_raw_token env) in
  let token := b64_encode (ev_raw_token env) in
  let expires_at := (ev_now env 2 + days SESSION_LIFETIME_DAYS)%Z in
  store (create_session (ur_id user) token_hash expires_at (ev_id env) (ev_now env 3) (ev_now env 4) (ev_now env 5));;
  payload ← session_payload st (Some {| rs_user := user; rs_instance_administrator := false |});
  mret {| rp_status := status; rp_location := None;
          rp_set_cookies := [session_cookie st token (SESSION_LIFETIME_DAYS * 24 * 60 * 60)]; rp_payload := Some payload |}.
Definition administrator_authenticated_response (st : AppState) (env : Env) (user : UserRecord) (status : N)
    (auth_method : SessionAuthMethod) (session_days : Z) : handler CommunityApiError Reply :=
  let token_hash := sha256 (ev_raw_token env) in
  let token := b64_encode (ev_raw_token env) in
  let expires_at := (ev_now env 2 + days session_days)%Z in
  store (create_primary_owner_session token_hash expires_at auth_method (binding_fingerprint (as_admin_auth st))
           (ev_id env) (ev_now env 3) (ev_now env 4) (ev_now env 5));;
  payload ← session_payload st (Some {| rs_user := user; rs_instance_administrator := true |});
  mret {| rp_status := status; rp_location := None;
          rp_set_cookies := [session_cookie st token (session_days * 24 * 60 * 60)]; rp_payload := Some payload |}.

(** Every repository error is internal here. *)
Definition admin_internal {A} (m : handler CommunityApiError A) : handler AdminAuthError A := handler_map_err (fun _ => AuthInternal) m.
Definition administrator_session (st : AppState) (env : Env) (session_days : Z) : handler AdminAuthError Reply :=
  site ← admin_internal (store (ensure_legacy_site (as_site_id st) (ev_now env 1)));
  user ← admin_internal (query (get_user_by_id (sit_owner_user_id site)));
  auth_method ← lift (ok_or (session_method (mode (as_admin_auth st))) AuthNotFound);
  admin_internal (administrator_authenticated_response st env user 200 auth_method session_days).

(** ** The access key *)

Definition hex_digest (hash : list N) : rstr := mjoin ((fun b => [hex_digit (b / 16); hex_digit (b mod 16)]) <$> hash).
(** The parameter check of [SemanticCache::admit_fixed_window]. *)
Definition fixed_window_parameters_valid (bucket : rstr) (limit window_seconds : N) : bool :=
  negb (is_empty bucket || (96 <? str_len bucket)%N
        || negb (forallb (fun c => is_ascii_alphanumeric c || one_of "_-:" c) bucket)
        || (limit =? 0)%N || (window_seconds =? 0)%N).
Definition admit_fixed_window (env : Env) (bucket : rstr) (limit window_seconds : N) : result unit bool :=
  if fixed_window_parameters_valid bucket limit window_seconds then ok_or (ev_redis env) tt else Err tt.

Definition exchange_access_key (st : AppState) (env : Env) (hs : Headers) (access_key : rstr) : handler AdminAuthError Reply :=
  lift (verify_origin st hs);;
  match as_admin_auth st with
  | AccessKey phc session_days =>
      lift (ensure (within 32 512 (str_len access_key) && negb (existsb is_control access_key)) InvalidCredential);;
      let credential_key := sha256 (bytes access_key) in
      lift (ensure (ev_permit env) RateLimited);;
      credential_admit env credential_key;;
      lift (if as_cache st
            then admitted ← map_err (fun _ => Unavailable)
                   (admit_fixed_window env (lit "administrator-access-key:" ++ hex_digest credential_key) 6 60);
                 ensure admitted RateLimited
            else Ok tt);;
      lift (ensure (default false (argon2_verify phc (bytes access_key))) InvalidCredential);;
      credential_forget credential_key;;
      administrator_session st env session_days
  | _ => lift (Err AuthNotFound)
  end.

(** ** External login *)

(** The random values come from the OIDC client library; the redirect goes to
    its authorization URL. *)
Definition start_external (st : AppState) (env : Env) (reachable : bool) (url state nonce verifier : rstr)
    : handler AdminAuthError Reply :=
  match as_admin_auth st with
  | External settings _ =>
      lift (ensure (ev_permit env) RateLimited);;
      lift (ensure reachable Unavailable);;
      issued ← lift (ok_or (ev_unix_time env) Unavailable);
      signed ← lift (encode_oidc_browser_state (as_cache_signing_key st) (binding_fingerprint (as_admin_auth st))
                 {| ob_state := state; ob_nonce := nonce; ob_pkce_verifier := verifier; ob_issued_at_unix := issued |});
      mret {| rp_status := 303; rp_location := Some url; rp_set_cookies := [oidc_state_cookie st signed]; rp_payload := None |}
  | _ => lift (Err AuthNotFound)
  end.

Record OidcCallback := { oc_code : option rstr; oc_state : option rstr; oc_error : option rstr }.
Definition keep_length (lo hi : N) (o : option rstr) : option rstr :=
  v ← o; if within lo hi (str_len v) then Some v else None.
Definition finish_external (st : AppState) (env : Env) (hs : Headers) (q : OidcCallback) : handler AdminAuthError Reply :=
  match as_admin_auth st with
  | External settings session_days =>
      lift (fail_if (is_some (oc_error q)) InvalidCredential);;
      code ← lift (ok_or (keep_length 1 4096 (oc_code q)) InvalidCredential);
      callback_state ← lift (ok_or (keep_length 1 1024 (oc_state q)) InvalidCredential);
      b ← lift (decode_oidc_browser_state st env hs);
      lift (ensure (str_eqb (ob_state b) callback_state) InvalidCredential);;
      match ev_oidc env code (ob_pkce_verifier b) (ob_nonce b) with
      | ClientUnavailable => lift (Err Unavailable)
      | ExchangeRefused | NoValidIdToken => lift (Err InvalidCredential)
      | VerifiedIdToken issuer subject access_token_matches =>
          lift (ensure (str_eqb subject (ex_owner_subject settings)) InvalidCredential);;
          lift (ensure access_token_matches InvalidCredential);;
          admin_internal (store (bind_external_identity (ex_adapter settings) issuer (sha256 (bytes subject))
            (binding_fingerprint (as_admin_auth st)) (ev_now env 6)));;
          control ← admin_internal (query get_admin_control_plane);
          response ← administrator_session st env session_days;
          cookie ← lift (ok_or (head (rp_set_cookies response)) Unavailable);
          mret {| rp_status := 303;
                  rp_location := Some (application_path st (if cp_setup_complete control then "studio" else "onboarding"));
                  rp_set_cookies := [cookie; clear_oidc_state_cookie st]; rp_payload := None |}
      end
  | _ => lift (Err AuthNotFound)
  end.

(** ** Members *)

Definition validate_email (value : rstr) : result CommunityApiError rstr :=
  let normalized := to_ascii_lowercase (trim value) in
  if is_ascii normalized && within 3 254 (str_len normalized) && negb (existsb is_control normalized)
     && is_some_and (fun '(local, domain) =>
          negb (is_empty local) && contains_char 46 domain && negb (ends_with (lit ".") domain)) (split_once 64 normalized)
  then Ok normalized else Err BadRequest.
Definition validate_handle (value : rstr) : result CommunityApiError unit :=
  ensure (within 3 40 (str_len value)
          && forallb (fun c => is_ascii_lowercase c || is_ascii_digit c || (c =? 45)%N) value
          && is_some_and is_ascii_alphanumeric (head value) && is_some_and is_ascii_alphanumeric (last value)) BadRequest.
Definition validate_text (value : rstr) (maximum : N) : result CommunityApiError rstr :=
  let value := trim value in
  if within 1 maximum (char_count value) && negb (existsb is_control value) then Ok value else Err BadRequest.
Definition validate_password (value : rstr) : result CommunityApiError unit :=
  ensure (within 8 1024 (str_len value) && negb (contains_nul value)) BadRequest.
Definition validate_password_for_login (value : rstr) : result CommunityApiError unit :=
  fail_if (is_empty value || (4096 <? str_len value)%N || contains_nul value) InvalidLogin.
Definition member_auth_key (purpose : string) (normalized_email : rstr) : Key :=
  sha256 (bytes (lit "open-soverign-blog/member-auth-admission/v1") ++ [0%N] ++ bytes (lit purpose) ++ [0%N]
          ++ bytes normalized_email).

Definition hash_password (env : Env) (password : rstr) : result CommunityApiError rstr :=
  ensure (ev_permit env) CommunityRateLimited;;
  ok_or (argon2_hash (ev_salt env) (bytes password)) CommunityInternal.
(** Against a dummy hash when there is no user; its password is fixed. *)
Definition verify_password (env : Env) (dummy_phc supplied : rstr) (expected_phc : option rstr) : result CommunityApiError bool :=
  ensure (ev_permit env) CommunityRateLimited;;
  ok_or (argon2_verify (default dummy_phc expected_phc) (bytes supplied)) CommunityInternal.

Definition register (st : AppState) (env : Env) (email handle display_name password : rstr) : handler CommunityApiError Reply :=
  lift (ensure_mutable st);;
  lift (ensure (as_registration_open st) RegistrationClosed);;
  email ← lift (validate_email email);
  let admission_key := member_auth_key "register" email in
  member_admit env admission_key;;
  lift (validate_handle handle);;
  display_name ← lift (validate_text display_name 80);
  lift (validate_password password);;
  password_phc ← lift (hash_password env password);
  user ← store (create_user email handle display_name password_phc (ev_id env) (ev_now env 1));
  response ← authenticated_response st env user 201;
  member_forget admission_key;;
  mret response.
Definition login (st : AppState) (env : Env) (dummy_phc email password : rstr) : handler CommunityApiError Reply :=
  lift (ensure_mutable st);;
  email ← lift (validate_email email);
  let admission_key := member_auth_key "login" email in
  member_admit env admission_key;;
  lift (validate_password_for_login password);;
  candidate ← query_optional (find_user_by_email email);
  verified ← lift (verify_password env dummy_phc password (ur_password_phc <$> candidate));
  user ← lift (ok_or (u ← candidate; if verified : bool then Some u else None) InvalidLogin);
  response ← authenticated_response st env user 200;
  member_forget admission_key;;
  mret response.
Definition logout (st : AppState) (env : Env) (hs : Headers) : handler CommunityApiError Reply :=
  lift (ensure_mutable st);;
  match session_hash_from_headers hs with
  | Some hash => store (revoke_session hash (ev_now env 0));; mret tt
  | None => mret tt
  end;;
  mret {| rp_status := 200; rp_location := None; rp_set_cookies := [clear_session_cookie st];
          rp_payload := Some (Anonymous (as_registration_open st)) |}.

(** ** The administrator guard *)

Inductive MutationPrincipal := HumanOwner | McpAgent.
(** Without the failures of the asset store and of services that are called. *)
Inductive ApiError :=
| ApiUnauthorized
| ApiReadOnly
| ApiBadRequest (message : rstr)
| ApiRepository (error : RepositoryError)
| ApiInternal (message : rstr).

Definition bearer_token_hash (hs : Headers) : option (list N) :=
  value ← header_get AUTHORIZATION hs;
  text ← header_to_str value;
  provided ← strip_prefix (lit "Bearer ") text;
  Some (sha256 (bytes provided)).
Definition uuid_path `{UuidLib} (path prefix suffix : rstr) : bool :=
  match strip_prefix prefix path ≫= strip_suffix suffix with
  | Some segment => negb (is_empty segment) && negb (contains_char 47 segment) && is_some (uuid_parse segment)
  | None => false
  end.
Definition mcp_content_route `{UuidLib} (method : Method) (path : rstr) : bool :=
  match method with
  | GET => str_eqb path (lit "/api/v1/admin/documents")
           || uuid_path path (lit "/api/v1/admin/documents/") []
           || uuid_path path (lit "/api/v1/admin/documents/") (lit "/revisions")
  | POST => str_eqb path (lit "/api/v1/posts")
            || uuid_path path (lit "/api/v1/documents/") (lit "/revisions")
            || uuid_path path (lit "/api/v1/documents/") (lit "/publish")
  | _ => false
  end.
Definition require_admin `{UuidLib} (st : AppState) (env : Env) (hs : Headers) (method : Method) (path : rstr) (db : AccountDB)
    : result ApiError MutationPrincipal :=
  if as_delivery_only st then Err ApiReadOnly
  else if bool_decide (mode (as_admin_auth st) = ModeDisabled) then Err ApiReadOnly
  else if is_some_and (fun token_hash => is_ok (get_primary_owner_session token_hash (ev_now env 0) db))
            (session_hash_from_headers hs) then Ok HumanOwner
  else if is_some_and (fun provided => mcp_content_route method path
            && is_some_and (fun expected => bool_decide (provided = expected)) (as_mcp_token_hash st))
            (bearer_token_hash hs) then Ok McpAgent
  else Err ApiUnauthorized.
(** [is_safe]: [GET], [HEAD] and [OPTIONS] may come from any origin. *)
Definition admin_guard `{UuidLib} (st : AppState) (env : Env) (hs : Headers) (method : Method) (is_safe : bool) (path : rstr)
    (db : AccountDB) : result ApiError MutationPrincipal :=
  if negb is_safe && negb (request_origin_is_valid st hs) then Err ApiUnauthorized
  else require_admin st env hs method path db.

(** ** Histories *)

(** The requests that reach these handlers; [Operation] is an operation of
    the store that another handler or a start of the process performs. *)
Inductive Event :=
| Register (email handle display_name password : rstr)
| Login (dummy_phc email password : rstr)
| Logout (hs : Headers)
| ExchangeAccessKey (hs : Headers) (access_key : rstr)
| FinishExternal (hs : Headers) (q : OidcCallback)
| Operation (o : account_op).
Record Request := { rq_state : AppState; rq_env : Env; rq_event : Event }.

(** Whether the request succeeded, and the server after it. *)
Definition serve (r : Request) (s : Server) : bool * Server :=
  let st := rq_state r in
  let env := rq_env r in
  match rq_event r with
  | Register email handle display_name password =>
      let '(a, s') := register st env email handle display_name password s in (is_ok a, s')
  | Login dummy email password => let '(a, s') := login st env dummy email password s in (is_ok a, s')
  | Logout hs => let '(a, s') := logout st env hs s in (is_ok a, s')
  | ExchangeAccessKey hs key => let '(a, s') := exchange_access_key st env hs key s in (is_ok a, s')
  | FinishExternal hs q => let '(a, s') := finish_external st env hs q s in (is_ok a, s')
  | Operation o => let '(e, db) := account_run o (sv_accounts s) in (is_none e, with_accounts s db)
  end.
Definition serves (rs : list Request) (s : Server) : Server := fold_left (fun s r => (serve r s).2) rs s.
End auth.
