(* ===== verification/AuthTheorems.v ===== *)
(** * Who gets a session, and who may administer

    Theorems about [Auth]: every way to the primary owner's authority goes
    through a verified credential of the configured binding; a login cookie
    comes back as the session of the authenticated user; the signed browser
    state of an external login; and what the static agent token can reach. *)

From Stdlib Require Import Bool NArith ZArith Lia.
From S2P Require Import Prelude Text Extern StoreBase StoreTaxonomy Accounts AccountsSpec AccountsRefine AccountsTheorems Admission Signing CacheHttp Auth.

(** ** What a handler does to the store *)

Section effects.
Context (P : account_op -> Prop).

(** A handler changes the accounts only by operations that satisfy [P]. *)
Definition runs {E A} (m : handler E A) : Prop :=
  forall s, exists ops, Forall P ops /\ sv_accounts (m s).2 = account_runs ops (sv_accounts s).

Lemma runs_bind {E A B} (m : handler E A) (k : A -> handler E B) :
  runs m -> (forall a s s', m s = (Ok a, s') -> runs (k a)) -> runs (m ≫= k).
Proof.
  intros Hm Hk s. destruct (Hm s) as (ops1 & HP1 & E1).
  unfold mbind, handler_bind. destruct (m s) as [[a|e] s'] eqn:Es; simpl in E1.
  - destruct (Hk a s s' Es s') as (ops2 & HP2 & E2). exists (ops1 ++ ops2).
    split; [by apply Forall_app|]. by rewrite E2, E1, account_runs_app.
  - by exists ops1.
Qed.
Lemma runs_same {E A} (m : handler E A) : (forall s, sv_accounts (m s).2 = sv_accounts s) -> runs m.
Proof. intros H s. exists []. by rewrite H. Qed.
Lemma runs_lift {E A} (r : result E A) : runs (lift r).
Proof. by apply runs_same. Qed.
Lemma runs_ret {E A} (a : A) : runs (mret a : handler E A).
Proof. by apply runs_same. Qed.
Lemma runs_query {A} (f : AccountDB -> result RepositoryError A) : runs (query f).
Proof. by apply runs_same. Qed.
Lemma runs_query_optional {A} (f : AccountDB -> result RepositoryError A) : runs (query_optional f).
Proof. by apply runs_same. Qed.
Lemma runs_map_err {E F A} (g : E -> F) (m : handler E A) : runs m -> runs (handler_map_err g m).
Proof. intros H s. exact (H s). Qed.
Lemma runs_store {A} (f : AccountDB -> result RepositoryError A * AccountDB) o :
  P o -> (forall db, (account_run o db).2 = (f db).2) -> runs (store f).
Proof.
  intros HP Hf s. exists [o]. split; [by repeat constructor|]. unfold store.
  specialize (Hf (sv_accounts s)). destruct (f (sv_accounts s)) as [r db]. simpl in *. by rewrite <- Hf.
Qed.
Lemma runs_member_admit env key : runs (member_admit env key).
Proof. apply runs_same. intros s. unfold member_admit. by destruct (admit_at _ _ _ _). Qed.
Lemma runs_credential_admit env key : runs (credential_admit env key).
Proof. apply runs_same. intros s. unfold credential_admit. by destruct (admit_at _ _ _ _). Qed.
Lemma runs_member_forget key : runs (member_forget key).
Proof. by apply runs_same. Qed.
Lemma runs_credential_forget key : runs (credential_forget key).
Proof. by apply runs_same. Qed.
End effects.

Create HintDb auth.
#[export] Hint Resolve runs_lift runs_ret runs_query runs_query_optional runs_map_err runs_member_admit
  runs_credential_admit runs_member_forget runs_credential_forget : auth.

Lemma handler_lift_Ok {E A} (r : result E A) s a s' : lift r s = (Ok a, s') <-> r = Ok a /\ s' = s.
Proof. unfold lift. naive_solver. Qed.

(** Follow the binds of a handler; what a guard let through is remembered. *)
Ltac handler_binds :=
  repeat first
    [ apply runs_bind; [solve [eauto 3 with auth]|intros ? ? ? ?]
    | progress (match goal with H : lift _ _ = (Ok _, _) |- _ => apply handler_lift_Ok in H as [H _] end) ].

Section authority.
Context `{!UrlLib, !OriginLib, !DigestLib, !Base64Engine, !SerdeJson, !HeaderLib, !Argon2Lib}.

(** The credential a request verified before it could issue an owner session. *)
Definition verified_credential (r : Request) : Prop :=
  match rq_event r with
  | ExchangeAccessKey hs key =>
      exists phc session_days, as_admin_auth (rq_state r) = AccessKey phc session_days
        /\ verify_origin (rq_state r) hs = Ok tt
        /\ argon2_verify phc (bytes key) = Some true
  | FinishExternal hs q =>
      exists settings session_days b code issuer, as_admin_auth (rq_state r) = External settings session_days
        /\ decode_oidc_browser_state (rq_state r) (rq_env r) hs = Ok b /\ oc_state q = Some (ob_state b)
        /\ oc_code q = Some code
        /\ ev_oidc (rq_env r) code (ob_pkce_verifier b) (ob_nonce b)
           = VerifiedIdToken issuer (ex_owner_subject settings) true
  | _ => False
  end.
(** The token a request's fresh random bytes make. *)
Definition fresh_token (r : Request) : list N := sha256 (ev_raw_token (rq_env r)).

(** Other code issues no owner session: [create_primary_owner_session] has one
    caller. *)
Definition ordinary (r : Request) : Prop :=
  match rq_event r with Operation (CreatePrimaryOwnerSession _ _ _ _ _ _ _ _) => False | _ => True end.

(** What the operations of one request may be. *)
Definition accounted (r : Request) (o : account_op) : Prop :=
  match o with
  | CreatePrimaryOwnerSession token _ _ fingerprint _ _ _ _ =>
      verified_credential r /\ token = fresh_token r /\ fingerprint = binding_fingerprint (as_admin_auth (rq_state r))
  | _ => True
  end.

Lemma runs_session_payload P st rs : runs P (session_payload st rs).
Proof.
  unfold session_payload. destruct rs; [|auto with auth]. destruct (as_delivery_only st); [auto with auth|].
  handler_binds. destruct a. auto with auth.
Qed.
Lemma runs_authenticated P st env user n :
  (forall token expires id n0 n1 n2, P (CreateSession (ur_id user) token expires id n0 n1 n2)) ->
  runs P (authenticated_response st env user n).
Proof.
  intros HP. unfold authenticated_response. apply runs_bind.
  - eapply runs_store; [apply HP|]. intros db. reflexivity.
  - intros _ _ _ _. apply runs_bind; [apply runs_session_payload|]. auto with auth.
Qed.
Lemma runs_administrator_session st env session_days r :
  rq_state r = st -> rq_env r = env -> verified_credential r -> runs (accounted r) (administrator_session st env session_days).
Proof.
  intros <- <- Hv. unfold administrator_session, admin_internal. apply runs_bind.
  { apply runs_map_err. by apply (runs_store _ _ (EnsureLegacySite (as_site_id (rq_state r)) (ev_now (rq_env r) 1))). }
  intros site _ _ _. handler_binds. apply runs_map_err. unfold administrator_authenticated_response. apply runs_bind.
  - eapply (runs_store _ _ (CreatePrimaryOwnerSession _ _ _ _ _ _ _ _)); [|intros db; reflexivity]. done.
  - intros _ _ _ _. apply runs_bind; [apply runs_session_payload|]. auto with auth.
Qed.

Lemma keep_length_Some lo hi o v : keep_length lo hi o = Some v -> o = Some v.
Proof. unfold keep_length. destruct o; simpl; [by destruct (within _ _ _)|done]. Qed.

Lemma runs_outcome {E A} P (m : handler E A) s : runs P m ->
  exists ops, Forall P ops /\ sv_accounts (let '(a, s') := m s in (is_ok a, s')).2 = account_runs ops (sv_accounts s).
Proof. intros Hm. destruct (Hm s) as (ops & Hops & E0). exists ops. by destruct (m s). Qed.

(** A logout that presents the token. *)
Definition logs_out (token : list N) (r : Request) : Prop :=
  exists hs, rq_event r = Logout hs /\ as_delivery_only (rq_state r) = false /\ session_hash_from_headers hs = Some token.

Lemma logout_runs token r s : logs_out token r ->
  sv_accounts (serve r s).2 = (account_run (RevokeSession token (ev_now (rq_env r) 0)) (sv_accounts s)).2.
Proof.
  destruct r as [st env e]. intros (hs & He & Hd & Ht). simpl in *. subst e. unfold serve, logout, ensure_mutable. simpl.
  rewrite Hd, Ht. unfold mbind, handler_bind, store. simpl. unfold revoke_session.
  destruct (validate_token_hash token); [|done]. by destruct (revoke_token _ _ _).
Qed.

Lemma serve_accounts r s : ordinary r ->
  exists ops, Forall (accounted r) ops /\ sv_accounts (serve r s).2 = account_runs ops (sv_accounts s).
Proof.
  destruct r as [st env e]. unfold ordinary. intros Ho. simpl in Ho.
  destruct e as [email handle name password|dummy email password|hs|hs key|hs q|o]; unfold serve; cbn [rq_state rq_env rq_event].
  - apply runs_outcome. unfold register. handler_binds.
    apply runs_bind; [by eapply (runs_store _ _ (CreateUser _ _ _ _ _ _))|]. intros user _ _ _.
    apply runs_bind; [by apply runs_authenticated|]. intros. handler_binds. auto with auth.
  - apply runs_outcome. unfold login. handler_binds.
    apply runs_bind; [by apply runs_authenticated|]. intros. handler_binds. auto with auth.
  - apply runs_outcome. unfold logout. handler_binds. apply runs_bind; [|auto with auth].
    destruct (session_hash_from_headers hs); [|auto with auth].
    apply runs_bind; [by eapply (runs_store _ _ (RevokeSession _ _))|auto with auth].
  - apply runs_outcome. unfold exchange_access_key. apply runs_bind; [auto with auth|].
    intros [] ? ? [Horigin _]%handler_lift_Ok. destruct (as_admin_auth st) as [phc days|settings days|] eqn:Hr; [|auto with auth..].
    handler_binds. match goal with H : ensure (default false _) _ = Ok _ |- _ => apply ensure_Ok in H end.
    destruct (argon2_verify phc (bytes key)) as [[]|] eqn:Hv; try done.
    apply runs_administrator_session; [done..|]. exists phc, days. done.
  - apply runs_outcome. unfold finish_external. destruct (as_admin_auth st) as [phc days|settings days|] eqn:Hr; [auto with auth| |auto with auth].
    handler_binds.
    match goal with H : ok_or (keep_length _ _ (oc_code q)) _ = Ok ?c |- _ => apply ok_or_Ok, keep_length_Some in H; rename c into code end.
    match goal with H : ok_or (keep_length _ _ (oc_state q)) _ = Ok ?c |- _ => apply ok_or_Ok, keep_length_Some in H end.
    match goal with H : decode_oidc_browser_state _ _ _ = Ok ?b0 |- _ => rename b0 into b end.
    match goal with H : ensure (str_eqb _ _) _ = Ok _ |- _ => apply ensure_Ok, str_eqb_eq in H as <- end.
    destruct (ev_oidc env code (ob_pkce_verifier b) (ob_nonce b)) as [| | |issuer subject matches] eqn:Hoidc; [auto with auth..|].
    handler_binds.
    match goal with H : ensure (str_eqb subject _) _ = Ok _ |- _ => apply ensure_Ok, str_eqb_eq in H as -> end.
    match goal with H : ensure matches _ = Ok _ |- _ => apply ensure_Ok in H as -> end.
    unfold admin_internal. apply runs_bind.
    { apply runs_map_err. by eapply (runs_store _ _ (BindExternalIdentity _ _ _ _ _)). }
    intros _ _ _ _. handler_binds. apply runs_bind; [|intros; handler_binds; auto with auth].
    apply runs_administrator_session; [done..|]. exists settings, days, b, code, issuer. done.
  - destruct (account_run o (sv_accounts s)) as [e db] eqn:E. exists [o].
    simpl. rewrite E. split; [|done]. repeat constructor. by destruct o.
Qed.

(** The operations of a history, request by request. *)
Definition explains (r : Request) (ops : list account_op) : Prop :=
  Forall (accounted r) ops /\ forall token, logs_out token r -> exists now, RevokeSession token now ∈ ops.

Lemma serve_explained r s : ordinary r ->
  exists ops, explains r ops /\ sv_accounts (serve r s).2 = account_runs ops (sv_accounts s).
Proof.
  intros Hr. destruct r as [st env e] eqn:E. destruct e as [| |hs| | |]; try
    (destruct (serve_accounts r s) as (ops & Hops & Ha); [by subst r|];
     subst r; exists ops; split; [split; [done|]|done]; by intros token (? & ? & _)).
  destruct (as_delivery_only st) eqn:Hd; [|destruct (session_hash_from_headers hs) as [token|] eqn:Ht].
  - destruct (serve_accounts r s) as (ops & Hops & Ha); [by subst r|]. subst r. exists ops. split; [split; [done|]|done].
    intros token (? & ? & ? & _). simpl in *. congruence.
  - exists [RevokeSession token (ev_now env 0)]. split; [split|].
    + by repeat constructor.
    + intros token' (hs' & [= <-] & _ & Ht'). assert (token' = token) as -> by congruence. eexists. by constructor.
    + by rewrite (logout_runs token) by (by exists hs).
  - destruct (serve_accounts r s) as (ops & Hops & Ha); [by subst r|]. subst r. exists ops. split; [split; [done|]|done].
    intros token (? & [= <-] & _ & ?). congruence.
Qed.

Lemma serves_explained rs s : Forall ordinary rs ->
  exists opss, Forall2 explains rs opss /\ sv_accounts (serves rs s) = account_runs (mjoin opss) (sv_accounts s).
Proof.
  intros Hrs. revert s. induction Hrs as [|r rs Hr Hrs IH]; intros s; [by exists []|].
  destruct (serve_explained r s Hr) as (ops & Hops & E1). destruct (IH (serve r s).2) as (opss & Hopss & E2).
  exists (ops :: opss). split; [by constructor|].
  change (serves (r :: rs) s) with (serves rs (serve r s).2). rewrite E2, E1. simpl. by rewrite account_runs_app.
Qed.

Lemma join_split {A} (l : list (list A)) before o after : mjoin l = before ++ o :: after ->
  exists pre x y post, l = pre ++ (x ++ o :: y) :: post /\ after = y ++ mjoin post.
Proof.
  revert before. induction l as [|a l IH]; intros before E; simpl in E; [by destruct before|].
  apply app_eq_inv in E as [(k & -> & E)|(k & -> & E)].
  - destruct k as [|o' k]; simpl in E.
    + destruct (IH [] (eq_sym E)) as (pre & x & y & post & -> & ->). exists ((before ++ []) :: pre), x, y, post. done.
    + injection E as <- ->. exists [], before, k, l. done.
  - destruct (IH k E) as (pre & x & y & post & -> & ->). exists (a :: pre), x, y, post. done.
Qed.

(** C18. The primary owner's authority comes from a verified credential: when
    the administrator guard accepts a request as the human owner's, after any
    history of registrations, logins, logouts, credential exchanges and other
    store operations, then some earlier request of that history verified an
    access key against the configured hash, or an identity token whose subject
    is the configured owner in answer to the login state the same browser was
    given; it did so under the binding the store holds now, the presented
    cookie is the hash of that request's random token, and no later request
    logged it out. *)
Theorem owner_authority_comes_from_a_credential rs s0 st env hs method path `{!UuidLib} :
  Forall ordinary rs -> sv_accounts s0 = no_accounts ->
  let db := sv_accounts (serves rs s0) in
  require_admin st env hs method path db = Ok HumanOwner ->
  exists before r after token c, rs = before ++ r :: after
    /\ verified_credential r /\ session_hash_from_headers hs = Some token /\ token = fresh_token r
    /\ control_plane db = Some c /\ binding_fingerprint (as_admin_auth (rq_state r)) = ct_binding_fingerprint c
    /\ Forall (fun r' => ~ logs_out token r') after.
Proof.
  intros Hrs Hstart db Hadmin. unfold require_admin in Hadmin.
  destruct (as_delivery_only st); [done|]. destruct (bool_decide _); [done|].
  destruct (session_hash_from_headers hs) as [token|] eqn:Htok; simpl in Hadmin; [|by destruct (is_some_and _ _)].
  destruct (get_primary_owner_session token (ev_now env 0) db) as [p|] eqn:Hp; simpl in Hadmin; [|by destruct (is_some_and _ _)].
  destruct (get_primary_owner_session_Ok _ _ _ _ Hp) as (row & c & (Hrow & Hlive & _) & Hc & Hrt & _ & Hmeth & _ & _).
  assert (ss_auth_method row <> Legacy) as Hne by (intros E; rewrite E in Hmeth; by destruct (ct_auth_mode c)).
  destruct (serves_explained rs s0 Hrs) as (opss & Hexp & Edb). rewrite Hstart in Edb. fold db in Edb.
  rewrite Edb in Hrow, Hc.
  destruct (live_owner_session_origin _ _ _ _ Hrow Hlive Hne Hc) as (before & o & after & E & (id & n0 & n1 & n2 & ->) & Hrev).
  destruct (join_split _ _ _ _ E) as (pre & x & y & post & -> & ->).
  apply Forall2_app_inv_r in Hexp as (rs1 & rs2 & Hpre & Hexp & ->).
  apply Forall2_cons_inv_r in Hexp as (r & rs3 & [Hops _] & Hpost & ->).
  apply Forall_app in Hops as [_ [(Hv & Ht & Hfp) _]%Forall_cons].
  rewrite Hrt in *. exists rs1, r, rs3, token, c. split_and!; try done; [by rewrite Edb|].
  apply Forall_forall. intros r' Hin Hout.
  apply list_elem_of_lookup in Hin as [i Hi].
  destruct (Forall2_lookup_l _ _ _ _ _ Hpost Hi) as (ops & Hops' & [_ Hl]).
  destruct (Hl _ Hout) as [now Hnow]. apply list_elem_of_lookup_2 in Hops'. apply (Hrev now), elem_of_app. right. apply list_elem_of_join. by exists ops.
Qed.

(** ** Cookies come back *)

(** [base64] in the alphabet of cookies. *)
Hypothesis b64_round_trip : forall l, is_bytes l -> b64_decode (b64_encode l) = Some l.
Hypothesis b64_alphabet : forall l, is_bytes l -> Forall (fun c => url_safe_char c = true) (b64_encode l).

(** A browser keeps the first pair of a [Set-Cookie] value and sends its pairs
    separated by a semicolon and a space. *)
Definition browser_pair (set_cookie : rstr) : option (rstr * rstr) :=
  split_once 61 (default [] (head (split 59 set_cookie))).
Definition cookie_header (pairs : list (rstr * rstr)) : rstr :=
  join (lit "; ") ((fun p => p.1 ++ lit "=" ++ p.2) <$> pairs).
Definition cookie_char (c : N) : Prop := is_whitespace c = false /\ c <> 59%N.
Definition cookie_ok (p : rstr * rstr) : Prop := Forall cookie_char p.1 /\ Forall cookie_char p.2 /\ 61%N ∉ p.1.

Lemma cookie_chars s : Forall cookie_char s -> solid s /\ 59%N ∉ s.
Proof.
  intros Hs. unfold solid. rewrite Forall_forall in Hs. split.
  - apply Forall_forall. intros c Hc. by destruct (Hs c Hc).
  - intros Hin. by destruct (Hs _ Hin).
Qed.
Lemma url_safe_ascii c : url_safe_char c = true -> (c < 128)%N.
Proof.
  unfold url_safe_char, is_ascii_alphanumeric, is_ascii_lowercase, is_ascii_uppercase, is_ascii_digit, in_range.
  rewrite !orb_true_iff, !andb_true_iff, !N.leb_le, !N.eqb_eq. lia.
Qed.
Lemma url_safe_cookie c : url_safe_char c = true -> cookie_char c.
Proof.
  intros Hc. pose proof (url_safe_ascii c Hc) as Hsmall.
  assert (Hall : forallb (fun c => implb (url_safe_char c) (negb (is_whitespace c) && negb (c =? 59)%N)) (N.of_nat <$> seq 0 128) = true)
    by by vm_compute.
  rewrite forallb_forall in Hall. specialize (Hall c). rewrite Hc in Hall. simpl in Hall.
  assert (Hin : List.In c (N.of_nat <$> seq 0 128)).
  { apply list_elem_of_In, list_elem_of_fmap. exists (N.to_nat c). split; [lia|apply elem_of_seq; lia]. }
  specialize (Hall Hin) as Hok.
  apply andb_true_iff in Hok as [Hw Hs]. split; [by apply negb_true_iff|]. intros ->. done.
Qed.
Lemma pair_text_ok p : cookie_ok p -> Forall cookie_char (p.1 ++ lit "=" ++ p.2).
Proof. intros (?&?&_). rewrite !Forall_app. split_and!; [done| |done]. by repeat constructor. Qed.

Lemma cookie_pairs_header pairs : pairs <> [] -> Forall cookie_ok pairs -> cookie_pairs (cookie_header pairs) = pairs.
Proof.
  intros Hne Hok.
  assert (Hjoin : cookie_header pairs = join [59%N] (match pairs with
    | [] => [] | p :: ps => (p.1 ++ lit "=" ++ p.2) :: ((fun q => 32%N :: q.1 ++ lit "=" ++ q.2) <$> ps) end)).
  { unfold cookie_header. clear. destruct pairs as [|p pairs]; [done|]. revert p.
    induction pairs as [|q pairs IH]; intros p; [done|].
    cbn [fmap list_fmap join] in *. rewrite (IH q). by destruct pairs. }
  unfold cookie_pairs. rewrite Hjoin. clear Hjoin. destruct pairs as [|p pairs]; [done|]. clear Hne.
  assert (Hsplit : forall q, cookie_ok q -> split_once 61 (q.1 ++ lit "=" ++ q.2) = Some q).
  { intros [n v] (_ & _ & ?). by apply split_once_app. }
  apply Forall_cons in Hok as [Hp Hok]. rewrite split_join_inv.
  - cbn [omap list_omap]. rewrite trim_solid, Hsplit by (done || by apply cookie_chars, pair_text_ok). f_equal.
    clear Hp. induction Hok as [|q pairs Hq Hok IH]; [done|]. cbn [fmap list_fmap omap list_omap].
    rewrite trim_space_solid, Hsplit by (done || by apply cookie_chars, pair_text_ok). by f_equal.
  - done.
  - constructor; [by apply cookie_chars, pair_text_ok|]. apply Forall_fmap. eapply Forall_impl; [exact Hok|].
    intros q Hq Hin. cbn in Hin. apply elem_of_cons in Hin as [?|Hin]; [done|].
    by apply (cookie_chars _ (pair_text_ok q Hq)) in Hin.
Qed.

Lemma split_solid d s : d ∉ s -> split d s = [s].
Proof. intros Hd. change s with (join [d] [s]) at 1. apply split_join_inv; [done|by repeat constructor]. Qed.
Lemma browser_keeps name value rest : Forall cookie_char value -> 61%N ∉ name -> Forall cookie_char name ->
  browser_pair (name ++ lit "=" ++ value ++ 59%N :: rest) = Some (name, value).
Proof.
  intros Hv Heq Hn. unfold browser_pair.
  replace (name ++ lit "=" ++ value ++ 59%N :: rest) with ((name ++ lit "=" ++ value) ++ 59%N :: rest) by by rewrite <- !app_assoc.
  rewrite split_head, split_solid.
  - by apply split_once_app.
  - apply (cookie_chars (name ++ lit "=" ++ value)), (pair_text_ok (name, value)). by split_and!.
Qed.
Lemma session_cookie_shape st token age :
  exists rest, session_cookie st token age = SESSION_COOKIE ++ lit "=" ++ token ++ 59%N :: rest.
Proof. eexists (tail (lit "; HttpOnly; SameSite=Lax; Path=") ++ _). reflexivity. Qed.
Lemma find_pair_at name value before after : Forall (fun p => p.1 <> name) before ->
  find_pair name (before ++ (name, value) :: after) = Some value.
Proof.
  induction 1 as [|[n v] before Hn Hb IH]; cbn.
  - by rewrite (proj2 (str_eqb_eq name name) eq_refl).
  - cbn in Hn. destruct (str_eqb n name) eqn:E; [by apply str_eqb_eq in E|done].
Qed.

(** A session cookie is recognised when it comes back: whatever other
    cookies the browser sends around it, the pair a browser keeps from the
    server's [Set-Cookie] value is read back as the hash of the random token
    the session was stored under. *)
Theorem session_cookie_comes_back st raw age before pair after header hs :
  is_bytes raw -> size_of raw = 32%N ->
  browser_pair (session_cookie st (b64_encode raw) age) = Some pair ->
  Forall cookie_ok (before ++ after) -> Forall (fun p => p.1 <> SESSION_COOKIE) before ->
  header_get COOKIE hs = Some header -> header_to_str header = Some (cookie_header (before ++ pair :: after)) ->
  session_hash_from_headers hs = Some (sha256 raw).
Proof.
  intros Hraw Hsize Hpair Hok Hbefore Hget Hstr.
  pose proof (b64_alphabet raw Hraw) as Hb.
  assert (Hchars : Forall cookie_char (b64_encode raw)) by (eapply Forall_impl; [exact Hb|]; apply url_safe_cookie).
  assert (pair = (SESSION_COOKIE, b64_encode raw)) as ->.
  { destruct (session_cookie_shape st (b64_encode raw) age) as [rest E]. rewrite E, browser_keeps in Hpair;
      [congruence|done|by apply contains_char_false; vm_compute|by repeat constructor]. }
  unfold session_hash_from_headers. rewrite Hget. cbn. rewrite Hstr. cbn.
  rewrite cookie_pairs_header.
  - rewrite find_pair_at by done. cbn. rewrite b64_round_trip by done. cbn. by rewrite Hsize.
  - by destruct before.
  - apply Forall_app in Hok as [Ha Hb']. apply Forall_app; split; [done|]. constructor; [|done].
    split_and!; [by repeat constructor|done|by apply contains_char_false; vm_compute].
Qed.

(** ** The binding fingerprint *)

Definition binding_parts (r : AdminAuthRuntime) : list rstr :=
  match r with
  | AccessKey phc _ => [phc]
  | External s _ => [ex_adapter s; ex_issuer_url s; ex_client_id s; ex_owner_subject s; default [] (ex_client_secret s)]
  | Disabled => []
  end.

Lemma terminated_inj ps qs : length ps = length qs ->
  Forall (fun p => is_text p /\ 0%N ∉ p) ps -> Forall (fun p => is_text p /\ 0%N ∉ p) qs ->
  mjoin ((fun p => bytes p ++ [0%N]) <$> ps) = mjoin ((fun p => bytes p ++ [0%N]) <$> qs) -> ps = qs.
Proof.
  revert qs. induction ps as [|p ps IH]; intros [|q qs] Hl Hps Hqs E; try done.
  apply Forall_cons in Hps as [[Hp Hp0] Hps]. apply Forall_cons in Hqs as [[Hq Hq0] Hqs].
  cbn in E. rewrite <- !app_assoc in E. cbn in E.
  apply app_sep_inj in E as [E1 E2]; [|by apply bytes_nul_free..].
  f_equal; [by apply bytes_inj|]. apply IH; [by injection Hl|done..].
Qed.

(** The stored binding fingerprint covers every setting it stands for: two
    administrator configurations of NUL-free texts with the same fingerprint
    have the same mode and the same access-key hash, or the same adapter,
    issuer, client, secret and owner subject, or SHA-256 collides.  Changing
    any of them needs the explicit rotation that revokes the owner's
    sessions. *)
Theorem fingerprint_covers_the_binding r r' :
  Forall (fun p => is_text p /\ 0%N ∉ p) (binding_parts r) -> Forall (fun p => is_text p /\ 0%N ∉ p) (binding_parts r') ->
  binding_fingerprint r = binding_fingerprint r' ->
  (mode r = mode r' /\ binding_parts r = binding_parts r') \/ sha256_collides.
Proof.
  intros Hr Hr' E. unfold binding_fingerprint in E. apply sha256_inj in E as [E|]; [left|by right].
  unfold binding_message in E.
  do 2 apply app_inv_head in E.
  destruct r as [phc d|x d|], r' as [phc' d'|x' d'|]; try (by apply (f_equal head) in E); cbn [mode binding_parts] in *.
  - do 2 apply app_inv_head in E. apply Forall_singleton in Hr as [Hr _]. apply Forall_singleton in Hr' as [Hr' _].
    split; [done|]. f_equal. by apply bytes_inj.
  - do 2 apply app_inv_head in E. split; [done|]. by apply terminated_inj.
Qed.

(** ** The browser state of an external login *)

Hypothesis digest_bytes : forall m, is_bytes (sha256 m).
Hypothesis digest_size : forall m, size_of (sha256 m) = 32%N.
Hypothesis json_round_trip : forall v, from_slice (to_vec v) = Some v.
Hypothesis json_bytes : forall v, is_bytes (to_vec v).

Lemma u64_of_show n : (n < 2 ^ 64)%N -> u64_of (JNumber (show_N n)) = Some n.
Proof.
  intros Hn. unfold u64_of. destruct (show_N_decimal n) as (He & Hd & Hv).
  rewrite He, Hd, Hv. cbn. by rewrite (proj2 (N.ltb_lt _ _)).
Qed.
#[local] Arguments u64_of : simpl never.
#[local] Arguments oidc_serialize : simpl never.
#[local] Arguments oidc_of_value : simpl never.
#[local] Arguments oidc_state_signature : simpl never.

Lemma browser_state_reads_back b : (ob_issued_at_unix b < 2 ^ 64)%N -> oidc_of_value (oidc_serialize b) = Some b.
Proof.
  intros Hn. transitivity (n ← u64_of (JNumber (show_N (ob_issued_at_unix b)));
    Some {| ob_state := ob_state b; ob_nonce := ob_nonce b; ob_pkce_verifier := ob_pkce_verifier b; ob_issued_at_unix := n |});
    [reflexivity|]. rewrite u64_of_show by done. by destruct b.
Qed.
Lemma encoded_bytes l : is_bytes l -> bytes (b64_encode l) = b64_encode l /\ 46%N ∉ b64_encode l.
Proof.
  intros Hl. pose proof (b64_alphabet l Hl) as Ha. rewrite Forall_forall in Ha. split.
  - apply bytes_of_ascii, Forall_forall. intros c Hc. by apply url_safe_ascii, Ha.
  - intros Hin. by apply Ha in Hin.
Qed.
#[local] Arguments size_of : simpl never.
Lemma signature_size k fp payload : size_of (oidc_state_signature k fp payload) = 32%N.
Proof. apply digest_size. Qed.
Lemma signature_decodes k fp payload :
  b64_decode (b64_encode (oidc_state_signature k fp payload)) = Some (oidc_state_signature k fp payload).
Proof. apply b64_round_trip, digest_bytes. Qed.

(** A login that was started can be finished: the state cookie the server
    signs for the browser is read back, under the same key and binding, as the
    state, nonce and verifier it was made from, within ten minutes. *)
Theorem started_login_can_be_finished k fp b signed now :
  encode_oidc_browser_state k fp b = Ok signed -> (ob_issued_at_unix b < 2 ^ 64)%N ->
  oidc_bounded b = true -> oidc_fresh now b = true ->
  decode_oidc_browser_state_at k fp signed now = Ok b.
Proof.
  unfold encode_oidc_browser_state, decode_oidc_browser_state_at. intros He Hn Hb Hf.
  destruct (2048 <? size_of (to_vec (oidc_serialize b)))%N eqn:Hsize; [done|]. injection He as <-.
  set (payload := to_vec (oidc_serialize b)) in *.
  destruct (encoded_bytes payload (json_bytes _)) as [_ Hdot].
  destruct (encoded_bytes (oidc_state_signature k fp (bytes (b64_encode payload)))) as [_ Hdot']; [apply digest_bytes|].
  change (lit "." ++ ?x) with (46%N :: x). rewrite split_once_app by done.
  rewrite (proj2 (contains_char_false _ _) Hdot'). cbn. rewrite signature_decodes. cbn.
  rewrite signature_size. cbn.
  rewrite bool_decide_eq_true_2 by done. cbn. rewrite b64_round_trip by apply json_bytes. cbn.
  rewrite Hsize. cbn. unfold payload. rewrite json_round_trip. cbn. rewrite browser_state_reads_back by done. cbn.
  by rewrite Hb, Hf.
Qed.

(** Nothing else passes for it: a state cookie that is accepted while it
    carries the signature the server made for some login was made for exactly
    that login, with the same key and under the same administrator binding, is
    at most ten minutes old and at most thirty seconds ahead, or SHA-256
    collides. *)
Theorem login_state_is_authentic_and_fresh k fp signed now b k0 fp0 b0 signed0 encoded encoded0 signature :
  length k = 32 -> length k0 = 32 -> length fp = length fp0 -> is_text encoded ->
  encode_oidc_browser_state k0 fp0 b0 = Ok signed0 -> (ob_issued_at_unix b0 < 2 ^ 64)%N ->
  split_once 46 signed0 = Some (encoded0, signature) ->
  split_once 46 signed = Some (encoded, signature) ->
  decode_oidc_browser_state_at k fp signed now = Ok b ->
  (k = k0 /\ fp = fp0 /\ b = b0 /\ (ob_issued_at_unix b <= now + 30)%N /\ (now <= ob_issued_at_unix b + OIDC_STATE_LIFETIME)%N)
  \/ sha256_collides.
Proof.
  unfold encode_oidc_browser_state, decode_oidc_browser_state_at. intros Hk Hk0 Hfp Htext He Hn Hs0 Hs Hd.
  destruct (2048 <? size_of (to_vec (oidc_serialize b0)))%N; [done|]. injection He as <-.
  set (payload := to_vec (oidc_serialize b0)) in *.
  destruct (encoded_bytes payload (json_bytes _)) as [Hascii Hdot].
  change (lit "." ++ ?x) with (46%N :: x) in Hs0. rewrite split_once_app in Hs0 by done. injection Hs0 as <- <-.
  rewrite Hs in Hd. apply bind_Ok in Hd as (_ & _ & Hd). rewrite signature_decodes in Hd. cbn in Hd.
  apply bind_Ok in Hd as (_ & _ & Hd). apply bind_Ok in Hd as (_ & Hsig%ensure_Ok%bool_decide_eq_true & Hd).
  unfold oidc_state_signature in Hsig. apply hmac_inj in Hsig as [[-> Hm]|]; [left|by right|done..].
  unfold oidc_state_message in Hm. do 2 apply app_inv_head in Hm. apply app_inj_1 in Hm as [-> Hm]; [|done].
  assert (encoded = b64_encode payload) as ->.
  { apply bytes_inj; [done| |done]. eapply Forall_impl; [by apply b64_alphabet, json_bytes|]. intros c Hc.
    apply url_safe_ascii in Hc. lia. }
  rewrite b64_round_trip in Hd by apply json_bytes. cbn in Hd. apply bind_Ok in Hd as (_ & _ & Hd).
  unfold payload in Hd. rewrite json_round_trip in Hd. cbn in Hd. rewrite browser_state_reads_back in Hd by done. cbn in Hd.
  apply bind_Ok in Hd as (_ & Hf%ensure_Ok%andb_true_iff & [= <-]). destruct Hf as [_ Hf].
  unfold oidc_fresh in Hf. rewrite andb_true_iff, !N.leb_le in Hf. split_and!; [done..|lia|lia].
Qed.

(** ** What the static agent token reaches *)

Section agent.
Context `{!UuidLib}.

(** A path with one UUID segment between fixed parts. *)
Definition one_uuid (prefix suffix : string) (path : rstr) : Prop :=
  exists segment id, path = lit prefix ++ segment ++ lit suffix /\ uuid_parse segment = Some id /\ 47%N ∉ segment.
Lemma uuid_path_true path prefix suffix : uuid_path path (lit prefix) (lit suffix) = true -> one_uuid prefix suffix path.
Proof.
  unfold uuid_path. destruct (strip_prefix (lit prefix) path) as [r|] eqn:Ep; cbn; [|done].
  destruct (strip_suffix (lit suffix) r) as [segment|] eqn:Es; [|done].
  rewrite !andb_true_iff, !negb_true_iff, contains_char_false. intros [[_ Hn] Hu].
  apply strip_prefix_Some in Ep as ->. apply strip_suffix_Some in Es as ->.
  destruct (uuid_parse segment) as [id|] eqn:E; [|done]. by exists segment, id.
Qed.

(** The static agent token is bounded: a request accepted as the agent's
    carries exactly the configured bearer token, on a deployment that is
    neither read-only nor without administrator authentication, and is one of
    six requests: listing, reading or reading the revisions of a document, or
    creating a post, proposing a revision or publishing one.  Everything else
    needs the owner's session. *)
Theorem agent_token_reaches_only_content st env hs method path db :
  require_admin st env hs method path db = Ok McpAgent ->
  as_delivery_only st = false /\ mode (as_admin_auth st) <> ModeDisabled
  /\ (exists value token, header_get AUTHORIZATION hs = Some value /\ header_to_str value = Some (lit "Bearer " ++ token)
        /\ as_mcp_token_hash st = Some (sha256 (bytes token)))
  /\ ((method = GET /\ (path = lit "/api/v1/admin/documents" \/ one_uuid "/api/v1/admin/documents/" "" path
                       \/ one_uuid "/api/v1/admin/documents/" "/revisions" path))
      \/ (method = POST /\ (path = lit "/api/v1/posts" \/ one_uuid "/api/v1/documents/" "/revisions" path
                           \/ one_uuid "/api/v1/documents/" "/publish" path))).
Proof.
  unfold require_admin. destruct (as_delivery_only st); [done|].
  case_bool_decide as Hmode; [done|]. destruct (is_some_and _ (session_hash_from_headers hs)); [done|].
  destruct (is_some_and _ (bearer_token_hash hs)) eqn:Hb; [|done]. intros _. split_and!; [done|done|..].
  - unfold bearer_token_hash in Hb. destruct (header_get AUTHORIZATION hs) as [value|] eqn:Eg; [|done]. cbn in Hb.
    destruct (header_to_str value) as [text|] eqn:Eh; [|done]. cbn in Hb.
    destruct (strip_prefix (lit "Bearer ") text) as [token|] eqn:Et; [|done]. apply strip_prefix_Some in Et as ->.
    cbn in Hb. apply andb_true_iff in Hb as [_ Hb]. destruct (as_mcp_token_hash st) as [expected|]; [|done].
    cbn in Hb. apply bool_decide_eq_true in Hb as <-. by exists value, token.
  - destruct (bearer_token_hash hs); [|done]. cbn in Hb. apply andb_true_iff in Hb as [Hr _].
    unfold mcp_content_route in Hr. destruct method; try done; [left|right]; (split; [done|]);
      rewrite !orb_true_iff, str_eqb_eq in Hr; destruct Hr as [[Hr|Hr]|Hr]; auto using uuid_path_true.
Qed.
End agent.

(** ** A login becomes a session *)

Lemma inserted_session_is_found db id token user expires n0 n1 n2 r d now :
  create_session user token expires id n0 n1 n2 db = (Ok r, d) -> (now < expires)%Z ->
  exists s, get_session token now d = Ok s /\ sn_user_id s = user /\ sn_auth_method s = Legacy
    /\ user_table d = user_table db.
Proof.
  unfold create_session. destruct (validate_token_hash token ≫= _) as [u|] eqn:Hv; [|done].
  apply bind_Ok in Hv as ([] & Hsize & _).
  unfold then_load, autocommit. destruct (insert_session_statement _ _ _ _ _ _ _ _ db) as [[u' d']|] eqn:E; [|done].
  intros [= _ <-] Hnow. pose proof E as Ed. apply insert_session_statement_Ok in Ed.
  unfold insert_session_statement in E. inv_acc. unfold insert_session_row in *. inv_sql. cbn in *.
  match goal with |- context [<[id := ?row]> (session_table db)] => set (s := row) end.
  assert (Hf : find_row (fun _ s => is_live_token token s) (<[id := s]> (session_table db)) = Some (id, s)).
  { destruct (find_row _ _) as [[k v]|] eqn:Ef.
    - apply find_row_Some in Ef as [Hk [Ht _]%is_live_token_true].
      apply lookup_insert_Some in Hk as [[-> <-]|[_ Hk]]; [done|].
      match goal with Hu : forall k v, _ -> bool_decide _ = false |- _ => apply Hu, bool_decide_eq_false in Hk end. done.
    - rewrite find_row_None in Ef. specialize (Ef id s (lookup_insert_eq _ _ _)).
      assert (is_live_token token s = true) by (by apply is_live_token_true). congruence. }
  exists {| sn_id := id; sn_user_id := user; sn_auth_epoch := 0; sn_auth_method := Legacy; sn_expires_at := expires;
            sn_created_at := n2; sn_revoked_at := None |}.
  split_and!; [|done..]. unfold get_session, load_active_session_by_hash.
  match goal with Hv : validate_token_hash token = Ok () |- _ => rewrite Hv end. cbn -[find_row]. rewrite Hf. cbn.
  by rewrite (proj2 (Z.leb_gt _ _)).
Qed.

Lemma handler_bind_Ok {E A B} (m : handler E A) (k : A -> handler E B) s b s' :
  (m ≫= k) s = (Ok b, s') <-> exists a s1, m s = (Ok a, s1) /\ k a s1 = (Ok b, s').
Proof. unfold mbind, handler_bind. destruct (m s) as [[a|e] s1]; naive_solver. Qed.
Lemma handler_ret_Ok {E A} (a b : A) s s' : (mret a : handler E A) s = (Ok b, s') <-> a = b /\ s = s'.
Proof. unfold mret, handler_ret. naive_solver. Qed.
Lemma query_Ok {A} (f : AccountDB -> result RepositoryError A) s a s' :
  query f s = (Ok a, s') -> f (sv_accounts s) = Ok a /\ s' = s.
Proof. unfold query. destruct (f _); cbn; naive_solver. Qed.
Lemma query_optional_Ok {A} (f : AccountDB -> result RepositoryError A) s a s' :
  query_optional f s = (Ok (Some a), s') -> f (sv_accounts s) = Ok a /\ s' = s.
Proof. unfold query_optional. destruct (f _) as [|[]]; naive_solver. Qed.
Lemma store_Ok {A} (f : AccountDB -> result RepositoryError A * AccountDB) s a s' :
  store f s = (Ok a, s') -> f (sv_accounts s) = (Ok a, sv_accounts s').
Proof. unfold store. destruct (f _) as [[]]; cbn; naive_solver. Qed.
Lemma session_payload_accounts st rs s a s' : session_payload st rs s = (a, s') -> sv_accounts s' = sv_accounts s.
Proof.
  unfold session_payload. destruct rs; [destruct (as_delivery_only st)|]; [by intros [= _ <-]| |by intros [= _ <-]].
  unfold mbind, handler_bind, query. destruct (session_blog _ _ _) as [[]|]; cbn; by intros [= _ <-].
Qed.
Lemma member_admit_accounts env key s a s' : member_admit env key s = (a, s') -> sv_accounts s' = sv_accounts s.
Proof. unfold member_admit. destruct (admit_at _ _ _ _). naive_solver. Qed.

(** A login opens the session of the member whose password it verified:
    a successful login found a user by the normalised address, verified the
    password against that user's stored hash, and from then on, until it
    expires, its cookie resolves to that user, without administrator rights. *)
Theorem login_opens_the_members_session st env dummy email password s reply s' :
  login st env dummy email password s = (Ok reply, s') ->
  exists normalized user, validate_email email = Ok normalized
    /\ find_user_by_email normalized (sv_accounts s) = Ok user
    /\ argon2_verify (ur_password_phc user) (bytes password) = Some true
    /\ rp_set_cookies reply = [session_cookie st (b64_encode (ev_raw_token env)) (30 * 24 * 60 * 60)]
    /\ forall st2 env2 hs, session_hash_from_headers hs = Some (sha256 (ev_raw_token env)) ->
        as_delivery_only st2 = false -> as_local_auth_enabled st2 = true ->
        (ev_now env2 0 < ev_now env 2 + days 30)%Z ->
        (resolve_session_user st2 env2 hs s').1 = Ok (Some {| rs_user := user; rs_instance_administrator := false |}).
Proof.
  intros Hl. unfold login in Hl. apply handler_bind_Ok in Hl as (_ & s1 & [_ ->]%handler_lift_Ok & Hl).
  apply handler_bind_Ok in Hl as (normalized & s1 & [He ->]%handler_lift_Ok & Hl).
  apply handler_bind_Ok in Hl as (_ & s1 & Ha%member_admit_accounts & Hl).
  apply handler_bind_Ok in Hl as (_ & s2 & [_ ->]%handler_lift_Ok & Hl).
  apply handler_bind_Ok in Hl as (candidate & s2 & Hq & Hl).
  apply handler_bind_Ok in Hl as (verified & s3 & [Hv ->]%handler_lift_Ok & Hl).
  apply handler_bind_Ok in Hl as (user & s3 & [Hu ->]%handler_lift_Ok & Hl).
  destruct candidate as [u|]; [|done]. destruct verified; [|done]. apply ok_or_Ok in Hu. injection Hu as ->.
  apply query_optional_Ok in Hq as [Hq ->]. rewrite Ha in Hq.
  apply handler_bind_Ok in Hl as (reply' & s4 & Hr & Hl).
  apply handler_bind_Ok in Hl as (unit0 & s5 & Hforget & [<- <-]%handler_ret_Ok).
  unfold member_forget in Hforget. injection Hforget as _ <-.
  unfold verify_password in Hv. apply bind_Ok in Hv as (_ & _ & Hv%ok_or_Ok). cbn in Hv.
  unfold authenticated_response in Hr. apply handler_bind_Ok in Hr as (sess & s5 & Hstore%store_Ok & Hr).
  apply handler_bind_Ok in Hr as (payload & s6 & Hp%session_payload_accounts & [<- <-]%handler_ret_Ok).
  exists normalized, user. split_and!; [done..|]. intros st2 env2 hs Hh Hd Hlocal Hnow.
  destruct (inserted_session_is_found _ _ _ _ _ _ _ _ _ _ (ev_now env2 0) Hstore Hnow) as (sess' & Hs & Hsu & Hsm & Htab).
  unfold resolve_session_user. rewrite Hd, Hh. unfold query_optional, member_forget. cbn [sv_accounts with_member_attempts].
  rewrite Hp, Hs. cbn. rewrite Hsm. cbn. rewrite Hlocal, Hsu. cbn.
  unfold find_user_by_email in Hq. apply bind_Ok in Hq as (column & _ & Hq). unfold load_user_by_column in Hq.
  apply bind_Ok in Hq as ([id0 row] & Hf%ok_or_Ok & [= <-]). apply find_row_Some in Hf as [Hrow _]. cbn.
  unfold get_user_by_id, load_user_by_id. rewrite Htab, Ha, Hrow. done.
Qed.
End authority.
