(* ===== verification/AuthWitnesses.v ===== *)
(** * The authentication theorems at concrete inputs

    A deployment with an access key: its owner signs in, the cookie comes back
    and is accepted; a member registers and signs in; an external login starts
    and is finished. *)

From Stdlib Require Import Bool NArith ZArith Lia.
From S2P Require Import Prelude Text Extern StoreBase StoreTaxonomy Accounts AccountsSpec AccountsRefine AccountsTheorems AccountsWitnesses Admission Signing CacheHttp Auth AuthTheorems.
Import ToySigning.
Import ToyHttp.
Import Toy.

#[export] Instance toy_origin : OriginLib := fun u => tu_scheme u ++ lit "://" ++ tu_host u.
(** A hash is the password behind the name of the algorithm. *)
#[export] Instance toy_argon2 : Argon2Lib := {
  argon2_verify phc password := p ← strip_prefix (lit "$argon2id$") phc; Some (bool_decide (bytes p = password));
  argon2_hash salt password := Some (lit "$argon2id$" ++ password);
}.

Definition public_url : Url := {| tu_text := lit "https://blog.example"; tu_scheme := lit "https"; tu_host := lit "blog.example"; tu_path := lit "/" |}.
Definition access_key : rstr := lit "0123456789abcdef0123456789abcdef".
Definition by_key : AdminAuthRuntime := AccessKey (lit "$argon2id$" ++ access_key) 30.
Definition deployment : AppState := {|
  as_admin_auth := by_key; as_site_id := 1; as_public_url := public_url; as_delivery_only := false;
  as_registration_open := true; as_local_auth_enabled := true; as_collaboration_enabled := true;
  as_secure_session_cookie := true; as_cache := true; as_cache_signing_key := repeat 7%N 32;
  as_mcp_token_hash := Some (sha256 (bytes (lit "agent"))) |}.
Definition env (t : Z) (token : N) : Env := {|
  ev_now := fun _ => t; ev_unix_time := Some 5000%N; ev_instant := 100; ev_order := map_to_list; ev_permit := true;
  ev_redis := Some true; ev_raw_token := repeat token 32; ev_salt := []; ev_id := token;
  ev_oidc := fun _ _ _ => ClientUnavailable |}.
Definition empty_server : Server := {|
  sv_accounts := no_accounts;
  sv_access_key_attempts := {| kl_buckets := ∅; kl_maximum_buckets := 512; kl_attempts_per_window := 6; kl_window := 60000000000 |};
  sv_member_attempts := {| kl_buckets := ∅; kl_maximum_buckets := 4096; kl_attempts_per_window := 10; kl_window := 60000000000 |} |}.
Definition request (t : Z) (token : N) (e : Event) : Request := {| rq_state := deployment; rq_env := env t token; rq_event := e |}.
Definition presenting (token : N) : Headers := [(COOKIE, lit "theme=dark; osb_session=" ++ b64_encode (repeat token 32))].

Definition owner_signs_in : list Request :=
  [request 10 1 (Operation (ProvisionPrimaryOwnerSite home ModeAccessKey (binding_fingerprint by_key) 10 10));
   request 20 8 (ExchangeAccessKey [] access_key);
   request 30 9 (ExchangeAccessKey [] (lit "0123456789abcdef0123456789abcdeX"))].

Lemma owner_authority_comes_from_a_credential_witness :
  let db := sv_accounts (serves owner_signs_in empty_server) in
  require_admin deployment (env 40 0) (presenting 8) POST (lit "/api/v1/assets") db = Ok HumanOwner
  /\ require_admin deployment (env 40 0) (presenting 9) POST (lit "/api/v1/assets") db = Err ApiUnauthorized
  /\ exists before r after token c, owner_signs_in = before ++ r :: after
    /\ verified_credential r /\ session_hash_from_headers (presenting 8) = Some token /\ token = fresh_token r
    /\ control_plane db = Some c /\ binding_fingerprint (as_admin_auth (rq_state r)) = ct_binding_fingerprint c
    /\ Forall (fun r' => ~ logs_out token r') after.
Proof.
  split_and!; [vm_compute; reflexivity..|].
  apply (owner_authority_comes_from_a_credential owner_signs_in empty_server deployment (env 40 0) (presenting 8) POST (lit "/api/v1/assets")).
  - by repeat constructor.
  - reflexivity.
  - vm_compute. reflexivity.
Defined.

Lemma toy_digest_size m : size_of (sha256 m) = 32%N.
Proof. unfold size_of, sha256, toy_digest. by rewrite length_fmap, length_seq. Qed.
Lemma session_cookie_comes_back_witness :
  session_hash_from_headers (presenting 8) = Some (sha256 (repeat 8%N 32)).
Proof.
  eapply (session_cookie_comes_back b64_round_trip b64_alphabet deployment (repeat 8%N 32) 60
    [(lit "theme", lit "dark")] (SESSION_COOKIE, b64_encode (repeat 8%N 32)) []).
  - by repeat constructor.
  - reflexivity.
  - vm_compute. reflexivity.
  - repeat constructor; try done. by apply contains_char_false; vm_compute.
  - repeat constructor. by vm_compute.
  - reflexivity.
  - vm_compute. reflexivity.
Defined.

Definition provider : ExternalAdminSettings := {|
  ex_adapter := lit "oidc"; ex_issuer_url := lit "https://id.example/"; ex_client_id := lit "blog";
  ex_client_secret := None; ex_owner_subject := lit "owner-1"; ex_label := lit "Sign in" |}.
Lemma fingerprint_covers_the_binding_witness :
  (mode (External provider 30) = mode (External provider 7)
   /\ binding_parts (External provider 30) = binding_parts (External provider 7)) \/ sha256_collides.
Proof.
  apply (fingerprint_covers_the_binding (External provider 30) (External provider 7)).
  - repeat constructor; try done; by apply contains_char_false; vm_compute.
  - repeat constructor; try done; by apply contains_char_false; vm_compute.
  - vm_compute. reflexivity.
Defined.

Definition started : OidcBrowserState := {|
  ob_state := lit "st"; ob_nonce := lit "no"; ob_pkce_verifier := repeat 65%N 43; ob_issued_at_unix := 5000 |}.
Definition signing_key : list N := repeat 7%N 32.
Definition external_fingerprint : list N := binding_fingerprint (External provider 30).
Definition state_cookie : rstr :=
  match encode_oidc_browser_state signing_key external_fingerprint started with Ok s => s | Err _ => [] end.

Lemma started_login_can_be_finished_witness :
  decode_oidc_browser_state_at signing_key external_fingerprint state_cookie 5600 = Ok started
  /\ decode_oidc_browser_state_at signing_key external_fingerprint state_cookie 5601 = Err InvalidCredential
  /\ decode_oidc_browser_state_at signing_key (binding_fingerprint by_key) state_cookie 5600 = Err InvalidCredential.
Proof.
  split_and!; [|vm_compute; reflexivity..].
  apply (started_login_can_be_finished b64_round_trip b64_alphabet toy_digest_bytes toy_digest_size json_round_trip json_bytes);
    [vm_compute; reflexivity..].
Defined.

Definition halves : rstr * rstr := default ([], []) (split_once 46 state_cookie).
Lemma ascii_text s : forallb (fun c => c <? 128)%N s = true -> is_text s.
Proof.
  rewrite forallb_Forall. intros H. eapply Forall_impl; [exact H|]. intros c Hc%N.ltb_lt. cbn in Hc. lia.
Qed.
Lemma login_state_is_authentic_and_fresh_witness :
  (signing_key = signing_key /\ external_fingerprint = external_fingerprint /\ started = started
   /\ (ob_issued_at_unix started <= 5600 + 30)%N /\ (5600 <= ob_issued_at_unix started + OIDC_STATE_LIFETIME)%N)
  \/ sha256_collides.
Proof.
  apply (login_state_is_authentic_and_fresh b64_round_trip b64_alphabet toy_digest_bytes json_round_trip json_bytes
    signing_key external_fingerprint state_cookie 5600 started signing_key external_fingerprint started state_cookie halves.1 halves.1 halves.2).
  - reflexivity.
  - reflexivity.
  - reflexivity.
  - apply ascii_text. vm_compute. reflexivity.
  - vm_compute. reflexivity.
  - vm_compute. reflexivity.
  - vm_compute. reflexivity.
  - vm_compute. reflexivity.
  - vm_compute. reflexivity.
Defined.

Lemma agent_token_reaches_only_content_witness :
  let hs := [(AUTHORIZATION, lit "Bearer agent")] in
  require_admin deployment (env 40 0) hs POST (lit "/api/v1/documents/17/publish") no_accounts = Ok McpAgent
  /\ require_admin deployment (env 40 0) hs POST (lit "/api/v1/assets") no_accounts = Err ApiUnauthorized
  /\ as_delivery_only deployment = false.
Proof.
  split_and!; [vm_compute; reflexivity..|].
  apply (agent_token_reaches_only_content deployment (env 40 0) [(AUTHORIZATION, lit "Bearer agent")] POST
    (lit "/api/v1/documents/17/publish") no_accounts). vm_compute. reflexivity.
Defined.

Definition members : Server := serves
  [request 10 3 (Operation (CreateUser (lit "m@example.org") (lit "member") (lit "A member") (lit "$argon2id$correct horse") 2 10))] empty_server.
Lemma login_opens_the_members_session_witness :
  exists reply, (login deployment (env 20 6) (lit "$argon2id$") (lit " M@example.org") (lit "correct horse") members).1 = Ok reply
  /\ (login deployment (env 20 6) (lit "$argon2id$") (lit "m@example.org") (lit "wrong") members).1 = Err InvalidLogin
  /\ exists normalized user, validate_email (lit " M@example.org") = Ok normalized
     /\ find_user_by_email normalized (sv_accounts members) = Ok user
     /\ argon2_verify (ur_password_phc user) (bytes (lit "correct horse")) = Some true.
Proof.
  destruct (login deployment (env 20 6) (lit "$argon2id$") (lit " M@example.org") (lit "correct horse") members) as [[reply|e] s'] eqn:E;
    [|exfalso; vm_compute in E; discriminate E].
  exists reply. split_and!; [done|vm_compute; reflexivity|].
  destruct (login_opens_the_members_session _ _ _ _ _ _ _ _ E) as (normalized & user & ? & ? & ? & _). eauto 10.
Defined.
