(* ===== verification/Features.v ===== *)
(** * The feature registry of the HTTP server

    [apps/server/src/feature_registry.rs] and the part of the start of the
    process in [apps/server/src/main.rs] that composes the features of an
    installation: which modules are requested, which are mounted, and what the
    readiness of the code runner's broker changes. *)

From Stdlib Require Import Bool NArith ZArith Lia.
From S2P Require Import Prelude Text Signing.

Definition KNOWN_FEATURES : list rstr := lit <$>
  ["ads"; "ai_authorship"; "ai_summary"; "code_runner"; "comments"; "external_auth"; "home_curation"; "rbac";
   "release_check"; "seo"; "social_embeds"]%string.

Definition dlc_features : list (rstr * rstr) := (fun p => (lit p.1, lit p.2)) <$>
  [("org.open-soverign-blog.monetization-policy", "ads");
   ("org.open-soverign-blog.ai-authorship", "ai_authorship");
   ("org.open-soverign-blog.ai-summary", "ai_summary");
   ("org.open-soverign-blog.code-runner-client", "code_runner");
   ("org.open-soverign-blog.comments", "comments");
   ("org.open-soverign-blog.external-auth", "external_auth");
   ("org.open-soverign-blog.home-curation", "home_curation");
   ("org.open-soverign-blog.rbac", "rbac");
   ("org.open-soverign-blog.release-check", "release_check");
   ("org.open-soverign-blog.seo", "seo");
   ("org.open-soverign-blog.social-embeds", "social_embeds")]%string.
Definition runtime_feature_for_dlc (id : rstr) : option rstr := btree_get id dlc_features.

Inductive ModuleStatus := Active | Available | Degraded | Disabled | Misconfigured.
#[export] Instance module_status_eq_dec : EqDecision ModuleStatus.
Proof. solve_decision. Defined.

Record ModuleDescriptor := {
  md_id : rstr;
  md_status : ModuleStatus;
  md_requested : bool;
  md_operational : bool;
  md_reason : rstr;
}.
Definition FeatureRegistry := list ModuleDescriptor.

(** The elements of a [BTreeSet<&str>], in its order. *)
Definition btree_set (l : list rstr) : list rstr := (fold_left (fun s v => btree_insert v tt s) l []).*1.
Definition requested_set (raw : rstr) : list rstr :=
  btree_set (List.filter (fun v => negb (is_empty v)) (trim <$> split 44 raw)).
Definition set_contains (s : list rstr) (id : string) : bool := existsb (str_eqb (lit id)) s.

Definition module (id : string) (requested operational : bool) (reason : string) : ModuleDescriptor := {|
  md_id := lit id; md_status := if requested then Active else Disabled; md_requested := requested;
  md_operational := operational; md_reason := lit reason |}.
(** An entry of the loop over the modules this server does not mount itself. *)
Definition uncomposed (id : string) (requested : bool) (reason : string) : ModuleDescriptor := {|
  md_id := lit id; md_status := if requested then Misconfigured else Available; md_requested := requested;
  md_operational := false; md_reason := lit reason |}.

Definition modules_of (requested : list rstr) : FeatureRegistry :=
  let asked := set_contains requested in
  [module "seo" (asked "seo") true "canonical URLs, redirect history, robots.txt, and sitemap are mounted";
   module "home_curation" (asked "home_curation") true
     "the pinned-first home feed and administrator curation routes are mounted";
   module "ai_authorship" (asked "ai_authorship") true "portable public revision authorship provenance is enabled";
   module "ai_summary" (asked "ai_summary") true
     "reviewed per-revision summaries can be generated through fixed provider adapters without persisting credentials";
   module "social_embeds" (asked "social_embeds") true
     "strict YouTube and X provider parsing is enabled without arbitrary embed HTML";
   module "release_check" (asked "release_check") true "bounded informational release-channel checks are enabled";
   uncomposed "external_auth" (asked "external_auth")
     "domain library and manifest are available; a verified provider/session adapter is not composed into this server";
   uncomposed "rbac" (asked "rbac")
     "domain library and manifest are available; no identity/session adapter is composed into this server";
   uncomposed "comments" (asked "comments")
     "domain library and manifest are available; persistence, moderation routes, and abuse controls are not composed";
   uncomposed "code_runner" (asked "code_runner")
     "contract and security profile are available; no isolated runner broker is configured";
   uncomposed "ads" (asked "ads")
     "policy contracts are available; no consent policy and provider adapter are configured"]
  ++ [{| md_id := lit "ontology"; md_status := Available; md_requested := false; md_operational := true;
         md_reason := lit "optional per-revision sidecar; Markdown remains required and no global activation is needed" |}].

Definition from_requested (raw : rstr) : result rstr FeatureRegistry :=
  let requested := requested_set raw in
  let unknown := List.filter (fun v => negb (existsb (str_eqb v) KNOWN_FEATURES)) requested in
  fail_if (negb (is_empty_list unknown))
    (lit "unknown OSB_FEATURES value(s): " ++ join (lit ", ") unknown ++ lit "; known values: "
     ++ join (lit ", ") KNOWN_FEATURES);;
  Ok (modules_of requested).

Definition active_ids (r : FeatureRegistry) : list rstr :=
  md_id <$> List.filter (fun m => bool_decide (md_status m = Active)) r.
Definition is_active (id : rstr) (r : FeatureRegistry) : bool :=
  existsb (fun m => str_eqb (md_id m) id && bool_decide (md_status m = Active)) r.
Definition is_requested (id : rstr) (r : FeatureRegistry) : bool :=
  existsb (fun m => str_eqb (md_id m) id && md_requested m) r.

(** [iter_mut().find(|module| module.id == id)]: the first module of the id,
    changed by a step that may refuse. *)
Fixpoint update_first (id : rstr) (unknown : rstr) (f : ModuleDescriptor -> result rstr ModuleDescriptor)
    (r : FeatureRegistry) : result rstr FeatureRegistry :=
  match r with
  | [] => Err unknown
  | m :: r => if str_eqb (md_id m) id then m' ← f m; Ok (m' :: r) else r' ← update_first id unknown f r; Ok (m :: r')
  end.
Definition with_status (m : ModuleDescriptor) (status : ModuleStatus) (operational : bool) (reason : rstr) :=
  {| md_id := md_id m; md_status := status; md_requested := md_requested m; md_operational := operational;
     md_reason := reason |}.
Definition set_runtime_status (id : rstr) (status : ModuleStatus) (operational : bool) (reason : rstr)
    (r : FeatureRegistry) : result rstr FeatureRegistry :=
  update_first id (lit "unknown runtime module: " ++ id) (fun m =>
    fail_if (bool_decide (status = Active) && negb (md_requested m))
      (lit "module " ++ id ++ lit " cannot become active unless requested");;
    Ok (with_status m status operational reason)) r.
Definition activate_composed (id : rstr) (reason : rstr) (r : FeatureRegistry) : result rstr FeatureRegistry :=
  update_first id (lit "unknown composed module: " ++ id) (fun m => Ok (with_status m Active true reason)) r.

(** ** Composition at the start of the process *)

(** The broker's answer to the readiness request: the number of approved
    profiles of a broker that is ready. *)
Inductive RunnerReadiness := RunnerReady (approved_profiles : N) | RunnerNotReady | RunnerUnreachable.

Record FeatureConfig := {
  fc_collaboration_enabled : bool;
  fc_comments_enabled : bool;
  fc_external_admin : bool;
  (** The configured runner client and what its broker answers. *)
  fc_runner : option RunnerReadiness;
}.

(** The features named by the enabled modules of a verified installation. *)
Definition installed_features (enabled_dlc_ids : list rstr) : rstr :=
  join (lit ",") (omap runtime_feature_for_dlc enabled_dlc_ids).

(** The match on the broker's readiness. *)
Definition runner_status (runner : option RunnerReadiness) (features : FeatureRegistry) : result rstr FeatureRegistry :=
  if is_requested (lit "code_runner") features
  then match runner with
       | Some (RunnerReady n) => set_runtime_status (lit "code_runner") Active true
           (lit "isolated broker is ready with " ++ show_N n ++ lit " approved immutable profile(s)") features
       | Some RunnerNotReady => set_runtime_status (lit "code_runner") Degraded false
           (lit "runner broker is reachable but no approved immutable profile is ready") features
       | Some RunnerUnreachable => set_runtime_status (lit "code_runner") Degraded false
           (lit "runner broker readiness check failed; execution remains disabled") features
       | None => Ok features
       end
  else Ok features.

Definition activate_if (b : bool) (id reason : string) (r : FeatureRegistry) : result rstr FeatureRegistry :=
  if b then activate_composed (lit id) (lit reason) r else Ok r.
Definition compose_features (c : FeatureConfig) (requested_features : rstr) : result rstr FeatureRegistry :=
  features ← from_requested requested_features;
  features ← activate_if (fc_collaboration_enabled c) "rbac"
    "persisted owner/editor memberships are enabled for collaborative Studio access" features;
  features ← activate_if (fc_comments_enabled c) "comments"
    "authenticated comments use persistent publication scoping, bounded validation, and sanitized rendering" features;
  features ← activate_if (fc_external_admin c) "external_auth"
    "OIDC authorization code flow uses discovery, PKCE S256, state, nonce, issuer/audience verification, and an exact owner subject binding"
    features;
  runner_status (fc_runner c) features.

(** ** What a composition activates *)

Lemma btree_insert_keys k (l : list (rstr * unit)) x : x ∈ (btree_insert k tt l).*1 <-> x = k \/ x ∈ l.*1.
Proof.
  induction l as [|[k' []] l IH]; cbn; [by rewrite !elem_of_cons|].
  destruct (str_ltb k k'); cbn; [by rewrite !elem_of_cons|].
  destruct (str_eqb k k') eqn:E; cbn; rewrite ?elem_of_cons; [apply str_eqb_eq in E as ->|rewrite IH]; tauto.
Qed.
Lemma elem_of_btree_set l x : x ∈ btree_set l <-> x ∈ l.
Proof.
  unfold btree_set. assert (forall acc, x ∈ (fold_left (fun s v => btree_insert v tt s) l acc).*1 <-> x ∈ l \/ x ∈ acc.*1) as H.
  - induction l as [|v l IH]; intros acc; cbn; [|rewrite IH, btree_insert_keys, elem_of_cons]; set_solver.
  - rewrite H. set_solver.
Qed.

(** A feature named by [OSB_FEATURES] or by the installation. *)
Definition asked (raw id : rstr) : Prop := id <> [] /\ id ∈ (trim <$> split 44 raw).
Lemma elem_of_requested_set raw id : id ∈ requested_set raw <-> asked raw id.
Proof.
  unfold requested_set, asked. rewrite elem_of_btree_set, list_elem_of_In, filter_In, <-list_elem_of_In.
  destruct id; cbn; naive_solver.
Qed.
Lemma set_contains_asked raw id : set_contains (requested_set raw) id = true <-> asked raw (lit id).
Proof.
  unfold set_contains. rewrite existsb_exists, <-elem_of_requested_set. setoid_rewrite str_eqb_eq.
  setoid_rewrite <-list_elem_of_In. naive_solver.
Qed.

Lemma is_active_true id r : is_active id r = true <-> exists m, m ∈ r /\ md_id m = id /\ md_status m = Active.
Proof.
  unfold is_active. rewrite existsb_exists. setoid_rewrite <-list_elem_of_In. setoid_rewrite andb_true_iff.
  setoid_rewrite str_eqb_eq. setoid_rewrite bool_decide_eq_true. done.
Qed.
Lemma is_requested_true id r : is_requested id r = true <-> exists m, m ∈ r /\ md_id m = id /\ md_requested m = true.
Proof.
  unfold is_requested. rewrite existsb_exists. setoid_rewrite <-list_elem_of_In. setoid_rewrite andb_true_iff.
  by setoid_rewrite str_eqb_eq.
Qed.

(** Changing one module of a registry with distinct ids. *)
Section update.
Context (id unknown : rstr) (f : ModuleDescriptor -> result rstr ModuleDescriptor).
Hypothesis f_keeps : forall m m', f m = Ok m' -> md_id m' = md_id m /\ md_requested m' = md_requested m.

Lemma update_first_split r r' : update_first id unknown f r = Ok r' ->
  exists l m m' l', r = l ++ m :: l' /\ r' = l ++ m' :: l' /\ md_id m = id /\ f m = Ok m'.
Proof.
  revert r'. induction r as [|m r IH]; intros r' H; cbn in H; [done|].
  destruct (str_eqb (md_id m) id) eqn:E; apply bind_Ok in H as (k & Hk & [= <-]).
  - apply str_eqb_eq in E. by exists [], m, k, r.
  - destruct (IH k Hk) as (l & m0 & m1 & l' & -> & -> & ? & ?). by exists (m :: l), m0, m1, l'.
Qed.
Lemma update_first_keeps r r' : update_first id unknown f r = Ok r' ->
  md_id <$> r' = md_id <$> r /\ forall x, is_requested x r' = is_requested x r.
Proof.
  intros (l & m & m' & l' & -> & -> & ? & [E R]%f_keeps)%update_first_split. split.
  - rewrite !fmap_app. cbn. by rewrite E.
  - intros x. unfold is_requested. rewrite !existsb_app. cbn. by rewrite E, R.
Qed.
Lemma update_first_active r r' : NoDup (md_id <$> r) -> update_first id unknown f r = Ok r' ->
  exists m m', m ∈ r /\ md_id m = id /\ f m = Ok m' /\
    forall x, is_active x r' = true <-> (x = id /\ md_status m' = Active) \/ (x <> id /\ is_active x r = true).
Proof.
  intros Hnd (l & m & m' & l' & -> & -> & Hid & Hf)%update_first_split. exists m, m'.
  rewrite fmap_app in Hnd. apply NoDup_app in Hnd as (_ & Hl & Hnd). cbn in Hnd. apply NoDup_cons in Hnd as [Hl' _].
  destruct (f_keeps m m' Hf) as [E _]. split_and!; [set_solver|done|done|]. intros x.
  assert (forall k, k ∈ l \/ k ∈ l' -> md_id k <> id) as Hother.
  { intros k [Hk|Hk] Ek; [apply (Hl (md_id k)); [by apply list_elem_of_fmap_2|cbn; rewrite Ek, Hid; by left]|].
    apply Hl'. rewrite Hid, <-Ek. by apply list_elem_of_fmap_2. }
  rewrite !is_active_true. setoid_rewrite elem_of_app. setoid_rewrite elem_of_cons. rewrite Hid in E.
  split.
  - intros (k & [Hk|[->|Hk]] & <- & Ha); [right|left; by rewrite E|right]; (split; [by apply Hother; auto|]); eauto 8.
  - intros [[-> Ha]|(Hne & k & [Hk|[->|Hk]] & <- & Ha)]; [exists m'|exists k|done|exists k]; auto 8.
Qed.
End update.

Lemma update_first_Ok id u f (r : FeatureRegistry) : id ∈ (md_id <$> r) ->
  (forall m, m ∈ r -> md_id m = id -> is_ok (f m) = true) -> exists r', update_first id u f r = Ok r'.
Proof.
  induction r as [|m r IH]; [by intros ?%not_elem_of_nil|]. cbn [fmap list_fmap]. intros Hin Hf. cbn.
  destruct (str_eqb (md_id m) id) eqn:E.
  - apply str_eqb_eq in E. destruct (f m) eqn:Em; cbn; [eauto|].
    specialize (Hf m ltac:(by left) E). by rewrite Em in Hf.
  - apply elem_of_cons in Hin as [->|Hin]; [by rewrite (proj2 (str_eqb_eq _ _) eq_refl) in E|].
    destruct IH as [r' ->]; [done| |cbn; eauto]. intros k Hk. apply Hf. by right.
Qed.

(** The modules the registry starts with. *)
Definition mounted : list rstr := lit <$>
  ["seo"; "home_curation"; "ai_authorship"; "ai_summary"; "social_embeds"; "release_check"]%string.
Lemma modules_of_ids requested requested' : md_id <$> modules_of requested = md_id <$> modules_of requested'.
Proof. reflexivity. Qed.
Lemma modules_of_distinct requested : NoDup (md_id <$> modules_of requested).
Proof. rewrite (modules_of_ids requested []). apply (bool_decide_unpack _). vm_compute. exact I. Qed.
Lemma module_active id b o t : md_status (module id b o t) = Active <-> b = true.
Proof. by destruct b. Qed.
Lemma uncomposed_inactive id b t : md_status (uncomposed id b t) <> Active.
Proof. by destruct b. Qed.

Lemma modules_of_active raw id :
  is_active id (modules_of (requested_set raw)) = true <-> (id ∈ mounted) /\ asked raw id.
Proof.
  rewrite is_active_true. split.
  - assert (Forall (fun m => md_status m = Active -> (md_id m ∈ mounted) /\ asked raw (md_id m))
      (modules_of (requested_set raw))) as Hall.
    { unfold modules_of. cbn [app]. repeat (apply Forall_cons_2); [..|by apply Forall_nil_2].
      all: intros Ha; try (by apply uncomposed_inactive in Ha); try discriminate Ha.
      all: apply module_active, set_contains_asked in Ha; split; [|exact Ha].
      all: apply (bool_decide_unpack _); vm_compute; exact I. }
    rewrite Forall_forall in Hall. intros (m & Hm & <- & Ha). by apply Hall.
  - intros [Hid Ha]. unfold mounted in Hid. cbn [fmap list_fmap] in Hid. rewrite !elem_of_cons in Hid.
    rewrite <-is_active_true. revert Ha. unfold modules_of. cbv zeta.
    destruct_or? Hid; [subst id; intros Ha%set_contains_asked; rewrite Ha; generalize (requested_set raw); intros s..|
      by apply not_elem_of_nil in Hid]; vm_compute; reflexivity.
Qed.

Lemma is_requested_asked raw id (H : id ∈ KNOWN_FEATURES) :
  is_requested id (modules_of (requested_set raw)) = true <-> asked raw id.
Proof.
  rewrite is_requested_true. split.
  - assert (Forall (fun m => md_requested m = true -> asked raw (md_id m)) (modules_of (requested_set raw))) as Hall.
    { unfold modules_of. cbn [app]. repeat (apply Forall_cons_2); [..|by apply Forall_nil_2].
      all: cbn; intros Ha; try discriminate Ha; by apply set_contains_asked in Ha. }
    rewrite Forall_forall in Hall. intros (m & Hm & <- & Ha). by apply Hall.
  - rewrite <-is_requested_true. unfold KNOWN_FEATURES, modules_of in *. cbn [fmap list_fmap] in *. cbv zeta.
    rewrite !elem_of_cons in *. intros Ha.
    destruct_or? H; [subst id; apply set_contains_asked in Ha; rewrite Ha; generalize (requested_set raw); intros s..|
      by apply not_elem_of_nil in H]; vm_compute; reflexivity.
Qed.

Lemma from_requested_spec raw :
  match from_requested raw with
  | Ok r => r = modules_of (requested_set raw) /\ forall id, asked raw id -> id ∈ KNOWN_FEATURES
  | Err _ => exists id, asked raw id /\ id ∉ KNOWN_FEATURES
  end.
Proof.
  unfold from_requested. set (unknown := List.filter _ _).
  assert (forall id, id ∈ unknown <-> asked raw id /\ id ∉ KNOWN_FEATURES) as Hu.
  { intros id. unfold unknown. rewrite list_elem_of_In, filter_In, <-list_elem_of_In, elem_of_requested_set, negb_true_iff,
      existsb_false, Forall_forall. apply and_iff_compat_l. split; intros H.
    - intros Hin. specialize (H id Hin). by rewrite (proj2 (str_eqb_eq _ _) eq_refl) in H.
    - intros k Hk. apply bool_decide_eq_false_2. by intros ->. }
  destruct unknown as [|id unknown]; cbn.
  - split; [done|]. intros id Ha. destruct (decide (id ∈ KNOWN_FEATURES)); [done|].
    exfalso. by eapply not_elem_of_nil, Hu.
  - exists id. apply Hu. by left.
Qed.

Definition registry_ids : list rstr := md_id <$> modules_of [].
Lemma activate_if_spec b id reason r : md_id <$> r = registry_ids -> lit id ∈ registry_ids ->
  exists r', activate_if b id reason r = Ok r' /\ md_id <$> r' = registry_ids
    /\ (forall x, is_requested x r' = is_requested x r)
    /\ forall x, is_active x r' = true <-> (b = true /\ x = lit id) \/ is_active x r = true.
Proof.
  intros Hr Hin. destruct b; cbn; [|exists r; naive_solver].
  destruct (update_first_Ok (lit id) (lit "unknown composed module: " ++ lit id)
    (fun m => Ok (with_status m Active true (lit reason))) r) as [r' E]; [by rewrite Hr|done|].
  exists r'. unfold activate_composed. rewrite E. split; [done|].
  assert (NoDup (md_id <$> r)) as Hnd by (rewrite Hr; apply modules_of_distinct).
  apply update_first_keeps in E as K; [|by intros m m' [= <-]]. destruct K as [-> ?]. split; [done|]. split; [done|].
  apply update_first_active in E as (m & m' & _ & _ & [= <-] & Ha); [|by intros ?? [= <-]|done].
  intros x. rewrite Ha. cbn. destruct (decide (x = lit id)); naive_solver.
Qed.
Lemma set_runtime_status_spec id status operational reason r :
  md_id <$> r = registry_ids -> is_requested id r = true ->
  exists r', set_runtime_status id status operational reason r = Ok r' /\ md_id <$> r' = registry_ids
    /\ (forall x, is_requested x r' = is_requested x r)
    /\ forall x, is_active x r' = true <-> (x = id /\ status = Active) \/ (x <> id /\ is_active x r = true).
Proof.
  intros Hr Hq. pose proof (modules_of_distinct [] : NoDup registry_ids) as Hnd. rewrite <-Hr in Hnd.
  apply is_requested_true in Hq as (q & Hq & Hid & Hreq). unfold set_runtime_status.
  set (f := fun m : ModuleDescriptor => _).
  assert (forall m m', f m = Ok m' -> m' = with_status m status operational reason) as Hf.
  { intros m m' Hm. unfold f in Hm. by inv_ok. }
  destruct (update_first_Ok id (lit "unknown runtime module: " ++ id) f r) as [r' E].
  { rewrite <-Hid. by apply list_elem_of_fmap_2. }
  { intros m Hm Em. assert (m = q) as -> by (apply (nodup_key md_id r); [done|done|done|congruence]).
    unfold f. rewrite Hreq, andb_false_r. done. }
  exists r'. split; [done|].
  apply update_first_keeps in E as K; [|by intros ?? ->%Hf]. destruct K as [-> ?]. split; [done|]. split; [done|].
  apply update_first_active in E as (m & m' & _ & _ & ->%Hf & Ha); [exact Ha|by intros ?? ->%Hf|done].
Qed.

Lemma runner_status_spec runner r :
  md_id <$> r = registry_ids -> is_active (lit "code_runner") r = false ->
  exists r', runner_status runner r = Ok r' /\ forall x, is_active x r' = true <->
    (x = lit "code_runner" /\ is_requested (lit "code_runner") r = true /\ exists n, runner = Some (RunnerReady n))
    \/ is_active x r = true.
Proof.
  intros Hr Hoff. unfold runner_status.
  destruct (is_requested (lit "code_runner") r) eqn:Hq; [|exists r; split; [done|]; intros x; naive_solver].
  destruct runner as [[n| |]|]; [..|exists r; split; [done|]; intros x; naive_solver].
  1: destruct (set_runtime_status_spec (lit "code_runner") Active true
      (lit "isolated broker is ready with " ++ show_N n ++ lit " approved immutable profile(s)") r Hr Hq) as (r' & -> & _ & _ & Ha).
  2: destruct (set_runtime_status_spec (lit "code_runner") Degraded false
      (lit "runner broker is reachable but no approved immutable profile is ready") r Hr Hq) as (r' & -> & _ & _ & Ha).
  3: destruct (set_runtime_status_spec (lit "code_runner") Degraded false
      (lit "runner broker readiness check failed; execution remains disabled") r Hr Hq) as (r' & -> & _ & _ & Ha).
  all: exists r'; split; [done|]; intros x; rewrite Ha.
  all: destruct (decide (x = lit "code_runner")) as [->|]; [rewrite Hoff|]; naive_solver.
Qed.

(** What is active after the start of the process. *)
Inductive composed (c : FeatureConfig) (raw : rstr) : rstr -> Prop :=
| composed_mounted id : id ∈ mounted -> asked raw id -> composed c raw id
| composed_rbac : fc_collaboration_enabled c = true -> composed c raw (lit "rbac")
| composed_comments : fc_comments_enabled c = true -> composed c raw (lit "comments")
| composed_external_auth : fc_external_admin c = true -> composed c raw (lit "external_auth")
| composed_runner n : asked raw (lit "code_runner") -> fc_runner c = Some (RunnerReady n) ->
    composed c raw (lit "code_runner").

(** The start of the process activates exactly what the installation asks
    for and the server can back: the six mounted features when requested, the
    membership, comment and external-login modules when their settings are on,
    the code runner when it is requested, configured and its broker ready, and
    nothing else, advertisements and the ontology sidecar included.  It fails
    exactly when an unknown feature is requested. *)
Theorem composed_features_are_exact c raw :
  match compose_features c raw with
  | Ok r => (forall id, asked raw id -> id ∈ KNOWN_FEATURES) /\ forall id, is_active id r = true <-> composed c raw id
  | Err _ => exists id, asked raw id /\ id ∉ KNOWN_FEATURES
  end.
Proof.
  unfold compose_features. pose proof (from_requested_spec raw) as H0.
  destruct (from_requested raw) as [r0|e]; cbn; [|done]. destruct H0 as [-> Hknown].
  pose proof (modules_of_active raw) as A0. pose proof (is_requested_asked raw) as R0.
  assert (I0 : md_id <$> modules_of (requested_set raw) = registry_ids) by done.
  revert A0 R0 I0. generalize (modules_of (requested_set raw)) as r0. intros r0 A0 R0 I0.
  destruct (activate_if_spec (fc_collaboration_enabled c) "rbac"
    "persisted owner/editor memberships are enabled for collaborative Studio access" r0) as (r1 & -> & I1 & R1 & A1);
    [done|by apply (bool_decide_unpack _); vm_compute|]. cbn.
  destruct (activate_if_spec (fc_comments_enabled c) "comments"
    "authenticated comments use persistent publication scoping, bounded validation, and sanitized rendering" r1)
    as (r2 & -> & I2 & R2 & A2); [done|by apply (bool_decide_unpack _); vm_compute|]. cbn.
  destruct (activate_if_spec (fc_external_admin c) "external_auth"
    "OIDC authorization code flow uses discovery, PKCE S256, state, nonce, issuer/audience verification, and an exact owner subject binding"
    r2) as (r3 & -> & I3 & R3 & A3); [done|by apply (bool_decide_unpack _); vm_compute|]. cbn.
  assert (HA : forall id, is_active id r3 = true <->
    ((id ∈ mounted) /\ asked raw id) \/ (fc_collaboration_enabled c = true /\ id = lit "rbac")
    \/ (fc_comments_enabled c = true /\ id = lit "comments") \/ (fc_external_admin c = true /\ id = lit "external_auth")).
  { intros id. rewrite A3, A2, A1, A0. tauto. }
  assert (HR : is_requested (lit "code_runner") r3 = true <-> asked raw (lit "code_runner")).
  { rewrite R3, R2, R1. apply R0. by apply (bool_decide_unpack _); vm_compute. }
  destruct (runner_status_spec (fc_runner c) r3) as (r4 & -> & A4); [done| |].
  { apply not_true_iff_false. rewrite HA. intros [[Hm _]|[[_ E]|[[_ E]|[_ E]]]]; [|by vm_compute in E..].
    revert Hm. apply (bool_decide_unpack _). by vm_compute. }
  split; [done|]. intros id. rewrite A4, HA, HR. split.
  - intros [(-> & Hq & n & En)|[[]|[[? ->]|[[? ->]|[? ->]]]]]; by econstructor.
  - intros []; eauto 10.
Qed.

(** ** Installed features *)

Lemma dlc_feature_known id f : runtime_feature_for_dlc id = Some f ->
  f <> [] /\ solid f /\ (44%N ∉ f) /\ f ∈ KNOWN_FEATURES.
Proof.
  assert (Forall (fun kv => kv.2 <> [] /\ solid kv.2 /\ (44%N ∉ kv.2) /\ kv.2 ∈ KNOWN_FEATURES) dlc_features) as Hall.
  { apply (bool_decide_unpack _). by vm_compute. }
  unfold runtime_feature_for_dlc. induction Hall as [|[k v] l Hv _ IH]; cbn; [done|].
  destruct (str_eqb id k); [by intros [= <-]|done].
Qed.

(** An installation asks for the features of its enabled modules. *)
Lemma asked_installed ids f :
  asked (installed_features ids) f <-> exists id, id ∈ ids /\ runtime_feature_for_dlc id = Some f.
Proof.
  unfold asked, installed_features. setoid_rewrite list_elem_of_fmap.
  assert (Forall (fun f => f <> [] /\ solid f /\ (44%N ∉ f)) (omap runtime_feature_for_dlc ids)) as Hall.
  { apply Forall_forall. intros g (id & _ & Hg)%list_elem_of_omap. apply dlc_feature_known in Hg. naive_solver. }
  assert (split 44 (join (lit ",") (omap runtime_feature_for_dlc ids))
          = match omap runtime_feature_for_dlc ids with [] => [[]] | l => l end) as ->.
  { destruct (omap runtime_feature_for_dlc ids) as [|g l]; [done|].
    apply split_join_inv; [done|]. eapply Forall_impl; [exact Hall|]. by intros k (_ & _ & ?). }
  rewrite <-list_elem_of_omap. rewrite Forall_forall in Hall.
  destruct (omap runtime_feature_for_dlc ids) as [|g0 l].
  - split; [|by intros ?%not_elem_of_nil]. intros [Hne (y & -> & ->%list_elem_of_singleton)]. done.
  - split.
    + intros [_ (y & -> & Hy)]. destruct (Hall y Hy) as (_ & Hs & _). by rewrite trim_solid.
    + intros Hf. destruct (Hall f Hf) as (? & Hs & _). split; [done|]. exists f. by rewrite trim_solid.
Qed.

(** A verified installation starts whatever modules it has enabled, unknown
    third-party ones included, and runs exactly the features of the modules
    this server knows. *)
Theorem installed_features_start c ids : exists r,
  compose_features c (installed_features ids) = Ok r
  /\ forall id, is_active id r = true <-> composed c (installed_features ids) id.
Proof.
  pose proof (composed_features_are_exact c (installed_features ids)) as H.
  destruct (compose_features c (installed_features ids)) as [r|e]; [exists r; split; [done|apply H]|].
  destruct H as (id & (k & _ & Hk)%asked_installed & Hid). by apply dlc_feature_known in Hk as (_ & _ & _ & ?).
Qed.
