(* ===== verification/AdminTree.v ===== *)
(** * The administrator's program tree

    [apps/server/src/admin_tree.rs]: a lazily expanded tree over the sites,
    categories, documents and revisions of the store and the modules and
    settings of the running server, listed page by page with an opaque
    cursor. *)

From Stdlib Require Import Bool NArith ZArith Lia.
From S2P Require Import Prelude Text Extern Content StoreBase StoreTaxonomy StoreFeed Accounts Signing CacheHttp Auth Features.

Inductive AdminTreeNodeKind := GroupNode | SiteNode | CategoryNode | DocumentNode | RevisionNode | SettingNode | ModuleNode | RuntimeNode.
Record AdminTreeNode := {
  atn_id : rstr;
  atn_parent_id : rstr;
  atn_kind : AdminTreeNodeKind;
  atn_label : rstr;
  atn_has_children : bool;
  atn_entity_id : option Uuid;
  atn_handle : option rstr;
  atn_slug : option rstr;
  atn_state : option rstr;
  atn_revision_number : option N;
  atn_requested : option bool;
  atn_operational : option bool;
  atn_summary : option rstr;
  atn_created_at : option DateTime;
  atn_updated_at : option DateTime;
}.
Record AdminTreeQuery := { aq_parent : option rstr; aq_cursor : option rstr; aq_limit : option N }.
Record AdminTreePage := {
  ap_generated_at : DateTime;
  ap_parent_id : rstr;
  ap_items : list AdminTreeNode;
  ap_next_cursor : option rstr;
}.
Inductive TreeError := TreeUnauthorized | TreeBadRequest (reason : rstr) | TreeRepository (e : RepositoryError).

Definition ROOT_NODE_ID : rstr := lit "root".
Definition DEFAULT_PAGE_SIZE : N := 100.
Definition MAX_PAGE_SIZE : N := 200.
Definition MAX_PARENT_ID_LENGTH : N := 128.
Definition MAX_CURSOR_LENGTH : N := 32.
Definition usize_max : N := 2 ^ 64 - 1.

(** ** Nodes *)

Definition static_node (id parent_id : rstr) (kind : AdminTreeNodeKind) (label : rstr) (has_children : bool)
    (state : option rstr) : AdminTreeNode := {|
  atn_id := id; atn_parent_id := parent_id; atn_kind := kind; atn_label := label; atn_has_children := has_children;
  atn_entity_id := None; atn_handle := None; atn_slug := None; atn_state := state; atn_revision_number := None;
  atn_requested := None; atn_operational := None; atn_summary := None; atn_created_at := None; atn_updated_at := None |}.

Definition root_nodes : list AdminTreeNode :=
  (fun p => static_node (lit p.1) ROOT_NODE_ID GroupNode (lit p.2) true None) <$>
    [("group:content", "Content"); ("group:assets", "Assets"); ("group:configuration", "Configuration");
     ("group:modules", "Modules"); ("group:runtime", "Runtime")]%string.

Definition site_id_text (id : Uuid) : rstr := lit "site:" ++ uuid_hyphenated id.
Definition site_node (site : SiteMetadataRecord) : AdminTreeNode := {|
  atn_id := site_id_text (sm_id site); atn_parent_id := lit "group:content"; atn_kind := SiteNode;
  atn_label := sm_title site; atn_has_children := true; atn_entity_id := Some (sm_id site);
  atn_handle := Some (sm_handle site); atn_slug := None; atn_state := None; atn_revision_number := None;
  atn_requested := None; atn_operational := None; atn_summary := None; atn_created_at := Some (sm_created_at site);
  atn_updated_at := Some (sm_updated_at site) |}.

Record CategoryParent := { cpt_site_id : Uuid; cpt_category_id : option Uuid }.
Definition node_id (c : CategoryParent) : rstr :=
  lit "category:" ++ uuid_hyphenated (cpt_site_id c) ++ lit ":" ++
  match cpt_category_id c with Some id => uuid_hyphenated id | None => lit "uncategorized" end.

Definition category_status (s : CategoryStatus) : rstr := match s with StoreBase.Active => lit "active" | CategoryArchived => lit "archived" end.
Definition document_status (s : DocumentStatus) : rstr :=
  match s with Draft => lit "draft" | Published => lit "published" | Content.Archived => lit "archived" end.
Definition module_status (s : ModuleStatus) : rstr :=
  match s with
  | Features.Active => lit "active" | Available => lit "available" | Degraded => lit "degraded"
  | Features.Disabled => lit "disabled" | Misconfigured => lit "misconfigured"
  end.
Definition enabled (b : bool) : rstr := if b then lit "enabled" else lit "disabled".

Definition category_node (c : CategoryMetadataRecord) : AdminTreeNode := {|
  atn_id := node_id {| cpt_site_id := cmr_site_id c; cpt_category_id := Some (cmr_id c) |};
  atn_parent_id := site_id_text (cmr_site_id c); atn_kind := CategoryNode; atn_label := cmr_title c;
  atn_has_children := true; atn_entity_id := Some (cmr_id c); atn_handle := None; atn_slug := Some (cmr_slug c);
  atn_state := Some (category_status (cmr_status c)); atn_revision_number := None; atn_requested := None;
  atn_operational := None; atn_summary := None; atn_created_at := Some (cmr_created_at c);
  atn_updated_at := Some (cmr_updated_at c) |}.
Definition uncategorized_node (site_id : Uuid) : AdminTreeNode :=
  static_node (node_id {| cpt_site_id := site_id; cpt_category_id := None |}) (site_id_text site_id) CategoryNode
    (lit "Uncategorized") true (Some (lit "uncategorized")).
Definition document_id_text (id : Uuid) : rstr := lit "document:" ++ uuid_hyphenated id.
Definition document_node (parent_id : rstr) (d : CurrentDocumentMetadataRecord) : AdminTreeNode := {|
  atn_id := document_id_text (cdm_id d); atn_parent_id := parent_id; atn_kind := DocumentNode; atn_label := cdm_title d;
  atn_has_children := true; atn_entity_id := Some (cdm_id d); atn_handle := None; atn_slug := Some (cdm_slug d);
  atn_state := Some (document_status (cdm_status d)); atn_revision_number := Some (cdm_revision_number d);
  atn_requested := None; atn_operational := None; atn_summary := None; atn_created_at := Some (cdm_created_at d);
  atn_updated_at := Some (cdm_updated_at d) |}.
Definition revision_node (r : RevisionMetadataRecord) : AdminTreeNode := {|
  atn_id := lit "revision:" ++ uuid_hyphenated (rmr_id r); atn_parent_id := document_id_text (rmr_document_id r);
  atn_kind := RevisionNode; atn_label := lit "Revision " ++ show_N (rmr_revision_number r); atn_has_children := false;
  atn_entity_id := Some (rmr_id r); atn_handle := None; atn_slug := Some (rmr_slug r); atn_state := None;
  atn_revision_number := Some (rmr_revision_number r); atn_requested := None; atn_operational := None;
  atn_summary := None; atn_created_at := Some (rmr_created_at r); atn_updated_at := None |}.

Section tree.
Context `{!UrlLib, !StoreCodec, !Base64Engine, !UuidLib}.

(** What the tree reads of the application state besides [AppState]; the
    version is the crate's. *)
Record TreeState := {
  ts_app : AppState;
  ts_comments_enabled : bool;
  ts_custom_css_enabled : bool;
  ts_agent_discovery_enabled : bool;
  ts_features : FeatureRegistry;
  ts_backup : bool;
  ts_version : rstr;
}.

Definition configuration_nodes (st : TreeState) : list AdminTreeNode :=
  (fun p => static_node (lit p.1.1) (lit "group:configuration") SettingNode (lit p.1.2) false (Some p.2)) <$>
    [("setting:administrator-auth", "Administrator authentication", AdminAuthMode_as_str (mode (as_admin_auth (ts_app st))));
     ("setting:member-auth", "Member authentication", enabled (as_local_auth_enabled (ts_app st)));
     ("setting:registration", "Member registration", enabled (as_registration_open (ts_app st)));
     ("setting:comments", "Comments", enabled (ts_comments_enabled st));
     ("setting:collaboration", "Studio collaboration", enabled (as_collaboration_enabled (ts_app st)));
     ("setting:custom-css", "Custom CSS", enabled (ts_custom_css_enabled st));
     ("setting:agent-discovery", "Agent discovery", enabled (ts_agent_discovery_enabled st))]%string.
Definition module_node (m : ModuleDescriptor) : AdminTreeNode := {|
  atn_id := lit "module:" ++ md_id m; atn_parent_id := lit "group:modules"; atn_kind := ModuleNode; atn_label := md_id m;
  atn_has_children := false; atn_entity_id := None; atn_handle := None; atn_slug := None;
  atn_state := Some (module_status (md_status m)); atn_revision_number := None; atn_requested := Some (md_requested m);
  atn_operational := Some (md_operational m); atn_summary := Some (md_reason m); atn_created_at := None;
  atn_updated_at := None |}.
Definition module_nodes (st : TreeState) : list AdminTreeNode := module_node <$> ts_features st.
Definition runtime_nodes (st : TreeState) : list AdminTreeNode :=
  let delivery_only := as_delivery_only (ts_app st) in
  (fun p => static_node (lit p.1.1) (lit "group:runtime") RuntimeNode (lit p.1.2) false (Some p.2)) <$>
    [("runtime:server", "OpenSoverignBlog server", ts_version st);
     ("runtime:mutation-mode", "Mutation mode", if delivery_only then lit "read_only" else lit "writable");
     ("runtime:public-cache", "Public derivative cache", enabled (as_cache (ts_app st)));
     ("runtime:backups", "Backups", if delivery_only then lit "not_applicable"
                                    else if ts_backup st then lit "managed" else lit "externally_managed")]%string.
Definition asset_nodes : list AdminTreeNode :=
  [static_node (lit "runtime:asset-store") (lit "group:assets") RuntimeNode (lit "Content-addressed asset store") false
     (Some (lit "enabled"))].

(** ** Parameters of a request *)

Definition normalize_parent_id (parent : option rstr) : result TreeError rstr :=
  let parent := default ROOT_NODE_ID parent in
  fail_if (is_empty parent || (MAX_PARENT_ID_LENGTH <? str_len parent)%N || existsb is_control parent)
    (TreeBadRequest (lit "program-tree parent node is invalid"));;
  Ok parent.
Definition validate_page_size (limit : option N) : result TreeError N :=
  let limit := default DEFAULT_PAGE_SIZE limit in
  ensure (within 1 MAX_PAGE_SIZE limit)
    (TreeBadRequest (lit "program-tree limit must be between 1 and " ++ show_N MAX_PAGE_SIZE));;
  Ok limit.

Definition invalid_cursor : TreeError := TreeBadRequest (lit "program-tree cursor is invalid").
(** [u64::to_be_bytes] and [from_be_bytes] *)
Definition to_be_bytes (n : N) : list N := (fun i => N.shiftr n (8 * N.of_nat (7 - i)) mod 256)%N <$> seq 0 8.
Definition from_be_bytes (l : list N) : N := fold_left (fun n b => n * 256 + b)%N l 0%N.
Definition decode_cursor (cursor : option rstr) : result TreeError N :=
  match cursor with
  | None => Ok 0%N
  | Some cursor =>
      fail_if (is_empty cursor || (MAX_CURSOR_LENGTH <? str_len cursor)%N) invalid_cursor;;
      decoded ← ok_or (b64_decode cursor) invalid_cursor;
      ensure (size_of decoded =? 8)%N invalid_cursor;;
      let offset := from_be_bytes decoded in
      fail_if (Z.to_N i64_max <? offset)%N invalid_cursor;;
      ensure (offset <=? usize_max)%N invalid_cursor;;
      Ok offset
  end.
Definition encode_cursor (offset : N) : rstr := b64_encode (to_be_bytes offset).

Definition page_static {A} (items : list A) (offset lim : N) : list A := take (N.to_nat lim) (drop (N.to_nat offset) items).
(** [checked_add] *)
Definition finish_page {A} (items : list A) (offset lim : N) : result TreeError (list A * option rstr) :=
  let has_more := (lim <? size_of items)%N in
  let items := take (N.to_nat lim) items in
  next_cursor ← (if has_more
                 then next_offset ← (if (offset + lim <=? usize_max)%N then Ok (offset + lim)%N else Err invalid_cursor);
                      Ok (Some (encode_cursor next_offset))
                 else Ok None);
  Ok (items, next_cursor).

(** ** Node identifiers *)

Definition parse_uuid_node (value prefix : rstr) : result TreeError (option Uuid) :=
  match strip_prefix prefix value with
  | None => Ok None
  | Some id =>
      let invalid := TreeBadRequest (lit "program-tree entity node is invalid") in
      fail_if (is_empty id || contains_char 58 id) invalid;;
      Some <$> ok_or (uuid_parse id) invalid
  end.
Definition parse_category_parent (value : rstr) : result TreeError (option CategoryParent) :=
  match strip_prefix (lit "category:") value with
  | None => Ok None
  | Some value =>
      let invalid := TreeBadRequest (lit "program-tree category node is invalid") in
      let parts := split 58 value in
      let site_id := default [] (parts !! 0) in
      let category_id := default [] (parts !! 1) in
      fail_if (is_empty site_id || is_empty category_id || is_some (parts !! 2)) invalid;;
      site_id ← ok_or (uuid_parse site_id) invalid;
      category_id ← (if str_eqb category_id (lit "uncategorized") then Ok None
                     else Some <$> ok_or (uuid_parse category_id) invalid);
      Ok (Some {| cpt_site_id := site_id; cpt_category_id := category_id |})
  end.
Definition is_leaf_node_id (value : rstr) : result TreeError bool :=
  revision ← parse_uuid_node value (lit "revision:");
  Ok (is_some revision || starts_with (lit "setting:") value || starts_with (lit "module:") value
      || starts_with (lit "runtime:") value).

(** ** The children of a node *)

(** [usize::saturating_add] *)
Definition saturating_add (a b : N) : N := N.min (a + b) usize_max.
(** [repository_task]: a repository error becomes the response. *)
Definition repository {A} (r : result RepositoryError A) : result TreeError A := map_err TreeRepository r.

Definition entity_children (parent_id : rstr) (offset fetch_limit : N) (db : DB) : result TreeError (list AdminTreeNode) :=
  site ← parse_uuid_node parent_id (lit "site:");
  match site with
  | Some id =>
      let include_uncategorized := (offset =? 0)%N in
      categories ← repository (list_category_metadata_page id true (offset - 1)
        (fetch_limit - (if include_uncategorized then 1 else 0)) db);
      Ok ((if include_uncategorized then [uncategorized_node id] else []) ++ (category_node <$> (categories : list CategoryMetadataRecord)))
  | None =>
      category_parent ← parse_category_parent parent_id;
      match category_parent with
      | Some c =>
          documents ← repository (list_current_document_metadata_page (cpt_site_id c) (cpt_category_id c) offset fetch_limit db);
          Ok (document_node (node_id c) <$> (documents : list CurrentDocumentMetadataRecord))
      | None =>
          document ← parse_uuid_node parent_id (lit "document:");
          match document with
          | Some id =>
              revisions ← repository (list_revision_metadata_page id offset fetch_limit db);
              Ok (revision_node <$> (revisions : list RevisionMetadataRecord))
          | None =>
              leaf ← is_leaf_node_id parent_id;
              Err (TreeBadRequest (if leaf : bool then lit "the selected program-tree node has no children"
                                   else lit "unknown program-tree parent node"))
          end
      end
  end.

Definition nodes_for_parent (st : TreeState) (parent_id : rstr) (offset fetch_limit : N) (db : DB) (accounts : AccountDB)
    : result TreeError (list AdminTreeNode) :=
  if str_eqb parent_id ROOT_NODE_ID then Ok (page_static root_nodes offset fetch_limit)
  else if str_eqb parent_id (lit "group:content") then
    sites ← repository (list_site_metadata_page offset fetch_limit accounts); Ok (site_node <$> (sites : list SiteMetadataRecord))
  else if str_eqb parent_id (lit "group:assets") then Ok (page_static asset_nodes offset fetch_limit)
  else if str_eqb parent_id (lit "group:configuration") then Ok (page_static (configuration_nodes st) offset fetch_limit)
  else if str_eqb parent_id (lit "group:modules") then Ok (page_static (module_nodes st) offset fetch_limit)
  else if str_eqb parent_id (lit "group:runtime") then Ok (page_static (runtime_nodes st) offset fetch_limit)
  else entity_children parent_id offset fetch_limit db.

(** ** The handler *)

Context `{!DigestLib, !HeaderLib}.

Definition require_tree_administrator (hs : Headers) (now : DateTime) (accounts : AccountDB) : result TreeError unit :=
  token_hash ← ok_or (session_hash_from_headers hs) TreeUnauthorized;
  map_err (fun e => match e with NotFound => TreeUnauthorized | e => TreeRepository e end)
    (get_primary_owner_session token_hash now accounts);;
  Ok tt.
Definition get_admin_tree (st : TreeState) (hs : Headers) (q : AdminTreeQuery) (now : DateTime) (db : DB)
    (accounts : AccountDB) : result TreeError AdminTreePage :=
  require_tree_administrator hs now accounts;;
  parent_id ← normalize_parent_id (aq_parent q);
  limit ← validate_page_size (aq_limit q);
  offset ← decode_cursor (aq_cursor q);
  let fetch_limit := saturating_add limit 1 in
  nodes ← nodes_for_parent st parent_id offset fetch_limit db accounts;
  '(items, next_cursor) ← finish_page nodes offset limit;
  Ok {| ap_generated_at := now; ap_parent_id := parent_id; ap_items := items; ap_next_cursor := next_cursor |}.
End tree.
