(* ===== verification/AdminTreeTheorems.v ===== *)
(** * The program tree: cursors, paging and the shape of the tree *)

From Stdlib Require Import Bool NArith ZArith Lia.
From S2P Require Import Prelude Text Extern Content StoreBase StoreTaxonomy StoreContent StoreFeed Accounts StoreSpec Signing CacheHttp Auth Features AdminTree.

(** ** Big-endian digits *)

Lemma big_endian_digits b k u :
  fold_left (fun n d => n * 2 ^ b + d)%N ((fun i => N.shiftr u (b * N.of_nat (k - 1 - i)) mod 2 ^ b)%N <$> seq 0 k) 0%N
  = (u mod 2 ^ (b * N.of_nat k))%N.
Proof.
  revert u. induction k as [|k IH]; intros u; [by rewrite N.mul_0_r, N.mod_1_r|].
  rewrite seq_S, fmap_app, fold_left_app. cbn [fmap list_fmap fold_left Nat.add].
  replace (S k - 1 - k) with 0 by lia. rewrite N.mul_0_r, N.shiftr_0_r.
  assert ((fun i => N.shiftr u (b * N.of_nat (S k - 1 - i)) mod 2 ^ b)%N <$> seq 0 k
          = (fun i => N.shiftr (N.shiftr u b) (b * N.of_nat (k - 1 - i)) mod 2 ^ b)%N <$> seq 0 k) as ->.
  { apply list_fmap_ext. intros ? i Hi%lookup_seq. f_equal. rewrite N.shiftr_shiftr. f_equal. nia. }
  rewrite IH, N.shiftr_div_pow2, Nat2N.inj_succ, N.mul_succ_r, N.pow_add_r.
  rewrite (N.mul_comm (2 ^ (b * N.of_nat k))), N.Div0.mod_mul_r. lia.
Qed.

Lemma be_bytes_round_trip n : (n < 2 ^ 64)%N -> from_be_bytes (to_be_bytes n) = n.
Proof.
  intros Hn. pose proof (big_endian_digits 8 8 n) as H. unfold from_be_bytes, to_be_bytes.
  etransitivity; [exact H|]. by apply N.mod_small.
Qed.
Lemma to_be_bytes_bytes n : is_bytes (to_be_bytes n) /\ size_of (to_be_bytes n) = 8%N.
Proof.
  split; [|unfold size_of, to_be_bytes; by rewrite length_fmap, length_seq].
  apply Forall_fmap, Forall_forall. intros i _. by apply N.mod_lt.
Qed.

(** ** The text of identifiers *)

Lemma hex_digit_char n : (n < 16)%N -> hex_digit n <> 58%N /\ (hex_digit n < 117)%N.
Proof. unfold hex_digit. destruct (N.ltb_spec n 10); lia. Qed.
Lemma uuid_simple_chars u : Forall (fun c => c <> 58%N /\ (c < 117)%N) (uuid_simple u) /\ length (uuid_simple u) = 32.
Proof.
  split; [|by unfold uuid_simple; rewrite length_fmap, length_seq].
  apply Forall_fmap, Forall_forall. intros i _. apply hex_digit_char. by apply N.mod_lt.
Qed.
Lemma uuid_text_chars u : Forall (fun c => c <> 58%N /\ (c < 117)%N) (uuid_hyphenated u) /\ length (uuid_hyphenated u) = 36.
Proof.
  destruct (uuid_simple_chars u) as [Hc Hl]. unfold uuid_hyphenated. split.
  - rewrite !Forall_app. split_and!; try (by apply Forall_take); try (by apply Forall_drop);
      try (by apply Forall_take, Forall_drop); by repeat constructor.
  - rewrite !length_app, !length_take, !length_drop, Hl. done.
Qed.
Lemma uuid_text_no_colon u : 58%N ∉ uuid_hyphenated u.
Proof. destruct (uuid_text_chars u) as [H _]. rewrite Forall_forall in H. by intros [? _]%H. Qed.
Lemma uuid_text_not_empty u : is_empty (uuid_hyphenated u) = false.
Proof. destruct (uuid_text_chars u) as [_ H]. by destruct (uuid_hyphenated u). Qed.
Lemma uuid_text_not_uncategorized u : str_eqb (uuid_hyphenated u) (lit "uncategorized") = false.
Proof. apply bool_decide_eq_false_2. intros E. destruct (uuid_text_chars u) as [_ H]. by rewrite E in H. Qed.

#[local] Arguments uuid_hyphenated : simpl never.
#[local] Arguments uuid_parse : simpl never.

Section ids.
Context `{!UuidLib}.
(** [uuid]: the hyphenated form of a 128-bit identifier is parsed back. *)
Hypothesis uuid_text_parses : forall u, (u < 2 ^ 128)%N -> uuid_parse (uuid_hyphenated u) = Some u.

Lemma parse_entity prefix u : (u < 2 ^ 128)%N ->
  parse_uuid_node (prefix ++ uuid_hyphenated u) prefix = Ok (Some u).
Proof.
  intros Hu. unfold parse_uuid_node. rewrite (proj2 (strip_prefix_Some _ _ _) eq_refl), uuid_text_not_empty.
  rewrite (proj2 (contains_char_false _ _) (uuid_text_no_colon u)). cbn. by rewrite uuid_text_parses.
Qed.
Lemma parse_category c : (cpt_site_id c < 2 ^ 128)%N -> (forall id, cpt_category_id c = Some id -> (id < 2 ^ 128)%N) ->
  parse_category_parent (node_id c) = Ok (Some c).
Proof.
  destruct c as [site category]. cbn. intros Hs Hc. unfold parse_category_parent, node_id. cbn [cpt_site_id cpt_category_id].
  rewrite (proj2 (strip_prefix_Some _ _ _) eq_refl). set (text := match category with Some _ => _ | None => _ end).
  assert (58%N ∉ text) as Ht.
  { unfold text. destruct category; [apply uuid_text_no_colon|]. apply contains_char_false. by vm_compute. }
  assert (split 58 (uuid_hyphenated site ++ lit ":" ++ text) = [uuid_hyphenated site; text]) as ->.
  { apply (split_join_inv 58 [uuid_hyphenated site; text]); [done|]. repeat constructor; [apply uuid_text_no_colon|done]. }
  cbn -[str_eqb]. rewrite uuid_text_not_empty, uuid_text_parses by done. unfold text.
  destruct category as [id|]; [|done]. rewrite uuid_text_not_empty. cbn -[str_eqb].
  rewrite uuid_text_not_uncategorized. cbn. by rewrite uuid_text_parses by auto.
Qed.
End ids.

(** ** Cursors *)

Section cursors.
Context `{!Base64Engine}.
Hypothesis b64_round_trip : forall l, is_bytes l -> b64_decode (b64_encode l) = Some l.
Hypothesis b64_length : forall l, (str_len (b64_encode l) <= (size_of l + 3 - 1) / 3 * 4)%N.

Lemma b64_not_empty l : is_bytes l -> l <> [] -> is_empty (b64_encode l) = false.
Proof.
  intros Hl Hne. destruct (b64_encode l) eqn:E; [|done]. exfalso. apply Hne.
  assert (b64_encode [] = []) as E0 by (apply str_len_zero, N.le_0_r, (b64_length [])).
  pose proof (b64_round_trip l Hl) as H1. pose proof (b64_round_trip [] ltac:(constructor)) as H2. congruence.
Qed.

(** A cursor the server hands out is read back as the offset it stands for. *)
Lemma cursor_round_trip offset : (offset <= Z.to_N i64_max)%N -> decode_cursor (Some (encode_cursor offset)) = Ok offset.
Proof.
  intros Ho. change (Z.to_N i64_max) with (2 ^ 63 - 1)%N in *. destruct (to_be_bytes_bytes offset) as [Hb Hs].
  unfold decode_cursor, encode_cursor. rewrite b64_not_empty; [|done|by intros E; rewrite E in Hs].
  pose proof (b64_length (to_be_bytes offset)) as Hl. rewrite Hs in Hl. change ((8 + 3 - 1) / 3 * 4)%N with 12%N in Hl.
  unfold MAX_CURSOR_LENGTH. rewrite (proj2 (N.ltb_ge _ _)) by lia. cbn [orb fail_if mbind result_bind].
  rewrite b64_round_trip by done. cbn [ok_or mbind result_bind]. rewrite Hs. cbn [N.eqb ensure mbind result_bind].
  change (8 =? 8)%N with true. cbn [ensure]. rewrite be_bytes_round_trip by lia. change (Z.to_N i64_max) with (2 ^ 63 - 1)%N.
  rewrite (proj2 (N.ltb_ge _ _)) by lia. unfold usize_max. by rewrite (proj2 (N.leb_le _ _)) by lia.
Qed.
End cursors.

(** ** Slices of a listing *)

Definition slice {A} (offset n : N) (l : list A) : list A := take (N.to_nat n) (drop (N.to_nat offset) l).

Lemma page_parameter_Ok n : (Z.of_N n <= i64_max)%Z -> page_parameter n = Ok (Z.of_N n).
Proof. intros Hn. unfold page_parameter. by rewrite (proj2 (Z.leb_le _ _) Hn). Qed.
Lemma to_nat_N n : Z.to_nat (Z.of_N n) = N.to_nat n.
Proof. lia. Qed.
Lemma page_slice {A} offset n (l : list A) : (Z.of_N offset <= i64_max)%Z -> (Z.of_N n <= i64_max)%Z -> page offset n l = Ok (slice offset n l).
Proof.
  intros Ho Hn. unfold page. rewrite !page_parameter_Ok by assumption. cbn [mbind result_bind].
  unfold limit, slice. by rewrite N2Z.id, to_nat_N.
Qed.
Lemma slice_fmap {A B} (f : A -> B) offset n l : slice offset n (f <$> l) = f <$> slice offset n l.
Proof. unfold slice. by rewrite fmap_take, fmap_drop. Qed.
Lemma slice_whole {A} n (l : list A) : (size_of l <= n)%N -> slice 0 n l = l.
Proof. unfold slice, size_of. change (N.to_nat 0) with 0. rewrite drop_0. intros H. apply take_ge. lia. Qed.
Lemma slice_short {A} n (l : list A) : (size_of (slice 0 n l) < n)%N -> slice 0 n l = l.
Proof.
  unfold slice, size_of. change (N.to_nat 0) with 0. rewrite drop_0, length_take. intros H. apply take_ge. lia.
Qed.
Lemma slice_slice {A} offset n k (l : list A) : (size_of (slice 0 k l) < k)%N -> slice offset n l = slice offset n (slice 0 k l).
Proof. intros H. by rewrite (slice_short k l H). Qed.
Lemma Forall2_slice {A B} (P : A -> B -> Prop) offset n l k : Forall2 P l k -> Forall2 P (slice offset n l) (slice offset n k).
Proof. intros H. by apply Forall2_take, Forall2_drop. Qed.

(** ** Listings by page *)

Section paging.
Context `{!UrlLib, !StoreCodec, !UuidLib}.
Implicit Types (st : TreeState) (db : DB) (accounts : AccountDB).
(** A limit the store accepts. *)
Context (whole : N).
Hypothesis whole_fits : (Z.of_N whole <= i64_max)%Z.

(** The listing of a parent in one request to the store. *)
Definition children st (parent_id : rstr) db accounts : result TreeError (list AdminTreeNode) :=
  nodes_for_parent st parent_id 0 whole db accounts.

Lemma repository_Ok {A} (r : result RepositoryError A) a : repository r = Ok a <-> r = Ok a.
Proof. apply map_err_Ok. Qed.
Definition category_metadata (kv : Uuid * CategoryRow) : CategoryMetadataRecord := {|
  cmr_id := kv.1; cmr_site_id := cat_site_id kv.2; cmr_slug := cat_slug kv.2; cmr_title := cat_title kv.2;
  cmr_status := cat_status kv.2; cmr_created_at := cat_created_at kv.2; cmr_updated_at := cat_updated_at kv.2 |}.
Definition revision_metadata (kv : Uuid * RevisionRow) : RevisionMetadataRecord := {|
  rmr_id := kv.1; rmr_document_id := rev_document_id kv.2; rmr_revision_number := rev_number kv.2;
  rmr_slug := rev_slug kv.2; rmr_created_at := rev_created_at kv.2 |}.
Definition site_metadata (kv : Uuid * SiteRow) : SiteMetadataRecord := {|
  sm_id := kv.1; sm_handle := st_handle kv.2; sm_title := st_title kv.2; sm_created_at := Accounts.st_created_at kv.2;
  sm_updated_at := st_updated_at kv.2 |}.
Definition listed_sites accounts : list (Uuid * SiteRow) :=
  order_by (fun a b => newest_first (Accounts.st_created_at a.2, a.1) (Accounts.st_created_at b.2, b.1)) (map_to_list (site_table accounts)).
Definition listed_documents db (site_id : Uuid) (category_id : option Uuid) :=
  order_by (fun a b => newest_leb (a.1.1.1, doc_updated_at a.1.1.2) (b.1.1.1, doc_updated_at b.1.1.2))
    (omap (current_placement db site_id category_id) (map_to_list (documents db))).
Definition listed_revisions db (document_id : Uuid) : list (Uuid * RevisionRow) :=
  order_by revision_number_leb
    (List.filter (fun kv => (rev_document_id kv.2 =? document_id)%N) (map_to_list (revisions db))).
Definition category_exists db (site_id : Uuid) (category_id : option Uuid) : result RepositoryError unit :=
  match category_id with Some c => ensure_category_in_site site_id c db | None => Ok tt end.

Lemma site_page offset n accounts : (Z.of_N offset <= i64_max)%Z -> (Z.of_N n <= i64_max)%Z ->
  list_site_metadata_page offset n accounts = Ok (site_metadata <$> slice offset n (listed_sites accounts)).
Proof. intros Ho Hn. unfold list_site_metadata_page. by rewrite page_slice. Qed.
Lemma category_page id offset n db : (Z.of_N offset <= i64_max)%Z -> (Z.of_N n <= i64_max)%Z ->
  list_category_metadata_page id true offset n db
  = (ensure_site_exists id db;; Ok (category_metadata <$> slice offset n (listed_categories db id true))).
Proof. intros Ho Hn. unfold list_category_metadata_page. by rewrite page_slice. Qed.
Lemma document_page site category offset n db : (Z.of_N offset <= i64_max)%Z -> (Z.of_N n <= i64_max)%Z ->
  list_current_document_metadata_page site category offset n db
  = (ensure_site_exists site db;; category_exists db site category;;
     traverse document_metadata (slice offset n (listed_documents db site category))).
Proof. intros Ho Hn. unfold list_current_document_metadata_page. by rewrite page_slice. Qed.
Lemma revision_page id offset n db : (Z.of_N offset <= i64_max)%Z -> (Z.of_N n <= i64_max)%Z ->
  list_revision_metadata_page id offset n db
  = (ensure_document_exists id db;; Ok (revision_metadata <$> slice offset n (listed_revisions db id))).
Proof. intros Ho Hn. unfold list_revision_metadata_page. by rewrite page_slice. Qed.

Lemma size_fmap {A B} (f : A -> B) l : size_of (f <$> l) = size_of l.
Proof. unfold size_of. by rewrite length_fmap. Qed.
Lemma site_children id db offset n nodes : (1 < n)%N -> (size_of nodes < whole)%N ->
  uncategorized_node id :: (category_node <$> (category_metadata <$> slice 0 (whole - 1) (listed_categories db id true))) = nodes ->
  (if (offset =? 0)%N then [uncategorized_node id] else []) ++ (category_node <$>
     (category_metadata <$> slice (offset - 1) (n - (if (offset =? 0)%N then 1 else 0)) (listed_categories db id true)))
  = slice offset n nodes.
Proof.
  intros Hn Hs <-. unfold size_of in Hs. cbn [length] in Hs. rewrite !length_fmap in Hs.
  rewrite (slice_short (whole - 1) (listed_categories db id true)) by (unfold size_of; lia).
  rewrite <-!list_fmap_compose, <-!slice_fmap. generalize (category_node ∘ category_metadata <$> listed_categories db id true).
  intros l. unfold slice. destruct (N.eqb_spec offset 0) as [->|Hne].
  - replace (N.to_nat n) with (S (N.to_nat (n - 1))) by lia. done.
  - replace (N.to_nat offset) with (S (N.to_nat (offset - 1))) by lia. by rewrite N.sub_0_r.
Qed.
Lemma traverse_slice {E A B} (f : A -> result E B) offset n l bs :
  traverse f (slice 0 whole l) = Ok bs -> (size_of bs < whole)%N -> traverse f (slice offset n l) = Ok (slice offset n bs).
Proof.
  rewrite !traverse_Ok. intros Hl Hs. rewrite slice_short in Hl.
  - by apply Forall2_slice.
  - unfold size_of in *. by rewrite (Forall2_length _ _ _ Hl).
Qed.

(** Any page of a listing is a slice of the whole listing. *)
Lemma zero_fits : (Z.of_N 0 <= i64_max)%Z.
Proof. done. Qed.
#[local] Hint Resolve whole_fits zero_fits : core.
Lemma entity_slice parent_id db nodes offset n :
  entity_children parent_id 0 whole db = Ok nodes -> (size_of nodes < whole)%N ->
  (Z.of_N offset <= i64_max)%Z -> (1 < n)%N -> (Z.of_N n <= i64_max)%Z -> entity_children parent_id offset n db = Ok (slice offset n nodes).
Proof.
  unfold entity_children, repository. intros (site & -> & E)%bind_Ok Hs Ho Hn Hn'. cbn [mbind result_bind].
  destruct site as [id|].
  { change (0 =? 0)%N with true in E. cbv zeta iota in E. rewrite category_page in E by (auto || lia).
    rewrite category_page by (destruct (offset =? 0)%N; lia).
    apply bind_Ok in E as (cats & (u & -> & [= <-])%map_err_Ok%bind_Ok & [= E]). cbn. f_equal.
    by apply site_children. }
  apply bind_Ok in E as (category & -> & E). cbn [mbind result_bind]. destruct category as [c|].
  { rewrite document_page in E by auto. rewrite document_page by done.
    apply bind_Ok in E as (docs & (u & -> & (v & -> & E)%bind_Ok)%map_err_Ok%bind_Ok & [= <-]). cbn. rewrite size_fmap in Hs.
    rewrite (traverse_slice _ _ _ _ _ E Hs). cbn. f_equal. by rewrite slice_fmap. }
  apply bind_Ok in E as (document & -> & E). cbn [mbind result_bind]. destruct document as [id|];
    [|by apply bind_Ok in E as (leaf & _ & ?)].
  rewrite revision_page in E by auto. rewrite revision_page by done.
  apply bind_Ok in E as (revs & (u & -> & [= <-])%map_err_Ok%bind_Ok & [= <-]). cbn. f_equal.
  rewrite !size_fmap in Hs. rewrite (slice_slice offset n whole) by done. by rewrite !slice_fmap.
Qed.
Lemma nodes_slice st parent_id db accounts nodes offset n :
  children st parent_id db accounts = Ok nodes -> (size_of nodes < whole)%N ->
  (Z.of_N offset <= i64_max)%Z -> (1 < n)%N -> (Z.of_N n <= i64_max)%Z ->
  nodes_for_parent st parent_id offset n db accounts = Ok (slice offset n nodes).
Proof.
  unfold children, nodes_for_parent. intros E Hs Ho Hn Hn'.
  assert (forall l : list AdminTreeNode, @Ok TreeError _ (page_static l 0 whole) = Ok nodes ->
    @Ok TreeError _ (page_static l offset n) = Ok (slice offset n nodes)) as Hstatic.
  { intros l [= El]. f_equal. rewrite <-El in Hs |- *. by apply slice_slice. }
  destruct (str_eqb parent_id ROOT_NODE_ID); [by apply Hstatic|].
  destruct (str_eqb parent_id (lit "group:content")).
  { rewrite site_page in E by auto. rewrite site_page by done. injection E as <-. cbn. f_equal.
    rewrite !size_fmap in Hs. rewrite (slice_slice offset n whole) by done. by rewrite !slice_fmap. }
  repeat (destruct (str_eqb parent_id _); [by apply Hstatic|]). by apply entity_slice.
Qed.
End paging.

(** ** Browsing a listing to its end *)

Section browsing.
Context `{!UrlLib, !StoreCodec, !UuidLib, !Base64Engine, !DigestLib, !HeaderLib}.
Hypothesis b64_round_trip : forall l, is_bytes l -> b64_decode (b64_encode l) = Some l.
Hypothesis b64_length : forall l, (str_len (b64_encode l) <= (size_of l + 3 - 1) / 3 * 4)%N.

(** A client that asks for the next page until there is none. *)
Fixpoint browse (requests : nat) (st : TreeState) (hs : Headers) (q : AdminTreeQuery) (now : DateTime) (db : DB)
    (accounts : AccountDB) : option (list AdminTreeNode) :=
  match requests with
  | O => None
  | S requests =>
      match get_admin_tree st hs q now db accounts with
      | Err _ => None
      | Ok page =>
          match ap_next_cursor page with
          | None => Some (ap_items page)
          | Some cursor =>
              rest ← browse requests st hs {| aq_parent := aq_parent q; aq_cursor := Some cursor; aq_limit := aq_limit q |}
                now db accounts;
              Some (ap_items page ++ rest)
          end
      end
  end.

Lemma slice_app {A} offset n (l : list A) : slice offset n l ++ drop (N.to_nat (offset + n)) l = drop (N.to_nat offset) l.
Proof. unfold slice. rewrite N2Nat.inj_add, <-drop_drop. apply take_drop. Qed.

Section client.
Context (st : TreeState) (hs : Headers) (now : DateTime) (db : DB) (accounts : AccountDB) (parent : option rstr)
  (limit : option N) (parent_id : rstr) (n whole : N) (nodes : list AdminTreeNode).
Hypothesis whole_fits : (Z.of_N whole <= i64_max)%Z.
Hypothesis Hadmin : require_tree_administrator hs now accounts = Ok tt.
Hypothesis Hparent : normalize_parent_id parent = Ok parent_id.
Hypothesis Hlimit : validate_page_size limit = Ok n.
Hypothesis Hchildren : children whole st parent_id db accounts = Ok nodes.
Hypothesis Hsize : (size_of nodes < whole)%N.

Lemma page_at cursor offset : decode_cursor cursor = Ok offset -> (Z.of_N offset <= i64_max)%Z ->
  get_admin_tree st hs {| aq_parent := parent; aq_cursor := cursor; aq_limit := limit |} now db accounts
  = Ok {| ap_generated_at := now; ap_parent_id := parent_id; ap_items := slice offset n nodes;
          ap_next_cursor := if (offset + n <? size_of nodes)%N then Some (encode_cursor (offset + n)) else None |}.
Proof.
  intros Hc Ho. assert (1 <= n <= 200)%N as Hn.
  { unfold validate_page_size in Hlimit. inv_ok. unfold within, MAX_PAGE_SIZE in *. bool_simpl. lia. }
  unfold get_admin_tree. rewrite Hadmin. cbn [mbind result_bind aq_parent aq_limit aq_cursor]. rewrite Hparent. cbn [mbind result_bind].
  rewrite Hlimit. cbn [mbind result_bind]. rewrite Hc. cbn [mbind result_bind].
  unfold saturating_add. replace (N.min (n + 1) usize_max) with (n + 1)%N by (unfold usize_max; lia).
  rewrite (nodes_slice whole whole_fits st parent_id db accounts nodes) by (done || unfold i64_max; lia). cbn [mbind result_bind].
  unfold finish_page, size_of, slice in *. rewrite length_take, length_drop, take_take.
  replace (N.to_nat n `min` N.to_nat (n + 1)) with (N.to_nat n) by lia.
  assert ((n <? N.of_nat (N.to_nat (n + 1) `min` (length nodes - N.to_nat offset)))%N
          = (offset + n <? N.of_nat (length nodes))%N) as ->.
  { apply eq_true_iff_eq. rewrite !N.ltb_lt. lia. }
  destruct (offset + n <? N.of_nat (length nodes))%N; [|done].
  rewrite (proj2 (N.leb_le _ _)) by (unfold usize_max, i64_max in *; lia). done.
Qed.

Lemma browse_from requests : forall cursor offset, decode_cursor cursor = Ok offset -> (offset <= size_of nodes)%N ->
  (size_of nodes - offset < N.of_nat requests * n)%N ->
  browse requests st hs {| aq_parent := parent; aq_cursor := cursor; aq_limit := limit |} now db accounts
  = Some (drop (N.to_nat offset) nodes).
Proof.
  assert (1 <= n)%N as Hn.
  { unfold validate_page_size in Hlimit. inv_ok. unfold within in *. bool_simpl. lia. }
  induction requests as [|requests IH]; intros cursor offset Hc Ho Hr; [lia|]. cbn [browse].
  rewrite (page_at cursor offset Hc) by lia. cbn [ap_next_cursor ap_items aq_parent aq_limit].
  destruct (N.ltb_spec (offset + n) (size_of nodes)) as [Hmore|Hlast].
  - rewrite (IH _ (offset + n)%N); [|apply cursor_round_trip; [done..|lia]|lia|lia]. cbn. f_equal. apply slice_app.
  - f_equal. unfold slice. apply take_ge. rewrite length_drop. unfold size_of in Hlast. lia.
Qed.
End client.

(** C22. Expanding a node of the program tree terminates and shows every child
    once.  On a store that does not change, a client that asks for a page and
    then for the page of each cursor it is given, with any accepted page size
    and as the administrator, is answered without an error, receives the last
    page after at most [length / size + 1] requests, and has by then received
    exactly the listing the store has for the node, in its order: nothing is
    repeated, skipped or truncated.  The bound says that the listing is
    shorter than the largest limit the store accepts. *)
Theorem browsing_shows_every_child_once st hs now db accounts parent limit parent_id n whole nodes :
  require_tree_administrator hs now accounts = Ok tt ->
  normalize_parent_id parent = Ok parent_id -> validate_page_size limit = Ok n ->
  children whole st parent_id db accounts = Ok nodes ->
  (size_of nodes < whole)%N -> (Z.of_N whole <= i64_max)%Z ->
  browse (S (length nodes / N.to_nat n)) st hs {| aq_parent := parent; aq_cursor := None; aq_limit := limit |} now db accounts
  = Some nodes.
Proof.
  intros Hadmin Hparent Hlimit Hchildren Hsize Hfits.
  assert (1 <= n)%N as Hn.
  { unfold validate_page_size in Hlimit. inv_ok. unfold within in *. bool_simpl. lia. }
  rewrite (browse_from st hs now db accounts parent limit parent_id n whole nodes Hfits Hadmin Hparent Hlimit Hchildren Hsize _ None 0);
    [done|done|lia|].
  pose proof (Nat.mul_succ_div_gt (length nodes) (N.to_nat n) ltac:(lia)). unfold size_of. lia.
Qed.
End browsing.

(** ** The shape of the tree *)

Section shape.
Context `{!UrlLib, !StoreCodec, !UuidLib, !Sha256Lib, !LayerCodec}.
Hypothesis uuid_text_parses : forall u, (u < 2 ^ 128)%N -> uuid_parse (uuid_hyphenated u) = Some u.
Context (st : TreeState) (db : DB) (accounts : AccountDB) (whole : N).

(** A consistent store: the content tables satisfy their invariant, both sets
    of tables know the same sites, identifiers have 128 bits, and listings are
    shorter than a limit the store accepts. *)
Record shown_store : Prop := {
  ss_wf : wf db;
  ss_linked id : is_Some (site_table accounts !! id) <-> id ∈ sites db;
  ss_site_ids id : id ∈ sites db -> (id < 2 ^ 128)%N;
  ss_category_ids id : is_Some (categories db !! id) -> (id < 2 ^ 128)%N;
  ss_document_ids id : is_Some (documents db !! id) -> (id < 2 ^ 128)%N;
  ss_revision_ids id : is_Some (revisions db !! id) -> (id < 2 ^ 128)%N;
  ss_module_ids : NoDup (md_id <$> ts_features st);
  ss_fits : (Z.of_N whole <= i64_max)%Z;
  ss_small : Forall (fun size => N.of_nat (10 + size) <= whole)%N
    [size (site_table accounts); size (categories db); size (documents db); size (revisions db); length (ts_features st)];
}.

(** What a client can see by expanding nodes from the root. *)
Inductive visible : AdminTreeNode -> Prop :=
| visible_root l n : children whole st ROOT_NODE_ID db accounts = Ok l -> n ∈ l -> visible n
| visible_below m l n : visible m -> children whole st (atn_id m) db accounts = Ok l -> n ∈ l -> visible n.

Definition document_row_metadata (id : Uuid) (d : DocumentRow) (r : RevisionRow) (p : PlacementRow) (s : RevisionSnapshot)
    : CurrentDocumentMetadataRecord := {|
  cdm_id := id; cdm_site_id := doc_site_id d; cdm_status := doc_status d;
  cdm_current_revision_id := doc_current_revision_id d; cdm_published_revision_id := doc_published_revision_id d;
  cdm_title := rs_title s; cdm_slug := rev_slug r; cdm_revision_number := rev_number r;
  cdm_category_id := pl_category_id p; cdm_created_at := doc_created_at d; cdm_updated_at := doc_updated_at d |}.

(** What there is to see. *)
Inductive tree_node : AdminTreeNode -> Prop :=
| tn_root n : n ∈ root_nodes -> tree_node n
| tn_asset n : n ∈ asset_nodes -> tree_node n
| tn_configuration n : n ∈ configuration_nodes st -> tree_node n
| tn_module m : m ∈ ts_features st -> tree_node (module_node m)
| tn_runtime n : n ∈ runtime_nodes st -> tree_node n
| tn_site id s : site_table accounts !! id = Some s -> tree_node (site_node (site_metadata (id, s)))
| tn_uncategorized id : id ∈ sites db -> tree_node (uncategorized_node id)
| tn_category id c : categories db !! id = Some c -> cat_site_id c ∈ sites db ->
    tree_node (category_node (category_metadata (id, c)))
| tn_document id d r p s : documents db !! id = Some d -> doc_site_id d ∈ sites db ->
    revisions db !! doc_current_revision_id d = Some r -> revision_categories db !! doc_current_revision_id d = Some p ->
    revision_of_json (rev_snapshot_json r) = Some s ->
    tree_node (document_node (node_id {| cpt_site_id := doc_site_id d; cpt_category_id := pl_category_id p |})
                 (document_row_metadata id d r p s))
| tn_revision rid r d : revisions db !! rid = Some r -> documents db !! rev_document_id r = Some d ->
    doc_site_id d ∈ sites db -> tree_node (revision_node (revision_metadata (rid, r))).

Hypothesis Hs : shown_store.

(** The literal tests of [nodes_for_parent]. *)
Ltac by_name := unfold children, nodes_for_parent; repeat match goal with
  | |- context [str_eqb ?p ?q] => first [change (str_eqb p q) with false | change (str_eqb p q) with true]; cbv iota
  end.

Lemma static_whole {A} (l : list A) : (N.of_nat (length l) <= whole)%N -> page_static l 0 whole = l.
Proof. apply (slice_whole whole l). Qed.
Lemma small :
  (N.of_nat (10 + size (site_table accounts)) <= whole)%N /\ (N.of_nat (10 + size (categories db)) <= whole)%N
  /\ (N.of_nat (10 + size (documents db)) <= whole)%N /\ (N.of_nat (10 + size (revisions db)) <= whole)%N
  /\ (N.of_nat (10 + length (ts_features st)) <= whole)%N.
Proof. pose proof (ss_small Hs) as Hsmall. rewrite !Forall_cons in Hsmall. tauto. Qed.
Lemma filter_short {A} (p : A -> bool) l : length (List.filter p l) <= length l.
Proof. apply filter_length_le. Qed.
Lemma omap_short {A B} (f : A -> option B) (l : list A) : length (omap f l) <= length l.
Proof. induction l as [|a l IH]; cbn; [lia|]. destruct (f a); cbn; lia. Qed.
Lemma order_by_length {A} leb (l : list A) : length (order_by leb l) = length l.
Proof. by rewrite order_by_Permutation. Qed.

Lemma group_children :
  children whole st ROOT_NODE_ID db accounts = Ok root_nodes
  /\ children whole st (lit "group:content") db accounts = Ok (site_node <$> (site_metadata <$> listed_sites accounts))
  /\ children whole st (lit "group:assets") db accounts = Ok asset_nodes
  /\ children whole st (lit "group:configuration") db accounts = Ok (configuration_nodes st)
  /\ children whole st (lit "group:modules") db accounts = Ok (module_nodes st)
  /\ children whole st (lit "group:runtime") db accounts = Ok (runtime_nodes st).
Proof.
  pose proof small as (?&?&?&?&?). split_and!; by_name; try (rewrite static_whole by (cbn; lia); done).
  - rewrite site_page by (apply (ss_fits Hs) || done). cbn [repository map_err mbind result_bind]. do 3 f_equal.
    apply slice_whole. unfold size_of, listed_sites. rewrite order_by_length, length_map_to_list. lia.
  - rewrite static_whole; [done|]. unfold module_nodes. rewrite length_fmap. lia.
Qed.

Lemma site_node_children id : id ∈ sites db ->
  children whole st (site_id_text id) db accounts
  = Ok (uncategorized_node id :: (category_node <$> (category_metadata <$> listed_categories db id true))).
Proof.
  intros Hid. pose proof small as (?&?&?&?&?). pose proof (ss_fits Hs). unfold site_id_text. by_name.
  unfold entity_children. rewrite parse_entity by (done || by apply (ss_site_ids Hs)). cbn [mbind result_bind].
  change (0 =? 0)%N with true. cbv iota. rewrite category_page by lia.
  unfold ensure_site_exists. rewrite bool_decide_eq_true_2 by done. cbn [repository map_err mbind result_bind app].
  do 4 f_equal. apply slice_whole. unfold size_of, listed_categories. rewrite order_by_length.
  pose proof (filter_short (fun kv => (cat_site_id kv.2 =? id)%N && (true || bool_decide (cat_status kv.2 = StoreBase.Active)))
    (map_to_list (categories db))) as Hf. rewrite length_map_to_list in Hf. lia.
Qed.
Lemma placed_row site category id d r p :
  (id, d, r, p) ∈ listed_documents db site category <->
  documents db !! id = Some d /\ doc_site_id d = site /\ revisions db !! doc_current_revision_id d = Some r
  /\ rev_document_id r = id /\ revision_categories db !! doc_current_revision_id d = Some p
  /\ pl_document_id p = id /\ pl_site_id p = site /\ pl_category_id p = category.
Proof.
  unfold listed_documents. rewrite elem_of_order_by, list_elem_of_omap. split.
  - intros ([id' d'] & Hd & Hp). apply elem_of_map_to_list in Hd. unfold current_placement, revision_of in Hp.
    destruct (revisions db !! doc_current_revision_id d') as [r'|] eqn:Er; [|done]. cbn in Hp.
    destruct (N.eqb_spec (rev_document_id r') id') as [Hid|]; [|done]. cbn in Hp.
    destruct (revision_categories db !! doc_current_revision_id d') as [p'|] eqn:Ep; [|done]. cbn in Hp.
    case_match eqn:Ec; [|done]. injection Hp as <- <- <- <-. bool_simpl. subst. by split_and!.
  - intros (Hd & Hsite & Hr & Hrd & Hp & Hpd & Hps & Hc). exists (id, d). split; [by apply elem_of_map_to_list|].
    unfold current_placement, revision_of. rewrite Hr. cbn. rewrite Hrd, N.eqb_refl. cbn. rewrite Hp. cbn.
    rewrite Hsite, Hpd, Hps, !N.eqb_refl. cbn. by rewrite bool_decide_eq_true_2.
Qed.
Lemma row_metadata id d r p : documents db !! id = Some d -> revisions db !! doc_current_revision_id d = Some r ->
  exists s, revision_of_json (rev_snapshot_json r) = Some s
            /\ document_metadata (id, d, r, p) = Ok (document_row_metadata id d r p s).
Proof.
  intros Hd Hr. destruct (wf_snapshot db (wf_is_chain db (ss_wf Hs)) _ _ Hr) as [s Hrow].
  exists s. unfold document_metadata. rewrite (st_decodes _ _ _ Hrow). by split.
Qed.
Lemma category_node_children site category : site ∈ sites db ->
  (forall c, category = Some c -> exists row, categories db !! c = Some row /\ cat_site_id row = site) ->
  exists docs, Forall2 (fun row doc => document_metadata row = Ok doc) (listed_documents db site category) docs
    /\ children whole st (node_id {| cpt_site_id := site; cpt_category_id := category |}) db accounts
       = Ok (document_node (node_id {| cpt_site_id := site; cpt_category_id := category |}) <$> docs).
Proof.
  intros Hsite Hcategory. pose proof small as (?&?&?&?&?). pose proof (ss_fits Hs).
  assert (exists docs, Forall2 (fun row doc => document_metadata row = Ok doc) (listed_documents db site category) docs)
    as [docs Hdocs].
  { assert (Forall (fun row => exists doc, document_metadata row = Ok doc) (listed_documents db site category)) as Hall.
    { apply Forall_forall. intros [[[id d] r] p] (Hd & _ & Hr & _)%placed_row.
      destruct (row_metadata id d r p Hd Hr) as (s & _ & ?). eauto. }
    induction Hall as [|row l [doc Hdoc] _ [docs IH]]; [by exists []|exists (doc :: docs)]. by constructor. }
  exists docs. split; [done|]. set (c := {| cpt_site_id := site; cpt_category_id := category |}).
  assert (children whole st (node_id c) db accounts = entity_children (node_id c) 0 whole db) as -> by done.
  unfold entity_children. assert (parse_uuid_node (node_id c) (lit "site:") = Ok None) as -> by done. cbn [mbind result_bind].
  rewrite parse_category; [|done|by apply (ss_site_ids Hs)|].
  2: { intros k Hk. destruct (Hcategory k Hk) as (row & Hrow & _). apply (ss_category_ids Hs). eauto. }
  cbn [mbind result_bind cpt_site_id cpt_category_id c]. rewrite document_page by lia.
  unfold ensure_site_exists. rewrite bool_decide_eq_true_2 by done. cbn [mbind result_bind].
  assert (category_exists db site category = Ok tt) as ->.
  { destruct category as [k|]; [|done]. destruct (Hcategory k eq_refl) as (row & Hrow & Hc). cbn.
    unfold ensure_category_in_site. rewrite Hrow. cbn. by rewrite Hc, N.eqb_refl. }
  cbn [mbind result_bind]. rewrite slice_whole.
  - by rewrite (proj2 (traverse_Ok _ _ _) Hdocs).
  - unfold size_of, listed_documents. rewrite order_by_length.
    pose proof (omap_short (current_placement db site category) (map_to_list (documents db))) as Hl.
    rewrite length_map_to_list in Hl. lia.
Qed.
Lemma document_node_children id d : documents db !! id = Some d ->
  children whole st (document_id_text id) db accounts = Ok (revision_node <$> (revision_metadata <$> listed_revisions db id)).
Proof.
  intros Hd. pose proof small as (?&?&?&?&?). pose proof (ss_fits Hs). unfold document_id_text. by_name.
  unfold entity_children. change (parse_uuid_node (lit "document:" ++ uuid_hyphenated id) (lit "site:")) with (@Ok TreeError (option Uuid) None).
  cbn [mbind result_bind]. change (parse_category_parent (lit "document:" ++ uuid_hyphenated id)) with (@Ok TreeError (option CategoryParent) None).
  cbn [mbind result_bind]. rewrite parse_entity by (done || apply (ss_document_ids Hs); eauto). cbn [mbind result_bind].
  rewrite revision_page by (apply (ss_fits Hs) || done). unfold ensure_document_exists. rewrite Hd.
  cbn [is_some repository map_err mbind result_bind]. do 3 f_equal. apply slice_whole.
  unfold size_of, listed_revisions. rewrite order_by_length.
  pose proof (filter_short (fun kv => (rev_document_id kv.2 =? id)%N) (map_to_list (revisions db))) as Hf.
  rewrite length_map_to_list in Hf. lia.
Qed.
Definition no_children : result TreeError (list AdminTreeNode) :=
  Err (TreeBadRequest (lit "the selected program-tree node has no children")).
Lemma revision_node_children rid : (rid < 2 ^ 128)%N ->
  children whole st (lit "revision:" ++ uuid_hyphenated rid) db accounts = no_children.
Proof.
  intros Hr. by_name. unfold entity_children.
  change (parse_uuid_node (lit "revision:" ++ uuid_hyphenated rid) (lit "site:")) with (@Ok TreeError (option Uuid) None).
  change (parse_category_parent (lit "revision:" ++ uuid_hyphenated rid)) with (@Ok TreeError (option CategoryParent) None).
  change (parse_uuid_node (lit "revision:" ++ uuid_hyphenated rid) (lit "document:")) with (@Ok TreeError (option Uuid) None).
  cbn [mbind result_bind]. unfold is_leaf_node_id. by rewrite parse_entity.
Qed.
Lemma module_node_children id : children whole st (lit "module:" ++ id) db accounts = no_children.
Proof. reflexivity. Qed.
Lemma literal_children n : n ∈ asset_nodes \/ n ∈ configuration_nodes st \/ n ∈ runtime_nodes st ->
  children whole st (atn_id n) db accounts = no_children /\ atn_has_children n = false.
Proof.
  unfold asset_nodes, configuration_nodes, runtime_nodes. cbn [fmap list_fmap]. rewrite !elem_of_cons.
  intros Hn. destruct_or? Hn; subst; try (by apply not_elem_of_nil in Hn); split; reflexivity.
Qed.

Lemma linked_site id s : site_table accounts !! id = Some s -> id ∈ sites db.
Proof. intros E. apply (ss_linked Hs). eauto. Qed.
Lemma wf_placed_in db' id d : wf db' -> documents db' !! id = Some d -> exists r p,
  revisions db' !! doc_current_revision_id d = Some r /\ rev_document_id r = id
  /\ revision_categories db' !! doc_current_revision_id d = Some p /\ placement_ok db' (doc_site_id d) id p.
Proof.
  intros Hwf Hd. destruct (wf_current db' (wf_is_chain _ Hwf) id d Hd) as (r & Hr & Hid & _). exists r. subst id.
  destruct (wf_placement db' (wf_is_paths _ Hwf) _ r d Hr Hd) as (p & Hp & Hok). by exists p.
Qed.

Definition shows (parent_id : rstr) (l : list AdminTreeNode) : Prop :=
  Forall (fun m => tree_node m /\ atn_parent_id m = parent_id) l.
Lemma shows_root : shows ROOT_NODE_ID root_nodes.
Proof.
  apply Forall_forall. intros n Hn. split; [by apply tn_root|].
  unfold root_nodes in Hn. apply list_elem_of_fmap in Hn as (q & -> & _). done.
Qed.
Lemma shows_group n : n ∈ root_nodes -> atn_has_children n = true /\
  exists l, children whole st (atn_id n) db accounts = Ok l /\ shows (atn_id n) l.
Proof.
  destruct group_children as (_ & G1 & G2 & G3 & G4 & G5). unfold root_nodes. cbn [fmap list_fmap]. rewrite !elem_of_cons.
  assert (forall C (f : C -> AdminTreeNode) parent l, (forall c, c ∈ l -> tree_node (f c) /\ atn_parent_id (f c) = parent) ->
    shows parent (f <$> l)) as Hmap.
  { intros C f parent l Hl. apply Forall_fmap, Forall_forall. exact Hl. }
  intros Hn. destruct_or? Hn; [subst n..|by apply not_elem_of_nil in Hn]; (split; [done|]); eexists.
  - split; [exact G1|]. rewrite <-list_fmap_compose. apply Hmap. intros [id s] Hc. split; [|done].
    apply tn_site. unfold listed_sites in Hc. by rewrite elem_of_order_by, elem_of_map_to_list in Hc.
  - split; [exact G2|]. apply Forall_singleton. split; [apply tn_asset; by left|done].
  - split; [exact G3|]. apply Forall_forall. intros m Hm. split; [by apply tn_configuration|].
    unfold configuration_nodes in Hm. by apply list_elem_of_fmap in Hm as (? & -> & _).
  - split; [exact G4|]. apply Hmap. intros m Hm. split; [by apply tn_module|done].
  - split; [exact G5|]. apply Forall_forall. intros m Hm. split; [by apply tn_runtime|].
    unfold runtime_nodes in Hm. by apply list_elem_of_fmap in Hm as (? & -> & _).
Qed.
Lemma listed_category id k c : (k, c) ∈ listed_categories db id true <-> categories db !! k = Some c /\ cat_site_id c = id.
Proof.
  unfold listed_categories. rewrite elem_of_order_by, list_elem_of_In, filter_In, <-list_elem_of_In, elem_of_map_to_list.
  cbn. by rewrite andb_true_r, N.eqb_eq.
Qed.
Lemma listed_revision id k r : (k, r) ∈ listed_revisions db id <-> revisions db !! k = Some r /\ rev_document_id r = id.
Proof.
  unfold listed_revisions. rewrite elem_of_order_by, list_elem_of_In, filter_In, <-list_elem_of_In, elem_of_map_to_list.
  cbn. by rewrite N.eqb_eq.
Qed.
Lemma shows_site id : id ∈ sites db -> shows (site_id_text id)
  (uncategorized_node id :: (category_node <$> (category_metadata <$> listed_categories db id true))).
Proof.
  intros Hid. constructor; [split; [by apply tn_uncategorized|done]|]. rewrite <-list_fmap_compose.
  apply Forall_fmap, Forall_forall. intros [k c] [Hk <-]%listed_category. split; [by apply tn_category|done].
Qed.
Lemma shows_category site category : site ∈ sites db ->
  (forall c, category = Some c -> exists row, categories db !! c = Some row /\ cat_site_id row = site) ->
  exists l, children whole st (node_id {| cpt_site_id := site; cpt_category_id := category |}) db accounts = Ok l
    /\ shows (node_id {| cpt_site_id := site; cpt_category_id := category |}) l.
Proof.
  intros Hsite Hcategory. destruct (category_node_children site category Hsite Hcategory) as (docs & Hdocs & ->).
  eexists. split; [done|]. apply Forall_fmap, Forall_forall. intros doc Hdoc.
  apply list_elem_of_lookup in Hdoc as [i Hi]. destruct (Forall2_lookup_r _ _ _ _ _ Hdocs Hi) as ([[[id d] r] p] & Hrow & Hm).
  apply list_elem_of_lookup_2, placed_row in Hrow as (Hd & Hsd & Hr & Hrd & Hp & _ & _ & Hc).
  destruct (row_metadata id d r p Hd Hr) as (s & Hj & E). rewrite E in Hm. injection Hm as <-. subst site category. split; [|done].
  by apply tn_document.
Qed.
Lemma shows_document id d : documents db !! id = Some d -> doc_site_id d ∈ sites db ->
  shows (document_id_text id) (revision_node <$> (revision_metadata <$> listed_revisions db id)).
Proof.
  intros Hd Hin. rewrite <-list_fmap_compose. apply Forall_fmap, Forall_forall. intros [k r] [Hk <-]%listed_revision.
  split; [by eapply tn_revision|done].
Qed.

(** The children of every node there is, and what they are. *)
Lemma tree_node_children n : tree_node n ->
  (atn_has_children n = false /\ children whole st (atn_id n) db accounts = no_children) \/
  (atn_has_children n = true /\ exists l, children whole st (atn_id n) db accounts = Ok l /\ shows (atn_id n) l).
Proof.
  destruct 1 as [n Hn|n Hn|n Hn|m Hm|n Hn|id s Hsite|id Hid|id c Hc Hin|id d r p s Hd Hin Hr Hp Hj|rid r d Hr Hd Hin].
  - right. by apply shows_group.
  - left. destruct (literal_children n) as [??]; auto.
  - left. destruct (literal_children n) as [??]; auto.
  - by left.
  - left. destruct (literal_children n) as [??]; auto.
  - right. split; [done|]. eexists. split; [apply site_node_children|apply shows_site]; by eapply linked_site.
  - right. split; [done|]. by apply shows_category.
  - right. split; [done|]. apply shows_category; [done|]. intros ? [= <-]. eauto.
  - right. split; [done|]. eexists. split; [by eapply document_node_children|by eapply shows_document].
  - left. split; [done|]. apply revision_node_children. apply (ss_revision_ids Hs). eauto.
Qed.

Lemma visible_is_tree_node n : visible n -> tree_node n.
Proof.
  induction 1 as [l n Hl Hn|m l n Hm IH Hl Hn].
  - destruct group_children as (G0 & _). rewrite G0 in Hl. injection Hl as <-.
    pose proof shows_root as Hall. unfold shows in Hall. rewrite Forall_forall in Hall. by apply Hall.
  - destruct (tree_node_children m IH) as [[_ E]|(_ & l' & E & Hall)]; rewrite E in Hl; [done|injection Hl as <-].
    unfold shows in Hall. rewrite Forall_forall in Hall. by apply Hall.
Qed.
Lemma root_visible n : n ∈ root_nodes -> visible n.
Proof. intros Hn. destruct group_children as (G0 & _). by eapply visible_root. Qed.
Lemma group_visible id label l n : static_node (lit id) ROOT_NODE_ID GroupNode (lit label) true None ∈ root_nodes ->
  children whole st (lit id) db accounts = Ok l -> n ∈ l -> visible n.
Proof. intros Hg Hl Hn. by eapply (visible_below _ l n (root_visible _ Hg)). Qed.
Lemma site_visible id s : site_table accounts !! id = Some s -> visible (site_node (site_metadata (id, s))).
Proof.
  intros Hsite. destruct group_children as (_ & G1 & _). apply (group_visible "group:content" "Content" _ _ ltac:(by left) G1).
  rewrite <-list_fmap_compose. apply (list_elem_of_fmap_2 (site_node ∘ site_metadata) _ (id, s)).
  unfold listed_sites. by rewrite elem_of_order_by, elem_of_map_to_list.
Qed.
Lemma below_site id n : id ∈ sites db ->
  n ∈ uncategorized_node id :: (category_node <$> (category_metadata <$> listed_categories db id true)) -> visible n.
Proof.
  intros Hid Hn. destruct (proj2 (ss_linked Hs id) Hid) as [s Hsite].
  eapply visible_below; [by apply (site_visible id s)|by apply (site_node_children id)|done].
Qed.
Lemma category_visible id c : categories db !! id = Some c -> cat_site_id c ∈ sites db ->
  visible (category_node (category_metadata (id, c))).
Proof.
  intros Hc Hin. apply (below_site (cat_site_id c)); [done|]. right. rewrite <-list_fmap_compose.
  apply (list_elem_of_fmap_2 (category_node ∘ category_metadata) _ (id, c)). by apply listed_category.
Qed.
Lemma placement_visible site category : site ∈ sites db -> category_in_site db site category ->
  exists m, visible m /\ atn_id m = node_id {| cpt_site_id := site; cpt_category_id := category |}.
Proof.
  intros Hsite Hc. destruct category as [k|].
  - destruct (Hc k eq_refl) as (c & Hk & <-). exists (category_node (category_metadata (k, c))). split; [by apply category_visible|done].
  - exists (uncategorized_node site). split; [|done]. apply (below_site site); [done|by left].
Qed.
Lemma document_visible id d : documents db !! id = Some d -> doc_site_id d ∈ sites db -> exists r p s,
  revisions db !! doc_current_revision_id d = Some r /\ revision_categories db !! doc_current_revision_id d = Some p
  /\ revision_of_json (rev_snapshot_json r) = Some s
  /\ visible (document_node (node_id {| cpt_site_id := doc_site_id d; cpt_category_id := pl_category_id p |})
                (document_row_metadata id d r p s)).
Proof.
  intros Hd Hin. destruct (wf_placed_in db id d (ss_wf Hs) Hd) as (r & p & Hr & Hrd & Hp & Hpd & Hps & Hc).
  destruct (row_metadata id d r p Hd Hr) as (s & Hj & Hm). exists r, p, s. split_and!; [done..|].
  destruct (placement_visible (doc_site_id d) (pl_category_id p) Hin Hc) as (m & Hm1 & Hm2).
  destruct (category_node_children (doc_site_id d) (pl_category_id p) Hin) as (docs & Hdocs & E); [by apply Hc|].
  eapply visible_below; [exact Hm1|rewrite Hm2; exact E|]. apply list_elem_of_fmap_2.
  assert ((id, d, r, p) ∈ listed_documents db (doc_site_id d) (pl_category_id p)) as Hrow by by apply placed_row.
  apply list_elem_of_lookup in Hrow as [i Hi]. destruct (Forall2_lookup_l _ _ _ _ _ Hdocs Hi) as (doc & Hdoc & Ed).
  rewrite Hm in Ed. injection Ed as <-. by eapply list_elem_of_lookup_2.
Qed.
Lemma tree_node_is_visible n : tree_node n -> visible n.
Proof.
  destruct group_children as (G0 & G1 & G2 & G3 & G4 & G5).
  destruct 1 as [n Hn|n Hn|n Hn|m Hm|n Hn|id s Hsite|id Hid|id c Hc Hin|id d r p s Hd Hin Hr Hp Hj|rid r d Hr Hd Hin].
  - by apply root_visible.
  - by apply (group_visible "group:assets" "Assets" _ _ ltac:(by right; left) G2).
  - by apply (group_visible "group:configuration" "Configuration" _ _ ltac:(by do 2 right; left) G3).
  - apply (group_visible "group:modules" "Modules" _ _ ltac:(by do 3 right; left) G4). by apply list_elem_of_fmap_2.
  - by apply (group_visible "group:runtime" "Runtime" _ _ ltac:(by do 4 right; left) G5).
  - by apply site_visible.
  - apply (below_site id); [done|by left].
  - by apply category_visible.
  - destruct (document_visible id d Hd Hin) as (r' & p' & s' & Hr' & Hp' & Hj' & Hv). congruence.
  - destruct (document_visible _ d Hd Hin) as (r' & p' & s' & _ & _ & _ & Hv).
    eapply visible_below; [exact Hv|by eapply document_node_children|]. rewrite <-list_fmap_compose.
    apply (list_elem_of_fmap_2 (revision_node ∘ revision_metadata) _ (rid, r)). by apply listed_revision.
Qed.

(** ** Identifiers identify *)

Inductive code := LiteralCode | ModuleCode (id : rstr) | SiteCode (id : Uuid) | CategoryCode (c : CategoryParent)
| DocumentCode (id : Uuid) | RevisionCode (id : Uuid).
Definition code_of (id : rstr) : code :=
  match parse_uuid_node id (lit "site:"), parse_category_parent id, parse_uuid_node id (lit "document:"),
        parse_uuid_node id (lit "revision:"), strip_prefix (lit "module:") id with
  | Ok (Some u), _, _, _, _ => SiteCode u
  | _, Ok (Some c), _, _, _ => CategoryCode c
  | _, _, Ok (Some u), _, _ => DocumentCode u
  | _, _, _, Ok (Some u), _ => RevisionCode u
  | _, _, _, _, Some m => ModuleCode m
  | _, _, _, _, None => LiteralCode
  end.
Definition literal_nodes : list AdminTreeNode := root_nodes ++ asset_nodes ++ configuration_nodes st ++ runtime_nodes st.
Lemma literal_code n : n ∈ literal_nodes -> code_of (atn_id n) = LiteralCode.
Proof.
  assert (Forall (fun n => code_of (atn_id n) = LiteralCode) literal_nodes) as Hall.
  { unfold literal_nodes, root_nodes, asset_nodes, configuration_nodes, runtime_nodes. cbn [fmap list_fmap app].
    repeat (apply Forall_cons_2; [reflexivity|]). by apply Forall_nil_2. }
  rewrite Forall_forall in Hall. apply Hall.
Qed.
Lemma literal_distinct : NoDup (atn_id <$> literal_nodes).
Proof.
  unfold literal_nodes, root_nodes, asset_nodes, configuration_nodes, runtime_nodes. cbn [fmap list_fmap app].
  apply (bool_decide_unpack _). vm_compute. exact I.
Qed.

Lemma code_site u : (u < 2 ^ 128)%N -> code_of (site_id_text u) = SiteCode u.
Proof. intros Hu. unfold code_of, site_id_text. by rewrite parse_entity. Qed.
Lemma code_category c : (cpt_site_id c < 2 ^ 128)%N -> (forall id, cpt_category_id c = Some id -> (id < 2 ^ 128)%N) ->
  code_of (node_id c) = CategoryCode c.
Proof.
  intros Hu Hc. unfold code_of. assert (parse_uuid_node (node_id c) (lit "site:") = Ok None) as -> by done.
  by rewrite parse_category.
Qed.
Lemma code_document u : (u < 2 ^ 128)%N -> code_of (document_id_text u) = DocumentCode u.
Proof.
  intros Hu. unfold code_of. assert (parse_uuid_node (document_id_text u) (lit "site:") = Ok None) as -> by done.
  assert (parse_category_parent (document_id_text u) = Ok None) as -> by done. unfold document_id_text. by rewrite parse_entity.
Qed.
Lemma code_revision u : (u < 2 ^ 128)%N -> code_of (lit "revision:" ++ uuid_hyphenated u) = RevisionCode u.
Proof.
  intros Hu. unfold code_of. set (id := lit "revision:" ++ _).
  assert (parse_uuid_node id (lit "site:") = Ok None) as -> by done.
  assert (parse_category_parent id = Ok None) as -> by done.
  assert (parse_uuid_node id (lit "document:") = Ok None) as -> by done. unfold id. by rewrite parse_entity.
Qed.
Lemma code_module id : code_of (lit "module:" ++ id) = ModuleCode id.
Proof. done. Qed.

(** The code of a node names the one node it is the code of. *)
Inductive coded : AdminTreeNode -> code -> Prop :=
| coded_literal n : n ∈ literal_nodes -> coded n LiteralCode
| coded_module m : m ∈ ts_features st -> coded (module_node m) (ModuleCode (md_id m))
| coded_site id s : site_table accounts !! id = Some s -> coded (site_node (site_metadata (id, s))) (SiteCode id)
| coded_uncategorized id :
    coded (uncategorized_node id) (CategoryCode {| cpt_site_id := id; cpt_category_id := None |})
| coded_category id c : categories db !! id = Some c -> coded (category_node (category_metadata (id, c)))
    (CategoryCode {| cpt_site_id := cat_site_id c; cpt_category_id := Some id |})
| coded_document id d r p s : documents db !! id = Some d -> revisions db !! doc_current_revision_id d = Some r ->
    revision_categories db !! doc_current_revision_id d = Some p -> revision_of_json (rev_snapshot_json r) = Some s ->
    coded (document_node (node_id {| cpt_site_id := doc_site_id d; cpt_category_id := pl_category_id p |})
             (document_row_metadata id d r p s)) (DocumentCode id)
| coded_revision rid r : revisions db !! rid = Some r -> coded (revision_node (revision_metadata (rid, r))) (RevisionCode rid).
Lemma tree_node_coded n : tree_node n -> coded n (code_of (atn_id n)).
Proof.
  destruct 1 as [n Hn|n Hn|n Hn|m Hm|n Hn|id s Hsite|id Hid|id c Hc Hin|id d r p s Hd Hin Hr Hp Hj|rid r d Hr Hd Hin].
  1-3,5: assert (n ∈ literal_nodes) as Hl by (unfold literal_nodes; rewrite !elem_of_app; tauto);
    rewrite literal_code by done; by constructor.
  - by constructor.
  - cbn [atn_id site_node site_metadata sm_id fst]. rewrite code_site by (by eapply (ss_site_ids Hs), linked_site). by constructor.
  - cbn [atn_id uncategorized_node static_node]. rewrite code_category; [constructor|by apply (ss_site_ids Hs)|done].
  - cbn [atn_id category_node category_metadata cmr_id cmr_site_id fst snd].
    rewrite code_category; [by constructor|by apply (ss_site_ids Hs)|]. intros ? [= <-]. apply (ss_category_ids Hs). eauto.
  - cbn [atn_id document_node document_row_metadata cdm_id].
    rewrite code_document by (apply (ss_document_ids Hs); eauto). by constructor.
  - cbn [atn_id revision_node revision_metadata rmr_id fst].
    rewrite code_revision by (apply (ss_revision_ids Hs); eauto). by constructor.
Qed.
Lemma coded_unique n m c : coded n c -> coded m c -> atn_id n = atn_id m -> n = m.
Proof.
  intros Hn Hm E. destruct Hn as [n Hn|k Hk|id s Hi|id|id row Hi|id d r p s Hd Hr Hp Hj|rid r Hr]; inversion Hm; subst; try congruence.
  - by apply (nodup_key atn_id literal_nodes); [apply literal_distinct|..].
  - f_equal. by apply (nodup_key md_id (ts_features st)); [apply (ss_module_ids Hs)|..].
Qed.

(** C21. The program tree shows the installation exactly.  On a consistent
    store with distinct modules: (1) what a client can reach by expanding
    nodes from the root is exactly the groups, settings, modules and runtime
    components, every site, its uncategorized entry and its categories, every
    document under the category its current revision is placed in, and every
    revision under its document; (2) it is a tree: an identifier names one
    node; (3) navigation never fails: a node that claims children can be
    expanded, and what it shows is visible and names it as the parent, and a
    node that claims none is refused as a leaf. *)
Theorem program_tree_is_exact :
  (forall n, visible n <-> tree_node n)
  /\ (forall m n, visible m -> visible n -> atn_id m = atn_id n -> m = n)
  /\ (forall m, visible m -> match children whole st (atn_id m) db accounts with
       | Ok l => atn_has_children m = true /\ Forall (fun n => visible n /\ atn_parent_id n = atn_id m) l
       | Err e => atn_has_children m = false /\ e = TreeBadRequest (lit "the selected program-tree node has no children")
       end).
Proof.
  assert (forall n, visible n <-> tree_node n) as Hiff
    by (split; [apply visible_is_tree_node|apply tree_node_is_visible]).
  split; [exact Hiff|]. split.
  - intros m n Hm%Hiff%tree_node_coded Hn%Hiff%tree_node_coded E. rewrite E in Hm. by eapply coded_unique.
  - intros m Hm%Hiff. destruct (tree_node_children m Hm) as [[Hc ->]|(Hc & l & -> & Hl)]; [by split|].
    split; [done|]. eapply Forall_impl; [exact Hl|]. intros n [Hn ?]. by rewrite Hiff.
Qed.
End shape.
