(* ===== verification/AdminTreeWitnesses.v ===== *)
(** * The program tree of a small installation *)

From Stdlib Require Import Bool NArith ZArith Lia.
From S2P Require Import Prelude Text Extern Content StoreBase StoreTaxonomy StoreContent StoreFeed Accounts AccountsSpec AccountsRefine AccountsTheorems AccountsWitnesses StoreSpec Samples StoreRefine Store StoreTheorems StoreWitnesses FeedWitnesses Signing CacheHttp Auth AuthWitnesses Features AdminTree AdminTreeTheorems.
Import ToySigning.
Import ToyHttp.
Import Toy.

(** The hyphenated hexadecimal form of identifiers. *)
Definition hex_value (c : N) : N := if (c <=? 57)%N then (c - 48)%N else (c - 87)%N.
#[local] Instance hex_uuid : UuidLib := fun s =>
  let digits := List.filter (fun c => negb (c =? 45)%N) s in
  if (size_of s =? 36)%N && (size_of digits =? 32)%N
  then Some (fold_left (fun n c => n * 16 + hex_value c)%N digits 0%N) else None.
Lemma hex_digit_value d : (d < 16)%N -> hex_value (hex_digit d) = d /\ (hex_digit d <> 45)%N.
Proof.
  intros Hd. unfold hex_value, hex_digit. destruct (N.ltb_spec d 10).
  - rewrite (proj2 (N.leb_le _ _)) by lia. lia.
  - rewrite (proj2 (N.leb_gt _ _)) by lia. lia.
Qed.
Lemma hex_digits_value (f : nat -> N) l acc : (forall i, f i < 16)%N ->
  fold_left (fun n c => n * 16 + hex_value c)%N ((fun i => hex_digit (f i)) <$> l) acc
  = fold_left (fun n d => n * 2 ^ 4 + d)%N (f <$> l) acc.
Proof.
  intros Hf. revert acc. induction l as [|i l IH]; intros acc; [done|]. cbn [fmap list_fmap fold_left].
  rewrite IH. destruct (hex_digit_value (f i) (Hf i)) as [-> _]. done.
Qed.
Lemma hex_uuid_parses u : (u < 2 ^ 128)%N -> uuid_parse (uuid_hyphenated u) = Some u.
Proof.
  intros Hu. destruct (uuid_simple_chars u) as [_ Hl].
  assert (forall l, Forall (fun c => c <> 45%N) l -> List.filter (fun c => negb (c =? 45)%N) l = l) as Hid.
  { induction 1 as [|c l Hc _ IH]; cbn; [done|]. by rewrite (proj2 (N.eqb_neq _ _) Hc), IH. }
  assert (Forall (fun c => c <> 45%N) (uuid_simple u)) as Hc.
  { apply Forall_fmap, Forall_forall. intros i _. apply hex_digit_value. by apply N.mod_lt. }
  assert (List.filter (fun c => negb (c =? 45)%N) (uuid_hyphenated u) = uuid_simple u) as E.
  { unfold uuid_hyphenated. rewrite !List.filter_app. cbn [List.filter]. change (List.filter _ (lit "-")) with (@nil N).
    rewrite !Hid by (try (by apply Forall_take); try (by apply Forall_drop); by apply Forall_take, Forall_drop).
    cbn [app]. by rewrite !app_assoc, !take_take_drop, take_drop. }
  unfold uuid_parse, hex_uuid. rewrite E. destruct (uuid_text_chars u) as [_ Ht]. unfold size_of. rewrite Ht, Hl.
  change (_ && _) with true. cbv iota. f_equal. transitivity (u mod 2 ^ (4 * N.of_nat 32))%N; [|by apply N.mod_small].
  rewrite <-big_endian_digits. unfold uuid_simple. apply hex_digits_value. intros i. by apply N.mod_lt.
Qed.

(** A store with two posts, and accounts whose owner has signed in. *)
Definition tree_db : DB := runs pinned_ops site_db.
Definition tree_accounts : AccountDB := sv_accounts (serves owner_signs_in empty_server).
Definition tree_state : TreeState := {|
  ts_app := deployment; ts_comments_enabled := true; ts_custom_css_enabled := false; ts_agent_discovery_enabled := true;
  ts_features := modules_of (requested_set (lit "seo,home_curation")); ts_backup := true; ts_version := lit "1.0.0" |}.

Lemma small_keys {A} (m : gmap Uuid A) id :
  bool_decide (map_Forall (fun k _ => (k < 2 ^ 128)%N) m) = true -> is_Some (m !! id) -> (id < 2 ^ 128)%N.
Proof. intros Hm%bool_decide_eq_true [x Hx]. exact (Hm id x Hx). Qed.
Lemma tree_shown : shown_store tree_state tree_db tree_accounts 1000.
Proof.
  constructor.
  - apply runs_wf; [apply toy_codec_roundtrip|]. apply no_content_wf, site_db_no_content.
  - intros id. assert (dom (site_table tree_accounts) = sites tree_db) as <-.
    { apply (bool_decide_unpack _). vm_compute. exact I. }
    by rewrite elem_of_dom.
  - intros id. assert (sites tree_db = {[1%N]}) as -> by (apply (bool_decide_unpack _); vm_compute; exact I).
    rewrite elem_of_singleton. lia.
  - intros id. apply small_keys. vm_compute. reflexivity.
  - intros id. apply small_keys. vm_compute. reflexivity.
  - intros id. apply small_keys. vm_compute. reflexivity.
  - apply modules_of_distinct.
  - vm_compute. discriminate.
  - apply (bool_decide_unpack _). vm_compute. exact I.
Qed.

Lemma program_tree_is_exact_witness :
  exists c, categories tree_db !! 50%N = Some c
    /\ visible tree_state tree_db tree_accounts 1000 (category_node (category_metadata (50%N, c)))
    /\ is_ok (children 1000 tree_state (atn_id (category_node (category_metadata (50%N, c)))) tree_db tree_accounts) = true.
Proof.
  destruct (program_tree_is_exact hex_uuid_parses tree_state tree_db tree_accounts 1000 tree_shown) as (Hiff & _ & Hnav).
  destruct (categories tree_db !! 50%N) as [c|] eqn:Hc; [|exfalso; vm_compute in Hc; discriminate Hc].
  assert (visible tree_state tree_db tree_accounts 1000 (category_node (category_metadata (50%N, c)))) as Hv.
  { apply Hiff, tn_category; [exact Hc|]. revert Hc. vm_compute. intros [= <-]. reflexivity. }
  exists c. split; [done|]. split; [exact Hv|]. specialize (Hnav _ Hv).
  destruct (children _ _ _ _ _); [done|]. by destruct Hnav as [[=] _].
Defined.

(** Pages of one entry: the root's five groups in six requests. *)
Lemma browsing_shows_every_child_once_witness :
  browse 6 tree_state (presenting 8) {| aq_parent := None; aq_cursor := None; aq_limit := Some 1%N |} 50 tree_db tree_accounts
  = Some root_nodes.
Proof.
  apply (browsing_shows_every_child_once b64_round_trip b64_length tree_state (presenting 8) 50 tree_db tree_accounts None (Some 1%N)
    ROOT_NODE_ID 1 1000 root_nodes).
  - vm_compute. reflexivity.
  - reflexivity.
  - reflexivity.
  - reflexivity.
  - vm_compute. reflexivity.
  - vm_compute. discriminate.
Defined.
