(* ===== verification/Startup.v ===== *)
(** * The start of the HTTP server

    The part of [main] in [apps/server/src/main.rs] that decides whether a
    process may serve a store: provisioning, confirming or rotating the
    administrator binding, and the checks that no stored category or alias
    already answers at a route the configuration claims. *)

From Stdlib Require Import Bool NArith ZArith Lia.
From S2P Require Import Prelude Text Extern StoreBase StoreTaxonomy StoreContent StoreFeed Accounts AccountsSpec AccountsRefine Signing Auth AdminTreeTheorems.

Inductive StartError :=
| OtherModule (persisted requested : AdminAuthMode)
| StartRepository (e : RepositoryError)
| ArticleBaseIsCategory (category : CategoryRecord)
| ReferencesIsCategory (category : CategoryRecord)
| ReferencesIsAlias.

Definition ensure_same_admin_module_rotation (persisted requested : AdminAuthMode) : result StartError unit :=
  ensure (bool_decide (persisted = requested)) (OtherModule persisted requested).

(** ** The administrator binding *)

Section administration.
Context `{!DigestLib}.

Definition bootstrap (site_id : Uuid) (initial_theme : ThemeProfile) : PrimaryOwnerBootstrap := {|
  pb_site_id := site_id; pb_site_handle := lit "blog-" ++ take 12 (uuid_simple site_id); pb_site_title := lit "My blog";
  pb_site_description := Some (lit "This blog is owned by this OpenSoverignBlog instance.");
  pb_owner_display_name := lit "Owner"; pb_theme_profile := initial_theme |}.

Definition start_step {A} (r : result RepositoryError A * AccountDB) : result StartError unit * AccountDB :=
  (match r.1 with Ok _ => Ok tt | Err e => Err (StartRepository e) end, r.2).

(** [delivery_only] servers do not touch the control plane. *)
Definition start_administration (r : AdminAuthRuntime) (site_id : Uuid) (initial_theme : ThemeProfile)
    (rotate delivery_only : bool) (now1 now2 : DateTime) (db : AccountDB) : result StartError unit * AccountDB :=
  let fingerprint := binding_fingerprint r in
  let provision m := start_step (provision_primary_owner_site (bootstrap site_id initial_theme) m fingerprint now1 now2 db) in
  if delivery_only then (Ok tt, db)
  else match mode r with
       | ModeDisabled =>
           match get_admin_control_plane db with
           | Ok control =>
               if rotate
               then match ensure_same_admin_module_rotation (cp_auth_mode control) ModeDisabled with
                    | Err e => (Err e, db)
                    | Ok _ => start_step (rotate_admin_control_plane (cp_primary_site control) ModeDisabled fingerprint now1 db)
                    end
               else start_step (reconcile_admin_control_plane (cp_primary_site control) ModeDisabled fingerprint now1 db)
           | Err NotFound => provision ModeDisabled
           | Err e => (Err (StartRepository e), db)
           end
       | m =>
           if rotate
           then match get_admin_control_plane db with
                | Ok control =>
                    match ensure_same_admin_module_rotation (cp_auth_mode control) m with
                    | Err e => (Err e, db)
                    | Ok _ => start_step (rotate_admin_control_plane site_id m fingerprint now1 db)
                    end
                | Err NotFound => provision m
                | Err e => (Err (StartRepository e), db)
                end
           else provision m
       end.
End administration.

(** ** Route namespaces *)

Section namespaces.
Context `{StoreCodec}.

Definition CATEGORY_NAMESPACE_SCAN_LIMIT : N := 50000.
Definition CATEGORY_NAMESPACE_PAGE_SIZE : N := 500.

(** The loop of [persisted_category_by_slug], with fuel for its iterations:
    [None] when it does not suffice. *)
Fixpoint scan_categories (fuel : nat) (site_id : Uuid) (slug : rstr) (offset : N) (db : DB)
    : option (result RepositoryError CategoryRecord) :=
  match fuel with
  | O => None
  | S fuel =>
      match list_category_metadata_page site_id true offset CATEGORY_NAMESPACE_PAGE_SIZE db with
      | Err e => Some (Err e)
      | Ok page =>
          match List.find (fun c => str_eqb (cmr_slug c) slug) page with
          | Some category => Some (get_category_by_id site_id (cmr_id category) db)
          | None =>
              if (size_of page <? CATEGORY_NAMESPACE_PAGE_SIZE)%N then Some (Err NotFound)
              else let offset := (offset + size_of page)%N in
                   if (CATEGORY_NAMESPACE_SCAN_LIMIT <=? offset)%N
                   then Some (Err (Storage (lit "category namespace exceeds the 50000 entry startup validation limit")))
                   else scan_categories fuel site_id slug offset db
          end
      end
  end.
(** A hundred iterations always suffice, see [scan_ends]. *)
Definition persisted_category_by_slug (site_id : Uuid) (slug : rstr) (db : DB) : result RepositoryError CategoryRecord :=
  default (Err NotFound) (scan_categories 100 site_id slug 0 db).

Definition article_root (article_base_path : rstr) : rstr := default [] (head (split 47 (trim_matches 47 article_base_path))).
Definition ensure_article_category_namespace (site_id : Uuid) (article_base_path : rstr) (db : DB) : result StartError unit :=
  match persisted_category_by_slug site_id (article_root article_base_path) db with
  | Ok category => Err (ArticleBaseIsCategory category)
  | Err NotFound | Err (Validation _) => Ok tt
  | Err e => Err (StartRepository e)
  end.
Definition ensure_references_namespace (site_id : Uuid) (references_enabled : bool) (db : DB) : result StartError unit :=
  if negb references_enabled then Ok tt
  else match persisted_category_by_slug site_id (lit "references") db with
       | Ok category => Err (ReferencesIsCategory category)
       | Err NotFound =>
           match published_noncanonical_route_exists site_id (lit "references") db with
           | Ok true => Err ReferencesIsAlias
           | Ok false => Ok tt
           | Err e => Err (StartRepository e)
           end
       | Err e => Err (StartRepository e)
       end.
End namespaces.

(** ** Starting again *)

Lemma hex_digit_handle n : (n < 16)%N -> handle_byte (hex_digit n) = true /\ hex_digit n <> 45%N.
Proof.
  intros Hn. unfold hex_digit, handle_byte, is_ascii_lowercase, is_ascii_digit, in_range.
  destruct (N.ltb_spec n 10); (split; [|lia]); apply orb_true_iff; left; apply orb_true_iff; [right|left];
    apply andb_true_iff; split; apply N.leb_le; lia.
Qed.
Lemma bootstrap_handle id : normalize_handle (lit "blog-" ++ take 12 (uuid_simple id)) (lit "site handle")
  = Ok (lit "blog-" ++ take 12 (uuid_simple id)).
Proof.
  assert (forall i, N.shiftr id (4 * N.of_nat (31 - i)) mod 16 < 16)%N as Hlt by (intros; by apply N.mod_lt).
  assert (Forall (fun c => handle_byte c = true /\ c <> 45%N) (take 12 (uuid_simple id))) as Hhex.
  { apply Forall_take, Forall_fmap, Forall_forall. intros i _. by apply hex_digit_handle. }
  assert (length (take 12 (uuid_simple id)) = 12) as Hlen by by rewrite length_take; unfold uuid_simple; rewrite length_fmap, length_seq.
  revert Hhex Hlen. generalize (take 12 (uuid_simple id)). intros l Hhex Hlen. set (s := lit "blog-" ++ l).
  assert (Forall (fun c => handle_byte c = true) s) as Hs.
  { unfold s. apply Forall_app. split; [by repeat constructor|]. eapply Forall_impl; [exact Hhex|]. by intros c []. }
  destruct (handle_fixed s) as (Hb & Hl & Ht & Ha); [by apply forallb_Forall|]. unfold normalize_handle. rewrite Ht, Hl, Ha, Hb.
  rewrite (proj2 (handle_bytes_checks s)) by by apply forallb_Forall.
  assert (str_len s = 17%N) as -> by (unfold str_len, size_of; rewrite Hb; unfold s; rewrite length_app, Hlen; done).
  assert (starts_with (lit "-") s = false) as -> by reflexivity.
  assert (ends_with (lit "-") s = false) as ->; [|reflexivity].
  unfold ends_with. apply not_true_iff_false. rewrite starts_with_true. intros [r Hr]. unfold s in Hr. rewrite rev_app_distr in Hr.
  destruct (rev l) as [|c k] eqn:El.
  { apply (f_equal length) in El. rewrite length_rev, Hlen in El. done. }
  injection Hr as -> _. assert (45%N ∈ l) as Hin by (apply list_elem_of_In, in_rev; rewrite El; by left).
  rewrite Forall_forall in Hhex. by destruct (Hhex _ Hin).
Qed.

Section restart.
Context `{!DigestLib}.
(** [sha2]: a digest has 32 bytes. *)
Hypothesis digest_size : forall m, size_of (sha256 m) = 32%N.
Implicit Types (r : AdminAuthRuntime) (db : AccountDB).

(** The store carries the configured binding. *)
Definition bound r (site_id : Uuid) db : Prop := exists c, control_plane db = Some c
  /\ ct_auth_mode c = mode r /\ ct_binding_fingerprint c = binding_fingerprint r
  /\ (mode r <> ModeDisabled -> ct_primary_site_id c = site_id).

Lemma fingerprint_size r : size_of (binding_fingerprint r) = 32%N.
Proof. apply digest_size. Qed.

Lemma stored_control db c : account_wf db -> control_plane db = Some c ->
  load_admin_control_plane_optional db = Ok (Some (control_record c)) /\ load_admin_control_plane db = Ok (control_record c)
  /\ ensure_site_owner (ct_owner_user_id c) (ct_primary_site_id c) db = Ok tt.
Proof.
  intros Hwf Hc. destruct (awf_control db Hwf c Hc) as (He & Hf & m & Hm & Ho).
  assert (load_admin_control_plane_optional db = Ok (Some (control_record c))) as E.
  { unfold load_admin_control_plane_optional, parse_admin_control_plane_row, u64_of_i64, fixed_hash. rewrite Hc. cbn.
    rewrite (proj2 (Z.leb_le 0 _)) by lia. cbn. by rewrite Hf. }
  split; [exact E|]. unfold load_admin_control_plane. rewrite E. split; [done|].
  unfold ensure_site_owner, owns_site_in_connection. rewrite Hm. cbn. by rewrite (proj2 (is_owner_true _) Ho).
Qed.
Lemma confirm_bound r site db c : account_wf db -> control_plane db = Some c ->
  ct_auth_mode c = mode r -> ct_binding_fingerprint c = binding_fingerprint r -> ct_primary_site_id c = site ->
  confirm_binding (control_record c) site (mode r) (binding_fingerprint r) db = Ok (control_record c, db).
Proof.
  intros Hwf Hc Hm Hf <-. destruct (stored_control db c Hwf Hc) as (_ & _ & Ho).
  unfold confirm_binding. apply acc_bind_Ok. exists tt, db. split.
  { apply guard_ok_Ok. split; [|done]. unfold validate_control_plane_binding. cbn. by rewrite N.eqb_refl, Hm, Hf, !bool_decide_eq_true_2. }
  apply acc_bind_Ok. exists tt, db. split; [by apply fetch_Ok|by apply acc_ret_Ok].
Qed.
Lemma themes_exist db : account_wf db -> current_themes_exist db = true.
Proof.
  intros Hwf. unfold current_themes_exist. apply negb_true_iff, any_row_false. intros id s Hs.
  destruct (awf_theme db Hwf id s Hs) as [[t ->] _]. done.
Qed.

(** A bound store passes every start with its configuration unchanged. *)
Lemma bound_starts r site theme rotate delivery_only n1 n2 db : account_wf db -> bound r site db ->
  start_administration r site theme rotate delivery_only n1 n2 db = (Ok tt, db).
Proof.
  intros Hwf (c & Hc & Hm & Hf & Hp). pose proof (themes_exist db Hwf) as Ht.
  destruct (stored_control db c Hwf Hc) as (Eo & El & Ho). pose proof (fingerprint_size r) as Hsize.
  assert (Hrotate : rotate_admin_control_plane (ct_primary_site_id c) (mode r) (binding_fingerprint r) n1 db = (Ok (control_record c), db)).
  { unfold rotate_admin_control_plane, validate_fingerprint. rewrite Hsize. change (32 =? 32)%N with true. cbn [ensure].
    apply account_tx_Ok. split; [|done]. apply acc_bind_Ok. exists (control_record c), db. split; [by apply fetch_Ok|].
    apply acc_bind_Ok. exists tt, db. split; [apply guard_ok_Ok; cbn; by rewrite N.eqb_refl|].
    apply acc_bind_Ok. exists tt, db. split; [by apply fetch_Ok|].
    unfold same_binding. cbn [cp_auth_mode cp_binding_fingerprint control_record]. by rewrite Hm, Hf, !bool_decide_eq_true_2. }
  assert (Hreconcile : reconcile_admin_control_plane (ct_primary_site_id c) (mode r) (binding_fingerprint r) n1 db = (Ok (control_record c), db)).
  { unfold reconcile_admin_control_plane, validate_fingerprint. rewrite Hsize. change (32 =? 32)%N with true. cbn [ensure].
    apply account_tx_Ok. split; [|done]. apply acc_bind_Ok. exists (Some (control_record c)), db. split; [by apply fetch_Ok|].
    by apply confirm_bound. }
  assert (Hprovision : ct_primary_site_id c = site ->
    provision_primary_owner_site (bootstrap site theme) (mode r) (binding_fingerprint r) n1 n2 db = (Ok (control_record c), db)).
  { intros Hsite. unfold provision_primary_owner_site, validate_fingerprint. rewrite Hsize. change (32 =? 32)%N with true.
    cbn [ensure mbind result_bind]. change (pb_site_handle (bootstrap site theme)) with (lit "blog-" ++ take 12 (uuid_simple site)).
    rewrite bootstrap_handle. cbn [mbind result_bind].
    assert (validate_required_text (pb_site_title (bootstrap site theme)) (lit "site title") 200 = Ok (lit "My blog")) as -> by done.
    assert (validate_optional_text (pb_site_description (bootstrap site theme)) (lit "site description") 2000
      = Ok (pb_site_description (bootstrap site theme))) as -> by done.
    assert (validate_required_text (pb_owner_display_name (bootstrap site theme)) (lit "owner display name") 100 = Ok (lit "Owner"))
      as -> by done.
    cbn [mbind result_bind]. apply account_tx_Ok. split; [|done].
    apply acc_bind_Ok. exists (Some (control_record c)), db. split; [by apply fetch_Ok|]. by apply confirm_bound. }
  unfold start_administration, start_step. destruct delivery_only; [done|].
  unfold get_admin_control_plane. rewrite El. unfold ensure_same_admin_module_rotation. cbn [cp_auth_mode cp_primary_site control_record].
  destruct (mode r) eqn:Er; rewrite ?Hm; change (bool_decide (?x = ?x)) with true; cbn [ensure].
  1,2: pose proof (Hp ltac:(done)) as Hsite; rewrite Hsite in Hrotate; rewrite Hrotate, Hprovision by done; by destruct rotate.
  rewrite Hrotate, Hreconcile. by destruct rotate.
Qed.

(** What a successful operation leaves in the control plane. *)
Definition has_binding (m : AdminAuthMode) (fingerprint : list N) (site_id : Uuid) db : Prop :=
  exists c, control_plane db = Some c /\ ct_auth_mode c = m /\ ct_binding_fingerprint c = fingerprint /\ ct_primary_site_id c = site_id.
Lemma confirm_has c site m fp db x d : control_plane db = Some c ->
  confirm_binding (control_record c) site m fp db = Ok (x, d) -> has_binding m fp site d.
Proof.
  unfold confirm_binding, validate_control_plane_binding. intros Hc H0. inv_acc. bool_simpl. by exists c.
Qed.
Lemma insert_has site owner m fp setup now db x d :
  insert_admin_control_plane site owner m fp setup now db = Ok (x, d) -> has_binding m fp site d.
Proof. unfold insert_admin_control_plane, insert_control_row. intros H0. inv_acc. inv_sql. by eexists. Qed.
Lemma select_site b h t desc name now db x setup d : select_primary_site b h t desc name now db = Ok ((x, setup), d) ->
  sit_id x = pb_site_id b.
Proof.
  unfold select_primary_site. destruct (load_site_by_id _ _ db) as [site|[]] eqn:E; try done.
  - intros [= <- _ _]. apply load_site_Ok in E as (? & ? & _ & _ & _ & E & _). exact E.
  - destruct (bool_decide _); [|done]. unfold insert_primary_site. intros H0. inv_acc.
    match goal with X : load_site_by_id _ _ _ = Ok _ |- _ => apply load_site_Ok in X as (? & ? & _ & _ & _ & X & _); exact X end.
Qed.
Lemma provision_has b m fp n1 n2 db x d : provision_primary_owner_site b m fp n1 n2 db = (Ok x, d) ->
  has_binding m fp (pb_site_id b) d.
Proof.
  unfold provision_primary_owner_site. destruct (_ ≫= _) as [[[[h t] desc] name]|e]; [|done].
  intros [H0 _]%account_tx_Ok. apply acc_bind_Ok in H0 as (o & d0 & [Ho ->]%fetch_Ok & H0).
  apply load_control_optional_Ok in Ho as [[Hn ->]|(c & Hc & ->)]; [|by eapply confirm_has].
  apply acc_bind_Ok in H0 as ([site setup] & d1 & Hs & H0). rewrite <-(select_site _ _ _ _ _ _ _ _ _ _ Hs).
  by eapply insert_has.
Qed.
Lemma reconcile_has site m fp now db x d c : control_plane db = Some c ->
  reconcile_admin_control_plane site m fp now db = (Ok x, d) -> has_binding m fp site d.
Proof.
  unfold reconcile_admin_control_plane. intros Hc. destruct (validate_fingerprint fp); [|done].
  intros [H0 _]%account_tx_Ok. apply acc_bind_Ok in H0 as (o & d0 & [Ho ->]%fetch_Ok & H0).
  apply load_control_optional_Ok in Ho as [[Hn _]|(c' & Hc' & ->)]; [congruence|]. by eapply confirm_has.
Qed.
Lemma rotate_has site m fp now db x d : rotate_admin_control_plane site m fp now db = (Ok x, d) ->
  has_binding m fp site d /\ exists c, control_plane db = Some c /\ ct_primary_site_id c = site.
Proof.
  unfold rotate_admin_control_plane. destruct (validate_fingerprint fp); [|done].
  intros [H0 _]%account_tx_Ok. apply acc_bind_Ok in H0 as (o & d0 & [Ho ->]%fetch_Ok & H0).
  apply load_control_Ok in Ho as (c & Hc & ->). apply acc_bind_Ok in H0 as (u & d0 & [Hg%ensure_Ok ->]%guard_ok_Ok & H0).
  apply acc_bind_Ok in H0 as (u' & d0 & [_ ->]%fetch_Ok & H0). cbn in Hg. bool_simpl.
  split; [|by exists c]. destruct (same_binding _ _ _) eqn:Es.
  - apply acc_ret_Ok in H0 as [_ <-]. unfold same_binding in Es. cbn in Es. bool_simpl. by exists c.
  - inv_acc. unfold update_binding in *. rewrite Hc in *.
    match goal with X : (if (_ =? _)%Z then _ else _) = _ |- _ => cbn in X; rewrite Z.eqb_refl in X end. inv_sql. by eexists.
Qed.

Lemma start_step_Ok {A} (p : result RepositoryError A * AccountDB) db' :
  start_step p = (Ok tt, db') -> exists x, p = (Ok x, db').
Proof. destruct p as [[x|e] d]; unfold start_step; cbn; [|done]. intros [= <-]. eauto. Qed.
Lemma start_step_Err {A} (p : result RepositoryError A * AccountDB) e db' :
  start_step p = (Err e, db') -> exists e', p = (Err e', db').
Proof. destruct p as [[x|e'] d]; unfold start_step; cbn; [done|]. intros [= _ <-]. eauto. Qed.

Lemma start_binds r site theme rotate n1 n2 db db' :
  start_administration r site theme rotate false n1 n2 db = (Ok tt, db') -> bound r site db'.
Proof.
  unfold start_administration, get_admin_control_plane. intros Hstart.
  assert (Hprovision : forall m, mode r = m -> start_step (provision_primary_owner_site (bootstrap site theme) m
      (binding_fingerprint r) n1 n2 db) = (Ok tt, db') -> bound r site db').
  { intros m <- (x & (c & ? & ? & ? & ?)%provision_has)%start_step_Ok. by exists c. }
  assert (Hrotate : forall m primary, mode r = m -> (m <> ModeDisabled -> primary = site) ->
    start_step (rotate_admin_control_plane primary m (binding_fingerprint r) n1 db) = (Ok tt, db') -> bound r site db').
  { intros m primary <- Hsite (x & [(c & ? & ? & ? & ?) _]%rotate_has)%start_step_Ok. exists c. split_and!; [done..|].
    intros Hne. rewrite <-Hsite by done. done. }
  destruct (mode r) eqn:Er.
  1,2: destruct rotate; [|exact (Hprovision _ eq_refl Hstart)]; destruct (load_admin_control_plane db) as [control|[]];
    try exact (Hprovision _ eq_refl Hstart); try done; destruct (ensure_same_admin_module_rotation _ _); [|done];
    by refine (Hrotate _ site eq_refl _ Hstart).
  destruct (load_admin_control_plane db) as [control|[]] eqn:El; try exact (Hprovision _ eq_refl Hstart); try done.
  apply load_control_Ok in El as (c & Hc & ->).
  destruct rotate; [destruct (ensure_same_admin_module_rotation _ _); [by refine (Hrotate _ _ eq_refl _ Hstart)|done]|].
  apply start_step_Ok in Hstart as (x & (c' & ? & ? & ? & ?)%(reconcile_has _ _ _ _ _ _ _ c Hc)). exists c'. split_and!; try done; congruence.
Qed.

(** A start is an operation of the store, or changes nothing. *)
Lemma start_is_operation r site theme rotate delivery_only n1 n2 db :
  (start_administration r site theme rotate delivery_only n1 n2 db).2 = db
  \/ exists o, (start_administration r site theme rotate delivery_only n1 n2 db).2 = (account_run o db).2.
Proof.
  assert (Hprovision : forall m, (start_step (provision_primary_owner_site (bootstrap site theme) m
      (binding_fingerprint r) n1 n2 db)).2 = (account_run (ProvisionPrimaryOwnerSite (bootstrap site theme) m (binding_fingerprint r) n1 n2) db).2) by done.
  assert (Hrotate : forall m primary, (start_step (rotate_admin_control_plane primary m (binding_fingerprint r) n1 db)).2
     = (account_run (RotateAdminControlPlane primary m (binding_fingerprint r) n1) db).2) by done.
  assert (Hreconcile : forall m primary, (start_step (reconcile_admin_control_plane primary m (binding_fingerprint r) n1 db)).2
     = (account_run (ReconcileAdminControlPlane primary m (binding_fingerprint r) n1) db).2) by done.
  unfold start_administration. destruct delivery_only; [by left|].
  destruct (mode r), rotate, (get_admin_control_plane db) as [control|[]]; eauto;
    destruct (ensure_same_admin_module_rotation _ _); eauto.
Qed.
(** A failed start changes nothing. *)
Lemma start_failed r site theme rotate delivery_only n1 n2 db e db' :
  start_administration r site theme rotate delivery_only n1 n2 db = (Err e, db') -> db' = db.
Proof.
  assert (Hprovision : forall m d, start_step (provision_primary_owner_site (bootstrap site theme) m
      (binding_fingerprint r) n1 n2 db) = (Err e, d) -> d = db).
  { intros m d (e' & Hs)%start_step_Err. unfold provision_primary_owner_site in Hs.
    destruct (_ ≫= _) as [[[[h t] desc] name]|]; [by eapply account_tx_Err|congruence]. }
  assert (Hrotate : forall m primary d, start_step (rotate_admin_control_plane primary m (binding_fingerprint r) n1 db) = (Err e, d) -> d = db).
  { intros m primary d (e' & Hs)%start_step_Err. unfold rotate_admin_control_plane in Hs.
    destruct (validate_fingerprint _); [by eapply account_tx_Err|congruence]. }
  assert (Hreconcile : forall m primary d, start_step (reconcile_admin_control_plane primary m (binding_fingerprint r) n1 db) = (Err e, d) -> d = db).
  { intros m primary d (e' & Hs)%start_step_Err. unfold reconcile_admin_control_plane in Hs.
    destruct (validate_fingerprint _); [by eapply account_tx_Err|congruence]. }
  unfold start_administration. destruct delivery_only; [congruence|].
  destruct (mode r), rotate, (get_admin_control_plane db) as [control|[]]; eauto; try congruence;
    destruct (ensure_same_admin_module_rotation _ _); eauto; congruence.
Qed.

(** An existing control plane is confirmed as it is, or rotated in its module
    and for its site. *)
Lemma confirm_unchanged c site m fp db x d : confirm_binding c site m fp db = Ok (x, d) -> d = db.
Proof. unfold confirm_binding. intros Hs. by inv_acc. Qed.
Lemma provision_existing b m fp n1 n2 db c x d : control_plane db = Some c ->
  provision_primary_owner_site b m fp n1 n2 db = (Ok x, d) -> d = db.
Proof.
  unfold provision_primary_owner_site. intros Hc. destruct (_ ≫= _) as [[[[h t] desc] name]|e]; [|done].
  intros [H0 _]%account_tx_Ok. apply acc_bind_Ok in H0 as (o & d0 & [Ho ->]%fetch_Ok & H0).
  apply load_control_optional_Ok in Ho as [[Hn ->]|(c' & Hc' & ->)]; [congruence|]. by eapply confirm_unchanged.
Qed.
Lemma reconcile_existing site m fp now db c x d : control_plane db = Some c ->
  reconcile_admin_control_plane site m fp now db = (Ok x, d) -> d = db.
Proof.
  unfold reconcile_admin_control_plane. intros Hc. destruct (validate_fingerprint fp); [|done].
  intros [H0 _]%account_tx_Ok. apply acc_bind_Ok in H0 as (o & d0 & [Ho ->]%fetch_Ok & H0).
  apply load_control_optional_Ok in Ho as [[Hn _]|(c' & Hc' & ->)]; [congruence|]. by eapply confirm_unchanged.
Qed.

Lemma start_keeps_module r site theme rotate n1 n2 db c : account_wf db -> control_plane db = Some c ->
  exists c', control_plane (start_administration r site theme rotate false n1 n2 db).2 = Some c'
    /\ ct_auth_mode c' = ct_auth_mode c /\ ct_primary_site_id c' = ct_primary_site_id c /\ (rotate = false -> c' = c).
Proof.
  intros Hwf Hc. destruct (start_administration _ _ _ _ _ _ _ db) as [[[]|e] d] eqn:E; cbn [snd];
    [|apply start_failed in E as ->; by exists c].
  unfold start_administration, get_admin_control_plane in E. destruct (stored_control db c Hwf Hc) as (_ & El & _). rewrite El in E.
  unfold ensure_same_admin_module_rotation in E. cbn [cp_auth_mode cp_primary_site control_record] in E.
  assert (Hprovision : forall m, start_step (provision_primary_owner_site (bootstrap site theme) m
      (binding_fingerprint r) n1 n2 db) = (Ok tt, d) -> d = db).
  { intros m (x & Hs)%start_step_Ok. by eapply provision_existing. }
  assert (Hrotate : forall m primary, m = ct_auth_mode c ->
    start_step (rotate_admin_control_plane primary m (binding_fingerprint r) n1 db) = (Ok tt, d) -> exists c', control_plane d = Some c'
    /\ ct_auth_mode c' = ct_auth_mode c /\ ct_primary_site_id c' = ct_primary_site_id c).
  { intros m primary -> (x & Hs)%start_step_Ok. destruct (rotate_has _ _ _ _ _ _ _ Hs) as [(c' & ? & ? & ? & ?) (c0 & ? & ?)].
    exists c'. split_and!; congruence. }
  assert (Hsame : forall m primary e0, match (if bool_decide (ct_auth_mode c = m) then Ok tt else Err e0) with
      | Ok _ => start_step (rotate_admin_control_plane primary m (binding_fingerprint r) n1 db) | Err e1 => (Err e1, db) end = (Ok tt, d) ->
    exists c', control_plane d = Some c' /\ ct_auth_mode c' = ct_auth_mode c /\ ct_primary_site_id c' = ct_primary_site_id c).
  { intros m primary e0. destruct (bool_decide_reflect (ct_auth_mode c = m)) as [Em|]; [|done]. by apply Hrotate. }
  unfold ensure in E. destruct (mode r), rotate; try (by apply Hsame in E as (c' & ? & ? & ?); exists c');
    try (by apply Hprovision in E as ->; exists c).
  apply start_step_Ok in E as (x & Hs). apply (reconcile_existing _ _ _ _ _ c) in Hs as ->; [|done]. by exists c.
Qed.
End restart.

Section administration_theorem.
Context `{!DigestLib}.
(** [sha2]: a digest has 32 bytes. *)
Hypothesis digest_size : forall m, size_of (sha256 m) = 32%N.

(** C23. The administrator binding of a store. For any store the operations of
    the repository built, a start of a writable server either fails and leaves
    the store as it was, or leaves it bound to the configured module,
    fingerprint and, unless the module is Disabled, site: a process that serves never
    disagrees with the binding its sessions are checked against. After a
    successful start, every restart with the same configuration, rotating or
    not, writable or delivery-only, succeeds and changes nothing. A start that
    does not rotate never changes an existing control plane, and no start
    changes its authentication module or its site. *)
Theorem started_server_is_bound ops r site theme rotate n1 n2 :
  let db := account_runs ops no_accounts in
  let start := start_administration r site theme rotate false n1 n2 db in
  match start.1 with
  | Err _ => start.2 = db
  | Ok _ =>
      bound r site start.2
      /\ forall theme' rotate' delivery_only n1' n2',
           start_administration r site theme' rotate' delivery_only n1' n2' start.2 = (Ok tt, start.2)
  end
  /\ match control_plane db with
     | Some c => exists c', control_plane start.2 = Some c' /\ ct_auth_mode c' = ct_auth_mode c
         /\ ct_primary_site_id c' = ct_primary_site_id c /\ (rotate = false -> c' = c)
     | None => True
     end.
Proof.
  intros db start. assert (account_wf db) as Hwf by apply account_runs_wf, no_accounts_wf.
  assert (account_wf start.2) as Hwf'.
  { destruct (start_is_operation r site theme rotate false n1 n2 db) as [E|[o E]]; unfold start; rewrite E;
      [done|by apply account_run_wf]. }
  split.
  - unfold start in *. destruct (start_administration _ _ _ _ _ _ _ db) as [[[]|e] db'] eqn:E; cbn [fst snd] in *; [|by eapply start_failed].
    assert (bound r site db') as Hb by (by eapply start_binds). split; [done|]. intros. by apply bound_starts.
  - destruct (control_plane db) as [c|] eqn:Hc; [|done]. by apply start_keeps_module.
Qed.
End administration_theorem.

(** ** Free routes *)

Section free_routes.
Context `{StoreCodec}.
Implicit Types (db : DB).

(** The category of a site with the given path segment among the first rows of
    the listing, which is the scan in one piece. *)
Definition first_with_slug (slug : rstr) (rows : list (Uuid * CategoryRow)) : option (Uuid * CategoryRow) :=
  List.find (fun kv => str_eqb (cat_slug kv.2) slug) rows.
Definition scan_result (site_id : Uuid) (slug : rstr) (rows : list (Uuid * CategoryRow)) (seen : N) db
    : result RepositoryError CategoryRecord :=
  match first_with_slug slug rows with
  | Some kv => load_category_by_id site_id kv.1 db
  | None =>
      if (seen + size_of rows <? CATEGORY_NAMESPACE_SCAN_LIMIT)%N then Err NotFound
      else Err (Storage (lit "category namespace exceeds the 50000 entry startup validation limit"))
  end.

Lemma first_metadata slug rows : List.find (fun c => str_eqb (cmr_slug c) slug) (category_metadata <$> rows)
  = category_metadata <$> first_with_slug slug rows.
Proof. unfold first_with_slug. induction rows as [|kv rows IH]; [done|]. cbn. by destruct (str_eqb _ _). Qed.
Lemma first_app slug a b : first_with_slug slug (a ++ b) = match first_with_slug slug a with Some kv => Some kv | None => first_with_slug slug b end.
Proof. unfold first_with_slug. induction a as [|kv a IH]; [done|]. cbn. by destruct (str_eqb _ _). Qed.
Lemma first_none slug rows : first_with_slug slug rows = None <-> Forall (fun kv => cat_slug kv.2 <> slug) rows.
Proof.
  unfold first_with_slug. induction rows as [|kv rows IH]; [by split|]. cbn. unfold str_eqb.
  rewrite Forall_cons, <-IH. case_bool_decide as E.
  - split; [done|]. intros [He _]. by destruct (He E).
  - split; [by intros ?|by intros []].
Qed.

(** [fuel] pages are read, each of the full size but the last. *)
Lemma scan_ends site slug db (fuel : nat) (page : N) : site ∈ sites db -> (page + N.of_nat fuel = 100)%N -> fuel <> 0 ->
  let rows := drop (N.to_nat (page * 500)) (listed_categories db site true) in
  let upto := take (N.to_nat (500 * N.of_nat fuel)) rows in
  scan_categories fuel site slug (page * 500) db = Some (scan_result site slug upto (page * 500) db).
Proof.
  intros Hsite. revert page. induction fuel as [|fuel IH]; intros page Hp Hf; [done|]. cbn zeta.
  cbn [scan_categories]. unfold CATEGORY_NAMESPACE_PAGE_SIZE.
  rewrite category_page by (change i64_max with (2 ^ 63 - 1)%Z; lia).
  unfold ensure_site_exists. rewrite bool_decide_eq_true_2 by done. cbn [mbind result_bind].
  rewrite first_metadata. unfold slice. set (rows := drop (N.to_nat (page * 500)) _). change (N.to_nat 500) with 500.
  assert (take (N.to_nat (500 * N.of_nat (S fuel))) rows = take 500 rows ++ take (N.to_nat (500 * N.of_nat fuel)) (drop 500 rows)) as Esplit.
  { replace (N.to_nat (500 * N.of_nat (S fuel))) with (500 + N.to_nat (500 * N.of_nat fuel)) by lia. by rewrite take_take_drop. }
  rewrite Esplit. unfold scan_result. rewrite first_app. destruct (first_with_slug slug (take 500 rows)) as [kv|] eqn:Ekv; [done|].
  cbn [fmap option_fmap option_map]. unfold CATEGORY_NAMESPACE_SCAN_LIMIT, size_of. rewrite !length_app, !length_fmap, !length_take, !length_drop.
  destruct (N.ltb_spec (N.of_nat (500 `min` length rows)) 500) as [Hlast|Hfull].
  - rewrite drop_ge by lia. rewrite take_nil. cbn [first_with_slug List.find length]. rewrite (proj2 (N.ltb_lt _ _)) by lia. done.
  - assert (500 <= length rows) as Hlen by lia. replace (N.of_nat (500 `min` length rows)) with 500%N in * by lia.
    destruct (N.leb_spec 50000 (page * 500 + 500)) as [Hend|Hmore].
    + replace fuel with 0 by lia. change (N.to_nat (500 * N.of_nat 0)) with 0. rewrite take_0. cbn [first_with_slug List.find].
      rewrite (proj2 (N.ltb_ge _ _)) by lia. done.
    + replace (page * 500 + 500)%N with ((page + 1) * 500)%N by lia. rewrite (IH (page + 1)%N) by lia. cbn zeta. f_equal.
      assert (drop (N.to_nat ((page + 1) * 500)) (listed_categories db site true) = drop 500 rows) as ->.
      { unfold rows. rewrite drop_drop. f_equal. lia. }
      unfold scan_result, size_of. rewrite length_take, length_drop.
      match goal with |- context [N.of_nat (500 `min` length rows + ?y)] =>
        by replace (page * 500 + N.of_nat (500 `min` length rows + y))%N with ((page + 1) * 500 + N.of_nat y)%N by lia
      end.
Qed.

Lemma scan_is_result site slug db : site ∈ sites db ->
  persisted_category_by_slug site slug db = scan_result site slug (take (N.to_nat 50000) (listed_categories db site true)) 0 db.
Proof.
  intros Hsite. unfold persisted_category_by_slug. change 0%N with (0 * 500)%N at 1.
  rewrite (scan_ends site slug db 100 0) by done. cbn zeta. change (N.to_nat (0 * 500)) with 0. rewrite drop_0. cbn [default].
  reflexivity.
Qed.
Lemma persisted_slug site slug db : site ∈ sites db -> (size_of (listed_categories db site true) < 50000)%N ->
  (exists id c, categories db !! id = Some c /\ cat_site_id c = site /\ cat_slug c = slug
    /\ persisted_category_by_slug site slug db = Ok (parse_category_row id c))
  \/ (forall id c, categories db !! id = Some c -> cat_site_id c = site -> cat_slug c <> slug)
    /\ persisted_category_by_slug site slug db = Err NotFound.
Proof.
  intros Hsite Hsize. rewrite scan_is_result by done. unfold size_of in Hsize. rewrite take_ge by lia.
  unfold scan_result. destruct (first_with_slug _ _) as [[id c]|] eqn:E.
  - left. apply List.find_some in E as [Hin%list_elem_of_In%listed_category He%str_eqb_eq]. destruct Hin as [Hc Hs].
    exists id, c. split_and!; [done..|]. unfold load_category_by_id. cbn. by rewrite Hc, Hs, N.eqb_refl.
  - right. split.
    + intros id c Hc Hs Hslug. apply first_none in E. rewrite Forall_forall in E. apply (E (id, c)); [|done].
      by apply listed_category.
    + unfold CATEGORY_NAMESPACE_SCAN_LIMIT, size_of. by rewrite (proj2 (N.ltb_lt _ _)) by lia.
Qed.

(** The start-up checks of the route namespaces decide exactly what they
    are for, on every store whose site has fewer than 50000 categories (archived
    ones included): the article base path is accepted exactly when no category
    of the site is called like its first segment, and the references page
    exactly when, unless it is disabled, no category is called [references] and
    no public document of the site is published at the alias [references]. *)
Theorem startup_routes_are_free site article_base_path references_enabled db :
  site ∈ sites db -> (size_of (listed_categories db site true) < 50000)%N ->
  (ensure_article_category_namespace site article_base_path db = Ok tt
     <-> forall id c, categories db !! id = Some c -> cat_site_id c = site -> cat_slug c <> article_root article_base_path)
  /\ (ensure_references_namespace site references_enabled db = Ok tt
     <-> (references_enabled = true ->
          (forall id c, categories db !! id = Some c -> cat_site_id c = site -> cat_slug c <> lit "references")
          /\ forall r d, routes db !! (site, lit "references") = Some r -> documents db !! route_document_id r = Some d ->
               route_is_canonical r = true \/ doc_site_id d <> site \/ is_public d = false)).
Proof.
  intros Hsite Hsize. split.
  - unfold ensure_article_category_namespace.
    destruct (persisted_slug site (article_root article_base_path) db) as [(id & c & Hc & Hs & Hslug & ->)|[Hfree ->]]; [done..| |done].
    split; [done|]. intros Hno. by destruct (Hno id c Hc Hs).
  - unfold ensure_references_namespace. destruct references_enabled; [|by split].
    destruct (persisted_slug site (lit "references") db) as [(id & c & Hc & Hs & Hslug & ->)|[Hfree ->]]; [done..| |].
    + split; [done|]. intros Hno. destruct (Hno eq_refl) as [Hno' _]. by destruct (Hno' id c Hc Hs).
    + unfold published_noncanonical_route_exists. destruct (routes db !! _) as [r|]; [|by split].
      cbn [negb]. split.
      * intros Hr _. split; [done|]. intros r0 d [= <-] Hd. rewrite Hd in Hr. cbn in Hr.
        destruct (route_is_canonical r); [by left|]. destruct (N.eqb_spec (doc_site_id d) site); [|by right; left].
        destruct (is_public d); [done|by right; right].
      * intros Hall. destruct (Hall eq_refl) as [_ Hr]. destruct (route_is_canonical r) eqn:Ec; [done|].
        destruct (documents db !! route_document_id r) as [d|] eqn:Ed; [|done]. cbn.
        destruct (Hr r d eq_refl Ed) as [?|[Hne|Hp]]; [congruence| |by rewrite Hp, andb_false_r].
        by rewrite (proj2 (N.eqb_neq _ _) Hne).
Qed.
End free_routes.
