(* ===== verification/StartupWitnesses.v ===== *)
(** * Starting a server on small stores *)

From Stdlib Require Import Bool NArith ZArith Lia.
From S2P Require Import Prelude Text Extern StoreBase StoreTaxonomy StoreContent StoreFeed Accounts AccountsSpec AccountsRefine AccountsWitnesses Samples StoreRefine StoreSpec Store Signing CacheHttp Auth AuthWitnesses AdminTreeWitnesses Startup.
Import ToySigning.
Import ToyHttp.
Import Toy.

(** An empty store is provisioned; the same key starts again, another key is
    refused until it rotates. *)
Definition other_key : AdminAuthRuntime := AccessKey (lit "$argon2id$another") 30.
Lemma started_server_is_bound_witness :
  let provisioned := start_administration by_key 1 Forest false false 10 10 no_accounts in
  (let start := start_administration by_key 1 Forest false false 10 10 (account_runs [] no_accounts) in
   start.1 = Ok tt /\ bound by_key 1 start.2
   /\ start_administration by_key 1 Ink true false 20 20 start.2 = (Ok tt, start.2))
  /\ is_ok (start_administration other_key 1 Forest false false 30 30 provisioned.2).1 = false
  /\ is_ok (start_administration other_key 1 Forest true false 30 30 provisioned.2).1 = true.
Proof.
  split; [|split; vm_compute; reflexivity].
  pose proof (started_server_is_bound toy_digest_size [] by_key 1 Forest false 10 10) as [H _]. cbn zeta in H |- *.
  destruct (start_administration by_key 1 Forest false false 10 10 (account_runs [] no_accounts)) as [[[]|e] d] eqn:E;
    [|exfalso; vm_compute in E; discriminate E].
  destruct H as [Hb Hagain]. split; [done|]. split; [exact Hb|]. apply Hagain.
Defined.

Lemma no_category_called (m : gmap Uuid CategoryRow) slug id c :
  forallb (fun kv => negb (str_eqb (cat_slug kv.2) slug)) (map_to_list m) = true -> m !! id = Some c -> cat_slug c <> slug.
Proof.
  rewrite forallb_forall. intros Hall Hc Hs. assert (In (id, c) (map_to_list m)) as Hin by by apply list_elem_of_In, elem_of_map_to_list.
  apply Hall in Hin. cbn [snd] in Hin. rewrite Hs, (proj2 (str_eqb_eq _ _) eq_refl) in Hin. discriminate Hin.
Qed.

(** A store whose site has the category [guides]. *)
Lemma startup_routes_are_free_witness :
  ensure_article_category_namespace 1 (lit "/blog/") tree_db = Ok tt
  /\ is_ok (ensure_article_category_namespace 1 (lit "/guides/all") tree_db) = false
  /\ ensure_references_namespace 1 true tree_db = Ok tt.
Proof.
  destruct (startup_routes_are_free 1 (lit "/blog/") true tree_db) as [[_ Ha] [_ Hr]];
    [apply (bool_decide_unpack _); vm_compute; exact I|vm_compute; reflexivity|].
  split_and!; [apply Ha; intros id c Hc _; revert Hc; apply no_category_called; vm_compute; reflexivity|vm_compute; reflexivity|].
  apply Hr. intros _. split; [intros id c Hc _; revert Hc; apply no_category_called; vm_compute; reflexivity|].
  intros r d Hroute. exfalso. vm_compute in Hroute. discriminate Hroute.
Defined.
