(* ===== verification/SiteRevisions.v ===== *)
(** * The theme revision of a site identifies what the site shows

    Public answers carry the theme revision in their validators, not the
    site's title or stylesheet.  Every operation of the account tables that
    changes a stored site also moves it to a larger theme revision. *)

From Stdlib Require Import Bool NArith ZArith Lia.
From S2P Require Import Prelude Text Extern StoreBase StoreTaxonomy CustomCss Accounts AccountsSpec AccountsRefine.

(** A stored site stays as it is or moves on to a later theme revision. *)
Definition paced (db db' : AccountDB) : Prop :=
  forall id s, site_table db !! id = Some s -> exists s', site_table db' !! id = Some s'
    /\ (s' = s \/ (st_current_theme_revision s < st_current_theme_revision s')%Z).

#[export] Instance paced_preorder : PreOrder paced.
Proof.
  split.
  - intros db id s Hs. eauto.
  - intros a b c Hab Hbc id s (s1 & H1 & E1)%Hab. destruct (Hbc _ _ H1) as (s2 & H2 & E2). exists s2. split; [done|].
    destruct E1 as [->|?], E2 as [->|?]; auto. right. lia.
Qed.
Lemma paced_same db db' : site_table db' = site_table db -> paced db db'.
Proof. intros E id s Hs. rewrite E. eauto. Qed.
Lemma paced_insert db db' id s : site_table db !! id = None -> site_table db' = <[id := s]> (site_table db) -> paced db db'.
Proof. intros Hid E k x Hx. rewrite E, lookup_insert_ne by congruence. eauto. Qed.
Lemma paced_replace db db' id s s' : site_table db !! id = Some s -> site_table db' = <[id := s']> (site_table db) ->
  (st_current_theme_revision s < st_current_theme_revision s')%Z -> paced db db'.
Proof.
  intros Hid E Hlt k x Hx. rewrite E. destruct (decide (k = id)) as [->|].
  - rewrite lookup_insert_eq. exists s'. split; [done|]. right. congruence.
  - rewrite lookup_insert_ne by done. eauto.
Qed.

(** ** Statements *)

Lemma insert_user_sites id r db d : insert_user id r db = Ok d -> site_table d = site_table db.
Proof. unfold insert_user, handle_checks. intros. by inv_sql. Qed.
Lemma insert_session_sites id r db d : insert_session_row id r db = Ok d -> site_table d = site_table db.
Proof. unfold insert_session_row. intros. by inv_sql. Qed.
Lemma insert_membership_sites id u r db d : insert_membership id u r db = Ok d -> site_table d = site_table db.
Proof. unfold insert_membership. intros. by inv_sql. Qed.
Lemma insert_theme_sites id n r db d : insert_theme id n r db = Ok d -> site_table d = site_table db.
Proof. unfold insert_theme. intros. by inv_sql. Qed.
Lemma insert_control_sites r db d : insert_control_row r db = Ok d -> site_table d = site_table db.
Proof. unfold insert_control_row. intros. by inv_sql. Qed.
Lemma insert_identity_sites a i s r db d : insert_identity a i s r db = Ok d -> site_table d = site_table db.
Proof. unfold insert_identity. intros. by inv_sql. Qed.
Lemma update_setup_sites now db n d : update_setup now db = Ok (n, d) -> site_table d = site_table db.
Proof. unfold update_setup. repeat case_match; naive_solver. Qed.
Lemma update_binding_sites mode e fp now e0 db n d : update_binding mode e fp now e0 db = Ok (n, d) -> site_table d = site_table db.
Proof. unfold update_binding. intros. repeat case_match; [inv_sql|..]; naive_solver. Qed.
Lemma delete_membership_sites s u db n d : delete_membership s u db = Ok (n, d) -> site_table d = site_table db.
Proof. unfold delete_membership. by intros [= _ <-]. Qed.
Lemma ignored_sites f db d : (forall d, f db = Ok d -> site_table d = site_table db) -> or_ignore f db = Ok d -> site_table d = site_table db.
Proof. intros Hf [H|[-> _]]%or_ignore_Ok; auto. Qed.
Lemma insert_site_paced id s db d : insert_site id s db = Ok d -> paced db d.
Proof.
  unfold insert_site, handle_checks. intros. inv_sql. eapply (paced_insert _ _ id s); [|done]. by apply is_some_false.
Qed.
Lemma append_appearance_sites owner site profile css now db u d : account_wf db ->
  append_site_appearance_revision owner site profile css now db = Ok (u, d) ->
  exists s s', site_table db !! site = Some s /\ site_table d = <[site := s']> (site_table db)
    /\ (st_current_theme_revision s < st_current_theme_revision s')%Z.
Proof.
  intros Hwf. unfold append_site_appearance_revision. intros H. inv_acc.
  match goal with H : next_theme_revision _ _ = Ok _ |- _ => pose proof (next_theme_revision_Ok _ _ _ H) as Hmax end.
  unfold insert_theme, update_site_theme in *. inv_sql. cbn in H.
  destruct (site_table db !! site) as [s|] eqn:Es; [|done]. inv_sql.
  eexists s, _. split_and!; [done..|]. cbn. apply Hmax, (awf_theme _ Hwf _ _ Es).
Qed.
Lemma append_appearance_paced owner site profile css now db u d : account_wf db ->
  append_site_appearance_revision owner site profile css now db = Ok (u, d) -> paced db d.
Proof. intros Hwf (s & s' & ? & ? & ?)%append_appearance_sites; [|done]. by eapply paced_replace. Qed.
Lemma update_metadata_sites id handle title description now db d : update_site_metadata id handle title description now db = Ok d ->
  forall k s, site_table db !! k = Some s -> exists s', site_table d !! k = Some s'
    /\ st_current_theme_revision s' = st_current_theme_revision s /\ (k <> id -> s' = s).
Proof.
  unfold update_site_metadata, handle_checks. intros H k s Hk. destruct (site_table db !! id) as [s0|] eqn:E.
  - inv_sql. destruct (decide (k = id)) as [->|].
    + cbn. rewrite lookup_insert_eq. eexists. split_and!; [done| |done]. cbn. congruence.
    + cbn. rewrite lookup_insert_ne by done. eauto.
  - injection H as <-. eauto.
Qed.

(** ** Operations *)

Lemma tx_paced {A} (m : acc A) db : (forall a d, m db = Ok (a, d) -> paced db d) -> paced db (transaction m db).2.
Proof.
  unfold transaction. destruct (m db) as [[a d]|]; [|done]. intros H. destruct (current_themes_exist d); [by eapply H|done].
Qed.
Lemma autocommit_paced {A} (m : acc A) db : (forall a d, m db = Ok (a, d) -> paced db d) -> paced db (autocommit m db).2.
Proof. unfold autocommit. destruct (m db) as [[a d]|]; [|done]. intros H. by eapply H. Qed.
Lemma validated_paced {A B} (v : result RepositoryError A) (k : A -> result RepositoryError B * AccountDB) db :
  (forall a, v = Ok a -> paced db (k a).2) -> paced db (match v with Err e => (Err e, db) | Ok a => k a end).2.
Proof. destruct v; intros H; [by apply H|done]. Qed.

(** Reduce an operation to its body, and its statements to their effect. *)
Ltac paced_body :=
  repeat match goal with
  | |- paced _ (then_load _ _).2 => rewrite then_load_state
  | |- paced _ (transaction _ _).2 => apply tx_paced; intros ? ? ?
  | |- paced _ (autocommit _ _).2 => apply autocommit_paced; intros ? ? ?
  | |- paced _ (match _ with Ok _ => _ | Err _ => _ end).2 => apply validated_paced; intros ? ?
  | |- context [match ?x with pair _ _ => _ end] => destruct x
  end; inv_acc.
Ltac statements :=
  repeat match goal with
  | H : insert_user _ _ _ = Ok _ |- _ => apply insert_user_sites in H
  | H : insert_session_row _ _ _ = Ok _ |- _ => apply insert_session_sites in H
  | H : insert_membership _ _ _ _ = Ok _ |- _ => apply insert_membership_sites in H
  | H : insert_theme _ _ _ _ = Ok _ |- _ => apply insert_theme_sites in H
  | H : insert_control_row _ _ = Ok _ |- _ => apply insert_control_sites in H
  | H : insert_identity _ _ _ _ _ = Ok _ |- _ => apply insert_identity_sites in H
  | H : update_setup _ _ = Ok _ |- _ => apply update_setup_sites in H
  | H : update_binding _ _ _ _ _ _ = Ok _ |- _ => apply update_binding_sites in H
  | H : delete_membership _ _ _ = Ok _ |- _ => apply delete_membership_sites in H
  | H : insert_site _ _ _ = Ok _ |- _ => apply insert_site_paced in H
  | H : or_ignore (insert_user _ _) _ = Ok _ |- _ => apply ignored_sites in H; [|by apply insert_user_sites]
  | H : or_ignore (insert_membership _ _ _) _ = Ok _ |- _ => apply ignored_sites in H; [|by apply insert_membership_sites]
  | H : or_ignore (insert_theme _ _ _) _ = Ok _ |- _ => apply ignored_sites in H; [|by apply insert_theme_sites]
  end.
Ltac paced_chain := first [ apply paced_same; cbn in *; congruence
  | match goal with H : paced ?a ?b |- paced ?x ?y =>
      transitivity a; [apply paced_same; congruence|transitivity b; [exact H|apply paced_same; congruence]] end ].

Lemma insert_primary_site_paced b h t desc name now db r d : insert_primary_site b h t desc name now db = Ok (r, d) -> paced db d.
Proof. unfold insert_primary_site. intros H. inv_acc. statements. paced_chain. Qed.
Lemma select_primary_site_paced b h t desc name now db r d : select_primary_site b h t desc name now db = Ok (r, d) -> paced db d.
Proof.
  unfold select_primary_site. destruct (load_site_by_id _ _ _) as [site|[]]; try done; [by intros [= _ <-]|].
  case_bool_decide; [|done]. apply insert_primary_site_paced.
Qed.
Lemma insert_control_plane_paced primary owner mode fp setup now db r d :
  insert_admin_control_plane primary owner mode fp setup now db = Ok (r, d) -> site_table d = site_table db.
Proof. unfold insert_admin_control_plane. intros H. inv_acc. by statements. Qed.

Lemma provision_paced b mode fp n1 n2 db : paced db (provision_primary_owner_site b mode fp n1 n2 db).2.
Proof.
  unfold provision_primary_owner_site. paced_body. destruct x as [r|].
  - match goal with H : confirm_binding _ _ _ _ _ = _ |- _ => by apply confirm_binding_state in H as -> end.
  - inv_acc. destruct x. match goal with H : select_primary_site _ _ _ _ _ _ _ = _ |- _ => apply select_primary_site_paced in H end.
    match goal with H : insert_admin_control_plane _ _ _ _ _ _ _ = _ |- _ => apply insert_control_plane_paced in H end.
    paced_chain.
Qed.
Lemma reconcile_paced site mode fp now db : paced db (reconcile_admin_control_plane site mode fp now db).2.
Proof.
  unfold reconcile_admin_control_plane. paced_body. destruct x as [r|].
  - match goal with H : confirm_binding _ _ _ _ _ = _ |- _ => by apply confirm_binding_state in H as -> end.
  - inv_acc. match goal with H : insert_admin_control_plane _ _ _ _ _ _ _ = _ |- _ => apply insert_control_plane_paced in H end.
    paced_chain.
Qed.
Lemma rotate_paced site mode fp now db : paced db (rotate_admin_control_plane site mode fp now db).2.
Proof. unfold rotate_admin_control_plane. paced_body. destruct (same_binding _ _ _); inv_acc; statements; paced_chain. Qed.
Lemma bind_identity_paced adapter issuer subject fp now db : paced db (bind_external_identity adapter issuer subject fp now db).2.
Proof.
  unfold bind_external_identity. paced_body.
  match goal with H : (match ?x with Some _ => _ | None => _ end) _ = Ok _ |- _ => destruct x end; inv_acc; statements; paced_chain.
Qed.
(** The setup renames the site and appends a theme revision. *)
Lemma setup_paced owner h t desc profile n1 n2 n3 db : account_wf db ->
  paced db (complete_primary_owner_setup owner h t desc profile n1 n2 n3 db).2.
Proof.
  intros Hwf. unfold complete_primary_owner_setup. paced_body.
  match goal with H : update_setup _ _ = _ |- _ => apply update_setup_sites in H as E end.
  match goal with H : update_site_metadata _ _ _ _ _ _ = Ok ?d1, K : append_site_appearance_revision _ _ _ _ _ ?d1 = Ok (_, ?d2) |- _ =>
    assert (account_wf d1) as Hwf1 by (eapply account_steps_wf; [done|by eapply update_metadata_Ok]);
    apply append_appearance_sites in K as (s1 & s2 & Hs1 & E2 & Hlt); [|done];
    pose proof (update_metadata_sites _ _ _ _ _ _ _ H) as Hm end.
  intros k s Hs. destruct (Hm k s Hs) as (s' & Hs' & Er & Ene). rewrite E, E2.
  destruct (decide (k = cp_primary_site x)) as [->|].
  - rewrite lookup_insert_eq. exists s2. split; [done|]. right. assert (s' = s1) as -> by congruence. lia.
  - rewrite lookup_insert_ne by done. exists s'. split; [done|]. left. auto.
Qed.
Lemma legacy_paced id now db : paced db (ensure_legacy_site id now db).2.
Proof.
  unfold ensure_legacy_site. destruct (load_site_by_id id None db) as [site|[]]; try done. paced_body.
  match goal with H : or_ignore (insert_site _ _) ?a = Ok ?b |- _ =>
    assert (paced a b) by (apply or_ignore_Ok in H as [H|[-> _]]; [by eapply insert_site_paced|done]); clear H end.
  statements. paced_chain.
Qed.
Lemma account_run_paced o db : account_wf db -> paced db (account_run o db).2.
Proof.
  intros Hwf. destruct o; cbn [account_run outcome snd];
    [|apply provision_paced|apply reconcile_paced|apply rotate_paced|by apply setup_paced|apply bind_identity_paced|..].
  - unfold create_user. paced_body. statements. paced_chain.
  - unfold create_primary_owner_session, insert_session, insert_session_statement. paced_body. statements. paced_chain.
  - unfold create_session, insert_session_statement. paced_body. statements. paced_chain.
  - apply paced_same. unfold revoke_session, revoke_token. by destruct (validate_token_hash token).
  - unfold create_site. paced_body. statements. paced_chain.
  - apply legacy_paced.
  - unfold add_site_collaborator. paced_body. statements. paced_chain.
  - unfold remove_site_collaborator. paced_body. statements. paced_chain.
  - unfold change_site_theme. paced_body. by eapply append_appearance_paced.
  - unfold change_site_appearance. paced_body. by eapply append_appearance_paced.
Qed.

Lemma load_site_parse id owner db r : load_site_by_id id owner db = Ok r ->
  exists s u t, site_table db !! id = Some s /\ is_owner_of db id u
    /\ theme_table db !! (id, st_current_theme_revision s) = Some t /\ parse_site_row id s u t = Ok r.
Proof.
  unfold load_site_by_id, site_join. intros H. destruct (site_table db !! id) as [s|]; [|done].
  change (Some s ≫= ?k) with (k s) in H. destruct (find_row _ _) as [[[k1 k2] m]|] eqn:Hm; [|done].
  cbn in H. destruct (theme_table db !! (id, st_current_theme_revision s)) as [t|] eqn:Ht; [|done]. cbn in H.
  apply find_row_Some in Hm as [Hm Hp]. cbn in Hp. bool_simpl. subst k1.
  exists s, k2, t. split_and!; [done| |done|done]. exists m. by rewrite <- is_owner_true.
Qed.

(** A site that a later state loads at the same theme revision is the same
    record. *)
Lemma same_revision_same_site db db' id owner owner' r r' : account_wf db' -> account_evolves db db' -> paced db db' ->
  load_site_by_id id owner db = Ok r -> load_site_by_id id owner' db' = Ok r' ->
  sit_theme_revision r = sit_theme_revision r' -> r = r'.
Proof.
  intros Hwf' Hev Hp (s & u & t & Hs & Hu & Ht & Hr)%load_site_parse (s' & u' & t' & Hs' & Hu' & Ht' & Hr')%load_site_parse E.
  assert (u' = u) as -> by (eapply (awf_one_owner _ Hwf'); [done|by apply (ev_owner _ _ Hev)]).
  assert (s' = s) as ->.
  { destruct (Hp _ _ Hs) as (s1 & Hs1 & Hor). assert (s1 = s') as -> by congruence. destruct Hor as [?|Hlt]; [done|].
    unfold parse_site_row, u64_of_i64 in Hr, Hr'. inv_ok. repeat case_match; simplify_eq. cbn in E. lia. }
  apply (lookup_weaken _ (theme_table db')) in Ht; [|apply Hev].
  assert (t' = t) as -> by congruence. congruence.
Qed.
