(* ===== verification/Blog.v ===== *)
(** * The blog service: state, views and public reads

    [apps/server/src/community.rs]: the state the handlers share, what they
    show of a post, a blog, a category, a series and a comment, and the public
    routes.  Content and accounts are tables of one database: an operation of
    either half sees the sites, users, memberships and control plane of the
    account tables ([tables]). *)

From Stdlib Require Import Bool NArith ZArith Lia.
From S2P Require Import Prelude Text Extern Content Renderer Comments Seo StoreBase StoreTaxonomy StoreContent StoreFeed Accounts Signing CacheHttp Auth Features.

Section blog.
Context `{!UrlLib, !OriginLib, !DigestLib, !Base64Engine, !SerdeJson, !HeaderLib, !Argon2Lib, !Sha256Lib, !MarkdownLib,
  !AmmoniaLib, !StoreCodec, !LayerCodec}.

(** ** State *)

(** The rest of [AppState] that the handlers of the blog read. *)
Record BlogConfig := {
  bc_app : AppState;
  bc_comments_enabled : bool;
  bc_custom_css_enabled : bool;
  bc_seo_policy : SeoPolicy;
  bc_features : FeatureRegistry;
}.
(** Identifiers and the clock, in the order a handler asks for them. *)
Record BlogEnv := {
  be_env : Env;
  be_id : nat -> Uuid;
}.
(** [bl_public_mutations] counts the mutation guards of the cache that were
    begun. *)
Record Blog := {
  bl_server : Server;
  bl_content : DB;
  bl_public_mutations : N;
}.
Definition accounts (s : Blog) : AccountDB := sv_accounts (bl_server s).
Definition control_row (c : ControlRow) : ControlPlaneRow :=
  {| StoreBase.cp_primary_site_id := ct_primary_site_id c; StoreBase.cp_owner_user_id := ct_owner_user_id c |}.
(** The content tables together with the account tables. *)
Definition shared (a : AccountDB) (db : DB) : DB :=
  Build_DB (documents db) (revisions db) (routes db) (ai_proposal_audits db) (categories db) (revision_categories db)
    (series db) (series_items db) (home_pins db) (membership_table a) (dom (user_table a)) (dom (site_table a))
    (control_row <$> control_plane a) (comments db).
Definition tables (s : Blog) : DB := shared (accounts s) (bl_content s).

Definition step (E A : Type) : Type := Blog -> result E A * Blog.
#[export] Instance step_ret {E} : MRet (step E) := fun A a s => (Ok a, s).
#[export] Instance step_bind {E} : MBind (step E) := fun A B k m s =>
  match m s with (Ok a, s') => k a s' | (Err e, s') => (Err e, s') end.
(** What a closure given to [repository_task] may do, and what a handler may do. *)
Definition task : Type -> Type := step RepositoryError.
Definition web : Type -> Type := step CommunityApiError.

Definition step_map_err {E F A} (f : E -> F) (m : step E A) : step F A := fun s => (map_err f (m s).1, (m s).2).
Definition repository_task {A} (m : task A) : web A := step_map_err community_error m.
Definition check {E A} (r : result E A) : step E A := fun s => (r, s).
(** A handler of [Auth] on the server's half of the state. *)
Definition on_server {A} (m : Auth.handler CommunityApiError A) : web A := fun s =>
  let '(r, server) := m (bl_server s) in
  (r, {| bl_server := server; bl_content := bl_content s; bl_public_mutations := bl_public_mutations s |}).
Definition look {A} (f : Blog -> result RepositoryError A) : task A := fun s => (f s, s).
Definition write_accounts {A} (f : AccountDB -> result RepositoryError A * AccountDB) : task A := fun s =>
  let '(r, a) := f (accounts s) in
  (r, {| bl_server := with_accounts (bl_server s) a; bl_content := bl_content s; bl_public_mutations := bl_public_mutations s |}).
Definition write_content {A} (f : DB -> result RepositoryError A * DB) : task A := fun s =>
  let '(r, db) := f (tables s) in
  (r, {| bl_server := bl_server s; bl_content := db; bl_public_mutations := bl_public_mutations s |}).
Definition begin_public_mutation {E} (st : BlogConfig) : step E unit := fun s =>
  (Ok tt, {| bl_server := bl_server s; bl_content := bl_content s;
             bl_public_mutations := bl_public_mutations s + (if as_cache (bc_app st) then 1 else 0) |})%N.

(** ** Views *)

Record CategorySummary := {
  cg_id : Uuid; cg_slug : rstr; cg_title : rstr; cg_description : option rstr; cg_theme_preset : option ThemeProfile;
  cg_status : CategoryStatus }.
#[export] Instance CategorySummary_eq_dec : EqDecision CategorySummary.
Proof. solve_decision. Defined.
Definition category_summary (c : CategoryRecord) : CategorySummary := {|
  cg_id := cr_id c; cg_slug := cr_slug c; cg_title := cr_title c; cg_description := cr_description c;
  cg_theme_preset := cr_theme_profile c; cg_status := cr_status c |}.
Record SeriesSummary := {
  se_id : Uuid; se_category_id : Uuid; se_slug : rstr; se_title : rstr; se_description : option rstr;
  se_theme_preset : option ThemeProfile; se_status : CategoryStatus; se_home_position : Z; se_created_at : DateTime;
  se_updated_at : DateTime }.
Definition series_summary (s : SeriesRecord) : SeriesSummary := {|
  se_id := sr_id s; se_category_id := sr_category_id s; se_slug := sr_slug s; se_title := sr_title s;
  se_description := sr_description s; se_theme_preset := sr_theme_profile s; se_status := sr_status s;
  se_home_position := sr_home_position s; se_created_at := sr_created_at s; se_updated_at := sr_updated_at s |}.
(** Without the stylesheet's URL the code panics: the policy is validated when
    the server starts, and a stored handle is a plain segment. *)
Definition custom_css_url (policy : SeoPolicy) (site : SiteRecord) : option rstr :=
  to_option (url_as_str <$> public_route_url policy (lit "/api/v1/blogs/" ++ sit_handle site ++ lit "/custom.css")).
Definition blog_summary_with_css (site : SiteRecord) (owner : UserRecord) (primary_site_id : Uuid) (custom_css_enabled : bool)
    (policy : SeoPolicy) : BlogSummary :=
  let summary := blog_summary site owner primary_site_id in
  {| bs_id := bs_id summary; bs_handle := bs_handle summary; bs_title := bs_title summary;
     bs_description := bs_description summary; bs_owner := bs_owner summary; bs_preset_id := bs_preset_id summary;
     bs_custom_css_url := if custom_css_enabled && is_some (sit_custom_css site) then custom_css_url policy site else None;
     bs_is_primary := bs_is_primary summary; bs_created_at := bs_created_at summary |}.

Record FeedPostSummary := {
  fp_id : Uuid; fp_title : rstr; fp_slug : rstr; fp_excerpt : rstr; fp_published_at : DateTime; fp_updated_at : DateTime;
  fp_author : UserSummary; fp_blog : BlogSummary; fp_tags : list rstr; fp_comment_count : N; fp_has_intent_view : bool;
  fp_authorship : PublicAuthorship; fp_category : option CategorySummary; fp_cover_image_url : option rstr }.
Definition feed_item (s : Blog) (primary_site_id : Uuid) (document : DocumentSnapshot) : result RepositoryError FeedPostSummary :=
  site ← get_site_by_id (ds_site_id document) (accounts s);
  owner ← get_user_by_id (sit_owner_user_id site) (accounts s);
  comment_count ← count_approved_comments (sit_id site) (ds_id document) (tables s);
  category ← get_published_category (sit_id site) (ds_id document) (tables s);
  let revision := ds_revision document in
  let published_at := rs_created_at revision in
  Ok {| fp_id := ds_id document; fp_title := rs_title revision; fp_slug := rs_slug revision;
        fp_excerpt := summarize_markdown (rs_source_markdown revision) 220; fp_published_at := published_at;
        fp_updated_at := published_at; fp_author := user_summary owner; fp_blog := blog_summary site owner primary_site_id;
        fp_tags := []; fp_comment_count := comment_count; fp_has_intent_view := is_some (rs_intent revision);
        fp_authorship := rs_authorship revision; fp_category := category_summary <$> category; fp_cover_image_url := None |}.

Record BlogPostView := {
  pv_id : Uuid; pv_title : rstr; pv_canonical_slug : rstr; pv_requested_slug : rstr; pv_revision_id : Uuid; pv_markdown : rstr;
  pv_embeds : list EmbedReference; pv_artifact : PublishArtifact; pv_ontology : option OntologySidecar;
  pv_ai_summary : option AiSummary; pv_authorship : PublicAuthorship; pv_category : option CategorySummary; pv_slug : rstr;
  pv_excerpt : option rstr; pv_published_at : DateTime; pv_updated_at : DateTime; pv_author : UserSummary; pv_blog : BlogSummary;
  pv_tags : list rstr; pv_cover_image_url : option rstr }.
Definition blog_post_view (st : BlogConfig) (requested_slug : rstr) (view : ViewMode) (document : DocumentSnapshot)
    (site : SiteRecord) (owner : UserRecord) (category : option CategorySummary) : BlogPostView :=
  let revision := ds_revision document in
  let published_at := rs_created_at revision in
  {| pv_id := ds_id document; pv_title := rs_title revision; pv_canonical_slug := rs_slug revision;
     pv_requested_slug := requested_slug; pv_revision_id := rs_id revision; pv_markdown := rs_source_markdown revision;
     pv_embeds := rs_embeds revision; pv_artifact := render_revision revision view; pv_ontology := rs_ontology revision;
     pv_ai_summary := publishable_ai_summary revision; pv_authorship := rs_authorship revision; pv_category := category;
     pv_slug := rs_slug revision; pv_excerpt := Some (summarize_markdown (rs_source_markdown revision) 220);
     pv_published_at := published_at; pv_updated_at := published_at; pv_author := user_summary owner;
     pv_blog := blog_summary_with_css site owner (as_site_id (bc_app st)) (bc_custom_css_enabled st) (bc_seo_policy st);
     pv_tags := []; pv_cover_image_url := None |}.
Record BlogPostEtagSeed := {
  es_revision_id : Uuid; es_theme_revision : Z; es_artifact_hash : rstr; es_is_primary : bool; es_category : option CategorySummary }.
#[export] Instance BlogPostEtagSeed_eq_dec : EqDecision BlogPostEtagSeed.
Proof. solve_decision. Defined.
Definition blog_post_etag_seed (response : BlogPostView) (theme_revision : Z) : BlogPostEtagSeed := {|
  es_revision_id := pv_revision_id response; es_theme_revision := theme_revision;
  es_artifact_hash := art_artifact_hash (pv_artifact response); es_is_primary := bs_is_primary (pv_blog response);
  es_category := pv_category response |}.

Record CommentView := {
  vw_id : Uuid; vw_post_id : Uuid; vw_author : UserSummary; vw_source_markdown : rstr; vw_artifact_html : rstr;
  vw_created_at : DateTime; vw_updated_at : DateTime; vw_can_edit : bool; vw_can_delete : bool }.
Definition comment_view (comment : CommentRecord) (author : UserRecord) (can_edit : bool) : CommentView :=
  let renderable : Comments.Comment := {|
    Comments.co_id := com_id comment; Comments.co_site_id := com_site_id comment;
    Comments.co_document_id := com_document_id comment; Comments.co_author_reference := uuid_hyphenated (ur_id author);
    Comments.co_source_markdown := com_source_markdown comment; Comments.co_status := Comments.Approved;
    Comments.co_created_at := com_created_at comment; Comments.co_updated_at := com_updated_at comment |} in
  {| vw_id := com_id comment; vw_post_id := com_document_id comment; vw_author := user_summary author;
     vw_source_markdown := com_source_markdown comment; vw_artifact_html := default [] (Comments.render_if_approved renderable);
     vw_created_at := com_created_at comment; vw_updated_at := com_updated_at comment; vw_can_edit := can_edit;
     vw_can_delete := can_edit |}.

Inductive PublicBody :=
| BlogsBody (blogs : list BlogSummary)
| BlogBody (blog : BlogSummary)
| FeedBody (items : list FeedPostSummary)
| HomeBody (pinned recent : list FeedPostSummary) (category_sections : list (CategorySummary * list FeedPostSummary))
    (series_sections : list (SeriesSummary * list FeedPostSummary))
| CategoriesBody (items : list CategorySummary)
| SeriesListBody (items : list SeriesSummary)
| CategoryBody (category : CategorySummary) (blog : BlogSummary) (post_count : N)
| SeriesBody (series : SeriesSummary) (blog : BlogSummary) (post_count : N)
| PostBody (post : BlogPostView)
| CommentsBody (items : list CommentView).
(** The derived [Serialize] instances of the views, with [serde_json]. *)
Class ViewCodec := {
  body_to_vec : PublicBody -> list N;
  seed_to_vec : BlogPostEtagSeed -> list N;
}.
Context `{!ViewCodec}.

(** ** Public responses *)

Definition IF_NONE_MATCH : rstr := lit "if-none-match".
Definition PUBLIC_CACHE : rstr := lit "public, max-age=0, s-maxage=60, stale-while-revalidate=300".
Record PublicResponse := {
  pr_not_modified : bool;
  pr_body : list N;
  pr_content_type : option rstr;
  pr_cache_control : rstr;
  pr_etag : rstr;
}.
Definition public_bytes (hs : Headers) (bytes etag_seed : list N) (content_type : rstr) : PublicResponse :=
  let etag := [34%N] ++ lit "sha256:" ++ hex_digest (sha256 etag_seed) ++ [34%N] in
  let not_modified := is_some_and (fun values => existsb (fun candidate => str_eqb candidate etag || str_eqb candidate (lit "*"))
                                                   (trim <$> split 44 values))
                        (header_get IF_NONE_MATCH hs ≫= header_to_str) in
  {| pr_not_modified := not_modified; pr_body := if not_modified then [] else bytes;
     pr_content_type := if not_modified then None else Some content_type; pr_cache_control := PUBLIC_CACHE; pr_etag := etag |}.
Definition JSON_TYPE : rstr := lit "application/json; charset=utf-8".
Definition public_json (hs : Headers) (value : PublicBody) : PublicResponse :=
  public_bytes hs (body_to_vec value) (body_to_vec value) JSON_TYPE.
Definition public_json_with_seed (hs : Headers) (value : PublicBody) (etag_seed : BlogPostEtagSeed) : PublicResponse :=
  public_bytes hs (body_to_vec value) (seed_to_vec etag_seed) JSON_TYPE.

(** A public handler: the repository's answer, as a response. *)
Definition public (hs : Headers) (r : result RepositoryError PublicBody) : result CommunityApiError PublicResponse :=
  public_json hs <$> map_err community_error r.
Implicit Types (st : BlogConfig) (hs : Headers) (s : Blog).

(** ** Blogs *)

Definition list_blogs st hs s : result CommunityApiError PublicResponse :=
  public hs (
    sites ← list_sites 500 (accounts s);
    blogs ← traverse (fun site => owner ← get_user_by_id (sit_owner_user_id site) (accounts s);
                                  Ok (blog_summary site owner (as_site_id (bc_app st)))) sites;
    Ok (BlogsBody blogs)).
Definition get_blog st hs (handle : rstr) s : result CommunityApiError PublicResponse :=
  validate_handle handle;;
  public hs (
    site ← get_site_by_handle handle (accounts s);
    owner ← get_user_by_id (sit_owner_user_id site) (accounts s);
    Ok (BlogBody (blog_summary_with_css site owner (as_site_id (bc_app st)) (bc_custom_css_enabled st) (bc_seo_policy st)))).
Definition scoped_site_stylesheet (site_id : Uuid) (custom_css : rstr) : rstr :=
  if is_empty custom_css then []
  else lit "@scope (.osb-site-theme[data-site-id=" ++ [34%N] ++ uuid_hyphenated site_id ++ [34%N] ++ lit "]) {" ++ [10%N]
       ++ custom_css ++ [10%N] ++ lit "}" ++ [10%N].
(** [u64::to_be_bytes] of the theme revision. *)
Definition be_bytes (n : Z) : list N := (fun i => N.shiftr (Z.to_N n) (8 * N.of_nat (7 - i)) mod 256)%N <$> seq 0 8.
Definition get_blog_custom_css st hs (handle : rstr) s : result CommunityApiError PublicResponse :=
  validate_handle handle;;
  site ← map_err community_error (get_site_by_handle handle (accounts s));
  Ok (public_bytes hs (bytes (scoped_site_stylesheet (sit_id site) (default [] (sit_custom_css site))))
        (be_bytes (sit_theme_revision site)) (lit "text/css; charset=utf-8")).

(** ** Feeds *)

Definition feed_items st s (documents : list DocumentSnapshot) : result RepositoryError (list FeedPostSummary) :=
  traverse (feed_item s (as_site_id (bc_app st))) documents.
Definition feed st hs s : result CommunityApiError PublicResponse :=
  public hs (documents ← list_published_across_sites 100 (tables s); FeedBody <$> feed_items st s documents).
Definition home st hs s : result CommunityApiError PublicResponse :=
  public hs (
    home ← home_feed (as_site_id (bc_app st)) 100 (tables s);
    pinned ← feed_items st s (hf_pinned home);
    recent ← feed_items st s (hf_recent home);
    category_sections ← traverse (fun section => items ← feed_items st s (hcs_items section);
                                    Ok (category_summary (hcs_category section), items)) (hf_category_sections home);
    series_sections ← traverse (fun section => items ← feed_items st s (hss_items section);
                                    Ok (series_summary (hss_series section), items)) (hf_series_sections home);
    Ok (HomeBody pinned recent category_sections series_sections)).
Definition list_blog_posts st hs (handle : rstr) s : result CommunityApiError PublicResponse :=
  validate_handle handle;;
  public hs (
    site ← get_site_by_handle handle (accounts s);
    documents ← list_published (sit_id site) 500 (tables s);
    FeedBody <$> feed_items st s documents).

(** ** Categories and series *)

(** The blog of a handle, or the configured primary one. *)
Definition blog_of_handle (handle : rstr) s : result RepositoryError SiteRecord := get_site_by_handle handle (accounts s).
Definition primary_blog st s : result RepositoryError SiteRecord := get_site_by_id (as_site_id (bc_app st)) (accounts s).

Definition site_categories (site_id : Uuid) s : result RepositoryError PublicBody :=
  categories ← list_categories site_id false 500 (tables s); Ok (CategoriesBody (category_summary <$> categories)).
Definition list_blog_categories hs (handle : rstr) s : result CommunityApiError PublicResponse :=
  validate_handle handle;;
  public hs (site ← blog_of_handle handle s; site_categories (sit_id site) s).
Definition list_primary_categories st hs s : result CommunityApiError PublicResponse :=
  public hs (primary_blog st s;; site_categories (as_site_id (bc_app st)) s).
Definition site_series (site_id : Uuid) s : result RepositoryError PublicBody :=
  series ← list_series site_id false 500 (tables s); Ok (SeriesListBody (series_summary <$> series)).
Definition list_blog_series hs (handle : rstr) s : result CommunityApiError PublicResponse :=
  validate_handle handle;;
  public hs (site ← blog_of_handle handle s; site_series (sit_id site) s).
Definition list_primary_series st hs s : result CommunityApiError PublicResponse :=
  public hs (primary_blog st s;; site_series (as_site_id (bc_app st)) s).

Definition summary_with_css st s (site : SiteRecord) (owner : UserRecord) : BlogSummary :=
  blog_summary_with_css site owner (as_site_id (bc_app st)) (bc_custom_css_enabled st) (bc_seo_policy st).
Definition series_response st s (site : SiteRecord) (series_slug : rstr) : result RepositoryError PublicBody :=
  owner ← get_user_by_id (sit_owner_user_id site) (accounts s);
  series ← get_series_by_slug (sit_id site) series_slug (tables s);
  posts ← list_published_in_series (sit_id site) (sr_id series) 500 (tables s);
  Ok (SeriesBody (series_summary series) (summary_with_css st s site owner) (size_of posts)).
Definition get_blog_series st hs (handle series_slug : rstr) s : result CommunityApiError PublicResponse :=
  validate_handle handle;;
  public hs (site ← blog_of_handle handle s; series_response st s site series_slug).
Definition get_primary_series st hs (series_slug : rstr) s : result CommunityApiError PublicResponse :=
  public hs (site ← primary_blog st s; series_response st s site series_slug).
Definition series_posts st s (site_id : Uuid) (series_slug : rstr) : result RepositoryError PublicBody :=
  series ← get_series_by_slug site_id series_slug (tables s);
  documents ← list_published_in_series site_id (sr_id series) 500 (tables s);
  FeedBody <$> feed_items st s documents.
Definition list_blog_series_posts st hs (handle series_slug : rstr) s : result CommunityApiError PublicResponse :=
  validate_handle handle;;
  public hs (site ← blog_of_handle handle s; series_posts st s (sit_id site) series_slug).
Definition list_primary_series_posts st hs (series_slug : rstr) s : result CommunityApiError PublicResponse :=
  public hs (series_posts st s (as_site_id (bc_app st)) series_slug).

Definition category_response st s (site : SiteRecord) (category_slug : rstr) : result RepositoryError PublicBody :=
  owner ← get_user_by_id (sit_owner_user_id site) (accounts s);
  category ← get_category_by_slug (sit_id site) category_slug (tables s);
  posts ← list_published_in_category (sit_id site) (cr_id category) 500 (tables s);
  Ok (CategoryBody (category_summary category) (summary_with_css st s site owner) (size_of posts)).
Definition get_blog_category st hs (handle category_slug : rstr) s : result CommunityApiError PublicResponse :=
  validate_handle handle;;
  public hs (site ← blog_of_handle handle s; category_response st s site category_slug).
Definition get_primary_category st hs (category_slug : rstr) s : result CommunityApiError PublicResponse :=
  public hs (site ← primary_blog st s; category_response st s site category_slug).
Definition category_posts st s (site_id : Uuid) (category_slug : rstr) : result RepositoryError PublicBody :=
  category ← get_category_by_slug site_id category_slug (tables s);
  documents ← list_published_in_category site_id (cr_id category) 500 (tables s);
  FeedBody <$> feed_items st s documents.
Definition list_blog_category_posts st hs (handle category_slug : rstr) s : result CommunityApiError PublicResponse :=
  validate_handle handle;;
  public hs (site ← blog_of_handle handle s; category_posts st s (sit_id site) category_slug).
Definition list_primary_category_posts st hs (category_slug : rstr) s : result CommunityApiError PublicResponse :=
  public hs (category_posts st s (as_site_id (bc_app st)) category_slug).

(** ** Posts *)

(** The post a path of the site serves, with the seed of its [ETag]. *)
Definition post_at st s (site : result RepositoryError SiteRecord) (route_path requested_slug : rstr) (view : ViewMode)
    : result RepositoryError (BlogPostView * BlogPostEtagSeed) :=
  site ← site;
  owner ← get_user_by_id (sit_owner_user_id site) (accounts s);
  document ← get_published_by_slug (sit_id site) route_path (tables s);
  category ← get_published_category (sit_id site) (ds_id document) (tables s);
  let response := blog_post_view st requested_slug view document site owner (category_summary <$> (category : option CategoryRecord)) in
  Ok (response, blog_post_etag_seed response (sit_theme_revision site)).
Definition post_response st hs s (site : result RepositoryError SiteRecord) (route_path requested_slug : rstr) (view : ViewMode)
    : result CommunityApiError PublicResponse :=
  '(response, etag_seed) ← map_err community_error (post_at st s site route_path requested_slug view);
  Ok (public_json_with_seed hs (PostBody response) etag_seed).
Definition blog_post_at_path st hs (handle route_path requested_slug : rstr) (view : ViewMode) s
    : result CommunityApiError PublicResponse :=
  validate_handle handle;;
  post_response st hs s (blog_of_handle handle s) route_path requested_slug view.
Definition get_blog_post st hs (handle slug : rstr) (view : option ViewMode) s : result CommunityApiError PublicResponse :=
  blog_post_at_path st hs handle slug slug (default ViewIntent view) s.
Definition get_blog_category_post st hs (handle category_slug slug : rstr) (view : option ViewMode) s
    : result CommunityApiError PublicResponse :=
  blog_post_at_path st hs handle (category_slug ++ lit "/" ++ slug) slug (default ViewIntent view) s.
Definition get_primary_category_post st hs (category_slug slug : rstr) (view : option ViewMode) s
    : result CommunityApiError PublicResponse :=
  post_response st hs s (primary_blog st s) (category_slug ++ lit "/" ++ slug) slug (default ViewIntent view).

(** ** Comments *)

Definition list_comments hs (document_id : Uuid) s : result CommunityApiError PublicResponse :=
  public hs (
    document ← get_published_document_by_id document_id (tables s);
    get_site_by_id (ds_site_id document) (accounts s);;
    comments ← list_approved_comments (ds_site_id document) (ds_id document) 1000 (tables s);
    items ← traverse (fun comment => author ← get_user_by_id (com_author_user_id comment) (accounts s);
                                     Ok (comment_view comment author false)) comments;
    Ok (CommentsBody items)).
End blog.
