(* ===== verification/Studio.v ===== *)
(** * The studio: what signed-in members do to the blog

    [apps/server/src/community.rs], the private handlers: a member's session
    gives a user, the user's first writable site is the studio, and every
    operation runs on that site.  [routes] mounts them behind the origin,
    delivery and session guards. *)

From Stdlib Require Import Bool NArith ZArith Lia.
From S2P Require Import Prelude Text Extern Content Renderer Comments SocialEmbeds Seo StoreBase StoreTaxonomy StoreContent StoreFeed Accounts Signing CacheHttp Auth Features Blog.

Section studio.
Context `{!UrlLib, !PathSegmentsLib, !OriginLib, !DigestLib, !Base64Engine, !SerdeJson, !HeaderLib, !Argon2Lib, !Sha256Lib, !MarkdownLib,
  !AmmoniaLib, !StoreCodec, !LayerCodec}.

(** ** Requests *)

Record CreateBlogInput := {
  cb_handle : rstr; cb_title : rstr; cb_description : option rstr; cb_theme_preset : ThemeProfile }.
Record StudioDocumentInput := {
  si_title : rstr; si_slug : rstr; si_source_markdown : rstr; si_embeds : list EmbedReference; si_intent : option IntentLayer;
  si_ontology : option OntologySidecar; si_ai_summary : option AiSummary; si_category_id : option Uuid;
  si_authorship : PublicAuthorship }.
(** [CategoryUpdate] and [CssUpdate]: a field that was sent, perhaps as [null]. *)
Record Update (A : Type) := { up_provided : bool; up_value : option A }.
Arguments up_provided {A} _.
Arguments up_value {A} _.
Record StudioRevisionInput := {
  ri_base_revision_id : Uuid; ri_title : rstr; ri_slug : rstr; ri_source_markdown : rstr; ri_embeds : list EmbedReference;
  ri_intent : option IntentLayer; ri_ontology : option OntologySidecar; ri_ai_summary : option AiSummary;
  ri_category_id : Update Uuid; ri_authorship : PublicAuthorship; ri_idempotency_key : option rstr }.
Record UpdateStudioSettingsInput := { ui_theme_preset : ThemeProfile; ui_custom_css : Update rstr }.

(** ** Replies *)

Record StudioDocumentView := { dv_document : DocumentSnapshot; dv_category_id : option Uuid }.
Record StudioSettings := {
  ss_blog_id : Uuid; ss_theme_preset : ThemeProfile; ss_theme_revision : Z; ss_custom_css_enabled : bool;
  ss_custom_css : option rstr }.
Record CollaboratorView := {
  cv_user_id : Uuid; cv_email : rstr; cv_handle : rstr; cv_display_name : rstr; cv_role : SiteMembershipRole;
  cv_created_at : DateTime }.
Inductive StudioReply :=
| BlogCreated (blog : BlogSummary)
| PinsReply (document_ids : list Uuid)
| DocumentsReply (items : list StudioDocumentView)
| DocumentReply (document : StudioDocumentView)
| CategoriesReply (items : list CategorySummary)
| CategoryReply (category : CategorySummary)
| SeriesListReply (items : list SeriesSummary)
| SeriesReply (series : SeriesSummary)
| PreviewReply (artifact : PublishArtifact)
| SettingsReply (settings : StudioSettings)
| CollaboratorsReply (items : list CollaboratorView)
| CollaboratorReply (collaborator : CollaboratorView)
| CommentReply (comment : CommentView).

Implicit Types (st : BlogConfig) (env : BlogEnv) (hs : Headers) (s : Blog).
(** The [n]-th reading of the clock; reading 0 is the session's. *)
Definition clock env (n : nat) : DateTime := ev_now (be_env env) n.

Definition studio_document_view (document : DocumentSnapshot) s : result RepositoryError StudioDocumentView :=
  category ← get_current_category (ds_site_id document) (ds_id document) (tables s);
  Ok {| dv_document := document; dv_category_id := cr_id <$> (category : option CategoryRecord) |}.
Definition studio_document_views (documents : list DocumentSnapshot) s : result RepositoryError (list StudioDocumentView) :=
  traverse (fun document => studio_document_view document s) documents.
Definition studio_settings (site : SiteRecord) (custom_css_enabled : bool) : StudioSettings := {|
  ss_blog_id := sit_id site; ss_theme_preset := sit_theme_profile site; ss_theme_revision := sit_theme_revision site;
  ss_custom_css_enabled := custom_css_enabled;
  ss_custom_css := if custom_css_enabled then sit_custom_css site else None |}.
Definition collaborator_view (membership : SiteMembershipRecord) (user : UserRecord) : CollaboratorView := {|
  cv_user_id := ur_id user; cv_email := ur_email user; cv_handle := ur_handle user; cv_display_name := ur_display_name user;
  cv_role := mr_role membership; cv_created_at := mr_created_at membership |}.

(** ** Access *)

Definition signed_in st env hs : web UserRecord := on_server (require_user (bc_app st) (be_env env) hs).
Definition administrator st env hs : web UserRecord := on_server (require_instance_administrator (bc_app st) (be_env env) hs).

Record StudioAccess := { sa_site : SiteRecord; sa_role : SiteMembershipRole }.
Definition no_blog (e : CommunityApiError) : CommunityApiError := match e with CommunityNotFound => BadRequest | e => e end.
Definition studio_access st (user_id : Uuid) : web StudioAccess :=
  step_map_err no_blog (repository_task (look (fun s =>
    sites ← (if as_collaboration_enabled (bc_app st) then list_accessible_sites user_id 1 (accounts s)
             else list_owned_sites user_id 1 (accounts s));
    site ← ok_or (head sites) NotFound;
    membership ← get_site_membership user_id (sit_id site) (accounts s);
    Ok {| sa_site := site; sa_role := mr_role membership |}))).
Definition owner_studio_access st (user_id : Uuid) : web StudioAccess :=
  access ← studio_access st user_id;
  check (if is_owner (sa_role access) then Ok access else Err Forbidden).

(** The user of the session and the site of the studio. *)
Definition writer st env hs : web (UserRecord * StudioAccess) :=
  user ← signed_in st env hs; access ← studio_access st (ur_id user); mret (user, access).
Definition owner st env hs : web (UserRecord * StudioAccess) :=
  user ← signed_in st env hs; access ← owner_studio_access st (ur_id user); mret (user, access).
Definition site_of (access : StudioAccess) : Uuid := sit_id (sa_site access).

Definition revision_actor (user : UserRecord) : RevisionActor := {|
  ra_kind := Human; ra_id := uuid_hyphenated (ur_id user); ra_display_name := Some (ur_display_name user) |}.
Definition new_document (site_id : Uuid) (user : UserRecord) (input : StudioDocumentInput) : NewDocument := {|
  nd_site_id := site_id; nd_title := si_title input; nd_slug := si_slug input; nd_source_markdown := si_source_markdown input;
  nd_embeds := si_embeds input; nd_intent := si_intent input; nd_ontology := si_ontology input;
  nd_ai_summary := si_ai_summary input; nd_authorship := si_authorship input; nd_actor := revision_actor user |}.
Definition official_embeds st (embeds : list EmbedReference) : web unit :=
  check (if is_active (lit "social_embeds") (bc_features st)
         then map_err (fun _ => BadRequest) (validate_official_embeds embeds) else Ok tt).
Definition category_slug_conflicts_with_article_route (slug article_base_path : rstr) : bool :=
  let normalized_slug := to_ascii_lowercase (trim slug) in
  let article_root := default [] (head (split 47 (trim_matches 47 article_base_path))) in
  nocase_eqb normalized_slug article_root.
Definition free_slug st (slug : rstr) : web unit :=
  check (fail_if (category_slug_conflicts_with_article_route slug (seo_article_base_path (bc_seo_policy st))) BadRequest).

(** ** Blogs and the home page *)

Definition create_blog st env hs (input : CreateBlogInput) : web StudioReply :=
  user ← signed_in st env hs;
  check (validate_handle (cb_handle input));;
  title ← check (validate_text (cb_title input) 100);
  description ← check (transpose_map (fun value => validate_text value 240) (cb_description input));
  begin_public_mutation st;;
  site ← repository_task (
    pending ← look (fun s =>
      match get_admin_control_plane (accounts s) with
      | Ok control => Ok ((cp_owner_user control =? ur_id user)%N && negb (cp_setup_complete control))
      | Err NotFound => Ok false
      | Err e => Err e
      end);
    if (pending : bool)
    then write_accounts (complete_primary_owner_setup (ur_id user) (cb_handle input) title description (cb_theme_preset input)
                           (clock env 1) (clock env 2) (clock env 3))
    else
      owned ← look (fun s => list_owned_sites (ur_id user) 1 (accounts s));
      look (fun _ => ensure (is_none (head owned)) (Validation (lit "an account can own one blog in this deployment")));;
      write_accounts (create_site (ur_id user) (cb_handle input) title description (cb_theme_preset input) (be_id env 0)
                        (clock env 1)));
  mret (BlogCreated (blog_summary site user (as_site_id (bc_app st)))).

Definition pins (records : list HomePinRecord) : StudioReply := PinsReply (pin_document_id <$> records).
Definition get_home_pins st env hs : web StudioReply :=
  administrator st env hs;;
  records ← repository_task (look (fun s => list_home_pins (tables s)));
  mret (pins records).
Definition replace_home_pins st env hs (document_ids : list Uuid) : web StudioReply :=
  user ← administrator st env hs;
  begin_public_mutation st;;
  records ← repository_task (write_content (StoreFeed.replace_home_pins (ur_id user) document_ids (clock env 1)));
  mret (pins records).

(** ** Documents *)

Definition list_studio_documents st env hs : web StudioReply :=
  '(user, access) ← writer st env hs;
  repository_task (look (fun s =>
    documents ← list_documents_in_writable_site (ur_id user) (site_of access) 500 (tables s);
    DocumentsReply <$> studio_document_views documents s)).
Definition get_studio_document st env hs (document_id : Uuid) : web StudioReply :=
  '(user, access) ← writer st env hs;
  repository_task (look (fun s =>
    document ← get_document_in_writable_site (ur_id user) (site_of access) document_id (tables s);
    DocumentReply <$> studio_document_view document s)).
Definition create_studio_document st env hs (input : StudioDocumentInput) : web StudioReply :=
  '(user, access) ← writer st env hs;
  official_embeds st (si_embeds input);;
  repository_task (
    document ← write_content (create_document_in_writable_site_with_category (ur_id user)
                 (new_document (site_of access) user input) (si_category_id input) (be_id env 0) (be_id env 1) (clock env 1));
    look (fun s =>
      document ← get_document_in_writable_site (ur_id user) (ds_site_id document) (ds_id document) (tables s);
      DocumentReply <$> studio_document_view document s)).
Definition proposed (document_id : Uuid) (user : UserRecord) (input : StudioRevisionInput) : ProposedRevision := {|
  pr_document_id := document_id; pr_base_revision_id := ri_base_revision_id input; pr_title := ri_title input;
  pr_slug := ri_slug input; pr_source_markdown := ri_source_markdown input; pr_embeds := ri_embeds input;
  pr_intent := ri_intent input; pr_ontology := ri_ontology input; pr_ai_summary := ri_ai_summary input;
  pr_authorship := ri_authorship input; pr_actor := revision_actor user; pr_idempotency_key := ri_idempotency_key input |}.
Definition create_studio_revision st env hs (document_id : Uuid) (input : StudioRevisionInput) : web StudioReply :=
  '(user, access) ← writer st env hs;
  official_embeds st (ri_embeds input);;
  repository_task (
    write_content (revise_document_in_writable_site_with_category (ur_id user) (site_of access) (proposed document_id user input)
      (if up_provided (ri_category_id input) then Some (up_value (ri_category_id input)) else None) (be_id env 0) (clock env 1));;
    look (fun s =>
      document ← get_document_in_writable_site (ur_id user) (site_of access) document_id (tables s);
      DocumentReply <$> studio_document_view document s)).
Definition publish_studio_document st env hs (document_id revision_id : Uuid) : web StudioReply :=
  '(user, access) ← owner st env hs;
  begin_public_mutation st;;
  repository_task (
    document ← write_content (publish_document_in_owned_site (ur_id user) (site_of access) document_id revision_id (clock env 1));
    look (fun s => DocumentReply <$> studio_document_view document s)).
(** The revision a document would get, rendered and not stored. *)
Definition preview_revision (input : NewDocument) env : RevisionSnapshot :=
  with_computed_hash {|
    rs_schema_version := CONTENT_SCHEMA_VERSION; rs_id := be_id env 0; rs_document_id := be_id env 1; rs_revision_number := 1;
    rs_parent_revision_id := None; rs_title := nd_title input; rs_slug := nd_slug input;
    rs_source_markdown := nd_source_markdown input; rs_embeds := nd_embeds input; rs_intent := nd_intent input;
    rs_ontology := nd_ontology input; rs_ai_summary := nd_ai_summary input; rs_authorship := nd_authorship input;
    rs_actor := nd_actor input; rs_content_hash := []; rs_created_at := clock env 1 |}.
Definition preview_studio st env hs (input : StudioDocumentInput) : web StudioReply :=
  '(user, access) ← writer st env hs;
  official_embeds st (si_embeds input);;
  let input := new_document (site_of access) user input in
  check (map_err (fun _ => BadRequest) (NewDocument_validate input));;
  mret (PreviewReply (render_revision (preview_revision input env) ViewIntent)).

(** ** Categories and series *)

Definition list_studio_categories st env hs : web StudioReply :=
  '(_, access) ← writer st env hs;
  items ← repository_task (look (fun s => list_categories (site_of access) true 500 (tables s)));
  mret (CategoriesReply (category_summary <$> (items : list CategoryRecord))).
Definition list_studio_series st env hs : web StudioReply :=
  '(_, access) ← writer st env hs;
  items ← repository_task (look (fun s => list_series (site_of access) true 500 (tables s)));
  mret (SeriesListReply (series_summary <$> (items : list SeriesRecord))).
Definition list_studio_series_items st env hs (series_id : Uuid) : web StudioReply :=
  '(_, access) ← writer st env hs;
  repository_task (look (fun s =>
    documents ← list_published_in_series (site_of access) series_id 500 (tables s);
    DocumentsReply <$> studio_document_views documents s)).

(** The reply of an operation that returns the series, and the category. *)
Definition series_task (f : DB -> result RepositoryError SeriesRecord * DB) : web StudioReply :=
  series ← repository_task (write_content f); mret (SeriesReply (series_summary series)).
Definition category_task (f : DB -> result RepositoryError CategoryRecord * DB) : web StudioReply :=
  category ← repository_task (write_content f); mret (CategoryReply (category_summary category)).

Definition create_studio_series st env hs (input : CreateCategoryInput) : web StudioReply :=
  '(user, access) ← owner st env hs;
  free_slug st (cci_slug input);;
  begin_public_mutation st;;
  series_task (create_series (ur_id user) (site_of access) input (be_id env 0) (be_id env 1) (clock env 1)).
Definition promote_studio_category_to_series st env hs (category_id : Uuid) : web StudioReply :=
  '(user, access) ← owner st env hs;
  begin_public_mutation st;;
  series_task (promote_category_to_series (ur_id user) (site_of access) category_id (be_id env 0) (clock env 1)).
Definition update_studio_series st env hs (series_id : Uuid) (input : UpdateCategoryInput) : web StudioReply :=
  '(user, access) ← owner st env hs;
  begin_public_mutation st;;
  series_task (update_series (ur_id user) (site_of access) series_id input (clock env 1)).
Definition archive_studio_series st env hs (series_id : Uuid) : web StudioReply :=
  '(user, access) ← owner st env hs;
  begin_public_mutation st;;
  series_task (archive_series (ur_id user) (site_of access) series_id (clock env 1)).
Definition replace_studio_series_order st env hs (series_id : Uuid) (document_ids : list Uuid) : web StudioReply :=
  '(user, access) ← owner st env hs;
  begin_public_mutation st;;
  repository_task (
    write_content (replace_series_order (ur_id user) (site_of access) series_id document_ids (clock env 1));;
    look (fun s =>
      documents ← list_published_in_series (site_of access) series_id 500 (tables s);
      DocumentsReply <$> studio_document_views documents s)).
Definition create_studio_category st env hs (input : CreateCategoryInput) : web StudioReply :=
  '(user, access) ← owner st env hs;
  free_slug st (cci_slug input);;
  begin_public_mutation st;;
  category_task (create_category (ur_id user) (site_of access) input (be_id env 0) (clock env 1)).
Definition update_studio_category st env hs (category_id : Uuid) (input : UpdateCategoryInput) : web StudioReply :=
  '(user, access) ← owner st env hs;
  begin_public_mutation st;;
  category_task (update_category (ur_id user) (site_of access) category_id input (clock env 1)).
Definition archive_studio_category st env hs (category_id : Uuid) : web StudioReply :=
  '(user, access) ← owner st env hs;
  begin_public_mutation st;;
  category_task (archive_category (ur_id user) (site_of access) category_id (clock env 1)).

(** ** Settings, collaborators and comments *)

Definition get_studio_settings st env hs : web StudioReply :=
  '(_, access) ← owner st env hs;
  mret (SettingsReply (studio_settings (sa_site access) (bc_custom_css_enabled st))).
Definition update_studio_settings st env hs (input : UpdateStudioSettingsInput) : web StudioReply :=
  '(user, access) ← owner st env hs;
  check (fail_if (negb (bc_custom_css_enabled st) && up_provided (ui_custom_css input)) BadRequest);;
  begin_public_mutation st;;
  site ← repository_task (write_accounts (
    if up_provided (ui_custom_css input)
    then change_site_appearance (ur_id user) (site_of access) (ui_theme_preset input) (up_value (ui_custom_css input)) (clock env 1)
    else change_site_theme (ur_id user) (site_of access) (ui_theme_preset input) (clock env 1)));
  mret (SettingsReply (studio_settings site (bc_custom_css_enabled st))).

Definition collaborator (membership : SiteMembershipRecord) s : result RepositoryError CollaboratorView :=
  user ← get_user_by_id (mr_user_id membership) (accounts s); Ok (collaborator_view membership user).
Definition list_studio_collaborators st env hs : web StudioReply :=
  '(user, access) ← owner st env hs;
  repository_task (look (fun s =>
    memberships ← list_site_memberships (ur_id user) (site_of access) 500 (accounts s);
    CollaboratorsReply <$> traverse (fun membership => collaborator membership s)
                             (List.filter (fun membership => negb (is_owner (mr_role membership))) memberships))).
Definition add_studio_collaborator st env hs (email : rstr) (role : SiteMembershipRole) : web StudioReply :=
  '(user, access) ← owner st env hs;
  email ← check (validate_email email);
  repository_task (
    membership ← write_accounts (add_site_collaborator (ur_id user) (site_of access) email role (clock env 1));
    look (fun s => CollaboratorReply <$> collaborator membership s)).
Definition remove_studio_collaborator st env hs (collaborator_user_id : Uuid) : web StudioReply :=
  '(user, access) ← owner st env hs;
  repository_task (
    membership ← write_accounts (remove_site_collaborator (ur_id user) (site_of access) collaborator_user_id);
    look (fun s => CollaboratorReply <$> collaborator membership s)).

Definition create_comment st env hs (document_id : Uuid) (source_markdown : rstr) : web StudioReply :=
  user ← signed_in st env hs;
  begin_public_mutation st;;
  comment ← repository_task (
    document ← look (fun s => get_published_document_by_id document_id (tables s));
    look (fun s => get_site_by_id (ds_site_id document) (accounts s));;
    look (fun _ => map_err (fun _ => Validation (lit "comment is invalid")) (Comments.validate {|
      Comments.cs_site_id := ds_site_id document; Comments.cs_document_id := ds_id document;
      Comments.cs_author_reference := uuid_hyphenated (ur_id user); Comments.cs_source_markdown := source_markdown |}));;
    write_content (StoreFeed.create_comment (ur_id user) (ds_site_id document) (ds_id document) source_markdown (be_id env 0)
                     (clock env 1)));
  mret (CommentReply (comment_view comment user true)).

(** ** Routes *)

Inductive StudioRequest :=
| GetHomePins
| ListStudioDocuments
| GetStudioDocument (document_id : Uuid)
| ListStudioCategories
| ListStudioSeries
| ListStudioSeriesItems (series_id : Uuid)
| GetStudioSettings
| ListStudioCollaborators
| CreateBlog (input : CreateBlogInput)
| ReplaceHomePinsRequest (document_ids : list Uuid)
| CreateStudioDocument (input : StudioDocumentInput)
| CreateStudioRevision (document_id : Uuid) (input : StudioRevisionInput)
| PublishStudioDocument (document_id revision_id : Uuid)
| PreviewStudio (input : StudioDocumentInput)
| CreateStudioSeries (input : CreateCategoryInput)
| PromoteStudioCategoryToSeries (category_id : Uuid)
| UpdateStudioSeries (series_id : Uuid) (input : UpdateCategoryInput)
| ArchiveStudioSeries (series_id : Uuid)
| ReplaceStudioSeriesOrder (series_id : Uuid) (document_ids : list Uuid)
| CreateStudioCategory (input : CreateCategoryInput)
| UpdateStudioCategory (category_id : Uuid) (input : UpdateCategoryInput)
| ArchiveStudioCategory (category_id : Uuid)
| UpdateStudioSettings (input : UpdateStudioSettingsInput)
| AddStudioCollaborator (email : rstr) (role : SiteMembershipRole)
| RemoveStudioCollaborator (collaborator_user_id : Uuid)
| PostComment (document_id : Uuid) (source_markdown : rstr).

Definition private_read (r : StudioRequest) : bool :=
  match r with
  | GetHomePins | ListStudioDocuments | GetStudioDocument _ | ListStudioCategories | ListStudioSeries
  | ListStudioSeriesItems _ | GetStudioSettings | ListStudioCollaborators => true
  | _ => false
  end.
(** [routes] mounts the handler. *)
Definition mounted st (r : StudioRequest) : bool :=
  match r with
  | GetHomePins | ReplaceHomePinsRequest _ => is_active (lit "home_curation") (bc_features st)
  | ListStudioCollaborators | AddStudioCollaborator _ _ | RemoveStudioCollaborator _ => as_collaboration_enabled (bc_app st)
  | PostComment _ _ => bc_comments_enabled st
  | _ => true
  end.
Definition handle st env hs (r : StudioRequest) : web StudioReply :=
  match r with
  | GetHomePins => get_home_pins st env hs
  | ListStudioDocuments => list_studio_documents st env hs
  | GetStudioDocument id => get_studio_document st env hs id
  | ListStudioCategories => list_studio_categories st env hs
  | ListStudioSeries => list_studio_series st env hs
  | ListStudioSeriesItems id => list_studio_series_items st env hs id
  | GetStudioSettings => get_studio_settings st env hs
  | ListStudioCollaborators => list_studio_collaborators st env hs
  | CreateBlog input => create_blog st env hs input
  | ReplaceHomePinsRequest ids => replace_home_pins st env hs ids
  | CreateStudioDocument input => create_studio_document st env hs input
  | CreateStudioRevision id input => create_studio_revision st env hs id input
  | PublishStudioDocument id revision_id => publish_studio_document st env hs id revision_id
  | PreviewStudio input => preview_studio st env hs input
  | CreateStudioSeries input => create_studio_series st env hs input
  | PromoteStudioCategoryToSeries id => promote_studio_category_to_series st env hs id
  | UpdateStudioSeries id input => update_studio_series st env hs id input
  | ArchiveStudioSeries id => archive_studio_series st env hs id
  | ReplaceStudioSeriesOrder id ids => replace_studio_series_order st env hs id ids
  | CreateStudioCategory input => create_studio_category st env hs input
  | UpdateStudioCategory id input => update_studio_category st env hs id input
  | ArchiveStudioCategory id => archive_studio_category st env hs id
  | UpdateStudioSettings input => update_studio_settings st env hs input
  | AddStudioCollaborator email role => add_studio_collaborator st env hs email role
  | RemoveStudioCollaborator id => remove_studio_collaborator st env hs id
  | PostComment id source => create_comment st env hs id source
  end.

(** The guards of the mutations, outermost first; [guard_env] is the clock of
    the session guard. *)
Definition origin_guard st hs : web unit := check (ensure (request_origin_is_valid (bc_app st) hs) Unauthorized).
Definition delivery_guard st : web unit := check (ensure_mutable (bc_app st)).
Definition authenticated_user_guard st (guard_env : BlogEnv) hs : web unit := signed_in st guard_env hs;; mret tt.
Definition studio st (guard_env env : BlogEnv) hs (r : StudioRequest) : web StudioReply :=
  check (ensure (mounted st r) CommunityNotFound);;
  (if private_read r then mret tt
   else origin_guard st hs;; delivery_guard st;; authenticated_user_guard st guard_env hs);;
  handle st env hs r.
End studio.
