(* ===== verification/StudioTheorems.v ===== *)
(** * What a studio request may do

    Every change a request of the studio makes is one operation of the store,
    performed for the user of the presented session, who was allowed it. *)

From Stdlib Require Import Bool NArith ZArith Lia.
From S2P Require Import Prelude Text Extern Content Renderer Comments SocialEmbeds Seo StoreBase StoreTaxonomy StoreContent StoreFeed CustomCss Accounts AccountsSpec AccountsRefine OfflineImport Store StoreTheorems Signing CacheHttp Auth Features Blog Studio.

Section deeds.
Context `{!UrlLib, !PathSegmentsLib, !OriginLib, !DigestLib, !Base64Engine, !SerdeJson, !HeaderLib, !Argon2Lib, !Sha256Lib, !MarkdownLib,
  !AmmoniaLib, !StoreCodec, !LayerCodec}.
Implicit Types (st : BlogConfig) (env : BlogEnv) (hs : Headers) (s : Blog).

(** ** Operations of either half of the store *)

(** The offline import works on both; the storage crate's history ([op])
    takes its account tables as an argument instead. *)
Inductive deed :=
| ContentDeed (o : op)
| AccountDeed (o : account_op)
| ImportDeed (ids : N -> Uuid) (post_ids : N -> Uuid * Uuid) (owner site : Uuid) (batch : OfflineImportBatch)
    (reserved : list rstr) (dry_run : bool) (now : DateTime).
Definition with_content s (db : DB) : Blog :=
  {| bl_server := bl_server s; bl_content := db; bl_public_mutations := bl_public_mutations s |}.
Definition with_account_tables s (a : AccountDB) : Blog :=
  {| bl_server := with_accounts (bl_server s) a; bl_content := bl_content s; bl_public_mutations := bl_public_mutations s |}.
Definition perform (d : deed) s : Blog :=
  match d with
  | ContentDeed o => with_content s (run o (tables s)).2
  | AccountDeed o => with_account_tables s (account_run o (accounts s)).2
  | ImportDeed ids post_ids owner site batch reserved dry_run now =>
      let '(db, a) := (import_offline_batch_with_reserved_roots ids post_ids owner site batch reserved dry_run now
                         (tables s, accounts s)).2 in
      with_account_tables (with_content s db) a
  end.

(** The user an operation is performed for. *)
Definition actor (d : deed) : option Uuid :=
  match d with
  | ContentDeed (CreateInWritableSite u _ _ _ _ _ | ReviseInWritableSite u _ _ _ _ _ | PublishInOwnedSite u _ _ _ _
                | CreateCategory u _ _ _ _ | UpdateCategory u _ _ _ _ | ArchiveCategory u _ _ _ | CreateSeries u _ _ _ _ _
                | PromoteCategory u _ _ _ _ | ReplaceSeriesOrder u _ _ _ _ | UpdateSeries u _ _ _ _ | ArchiveSeries u _ _ _
                | CreateComment u _ _ _ _ _ | ReplaceHomePins u _ _) => Some u
  | AccountDeed (CompletePrimaryOwnerSetup u _ _ _ _ _ _ _ | CreateSite u _ _ _ _ _ _ | AddSiteCollaborator u _ _ _ _
                | RemoveSiteCollaborator u _ _ | ChangeSiteTheme u _ _ _ | ChangeSiteAppearance u _ _ _ _) => Some u
  | _ => None
  end.
(** The owner of a site manages it; a registered user may open a blog, and
    only the configured owner completes the setup. *)
Definition account_authorized (o : account_op) (a : AccountDB) : bool :=
  match o with
  | CompletePrimaryOwnerSetup u _ _ _ _ _ _ _ => is_some_and (fun c => (ct_owner_user_id c =? u)%N) (control_plane a)
  | CreateSite u _ _ _ _ _ _ => is_some (user_table a !! u)
  | AddSiteCollaborator u site _ _ _ | RemoveSiteCollaborator u site _ | ChangeSiteTheme u site _ _
  | ChangeSiteAppearance u site _ _ _ => is_some_and (fun m => is_owner (ms_role m)) (membership_table a !! (site, u))
  | _ => false
  end.
Definition permitted (d : deed) s : bool :=
  match d with
  | ContentDeed o => authorized o (tables s)
  | AccountDeed o => account_authorized o (accounts s)
  | ImportDeed _ _ owner site _ _ _ _ => owns (tables s) owner site
  end.
(** Drafts and memberships: what no public answer shows. *)
Definition hidden (d : deed) : bool :=
  match d with
  | ContentDeed (CreateInWritableSite _ _ _ _ _ _ | ReviseInWritableSite _ _ _ _ _ _) => true
  | AccountDeed (AddSiteCollaborator _ _ _ _ _ | RemoveSiteCollaborator _ _ _) => true
  | _ => false
  end.

(** ** Account operations by others *)

Lemma account_guard_fails {A} (m : acc A) db e : m db = Err e -> (transaction m db).2 = db.
Proof. unfold transaction. by intros ->. Qed.
Lemma not_site_owner a u site : is_some_and (fun m => is_owner (ms_role m)) (membership_table a !! (site, u)) = false ->
  Accounts.ensure_site_owner u site a = Err NotFound.
Proof.
  unfold Accounts.ensure_site_owner, Accounts.owns_site_in_connection.
  destruct (membership_table a !! (site, u)) as [m|]; simpl; [|done]. by intros ->.
Qed.
Lemma guarded_owner {A} (k : acc A) a u site : is_some_and (fun m => is_owner (ms_role m)) (membership_table a !! (site, u)) = false ->
  (transaction (fetch (Accounts.ensure_site_owner u site);; k) a).2 = a.
Proof.
  intros Ho. apply (account_guard_fails _ _ NotFound). unfold mbind, acc_bind, fetch. by rewrite (not_site_owner a u site Ho).
Qed.
(** An account operation that names an actor refuses the others. *)
Lemma account_unauthorized o a : is_some (actor (AccountDeed o)) = true -> account_authorized o a = false -> (account_run o a).2 = a.
Proof.
  destruct o; try discriminate; intros _ Ha; cbn [account_run account_authorized] in *; unfold Accounts.outcome; cbn [snd].
  - unfold complete_primary_owner_setup. destruct (handle ← _; _) as [[[h t] d]|]; [|done].
    destruct (load_admin_control_plane a) as [c|e] eqn:Hc.
    + apply (account_guard_fails _ _ NotFound). unfold mbind, acc_bind, fetch, guard_ok, fmap. simpl. rewrite Hc. simpl.
      apply load_control_Ok in Hc as (row & Hrow & ->). rewrite Hrow in Ha. simpl in *. by rewrite Ha.
    + apply (account_guard_fails _ _ e). unfold mbind, acc_bind, fetch. simpl. by rewrite Hc.
  - unfold create_site. destruct (handle ← _; _) as [[[h t] d]|]; [|done]. rewrite then_load_state.
    apply (account_guard_fails _ _ NotFound). unfold mbind, acc_bind, fetch, Accounts.ensure_user_exists. by rewrite Ha.
  - unfold add_site_collaborator. destruct (fail_if _ _;; _) as [e|]; [|done]. rewrite then_load_state. by apply guarded_owner.
  - by apply guarded_owner.
  - unfold change_site_theme. rewrite then_load_state. by apply guarded_owner.
  - unfold change_site_appearance. destruct (validate_custom_css css); [|done]. rewrite then_load_state. by apply guarded_owner.
Qed.

(** ** What a handler leaves behind *)

Lemma shared_shared a a' db : shared a (shared a' db) = shared a db.
Proof. done. Qed.

(** Two states no handler tells apart. *)
Definition same s s' : Prop := accounts s' = accounts s /\ tables s' = tables s.
Lemma same_refl s : same s s.
Proof. done. Qed.
Lemma same_perform d s s1 : same s s1 -> same (perform d s) (perform d s1).
Proof.
  intros [Ha Ht]. destruct d as [o|o|ids post_ids owner site batch reserved dry_run now].
  - split; [exact Ha|].
    change (shared (accounts s1) (run o (tables s1)).2 = shared (accounts s) (run o (tables s)).2). by rewrite Ha, Ht.
  - split; [change ((account_run o (accounts s1)).2 = (account_run o (accounts s)).2); by rewrite Ha|].
    set (a := (account_run o (accounts s)).2).
    change (shared (account_run o (accounts s1)).2 (bl_content s1) = shared a (bl_content s)). rewrite Ha. fold a.
    change (shared a (tables s1) = shared a (tables s)). by rewrite Ht.
  - cbn [perform]. rewrite Ha, Ht. by destruct (import_offline_batch_with_reserved_roots _ _ _ _ _ _ _ _ _).2 as [db a].
Qed.
Lemma same_trans s s1 s2 : same s s1 -> same s1 s2 -> same s s2.
Proof. intros [? ?] [? ?]. split; congruence. Qed.

(** *** One operation at most

    [reached g s]: no operation has run since [s0] and [g] guards were begun. *)
Section one_deed.
Variables (Q : deed -> Prop) (begun : N) (s0 : Blog).

Definition reached (g : N) s : Prop := same s0 s /\ bl_public_mutations s = (bl_public_mutations s0 + g)%N.
Definition did s : Prop :=
  same s0 s \/ exists d, Q d /\ same (perform d s0) s
    /\ (hidden d = true \/ bl_public_mutations s = (bl_public_mutations s0 + begun)%N).
Definition fine {E A} (g : N) (m : step E A) : Prop := forall s, reached g s -> did (m s).2.
Definition quiet {E A} (m : step E A) : Prop :=
  forall s, same s (m s).2 /\ bl_public_mutations (m s).2 = bl_public_mutations s.

Lemma fine_quiet {E A} g (m : step E A) : quiet m -> fine g m.
Proof. intros Hm s [Hs _]. left. eapply same_trans; [exact Hs|apply Hm]. Qed.
Lemma fine_bind {E A B} g (m : step E A) (k : A -> step E B) :
  quiet m -> (forall a s s', m s = (Ok a, s') -> reached g s -> fine g (k a)) -> fine g (m ≫= k).
Proof.
  intros Hm Hk s [Hs Hg]. destruct (Hm s) as [Hq Hn]. unfold mbind, step_bind.
  destruct (m s) as [[a|e] s'] eqn:E0; simpl in *.
  - apply (Hk a s s' E0); split; [done..|by eapply same_trans|congruence].
  - left. by eapply same_trans.
Qed.
(** After the operation only reads follow. *)
Lemma fine_then {E A B} g (m : step E A) (k : A -> step E B) : fine g m -> (forall a, quiet (k a)) -> fine g (m ≫= k).
Proof.
  intros Hm Hk s Hs. specialize (Hm s Hs). unfold mbind, step_bind. destruct (m s) as [[a|e] s'] eqn:E0; [|done].
  destruct (Hk a s') as [Hq Hn]. simpl in *. destruct Hm as [Hm|(d & Hd & Hp & Hv)]; [left; by eapply same_trans|right].
  exists d. split_and!; [done|by eapply same_trans|by rewrite Hn].
Qed.
Lemma fine_map_err {E F A} g (f : E -> F) (m : step E A) : fine g m -> fine g (step_map_err f m).
Proof. intros Hm s. exact (Hm s). Qed.
Lemma fine_begin {E A} st (k : unit -> step E A) :
  begun = (if as_cache (bc_app st) then 1 else 0)%N -> fine begun (k tt) -> fine 0 (begin_public_mutation st ≫= k).
Proof. intros Hb Hk s [Hs Hg]. apply Hk. split; [exact Hs|]. simpl. rewrite Hb. lia. Qed.
Lemma fine_content {A} g (f : DB -> result RepositoryError A * DB) o :
  (forall db, (run o db).2 = (f db).2) -> (authorized o (tables s0) = true -> Q (ContentDeed o)) ->
  hidden (ContentDeed o) = true \/ g = begun -> fine g (write_content f).
Proof.
  intros Hf HQ Hv s [[Ha Ht] Hg]. unfold write_content. specialize (Hf (tables s0)). rewrite Ht.
  destruct (f (tables s0)) as [r db] eqn:Ef. simpl in Hf. destruct (authorized o (tables s0)) eqn:Hauth.
  - right. exists (ContentDeed o). split_and!; [by apply HQ| |by destruct Hv as [?| ->]; auto].
    split; [exact Ha|]. change (shared (accounts s) db = shared (accounts s0) (run o (tables s0)).2). by rewrite Hf, Ha.
  - left. destruct (run_unauthorized o _ Hauth) as (e & Hr & _). rewrite Hr in Hf. simpl in Hf. subst db.
    split; [exact Ha|]. change (shared (accounts s) (tables s0) = tables s0). by rewrite Ha.
Qed.
Lemma fine_accounts {A} g (f : AccountDB -> result RepositoryError A * AccountDB) o :
  (forall db, (account_run o db).2 = (f db).2) -> is_some (actor (AccountDeed o)) = true ->
  (account_authorized o (accounts s0) = true -> Q (AccountDeed o)) ->
  hidden (AccountDeed o) = true \/ g = begun -> fine g (write_accounts f).
Proof.
  intros Hf Hactor HQ Hv s [Hs Hg]. pose proof Hs as [Ha Ht]. unfold write_accounts. specialize (Hf (accounts s0)). rewrite Ha.
  destruct (f (accounts s0)) as [r a] eqn:Ef. simpl in Hf. destruct (account_authorized o (accounts s0)) eqn:Hauth.
  - right. exists (AccountDeed o). split_and!; [by apply HQ| |by destruct Hv as [?| ->]; auto].
    pose proof (same_perform (AccountDeed o) s0 s Hs) as Hp. subst a. rewrite <- Ha. exact Hp.
  - left. rewrite account_unauthorized in Hf by done. subst a.
    split; [done|]. change (shared (accounts s0) (bl_content s) = tables s0). rewrite <- Ht. unfold tables. by rewrite Ha.
Qed.
End one_deed.

Lemma quiet_then {E A B} (m : step E A) (k : A -> step E B) : quiet m -> (forall a, quiet (k a)) -> quiet (m ≫= k).
Proof.
  intros Hm Hk s. destruct (Hm s) as [Hq Hn]. unfold mbind, step_bind. destruct (m s) as [[a|e] s'] eqn:E0; [|done].
  destruct (Hk a s') as [Hq' Hn']. simpl in *. split; [by eapply same_trans|congruence].
Qed.
Lemma quiet_pure {E A} (a : A) : quiet (mret a : step E A).
Proof. done. Qed.
Lemma quiet_look {A} (f : Blog -> result RepositoryError A) : quiet (look f).
Proof. done. Qed.
Lemma quiet_check {E A} (r : result E A) : quiet (check r).
Proof. done. Qed.
Lemma quiet_map_err {E F A} (f : E -> F) (m : step E A) : quiet m -> quiet (step_map_err f m).
Proof. intros Hm s. exact (Hm s). Qed.
Lemma quiet_task {A} (m : task A) : quiet m -> quiet (repository_task m).
Proof. apply quiet_map_err. Qed.
Lemma quiet_server {A} (m : Auth.handler CommunityApiError A) : (forall sv, (m sv).2 = sv) -> quiet (on_server m).
Proof.
  intros Hm s. unfold on_server. specialize (Hm (bl_server s)). destruct (m (bl_server s)) as [r sv]. simpl in Hm. by subst sv.
Qed.

Lemma require_user_state (app : AppState) e hs sv : (require_user app e hs sv).2 = sv.
Proof.
  unfold require_user, mbind, handler_bind, lift. simpl. destruct (ensure_mutable app); simpl; [|done].
  unfold resolve_session_user, query_optional. destruct (as_delivery_only app); [done|].
  destruct (session_hash_from_headers hs); [|done]. by repeat case_match; simplify_eq.
Qed.
Lemma require_administrator_state (app : AppState) e hs sv : (require_instance_administrator app e hs sv).2 = sv.
Proof.
  unfold require_instance_administrator, mbind, handler_bind, lift. simpl. destruct (ensure_mutable app); simpl; [|done].
  by destruct (session_hash_from_headers hs).
Qed.
Lemma quiet_signed_in st env hs : quiet (signed_in st env hs).
Proof. apply quiet_server. intros sv. apply require_user_state. Qed.
Lemma quiet_administrator st env hs : quiet (administrator st env hs).
Proof. apply quiet_server. intros sv. apply require_administrator_state. Qed.
Lemma quiet_studio_access st id : quiet (studio_access st id).
Proof. apply quiet_map_err, quiet_task, quiet_look. Qed.
Lemma quiet_writer st env hs : quiet (writer st env hs).
Proof.
  apply quiet_then; [apply quiet_signed_in|]. intros u. apply quiet_then; [apply quiet_studio_access|]. intros ?. apply quiet_pure.
Qed.
Lemma quiet_owner st env hs : quiet (owner st env hs).
Proof.
  apply quiet_then; [apply quiet_signed_in|]. intros u. apply quiet_then; [|intros ?; apply quiet_pure].
  apply quiet_then; [apply quiet_studio_access|]. intros ?. apply quiet_check.
Qed.

(** *** Who is asking *)

(** The request presents the token of a live session of this user, whose
    method is enabled or is the one of the stored administrator binding. *)
Definition presents st env hs s (user : Uuid) : Prop :=
  exists token session, session_hash_from_headers hs = Some token
    /\ get_session token (clock env 0) (accounts s) = Ok session /\ sn_user_id session = user
    /\ is_Some (user_table (accounts s) !! user)
    /\ (method_enabled (bc_app st) (sn_auth_method session) = true
        \/ exists c, control_plane (accounts s) = Some c /\ ct_owner_user_id c = user
             /\ session_method (ct_auth_mode c) = Some (sn_auth_method session)).

Lemma user_record_Ok id db u : get_user_by_id id db = Ok u -> ur_id u = id /\ is_Some (user_table db !! id).
Proof. unfold get_user_by_id, load_user_by_id. destruct (user_table db !! id); [|done]. intros [= <-]. eauto. Qed.
Lemma signed_in_presents st env hs s user s' : signed_in st env hs s = (Ok user, s') -> presents st env hs s (ur_id user).
Proof.
  unfold signed_in, on_server, require_user, resolve_session_user, query_optional, mbind, handler_bind, lift. simpl.
  destruct (ensure_mutable _); simpl; [|done]. destruct (as_delivery_only _); simpl; [done|].
  destruct (session_hash_from_headers hs) as [token|] eqn:Ht; simpl; [|done].
  destruct (get_session token _ _) as [session|[]] eqn:Hs; simpl; try done.
  destruct (method_enabled _ _) eqn:Hm; simpl; [|done].
  destruct (get_user_by_id _ _) as [u|[]] eqn:Hu; simpl; try done. intros [= <- _].
  apply user_record_Ok in Hu as [-> ?]. exists token, session. split_and!; auto.
Qed.
Lemma administrator_presents st env hs s user s' :
  administrator st env hs s = (Ok user, s') -> presents st env hs s (ur_id user).
Proof.
  unfold administrator, on_server, require_instance_administrator, handler_map_err, query, mbind, handler_bind, lift. simpl.
  destruct (ensure_mutable _); simpl; [|done].
  destruct (session_hash_from_headers hs) as [token|] eqn:Ht; simpl; [|done].
  destruct (get_session token _ _) as [session|[]] eqn:Hs; simpl; try done.
  destruct (get_admin_control_plane _) as [c|[]] eqn:Hc; simpl; try done.
  destruct (session_method (cp_auth_mode c)) as [m|] eqn:Hm; simpl; [|done].
  destruct (_ && _)%bool eqn:Hb; simpl; [|done]. apply andb_true_iff in Hb as [Hu%N.eqb_eq Hk%bool_decide_eq_true].
  destruct (get_user_by_id _ _) as [u|[]] eqn:Hr; simpl; try done. intros [= <- _].
  apply user_record_Ok in Hr as [-> ?]. apply load_control_Ok in Hc as (row & Hrow & ->).
  simpl in *. exists token, session. split_and!; auto. right. exists row. split_and!; try done; congruence.
Qed.
Lemma writer_presents st env hs s user access s' :
  writer st env hs s = (Ok (user, access), s') -> presents st env hs s (ur_id user).
Proof.
  unfold writer, mbind, step_bind. destruct (signed_in st env hs s) as [[u|e] s1] eqn:E; [|done].
  destruct (studio_access st (ur_id u) s1) as [[a|e] s2]; [|done]. intros [= -> _ _]. by eapply signed_in_presents.
Qed.
Lemma owner_presents st env hs s user access s' :
  owner st env hs s = (Ok (user, access), s') -> presents st env hs s (ur_id user).
Proof.
  unfold owner. intros E. unfold mbind, step_bind in E. destruct (signed_in st env hs s) as [[u|e] s1] eqn:Es; [|done].
  destruct (owner_studio_access st (ur_id u) s1) as [[a|e] s2]; [|done]. injection E as -> _ _. by eapply signed_in_presents.
Qed.

(** *** Handlers *)

Ltac quiet_tac :=
  repeat match goal with
  | |- quiet (let '(_, _) := ?x in _) => destruct x
  | |- quiet (if ?b then _ else _) => destruct b
  | |- _ => first [ apply quiet_pure | apply quiet_look | apply quiet_check | apply quiet_signed_in | apply quiet_administrator
                  | apply quiet_studio_access | apply quiet_writer | apply quiet_owner | apply quiet_task
                  | apply quiet_then; [|intros ?] ]
  end.
Lemma read_quiet st env hs r : private_read r = true -> quiet (handle st env hs r).
Proof.
  destruct r; try discriminate; intros _; cbn [handle];
    unfold get_home_pins, list_studio_documents, get_studio_document, list_studio_categories, list_studio_series,
      list_studio_series_items, get_studio_settings, list_studio_collaborators; quiet_tac.
Qed.

(** The operation is performed for the user of the session, who may. *)
Definition granted st env hs s (d : deed) : Prop :=
  exists user, presents st env hs s user /\ actor d = Some user /\ permitted d s = true.
Lemma granted_at st env hs s0 s user d g :
  presents st env hs s user -> reached s0 g s -> actor d = Some user -> permitted d s0 = true -> granted st env hs s0 d.
Proof.
  intros (token & session & ? & Hp) [[Ha _] _] Hd Hperm. exists user. split_and!; [|done..].
  exists token, session. rewrite Ha in Hp. done.
Qed.
Lemma outcome_state {A} (r : result RepositoryError A * DB) : (Store.outcome r).2 = r.2.
Proof. by destruct r as [[a|e] db]. Qed.

(** Follow a handler up to its operation; what the session gives is kept. *)
Ltac to_deed :=
  repeat match goal with
  | H : signed_in _ _ _ _ = (Ok _, _) |- _ => apply signed_in_presents in H
  | H : administrator _ _ _ _ = (Ok _, _) |- _ => apply administrator_presents in H
  | H : writer _ _ _ _ = (Ok ?a, _) |- _ => destruct a; apply writer_presents in H
  | H : owner _ _ _ _ = (Ok ?a, _) |- _ => destruct a; apply owner_presents in H
  | |- fine _ _ _ _ (repository_task _) => apply fine_map_err
  | |- fine _ _ _ _ (begin_public_mutation _ ≫= _) => apply fine_begin; [reflexivity|]
  | |- fine _ _ _ _ (_ ≫= _) => apply fine_bind; [solve [quiet_tac]|intros ? ? ? ? ?]
  end.
Ltac grant := intros; first [reflexivity | eapply granted_at; [eassumption|eassumption|reflexivity|assumption]].
Ltac deed o :=
  first [ eapply (fine_content _ _ _ _ _ o); [intros db; apply outcome_state|grant|by auto]
        | eapply (fine_accounts _ _ _ _ _ o); [intros db; reflexivity|reflexivity|grant|by auto] ].
(** The operation a handler calls, as a constructor. *)
Ltac this_deed :=
  lazymatch goal with
  | |- context [write_content (create_document_in_writable_site_with_category ?u ?i ?c ?id ?rid ?now)] =>
      deed (CreateInWritableSite u i c id rid now)
  | |- context [write_content (revise_document_in_writable_site_with_category ?u ?w ?i ?c ?rid ?now)] =>
      deed (ReviseInWritableSite u w i c rid now)
  | |- context [write_content (publish_document_in_owned_site ?u ?w ?id ?rid ?now)] => deed (PublishInOwnedSite u w id rid now)
  | |- context [write_content (create_category ?u ?w ?i ?id ?now)] => deed (CreateCategory u w i id now)
  | |- context [write_content (update_category ?u ?w ?id ?i ?now)] => deed (UpdateCategory u w id i now)
  | |- context [write_content (archive_category ?u ?w ?id ?now)] => deed (ArchiveCategory u w id now)
  | |- context [write_content (create_series ?u ?w ?i ?c ?id ?now)] => deed (CreateSeries u w i c id now)
  | |- context [write_content (promote_category_to_series ?u ?w ?c ?id ?now)] => deed (PromoteCategory u w c id now)
  | |- context [write_content (update_series ?u ?w ?id ?i ?now)] => deed (UpdateSeries u w id i now)
  | |- context [write_content (archive_series ?u ?w ?id ?now)] => deed (ArchiveSeries u w id now)
  | |- context [write_content (replace_series_order ?u ?w ?id ?ids ?now)] => deed (ReplaceSeriesOrder u w id ids now)
  | |- context [write_content (StoreFeed.create_comment ?u ?w ?d ?m ?id ?now)] => deed (CreateComment u w d m id now)
  | |- context [write_content (StoreFeed.replace_home_pins ?u ?ids ?now)] => deed (ReplaceHomePins u ids now)
  | |- context [write_accounts (complete_primary_owner_setup ?u ?h ?t ?d ?p ?n1 ?n2 ?n3)] =>
      deed (CompletePrimaryOwnerSetup u h t d p n1 n2 n3)
  | |- context [write_accounts (create_site ?u ?h ?t ?d ?p ?id ?now)] => deed (CreateSite u h t d p id now)
  | |- context [write_accounts (change_site_appearance ?u ?w ?p ?c ?now)] => deed (ChangeSiteAppearance u w p c now)
  | |- context [write_accounts (change_site_theme ?u ?w ?p ?now)] => deed (ChangeSiteTheme u w p now)
  | |- context [write_accounts (add_site_collaborator ?u ?w ?e ?r ?now)] => deed (AddSiteCollaborator u w e r now)
  | |- context [write_accounts (remove_site_collaborator ?u ?w ?c)] => deed (RemoveSiteCollaborator u w c)
  end.
(** Up to the operation, the operation, and the reads after it. *)
Ltac handler :=
  to_deed;
  lazymatch goal with
  | |- fine _ _ _ _ (if ?b then _ else _) => destruct b; handler
  | |- fine _ _ _ _ (write_accounts (if ?b then _ else _)) => destruct b; handler
  | |- fine _ _ _ _ (_ ≫= _) => apply fine_then; [handler|intros ?; quiet_tac]
  | |- _ => this_deed
  end.

(** The guards a handler begins when it changes what is public. *)
Definition guards st : N := if as_cache (bc_app st) then 1 else 0.
Definition clean st env hs s0 (m : web StudioReply) : Prop := fine (granted st env hs s0) (guards st) s0 0 m.

Lemma fine_reads st env hs s0 (m : web StudioReply) : quiet m -> clean st env hs s0 m.
Proof. apply fine_quiet. Qed.
Lemma clean_handle st env hs s0 r : clean st env hs s0 (handle st env hs r).
Proof.
  destruct (private_read r) eqn:Hr; [by apply fine_reads, read_quiet|]. unfold clean.
  destruct r; try discriminate; cbn [handle]; clear Hr;
    unfold create_blog, replace_home_pins, create_studio_document, create_studio_revision, publish_studio_document, preview_studio,
      create_studio_series, promote_studio_category_to_series, update_studio_series, archive_studio_series,
      replace_studio_series_order, create_studio_category, update_studio_category, archive_studio_category,
      update_studio_settings, add_studio_collaborator, remove_studio_collaborator, create_comment, series_task, category_task.
  all: solve [handler|apply fine_quiet; quiet_tac].
Qed.

(** Requests whose operation, if any, no public answer shows. *)
Definition drafting (r : StudioRequest) : bool :=
  private_read r ||
  match r with
  | CreateStudioDocument _ | CreateStudioRevision _ _ | PreviewStudio _ | AddStudioCollaborator _ _ | RemoveStudioCollaborator _ => true
  | _ => false
  end.
Lemma drafting_handle st env hs s0 r : drafting r = true -> fine (fun d => hidden d = true) 0 s0 0 (handle st env hs r).
Proof.
  intros Hr. destruct (private_read r) eqn:Hp; [by apply fine_quiet, read_quiet|]. unfold drafting in Hr. rewrite Hp in Hr. clear Hp.
  destruct r; try discriminate; clear Hr; cbn [handle];
    unfold create_studio_document, create_studio_revision, preview_studio, add_studio_collaborator, remove_studio_collaborator.
  all: solve [handler|apply fine_quiet; quiet_tac].
Qed.
(** Past the guards the handler runs on the state the request found. *)
Lemma studio_handled st guard_env env hs r s :
  same s (studio st guard_env env hs r s).2 \/
  (mounted st r = true
   /\ (private_read r = true \/ request_origin_is_valid (bc_app st) hs = true /\ as_delivery_only (bc_app st) = false)
   /\ exists s1, reached s 0 s1 /\ (studio st guard_env env hs r s).2 = (handle st env hs r s1).2).
Proof.
  unfold studio, origin_guard, delivery_guard, authenticated_user_guard, ensure_mutable, ensure, fail_if.
  destruct (mounted st r); [|by left]. destruct (private_read r).
  { right. split_and!; [done|by left|]. exists s. split; [|done]. split; [done|lia]. }
  destruct (request_origin_is_valid _ hs); [|by left]. destruct (as_delivery_only _); [by left|].
  unfold mbind at 1 2 3 4 5, step_bind, check. simpl.
  destruct (quiet_signed_in st guard_env hs s) as [Hs Hn]. unfold mbind, step_bind.
  destruct (signed_in st guard_env hs s) as [[u|e] s1]; simpl in *; [|by left].
  right. split_and!; [done|by right|]. exists s1. split; [|done]. split; [done|]. rewrite Hn. lia.
Qed.

(** C25. Every change a studio request makes is one operation of the store that
  its user was allowed: whatever the request and the outcome, either nothing
  the handlers read has changed, or the new state is the old one after one
  operation, performed for the user of the live session the request presents
  (of an enabled authentication method, or the administrator's), who may: an
  owner publishes and manages the site's taxonomy, settings and members, a
  member drafts, the primary owner completes the setup and edits the home
  pins, and any registered user opens a blog or comments on a public document
  (see [authorized] and [account_authorized]); the route was mounted, the
  request came from the public origin and the process is not delivery-only;
  and unless the operation only drafts or edits the membership list, which
  readers never see, the response cache was told. *)
Theorem studio_changes_are_granted st guard_env env hs r s :
  let s' := (studio st guard_env env hs r s).2 in
  same s s' \/ exists d user, same (perform d s) s'
    /\ presents st env hs s user /\ actor d = Some user /\ permitted d s = true
    /\ mounted st r = true /\ private_read r = false
    /\ request_origin_is_valid (bc_app st) hs = true /\ as_delivery_only (bc_app st) = false
    /\ (hidden d = true \/ bl_public_mutations s' = (bl_public_mutations s + if as_cache (bc_app st) then 1 else 0)%N).
Proof.
  cbn zeta. destruct (private_read r) eqn:Hr.
  { left. destruct (studio_handled st guard_env env hs r s) as [Hs|(_ & _ & s1 & [Hs _] & ->)]; [done|].
    eapply same_trans; [exact Hs|]. apply (read_quiet st env hs r Hr s1). }
  destruct (studio_handled st guard_env env hs r s) as [Hs|(Hm & [?|[Ho Hd]] & s1 & Hs1 & ->)]; [by left|congruence|].
  destruct (clean_handle st env hs s r s1 Hs1) as [?|(d & (user & ? & ? & ?) & ? & ?)]; [by left|].
  right. exists d, user. split_and!; done.
Qed.
End deeds.
