(* ===== verification/BlogTheorems.v ===== *)
(** * What the blog's public answers promise to caches

    A post is served with a validator made from a few identifiers instead of
    the whole answer.  Over every history of operations of the store, offline
    imports included, posts with the same seed are the same posts up to the
    author's name, and operations on drafts leave every post as it was. *)

From Stdlib Require Import Bool NArith ZArith Lia.
From S2P Require Import Prelude Text Extern Content Renderer Comments SocialEmbeds Seo StoreBase StoreTaxonomy StoreContent StoreFeed Accounts AccountsSpec AccountsRefine SiteRevisions OfflineImport StoreSpec StoreRefine ImportRefine Store StoreTheorems Signing CacheHttp Auth Features Blog Studio StudioTheorems.

Section history.
Context `{!UrlLib, !PathSegmentsLib, !OriginLib, !DigestLib, !Base64Engine, !SerdeJson, !HeaderLib, !Argon2Lib, !Sha256Lib, !MarkdownLib,
  !AmmoniaLib, !StoreCodec, !LayerCodec}.
Implicit Types (st : BlogConfig) (s : Blog).

Definition performs (ds : list deed) s : Blog := fold_left (fun s d => perform d s) ds s.
(** A deed that leaves every user's name as it is: only an import that is
    carried out may rename a user. *)
Definition keeps_names (d : deed) : bool := match d with ImportDeed _ _ _ _ _ _ false _ => false | _ => true end.

(** ** The account tables without the names *)

Definition unnamed_user (u : UserRow) : UserRow := with_display_name [] (us_created_at u) u.
(** The tables with the names, and the times they last changed, erased. *)
Definition unnamed (a : AccountDB) : AccountDB := set_users a (unnamed_user <$> user_table a).
(** Users enter the invariant with their ids, handles and addresses only. *)
Lemma relabelled_wf a t : (forall i, (fun u => (us_handle u, us_email u)) <$> t !! i = (fun u => (us_handle u, us_email u)) <$> user_table a !! i) ->
  account_wf a -> account_wf (set_users a t).
Proof.
  intros Ht [Hm ? ? ? ? ? Hn ? Hs Hl Hc Hi].
  assert (forall i, is_Some (user_table a !! i) -> is_Some (t !! i)) as Hdom.
  { intros i Hsome. apply (fmap_is_Some (fun u => (us_handle u, us_email u))). rewrite Ht. by apply fmap_is_Some. }
  split; cbn; try done.
  - intros site user m [? ?]%Hm. auto.
  - intros i j u v Hu Hv. pose proof (Ht i) as Ei. pose proof (Ht j) as Ej. rewrite Hu in Ei. rewrite Hv in Ej.
    destruct (user_table a !! i) as [u'|] eqn:Hu'; [|done]. destruct (user_table a !! j) as [v'|] eqn:Hv'; [|done].
    injection Ei as -> ->. injection Ej as -> ->. by apply Hn.
  - intros id x (? & ? & ?)%Hs. auto.
  - intros key r (? & ?)%Hi. auto.
Qed.
Lemma unnamed_wf a : account_wf a -> account_wf (unnamed a).
Proof. apply relabelled_wf. intros i. rewrite lookup_fmap. by destruct (user_table a !! i). Qed.
Lemma unnamed_evolves a a' : account_evolves a a' -> account_evolves (unnamed a) (unnamed a').
Proof. intros []. split; try done. by apply map_fmap_mono. Qed.
Lemma reconciled owner name now a b a' : reconcile_owner_name owner name now a = Ok (b, a') ->
  (account_wf a -> account_wf a') /\ unnamed a' = unnamed a /\ site_table a' = site_table a.
Proof.
  unfold reconcile_owner_name. destruct (validate_required_text _ _ _) as [v|]; [|done]. cbn.
  destruct (user_table a !! owner) as [u|] eqn:Hu; [|done]. cbn. destruct (str_eqb _ _); intros [= <- <-]; [done|]. split_and!; [|..|done].
  - apply relabelled_wf. intros i. destruct (decide (i = owner)) as [->|]; [by rewrite lookup_insert_eq, Hu|by rewrite lookup_insert_ne].
  - unfold unnamed. cbn. f_equal. rewrite fmap_insert. apply insert_id. by rewrite lookup_fmap, Hu.
Qed.

(** The invariants of the two halves; [wf] does not read the account tables. *)
Record sound s : Prop := { so_content : wf (tables s); so_accounts : account_wf (accounts s) }.
Record later s s' : Prop := {
  la_content : extends (tables s) (tables s');
  la_accounts : account_evolves (unnamed (accounts s)) (unnamed (accounts s'));
  la_sites : paced (accounts s) (accounts s') }.
#[export] Instance later_preorder : PreOrder later.
Proof. split; [by split|]. intros s1 s2 s3 [] []. split; by etrans. Qed.

Lemma wf_shared a db : wf db -> wf (shared a db).
Proof. intros [[] [] []]. split; split; assumption. Qed.
Lemma extends_shared a a' db db' : extends db db' -> extends (shared a db) (shared a' db').
Proof. intros []. by split. Qed.
Context (Hcodec : codec_roundtrip).

(** Any deed, from its effects on the two halves. *)
Lemma perform_effect d s : sound s -> exists db a, perform d s = with_account_tables (with_content s db) a
  /\ wf (shared a db) /\ extends (tables s) (shared a db)
  /\ account_wf a /\ account_evolves (unnamed (accounts s)) (unnamed a) /\ paced (accounts s) a
  /\ (keeps_names d = true -> user_table (accounts s) ⊆ user_table a).
Proof.
  intros [Hc Ha]. destruct d as [o|o|ids post_ids owner site batch reserved dry_run now]; cbn [perform].
  - exists (run o (tables s)).2, (accounts s). split_and!; try done; [by destruct s as [[]]|by apply wf_shared, run_wf|].
    apply (extends_shared (accounts s) (accounts s) (tables s)). by apply extends_steps, run_steps.
  - exists (bl_content s), (account_run o (accounts s)).2. pose proof (account_runs_evolve [o] (accounts s) Ha) as Hev.
    split_and!; [by destruct s| | |by apply account_run_wf|by apply unnamed_evolves|by apply account_run_paced|intros _; apply Hev].
    + by apply (wf_shared _ (tables s)).
    + by apply (extends_shared (accounts s) (account_run o (accounts s)).2 (tables s) (tables s)).
  - destruct (import_offline_batch_with_reserved_roots _ _ _ _ _ _ _ _ _) as [[report|e] state'] eqn:E; cbn [snd].
    + destruct (import_Ok Hcodec _ _ _ _ _ _ _ _ _ _ _ _ Hc E) as (renamed & a' & created & outcomes & db' & _ & _ & Hr & _ & [Hs _] & Hwf & _ & ->).
      apply reconciled in Hr as (Hwa & Hu & Hst). destruct dry_run.
      * exists (tables s), (accounts s). by split_and!.
      * exists db', a'. split_and!; [done|by apply wf_shared| |by apply Hwa|by rewrite Hu|by apply paced_same|done].
        by apply (extends_shared (accounts s) a' (tables s)), extends_steps.
    + apply import_Err in E as ->. exists (tables s), (accounts s). by split_and!.
Qed.
Lemma perform_sound d s : sound s -> sound (perform d s) /\ later s (perform d s)
  /\ (keeps_names d = true -> user_table (accounts s) ⊆ user_table (accounts (perform d s))).
Proof.
  intros Hs. destruct (perform_effect d s Hs) as (db & a & -> & Hc & He & Ha & Hev & Hp & Hu).
  split_and!; [by split|by split|done].
Qed.
Lemma performs_sound ds s : sound s -> sound (performs ds s) /\ later s (performs ds s)
  /\ (forallb keeps_names ds = true -> user_table (accounts s) ⊆ user_table (accounts (performs ds s))).
Proof.
  revert s. induction ds as [|d ds IH]; intros s Hs; [done|].
  destruct (perform_sound d s Hs) as (Hs1 & Hl1 & Hu1). destruct (IH _ Hs1) as (Hs2 & Hl2 & Hu2).
  change (performs (d :: ds) s) with (performs ds (perform d s)). split_and!; [done|by etrans|].
  cbn. intros [? ?]%andb_true_iff. etrans; [by apply Hu1|by apply Hu2].
Qed.

(** ** Posts *)

Lemma published_answer db site path snap : wf db -> get_published_by_slug site path db = Ok snap ->
  exists d r, documents db !! ds_id snap = Some d /\ doc_site_id d = site
    /\ doc_published_revision_id d = Some (rs_id (ds_revision snap))
    /\ revisions db !! rs_id (ds_revision snap) = Some r /\ rev_document_id r = ds_id snap
    /\ row_stores (rs_id (ds_revision snap)) r (ds_revision snap).
Proof.
  intros Hwf. pose proof (get_published_route db site path Hwf) as G.
  destruct (routes _ !! (site, path)) as [rt|] eqn:Hrt; rewrite G; [|done].
  destruct (wf_route _ (wf_is_paths _ Hwf) _ _ _ Hrt) as (d & Hd & Hsite).
  destruct (doc_published_revision_id d) as [pid|] eqn:Hp.
  - destruct (load_published _ _ d pid Hwf Hd Hp) as (r & x & Hr & Hrd & Hs & ->). intros [= <-]. cbn.
    rewrite (st_id _ _ _ Hs). exists d, r. split_and!; done.
  - by rewrite (load_unpublished _ _ d).
Qed.

(** The site of a post's URL: of a handle, or the primary one. *)
Definition article_site st (handle : option rstr) s : result RepositoryError SiteRecord :=
  match handle with Some handle => blog_of_handle handle s | None => primary_blog st s end.
Lemma article_site_loads st handle s site : article_site st handle s = Ok site ->
  load_site_by_id (sit_id site) None (accounts s) = Ok site.
Proof.
  intros E. assert (exists id, load_site_by_id id None (accounts s) = Ok site) as [id Hid].
  { destruct handle as [handle|]; cbn in E; [|by eexists].
    unfold blog_of_handle, get_site_by_handle in E. destruct (normalize_handle _ _) as [h|]; [|done]. cbn in E.
    destruct (find_row _ _) as [[id row]|]; [|done]. cbn in E. by exists id. }
  by destruct (load_site_Ok _ _ _ _ Hid) as (? & ? & _ & _ & _ & -> & _).
Qed.

Lemma post_at_Ok st s site path slug view post seed : post_at st s site path slug view = Ok (post, seed) ->
  exists site0 owner document category, site = Ok site0 /\ get_user_by_id (sit_owner_user_id site0) (accounts s) = Ok owner
    /\ get_published_by_slug (sit_id site0) path (tables s) = Ok document
    /\ get_published_category (sit_id site0) (ds_id document) (tables s) = Ok category
    /\ post = blog_post_view st slug view document site0 owner (category_summary <$> category)
    /\ seed = blog_post_etag_seed post (sit_theme_revision site0).
Proof.
  unfold post_at. destruct site as [site0|]; [|done]. cbn -[get_published_by_slug get_published_category].
  destruct (get_user_by_id _ _) as [owner|] eqn:Ho; [|done]. cbn -[get_published_by_slug get_published_category].
  destruct (get_published_by_slug _ _ _) as [document|] eqn:Hd; [|done]. cbn -[get_published_category].
  destruct (get_published_category _ _ _) as [category|] eqn:Hc; [|done]. intros [= <- <-].
  exists site0, owner, document, category. split_and!; done.
Qed.
(** The author under another name. *)
Definition called (name : rstr) (u : UserSummary) : UserSummary :=
  {| um_id := um_id u; um_handle := um_handle u; um_display_name := name; um_avatar_url := um_avatar_url u |}.
Definition by_author (name : rstr) (post : BlogPostView) : BlogPostView := {|
  pv_id := pv_id post; pv_title := pv_title post; pv_canonical_slug := pv_canonical_slug post;
  pv_requested_slug := pv_requested_slug post; pv_revision_id := pv_revision_id post; pv_markdown := pv_markdown post;
  pv_embeds := pv_embeds post; pv_artifact := pv_artifact post; pv_ontology := pv_ontology post;
  pv_ai_summary := pv_ai_summary post; pv_authorship := pv_authorship post; pv_category := pv_category post;
  pv_slug := pv_slug post; pv_excerpt := pv_excerpt post; pv_published_at := pv_published_at post;
  pv_updated_at := pv_updated_at post; pv_author := called name (pv_author post);
  pv_blog := let blog := pv_blog post in {|
    bs_id := bs_id blog; bs_handle := bs_handle blog; bs_title := bs_title blog; bs_description := bs_description blog;
    bs_owner := called name (bs_owner blog); bs_preset_id := bs_preset_id blog; bs_custom_css_url := bs_custom_css_url blog;
    bs_is_primary := bs_is_primary blog; bs_created_at := bs_created_at blog |};
  pv_tags := pv_tags post; pv_cover_image_url := pv_cover_image_url post |}.
Lemma same_user db db' id u u' : user_table db ⊆ user_table db' -> get_user_by_id id db = Ok u -> get_user_by_id id db' = Ok u' -> u = u'.
Proof.
  unfold get_user_by_id, load_user_by_id. intros Hsub. destruct (user_table db !! id) as [x|] eqn:E; [|done].
  apply (lookup_weaken _ (user_table db')) in E; [|done]. rewrite E. cbn. congruence.
Qed.
Lemma same_unnamed_user a a' id u u' : user_table (unnamed a) ⊆ user_table (unnamed a') ->
  get_user_by_id id a = Ok u -> get_user_by_id id a' = Ok u' -> user_summary u' = called (ur_display_name u') (user_summary u).
Proof.
  unfold get_user_by_id, load_user_by_id. cbn. intros Hsub. destruct (user_table a !! id) as [x|] eqn:E; [|done].
  assert ((unnamed_user <$> user_table a) !! id = Some (unnamed_user x)) as Hx by by rewrite lookup_fmap, E.
  apply (lookup_weaken _ (unnamed_user <$> user_table a')) in Hx; [|done]. rewrite lookup_fmap in Hx.
  destruct (user_table a' !! id) as [x'|]; [|done]. injection Hx as _ Eh _ _ _. intros [= <-] [= <-].
  unfold user_summary, called. cbn. by rewrite Eh.
Qed.

(** The seed determines the answer: earlier and later posts with one seed. *)
Lemma seed_determines_post st s s' h h' path path' slug view post post' seed : sound s -> sound s' -> later s s' ->
  post_at st s (article_site st h s) path slug view = Ok (post, seed) ->
  post_at st s' (article_site st h' s') path' slug view = Ok (post', seed) ->
  exists name, post' = by_author name post /\ (user_table (accounts s) ⊆ user_table (accounts s') -> post' = post).
Proof.
  intros [Hc Ha] [Hc' Ha'] [Hext Hev Hpace] (site & owner & doc & cat & Hsite & Howner & Hdoc & _ & -> & ->)%post_at_Ok
    (site' & owner' & doc' & cat' & Hsite' & Howner' & Hdoc' & _ & -> & E)%post_at_Ok.
  injection E as Erev Etheme _ _ Ecat.
  destruct (published_answer _ _ _ _ Hc Hdoc) as (d & r & Hd & Hds & _ & Hr & Hrd & Hst).
  destruct (published_answer _ _ _ _ Hc' Hdoc') as (d' & r' & Hd' & Hds' & _ & Hr' & Hrd' & Hst').
  rewrite <- Erev in Hr', Hst'.
  apply (lookup_weaken _ (revisions (tables s'))) in Hr; [|apply Hext]. assert (r' = r) as -> by congruence.
  assert (ds_revision doc' = ds_revision doc) as Erevision.
  { pose proof (st_decodes _ _ _ Hst) as D. rewrite (st_decodes _ _ _ Hst') in D. by injection D. }
  assert (ds_id doc' = ds_id doc) as Eid by congruence.
  destruct (ext_documents _ _ Hext _ _ Hd) as (d1 & Hd1 & Esite & _). rewrite Eid in Hd'. assert (d1 = d') as -> by congruence.
  apply article_site_loads in Hsite, Hsite'. assert (sit_id site' = sit_id site) as Es by congruence. rewrite Es in Hsite'.
  assert (site' = site) as ->.
  { symmetry. eapply (same_revision_same_site (unnamed (accounts s)) (unnamed (accounts s')));
      [by apply unnamed_wf|exact Hev|exact Hpace|exact Hsite|exact Hsite'|congruence]. }
  exists (ur_display_name owner'). split.
  - assert (user_summary owner' = called (ur_display_name owner') (user_summary owner)) as Eo
      by (eapply same_unnamed_user; [exact (ev_users _ _ Hev)|exact Howner|exact Howner']).
    unfold by_author, blog_post_view, blog_summary_with_css, blog_summary. cbn. rewrite Erevision, Eid, Eo. f_equal. symmetry. exact Ecat.
  - intros Husers. assert (owner' = owner) as -> by by symmetry; eapply same_user.
    unfold blog_post_view. rewrite Erevision, Eid. f_equal. symmetry. exact Ecat.
Qed.

(** ** Drafts and members *)

(** The account tables as far as public answers read them. *)
Definition same_owners (a a' : AccountDB) : Prop :=
  user_table a' = user_table a /\ site_table a' = site_table a /\ theme_table a' = theme_table a
  /\ forall site user, is_owner_of a' site user <-> is_owner_of a site user.
Lemma member_edit_keeps_owners o a : hidden (AccountDeed o) = true -> same_owners a (account_run o a).2.
Proof.
  assert (same_owners a a) as Hrefl by done.
  destruct o; try discriminate; intros _; cbn [account_run]; unfold Accounts.outcome; cbn [snd].
  - unfold add_site_collaborator. destruct (is_owner role) eqn:Hrole; [done|]. cbn.
    destruct (normalize_email email); [|done]. rewrite then_load_state. unfold transaction.
    destruct ((fetch _ ≫= _) a) as [[c d]|] eqn:E; [|done]. destruct (current_themes_exist d); [|done].
    inv_acc. unfold insert_membership in *. inv_sql. cbn. split_and!; [done..|].
    apply insert_member_owner; cbn; [by apply is_some_false|]. intros ->. done.
  - unfold remove_site_collaborator, transaction.
    destruct ((fetch _ ≫= _) a) as [[c d]|] eqn:E; [|done]. destruct (current_themes_exist d); [|done].
    inv_acc. unfold delete_membership, load_site_membership in *. inv_ok. cbn in *. split_and!; [done..|].
    eapply delete_member_owner; [eassumption|]. intros E. by rewrite E in *.
Qed.
Lemma load_site_owners a a' id : account_wf a -> account_wf a' -> same_owners a a' -> load_site_by_id id None a' = load_site_by_id id None a.
Proof.
  intros Hwf Hwf' (_ & Es & Et & Ho). unfold load_site_by_id, site_join. rewrite Es, Et.
  destruct (site_table a !! id) as [s|] eqn:Hs; [|done].
  destruct (awf_owner _ Hwf id) as [u Hu]; [eauto|].
  destruct (owner_row_found a id u Hwf Hu) as [m Hm]. destruct (owner_row_found a' id u Hwf' (proj2 (Ho id u) Hu)) as [m' Hm'].
  change (Some s ≫= ?k) with (k s). by rewrite Hm, Hm'.
Qed.
Lemma article_site_owners st handle s s' : sound s -> sound s' -> same_owners (accounts s) (accounts s') ->
  article_site st handle s' = article_site st handle s.
Proof.
  intros [_ Ha] [_ Ha'] Ho. destruct handle as [handle|]; cbn; unfold blog_of_handle, primary_blog, get_site_by_handle, get_site_by_id.
  - destruct (normalize_handle _ _) as [h|]; [|done]. cbn. destruct Ho as (Eu & Es & Ho). rewrite Es.
    destruct (find_row _ _) as [[id row]|]; [|done]. cbn. by apply load_site_owners.
  - by apply load_site_owners.
Qed.

(** Posts depend on the published rows only. *)
Lemma post_at_same st s s' site path slug view : sound s -> sound s' -> same_public (tables s) (tables s') ->
  user_table (accounts s') = user_table (accounts s) ->
  (forall w snap, get_published_by_slug w path (tables s) = Ok snap ->
     get_published_category w (ds_id snap) (tables s') = get_published_category w (ds_id snap) (tables s)) ->
  post_at st s' site path slug view = post_at st s site path slug view.
Proof.
  intros [Hc _] [Hc' _] Hpub Eu Hcat. unfold post_at. destruct site as [site|]; [|done].
  cbn -[get_published_by_slug get_published_category]. unfold get_user_by_id, load_user_by_id. rewrite Eu.
  destruct (user_table (accounts s) !! _) as [u|]; [|done]. cbn -[get_published_by_slug get_published_category].
  pose proof (public_view_same _ _ (sit_id site) path Hc Hc' Hpub) as E. specialize (Hcat (sit_id site)).
  destruct (get_published_by_slug (sit_id site) path (tables s)) as [snap|e];
    destruct (get_published_by_slug (sit_id site) path (tables s')) as [snap'|e']; cbn -[get_published_category] in *; try discriminate.
  - injection E as Eid _ _ _ Erev _ _. rewrite Eid, Hcat by done. unfold blog_post_view. by rewrite Eid, Erev.
  - congruence.
Qed.

(** A draft adds one revision with its placement and touches no published row. *)
Definition drafted db db' : Prop := db' = db \/ exists id rid d r p, revisions db !! rid = None
  /\ db' = set_placements (set_revisions (set_documents db (<[id := d]> (documents db))) (<[rid := r]> (revisions db)))
              (<[rid := p]> (revision_categories db))
  /\ ((documents db !! id = None /\ doc_published_revision_id d = None)
      \/ exists d0, documents db !! id = Some d0 /\ doc_site_id d = doc_site_id d0
          /\ doc_published_revision_id d = doc_published_revision_id d0 /\ doc_created_at d = doc_created_at d0).
Lemma draft_op_drafts o db : wf db -> hidden (ContentDeed o) = true -> drafted db (run o db).2.
Proof.
  intros Hwf. destruct o; try discriminate; intros _; cbn [run]; rewrite outcome_state.
  - unfold create_document_in_writable_site_with_category.
    match goal with |- drafted _ (StoreBase.transaction ?m db).2 => destruct (StoreBase.transaction m db) as [[snap|e] db'] eqn:E end.
    + apply transaction_Ok in E as [E _]. inv_tx.
      match goal with X : create_document_in_transaction _ _ _ _ _ _ _ = _ |- _ => apply (create_document_effect Hcodec) in X
        as (r & p & path & ? & ? & _ & _ & _ & _ & _ & _ & _ & _ & _ & _ & _ & _ & _ & _ & ->) end.
      right. eexists id, rid, _, r, p. split_and!; [done|reflexivity|]. by left.
    + rewrite (transaction_error _ _ _ _ E). by left.
  - unfold revise_document_in_writable_site_with_category.
    match goal with |- drafted _ (StoreBase.transaction ?m db).2 => destruct (StoreBase.transaction m db) as [[snap|e] db'] eqn:E end.
    + apply transaction_Ok in E as [E _]. inv_tx.
      match goal with X : append_revision_in_transaction_with_category _ _ _ _ _ = _ |- _ =>
        apply (append_effect Hcodec) in X as (d & base & r & p & path & Hd & _ & _ & ? & _ & _ & _ & _ & _ & _ & _ & _ & _ & _ & ->); [|done] end.
      right. eexists _, rid, _, r, p. split_and!; [done|reflexivity|]. right. by exists d.
    + rewrite (transaction_error _ _ _ _ E). by left.
Qed.
Lemma drafted_published_category db db' w path snap : wf db -> drafted db db' -> get_published_by_slug w path db = Ok snap ->
  get_published_category w (ds_id snap) db' = get_published_category w (ds_id snap) db.
Proof.
  intros Hwf [->|(id & rid & d & r & p & Hrid & -> & Hd)] Hsnap; [done|].
  destruct (published_answer _ _ _ _ Hwf Hsnap) as (d1 & r1 & Hd1 & Hw & Hp & Hr1 & _).
  unfold get_published_category, load_document_category. cbn.
  assert (exists d2, <[id := d]> (documents db) !! ds_id snap = Some d2 /\ doc_site_id d2 = doc_site_id d1
    /\ doc_published_revision_id d2 = doc_published_revision_id d1) as (d2 & -> & Es & Ep).
  { destruct (decide (id = ds_id snap)) as [->|]; [|rewrite lookup_insert_ne by done; eauto].
    rewrite lookup_insert_eq. exists d. destruct Hd as [[? _]|(d0 & ? & ? & ? & _)]; [congruence|]. split_and!; congruence. }
  rewrite Hd1. cbn. rewrite Ep, Hp. cbn. rewrite lookup_insert_ne by congruence. rewrite Es. done.
Qed.

(** What no answer shows leaves every post alone. *)
Lemma hidden_posts st d s handle path slug view : sound s -> hidden d = true ->
  post_at st (perform d s) (article_site st handle (perform d s)) path slug view
  = post_at st s (article_site st handle s) path slug view.
Proof.
  intros Hs Hh. destruct (perform_sound d s Hs) as [Hs' _]. destruct d as [o|o|]; [| |done].
  - rewrite (article_site_owners st handle s) by done. set (s' := perform _ s) in *.
    assert (drafted (tables s) (run o (tables s)).2) as Hdraft by (apply draft_op_drafts; [apply Hs|done]).
    apply post_at_same; [done|done| |done|].
    + change (same_public (tables s) (run o (tables s)).2).
      apply drafts_public, (run_drafts Hcodec); [apply Hs|]. by destruct o.
    + intros w snap Hw. exact (drafted_published_category _ _ w path snap (so_content _ Hs) Hdraft Hw).
  - pose proof (member_edit_keeps_owners o (accounts s) Hh) as Ho.
    rewrite (article_site_owners st handle s) by done. apply post_at_same; [done|done| |apply Ho|done].
    change (same_public (tables s) (tables s)). reflexivity.
Qed.

Lemma fresh_sound s : no_content (bl_content s) -> account_wf (accounts s) -> sound s.
Proof. intros Hc%no_content_wf Ha. split; [by apply wf_shared|done]. Qed.
Lemma performs_app ds ds' s : performs (ds ++ ds') s = performs ds' (performs ds s).
Proof. apply fold_left_app. Qed.

Context `{!ViewCodec}.
Definition seed_etag (seed : BlogPostEtagSeed) : rstr := [34%N] ++ lit "sha256:" ++ hex_digest (sha256 (seed_to_vec seed)) ++ [34%N].
Lemma post_response_Ok st hs s site path slug view r : post_response st hs s site path slug view = Ok r ->
  exists post seed, post_at st s site path slug view = Ok (post, seed) /\ pr_etag r = seed_etag seed
    /\ (pr_not_modified r = false -> pr_body r = body_to_vec (PostBody post)).
Proof.
  unfold post_response. destruct (post_at st s site path slug view) as [[post seed]|]; [|done]. cbn [map_err mbind result_bind].
  intros [= <-]. exists post, seed. split_and!; [done..|]. unfold public_json_with_seed, public_bytes. cbn. by intros ->.
Qed.

(** C24. A validator of a post stands for the whole answer up to the author's
    name: when the server answers for a post, after any history, and answers
    after any further deeds with the same [ETag] for the same requested slug
    and view, then the two bodies differ in nothing but the display name of
    the author; and not in that either when no import was carried out in
    between; whatever URL (of the blog or of the primary site, with or without
    a category) either request used; unless two different seeds collide in
    SHA-256.  The validator covers neither the body, the site nor the author:
    it names the revision, and the site's theme revision moves with every
    change of the site. Only an import renames a user, and nothing moves with
    that: see [BlogWitnesses.import_renames_under_the_same_etag]. *)
Theorem same_etag_same_post st hs hs' s0 ds ds' handle handle' path path' slug view r r' :
  no_content (bl_content s0) -> account_wf (accounts s0) ->
  let s := performs ds s0 in
  let s' := performs (ds ++ ds') s0 in
  post_response st hs s (article_site st handle s) path slug view = Ok r ->
  post_response st hs' s' (article_site st handle' s') path' slug view = Ok r' ->
  pr_not_modified r = false -> pr_not_modified r' = false -> pr_etag r = pr_etag r' ->
  (exists post name, pr_body r = body_to_vec (PostBody post) /\ pr_body r' = body_to_vec (PostBody (by_author name post))
     /\ (forallb keeps_names ds' = true -> by_author name post = post))
  \/ exists x y : BlogPostEtagSeed, x <> y /\ seed_etag x = seed_etag y.
Proof.
  intros Hc Ha s s' (post & seed & Hp & E & Hb)%post_response_Ok (post' & seed' & Hp' & E' & Hb')%post_response_Ok Hn Hn' Etag.
  destruct (performs_sound ds s0 (fresh_sound _ Hc Ha)) as [Hs _]. fold s in Hs.
  destruct (performs_sound ds' s Hs) as (Hs' & Hlater & Husers). unfold s in Hs', Hlater, Husers.
  rewrite <- performs_app in Hs', Hlater, Husers.
  destruct (decide (seed = seed')) as [<-|Hne]; [left|right; exists seed, seed'; split; congruence].
  destruct (seed_determines_post st s s' _ _ _ _ _ _ _ _ _ Hs Hs' Hlater Hp Hp') as (name & Epost & Hsame).
  exists post, name. rewrite Hb, Hb', <-Epost by done. split_and!; [done..|]. intros Hk. by apply Hsame, Husers.
Qed.

Lemma post_at_reads st s s' handle path slug view : same s s' ->
  post_at st s' (article_site st handle s') path slug view = post_at st s (article_site st handle s) path slug view.
Proof. intros [Ha Ht]. unfold post_at, article_site, blog_of_handle, primary_blog. by rewrite Ha, Ht. Qed.
(** C26. Drafting is invisible: after any history, imports included, a request of the studio that
  reads, previews, creates or revises a document, or edits the list of
  collaborators, whether it succeeds, is refused or fails, leaves the answer
  for every post as it was, byte for byte, with its status, validator and
  errors, whatever request headers a reader sends; so it needs not tell the
  response cache anything. *)
Theorem drafting_requests_leave_posts st guard_env env hs r reader_hs s0 ds handle path slug view :
  no_content (bl_content s0) -> account_wf (accounts s0) -> drafting r = true ->
  let s := performs ds s0 in
  let s' := (studio st guard_env env hs r s).2 in
  post_response st reader_hs s' (article_site st handle s') path slug view
  = post_response st reader_hs s (article_site st handle s) path slug view.
Proof.
  intros Hc Ha Hr s s'. destruct (performs_sound ds s0 (fresh_sound _ Hc Ha)) as [Hs _]. fold s in Hs.
  unfold post_response. replace (post_at st s' (article_site st handle s') path slug view)
    with (post_at st s (article_site st handle s) path slug view); [done|symmetry].
  destruct (studio_handled st guard_env env hs r s) as [Hsame|(_ & _ & s1 & Hs1 & E)]; [by apply post_at_reads|].
  unfold s'. rewrite E. destruct (drafting_handle st env hs s r Hr s1 Hs1) as [Hsame|(d & Hd & Hsame & _)]; [by apply post_at_reads|].
  rewrite (post_at_reads st (perform d s)) by done. by apply hidden_posts.
Qed.
End history.
