(* ===== verification/BlogWitnesses.v ===== *)
(** * The blog and its studio at concrete inputs

    A deployment whose owner finished the setup, signed in and published a
    post; then drafts, a theme change, an import. *)

From Stdlib Require Import Bool NArith ZArith Lia.
From S2P Require Import Prelude Text Extern Content Renderer Comments SocialEmbeds Seo StoreBase StoreTaxonomy StoreContent StoreFeed Accounts AccountsSpec AccountsRefine AccountsTheorems AccountsWitnesses OfflineImport StoreSpec Samples Store Admission Signing CacheHttp Auth AuthTheorems AuthWitnesses Features Blog Studio StudioTheorems BlogTheorems.
Import ToySigning.
Import ToyHttp.
Import Toy.

(** Markdown without markup: one text event. *)
#[export] Instance toy_markdown : MarkdownLib := {
  OtherEvent := unit;
  markdown_events _ source := [EventText source];
  push_html events := mjoin ((fun e => match e with EventText t | EventHtml t => t | _ => [] end) <$> events);
}.
#[export] Instance toy_ammonia : AmmoniaLib := fun _ html => html.
#[export] Instance toy_segments : PathSegmentsLib := fun _ => None.
(** The identifying texts of a post; other bodies are not compared here. *)
#[export] Instance toy_views : ViewCodec := {
  body_to_vec body := match body with
                      | PostBody v => pv_title v ++ lit "|" ++ pv_markdown v ++ lit "|" ++ bs_title (pv_blog v)
                                      ++ lit "|" ++ um_display_name (pv_author v)
                      | _ => []
                      end;
  seed_to_vec seed := [es_revision_id seed; Z.to_N (es_theme_revision seed)] ++ es_artifact_hash seed;
}.

Definition config : BlogConfig := {|
  bc_app := deployment; bc_comments_enabled := true; bc_custom_css_enabled := true;
  bc_seo_policy := {| seo_public_url := public_url; seo_article_base_path := lit "blog"; seo_no_index := false |};
  bc_features := [] |}.
Definition empty_blog : Blog := {|
  bl_server := empty_server; bl_content := Build_DB ∅ ∅ ∅ ∅ ∅ ∅ ∅ ∅ ∅ ∅ ∅ ∅ None ∅; bl_public_mutations := 0 |}.
Definition first_post : NewDocument := {|
  nd_site_id := 1; nd_title := lit "Title"; nd_slug := lit "hello"; nd_source_markdown := lit "Body";
  nd_embeds := []; nd_intent := None; nd_ontology := None; nd_ai_summary := None;
  nd_authorship := default_authorship; nd_actor := author |}.
Definition opening : list deed :=
  [AccountDeed (ProvisionPrimaryOwnerSite AccountsWitnesses.home ModeAccessKey (binding_fingerprint by_key) 10 10);
   AccountDeed (CreatePrimaryOwnerSession (sha256 (repeat 8%N 32)) 1000 MethodAccessKey (binding_fingerprint by_key) 40 20 20 21);
   AccountDeed (CompletePrimaryOwnerSetup 1 (lit "garden") (lit "Garden") None Forest 32 32 33);
   ContentDeed (CreateInWritableSite 1 first_post None 10 20 100);
   ContentDeed (PublishInOwnedSite 1 1 10 20 110)].
Definition open_blog : Blog := performs opening empty_blog.
Definition studio_env (t : Z) (id : N) : BlogEnv := {| be_env := env t 0; be_id := fun n => (id + N.of_nat n)%N |}.
Definition the_post s := post_response config [] s (article_site config (Some (lit "garden")) s) (lit "hello") (lit "hello") ViewIntent.
Definition bodies (r : result CommunityApiError PublicResponse) : option (list N) := to_option (pr_body <$> r).

Example the_post_is_served : bodies (the_post open_blog) = Some (lit "Title|Body|Garden|Owner").
Proof. vm_compute. reflexivity. Qed.
#[local] Opaque performs studio post_response.

Lemma empty_blog_fresh : no_content (bl_content empty_blog) /\ account_wf (accounts empty_blog).
Proof. split; [by split_and!|apply no_accounts_wf]. Qed.
(** The export of another blog, whose owner went by another name. *)
Definition renaming_batch : OfflineImportBatch := {|
  oib_source := lit "wordpress"; oib_owner_display_name := lit "Ada";
  oib_categories := [{| oic_slug := lit "guides"; oic_title := lit "Guides"; oic_description := None |}];
  oib_posts := [{| oip_source_id := lit "p1"; oip_title := lit "Old post"; oip_slug := lit "one"; oip_source_markdown := lit "text";
    oip_created_at := 40; oip_author_id := lit "a1"; oip_author_display_name := lit "Ada"; oip_primary_category := lit "guides";
    oip_human_reviewed := true; oip_aliases := [] |}] |}.
Definition import_renaming : deed :=
  ImportDeed (fun n => 300 + n)%N (fun n => (100 + n, 200 + n)%N) 1 1 renaming_batch [lit "blog"] false 500.
Definition more_work : list deed :=
  [ContentDeed (ReviseInWritableSite 1 1 (sample_revision 10 20 (lit "hello") None) None 21 120);
   AccountDeed (CreateUser (lit "b@example.org") (lit "reader") (lit "B") (lit "$argon2id$x") 2 130); import_renaming].
Definition the_primary_post s := post_response config [] s (article_site config None s) (lit "hello") (lit "hello") ViewIntent.
(** Refute a failed answer by evaluation. *)
Ltac served E := exfalso; apply (f_equal is_ok) in E; vm_compute in E; discriminate E.

Lemma same_etag_same_post_witness :
  match the_post open_blog, the_primary_post (performs (opening ++ more_work) empty_blog) with
  | Ok r, Ok r' => pr_etag r = pr_etag r'
      /\ ((exists post name, pr_body r = body_to_vec (PostBody post) /\ pr_body r' = body_to_vec (PostBody (by_author name post))
            /\ (forallb keeps_names more_work = true -> by_author name post = post))
          \/ exists x y : BlogPostEtagSeed, x <> y /\ seed_etag x = seed_etag y)
  | _, _ => False
  end.
Proof.
  destruct (the_post open_blog) as [r|e] eqn:E; [|served E].
  destruct (the_primary_post (performs (opening ++ more_work) empty_blog)) as [r'|e'] eqn:E'; [|served E'].
  assert ((pr_etag <$> the_post open_blog) = (pr_etag <$> the_primary_post (performs (opening ++ more_work) empty_blog))) as Htag
    by (vm_compute; reflexivity).
  assert ((pr_not_modified <$> the_post open_blog) = Ok false
          /\ (pr_not_modified <$> the_primary_post (performs (opening ++ more_work) empty_blog)) = Ok false) as [Hn Hn']
    by (split; vm_compute; reflexivity).
  rewrite E, E' in Htag. rewrite E in Hn. rewrite E' in Hn'. cbn in Htag, Hn, Hn'. injection Htag as Htag. injection Hn as Hn. injection Hn' as Hn'.
  split; [exact Htag|].
  apply (same_etag_same_post toy_codec_roundtrip config [] [] empty_blog opening more_work (Some (lit "garden")) None
           (lit "hello") (lit "hello") (lit "hello") ViewIntent r r'); try assumption; apply empty_blog_fresh.
Defined.

Definition draft_input : StudioDocumentInput := {|
  si_title := lit "Next"; si_slug := lit "next"; si_source_markdown := lit "Soon"; si_embeds := []; si_intent := None;
  si_ontology := None; si_ai_summary := None; si_category_id := None; si_authorship := default_authorship |}.
Definition drafted_next := studio config (studio_env 200 0) (studio_env 200 50) (presenting 8) (CreateStudioDocument draft_input) open_blog.
Lemma drafting_requests_leave_posts_witness :
  is_ok drafted_next.1 = true /\ the_post drafted_next.2 = the_post open_blog.
Proof.
  split; [vm_compute; reflexivity|]. unfold the_post, drafted_next, open_blog.
  apply (drafting_requests_leave_posts toy_codec_roundtrip config (studio_env 200 0) (studio_env 200 50) (presenting 8)
           (CreateStudioDocument draft_input) [] empty_blog opening (Some (lit "garden")) (lit "hello") (lit "hello") ViewIntent).
  - apply empty_blog_fresh.
  - apply empty_blog_fresh.
  - reflexivity.
Defined.

(** The owner publishes the draft; the request tells the cache.  Somebody
    without a session cannot. *)
Definition published_next hs := studio config (studio_env 210 0) (studio_env 210 60) hs (PublishStudioDocument 50 51) drafted_next.2.
Example only_the_session_publishes :
  is_ok (published_next (presenting 8)).1 = true
  /\ bl_public_mutations (published_next (presenting 8)).2 = 1%N
  /\ bodies (post_response config [] (published_next (presenting 8)).2
               (article_site config None (published_next (presenting 8)).2) (lit "next") (lit "next") ViewIntent)
     = Some (lit "Next|Soon|Garden|Owner")
  /\ published_next (presenting 9) = (Err Unauthorized, drafted_next.2).
Proof. split_and!; vm_compute; reflexivity. Qed.

(** The validator of a post does not cover the author's name, and the offline
    import may rename the owner: a reader who revalidates keeps the old name. *)
Definition imported_blog : Blog := performs (opening ++ [import_renaming]) empty_blog.
Theorem import_renames_under_the_same_etag :
  bodies (the_post open_blog) = Some (lit "Title|Body|Garden|Owner")
  /\ bodies (the_post imported_blog) = Some (lit "Title|Body|Garden|Ada")
  /\ (pr_etag <$> the_post imported_blog) = (pr_etag <$> the_post open_blog).
Proof. split_and!; vm_compute; reflexivity. Qed.
