(* ===== verification/ContentApi.v ===== *)
(** * The content API: what the owner's tools and the agent may do

    [apps/server/src/main.rs]: the machine-readable posts, and the routes
    behind the administrator guard that create, revise and publish documents
    of the configured site.  The guard names the principal; an agent is
    recorded as the actor of what it writes. *)

From Stdlib Require Import Bool NArith ZArith Lia.
From S2P Require Import Prelude Text Extern Content Ai2Ai Renderer SocialEmbeds Seo StoreBase StoreTaxonomy StoreContent StoreFeed Accounts Signing CacheHttp Auth Features Blog Studio.

(** [axum]: [Path<Uuid>] of a segment of the request's path, which is
    percent-decoded before it is parsed. *)
Class PathLib := path_uuid : rstr -> option Uuid.

Section api.
Context `{!UrlLib, !PathSegmentsLib, !OriginLib, !DigestLib, !Base64Engine, !SerdeJson, !HeaderLib, !Argon2Lib, !Sha256Lib, !MarkdownLib,
  !AmmoniaLib, !StoreCodec, !LayerCodec, !UuidLib, !PathLib}.
Implicit Types (st : BlogConfig) (env : BlogEnv) (hs : Headers) (s : Blog).

(** ** Requests and replies *)

Record CreatePostRequest := {
  cq_title : rstr; cq_slug : rstr; cq_source_markdown : rstr; cq_embeds : list EmbedReference; cq_intent : option IntentLayer;
  cq_ontology : option OntologySidecar; cq_ai_summary : option AiSummary; cq_authorship : option PublicAuthorship }.
Record ProposeRevisionRequest := {
  pq_base_revision_id : Uuid; pq_title : rstr; pq_slug : rstr; pq_source_markdown : rstr; pq_embeds : list EmbedReference;
  pq_intent : option IntentLayer; pq_ontology : option OntologySidecar; pq_ai_summary : option AiSummary;
  pq_authorship : option PublicAuthorship; pq_idempotency_key : option rstr }.
Record PostSummary := {
  pm_id : Uuid; pm_title : rstr; pm_slug : rstr; pm_route_path : rstr; pm_api_href : rstr; pm_source_href : rstr;
  pm_updated_at : DateTime; pm_has_intent_view : bool; pm_has_ontology : bool; pm_authorship : PublicAuthorship }.
Record PostView := {
  po_id : Uuid; po_title : rstr; po_canonical_slug : rstr; po_requested_slug : rstr; po_revision_id : Uuid; po_markdown : rstr;
  po_embeds : list EmbedReference; po_artifact : PublishArtifact; po_ontology : option OntologySidecar;
  po_ai_summary : option AiSummary; po_authorship : PublicAuthorship }.
Inductive ContentReply :=
| DocumentsListed (documents : list DocumentSnapshot)
| DocumentRead (document : DocumentSnapshot)
| RevisionsListed (revisions : list RevisionSnapshot)
| PostCreated (document : DocumentSnapshot)
| RevisionProposed (revision : RevisionSnapshot)
| RevisionPublished (document : DocumentSnapshot)
| ProposalAccepted (revision : RevisionSnapshot).

(** ** Principals *)

Definition principal_actor (p : MutationPrincipal) : RevisionActor :=
  match p with
  | HumanOwner => {| ra_kind := Human; ra_id := lit "owner"; ra_display_name := None |}
  | McpAgent => {| ra_kind := Agent; ra_id := lit "osb-mcp"; ra_display_name := None |}
  end.
Definition resolve_authorship (p : MutationPrincipal) (authorship : option PublicAuthorship) : result ApiError PublicAuthorship :=
  match p, authorship with
  | McpAgent, None => Err (ApiBadRequest (lit "MCP create and revise requests require explicit public authorship"))
  | _, Some authorship => Ok authorship
  | HumanOwner, None => Ok default_authorship
  end.

(** ** Public posts *)

Definition seo_message (e : SeoError) : rstr :=
  match e with
  | Seo.InvalidSlug => lit "article slug is unsafe"
  | CannotBeBaseUrl => lit "configured public URL cannot own path segments"
  | InvalidPublicUrl => lit "public URL must use HTTP or HTTPS"
  | InvalidBasePath => lit "article base path contains an unsafe segment"
  | InvalidResourcePath => lit "public resource path is unsafe"
  end.
Definition unsafe_route_segment (segment : rstr) : bool := is_empty segment || contains_char 92 segment || existsb is_control segment.
Definition machine_post_href (policy : SeoPolicy) (route_path : rstr) (markdown_source : bool) : result ApiError rstr :=
  map_err (fun e => ApiInternal (seo_message e)) (Seo.validate policy);;
  let route_segments := split 47 route_path in
  fail_if (negb (within 1 2 (size_of route_segments)) || existsb unsafe_route_segment route_segments)
    (ApiInternal (lit "persisted post route contains an unsafe path"));;
  url ← ok_or (url_push_segments (seo_public_url policy)
                 ([lit "api"; lit "v1"; lit "posts"] ++ route_segments ++ (if markdown_source then [lit "source.md"] else [])))
          (ApiInternal (lit "public URL cannot own path segments"));
  Ok (url_as_str url).
Definition listed_post (db : DB) (site_id : Uuid) (document : DocumentSnapshot) : result RepositoryError (DocumentSnapshot * rstr) :=
  category ← get_published_category site_id (ds_id document) db;
  Ok (document, match (category : option CategoryRecord) with
                | Some category => cr_slug category ++ lit "/" ++ rs_slug (ds_revision document)
                | None => rs_slug (ds_revision document)
                end).
Definition post_summary st (listed : DocumentSnapshot * rstr) : result ApiError PostSummary :=
  let '(document, route_path) := listed in
  let revision := ds_revision document in
  api_href ← machine_post_href (bc_seo_policy st) route_path false;
  source_href ← machine_post_href (bc_seo_policy st) route_path true;
  Ok {| pm_id := ds_id document; pm_title := rs_title revision; pm_slug := rs_slug revision; pm_route_path := route_path;
        pm_api_href := api_href; pm_source_href := source_href; pm_updated_at := ds_updated_at document;
        pm_has_intent_view := is_some (rs_intent revision); pm_has_ontology := is_some (rs_ontology revision);
        pm_authorship := rs_authorship revision |}.
Definition list_posts st s : result ApiError (list PostSummary) :=
  let site_id := as_site_id (bc_app st) in
  documents ← map_err ApiRepository (
    documents ← list_published site_id 100 (tables s);
    traverse (listed_post (tables s) site_id) documents);
  traverse (post_summary st) documents.

Definition get_post_by_route st (route_path : rstr) (view : ViewMode) s : result ApiError PostView :=
  document ← map_err ApiRepository (get_published_by_slug (as_site_id (bc_app st)) route_path (tables s));
  let revision := ds_revision document in
  Ok {| po_id := ds_id document; po_title := rs_title revision; po_canonical_slug := rs_slug revision;
        po_requested_slug := route_path; po_revision_id := rs_id revision; po_markdown := rs_source_markdown revision;
        po_embeds := rs_embeds revision; po_artifact := render_revision revision view; po_ontology := rs_ontology revision;
        po_ai_summary := publishable_ai_summary revision; po_authorship := rs_authorship revision |}.
Definition get_post st (slug : rstr) (view : option ViewMode) s : result ApiError PostView :=
  get_post_by_route st slug (default ViewIntent view) s.
Definition get_categorized_post st (category slug : rstr) (view : option ViewMode) s : result ApiError PostView :=
  get_post_by_route st (category ++ lit "/" ++ slug) (default ViewIntent view) s.
Definition get_markdown_source_by_route st (route_path : rstr) s : result ApiError rstr :=
  document ← map_err ApiRepository (get_published_by_slug (as_site_id (bc_app st)) route_path (tables s));
  Ok (rs_source_markdown (ds_revision document)).

(** ** Guarded handlers *)

Definition api : Type -> Type := step ApiError.
Definition api_task {A} (m : task A) : api A := step_map_err ApiRepository m.
Definition configured_site st : Uuid := as_site_id (bc_app st).
(** The document belongs to the configured site. *)
Definition on_this_site st (document_id : Uuid) : task DocumentSnapshot :=
  document ← look (fun s => get_document document_id (tables s));
  look (fun _ => ensure (ds_site_id document =? configured_site st)%N NotFound);;
  mret document.
Definition embeds_allowed st (embeds : list EmbedReference) : api unit :=
  check (if is_active (lit "social_embeds") (bc_features st) then map_err ApiBadRequest (validate_official_embeds embeds) else Ok tt).

Definition list_admin_documents st : api ContentReply :=
  api_task (look (fun s => DocumentsListed <$> list_documents (configured_site st) 500 (tables s))).
Definition get_admin_document st (document_id : Uuid) : api ContentReply :=
  document ← api_task (on_this_site st document_id);
  mret (DocumentRead document).
Definition list_admin_revisions st (document_id : Uuid) : api ContentReply :=
  api_task (
    on_this_site st document_id;;
    look (fun s => RevisionsListed <$> list_revisions document_id 1000 (tables s))).

Definition post_document st (p : MutationPrincipal) (input : CreatePostRequest) (authorship : PublicAuthorship) : NewDocument := {|
  nd_site_id := configured_site st; nd_title := cq_title input; nd_slug := cq_slug input; nd_source_markdown := cq_source_markdown input;
  nd_embeds := cq_embeds input; nd_intent := cq_intent input; nd_ontology := cq_ontology input;
  nd_ai_summary := cq_ai_summary input; nd_authorship := authorship; nd_actor := principal_actor p |}.
Definition create_post st env (p : MutationPrincipal) (input : CreatePostRequest) : api ContentReply :=
  embeds_allowed st (cq_embeds input);;
  authorship ← check (resolve_authorship p (cq_authorship input));
  begin_public_mutation st;;
  api_task (
    write_accounts (ensure_legacy_site (configured_site st) (clock env 1));;
    document ← write_content (create_document (post_document st p input authorship) (be_id env 0) (be_id env 1) (clock env 2));
    mret (PostCreated document)).
Definition post_revision (p : MutationPrincipal) (document_id : Uuid) (input : ProposeRevisionRequest) (authorship : PublicAuthorship)
    : ProposedRevision := {|
  pr_document_id := document_id; pr_base_revision_id := pq_base_revision_id input; pr_title := pq_title input;
  pr_slug := pq_slug input; pr_source_markdown := pq_source_markdown input; pr_embeds := pq_embeds input;
  pr_intent := pq_intent input; pr_ontology := pq_ontology input; pr_ai_summary := pq_ai_summary input;
  pr_authorship := authorship; pr_actor := principal_actor p; pr_idempotency_key := pq_idempotency_key input |}.
Definition propose_revision st env (p : MutationPrincipal) (document_id : Uuid) (input : ProposeRevisionRequest) : api ContentReply :=
  embeds_allowed st (pq_embeds input);;
  authorship ← check (resolve_authorship p (pq_authorship input));
  api_task (
    on_this_site st document_id;;
    revision ← write_content (append_revision (post_revision p document_id input authorship) (be_id env 0) (clock env 1));
    mret (RevisionProposed revision)).
Definition ai2ai_proposal st env (envelope : Ai2AiEnvelope) : api ContentReply :=
  check (ensure (is_active (lit "ai_authorship") (bc_features st)) (ApiRepository NotFound));;
  check (map_err (fun e => ApiBadRequest (envelope_error_message e)) (envelope_validate (clock env 1) envelope));;
  embeds_allowed st (pr_embeds (env_proposal envelope));;
  api_task (
    on_this_site st (pr_document_id (env_proposal envelope));;
    revision ← write_content (append_ai_proposal envelope (be_id env 0) (clock env 2));
    mret (ProposalAccepted revision)).
Definition publish_revision st env (document_id revision_id : Uuid) : api ContentReply :=
  begin_public_mutation st;;
  api_task (
    on_this_site st document_id;;
    document ← write_content (publish document_id revision_id (clock env 1));
    mret (RevisionPublished document)).

(** ** Routes *)

(** The guarded content routes with their bodies, after [Json] has read them. *)
Inductive ContentCall :=
| ListAdminDocuments
| GetAdminDocument (segment : rstr)
| ListAdminRevisions (segment : rstr)
| CreatePost (input : CreatePostRequest)
| ProposeRevision (segment : rstr) (input : ProposeRevisionRequest)
| PublishRevision (segment : rstr) (revision_id : Uuid)
| SubmitAi2Ai (envelope : Ai2AiEnvelope).
Definition call_method (c : ContentCall) : Method :=
  match c with ListAdminDocuments | GetAdminDocument _ | ListAdminRevisions _ => GET | _ => POST end.
Definition call_path (c : ContentCall) : rstr :=
  match c with
  | ListAdminDocuments => lit "/api/v1/admin/documents"
  | GetAdminDocument segment => lit "/api/v1/admin/documents/" ++ segment
  | ListAdminRevisions segment => lit "/api/v1/admin/documents/" ++ segment ++ lit "/revisions"
  | CreatePost _ => lit "/api/v1/posts"
  | ProposeRevision segment _ => lit "/api/v1/documents/" ++ segment ++ lit "/revisions"
  | PublishRevision segment _ => lit "/api/v1/documents/" ++ segment ++ lit "/publish"
  | SubmitAi2Ai _ => lit "/api/v1/ai2ai/proposals"
  end.
(** [Rejected]: the router's own answer to a segment that is no identifier. *)
Inductive ContentFailure := Rejected | Failed (error : ApiError).
Definition with_id {A} (segment : rstr) (k : Uuid -> api A) : step ContentFailure A :=
  id ← check (ok_or (path_uuid segment) Rejected);
  step_map_err Failed (k id).
Definition content_call st env (p : MutationPrincipal) (c : ContentCall) : step ContentFailure ContentReply :=
  match c with
  | ListAdminDocuments => step_map_err Failed (list_admin_documents st)
  | GetAdminDocument segment => with_id segment (get_admin_document st)
  | ListAdminRevisions segment => with_id segment (list_admin_revisions st)
  | CreatePost input => step_map_err Failed (create_post st env p input)
  | ProposeRevision segment input => with_id segment (fun id => propose_revision st env p id input)
  | PublishRevision segment revision_id => with_id segment (fun id => publish_revision st env id revision_id)
  | SubmitAi2Ai envelope => step_map_err Failed (ai2ai_proposal st env envelope)
  end.
Definition call_principal st guard_env hs (c : ContentCall) s : result ApiError MutationPrincipal :=
  admin_guard (bc_app st) (be_env guard_env) hs (call_method c) (bool_decide (call_method c = GET)) (call_path c) (accounts s).
Definition content_api st guard_env env hs (c : ContentCall) : step ContentFailure ContentReply :=
  p ← (fun s => (map_err Failed (call_principal st guard_env hs c s), s));
  content_call st env p c.
End api.
