(* ===== verification/ContentApiTheorems.v ===== *)
(** * What the content API guarantees

    The listing leads to the posts it lists; and whatever a caller behind the
    administrator guard asks for, the changes stay on the configured site and
    carry the caller's name. *)

From Stdlib Require Import Bool NArith ZArith Lia.
From S2P Require Import Prelude Text Extern Content Ai2Ai Renderer SocialEmbeds Seo StoreBase StoreTaxonomy StoreContent StoreFeed Accounts AccountsSpec AccountsRefine StoreSpec StoreRefine Store StoreTheorems FeedTheorems Signing CacheHttp Auth AuthTheorems Features Blog Studio StudioTheorems BlogTheorems ContentApi.

(** ** The listing *)

Section listing.
Context `{!UrlLib, !StoreCodec, !Sha256Lib, !LayerCodec}.

Definition published_key (site : Uuid) (_ : Uuid) (d : DocumentRow) : bool := (doc_site_id d =? site)%N.
Lemma published_key_found db site id d : wf db -> documents db !! id = Some d -> doc_site_id d = site ->
  is_Some (doc_published_revision_id d) -> id ∈ (published_keys db (published_key site)).*1.
Proof.
  intros Hwf Hd Hs [pid Hp]. destruct (wf_published _ (wf_is_chain _ Hwf) _ _ _ Hd Hp) as (r & Hr & _).
  apply list_elem_of_fmap. exists (id, rev_created_at r). split; [done|]. apply list_elem_of_omap.
  exists (id, d). split; [by apply elem_of_map_to_list|]. cbn. unfold published_at, published_key.
  rewrite (is_public_wf db id d), Hp, Hs, N.eqb_refl by done. cbn. by rewrite Hr.
Qed.
Lemma published_key_site db site k : k ∈ published_keys db (published_key site) ->
  exists d, documents db !! k.1 = Some d /\ doc_site_id d = site.
Proof.
  intros ([id d] & Hd%elem_of_map_to_list & E)%list_elem_of_omap. cbn in E. destruct (_ && _) eqn:Eb; [|done]. bool_simpl.
  destruct (published_at db d); [|done]. injection E as <-. exists d. split; [done|by apply N.eqb_eq].
Qed.

(** The newest [n] published documents of the site, each one once. *)
Lemma list_published_spec db site n : wf db -> (n <= 500)%N -> exists snaps,
  list_published site n db = Ok snaps /\ NoDup (ds_id <$> snaps)
  /\ Forall (fun snap => shown db snap /\ exists d, documents db !! ds_id snap = Some d /\ doc_site_id d = site) snaps
  /\ ((forall id d, documents db !! id = Some d -> doc_site_id d = site -> is_Some (doc_published_revision_id d) ->
         id ∈ ds_id <$> snaps) \/ size_of snaps = n).
Proof.
  intros Hwf Hn. unfold list_published. rewrite N.min_l by done. set (keys := order_by _ _).
  assert (keys ≡ₚ published_keys db (published_key site)) as Hkeys by apply order_by_Permutation.
  rewrite <-(traverse_fmap fst (fun id => load_document id PublishedRevision db)).
  destruct (load_public_ids db (limit n keys).*1) as (snaps & Hl & Hi & Hf); [done| |].
  { apply Forall_fmap. eapply sublist_Forall; [apply limit_sublist|]. rewrite Hkeys. by apply published_keys_public. }
  exists snaps. split_and!; [done|..].
  - rewrite Hi. eapply sublist_keys_NoDup; [apply limit_sublist|]. rewrite Hkeys. apply published_keys_NoDup.
  - assert (Forall (fun id => exists d, documents db !! id = Some d /\ doc_site_id d = site) (ds_id <$> snaps)) as Hsites.
    { rewrite Hi. apply Forall_fmap. eapply sublist_Forall; [apply limit_sublist|]. rewrite Hkeys. apply Forall_forall.
      intros k Hk. by apply published_key_site. }
    rewrite Forall_fmap in Hsites. by apply Forall_and.
  - destruct (decide (n <= size_of keys)%N) as [Hle|Hle].
    + right. apply (f_equal length) in Hi. rewrite !length_fmap in Hi. unfold size_of in *. rewrite Hi. unfold limit.
      rewrite length_take. lia.
    + left. intros id d Hd Hs Hp. rewrite Hi. unfold limit. rewrite take_ge by (unfold size_of in Hle; lia).
      rewrite Hkeys. by eapply published_key_found.
Qed.

(** The path of a listed document leads back to it. *)
Lemma listed_path db site snap d : wf db -> shown db snap -> documents db !! ds_id snap = Some d -> doc_site_id d = site ->
  exists p r path, listed_post db site snap = Ok (snap, path) /\ get_published_by_slug site path db = Ok snap
  /\ revisions db !! rs_id (ds_revision snap) = Some r /\ rs_slug (ds_revision snap) = rev_slug r
  /\ placement_path db p (rev_slug r) = Some path.
Proof.
  intros Hwf [_ Hload] Hd <-. destruct (doc_published_revision_id d) as [pid|] eqn:Hp;
    [|by rewrite (load_unpublished db _ d) in Hload].
  destruct (load_published db _ d pid Hwf Hd Hp) as (r & x & Hr & Hrd & Hst & Hl).
  rewrite Hload in Hl. injection Hl as Esnap.
  destruct (wf_canonical_exists _ (wf_is_paths _ Hwf) _ _ _ _ Hd Hp Hr) as (p & path & rt & Hpl & Hpath & Hrt & Hid & _).
  destruct (wf_placement _ (wf_is_paths _ Hwf) _ _ d Hr) as (p' & Hpl' & Hpd & Hps & Hcat); [by rewrite Hrd|].
  assert (p' = p) as -> by congruence. exists p, r, path.
  assert (rs_id (ds_revision snap) = pid /\ rs_slug (ds_revision snap) = rev_slug r) as [Eid Eslug].
  { rewrite Esnap. cbn. split; [by apply Hst|by apply Hst]. }
  pose proof (get_published_route db (doc_site_id d) path Hwf) as G. rewrite Hrt, Hid, Hload in G.
  rewrite Eid. split_and!; try done. unfold listed_post, get_published_category, load_document_category. cbn.
  rewrite Hd. cbn. rewrite Hp. cbn. rewrite Hpl. cbn. rewrite Hpd, Hps, Hrd, !N.eqb_refl. cbn. rewrite Eslug.
  unfold placement_path in Hpath. destruct (pl_category_id p) as [c|] eqn:Ec; cbn; [|by injection Hpath as <-].
  destruct (Hcat c eq_refl) as (row & Hrow & Hrs). unfold load_category_by_id. rewrite Hrow in *. cbn in Hpath |- *.
  rewrite Hrs, N.eqb_refl. cbn. by injection Hpath as <-.
Qed.
End listing.

(** ** The links of the listing *)

Lemma handle_byte_plain c : StoreTaxonomy.handle_byte c = true -> c <> 47%N /\ c <> 92%N /\ is_control c = false.
Proof.
  unfold StoreTaxonomy.handle_byte, is_ascii_lowercase, is_ascii_digit, is_control, in_range.
  rewrite <-not_true_iff_false, !orb_true_iff, !andb_true_iff, N.eqb_eq, !N.leb_le. lia.
Qed.
Lemma category_slug_plain slug : category_slug_checks slug = true -> (47%N ∉ slug) /\ unsafe_route_segment slug = false.
Proof.
  unfold category_slug_checks, within. intros Hs. bool_simpl.
  match goal with X : forallb StoreTaxonomy.handle_byte slug = true |- _ => rewrite forallb_Forall in X; rename X into Hb end.
  rewrite Forall_forall in Hb. assert (forall c, c ∈ slug -> c <> 47%N /\ c <> 92%N /\ is_control c = false) as Hp.
  { intros c Hc. by apply handle_byte_plain, Hb. }
  split; [intros Hc; by apply Hp in Hc as [? _]|]. unfold unsafe_route_segment. rewrite !orb_false_iff. split_and!.
  - destruct slug; [change (char_count []) with 0%N in *; lia|done].
  - apply contains_char_false. intros Hc. by apply Hp in Hc as (_ & ? & _).
  - apply existsb_false, Forall_forall. intros c Hc. by apply Hp.
Qed.
Lemma safe_segment_plain slug : safe_segment slug -> (47%N ∉ slug) /\ unsafe_route_segment slug = false.
Proof.
  intros (Hne & H47 & H92 & _ & Hc & _). split; [done|]. unfold unsafe_route_segment. rewrite !orb_false_iff. split_and!.
  - by destruct slug.
  - by apply contains_char_false.
  - by apply existsb_false.
Qed.

Section links.
Context `{!UrlLib, !PathSegmentsLib, !OriginLib, !DigestLib, !Base64Engine, !SerdeJson, !HeaderLib, !Argon2Lib, !Sha256Lib, !MarkdownLib,
  !AmmoniaLib, !StoreCodec, !LayerCodec, !UuidLib, !PathLib}.
Implicit Types (st : BlogConfig) (env : BlogEnv) (hs : Headers) (s : Blog).

(** The public URL can be extended by path segments, as a URL with a host can. *)
Definition extensible (policy : SeoPolicy) : Prop :=
  Seo.validate policy = Ok tt /\ forall segments, is_Some (url_push_segments (seo_public_url policy) segments).
Lemma machine_post_href_Ok policy segments source : extensible policy ->
  (size_of segments = 1 \/ size_of segments = 2)%N -> Forall (fun p => (47%N ∉ p) /\ unsafe_route_segment p = false) segments ->
  exists href, machine_post_href policy (join [47%N] segments) source = Ok href.
Proof.
  intros [Hv Hpush] Hsize [Hp Hs]%Forall_and. unfold machine_post_href. rewrite Hv. cbn [map_err mbind result_bind].
  rewrite split_join_inv by (exact Hp || (intros ->; by destruct Hsize)).
  assert (existsb unsafe_route_segment segments = false) as -> by by apply existsb_false.
  assert (within 1 2 (size_of segments) = true) as -> by by destruct Hsize as [-> | ->].
  cbn. destruct (Hpush (lit "api" :: lit "v1" :: lit "posts" :: segments ++ (if source then [lit "source.md"] else []))) as [u Hu].
  cbn in Hu |- *. rewrite Hu. by eexists.
Qed.
Lemma placed_path_href db policy p slug path source : wf db -> extensible policy -> safe_segment slug ->
  placement_path db p slug = Some path -> exists href, machine_post_href policy path source = Ok href.
Proof.
  intros Hwf Hp Hs%safe_segment_plain. unfold placement_path.
  destruct (pl_category_id p) as [c|]; [|intros [= <-]; apply (machine_post_href_Ok policy [slug]); auto; by right].
  destruct (categories db !! c) as [row|] eqn:Hc; [|done]. intros [= <-].
  apply (wf_category_slug _ (wf_is_rest _ Hwf)) in Hc as Hrow%category_slug_plain.
  apply (machine_post_href_Ok policy [cat_slug row; slug]); auto.
Qed.

Definition leads_to st s (post : PostSummary) : Prop :=
  forall view, exists v, get_post_by_route st (pm_route_path post) view s = Ok v
    /\ get_markdown_source_by_route st (pm_route_path post) s = Ok (po_markdown v)
    /\ po_id v = pm_id post /\ po_title v = pm_title post /\ po_canonical_slug v = pm_slug post
    /\ po_authorship v = pm_authorship post.
Lemma listed_post_leads st s snap : wf (tables s) -> extensible (bc_seo_policy st) ->
  (forall rid r, revisions (tables s) !! rid = Some r -> safe_segment (rev_slug r)) ->
  shown (tables s) snap /\ (exists d, documents (tables s) !! ds_id snap = Some d /\ doc_site_id d = as_site_id (bc_app st)) ->
  exists path post, listed_post (tables s) (as_site_id (bc_app st)) snap = Ok (snap, path)
    /\ post_summary st (snap, path) = Ok post /\ pm_id post = ds_id snap /\ leads_to st s post.
Proof.
  intros Hwf Hp Hslugs (Hshown & d & Hd & Hsite).
  destruct (listed_path _ _ snap d Hwf Hshown Hd Hsite) as (p & r & path & Hl & Hget & Hr & _ & Hpath).
  destruct (placed_path_href _ (bc_seo_policy st) p (rev_slug r) path false Hwf Hp) as [api Hapi]; [by eapply Hslugs|done|].
  destruct (placed_path_href _ (bc_seo_policy st) p (rev_slug r) path true Hwf Hp) as [source Hsource]; [by eapply Hslugs|done|].
  eexists path, _. split_and!; [done|unfold post_summary; rewrite Hapi, Hsource; reflexivity|done|].
  intros view. unfold get_post_by_route, get_markdown_source_by_route. cbn. rewrite Hget. eexists. split_and!; reflexivity.
Qed.

(** C28. The list of posts never fails and never leads astray: after any history,
  imports included, on a validated public URL, [GET /api/v1/posts] answers; every entry's
  [routePath] answers on the post routes, in every view and as Markdown, with
  the document of that entry, its title, slug and authorship; no document is
  listed twice; and every published document of the site is listed unless a
  hundred are.  The slugs have to be plain path segments, which the check of a
  revision's slug promises only up to surrounding white space. *)
Theorem listed_posts_are_served st s0 ds :
  codec_roundtrip -> no_content (bl_content s0) -> account_wf (accounts s0) ->
  extensible (bc_seo_policy st) ->
  let s := performs ds s0 in
  (forall rid r, revisions (tables s) !! rid = Some r -> safe_segment (rev_slug r)) ->
  exists posts, list_posts st s = Ok posts /\ NoDup (pm_id <$> posts) /\ Forall (leads_to st s) posts
  /\ ((forall id d, documents (tables s) !! id = Some d -> doc_site_id d = as_site_id (bc_app st) ->
         is_Some (doc_published_revision_id d) -> id ∈ pm_id <$> posts)
      \/ size_of posts = 100%N).
Proof.
  intros Hcodec Hc Ha Hext s Hslugs.
  destruct (performs_sound Hcodec ds s0 (fresh_sound _ Hc Ha)) as [[Hwf _] _]. fold s in Hwf.
  destruct (list_published_spec (tables s) (as_site_id (bc_app st)) 100 Hwf) as (snaps & Hl & Hnd & Hf & Hall); [lia|].
  enough (exists listed posts, traverse (listed_post (tables s) (as_site_id (bc_app st))) snaps = Ok listed
    /\ traverse (post_summary st) listed = Ok posts /\ pm_id <$> posts = ds_id <$> snaps /\ Forall (leads_to st s) posts)
    as (listed & posts & Hlisted & Hposts & Eids & Hleads).
  { exists posts. unfold list_posts. rewrite Hl. cbn [map_err mbind result_bind]. rewrite Hlisted. cbn [map_err mbind result_bind].
    rewrite Eids. split_and!; [done..|]. destruct Hall as [?|Hsize]; [by left|right].
    apply (f_equal length) in Eids. rewrite !length_fmap in Eids. unfold size_of in *. congruence. }
  clear Hl Hnd Hall. induction Hf as [|snap snaps Hsnap _ (listed & posts & Hlisted & Hposts & Eids & Hleads)]; [by exists [], []|].
  destruct (listed_post_leads st s snap Hwf Hext Hslugs Hsnap) as (path & post & E1 & E2 & Eid & Hlead).
  exists ((snap, path) :: listed), (post :: posts). cbn. rewrite E1. cbn. rewrite Hlisted. cbn.
  cbn in E2. rewrite E2. cbn. rewrite Hposts. cbn. rewrite Eid, Eids. split_and!; [done..|by constructor].
Qed.
End links.

(** ** Confinement *)

(** The change from [db] to [db'] stays on one site, keeps every revision, and
    every new revision is [acceptable]. *)
Section confinement.
Context `{!UrlLib, !StoreCodec, !Sha256Lib, !LayerCodec}.

Record confined (site : Uuid) (acceptable : RevisionSnapshot -> Prop) (db db' : DB) : Prop := {
  cf_documents id d : documents db !! id = Some d -> doc_site_id d <> site -> documents db' !! id = Some d;
  cf_new_documents id d : documents db' !! id = Some d -> documents db !! id = None -> doc_site_id d = site;
  cf_routes w path : w <> site -> routes db' !! (w, path) = routes db !! (w, path);
  cf_revisions : revisions db ⊆ revisions db';
  cf_new rid r : revisions db' !! rid = Some r -> revisions db !! rid = None ->
    exists d rev, documents db' !! rev_document_id r = Some d /\ doc_site_id d = site /\ row_stores rid r rev /\ acceptable rev;
  cf_taxonomy : categories db' = categories db /\ series db' = series db;
  cf_community : comments db' = comments db /\ home_pins db' = home_pins db;
}.
Lemma confined_refl site ok db : confined site ok db db.
Proof. split; try done; intros; congruence. Qed.

(** One new revision of a document of the site, which may be new itself. *)
Lemma draft_confined site (ok : RevisionSnapshot -> Prop) db id d rid r rev p :
  (documents db !! id = None \/ exists d0, documents db !! id = Some d0 /\ doc_site_id d0 = site) -> doc_site_id d = site ->
  revisions db !! rid = None -> rev_document_id r = id -> row_stores rid r rev -> ok rev ->
  confined site ok db (set_placements (set_revisions (set_documents db (<[id := d]> (documents db)))
    (<[rid := r]> (revisions db))) (<[rid := p]> (revision_categories db))).
Proof.
  intros Hid Hsite Hrid Hrd Hst Hok. split; cbn; try done.
  - intros i d0 Hd0 Hs. rewrite lookup_insert_ne; [done|]. intros <-. destruct Hid as [?|(d1 & ? & ?)]; congruence.
  - intros i d0 [[_ <-]|[_ ?]]%lookup_insert_Some; [done|congruence].
  - by apply insert_subseteq.
  - intros i r0 [[<- <-]|[_ ?]]%lookup_insert_Some; [|congruence]. rewrite Hrd, lookup_insert_eq. by exists d, rev.
Qed.
Lemma transaction_confined {A} site ok (m : tx A) db :
  (forall a db', m db = Ok (a, db') -> confined site ok db db') -> confined site ok db (StoreBase.transaction m db).2.
Proof.
  intros Hm. destruct (StoreBase.transaction m db) as [[a|e] db'] eqn:E.
  - apply StoreBase.transaction_Ok in E as [E _]. by eapply Hm.
  - rewrite (StoreBase.transaction_error _ _ _ _ E). apply confined_refl.
Qed.

Definition written_by (actor : RevisionActor) (rev : RevisionSnapshot) : Prop := rs_actor rev = actor.
Context (Hcodec : codec_roundtrip).

Lemma create_confined input id rid now db :
  confined (nd_site_id input) (written_by (nd_actor input)) db (create_document input id rid now db).2.
Proof.
  apply transaction_confined. intros snap db' Hm. inv_tx.
  match goal with X : create_document_in_transaction _ _ _ _ _ _ _ = _ |- _ => apply (create_document_effect Hcodec) in X
    as (r & p & path & ? & ? & ? & _ & _ & _ & _ & ? & Hfrom & _ & _ & _ & _ & _ & _ & _ & ->) end.
  apply (draft_confined _ _ _ _ _ _ _ (ds_revision snap)); auto. unfold written_by. by rewrite Hfrom.
Qed.
Lemma append_confined input rid now ca db d s db' : wf db -> documents db !! pr_document_id input = Some d ->
  append_revision_in_transaction_with_category input rid now ca db = Ok (s, db') ->
  confined (doc_site_id d) (written_by (pr_actor input)) db db'.
Proof.
  intros Hwf Hd (d0 & base & r & p & path & Hd0 & _ & _ & ? & ? & _ & _ & _ & ? & _ & _ & _ & _ & Hcar & ->)%(append_effect Hcodec); [|done].
  assert (d0 = d) as -> by congruence. apply (draft_confined _ _ _ _ _ _ _ s); try done; [by right; exists d|].
  unfold written_by. apply Hcar.
Qed.
Lemma revise_confined input rid now db d : wf db -> documents db !! pr_document_id input = Some d ->
  confined (doc_site_id d) (written_by (pr_actor input)) db (append_revision input rid now db).2.
Proof. intros Hwf Hd. apply transaction_confined. intros s db' Hm. inv_tx. by eapply append_confined. Qed.
Lemma propose_confined e rid now db d : wf db -> documents db !! pr_document_id (env_proposal e) = Some d ->
  confined (doc_site_id d) (written_by (pr_actor (derive_proposal e))) db (append_ai_proposal e rid now db).2.
Proof.
  intros Hwf Hd. apply transaction_confined. intros s db' Hm. cbn zeta in Hm. inv_tx.
  match goal with X : append_revision_in_transaction _ _ _ _ = _ |- _ => eapply append_confined in X as [];
    [|done|exact Hd] end.
  match goal with X : insert_ai_proposal _ _ = _ |- _ => unfold insert_ai_proposal in X; inv_tx end.
  match goal with X : insert_audit _ _ _ = _ |- _ => unfold insert_audit in X; inv_ok end. by split.
Qed.
Lemma publish_confined ok id rid now db d : wf db -> documents db !! id = Some d ->
  confined (doc_site_id d) ok db (publish id rid now db).2.
Proof.
  intros Hwf Hd. unfold publish. replace (StoreTaxonomy.then_load _ _).2 with (StoreBase.transaction (publish_in_transaction_at id rid now) db).2
    by by destruct (StoreBase.transaction _ db) as [[]].
  apply transaction_confined.
  intros u db' (d0 & r & s & p & path & items & Hd0 & _ & _ & _ & _ & _ & _ & _ & _ & ->)%publish_effect; [|done].
  assert (d0 = d) as -> by congruence. split; cbn; try done; try (intros; congruence).
  - intros i d1 Hd1 Hs. rewrite lookup_insert_ne; [done|]. intros <-. congruence.
  - intros i d1 [[<- <-]|[_ ?]]%lookup_insert_Some; congruence.
  - intros w q Hw. unfold publish_routes. rewrite lookup_insert_ne, lookup_fmap by congruence.
    destruct (routes db !! (w, q)) as [rt|] eqn:Hrt; [|done]. cbn. f_equal. unfold uncanonical.
    destruct (route_document_id rt =? id)%N eqn:E; [|done]. apply N.eqb_eq in E.
    destruct (wf_route _ (wf_is_paths _ Hwf) _ _ _ Hrt) as (d2 & ? & ?). congruence.
Qed.
End confinement.

(** ** Calls *)

Section calls.
Context `{!UrlLib, !PathSegmentsLib, !OriginLib, !DigestLib, !Base64Engine, !SerdeJson, !HeaderLib, !Argon2Lib, !Sha256Lib, !MarkdownLib,
  !AmmoniaLib, !StoreCodec, !LayerCodec, !UuidLib, !PathLib}.
Implicit Types (st : BlogConfig) (env : BlogEnv) (hs : Headers) (s : Blog).

(** Who may have written the new revisions of a call. *)
Definition attributed (p : MutationPrincipal) (c : ContentCall) (rev : RevisionSnapshot) : Prop :=
  match c with
  | SubmitAi2Ai e => ra_kind (rs_actor rev) = Agent /\ ra_id (rs_actor rev) = aa_id (env_actor e)
  | _ => rs_actor rev = principal_actor p
  end.
(** The account tables change only when the configured site is not there. *)
Record effect st (p : MutationPrincipal) (c : ContentCall) s s' : Prop := {
  ef_content : confined (configured_site st) (attributed p c) (tables s) (tables s');
  ef_accounts : accounts s' = accounts s \/ load_site_by_id (configured_site st) None (accounts s) = Err NotFound;
  ef_public : same_public (tables s) (tables s')
    \/ (exists segment revision_id, c = PublishRevision segment revision_id)
       /\ bl_public_mutations s' = (bl_public_mutations s + if as_cache (bc_app st) then 1 else 0)%N;
}.
Lemma same_effect st p c s s' : same s s' -> effect st p c s s'.
Proof. intros [Ha Ht]. split; rewrite ?Ha, ?Ht; [apply confined_refl|by left|by left]. Qed.

Lemma bind_effect {E A B} st p c (m : step E A) (k : A -> step E B) s s0 : same s (m s0).2 ->
  (forall a s1, m s0 = (Ok a, s1) -> effect st p c s (k a s1).2) -> effect st p c s ((m ≫= k) s0).2.
Proof.
  unfold mbind, step_bind. intros Hm Hk. destruct (m s0) as [[a|e] s1]; [by apply Hk|by apply same_effect].
Qed.
Lemma map_err_effect {E F A} st p c (f : E -> F) (m : step E A) s s1 :
  effect st p c s (m s1).2 -> effect st p c s (step_map_err f m s1).2.
Proof. done. Qed.
Lemma then_ret_effect {E A B} st p c (m : step E A) (f : A -> B) s s0 :
  effect st p c s (m s0).2 -> effect st p c s ((a ← m; mret (f a)) s0).2.
Proof. unfold mbind, step_bind. by destruct (m s0) as [[a|e] s']. Qed.
Lemma load_document_site db id selector document : load_document id selector db = Ok document ->
  exists d, documents db !! id = Some d /\ ds_site_id document = doc_site_id d.
Proof. unfold load_document. intros Hl. inv_ok. by eexists. Qed.
Lemma on_this_site_Ok st id s document s1 : on_this_site st id s = (Ok document, s1) ->
  s1 = s /\ exists d, documents (tables s) !! id = Some d /\ doc_site_id d = configured_site st.
Proof.
  unfold on_this_site, look, mbind, step_bind. destruct (get_document id (tables s)) as [doc|] eqn:Hl; [|done].
  apply load_document_site in Hl as (d & Hd & Es). unfold ensure, fail_if.
  destruct (ds_site_id doc =? configured_site st)%N eqn:E; [|done]. intros [= _ <-]. split; [done|]. exists d. split; [done|].
  rewrite <-Es. by apply N.eqb_eq.
Qed.
Lemma on_this_site_state st id s : (on_this_site st id s).2 = s.
Proof.
  unfold on_this_site, look, mbind, step_bind. destruct (get_document id (tables s)) as [doc|]; [|done].
  by destruct (ensure _ _).
Qed.

(** What a write of the content half leaves. *)
Lemma write_content_state {A} (f : DB -> result RepositoryError A * DB) s :
  accounts (write_content f s).2 = accounts s
  /\ tables (write_content f s).2 = shared (accounts s) (f (tables s)).2
  /\ bl_public_mutations (write_content f s).2 = bl_public_mutations s.
Proof. unfold write_content. by destruct (f (tables s)) as [r db]. Qed.
Lemma confined_shared site ok a db db' : confined site ok db db' -> confined site ok db (shared a db').
Proof. by intros []; split. Qed.
Lemma confined_from_shared site ok a db db' : confined site ok (shared a db) db' -> confined site ok db db'.
Proof. by intros []; split. Qed.
Lemma same_public_shared a db db' : same_public db db' -> same_public db (shared a db').
Proof. done. Qed.
Lemma confined_weaken site (ok ok' : RevisionSnapshot -> Prop) db db' : (forall rev, ok rev -> ok' rev) ->
  confined site ok db db' -> confined site ok' db db'.
Proof.
  intros Hok []. split; try done. intros rid r Hr Hn. destruct (cf_new0 rid r Hr Hn) as (d & rev & ? & ? & ? & ?).
  exists d, rev. auto.
Qed.
Context (Hcodec : codec_roundtrip).

(** A drafting operation on the content half. *)
Lemma draft_effect {A} st p c o (f : DB -> result RepositoryError A * DB) s s1 : wf (tables s) -> same s s1 ->
  publishes o = false -> (run o (tables s)).2 = (f (tables s)).2 ->
  confined (configured_site st) (attributed p c) (tables s) (f (tables s)).2 -> effect st p c s (write_content f s1).2.
Proof.
  intros Hwf [Ha Ht] Ho Hf Hc. destruct (write_content_state f s1) as (Ea & Et & _). rewrite Ha, Ht in *.
  split; rewrite ?Ea, ?Et; [by apply confined_shared|by left|left]. apply same_public_shared. rewrite <-Hf.
  by apply drafts_public, (run_drafts Hcodec).
Qed.

Lemma legacy_site_effect db now :
  forall site r db', ensure_legacy_site site now db = (r, db') -> db' = db \/ load_site_by_id site None db = Err NotFound.
Proof.
  intros site r db'. unfold ensure_legacy_site. destruct (load_site_by_id site None db) as [|[]].
  2: by right.
  all: intros [= _ <-]; by left.
Qed.
Lemma create_post_effect st env p input s : wf (tables s) -> effect st p (CreatePost input) s (create_post st env p input s).2.
Proof.
  intros Hwf. unfold create_post, embeds_allowed.
  apply bind_effect; [done|intros ? s1 [= _ <-]]. apply bind_effect; [done|intros authorship s2 [= _ <-]].
  apply bind_effect; [done|intros ? s1 [= _ <-]]. unfold begin_public_mutation. set (s1 := Build_Blog _ _ _).
  apply map_err_effect. unfold write_accounts at 1, mbind at 1, step_bind.
  change (accounts s1) with (accounts s). destruct (ensure_legacy_site (configured_site st) (clock env 1) (accounts s)) as [r accts] eqn:Hl.
  apply legacy_site_effect in Hl. set (s2 := Build_Blog _ _ _). destruct r as [site|e].
  - apply then_ret_effect. destruct (write_content_state (create_document (post_document st p input authorship) (be_id env 0)
      (be_id env 1) (clock env 2)) s2) as (Ea & Et & _).
    split; rewrite ?Ea, ?Et; [|done|left].
    + apply confined_shared, (confined_from_shared _ _ accts).
      exact (create_confined Hcodec (post_document st p input authorship) _ _ _ (tables s2)).
    + apply same_public_shared. change (same_public (tables s2)
        (create_document (post_document st p input authorship) (be_id env 0) (be_id env 1) (clock env 2) (tables s2)).2).
      pose proof (run_drafts Hcodec (CreateDocument (post_document st p input authorship) (be_id env 0) (be_id env 1) (clock env 2))
        (tables s2)) as Hd. cbn [run] in Hd. rewrite outcome_state in Hd. apply drafts_public, Hd; [|done].
      change (wf (shared accts (tables s))). by apply wf_shared.
  - split; [|done|left].
    + change (confined (configured_site st) (attributed p (CreatePost input)) (tables s) (shared accts (tables s))).
      apply confined_shared, confined_refl.
    + change (same_public (tables s) (tables s)). done.
Qed.
Lemma propose_revision_effect st env p segment id input s : wf (tables s) ->
  effect st p (ProposeRevision segment input) s (propose_revision st env p id input s).2.
Proof.
  intros Hwf. unfold propose_revision, embeds_allowed.
  apply bind_effect; [done|intros ? s1 [= _ <-]]. apply bind_effect; [done|intros authorship s2 [= _ <-]].
  apply map_err_effect, bind_effect; [by rewrite on_this_site_state|].
  intros document s1 (-> & d & Hd & Hsite)%on_this_site_Ok. apply then_ret_effect.
  set (proposal := post_revision p id input authorship).
  apply (draft_effect _ _ _ (AppendRevision proposal (be_id env 0) (clock env 1))); try done.
  { cbn [run]. by rewrite outcome_state. }
  rewrite <-Hsite. exact (revise_confined Hcodec proposal _ _ _ d Hwf Hd).
Qed.
Lemma ai2ai_proposal_effect st env p e s : wf (tables s) -> effect st p (SubmitAi2Ai e) s (ai2ai_proposal st env e s).2.
Proof.
  intros Hwf. unfold ai2ai_proposal, embeds_allowed.
  do 3 (apply bind_effect; [done|intros ? ? [= _ <-]]).
  apply map_err_effect, bind_effect; [by rewrite on_this_site_state|].
  intros document s1 (-> & d & Hd & Hsite)%on_this_site_Ok. apply then_ret_effect.
  apply (draft_effect _ _ _ (AppendAiProposal e (be_id env 0) (clock env 2))); try done.
  { cbn [run]. by rewrite outcome_state. }
  rewrite <-Hsite. eapply confined_weaken, (propose_confined Hcodec e _ _ _ d Hwf Hd).
  unfold written_by, attributed. by intros rev ->.
Qed.
Lemma publish_revision_effect st env p segment id revision_id s : wf (tables s) ->
  effect st p (PublishRevision segment revision_id) s (publish_revision st env id revision_id s).2.
Proof.
  intros Hwf. unfold publish_revision. apply bind_effect; [done|intros ? s1 [= _ <-]].
  unfold begin_public_mutation. set (s1 := Build_Blog _ _ _).
  apply map_err_effect, bind_effect; [by rewrite on_this_site_state|].
  intros document s2 (-> & d & Hd & Hsite)%on_this_site_Ok. apply then_ret_effect.
  destruct (write_content_state (publish id revision_id (clock env 1)) s1) as (Ea & Et & En).
  split; rewrite ?Ea, ?Et, ?En; [|by left|right; split; [eauto|done]].
  apply confined_shared. rewrite <-Hsite. exact (publish_confined _ id revision_id _ (tables s) d Hwf Hd).
Qed.
Lemma content_call_effect st env p c s : wf (tables s) -> effect st p c s (content_call st env p c s).2.
Proof.
  intros Hwf. destruct c; cbn [content_call]; unfold with_id;
    try match goal with |- context [path_uuid] => apply bind_effect; [done|intros id s1 [= _ <-]] end; refine (map_err_effect _ _ _ Failed _ _ _ _).
  - apply same_effect. done.
  - apply same_effect. unfold get_admin_document, mbind, step_bind. cbn.
    pose proof (on_this_site_state st id s) as E. destruct (on_this_site st id s) as [[]]; cbn in *; by subst.
  - apply same_effect. unfold list_admin_revisions, api_task, step_map_err, mbind, step_bind. cbn.
    pose proof (on_this_site_state st id s) as E. destruct (on_this_site st id s) as [[]]; cbn in *; by subst.
  - by apply create_post_effect.
  - by apply propose_revision_effect.
  - by apply publish_revision_effect.
  - by apply ai2ai_proposal_effect.
Qed.

Lemma agent_never_submits st guard_env hs e s : call_principal st guard_env hs (SubmitAi2Ai e) s <> Ok McpAgent.
Proof.
  unfold call_principal, admin_guard, require_admin. cbn [call_method call_path].
  destruct (_ && _)%bool; [done|]. destruct (as_delivery_only _); [done|]. destruct (bool_decide (mode _ = _)); [done|].
  destruct (is_some_and _ (session_hash_from_headers hs)); [done|].
  change (mcp_content_route POST (lit "/api/v1/ai2ai/proposals")) with false. by destruct (bearer_token_hash hs).
Qed.

(** C27. What is written through the content API stays on the configured site and
  carries its author's name: after any history, imports included, and for any call, whatever the
  outcome, either nothing the handlers read has changed, or the guard accepted
  the call for a principal and: documents and routes of other sites are as
  they were, new documents are of the configured site, no revision is changed
  or lost, and every new one belongs to a document of the site and names the
  principal (the agent "osb-mcp" or "owner") as its actor, or, in an AI2AI
  submission, which the agent's token never reaches, the submitting AI;
  categories, series, comments and home pins are untouched, and so are the
  accounts, unless the configured site did not exist; and every public answer
  is as before, unless the call publishes, which the response cache is told. *)
Theorem content_calls_are_confined st guard_env env hs c s0 ds :
  no_content (bl_content s0) -> account_wf (accounts s0) ->
  let s := performs ds s0 in
  let s' := (content_api st guard_env env hs c s).2 in
  same s s' \/ exists p, call_principal st guard_env hs c s = Ok p
    /\ confined (configured_site st) (attributed p c) (tables s) (tables s')
    /\ (p = McpAgent -> forall e, c <> SubmitAi2Ai e)
    /\ (accounts s' = accounts s \/ load_site_by_id (configured_site st) None (accounts s) = Err NotFound)
    /\ (same_public (tables s) (tables s')
        \/ (exists segment revision_id, c = PublishRevision segment revision_id)
           /\ bl_public_mutations s' = (bl_public_mutations s + if as_cache (bc_app st) then 1 else 0)%N).
Proof.
  intros Hc Ha s s'. destruct (performs_sound Hcodec ds s0 (fresh_sound _ Hc Ha)) as [[Hwf _] _]. fold s in Hwf.
  unfold s', content_api, mbind, step_bind.
  destruct (call_principal st guard_env hs c s) as [p|e] eqn:Hp; [right|by left]. cbn [map_err].
  destruct (content_call_effect st env p c s Hwf). exists p. split_and!; try done.
  intros -> e ->. by apply agent_never_submits in Hp.
Qed.
End calls.
