(* ===== verification/ContentApiWitnesses.v ===== *)
(** * The content API at concrete inputs

    The agent writes, revises and publishes a post of the open blog; the
    listing shows it; a slug that ends with a line break breaks the listing. *)

From Stdlib Require Import Bool NArith ZArith Lia.
From S2P Require Import Prelude Text Extern Content Ai2Ai Renderer SocialEmbeds Seo StoreBase StoreTaxonomy StoreContent StoreFeed Accounts AccountsSpec AccountsRefine AccountsWitnesses StoreSpec Samples Store Admission Signing CacheHttp Auth AuthWitnesses Features Blog Studio StudioTheorems BlogTheorems BlogWitnesses ContentApi ContentApiTheorems.
Import ToySigning.
Import ToyHttp.
Import Toy.

#[export] Instance toy_path : PathLib := toy_uuid.

Definition agent : Headers := [(AUTHORIZATION, lit "Bearer agent")].
Definition agent_post (slug : rstr) : CreatePostRequest := {|
  cq_title := lit "Notes"; cq_slug := slug; cq_source_markdown := lit "By the agent"; cq_embeds := []; cq_intent := None;
  cq_ontology := None; cq_ai_summary := None; cq_authorship := Some default_authorship |}.
Definition call (t : Z) (id : N) (hs : Headers) (c : ContentCall) s := content_api config (studio_env t 0) (studio_env t id) hs c s.
Definition created (slug : rstr) : Blog := (call 300 70 agent (CreatePost (agent_post slug)) open_blog).2.
Definition published (slug : rstr) : Blog := (call 310 80 agent (PublishRevision (lit "70") 71) (created slug)).2.
Definition titles (r : result ApiError (list PostSummary)) : option (list (rstr * rstr)) :=
  match r with Ok posts => Some ((fun p => (pm_title p, pm_api_href p)) <$> posts) | Err _ => None end.

Example the_agent_publishes :
  is_ok (call 300 70 agent (CreatePost (agent_post (lit "notes"))) open_blog).1 = true
  /\ is_ok (call 310 80 agent (PublishRevision (lit "70") 71) (created (lit "notes"))).1 = true
  /\ titles (list_posts config (published (lit "notes")))
     = Some [(lit "Notes", lit "https://blog.example/api/v1/posts/notes"); (lit "Title", lit "https://blog.example/api/v1/posts/hello")]
  /\ match get_document 70 (tables (published (lit "notes"))) with Ok d => ra_id (rs_actor (ds_revision d)) = lit "osb-mcp" | Err _ => False end.
Proof. split_and!; vm_compute; reflexivity. Qed.

(** The check of a slug trims it and the stored slug is not trimmed: once such
    a post is published the listing fails, for every post. *)
Example a_line_break_breaks_the_list :
  is_ok (call 310 80 agent (PublishRevision (lit "70") 71) (created (lit "notes" ++ [10%N]))).1 = true
  /\ list_posts config (published (lit "notes" ++ [10%N])) = Err (ApiInternal (lit "persisted post route contains an unsafe path")).
Proof. split_and!; vm_compute; reflexivity. Qed.
#[local] Opaque performs content_api list_posts.

Definition plain_slug (slug : rstr) : bool := is_ok (validate_slug slug) && str_eqb (trim slug) slug.
Lemma plain_slugs_safe (m : gmap Uuid RevisionRow) : forallb (fun kv => plain_slug (rev_slug kv.2)) (map_to_list m) = true ->
  forall rid r, m !! rid = Some r -> safe_segment (rev_slug r).
Proof.
  rewrite forallb_Forall, Forall_forall. intros Hall rid r Hr. specialize (Hall (rid, r)).
  rewrite elem_of_map_to_list in Hall. specialize (Hall Hr). unfold plain_slug in Hall. cbn [snd] in Hall.
  apply andb_true_iff in Hall as [Hv <-%str_eqb_eq]. destruct (validate_slug (rev_slug r)) eqn:E; [|done].
  by apply validate_slug_sound in E as [? _].
Qed.

Lemma listed_posts_are_served_witness :
  (size_of <$> list_posts config imported_blog) = Ok 2%N
  /\ exists posts, list_posts config imported_blog = Ok posts /\ NoDup (pm_id <$> posts) /\ Forall (leads_to config imported_blog) posts
  /\ ((forall id d, documents (tables imported_blog) !! id = Some d -> doc_site_id d = 1%N ->
         is_Some (doc_published_revision_id d) -> id ∈ pm_id <$> posts) \/ size_of posts = 100%N).
Proof.
  split; [vm_compute; reflexivity|]. unfold imported_blog. apply (listed_posts_are_served config empty_blog (opening ++ [import_renaming])).
  - apply toy_codec_roundtrip.
  - apply empty_blog_fresh.
  - apply empty_blog_fresh.
  - split; [vm_compute; reflexivity|]. intros segments. by eexists.
  - apply plain_slugs_safe. vm_compute. reflexivity.
Defined.

Lemma content_calls_are_confined_witness :
  let c := CreatePost (agent_post (lit "notes")) in
  let s' := (call 300 70 agent c open_blog).2 in
  is_ok (call 300 70 agent c open_blog).1 = true
  /\ (same open_blog s' \/ exists p, call_principal config (studio_env 300 0) agent c open_blog = Ok p
      /\ confined 1 (attributed p c) (tables open_blog) (tables s')
      /\ (p = McpAgent -> forall e, c <> SubmitAi2Ai e)
      /\ (accounts s' = accounts open_blog \/ load_site_by_id 1 None (accounts open_blog) = Err NotFound)
      /\ (same_public (tables open_blog) (tables s')
          \/ (exists segment revision_id, c = PublishRevision segment revision_id)
             /\ bl_public_mutations s' = (bl_public_mutations open_blog + 1)%N)).
Proof.
  split; [vm_compute; reflexivity|]. unfold call, open_blog.
  apply (content_calls_are_confined toy_codec_roundtrip config (studio_env 300 0) (studio_env 300 70) agent
           (CreatePost (agent_post (lit "notes"))) empty_blog opening).
  - apply empty_blog_fresh.
  - apply empty_blog_fresh.
Defined.
