(* ===== verification/Release.v ===== *)
(** * Release status: [apps/server/src/version.rs]

    The server compares its own version with a release channel: a file that is
    compiled in and, when checks are enabled, the last valid one it read from
    the channel's URL.  Nothing is installed; what is shown has been validated
    field by field.  The messages of errors are the code's own, without the
    chain of their causes. *)

From Stdlib Require Import Bool NArith ZArith Lia.
From S2P Require Import Prelude Text Extern InstallLock Signing.

(** ** UTF-8: [std::str::from_utf8] *)

Definition is_continuation (b : N) : bool := in_range 128 191 b.
Definition is_scalar (c : N) : bool := in_range 0 55295 c || in_range 57344 1114111 c.
Fixpoint from_utf8 (l : list N) : option rstr :=
  match l with
  | [] => Some []
  | a :: l1 =>
      if (a <? 128)%N then cons a <$> from_utf8 l1
      else match l1 with
           | [] => None
           | b :: l2 =>
               if negb (is_continuation b) then None
               else if in_range 194 223 a then cons ((a - 192) * 64 + (b - 128))%N <$> from_utf8 l2
               else match l2 with
                    | [] => None
                    | c :: l3 =>
                        if negb (is_continuation c) then None
                        else if in_range 224 239 a then
                          let v := ((a - 224) * 4096 + (b - 128) * 64 + (c - 128))%N in
                          if (2048 <=? v)%N && is_scalar v then cons v <$> from_utf8 l3 else None
                        else match l3 with
                             | [] => None
                             | d :: l4 =>
                                 let v := ((a - 240) * 262144 + (b - 128) * 4096 + (c - 128) * 64 + (d - 128))%N in
                                 if is_continuation d && in_range 240 244 a && (65536 <=? v)%N && is_scalar v
                                 then cons v <$> from_utf8 l4 else None
                             end
                    end
           end
  end.

Lemma in_range_true lo hi c : (lo <= c <= hi)%N -> in_range lo hi c = true.
Proof. unfold in_range. intros H. apply andb_true_iff. rewrite !N.leb_le. lia. Qed.
Lemma in_range_false lo hi c : (c < lo \/ hi < c)%N -> in_range lo hi c = false.
Proof. unfold in_range. intros H. apply andb_false_iff. rewrite !N.leb_gt. lia. Qed.
Lemma continuation_byte d : (d < 64)%N -> is_continuation (128 + d) = true.
Proof. intros Hd. apply in_range_true. lia. Qed.
Lemma base64_digits n : n = (n / 64 * 64 + n mod 64)%N.
Proof. pose proof (N.div_mod n 64 ltac:(lia)). lia. Qed.
Lemma is_scalar_max c : is_scalar c = true -> (c <= 1114111)%N.
Proof. unfold is_scalar, in_range. rewrite orb_true_iff, !andb_true_iff, !N.leb_le. lia. Qed.

(** Every string is read back from its bytes. *)
Lemma from_utf8_encode c rest : is_scalar c = true -> from_utf8 (utf8_encode c ++ rest) = cons c <$> from_utf8 rest.
Proof.
  intros Hc. pose proof (is_scalar_max c Hc) as Hmax. unfold utf8_encode.
  pose proof (base64_digits c) as E1. pose proof (base64_digits (c / 64)) as E2. pose proof (base64_digits (c / 4096)) as E3.
  rewrite N.Div0.div_div in E2, E3. change (64 * 64)%N with 4096%N in E2. change (4096 * 64)%N with 262144%N in E3.
  pose proof (N.mod_lt c 64 ltac:(lia)). pose proof (N.mod_lt (c / 64) 64 ltac:(lia)). pose proof (N.mod_lt (c / 4096) 64 ltac:(lia)).
  set (d0 := (c mod 64)%N) in *. set (d1 := ((c / 64) mod 64)%N) in *. set (d2 := ((c / 4096) mod 64)%N) in *.
  set (q1 := (c / 64)%N) in *. set (q2 := (c / 4096)%N) in *. set (q3 := (c / 262144)%N) in *. clearbody d0 d1 d2 q1 q2 q3.
  destruct (N.ltb_spec c 128) as [Hc1|Hc1]; [cbn; by rewrite (proj2 (N.ltb_lt _ _) Hc1)|].
  destruct (N.ltb_spec c 2048) as [Hc2|Hc2]; [|destruct (N.ltb_spec c 65536) as [Hc3|Hc3]]; cbn [app from_utf8];
    rewrite (proj2 (N.ltb_ge _ 128)), !continuation_byte by lia; cbn [negb andb].
  - rewrite in_range_true by lia. do 2 f_equal. lia.
  - rewrite in_range_false, in_range_true by lia.
    replace ((224 + q2 - 224) * 4096 + (128 + d1 - 128) * 64 + (128 + d0 - 128))%N with c by lia.
    by rewrite (proj2 (N.leb_le 2048 c)), Hc by lia.
  - rewrite !in_range_false, in_range_true by lia.
    replace ((240 + q3 - 240) * 262144 + (128 + d2 - 128) * 4096 + (128 + d1 - 128) * 64 + (128 + d0 - 128))%N with c by lia.
    by rewrite (proj2 (N.leb_le 65536 c)), Hc by lia.
Qed.
Lemma from_utf8_bytes s : Forall (fun c => is_scalar c = true) s -> from_utf8 (bytes s) = Some s.
Proof.
  induction 1 as [|c s Hc _ IH]; [done|]. change (bytes (c :: s)) with (utf8_encode c ++ bytes s).
  by rewrite from_utf8_encode, IH.
Qed.

(** ** Third-party code *)

(** [chrono::NaiveDate] with the format ["%Y-%m-%d"]. *)
Class DateLib := {
  NaiveDate : Type;
  date_parse : rstr -> option NaiveDate;
  date_format : NaiveDate -> rstr;
}.

Definition RELEASE_SCHEMA : rstr := lit "open-soverign-blog-release/1".
Definition CHANNEL_SCHEMA : rstr := lit "open-soverign-blog-release-channel/1".
Definition REPOSITORY_URL : rstr := lit "https://github.com/studyreadbook4ever/OpenSoverignBlog".
Definition DEVELOPER_URL : rstr := lit "https://eff0rtchung.kr".
Definition DEFAULT_CHANNEL_URL : rstr :=
  lit "https://raw.githubusercontent.com/studyreadbook4ever/OpenSoverignBlog/main/release-channel.json".
Definition MAX_CHANNEL_BYTES : N := 64 * 1024.
Definition MAX_RELEASES : N := 64.

(** ** Data *)

Inductive ProjectReleaseStatus := Unreleased | Released.
Record ProjectRelease := {
  rp_schema_version : rstr; rp_version : rstr; rp_status : ProjectReleaseStatus; rp_channel : rstr; rp_release_date : option rstr;
  rp_repository_url : rstr; rp_developer_url : rstr; rp_license : rstr; rp_license_path : rstr }.
Record ReleaseEntry := {
  re_version : rstr; re_tag : rstr; re_release_date : rstr; re_source_commit : rstr; re_release_url : rstr;
  re_manifest_sha256 : rstr }.
#[export] Instance ReleaseEntry_eq_dec : EqDecision ReleaseEntry.
Proof. solve_decision. Defined.
Record ReleaseChannel := {
  rc_schema_version : rstr; rc_channel : rstr; rc_repository_url : rstr; rc_latest : option ReleaseEntry;
  rc_releases : list ReleaseEntry }.
Record PublicVersionStatus := {
  vp_current_version : rstr; vp_current_release_date : option rstr; vp_latest_version : option rstr;
  vp_latest_release_date : option rstr; vp_channel : rstr; vp_update_available : bool; vp_checked_at : option DateTime;
  vp_status : rstr; vp_repository_url : rstr; vp_developer_url : rstr; vp_license : rstr; vp_license_href : rstr }.

(** [toml::from_str::<ProjectRelease>]. *)
Class ReleaseToml := project_of_toml : rstr -> option ProjectRelease.
(** [CARGO_PKG_VERSION] of the server's build. *)
Class PackageVersion := cargo_pkg_version : rstr.

Definition release_entry_of_value (v : Value) : option ReleaseEntry :=
  l ← struct_fields ["version"; "tag"; "releaseDate"; "sourceCommit"; "releaseUrl"; "manifestSha256"]%string v;
  version ← required as_string "version" l;
  tag ← required as_string "tag" l;
  release_date ← required as_string "releaseDate" l;
  source_commit ← required as_string "sourceCommit" l;
  release_url ← required as_string "releaseUrl" l;
  manifest_sha256 ← required as_string "manifestSha256" l;
  Some {| re_version := version; re_tag := tag; re_release_date := release_date; re_source_commit := source_commit;
          re_release_url := release_url; re_manifest_sha256 := manifest_sha256 |}.
Definition release_channel_of_value (v : Value) : option ReleaseChannel :=
  l ← struct_fields ["schemaVersion"; "channel"; "repositoryUrl"; "latest"; "releases"]%string v;
  schema_version ← required as_string "schemaVersion" l;
  channel ← required as_string "channel" l;
  repository_url ← required as_string "repositoryUrl" l;
  latest ← or_none release_entry_of_value "latest" l;
  releases ← required (as_list release_entry_of_value) "releases" l;
  Some {| rc_schema_version := schema_version; rc_channel := channel; rc_repository_url := repository_url;
          rc_latest := latest; rc_releases := releases |}.

Section release.
Context `{!UrlLib, !SemverLib, !DateLib, !SerdeJson, !ReleaseToml, !PackageVersion}.

(** ** Validation *)

Abbreviation checked := (result rstr).
Definition need (b : bool) (message : string) : checked unit := ensure b (lit message).

Definition stable_version (value : rstr) (label : string) : checked Version :=
  version ← ok_or (version_parse value) (lit label ++ lit " is not SemVer");
  ensure (version_pre_is_empty version && version_build_is_empty version)
    (lit label ++ lit " must not contain prerelease or build metadata");;
  Ok version.
Definition validate_https_url (value : rstr) (expected_host : option rstr) : checked Url :=
  url ← ok_or (url_parse value) (lit "release metadata URL must be absolute");
  need (str_eqb (url_scheme url) (lit "https") && is_some (url_host_str url)) "release metadata URL must use HTTPS";;
  need (is_empty (url_username url) && is_none (url_password url) && is_none (url_query url) && is_none (url_fragment url))
    "release metadata URL cannot contain credentials, query, or fragment";;
  need (match expected_host with
        | Some host => bool_decide (url_host_str url = Some host)
        | None => true
        end) "release metadata URL has an unexpected host";;
  Ok url.
Definition validate_date (value : rstr) : checked unit :=
  date ← ok_or (date_parse value) (lit "release date must be YYYY-MM-DD");
  need (str_eqb (date_format date) value) "release date must use canonical YYYY-MM-DD form".
Definition is_lower_hex (value : rstr) (length : N) : bool :=
  (str_len value =? length)%N && forallb (fun byte => is_ascii_digit byte || in_range 97 102 byte) (bytes value).

Definition validate_release_entry (entry : ReleaseEntry) (project : ProjectRelease) : checked Version :=
  version ← stable_version (re_version entry) "release version";
  need (str_eqb (re_tag entry) (lit "v" ++ re_version entry)) "release tag does not match its version";;
  validate_date (re_release_date entry);;
  need (is_lower_hex (re_source_commit entry) 40) "sourceCommit must be a 40-character lowercase Git commit";;
  need (is_lower_hex (re_manifest_sha256 entry) 64) "manifestSha256 must be a lowercase SHA-256 digest";;
  validate_https_url (re_release_url entry) (Some (lit "github.com"));;
  need (str_eqb (re_release_url entry) (rp_repository_url project ++ lit "/releases/tag/" ++ re_tag entry))
    "releaseUrl is not the canonical release tag URL";;
  Ok version.
(** The loop over the releases, with the sets of what was seen. *)
Definition check_release (project : ProjectRelease) (seen : gset rstr * gset rstr * option Version) (release : ReleaseEntry)
    : checked (gset rstr * gset rstr * option Version) :=
  let '(versions, source_commits, previous_version) := seen in
  version ← validate_release_entry release project;
  need (negb (bool_decide (re_version release ∈ versions))) "release channel contains duplicate versions";;
  need (negb (bool_decide (re_source_commit release ∈ source_commits))) "release channel contains duplicate source commits";;
  need (match previous_version with Some previous => version_ltb version previous | None => true end)
    "release channel must be strictly newest-first";;
  Ok ({[ re_version release ]} ∪ versions, {[ re_source_commit release ]} ∪ source_commits, Some version).
Definition parse_release_channel (source : rstr) (project : ProjectRelease) : checked ReleaseChannel :=
  need (str_len source <=? MAX_CHANNEL_BYTES)%N "release channel is too large";;
  channel ← ok_or (from_slice (bytes source) ≫= release_channel_of_value) (lit "release channel JSON is invalid");
  need (str_eqb (rc_schema_version channel) CHANNEL_SCHEMA) "unsupported release channel schema";;
  need (str_eqb (rc_channel channel) (rp_channel project)) "release channel name does not match this build";;
  need (str_eqb (rc_repository_url channel) (rp_repository_url project))
    "release channel repository does not match this engine";;
  need (size_of (rc_releases channel) <=? MAX_RELEASES)%N "release channel has too many entries";;
  for_fold (check_release project) (∅, ∅, None) (rc_releases channel);;
  match rc_latest channel, head (rc_releases channel) with
  | None, None => Ok tt
  | Some latest, Some first => need (bool_decide (latest = first)) "release channel latest must exactly equal releases[0]"
  | _, _ => Err (lit "release channel latest and releases must be empty or non-empty together")
  end;;
  Ok channel.

Definition parse_project_release (source : rstr) : checked ProjectRelease :=
  project ← ok_or (project_of_toml source) (lit "release.toml is invalid");
  need (str_eqb (rp_schema_version project) RELEASE_SCHEMA) "unsupported release.toml schema";;
  need (str_eqb (rp_version project) cargo_pkg_version) "release.toml version does not match the server package";;
  stable_version (rp_version project) "release.toml version";;
  need (str_eqb (rp_channel project) (lit "stable")) "only the stable update channel is supported";;
  need (str_eqb (rp_license project) (lit "Unlicense")) "project license metadata must remain Unlicense";;
  need (str_eqb (rp_license_path project) (lit "UNLICENSE")) "project license path must be UNLICENSE";;
  need (str_eqb (rp_repository_url project) REPOSITORY_URL) "release.toml repository is not canonical";;
  need (str_eqb (rp_developer_url project) DEVELOPER_URL) "release.toml developer URL is not canonical";;
  validate_https_url (rp_repository_url project) (Some (lit "github.com"));;
  validate_https_url (rp_developer_url project) None;;
  match rp_status project, rp_release_date project with
  | Unreleased, None => Ok tt
  | Released, Some date => validate_date date
  | Unreleased, Some _ => Err (lit "an unreleased build cannot claim a release date")
  | Released, None => Err (lit "a released build requires a release date")
  end;;
  Ok project.
Definition validate_channel_url (value : rstr) : checked Url :=
  url ← ok_or (url_parse value) (lit "OSB_UPDATE_CHANNEL_URL must be an absolute URL");
  let local_http := str_eqb (url_scheme url) (lit "http")
    && is_some_and (fun host => existsb (fun h => str_eqb host (lit h)) ["localhost"; "127.0.0.1"; "::1"; "[::1]"]%string)
         (url_host_str url) in
  need (str_eqb (url_scheme url) (lit "https") || local_http) "update channel must use HTTPS; localhost may use HTTP for tests";;
  need (is_some (url_host_str url) && is_empty (url_username url) && is_none (url_password url))
    "update channel URL cannot contain credentials";;
  need (is_none (url_fragment url)) "update channel URL cannot contain a fragment";;
  Ok url.

(** ** The service *)

Record VersionService := {
  vs_project : ProjectRelease;
  vs_channel : ReleaseChannel;
  vs_checked_at : option DateTime;
  vs_remote_failed : bool;
  vs_channel_url : option Url;
  vs_interval : N;
}.

(** [std::env::var(name).ok()] without blank values. *)
Definition setting (env : rstr -> option rstr) (name : string) : option rstr :=
  value ← env (lit name); if is_empty (trim value) then None else Some value.
Definition environment_bool (env : rstr -> option rstr) (name : string) : checked (option bool) :=
  match setting env name with
  | None => Ok None
  | Some value =>
      let says names := existsb (fun n => str_eqb (to_ascii_lowercase value) (lit n)) names in
      if says ["1"; "true"; "yes"; "on"]%string then Ok (Some true)
      else if says ["0"; "false"; "no"; "off"]%string then Ok (Some false)
      else Err (lit name ++ lit " must be true/false, yes/no, on/off, or 1/0")
  end.
(** [str::parse::<u64>]: digits after an optional plus sign. *)
Definition parse_u64 (value : rstr) : option N :=
  let digits := default value (strip_prefix (lit "+") value) in
  if negb (is_empty digits) && forallb is_ascii_digit digits && (decimal digits <? 2 ^ 64)%N then Some (decimal digits) else None.
Definition start_from_environment (env : rstr -> option rstr) (release_toml release_channel : rstr) (module_enabled : bool)
    : checked VersionService :=
  project ← parse_project_release release_toml;
  bundled ← parse_release_channel release_channel project;
  enabled ← (if module_enabled then requested ← environment_bool env "OSB_UPDATE_CHECKS"; Ok (default true requested) else Ok false);
  interval ← (if (enabled : bool) then
                seconds ← match setting env "OSB_UPDATE_CHECK_INTERVAL_SECONDS" with
                          | None => Ok 21600%N
                          | Some value => ok_or (parse_u64 value) (lit "OSB_UPDATE_CHECK_INTERVAL_SECONDS must be an unsigned integer")
                          end;
                need (within 300 86400 seconds) "OSB_UPDATE_CHECK_INTERVAL_SECONDS must be between 300 and 86400";;
                Ok seconds
              else Ok 21600%N);
  channel_url ← (if (enabled : bool)
                 then Some <$> validate_channel_url (default DEFAULT_CHANNEL_URL (setting env "OSB_UPDATE_CHANNEL_URL"))
                 else Ok None);
  Ok {| vs_project := project; vs_channel := bundled; vs_checked_at := None; vs_remote_failed := false;
        vs_channel_url := channel_url; vs_interval := interval |}.

(** What the channel's host answers; [None] is a chunk that cannot be read. *)
Inductive ChannelReply :=
| RequestFailed
| ChannelResponse (success : bool) (content_length : option N) (chunks : list (option (list N))).
Fixpoint read_body (body : list N) (chunks : list (option (list N))) : checked (list N) :=
  match chunks with
  | [] => Ok body
  | None :: _ => Err (lit "failed while reading the release channel")
  | Some chunk :: chunks =>
      need (size_of body + size_of chunk <=? MAX_CHANNEL_BYTES)%N "release channel exceeds 65536 bytes";;
      read_body (body ++ chunk) chunks
  end.
Definition refresh (self : VersionService) (reply : ChannelReply) (now : DateTime) : checked VersionService :=
  need (is_some (vs_channel_url self)) "release checks are disabled";;
  match reply with
  | RequestFailed => Err (lit "release channel request failed")
  | ChannelResponse success content_length chunks =>
      need success "release channel returned HTTP";;
      need (match content_length with Some length => (length <=? MAX_CHANNEL_BYTES)%N | None => true end)
        "release channel exceeds 65536 bytes";;
      body ← read_body [] chunks;
      source ← ok_or (from_utf8 body) (lit "release channel must be UTF-8 JSON");
      channel ← parse_release_channel source (vs_project self);
      Ok {| vs_project := vs_project self; vs_channel := channel; vs_checked_at := Some now; vs_remote_failed := false;
            vs_channel_url := vs_channel_url self; vs_interval := vs_interval self |}
  end.
(** One round of the background task, which runs when there is a URL. *)
Definition background_round (self : VersionService) (event : ChannelReply * DateTime) : VersionService :=
  if is_some (vs_channel_url self)
  then match refresh self event.1 event.2 with
       | Ok self' => self'
       | Err _ => {| vs_project := vs_project self; vs_channel := vs_channel self; vs_checked_at := vs_checked_at self;
                     vs_remote_failed := true; vs_channel_url := vs_channel_url self; vs_interval := vs_interval self |}
       end
  else self.
Definition runs_background (self : VersionService) (events : list (ChannelReply * DateTime)) : VersionService :=
  fold_left background_round events self.

(** The [expect] on the project's version holds after the start. *)
Definition public_status (self : VersionService) : option PublicVersionStatus :=
  let latest := rc_latest (vs_channel self) in
  current ← version_parse (rp_version (vs_project self));
  let update_available :=
    is_some_and (fun latest => version_ltb current latest) (entry ← latest; version_parse (re_version entry)) in
  let status :=
    if is_none (vs_channel_url self) then lit "disabled"
    else if vs_remote_failed self && is_none (vs_checked_at self) then lit "offline"
    else if is_none latest then lit "no_release"
    else if update_available then lit "update_available"
    else lit "current" in
  let project := vs_project self in
  Some {| vp_current_version := rp_version project; vp_current_release_date := rp_release_date project;
          vp_latest_version := re_version <$> latest; vp_latest_release_date := re_release_date <$> latest;
          vp_channel := rp_channel project; vp_update_available := update_available; vp_checked_at := vs_checked_at self;
          vp_status := status; vp_repository_url := rp_repository_url project; vp_developer_url := rp_developer_url project;
          vp_license := rp_license project; vp_license_href := lit "/" ++ rp_license_path project |}.
End release.
