(* ===== verification/ReleaseTheorems.v ===== *)
(** * What the release status may say

    However the channel's host answers, the status is computed from the last
    channel that passed every check, and an update is announced exactly when
    that channel lists a newer release. *)

From Stdlib Require Import Bool NArith ZArith Lia Sorting.Sorted.
From S2P Require Import Prelude Text Extern InstallLock Signing Release.

Section release.
Context `{!UrlLib, !SemverLib, !DateLib, !SerdeJson, !ReleaseToml, !PackageVersion}.
Implicit Types (project : ProjectRelease) (e : ReleaseEntry).

(** ** Valid channels *)

Definition entry_version e (v : Version) : Prop :=
  version_parse (re_version e) = Some v /\ version_pre_is_empty v = true /\ version_build_is_empty v = true.
Definition newer e e' : Prop := exists v v', entry_version e v /\ entry_version e' v' /\ version_ltb v' v = true.
(** A stable release whose tag, page and digests are in canonical form. *)
Record entry_ok project e : Prop := {
  eo_version : exists v, entry_version e v;
  eo_tag : re_tag e = lit "v" ++ re_version e;
  eo_url : re_release_url e = rp_repository_url project ++ lit "/releases/tag/v" ++ re_version e;
  eo_commit : is_lower_hex (re_source_commit e) 40 = true;
  eo_digest : is_lower_hex (re_manifest_sha256 e) 64 = true;
  eo_date : exists date, date_parse (re_release_date e) = Some date /\ date_format date = re_release_date e;
}.
Record channel_ok project (c : ReleaseChannel) : Prop := {
  co_build : rc_channel c = rp_channel project /\ rc_repository_url c = rp_repository_url project;
  co_size : (size_of (rc_releases c) <= MAX_RELEASES)%N;
  co_latest : rc_latest c = head (rc_releases c);
  co_entries : Forall (entry_ok project) (rc_releases c);
  co_sorted : Sorted newer (rc_releases c);
  co_commits : NoDup (re_source_commit <$> rc_releases c);
}.

Lemma need_Ok b m u : need b m = Ok u <-> b = true.
Proof. apply ensure_Ok. Qed.
Lemma stable_version_Ok value label v : stable_version value label = Ok v ->
  version_parse value = Some v /\ version_pre_is_empty v = true /\ version_build_is_empty v = true.
Proof. unfold stable_version. intros Hv. inv_ok. by bool_simpl. Qed.
Lemma validate_release_entry_Ok e project v : validate_release_entry e project = Ok v -> entry_version e v /\ entry_ok project e.
Proof.
  unfold validate_release_entry, validate_date, need. intros Hv. inv_ok.
  match goal with X : stable_version _ _ = _ |- _ => apply stable_version_Ok in X as Hversion end.
  repeat match goal with X : str_eqb _ _ = true |- _ => apply str_eqb_eq in X end.
  split; [done|]. split; try done; [by exists v|by match goal with X : re_release_url e = _, Y : re_tag e = _ |- _ => rewrite X, Y end|].
  by eexists.
Qed.

Lemma check_releases_Ok project releases versions commits previous u :
  for_fold (check_release project) (versions, commits, previous) releases = Ok u ->
  Forall (entry_ok project) releases /\ Sorted newer releases
  /\ NoDup (re_source_commit <$> releases) /\ Forall (fun e => re_source_commit e ∉ commits) releases
  /\ (forall p e, previous = Some p -> head releases = Some e -> exists v, entry_version e v /\ version_ltb v p = true).
Proof.
  revert versions commits previous. induction releases as [|e releases IH]; intros versions commits previous Hf.
  { split_and!; try constructor. done. }
  cbn [for_fold] in Hf. apply bind_Ok in Hf as (state & Hstep & Hf). unfold check_release, need in Hstep. inv_ok.
  match goal with X : validate_release_entry e project = Ok ?v |- _ => apply validate_release_entry_Ok in X as [Hv He]; rename v into v0 end.
  destruct (IH _ _ _ Hf) as (Hall & Hsorted & Hnd & Hfresh & Hhead).
  repeat match goal with X : negb (bool_decide _) = true |- _ => apply negb_true_iff, bool_decide_eq_false in X end.
  split_and!.
  - by constructor.
  - constructor; [done|]. destruct releases as [|e' releases]; constructor.
    destruct (Hhead v0 e' eq_refl eq_refl) as (v' & ? & ?). by exists v0, v'.
  - cbn. constructor; [|done]. intros (e' & E & Hin)%list_elem_of_fmap. rewrite Forall_forall in Hfresh.
    specialize (Hfresh e' Hin). set_solver.
  - constructor; [done|]. eapply Forall_impl; [exact Hfresh|]. set_solver.
  - intros p e0 -> [= <-]. by exists v0.
Qed.
Lemma parse_release_channel_Ok source project c : parse_release_channel source project = Ok c -> channel_ok project c.
Proof.
  unfold parse_release_channel, need. intros Hp. inv_ok.
  match goal with X : for_fold _ _ _ = Ok _ |- _ => apply check_releases_Ok in X as (? & ? & ? & _) end.
  repeat match goal with X : str_eqb _ _ = true |- _ => apply str_eqb_eq in X end.
  split; try done; [by apply N.leb_le|].
  repeat case_match; inv_ok; try done. match goal with X : bool_decide _ = true |- _ => apply bool_decide_eq_true in X end.
  congruence.
Qed.

(** ** The service *)

(** What a valid reply makes the channel and the time of the check. *)
Definition accepted (self : VersionService) (event : ChannelReply * DateTime) : option (ReleaseChannel * option DateTime) :=
  match refresh self event.1 event.2 with Ok self' => Some (vs_channel self', vs_checked_at self') | Err _ => None end.
(** The fixed part of the service. *)
Definition same_service (self self' : VersionService) : Prop :=
  vs_project self' = vs_project self /\ vs_channel_url self' = vs_channel_url self /\ vs_interval self' = vs_interval self.

Lemma refresh_same self self' reply now : same_service self self' -> refresh self' reply now = refresh self reply now.
Proof. intros (Ep & Eu & Ei). unfold refresh. by rewrite Ep, Eu, Ei. Qed.
Lemma refresh_Ok self reply now self' : refresh self reply now = Ok self' ->
  same_service self self' /\ channel_ok (vs_project self) (vs_channel self') /\ vs_remote_failed self' = false
  /\ vs_checked_at self' = Some now.
Proof.
  unfold refresh, need. intros Hr. inv_ok. destruct reply as [|success length chunks]; [done|]. inv_ok.
  match goal with X : parse_release_channel _ _ = Ok _ |- _ => apply parse_release_channel_Ok in X end. by split_and!.
Qed.
Lemma refresh_disabled self reply now : vs_channel_url self = None -> is_ok (refresh self reply now) = false.
Proof. intros E. unfold refresh, need. by rewrite E. Qed.

Lemma background_round_spec s0 self event : same_service s0 self ->
  same_service s0 (background_round self event)
  /\ (vs_channel (background_round self event), vs_checked_at (background_round self event))
     = default (vs_channel self, vs_checked_at self) (accepted s0 event)
  /\ vs_remote_failed (background_round self event)
     = (if is_some (vs_channel_url s0) then is_none (accepted s0 event) else vs_remote_failed self).
Proof.
  intros Hs. pose proof Hs as (_ & Eu & _). unfold background_round, accepted. rewrite (refresh_same s0 self), Eu by done.
  destruct (vs_channel_url s0) as [url|] eqn:Hurl; cbn [is_some].
  - destruct (refresh s0 event.1 event.2) as [self'|e] eqn:Hr.
    2: { split_and!; [|done..]. destruct Hs as (? & ? & ?). split_and!; cbn; congruence. }
    apply refresh_Ok in Hr as (? & _ & ? & _). by split_and!.
  - pose proof (refresh_disabled s0 event.1 event.2 Hurl) as Hr. destruct (refresh s0 event.1 event.2); [done|].
    split_and!; [exact Hs|done..].
Qed.
Lemma runs_background_spec s0 self events : same_service s0 self ->
  same_service s0 (runs_background self events)
  /\ (vs_channel (runs_background self events), vs_checked_at (runs_background self events))
     = default (vs_channel self, vs_checked_at self) (last (omap (accepted s0) events)).
Proof.
  revert self. induction events as [|event events IH]; intros self Hs; [done|].
  destruct (background_round_spec s0 self event Hs) as (Hs1 & E & _).
  destruct (IH _ Hs1) as [Hs2 E2]. split; [done|].
  change (runs_background self (event :: events)) with (runs_background (background_round self event) events).
  rewrite E2, E. cbn [omap list_omap]. destruct (accepted s0 event) as [a|]; [|done].
  rewrite last_cons. by destruct (last (omap (accepted s0) events)).
Qed.
Lemma last_accepted_ok s0 events c now : last (omap (accepted s0) events) = Some (c, now) -> channel_ok (vs_project s0) c.
Proof.
  intros Hl%last_Some_elem_of. apply list_elem_of_omap in Hl as (event & _ & Ha). unfold accepted in Ha.
  destruct (refresh s0 event.1 event.2) as [self'|] eqn:Hr; [|done]. injection Ha as <- _. by apply refresh_Ok in Hr as (_ & ? & _).
Qed.
Lemma start_Ok env toml channel module s0 : start_from_environment env toml channel module = Ok s0 ->
  channel_ok (vs_project s0) (vs_channel s0) /\ vs_checked_at s0 = None /\ vs_remote_failed s0 = false
  /\ rp_version (vs_project s0) = cargo_pkg_version /\ is_Some (version_parse cargo_pkg_version)
  /\ (module = false -> vs_channel_url s0 = None) /\ (300 <= vs_interval s0 <= 86400)%N.
Proof.
  unfold start_from_environment, parse_project_release, need. intros Hs.
  apply bind_Ok in Hs as (project & Hproject & Hs). apply bind_Ok in Hs as (bundled & Hbundled & Hs).
  apply bind_Ok in Hs as (enabled & Henabled & Hs). apply bind_Ok in Hs as (interval & Hinterval & Hs).
  apply bind_Ok in Hs as (url & Hurl & Hs). injection Hs as <-. cbn.
  apply parse_release_channel_Ok in Hbundled. inv_ok.
  match goal with X : stable_version _ _ = Ok _ |- _ => apply stable_version_Ok in X as (Hv & _) end.
  match goal with X : str_eqb (rp_version _) _ = true |- _ => apply str_eqb_eq in X as Ev end.
  rewrite Ev in Hv. clear - Hbundled Hv Ev Henabled Hinterval Hurl. do 3 (split; [done|]). split; [done|].
  split; [by eexists|]. split; [intros ->; injection Henabled as <-; by injection Hurl as <-|].
  clear Henabled Hurl. destruct enabled; [|by injection Hinterval as <-]. unfold within in Hinterval. inv_ok.
  bool_simpl. done.
Qed.

Context (Hltb : forall a b c : Version, version_ltb a b = true -> version_ltb b c = true -> version_ltb a c = true).
Lemma newer_trans : Transitive newer.
Proof.
  intros e1 e2 e3 (v1 & v2 & Hv1 & [Hv2 _] & Hlt) (v2' & v3 & [Hv2' _] & Hv3 & Hlt').
  assert (v2' = v2) as -> by congruence. exists v1, v3. split_and!; [done..|eauto].
Qed.
(** The first release of a channel is its newest. *)
Lemma latest_is_newest project c latest e : channel_ok project c -> rc_latest c = Some latest -> e ∈ rc_releases c ->
  e = latest \/ newer latest e.
Proof.
  intros [_ _ El _ Hs _]. rewrite El. destruct (rc_releases c) as [|e0 l]; [done|]. intros [= ->] [->|Hin]%elem_of_cons; [by left|right].
  apply Sorted_StronglySorted in Hs; [|exact newer_trans]. apply StronglySorted_inv in Hs as [_ Hall].
  rewrite Forall_forall in Hall. by apply Hall.
Qed.
Lemma announced_spec project c current : channel_ok project c ->
  is_some_and (fun latest => version_ltb current latest) (entry ← rc_latest c; version_parse (re_version entry)) = true
  <-> exists e v, e ∈ rc_releases c /\ version_parse (re_version e) = Some v /\ version_ltb current v = true.
Proof.
  intros Hok. rewrite is_some_and_true. split.
  - intros (v & Hv & Hlt). destruct (rc_latest c) as [latest|] eqn:El; [|done]. cbn in Hv. exists latest, v. split_and!; try done.
    rewrite (co_latest _ _ Hok) in El. destruct (rc_releases c); [done|]. injection El as ->. by left.
  - intros (e & v & Hin & Hv & Hlt). assert (is_Some (rc_latest c)) as [latest El].
    { rewrite (co_latest _ _ Hok). destruct (rc_releases c); [by apply not_elem_of_nil in Hin|by eexists]. }
    rewrite El. cbn. destruct (latest_is_newest _ _ _ _ Hok El Hin) as [->|(vl & ve & [Hl _] & [He _] & Hlt')]; [by exists v|].
    exists vl. split; [done|]. apply (Hltb _ v); [done|]. congruence.
Qed.

(** C29. The release status never shows unvalidated data and never invents an
  update: after a start that succeeds, however many checks ran and whatever
  the channel's host answered (errors, oversized or malformed bodies, channels
  of another build), the channel and the time shown are those of the last
  reply that passed every check, or the compiled-in channel when none did; the
  channel shown consists of stable releases in canonical form, strictly newest
  first, at most 64, each from its own commit; its latest release is the
  newest; and the status exists, names the version that was built, and
  announces an update exactly when a listed release is newer than it.  Checks
  that are switched off stay off. *)
Theorem release_status_is_the_last_valid_channel env toml bundled module s0 events :
  start_from_environment env toml bundled module = Ok s0 ->
  let s := runs_background s0 events in
  (vs_channel s, vs_checked_at s) = default (vs_channel s0, None) (last (omap (accepted s0) events))
  /\ channel_ok (vs_project s0) (vs_channel s)
  /\ (forall latest e, rc_latest (vs_channel s) = Some latest -> e ∈ rc_releases (vs_channel s) -> e = latest \/ newer latest e)
  /\ (module = false -> s = s0)
  /\ exists current status, version_parse cargo_pkg_version = Some current /\ public_status s = Some status
     /\ vp_current_version status = cargo_pkg_version
     /\ vp_latest_version status = re_version <$> rc_latest (vs_channel s)
     /\ vp_checked_at status = vs_checked_at s
     /\ (vp_update_available status = true <-> exists e v, e ∈ rc_releases (vs_channel s)
           /\ version_parse (re_version e) = Some v /\ version_ltb current v = true)
     /\ (vp_status status = lit "disabled" <-> vs_channel_url s0 = None).
Proof.
  intros (Hok & Hchecked & _ & Ev & [current Hcurrent] & Hoff & _)%start_Ok s.
  destruct (runs_background_spec s0 s0 events) as [(Ep & Eu & _) E]; [done|]. fold s in Ep, Eu, E. rewrite Hchecked in E.
  assert (channel_ok (vs_project s0) (vs_channel s)) as Hs.
  { destruct (last (omap (accepted s0) events)) as [[c now]|] eqn:El; injection E as -> _; [by eapply last_accepted_ok|done]. }
  split_and!; [done|done|intros latest e; by eapply latest_is_newest|..].
  - intros Hm. specialize (Hoff Hm). unfold s. clear - Hoff. induction events as [|event events IH]; [done|].
    cbn. unfold background_round at 2. by rewrite Hoff.
  - unfold public_status. rewrite Ep, Ev, Hcurrent. cbn [mbind option_bind]. exists current. eexists. split_and!; try done.
    + cbn [vp_update_available]. by apply (announced_spec (vs_project s0)).
    + cbn [vp_status]. rewrite Eu. destruct (vs_channel_url s0); [|done]. cbn [is_none].
      repeat case_match; done.
Qed.
End release.
