(* ===== verification/ReleaseWitnesses.v ===== *)
(** * The release status at concrete inputs

    A build 0.1.1 with an empty channel compiled in reads a channel with two
    releases, then a broken one, then none. *)

From Stdlib Require Import Bool NArith ZArith Lia.
From S2P Require Import Prelude Text Extern InstallLock Signing Release ReleaseTheorems.
Import Toy.

(** Two texts are JSON here. *)
Definition release (version : string) (digit : N) : Value := JObject [
  (lit "version", JString (lit version)); (lit "tag", JString (lit "v" ++ lit version));
  (lit "releaseDate", JString (lit "2026-07-19")); (lit "sourceCommit", JString (repeat digit 40));
  (lit "releaseUrl", JString (REPOSITORY_URL ++ lit "/releases/tag/v" ++ lit version));
  (lit "manifestSha256", JString (repeat digit 64))].
Definition channel (latest : Value) (releases : list Value) : Value := JObject [
  (lit "schemaVersion", JString CHANNEL_SCHEMA); (lit "channel", JString (lit "stable"));
  (lit "repositoryUrl", JString REPOSITORY_URL); (lit "latest", latest); (lit "releases", JArray releases)].
#[local] Instance channel_json : SerdeJson := {
  to_vec _ := [];
  from_slice l :=
    if bool_decide (l = bytes (lit "empty")) then Some (channel JNull [])
    else if bool_decide (l = bytes (lit "two")) then Some (channel (release "0.2.0" 97) [release "0.2.0" 97; release "0.1.0" 98])
    else if bool_decide (l = bytes (lit "unordered")) then Some (channel (release "0.1.0" 98) [release "0.1.0" 98; release "0.2.0" 97])
    else None;
}.
#[local] Instance text_date : DateLib := { NaiveDate := rstr; date_parse s := if length s =? 10 then Some s else None; date_format s := s }.
#[local] Instance this_version : PackageVersion := lit "0.1.1".
#[local] Instance this_release : ReleaseToml := fun _ => Some {|
  rp_schema_version := RELEASE_SCHEMA; rp_version := lit "0.1.1"; rp_status := Unreleased; rp_channel := lit "stable";
  rp_release_date := None; rp_repository_url := REPOSITORY_URL; rp_developer_url := DEVELOPER_URL; rp_license := lit "Unlicense";
  rp_license_path := lit "UNLICENSE" |}.

Definition answer (text : string) : ChannelReply := ChannelResponse true None [Some (bytes (lit text))].
Definition answers : list (ChannelReply * DateTime) :=
  [(RequestFailed, 10%Z); (answer "two", 20%Z); (answer "unordered", 30%Z); (answer "no json", 40%Z)].
Definition started : result rstr VersionService := start_from_environment (fun _ => None) [] (lit "empty") true.
Definition statuses : result rstr (list (option (rstr * option DateTime))) :=
  s ← started;
  Ok ((fun n => v ← public_status (runs_background s (take n answers)); Some (vp_status v, vp_checked_at v)) <$> seq 0 5).
Example the_last_valid_channel_stays :
  statuses = Ok [Some (lit "no_release", None); Some (lit "offline", None); Some (lit "update_available", Some 20%Z);
                 Some (lit "update_available", Some 20%Z); Some (lit "update_available", Some 20%Z)].
Proof. vm_compute. reflexivity. Qed.

Lemma toy_version_trans (x y z : Version) : version_ltb x y = true -> version_ltb y z = true -> version_ltb x z = true.
Proof. destruct x as [[a b] c], y as [[a' b'] c'], z as [[a'' b''] c'']. apply str_ltb_trans. Qed.
Lemma release_status_is_the_last_valid_channel_witness :
  match started with
  | Ok s0 =>
      let s := runs_background s0 answers in
      (vs_channel s, vs_checked_at s) = default (vs_channel s0, None) (last (omap (accepted s0) answers))
      /\ channel_ok (vs_project s0) (vs_channel s) /\ vs_checked_at s = Some 20%Z
  | Err _ => False
  end.
Proof.
  destruct started as [s0|e] eqn:E; [|apply (f_equal is_ok) in E; vm_compute in E; discriminate E].
  cbn zeta. destruct (release_status_is_the_last_valid_channel toy_version_trans (fun _ => None) [] (lit "empty") true s0 answers E)
    as (Hlast & Hok & _). split; [exact Hlast|split; [exact Hok|]].
  assert (((fun s => vs_checked_at (runs_background s answers)) <$> started) = Ok (Some 20%Z)) as Ht by (vm_compute; reflexivity).
  rewrite E in Ht. cbn in Ht. by injection Ht.
Defined.
