(* ===== verification/Findings.v ===== *)
(** * Behaviours of the program that its messages and comments do not announce

    Each is a concrete run of the operations, evaluated. *)

From Stdlib Require Import Bool NArith ZArith Lia.
From S2P Require Import Prelude Text Extern Content Ai2Ai Renderer StoreBase StoreTaxonomy StoreContent StoreSpec Samples StoreRefine Store.
Import Toy.

(** A line feed followed by [hello] and a space. *)
Definition padded_slug : rstr := (10%N :: lit "hello ")%list.

(** [validate_slug] looks at the trimmed value only, and the untrimmed value is
    what is stored: a slug with a control character becomes a public path. *)
Example padded_slug_becomes_the_path :
  validate_slug padded_slug = Ok tt /\
  existsb is_control padded_slug = true /\
  doc_current_slug <$> documents (runs [CreateDocument (sample_document padded_slug) 10 20 100] site_db) !! 10%N
  = Some padded_slug.
Proof. by vm_compute. Qed.

Definition news : CreateCategoryInput :=
  {| cci_slug := lit "news"; cci_title := lit "News"; cci_description := None; cci_theme_profile := None |}.

(** Creating a category compares its slug with existing paths byte for byte,
    while publishing compares a root slug with categories case-insensitively:
    after a root document [News], the category [news] is accepted, and then the
    document can neither be published nor revised under its own slug. *)
Example category_shadows_a_root_document :
  let s := runs [CreateDocument (sample_document (lit "News")) 10 20 100] site_db in
  let s' := runs [CreateCategory 7 1 news 50 110] s in
  (run (CreateCategory 7 1 news 50 110) s).1 = None /\
  (run (PublishDocument 10 20 120) s).1 = None /\
  (run (PublishDocument 10 20 120) s').1 = Some DuplicateSlug /\
  (run (AppendRevision (sample_revision 10 20 (lit "News") None) 21 120) s').1 = Some DuplicateSlug.
Proof. by vm_compute. Qed.

(** Markdown that the parser delivers as two pieces of text. *)
#[local] Instance two_pieces : MarkdownLib := {
  OtherEvent := unit;
  markdown_events _ source := [EventText (take 3 source); EventText (drop 3 source)];
  push_html _ := [];
}.
(** [summarize_markdown] stops reading once it has as many characters as asked
    for, and adds the ellipsis only when it has more: cut after a piece of
    exactly that length, the excerpt of a longer text has no ellipsis. *)
Example excerpt_loses_its_ellipsis :
  summarize_markdown (lit "one two") 3 = lit "one" /\
  summarize_markdown (lit "one two") 4 = lit "one " ++ [8230%N].
Proof. by vm_compute. Qed.
